(* ===== verification/_CoqProject ===== *)
-Q . S2P
Prelude.v
Python.v
Identifiers.v
PyTime.v
Json.v
Digests.v
Limits.v
Contracts.v
DecisionPolicy.v
Transitions.v
Mailbox.v
Workflow.v
Continuation.v
MailboxRun.v
Triples.v
MailboxFacts.v
MailboxTurns.v
MailboxMeasure.v
MailboxIdle.v
ContinuationFacts.v
MailboxInbox.v
MailboxOutcomes.v
Definitions.v
Communications.v
Schema.v
Session.v
State.v
Budgets.v
CommunicationSafety.v
Reviews.v
Control.v
Ingestion.v
IngestionFacts.v
Quarantine.v
Deployment.v
Context.v
AgentTurn.v
AgentTurnFacts.v
Outbox.v
OutboxFacts.v
Gateway.v
GatewayFacts.v
Execution.v
Reconciliation.v
ExecutionFacts.v
Tenancy.v
ExecutionSafety.v
Activities.v
ActivityFacts.v
Projects.v
Packs.v
PackFacts.v
Outputs.v
Compiler.v
CompilerFacts.v
ScenarioFacts.v
Credentials.v
Authentication.v
AuthenticationFacts.v
System.v
CredentialSafety.v
Isolation.v
ApiEvents.v
ApiCommands.v
ApiFacts.v
ApiAudit.v
Adapters.v
AdapterContracts.v
AdapterSafety.v
ScenarioScript.v
ScenarioDriver.v
ScenarioRuns.v
ApiReads.v
ApiReadFacts.v
Startup.v
StartupFacts.v
OpenAIRunner.v
RunnerFacts.v
Fictional.v
FictionalFacts.v
