(* ===== verification/Prelude.v ===== *)
(** * Tiramisu: a verification development of the durable agent kernel

    Tiramisu ([src/backend/src/tiramisu_agents/], paths below are relative to it) runs
    long-lived business processes with language-model agents.  Events arrive through an
    API, are stored and correlated with a process, and reach its mailbox workflow through
    a transactional outbox; the workflow runs agent turns; a turn's decision is validated,
    its facts are folded into the durable state, and its actions pass policy, breakers,
    send budgets and human review before a provider is called.  Operators review, control
    and repair through the same API.  Every tenant's rows are kept apart by row-level
    security.  The development follows the code file by file: each definition is named
    after the function, class or column it stands for, and errors are values.

    ** Method

    [result] (below) is the outcome of fallible pure code: a value, or an exception with
    its class and text.  [Session.Tx] is a transaction: a state and error monad over the
    tables, the tenant of row-level security, the clocks and the identifiers drawn; an
    exception carries no state, for the transaction is rolled back.  [Workflow] is the
    monad of the Temporal workflow: it runs up to an await and goes on with an activation.
    Records are updated with [r <| f := v |]; an instance of [Rebuild] makes the update
    compute.  Two interfaces are type classes: [Table] (a row type with its keys,
    constraints and laws), against which every statement, the laws of [System] and the
    isolation of [Isolation] are proved; and [AdapterContract] (what the executor relies on
    in a provider), which the simulated providers implement.  [Zones], the time-zone
    database, is a class as well: the tables of zone rules are not under [src/].

    ** The files

    Foundations.  [Prelude]: results, records, lists, tactics.  [Python], [Identifiers],
    [PyTime], [Json], [Digests]: the values and library functions of Python the
    code uses - text as UTF-8, [UUID] texts, [datetime] with [isoformat] and
    [fromisoformat], JSON with its canonical text, SHA-256, name-based identifiers.

    The core ([core/]).  [Limits] (limits.py), [Contracts] (contracts/), [DecisionPolicy]
    (policy.py, action_policy.py, action_identity.py), [Transitions] (transitions.py).

    The process mailbox ([temporal/workflows/mailbox.py]).  [Mailbox] has the state and
    the signal handlers, [Workflow] the runtime, [MailboxRun] the coroutines of a run,
    [Continuation] Continue-As-New.  [Triples] is a logic of runs; [MailboxFacts],
    [MailboxTurns], [MailboxMeasure], [MailboxIdle], [MailboxInbox], [MailboxOutcomes] and
    [ContinuationFacts] use it.

    Durable state.  [Schema] ([db/models/]) has the rows and their constraints, [Session]
    ([db/session.py]) the statements.  One file per service: [State] and [Control]
    ([processes/]), [Budgets] ([budgets/]), [Communications] and [CommunicationSafety]
    ([communications/]), [Reviews] ([reviews/]), [Ingestion], [Quarantine] ([events/]),
    [Outbox] ([temporal/dispatcher.py], [events/outbox_recovery.py]), [Gateway],
    [Execution], [Reconciliation] ([actions/]), [Deployment] and [Tenancy] (the pins of a
    process, [security/tenancy.py], [security/deployment_assignment.py]), [Credentials]
    ([security/]).  Files named [...Facts] or [...Safety] hold the longer arguments.
    [System] puts every transaction of the services into one transition system.

    Agents.  [Context] ([agents/context.py]) loads the input of a turn, [AgentTurn]
    ([temporal/activities/agent_turn.py]) asks the model for a decision through
    [OpenAIRunner] ([agents/openai_runner.py]), whose vendor SDK is an argument,
    [Activities] ([temporal/activities/]) are the calls from the workflow into the services.

    Client projects.  [Definitions] ([processes/definitions.py]) is the configuration of a
    process; [Projects], [Compiler] and [Outputs] ([projects/]) compile a project,
    [Packs] ([extensions/]) checks the pack an API and a worker are started with, and
    [Startup] ([api/settings.py], [api/deployment.py], [api/main.py], [extensions/loader.py],
    [temporal/worker.py]) starts them.

    The API ([api/]).  [Authentication] (operator_auth.py) identifies the sender,
    [ApiEvents], [ApiCommands] and [ApiReads] are the endpoints.

    Tests of projects.  [Adapters] ([adapters/stubs/]) are the simulated providers,
    [AdapterContracts] ([testkit/adapter_contracts.py]) the contract they are checked
    against, [ScenarioScript] and [ScenarioDriver] ([testkit/]) run the scenarios of a
    compiled project through the kernel's policies.  [Fictional] ([builtin/]) is the
    bundled project.

    ** How the parts meet

    [ApiCommands.respond] authenticates in two transactions and runs the command in a third;
    [Ingestion.ingest], [Control.apply_control], [Reviews.apply_review],
    [Quarantine.resolve] and [Reconciliation.resolve_unknown] write outbox messages that
    [Outbox.step] delivers as the signals of [Mailbox]; the activities a run of
    [MailboxRun] logs are those of [Activities] and [AgentTurn], whose transactions are
    those of [Context], [Budgets], [State], [Gateway] and [Execution]; [System.next] runs
    any of these transactions.  Within one transaction nothing else runs; between two of
    them anything may: [Outbox.step] (dispatchers), [Execution.step] (provider calls) and
    the phases of [AgentTurn] are interleaved step by step.

    ** What is proved

    Of the database: constraints hold in every reachable state, evidence is append-only and
    final rows stay final, processes keep their pins ([System]); a transaction changes rows
    of its tenant only ([Isolation]) and a reader sees rows of its tenant only
    ([ApiReadFacts]).  Of authority: credentials authenticate whom they were issued to until
    they are revoked, and requests are authorised and attributed ([AuthenticationFacts],
    [CredentialSafety], [ApiAudit], [ApiFacts]).  Of turns: the validator meets its
    declarative specification ([DecisionPolicy]), the model sees the turn asked for, is
    called under the controls and charged, its answer is judged on the facts of that turn,
    and only admissible decisions return ([Context], [AgentTurnFacts], [RunnerFacts],
    [ActivityFacts]); claims never become facts ([Transitions]).  Of the
    mailbox: every message is taken at most once, a sleeping run is idle, runs do not spin,
    chains of turns are bounded, Continue-As-New loses nothing but old records
    ([Mailbox...], [ContinuationFacts]).  Of actions: execution at most once and under
    current authority, replays of decisions and events find what was stored, claims of
    outbox messages are exclusive, approvals are final and exact, send limits and budgets
    hold ([ExecutionFacts], [ExecutionSafety], [GatewayFacts], [IngestionFacts],
    [OutboxFacts], [Reviews], [Communications], [CommunicationSafety], [Budgets]).  Of
    projects: compiled packs agree with themselves, a worker runs what the API starts
    ([StartupFacts]), accepted scenarios are scripts, their
    runs end and pass only as scripts, simulated providers are idempotent, and the bundled
    project's bookings are paid for ([CompilerFacts], [PackFacts], [ScenarioFacts],
    [ScenarioRuns], [AdapterSafety], [FictionalFacts]).  Where
    the code falls short of what it means to do, a theorem exhibits it
    ([MailboxOutcomes], [ExecutionSafety], [ActivityFacts], [GatewayFacts], [Control]).

    ** Fuel

    A chain of follow-up turns is given six turns: the source stops it at four
    ([MailboxTurns]).  The loop of a run is given [rounds_bound] of its world and never
    exhausts it ([MailboxIdle]).  The waiting loops inside a run are given the length of the
    script of activations, each of which they consume.  An agent turn advances at most ten
    phases ([AgentTurnFacts]).  A scenario is given as many rounds as it has steps
    ([ScenarioRuns]).  The digests run over the blocks of their padded input.

    ** Not modelled

    The Temporal server: cancellation, activity time-outs and retries are activations the
    model is given, or left out.  Interleaving inside a transaction: advisory and row locks
    serialise it in the source, and the model runs transactions atomically.  Updates do not
    check the check constraints again.  Columns and checks that no modelled code reads:
    length limits, formats of fingerprints and slugs, [late_event_policy]; [updated_at] is an
    argument of the listing that sorts by it.  The texts of pydantic's errors, its
    coercions, and [repr] of containers.  The first and last representable years in
    local-time arithmetic, [UUID] texts with underscores, the observer of turn events (a
    test hook), and what the simulated providers hold after a run of a scenario that raised.
    Of an external reference the field lengths are checked only where a scenario is read.

    The run of the bundled scenario: its compilation is too large a term for the kernel's
    checker to evaluate; [FictionalFacts] evaluates the construction of the project.
    Of the start of an API and a worker: reading the environment, importing a module,
    connecting and serving.

    Whole files: the command lines ([projects/cli.py], [security/admin_cli.py]) parse
    arguments and print what the modelled services return; [projects/scaffold.py] writes
    files; [security/deployment_lock.py] is an advisory lock; [db/base.py] and the
    migrations declare what [Schema] states; [testkit/temporal_scenarios.py] and the other
    test fixtures need a running Temporal server and database. *)

From stdpp Require Import base gmap sets list strings pretty.
From Stdlib Require Import ZArith Lia.

(** ** Outcomes of fallible Python code *)

(** The exception classes the modelled code raises or catches.  [ValueError]
    is the base class of every class for which [is_value_error] holds. *)
Inductive exn_class :=
  | ValueError
  | RuntimeError
  | LookupError
  | TypeError
  | SafetyLimitExceeded
  | DecisionRejected
  | ProcessTransitionRejected
  | ProcessStateConflict
  | CommunicationSafetyBlocked
  | ModelBudgetExceeded
  | UnknownModelPrice
  | BreakerConflict
  | ActionPersistenceConflict
  | ActionExecutionRejected
  | ActionExecutionSuspended
  | ActionResolutionConflict
  | ReviewConflict
  | ProcessControlConflict
  | OutboxRecoveryConflict
  | TriggerReferenceRequired
  | ReservedKernelEventType
  | TenantNotAuthorized
  | TenantSuspended
  | TenantUnavailable
  | TenantNotFound
  | TenantDeploymentConflict
  | QuarantineNotFound
  | QuarantineConflict
  | DeploymentCompatibilityError
  | SafetyControlConflict
  | DuplicateProcessDefinition
  | AmbiguousTrigger
  | IntegrityError
  | MultipleResultsFound
  | AgentContextError
  | AgentContextLimitExceeded
  | ProcessLifetimeExceeded
  | ProjectConfigurationError
  | ClientPackError
  | FictionalDeploymentError
  | TenantProvisioningConflict
  | ScenarioRunError
  | KeyError
  | AssertionError
  | OverflowError
  | HTTPException (status_code : Z)
  | ApplicationError (type : string).   (* raised with [non_retryable=True] *)

(** A raised exception: its class and the text [str(error)] gives. *)
Record exn := Exn { exn_cls : exn_class; exn_msg : string }.

(** The value a call returns, or the exception it raises. *)
Inductive result (A : Type) :=
  | Ok (a : A)
  | Raise (e : exn).
Arguments Ok {A} a.
Arguments Raise {A} e.

#[export] Instance exn_class_eq_dec : EqDecision exn_class.
Proof. solve_decision. Defined.
#[export] Instance exn_eq_dec : EqDecision exn.
Proof. solve_decision. Defined.
#[export] Instance result_eq_dec {A} `{EqDecision A} : EqDecision (result A).
Proof. solve_decision. Defined.

#[export] Instance result_ret : MRet result := λ A a, Ok a.
#[export] Instance result_bind : MBind result := λ A B f m,
  match m with Ok a => f a | Raise e => Raise e end.

(** [raise cls(msg)] and [if cond: raise cls(msg)]. *)
Definition raise {A} (c : exn_class) (msg : string) : result A := Raise (Exn c msg).

Definition raise_if (b : bool) (c : exn_class) (msg : string) : result unit :=
  if b then raise c msg else Ok tt.

(** [isinstance(error, ValueError)]. *)
Definition is_value_error (c : exn_class) : bool :=
  match c with
  | RuntimeError | LookupError | TypeError | QuarantineNotFound
  | TenantUnavailable | TenantNotFound | TenantSuspended | TenantNotAuthorized
  | IntegrityError | MultipleResultsFound | KeyError | AssertionError | OverflowError
  | HTTPException _ | ApplicationError _ => false
  | _ => true
  end.

(** [try: m except ValueError as error: raise cls(str(error)) from error]. *)
Definition rewrap_value_error {A} (c : exn_class) (m : result A) : result A :=
  match m with
  | Raise e => if is_value_error (exn_cls e) then raise c (exn_msg e) else Raise e
  | Ok a => Ok a
  end.

Definition is_ok {A} (m : result A) : bool :=
  match m with Ok _ => true | Raise _ => false end.

(** A loop that checks every element in order and stops at the first raise. *)
Fixpoint for_each {A} (f : A → result unit) (xs : list A) : result unit :=
  match xs with
  | [] => Ok tt
  | x :: xs => f x ≫= λ _, for_each f xs
  end.

(** ** Lists as the source uses them *)

Lemma elem_of_filter_bool {A} (p : A → bool) xs x : x ∈ List.filter p xs ↔ p x = true ∧ x ∈ xs.
Proof. rewrite !list_elem_of_In, filter_In. tauto. Qed.

(** [next((i for i, x in enumerate(xs) if p x), None)]. *)
Fixpoint find_index {A} (p : A → bool) (xs : list A) : option nat :=
  match xs with
  | [] => None
  | x :: xs => if p x then Some 0 else S <$> find_index p xs
  end.

(** [xs.pop(i)], the remaining list. *)
Definition pop_at {A} (i : nat) (xs : list A) : list A := take i xs ++ drop (S i) xs.

(** [xs.remove(x)] with [ValueError] suppressed: the first occurrence goes. *)
Fixpoint remove_first {A} `{EqDecision A} (x : A) (xs : list A) : list A :=
  match xs with
  | [] => []
  | y :: ys => if decide (x = y) then ys else y :: remove_first x ys
  end.

(** [xs[-n:]] for [n > 0]. *)
Definition last_n {A} (n : nat) (xs : list A) : list A := drop (length xs - n) xs.

(** [set(xs).issubset(ys)]. *)
Definition subset_of {A} `{EqDecision A} (xs ys : list A) : bool :=
  forallb (λ x, bool_decide (x ∈ ys)) xs.

(** [set(xs) == set(ys)]. *)
Definition same_set {A} `{EqDecision A} (xs ys : list A) : bool :=
  subset_of xs ys && subset_of ys xs.

(** [len(xs) == len(set(xs))]. *)
Definition all_unique {A} `{EqDecision A} (xs : list A) : bool := bool_decide (NoDup xs).

(** ** Record update

    [r <| f := v |>] is [r] with field [f] replaced and [r <| f ::= g |>] with
    [g] applied to it.  A record type declares the rebuilding of a value from its
    projections as an instance of [Rebuild]; the setters follow from it. *)

Class Rebuild (R : Type) := rebuild : R → R.
Class FieldUpdate {R E : Type} (proj : R → E) := field_update : (E → E) → R → R.
Arguments field_update {R E} proj {_} f r /.

Ltac derive_field_update :=
  lazymatch goal with
  | |- @FieldUpdate ?R ?E ?proj =>
      let i := constr:(_ : Rebuild R) in
      let i := eval red in i in
      exact (λ (f : E → E) (r : R), ltac:(
        let t := eval cbv beta in (i r) in
        match t with context C [proj r] => let t' := context C [f (proj r)] in exact t' end))
  end.
#[export] Hint Extern 1 (FieldUpdate _) => derive_field_update : typeclass_instances.

Declare Scope record_scope.
Open Scope record_scope.
Notation "r <| proj ::= f |>" := (field_update proj f r)
  (at level 12, left associativity, format "r  <| proj  ::=  f |>") : record_scope.
Notation "r <| proj := v |>" := (field_update proj (λ _, v) r)
  (at level 12, left associativity, format "r  <| proj  :=  v |>") : record_scope.

(** ** Proof automation *)

Create HintDb tiramisu.
Create Rewrite HintDb tiramisu.

(** Split a chain of [result] binds in a hypothesis [m ≫= k = Ok x]. *)
Lemma bind_ok {A B} (m : result A) (k : A → result B) b :
  m ≫= k = Ok b ↔ ∃ a, m = Ok a ∧ k a = Ok b.
Proof. destruct m as [a|e]; cbn; split; [eauto|intros (? & [= <-] & ?); done|done|intros (? & ? & ?); done]. Qed.

Lemma mapM_ok {A B} (f : A → result B) xs ys :
  mapM f xs = Ok ys ↔ Forall2 (λ x y, f x = Ok y) xs ys.
Proof.
  revert ys. induction xs as [|x xs IH]; intros ys; cbn.
  - unfold mret, result_ret. split; [by intros [= <-]|by intros ->%Forall2_nil_inv_l].
  - rewrite bind_ok. setoid_rewrite bind_ok. setoid_rewrite IH. unfold mret, result_ret. split.
    + intros (y & Hy & ys' & Hys & [= <-]). by constructor.
    + intros H. inversion H; subst. eauto.
Qed.

Lemma raise_if_ok b c msg u : raise_if b c msg = Ok u ↔ b = false.
Proof. destruct b, u; cbn; naive_solver. Qed.

Lemma for_each_ok {A} (f : A → result unit) xs :
  for_each f xs = Ok tt ↔ Forall (λ x, f x = Ok tt) xs.
Proof.
  induction xs as [|x xs IH]; cbn; [split; auto|].
  rewrite Forall_cons, bind_ok. split; [intros ([] & ? & ?)|intros [? ?]; exists tt]; tauto.
Qed.

Lemma rewrap_ok {A} c (m : result A) a : rewrap_value_error c m = Ok a ↔ m = Ok a.
Proof. destruct m as [|e]; cbn; [done|]. destruct (is_value_error _); naive_solver. Qed.

(** The call returns. *)
Definition succeeds {A} (m : result A) : Prop := ∃ a, m = Ok a.

Lemma seq_ok {A B} (m : result A) (k : result B) b : (m ≫= λ _, k) = Ok b ↔ succeeds m ∧ k = Ok b.
Proof. rewrite bind_ok. unfold succeeds. naive_solver. Qed.

Lemma succeeds_seq {A B} (m : result A) (k : result B) :
  succeeds (m ≫= λ _, k) ↔ succeeds m ∧ succeeds k.
Proof. unfold succeeds at 1. setoid_rewrite seq_ok. unfold succeeds. naive_solver. Qed.

Lemma succeeds_unit (m : result unit) : succeeds m ↔ m = Ok tt.
Proof. split; [intros [[] ->]; done|intros ->; by exists tt]. Qed.

Lemma succeeds_ok {A} (a : A) : succeeds (Ok a) ↔ True.
Proof. split; [done|by exists a]. Qed.

Lemma succeeds_raise {A} c msg : succeeds (raise (A:=A) c msg) ↔ False.
Proof. split; [intros [? [=]]|done]. Qed.

Lemma succeeds_raise_if b c msg : succeeds (raise_if b c msg) ↔ b = false.
Proof. rewrite succeeds_unit. apply raise_if_ok. Qed.

Lemma succeeds_rewrap {A} c (m : result A) : succeeds (rewrap_value_error c m) ↔ succeeds m.
Proof. unfold succeeds. by setoid_rewrite rewrap_ok. Qed.

Lemma succeeds_for_each {A} (f : A → result unit) (P : A → Prop) xs :
  (∀ x, succeeds (f x) ↔ P x) → succeeds (for_each f xs) ↔ Forall P xs.
Proof.
  intros H. rewrite succeeds_unit, for_each_ok. apply Forall_iff. intros x.
  by rewrite <- succeeds_unit.
Qed.

Lemma not_succeeds {A} (m : result A) : ¬ succeeds m ↔ ∃ e, m = Raise e.
Proof. destruct m as [a|e]; unfold succeeds; naive_solver. Qed.

(** Every exception the call can raise satisfies [P] on its class. *)
Definition raises_only {A} (P : exn_class → Prop) (m : result A) : Prop :=
  ∀ e, m = Raise e → P (exn_cls e).

Lemma raises_only_ok {A} P (a : A) : raises_only P (Ok a).
Proof. by intros e [=]. Qed.
Lemma raises_only_raise {A} (P : exn_class → Prop) c msg : P c → raises_only P (raise (A:=A) c msg).
Proof. by intros H e [= <-]. Qed.
Lemma raises_only_raise_if (P : exn_class → Prop) b c msg : P c → raises_only P (raise_if b c msg).
Proof. destruct b; [apply raises_only_raise|intros; apply raises_only_ok]. Qed.
Lemma raises_only_bind {A B} P (m : result A) (k : A → result B) :
  raises_only P m → (∀ a, raises_only P (k a)) → raises_only P (m ≫= k).
Proof. destruct m as [a|e0]; intros Hm Hk e; [apply Hk|intros [= <-]; by apply Hm]. Qed.
Lemma raises_only_for_each {A} P (f : A → result unit) xs :
  (∀ x, raises_only P (f x)) → raises_only P (for_each f xs).
Proof.
  intros H. induction xs as [|x xs IH]; cbn; [apply raises_only_ok|].
  apply raises_only_bind; auto.
Qed.
Lemma raises_only_rewrap {A} (P : exn_class → Prop) c (m : result A) :
  P c → raises_only (λ c', is_value_error c' = true) m → raises_only P (rewrap_value_error c m).
Proof.
  intros Hc Hm e. destruct m as [|e0]; cbn; [done|]. rewrite (Hm e0 eq_refl). by intros [= <-].
Qed.

#[export] Hint Resolve raises_only_ok raises_only_raise raises_only_raise_if raises_only_bind
  raises_only_for_each raises_only_rewrap : tiramisu.

Ltac bind_inv :=
  repeat match goal with
  | H : mbind _ _ = Ok _ |- _ => apply bind_ok in H as (? & ? & H)
  | H : raise_if _ _ _ = Ok _ |- _ => apply raise_if_ok in H
  | H : raise _ _ = Ok _ |- _ => discriminate H
  | H : Raise _ = Ok _ |- _ => discriminate H
  | H : mret _ = Ok _ |- _ => injection H as H
  | H : Ok _ = Ok _ |- _ => injection H as H
  | u : unit |- _ => destruct u
  end.

(** Case on the boolean test of the innermost conditional. *)
Ltac case_if :=
  match goal with
  | |- context [if ?b then _ else _] => destruct b eqn:?
  | H : context [if ?b then _ else _] |- _ => destruct b eqn:?
  end.

(** ** Facts about the list operations *)

Lemma find_index_Some {A} (p : A → bool) xs i :
  find_index p xs = Some i →
  ∃ x, xs !! i = Some x ∧ p x = true ∧ Forall (λ y, p y = false) (take i xs).
Proof.
  revert i. induction xs as [|y ys IH]; intros i; cbn; [done|].
  destruct (p y) eqn:Hy; [intros [= <-]; exists y; cbn; auto|].
  destruct (find_index p ys) as [j|]; cbn; [|done]. intros [= <-].
  destruct (IH j eq_refl) as (x & ? & ? & ?). exists x. cbn. auto using Forall_cons_2.
Qed.

Lemma find_index_None {A} (p : A → bool) xs :
  find_index p xs = None ↔ Forall (λ y, p y = false) xs.
Proof.
  induction xs as [|y ys IH]; cbn; [split; auto|].
  rewrite Forall_cons, <- IH. destruct (p y); [split; [done|intros [? _]; done]|].
  destruct (find_index p ys); cbn; split; try done; intros [_ ?]; done.
Qed.

Lemma pop_at_Permutation {A} i (xs : list A) x :
  xs !! i = Some x → xs ≡ₚ x :: pop_at i xs.
Proof.
  intros H. unfold pop_at. rewrite Permutation_middle.
  by rewrite (take_drop_middle xs i x H).
Qed.

Lemma elem_of_remove_first {A} `{EqDecision A} (x y : A) xs :
  y ∈ remove_first x xs → y ∈ xs.
Proof.
  induction xs as [|z zs IH]; cbn; [done|]. case_decide; set_solver.
Qed.

Lemma remove_first_NoDup {A} `{EqDecision A} (x : A) xs :
  NoDup xs → NoDup (remove_first x xs) ∧ x ∉ remove_first x xs.
Proof.
  induction 1 as [|z zs Hz Hnd [IH1 IH2]]; cbn; [split; [constructor|set_solver]|].
  case_decide as E; [subst; auto|]. split; [|set_solver].
  constructor; [|done]. intros ?%elem_of_remove_first. done.
Qed.

Lemma subset_of_spec {A} `{EqDecision A} (xs ys : list A) :
  subset_of xs ys = true ↔ xs ⊆ ys.
Proof.
  unfold subset_of. rewrite forallb_forall. setoid_rewrite bool_decide_eq_true.
  split; intros H x; [intros ?%list_elem_of_In; auto|intros ?%list_elem_of_In; auto].
Qed.

Lemma same_set_spec {A} `{EqDecision A} (xs ys : list A) :
  same_set xs ys = true ↔ ∀ x, x ∈ xs ↔ x ∈ ys.
Proof.
  unfold same_set. rewrite andb_true_iff, !subset_of_spec. set_solver.
Qed.

Lemma filter_nil {A} (q : A → bool) xs : (∀ x, x ∈ xs → q x = false) → List.filter q xs = [].
Proof.
  induction xs as [|x xs IH]; cbn; intros Hq; [done|]. rewrite (Hq x) by apply list_elem_of_here.
  apply IH. intros y Hy. apply Hq. by apply list_elem_of_further.
Qed.

Lemma filter_filter_bool {A} (p q : A → bool) xs :
  List.filter q (List.filter p xs) = List.filter (λ x, p x && q x) xs.
Proof. induction xs as [|x xs IH]; cbn; [done|]. destruct (p x); cbn; rewrite IH; done. Qed.

Lemma list_bind_ext_in {A B} (f g : A → list B) xs :
  (∀ x, x ∈ xs → f x = g x) → xs ≫= f = xs ≫= g.
Proof.
  induction xs as [|x xs IH]; intros E; cbn; [done|]. rewrite (E x) by apply list_elem_of_here.
  f_equal. apply IH. intros y Hy. apply E. by apply list_elem_of_further.
Qed.

Lemma last_n_length {A} n (xs : list A) : length (last_n n xs) ≤ n.
Proof. unfold last_n. rewrite length_drop. lia. Qed.

Lemma last_n_sublist {A} n (xs : list A) : last_n n xs `sublist_of` xs.
Proof. apply sublist_drop. Qed.

#[export] Hint Rewrite @succeeds_seq @succeeds_ok @succeeds_raise succeeds_raise_if @succeeds_rewrap : tiramisu.
