(* ===== verification/Python.v ===== *)
(** * Python values the kernel uses: [str], [UUID], integers in text

    A Python [str] is its UTF-8 encoding, a Rocq [string] of bytes, so
    [len(s.encode("utf-8"))] is the length of the Rocq string, [len(s)] counts
    the bytes that start a code point, and comparing strings compares code
    points (strings with lone surrogates, which cannot be encoded, are not
    represented). *)

From stdpp Require Import base list strings pretty countable sorting.
From Stdlib Require Import ZArith NArith Lia Ascii.
From S2P Require Import Prelude.

#[local] Open Scope string_scope.

(** ** Bytes and code points *)

Definition byte_val (c : ascii) : N := N_of_ascii c.

(** A continuation byte is 10xxxxxx. *)
Definition is_continuation (c : ascii) : bool :=
  ((128 <=? byte_val c) && (byte_val c <? 192))%N.

(** [len(s)] *)
Fixpoint py_len (s : string) : nat :=
  match s with
  | EmptyString => 0
  | String c s => (if is_continuation c then 0 else 1) + py_len s
  end.

(** [len(s.encode("utf-8"))] *)
Definition utf8_len (s : string) : nat := String.length s.

(** [s[:n]]: the first [n] code points. *)
Fixpoint py_prefix (n : nat) (s : string) : string :=
  match s with
  | EmptyString => EmptyString
  | String c s' =>
      if is_continuation c then String c (py_prefix n s')
      else match n with
           | O => EmptyString
           | S n => String c (py_prefix n s')
           end
  end.

(** ** [str.strip] *)

(** The one-byte characters with [str.isspace]: 9-13, 28-31 and 32. *)
Definition ascii_space (c : ascii) : bool :=
  let v := byte_val c in
  (((9 <=? v) && (v <=? 13)) || ((28 <=? v) && (v <=? 32)))%N.

(** U+0085 and U+00A0. *)
Definition space2 (a b : ascii) : bool :=
  ((byte_val a =? 194) && ((byte_val b =? 133) || (byte_val b =? 160)))%N.

(** U+1680, U+2000-U+200A, U+2028, U+2029, U+202F, U+205F and U+3000. *)
Definition space3 (a b c : ascii) : bool :=
  let '(x, y, z) := (byte_val a, byte_val b, byte_val c) in
  (((x =? 225) && (y =? 154) && (z =? 128))
   || ((x =? 226) && (y =? 128)
       && (((128 <=? z) && (z <=? 138)) || (z =? 168) || (z =? 169) || (z =? 175)))
   || ((x =? 226) && (y =? 129) && (z =? 159))
   || ((x =? 227) && (y =? 128) && (z =? 128)))%N.

Fixpoint lstrip (s : string) : string :=
  match s with
  | String a s1 =>
      if ascii_space a then lstrip s1
      else match s1 with
           | String b s2 =>
               if space2 a b then lstrip s2
               else match s2 with
                    | String c s3 => if space3 a b c then lstrip s3 else s
                    | EmptyString => s
                    end
           | EmptyString => s
           end
  | EmptyString => EmptyString
  end.

(** [lstrip] of the reversed bytes: the encodings are read backwards. *)
Fixpoint lstrip_rev (s : string) : string :=
  match s with
  | String a s1 =>
      if ascii_space a then lstrip_rev s1
      else match s1 with
           | String b s2 =>
               if space2 b a then lstrip_rev s2
               else match s2 with
                    | String c s3 => if space3 c b a then lstrip_rev s3 else s
                    | EmptyString => s
                    end
           | EmptyString => s
           end
  | EmptyString => EmptyString
  end.

Definition rstrip (s : string) : string := String.rev (lstrip_rev (String.rev s)).

Definition strip (s : string) : string := rstrip (lstrip s).

(** [not s] and [not s.strip()]. *)
Definition is_empty (s : string) : bool := bool_decide (s = EmptyString).
Definition is_blank (s : string) : bool := is_empty (strip s).

(** ** Identifier patterns *)

Definition is_lower (c : ascii) : bool := ((97 <=? byte_val c) && (byte_val c <=? 122))%N.
Definition is_ident_char (c : ascii) : bool :=
  is_lower c || ((48 <=? byte_val c) && (byte_val c <=? 57))%N || (byte_val c =? 95)%N.

Fixpoint all_chars (p : ascii → bool) (s : string) : bool :=
  match s with EmptyString => true | String c s => p c && all_chars p s end.

(** The pattern [[a-z][a-z0-9_]*] matched to the end of the string. *)
Definition is_identifier (s : string) : bool :=
  match s with EmptyString => false | String c s => is_lower c && all_chars is_ident_char s end.

(** [s.split(".")] *)
Fixpoint split_dots (s : string) : list string :=
  match s with
  | EmptyString => [EmptyString]
  | String c s =>
      if (byte_val c =? 46)%N then EmptyString :: split_dots s
      else match split_dots s with
           | x :: xs => String c x :: xs
           | [] => [String c EmptyString]
           end
  end.

(** Two or more identifiers joined by dots. *)
Definition is_dotted_identifier (s : string) : bool :=
  let parts := split_dots s in (2 <=? length parts)%nat && forallb is_identifier parts.

(** ** [UUID] *)

Record UUID := uuid { uuid_int : N }.

#[export] Instance UUID_eq_dec : EqDecision UUID.
Proof. solve_decision. Defined.
#[export] Instance UUID_countable : Countable UUID.
Proof. refine (inj_countable' uuid_int uuid _). by intros []. Defined.

Definition hex_digit (n : N) : ascii :=
  ascii_of_N (if (n <? 10)%N then 48 + n else 87 + n)%N.

(** The [k] low hexadecimal digits of [n]. *)
Fixpoint hex_digits (k : nat) (n : N) (acc : string) : string :=
  match k with
  | O => acc
  | S k => hex_digits k (n / 16)%N (String (hex_digit (n mod 16)) acc)
  end.

(** [str(uuid)]: 32 hexadecimal digits grouped 8-4-4-4-12. *)
Definition str_uuid (u : UUID) : string :=
  let n := uuid_int u in
  hex_digits 8 (n / 2 ^ 96)%N "" +:+ "-" +:+
  hex_digits 4 (n / 2 ^ 80)%N "" +:+ "-" +:+
  hex_digits 4 (n / 2 ^ 64)%N "" +:+ "-" +:+
  hex_digits 4 (n / 2 ^ 48)%N "" +:+ "-" +:+
  hex_digits 12 n "".

(** ** [", ".join(xs)] and [sorted(xs)] for strings *)

Fixpoint join_with (sep : string) (xs : list string) : string :=
  match xs with
  | [] => ""
  | [x] => x
  | x :: xs => x +:+ sep +:+ join_with sep xs
  end.

(** [sorted(xs)]: strings compare in code-point order, which is byte order on
    UTF-8. *)
Definition sorted (xs : list string) : list string := merge_sort String.le xs.

(** [sorted(xs, key=key)] for items with pairwise different keys. *)
Definition key_le {A} (key : A → string) (x y : A) : Prop := String.le (key x) (key y).
#[export] Instance key_le_dec {A} (key : A → string) x y : Decision (key_le key x y) :=
  String.le_dec (key x) (key y).
Definition sort_by {A} (key : A → string) (xs : list A) : list A := merge_sort (key_le key) xs.

Example strip_ex : strip "  a b 	" = "a b".
Proof. reflexivity. Qed.
Example dotted_ex : map is_dotted_identifier ["a.b"; "a"; "a."; "A.b"; "x1_.y.z"]
  = [true; false; false; false; true].
Proof. reflexivity. Qed.
Example str_uuid_ex : str_uuid (uuid 1) = "00000000-0000-0000-0000-000000000001".
Proof. reflexivity. Qed.

(** ** Facts *)

Lemma py_len_le_utf8 s : (py_len s ≤ utf8_len s)%nat.
Proof. unfold utf8_len. induction s as [|c s IH]; cbn; [lia|]. destruct (is_continuation c); lia. Qed.

Lemma py_prefix_len n s : (py_len (py_prefix n s) ≤ n)%nat.
Proof.
  revert n. induction s as [|c s IH]; intros n; cbn; [lia|].
  destruct (is_continuation c) eqn:E; cbn.
  - rewrite E. apply IH.
  - destruct n; cbn; [lia|]. rewrite E. specialize (IH n). lia.
Qed.

Section sorting.
Context {A : Type} (key : A → string).

#[export] Instance key_le_trans : Transitive (key_le key).
Proof. intros x y z. unfold key_le. apply transitivity. Qed.

#[export] Instance key_le_total : Total (key_le key).
Proof. intros x y. unfold key_le. apply total; apply _. Qed.

Lemma sort_by_Permutation xs : sort_by key xs ≡ₚ xs.
Proof. apply merge_sort_Permutation. Qed.

(** Sorting forgets the order of the input: permutations with pairwise
    different keys sort to the same list. *)
Lemma sort_by_unique xs ys :
  NoDup (key <$> xs) → xs ≡ₚ ys → sort_by key xs = sort_by key ys.
Proof.
  intros Hnd Hp.
  apply (StronglySorted_unique_strong (key_le key)).
  - intros x y Hx Hy Hxy Hyx.
    assert (key x = key y) as E by (eapply (anti_symm String.le); eauto).
    rewrite sort_by_Permutation in Hx. rewrite sort_by_Permutation in Hy.
    rewrite <- Hp in Hy.
    apply list_elem_of_lookup in Hx as [i Hi], Hy as [j Hj].
    assert (i = j) as <-; [|congruence].
    eapply (NoDup_lookup (key <$> xs) i j); [done| |];
      rewrite list_lookup_fmap, ?Hi, ?Hj; cbn; by rewrite ?E.
  - apply StronglySorted_merge_sort; apply _.
  - apply StronglySorted_merge_sort; apply _.
  - by rewrite !sort_by_Permutation.
Qed.
End sorting.

Lemma sorted_Permutation xs : sorted xs ≡ₚ xs.
Proof. apply merge_sort_Permutation. Qed.

(** [sorted] of two enumerations of one set agree. *)
Lemma sorted_unique xs ys : xs ≡ₚ ys → sorted xs = sorted ys.
Proof.
  intros Hp. apply (StronglySorted_unique String.le).
  - apply StronglySorted_merge_sort; apply _.
  - apply StronglySorted_merge_sort; apply _.
  - unfold sorted. by rewrite !merge_sort_Permutation.
Qed.
