(* ===== verification/Identifiers.v ===== *)
(** * Identifiers as text

    Commands and stored documents carry identifiers as text, written by [str] and read
    by [UUID].  [UUID] is modelled on the texts it documents: hexadecimal digits of
    either case, with the [urn:] and [uuid:] prefixes, braces and hyphens it ignores; the
    underscores that [int] accepts between digits are refused here. *)

From stdpp Require Import base list strings.
From Stdlib Require Import NArith Lia Ascii String.
From S2P Require Import Prelude Python.

#[local] Open Scope string_scope.

(** [s.replace(pat, "")]; [skip] characters of a match are left out. *)
Fixpoint remove_text (pat : string) (skip : nat) (s : string) : string :=
  match s with
  | EmptyString => EmptyString
  | String c s' => match skip with
                   | S k => remove_text pat k s'
                   | O => if String.prefix pat s then remove_text pat (String.length pat - 1) s'
                          else String c (remove_text pat 0 s')
                   end
  end.

(** [s.strip("{}")] *)
Definition is_brace (c : ascii) : bool := ((byte_val c =? 123) || (byte_val c =? 125))%N.
Fixpoint lstrip_braces (s : string) : string :=
  match s with String c s' => if is_brace c then lstrip_braces s' else s | EmptyString => EmptyString end.
Fixpoint rstrip_braces (s : string) : string :=
  match s with
  | String c s' => let rest := rstrip_braces s' in
                   if is_empty rest && is_brace c then EmptyString else String c rest
  | EmptyString => EmptyString
  end.
Definition strip_braces (s : string) : string := rstrip_braces (lstrip_braces s).

(** [s.replace("-", "")] *)
Fixpoint drop_hyphens (s : string) : string :=
  match s with
  | EmptyString => EmptyString
  | String c s => if (byte_val c =? 45)%N then drop_hyphens s else String c (drop_hyphens s)
  end.

Definition hex_value (c : ascii) : option N :=
  let n := byte_val c in
  if ((48 <=? n) && (n <=? 57))%N then Some (n - 48)%N
  else if ((97 <=? n) && (n <=? 102))%N then Some (n - 87)%N
  else if ((65 <=? n) && (n <=? 70))%N then Some (n - 55)%N
  else None.

(** [int(s, 16)] on digits; [acc] is the value of the digits read. *)
Fixpoint read_hex (acc : N) (s : string) : option N :=
  match s with
  | EmptyString => Some acc
  | String c s => v ← hex_value c; read_hex (16 * acc + v)%N s
  end.

(** [UUID(text)] *)
Definition parse_uuid (text : string) : result UUID :=
  let digits := drop_hyphens (strip_braces (remove_text "uuid:" 0 (remove_text "urn:" 0 text))) in
  _ ← raise_if (negb (py_len digits =? 32)%nat) ValueError "badly formed hexadecimal UUID string";
  match read_hex 0 digits with
  | Some n => Ok (uuid n)
  | None => raise ValueError "invalid literal for int() with base 16"
  end.

(** [tuple(UUID(value) for value in values)] *)
Fixpoint parse_uuids (texts : list string) : result (list UUID) :=
  match texts with
  | [] => Ok []
  | t :: texts => u ← parse_uuid t; us ← parse_uuids texts; Ok (u :: us)
  end.

(** ** Reading what was written *)

Lemma str_app_assoc (s t u : string) : (s +:+ t) +:+ u = s +:+ (t +:+ u).
Proof. induction s as [|c s IH]; [done|].
  change (String c ((s +:+ t) +:+ u) = String c (s +:+ (t +:+ u))). by rewrite IH.
Qed.

Lemma hex_digits_app k n acc : hex_digits k n acc = hex_digits k n "" +:+ acc.
Proof.
  revert n acc. induction k as [|k IH]; intros n acc; cbn [hex_digits]; [done|].
  rewrite IH, (IH _ (String _ "")).
  rewrite str_app_assoc. done.
Qed.

Lemma hex_digits_add j k n acc : hex_digits (k + j) n acc = hex_digits j (n / 16 ^ N.of_nat k) (hex_digits k n acc).
Proof.
  revert n acc. induction k as [|k IH]; intros n acc; cbn [hex_digits Nat.add].
  - by rewrite N.div_1_r.
  - rewrite IH, Nat2N.inj_succ, N.pow_succ_r', N.Div0.div_div. done.
Qed.

(** A property of hexadecimal digits holds of every character that is written. *)
Lemma hex_digits_all (p : ascii → bool) k n acc :
  (∀ m, (m < 16)%N → p (hex_digit m) = true) → all_chars p acc = true → all_chars p (hex_digits k n acc) = true.
Proof.
  intros Hp. revert n acc. induction k as [|k IH]; intros n acc Ha; cbn; [done|]. apply IH. cbn.
  rewrite Hp, Ha; [done|]. by apply N.mod_lt.
Qed.

Lemma below_16 (P : N → Prop) :
  P 0%N → P 1%N → P 2%N → P 3%N → P 4%N → P 5%N → P 6%N → P 7%N → P 8%N → P 9%N → P 10%N → P 11%N → P 12%N
  → P 13%N → P 14%N → P 15%N → ∀ m, (m < 16)%N → P m.
Proof.
  intros. destruct m as [|m]; [done|]. do 4 (destruct m as [m|m|]; try done; try (exfalso; lia)).
Qed.

Lemma hex_value_digit m : (m < 16)%N → hex_value (hex_digit m) = Some m.
Proof. revert m. by apply below_16. Qed.

Lemma read_hex_digits k n acc rest :
  read_hex acc (hex_digits k n rest) = read_hex (16 ^ N.of_nat k * acc + n mod 16 ^ N.of_nat k) rest.
Proof.
  revert n rest acc. induction k as [|k IH]; intros n rest acc; cbn [hex_digits].
  - rewrite N.pow_0_r, N.mod_1_r. f_equal. lia.
  - rewrite IH. cbn [read_hex]. rewrite hex_value_digit by (by apply N.mod_lt). cbn.
    f_equal. rewrite Nat2N.inj_succ, N.pow_succ_r'. rewrite N.Div0.mod_mul_r. lia.
Qed.

Lemma read_hex_app acc s t : read_hex acc (s +:+ t) = (v ← read_hex acc s; read_hex v t).
Proof.
  revert acc. induction s as [|c s IH]; intros acc; [done|]. change (String c s +:+ t) with (String c (s +:+ t)).
  cbn [read_hex]. destruct (hex_value c) as [v|]; cbn; [apply IH|done].
Qed.

(** Nothing of an identifier is a prefix, a brace or more than a hyphen. *)
Definition plain (c : ascii) : bool :=
  negb (byte_val c =? 117)%N && negb (is_brace c).
Definition is_digit (c : ascii) : bool := plain c && negb (byte_val c =? 45)%N.

Lemma all_chars_app p s t : all_chars p (s +:+ t) = all_chars p s && all_chars p t.
Proof.
  induction s as [|c s IH]; [done|]. change (String c s +:+ t) with (String c (s +:+ t)). cbn [all_chars].
  by rewrite IH, andb_assoc.
Qed.

Lemma hex_digits_digit k n : all_chars is_digit (hex_digits k n "") = true.
Proof. apply hex_digits_all; [|done]. by apply below_16. Qed.
Lemma all_chars_mono (p q : ascii → bool) s : (∀ c, p c = true → q c = true) → all_chars p s = true → all_chars q s = true.
Proof.
  intros Hpq. induction s as [|c s IH]; cbn; [done|]. rewrite !andb_true_iff. intros [Hc Hs]. auto.
Qed.
Lemma hex_digits_plain k n : all_chars plain (hex_digits k n "") = true.
Proof.
  eapply all_chars_mono; [|apply hex_digits_digit]. intros c. unfold is_digit. by intros [? _]%andb_true_iff.
Qed.

Lemma str_uuid_plain u : all_chars plain (str_uuid u) = true.
Proof. unfold str_uuid. cbv zeta. rewrite !all_chars_app, !hex_digits_plain. done. Qed.

Lemma remove_text_plain p pat s :
  (byte_val p =? 117)%N = true → all_chars plain s = true → remove_text (String p pat) 0 s = s.
Proof.
  intros Hp. induction s as [|c s IH]; [done|]. cbn [all_chars]. rewrite andb_true_iff. intros [Hc Hs].
  cbn [remove_text String.prefix]. destruct (ascii_dec p c) as [<-|Hne].
  - unfold plain in Hc. by rewrite Hp in Hc.
  - by rewrite IH.
Qed.

Lemma lstrip_braces_plain s : all_chars plain s = true → lstrip_braces s = s.
Proof.
  destruct s as [|c s]; [done|]. cbn. rewrite andb_true_iff. intros [Hc _]. unfold plain in Hc.
  apply andb_true_iff in Hc as [_ Hc%negb_true_iff]. by rewrite Hc.
Qed.

Lemma rstrip_braces_plain s : all_chars plain s = true → rstrip_braces s = s.
Proof.
  induction s as [|c s IH]; [done|]. cbn [all_chars rstrip_braces]. rewrite andb_true_iff. intros [Hc Hs].
  rewrite IH by done. unfold plain in Hc. apply andb_true_iff in Hc as [_ Hc%negb_true_iff].
  by rewrite Hc, andb_false_r.
Qed.

Lemma drop_hyphens_app s t : drop_hyphens (s +:+ t) = drop_hyphens s +:+ drop_hyphens t.
Proof.
  induction s as [|c s IH]; [done|]. change (String c s +:+ t) with (String c (s +:+ t)). cbn [drop_hyphens].
  by destruct (_ =? _)%N; rewrite IH.
Qed.
Lemma drop_hyphens_digits s : all_chars is_digit s = true → drop_hyphens s = s.
Proof.
  induction s as [|c s IH]; [done|]. cbn [all_chars drop_hyphens]. rewrite andb_true_iff. intros [Hc Hs].
  unfold is_digit in Hc. apply andb_true_iff in Hc as [_ Hc%negb_true_iff]. by rewrite Hc, IH.
Qed.

Lemma hex_digits_split m j k n :
  m = (k + j)%nat → hex_digits m n "" = hex_digits j (n / 16 ^ N.of_nat k) "" +:+ hex_digits k n "".
Proof. intros ->. by rewrite hex_digits_add, hex_digits_app. Qed.

(** The digits of an identifier without its hyphens. *)
Lemma str_uuid_digits u : drop_hyphens (str_uuid u) = hex_digits 32 (uuid_int u) "".
Proof.
  unfold str_uuid. cbv zeta. rewrite !drop_hyphens_app.
  repeat rewrite (drop_hyphens_digits (hex_digits _ _ _)) by apply hex_digits_digit.
  change (drop_hyphens "-") with "". generalize (uuid_int u). intros n.
  transitivity (hex_digits 8 (n / 16 ^ 24) "" +:+ hex_digits 4 (n / 16 ^ 20) "" +:+ hex_digits 4 (n / 16 ^ 16) ""
    +:+ hex_digits 4 (n / 16 ^ 12) "" +:+ hex_digits 12 n ""); [reflexivity|].
  rewrite (hex_digits_split 32 20 12 n), (hex_digits_split 20 16 4), (hex_digits_split 16 12 4), (hex_digits_split 12 8 4 (_ / _)) by done.
  rewrite !N.Div0.div_div, !str_app_assoc.
  reflexivity.
Qed.

Lemma hex_digits_len k n acc : py_len (hex_digits k n acc) = (k + py_len acc)%nat.
Proof.
  revert n acc. induction k as [|k IH]; intros n acc; [done|]. cbn [hex_digits]. rewrite IH. cbn [py_len].
  assert (∀ m, (m < 16)%N → is_continuation (hex_digit m) = false) as Hc by (by apply below_16).
  rewrite Hc by (by apply N.mod_lt). lia.
Qed.

(** An identifier is read back from its text. *)
Lemma parse_str_uuid u : (uuid_int u < 2 ^ 128)%N → parse_uuid (str_uuid u) = Ok u.
Proof.
  intros Hu. unfold parse_uuid, strip_braces. cbv zeta. pose proof (str_uuid_plain u) as Hp.
  rewrite (remove_text_plain _ "rn:"), (remove_text_plain _ "uid:"), lstrip_braces_plain, rstrip_braces_plain by done.
  rewrite str_uuid_digits, hex_digits_len. cbn [py_len].
  rewrite read_hex_digits. cbn [read_hex mbind result_bind raise_if negb Nat.eqb Nat.add].
  rewrite N.mod_small by done. f_equal. destruct u as [n]. done.
Qed.

Lemma parse_str_uuids us : Forall (λ u, (uuid_int u < 2 ^ 128)%N) us → parse_uuids (str_uuid <$> us) = Ok us.
Proof. induction 1 as [|u us Hu _ IH]; [done|]. cbn [fmap list_fmap parse_uuids]. by rewrite parse_str_uuid, IH. Qed.
