(* ===== verification/PyTime.v ===== *)
(** * Python [datetime] and [timedelta]

    A [timedelta] is a number of microseconds, a [Z].  A [datetime] is its wall
    clock (microseconds since 1970-01-01T00:00:00 on that clock) with its UTC
    offset in minutes, [None] for a naive value.  [isoformat] is the standard
    library's; [fromisoformat] accepts the extended forms the kernel stores and
    receives ([YYYY-MM-DDTHH:MM:SS], an optional six-digit fraction, then
    nothing, [Z] or [+HH:MM]).  [isoformat_roundtrip] is the fact the workflow's
    continuation relies on. *)

From stdpp Require Import base list strings.
From Stdlib Require Import ZArith Lia Ascii Bool.
From S2P Require Import Prelude Python.

#[local] Open Scope Z_scope.

Definition usec : Z := 1.
Definition sec : Z := 1000000.
Definition minutes (n : Z) : Z := n * 60 * sec.
Definition hours (n : Z) : Z := minutes (60 * n).
Definition days (n : Z) : Z := hours (24 * n).

Record datetime := DateTime { dt_wall : Z; dt_offset : option Z }.

#[export] Instance datetime_eq_dec : EqDecision datetime.
Proof. solve_decision. Defined.

(** [value.tzinfo is None or value.utcoffset() is None] *)
Definition is_naive (d : datetime) : bool :=
  match dt_offset d with None => true | Some _ => false end.

(** The instant of an aware datetime, in microseconds UTC. *)
Definition instant (d : datetime) : Z :=
  dt_wall d - minutes (default 0 (dt_offset d)).

(** [value.astimezone(UTC)], and the UTC datetime of an instant. *)
Definition utc (t : Z) : datetime := DateTime t (Some 0).
Definition astimezone_utc (d : datetime) : datetime := utc (instant d).

(** ** Calendar *)

(** As the standard library's [_ord2ymd] and [_ymd2ord] compute them; day 1 is
    0001-01-01 and 1970-01-01 is day 719163. *)
Definition epoch_ordinal : Z := 719163.

Definition is_leap (y : Z) : bool :=
  (y mod 4 =? 0) && (negb (y mod 100 =? 0) || (y mod 400 =? 0)).

Definition days_before_year (y : Z) : Z :=
  let y := y - 1 in y * 365 + y / 4 - y / 100 + y / 400.

Definition month_offsets : list Z := [0; 31; 59; 90; 120; 151; 181; 212; 243; 273; 304; 334].
Definition days_before_month (leap : bool) (m : Z) : Z :=
  nth (Z.to_nat (m - 1)) month_offsets 0 + (if (2 <? m) && leap then 1 else 0).

Definition days_in_month (leap : bool) (m : Z) : Z :=
  if m =? 2 then (if leap then 29 else 28)
  else if (m =? 4) || (m =? 6) || (m =? 9) || (m =? 11) then 30 else 31.

Definition ymd2ord (y m d : Z) : Z := days_before_year y + days_before_month (is_leap y) m + d.

(** Month and day of day [n] (from 0) of a year. *)
Definition month_day (leap : bool) (n : Z) : Z * Z :=
  let month := Z.shiftr (n + 50) 5 in
  let month := if n <? days_before_month leap month then month - 1 else month in
  (month, n - days_before_month leap month + 1).

Definition ord2ymd (n : Z) : Z * Z * Z :=
  let n := n - 1 in
  let '(n400, n) := (n / 146097, n mod 146097) in
  let '(n100, n) := (n / 36524, n mod 36524) in
  let '(n4, n) := (n / 1461, n mod 1461) in
  let '(n1, n) := (n / 365, n mod 365) in
  let year := n400 * 400 + 1 + n100 * 100 + n4 * 4 + n1 in
  if (n1 =? 4) || (n100 =? 4) then (year - 1, 12, 31)
  else
    let leap := (n1 =? 3) && (negb (n4 =? 24) || (n100 =? 3)) in
    let '(m, d) := month_day leap n in (year, m, d).

(** ** Text *)

Definition digit (n : Z) : ascii := ascii_of_N (48 + Z.to_N n).
Definition digit_val (c : ascii) : option Z :=
  let v := Z.of_N (N_of_ascii c) - 48 in
  if (0 <=? v) && (v <=? 9) then Some v else None.

(** Two decimal digits in front of [k]. *)
Definition put2 (n : Z) (k : string) : string :=
  String (digit (n / 10)) (String (digit (n mod 10)) k).

Definition get2 (s : string) : option (Z * string) :=
  match s with
  | String a (String b k) =>
      x ← digit_val a; y ← digit_val b; Some (10 * x + y, k)
  | _ => None
  end.

Definition put (c : ascii) (k : string) : string := String c k.
Definition get (c : ascii) (s : string) : option string :=
  match s with
  | String a k => if bool_decide (a = c) then Some k else None
  | EmptyString => None
  end.

Definition put_offset (o : option Z) : string :=
  match o with
  | None => ""
  | Some o =>
      let a := Z.abs o in
      put (if o <? 0 then "-"%char else "+"%char) (put2 (a / 60) (put ":"%char (put2 (a mod 60) "")))
  end.

(** [value.isoformat()] *)
Definition isoformat (d : datetime) : string :=
  let '(y, m, dd) := ord2ymd (dt_wall d / days 1 + epoch_ordinal) in
  let t := dt_wall d mod days 1 in
  let us := t mod sec in
  put2 (y / 100) (put2 (y mod 100) (put "-"%char (put2 m (put "-"%char (put2 dd
    (put "T"%char (put2 (t / hours 1) (put ":"%char (put2 (t / minutes 1 mod 60)
      (put ":"%char (put2 (t / sec mod 60)
        (if us =? 0 then put_offset (dt_offset d)
         else put "."%char (put2 (us / 10000) (put2 (us / 100 mod 100) (put2 (us mod 100)
                (put_offset (dt_offset d))))))))))))))))).

Definition get_fraction (s : string) : option (Z * string) :=
  match get "."%char s with
  | Some s =>
      '(a, s) ← get2 s; '(b, s) ← get2 s; '(c, s) ← get2 s;
      Some (10000 * a + 100 * b + c, s)
  | None => Some (0, s)
  end.

Definition get_offset (s : string) : option (option Z) :=
  match s with
  | EmptyString => Some None
  | String c k =>
      if bool_decide (c = "Z"%char) then (if is_empty k then Some (Some 0) else None)
      else
        sign ← (if bool_decide (c = "+"%char) then Some 1
                else if bool_decide (c = "-"%char) then Some (-1) else None);
        '(h, k) ← get2 k; k ← get ":"%char k; '(m, k) ← get2 k;
        if is_empty k && (h <? 24) && (m <? 60) then Some (Some (sign * (60 * h + m))) else None
  end.

(** [datetime.fromisoformat(s)]; [None] is [ValueError]. *)
Definition fromisoformat (s : string) : option datetime :=
  '(y1, s) ← get2 s; '(y2, s) ← get2 s; s ← get "-"%char s;
  '(m, s) ← get2 s; s ← get "-"%char s;
  '(d, s) ← get2 s; s ← get "T"%char s;
  '(hh, s) ← get2 s; s ← get ":"%char s;
  '(mm, s) ← get2 s; s ← get ":"%char s;
  '(ss, s) ← get2 s;
  '(us, s) ← get_fraction s;
  off ← get_offset s;
  let y := 100 * y1 + y2 in
  if (1 <=? y) && (1 <=? m) && (m <=? 12) && (1 <=? d) && (d <=? days_in_month (is_leap y) m)
     && (hh <? 24) && (mm <? 60) && (ss <? 60)
  then Some (DateTime (days (ymd2ord y m d - epoch_ordinal) + hours hh + minutes mm + ss * sec + us) off)
  else None.

(** Years 1 to 9999 and offsets of less than a day: what Python represents. *)
Definition valid_datetime (d : datetime) : bool :=
  (-62135596800 * sec <=? dt_wall d) && (dt_wall d <? 253402300800 * sec)
  && match dt_offset d with None => true | Some o => (-1440 <? o) && (o <? 1440) end.

Example isoformat_ex :
  isoformat (DateTime (1767225600 * sec + 5) (Some (-330)))
  = "2026-01-01T00:00:00.000005-05:30"%string.
Proof. reflexivity. Qed.
Example fromisoformat_ex :
  fromisoformat "2024-02-29T23:59:59Z" = Some (DateTime (1709251199 * sec) (Some 0)).
Proof. reflexivity. Qed.
Example fromisoformat_bad : fromisoformat "2023-02-29T23:59:59Z" = None.
Proof. reflexivity. Qed.

(** ** Round trip of the calendar *)

Fixpoint all_below (n : nat) (z : Z) (p : Z → bool) : bool :=
  match n with O => true | S n => p z && all_below n (z + 1) p end.

Definition month_day_ok (leap : bool) (n : Z) : bool :=
  let '(m, d) := month_day leap n in
  (days_before_month leap m + d =? n + 1) && (1 <=? m) && (m <=? 12)
  && (1 <=? d) && (d <=? days_in_month leap m).

Lemma all_below_spec n z p :
  all_below n z p = true → ∀ x, z <= x < z + Z.of_nat n → p x = true.
Proof.
  revert z. induction n as [|n IH]; intros z H x Hx; [lia|].
  cbn in H. apply andb_true_iff in H as [Hz H].
  destruct (decide (x = z)) as [->|]; [done|]. apply (IH (z + 1)); [done|lia].
Qed.

Lemma month_day_spec (leap : bool) n m d :
  0 <= n < (if leap then 366 else 365) → month_day leap n = (m, d) →
  days_before_month leap m + d = n + 1 ∧ 1 <= m <= 12 ∧ 1 <= d <= days_in_month leap m.
Proof.
  intros Hn E.
  assert (month_day_ok leap n = true) as H.
  { destruct leap; [apply (all_below_spec 366 0)|apply (all_below_spec 365 0)];
      try lia; vm_compute; reflexivity. }
  unfold month_day_ok in H. rewrite E in H.
  repeat (apply andb_true_iff in H as [H ?]). lia.
Qed.

Ltac divmod := Z.div_mod_to_equations; lia.

Lemma is_leap_cycle a b c e :
  0 <= b < 4 → 0 <= c < 25 → 0 <= e < 4 →
  is_leap (a * 400 + 1 + b * 100 + c * 4 + e) = (e =? 3) && (negb (c =? 24) || (b =? 3)).
Proof.
  intros Hb Hc He. unfold is_leap. set (y := a * 400 + 1 + b * 100 + c * 4 + e).
  assert ((y mod 4 =? 0) = (e =? 3)) as ->.
  { apply eq_true_iff_eq. rewrite !Z.eqb_eq. subst y. split; intros; divmod. }
  destruct (Z.eqb_spec e 3) as [->|]; [cbn [andb]|done].
  assert ((y mod 100 =? 0) = (c =? 24)) as ->.
  { apply eq_true_iff_eq. rewrite !Z.eqb_eq. subst y. split; intros; divmod. }
  destruct (Z.eqb_spec c 24) as [->|]; [cbn [negb orb]|done].
  apply eq_true_iff_eq. rewrite !Z.eqb_eq. subst y. split; intros; divmod.
Qed.

Lemma days_before_year_cycle a b c e :
  0 <= b < 4 → 0 <= c < 25 → 0 <= e < 4 →
  days_before_year (a * 400 + 1 + b * 100 + c * 4 + e)
  = a * 146097 + b * 36524 + c * 1461 + e * 365.
Proof. intros Hb Hc He. unfold days_before_year. divmod. Qed.

(** The last day of a leap year, which [_ord2ymd] treats apart. *)
Lemma ord2ymd_new_year y : is_leap y = true → ymd2ord y 12 31 = days_before_year (y + 1).
Proof.
  unfold ymd2ord. intros H. rewrite H. change (days_before_month true 12) with 335.
  unfold days_before_year, is_leap in *.
  apply andb_true_iff in H as [H1 H2]. apply orb_true_iff in H2 as [H2|H2];
    [apply negb_true_iff in H2|]; divmod.
Qed.

Lemma ord2ymd_spec n y m d :
  ord2ymd n = (y, m, d) →
  ymd2ord y m d = n ∧ 1 <= m <= 12 ∧ 1 <= d <= days_in_month (is_leap y) m.
Proof.
  unfold ord2ymd. cbn zeta.
  set (a := (n - 1) / 146097). set (r := (n - 1) mod 146097).
  set (b := r / 36524). set (s := r mod 36524).
  set (c := s / 1461). set (t := s mod 1461).
  set (e := t / 365). set (u := t mod 365).
  assert (n - 1 = a * 146097 + b * 36524 + c * 1461 + e * 365 + u ∧ 0 <= u < 365
          ∧ 0 <= b <= 4 ∧ 0 <= c <= 24 ∧ 0 <= e <= 4
          ∧ (b = 4 → c = 0 ∧ e = 0 ∧ u = 0) ∧ (e = 4 → u = 0) ∧ (c = 24 → b < 4 → e < 4))
    as (Hn & Hu & Hb & Hc & He & Hb4 & He4 & Hc24) by (subst a r b s c t e u; divmod).
  clearbody a b c e u. clear r s t.
  destruct (Z.eqb_spec e 4) as [->|He']; cbn [orb];
    [|destruct (Z.eqb_spec b 4) as [->|Hb']; cbn [orb]].
  - intros [= <- <- <-].
    assert (is_leap (a * 400 + 1 + b * 100 + c * 4 + 4 - 1) = true) as Hleap.
    { replace (_ - 1) with (a * 400 + 1 + b * 100 + c * 4 + 3) by lia.
      rewrite is_leap_cycle by lia. destruct (Z.eqb_spec c 24); [lia|done]. }
    rewrite ord2ymd_new_year, Hleap by done. cbn. split; [|lia].
    unfold days_before_year. divmod.
  - destruct Hb4 as (-> & -> & ->); [done|]. intros [= <- <- <-].
    assert (is_leap (a * 400 + 1 + 4 * 100 + 0 * 4 + 0 - 1) = true) as Hleap.
    { replace (_ - 1) with (a * 400 + 1 + 3 * 100 + 24 * 4 + 3) by lia.
      rewrite is_leap_cycle by lia. done. }
    rewrite ord2ymd_new_year, Hleap by done. cbn. split; [|lia].
    unfold days_before_year. divmod.
  - destruct (month_day _ u) as [m' d'] eqn:Hmd. intros [= <- <- <-].
    assert (Hl := is_leap_cycle a b c e ltac:(lia) ltac:(lia) ltac:(lia)).
    rewrite <- Hl in Hmd. apply month_day_spec in Hmd as (Hsum & Hm & Hd);
      [|destruct (is_leap _); lia].
    unfold ymd2ord. rewrite days_before_year_cycle by lia. lia.
Qed.

(** ** Round trip of the text *)

Lemma digit_val_digit n : 0 <= n < 10 → digit_val (digit n) = Some n.
Proof.
  intros H. unfold digit_val, digit. rewrite N_ascii_embedding by lia.
  replace (Z.of_N (48 + Z.to_N n) - 48) with n by lia.
  destruct (Z.leb_spec 0 n), (Z.leb_spec n 9); cbn; [done|lia..].
Qed.

Lemma get2_put2 n k : 0 <= n < 100 → get2 (put2 n k) = Some (n, k).
Proof.
  intros H. unfold put2, get2. rewrite !digit_val_digit by divmod. cbn.
  do 2 f_equal. divmod.
Qed.

Lemma get_put c k : get c (put c k) = Some k.
Proof. unfold get, put. by rewrite bool_decide_true. Qed.

Create Rewrite HintDb datetime_text.
#[export] Hint Rewrite get2_put2 get_put using divmod : datetime_text.

Lemma get_put_offset o :
  match o with None => True | Some o => -1440 < o < 1440 end →
  get_offset (put_offset o) = Some o.
Proof.
  destruct o as [o|]; [|done]. intros Ho. unfold put_offset, get_offset.
  destruct (Z.ltb_spec o 0); unfold put at 1.
  all: repeat (first [rewrite bool_decide_false by done | rewrite bool_decide_true by done];
               cbn [mbind option_bind]).
  all: rewrite get2_put2 by divmod; cbn [mbind option_bind].
  all: rewrite get_put; cbn [mbind option_bind].
  all: rewrite get2_put2 by divmod; cbn [mbind option_bind is_empty].
  all: rewrite !(proj2 (Z.ltb_lt _ _)) by divmod.
  all: unfold is_empty; rewrite bool_decide_true by done; cbn [andb].
  all: do 2 f_equal; divmod.
Qed.

Lemma get_fraction_none o : get_fraction (put_offset o) = Some (0, put_offset o).
Proof.
  destruct o as [o|]; [|done]. unfold get_fraction, put_offset, put at 1 3.
  destruct (o <? 0); cbn [get]; by rewrite bool_decide_false by done.
Qed.

Lemma get_fraction_some us k :
  0 <= us < sec →
  get_fraction (put "."%char (put2 (us / 10000) (put2 (us / 100 mod 100) (put2 (us mod 100) k))))
  = Some (us, k).
Proof.
  unfold sec. intros H. unfold get_fraction. rewrite get_put.
  rewrite get2_put2 by divmod. cbn [mbind option_bind].
  rewrite get2_put2 by divmod. cbn [mbind option_bind].
  rewrite get2_put2 by divmod. cbn [mbind option_bind].
  do 2 f_equal. divmod.
Qed.

Lemma days_before_month_bounds leap m : 1 <= m <= 12 → 0 <= days_before_month leap m <= 335.
Proof.
  intros H. assert (m = 1 ∨ m = 2 ∨ m = 3 ∨ m = 4 ∨ m = 5 ∨ m = 6 ∨ m = 7 ∨ m = 8 ∨ m = 9
    ∨ m = 10 ∨ m = 11 ∨ m = 12) as Hm by lia.
  repeat destruct Hm as [->|Hm]; try subst m; destruct leap; vm_compute; split; discriminate.
Qed.

Lemma days_in_month_bounds leap m : 28 <= days_in_month leap m <= 31.
Proof. unfold days_in_month. repeat case_if; lia. Qed.

(** Years 1 to 9999 have four digits. *)
Lemma ord2ymd_year n y m d :
  1 <= n <= 3652059 → ord2ymd n = (y, m, d) → 1 <= y <= 9999.
Proof.
  intros Hn H. apply ord2ymd_spec in H as (E & Hm & Hd).
  pose proof (days_before_month_bounds (is_leap y) m Hm).
  pose proof (days_in_month_bounds (is_leap y) m).
  unfold ymd2ord, days_before_year in E. divmod.
Qed.

(** What [fromisoformat] does on the date and time fields [isoformat] prints. *)
Lemma fromisoformat_fields y m d hh mm ss us off k :
  1 <= y <= 9999 → 1 <= m <= 12 → 1 <= d <= days_in_month (is_leap y) m →
  0 <= hh < 24 → 0 <= mm < 60 → 0 <= ss < 60 →
  get_fraction k = Some (us, put_offset off) → get_offset (put_offset off) = Some off →
  fromisoformat (put2 (y / 100) (put2 (y mod 100) (put "-"%char (put2 m (put "-"%char (put2 d
    (put "T"%char (put2 hh (put ":"%char (put2 mm (put ":"%char (put2 ss k)))))))))))) =
  Some (DateTime (days (ymd2ord y m d - epoch_ordinal) + hours hh + minutes mm + ss * sec + us) off).
Proof.
  intros Hy Hm Hd Hh Hmi Hs Hk Ho.
  pose proof (days_in_month_bounds (is_leap y) m).
  unfold fromisoformat.
  do 6 (rewrite ?get2_put2 by divmod; cbn [mbind option_bind]; rewrite ?get_put;
        cbn [mbind option_bind]).
  rewrite get2_put2 by divmod. cbn [mbind option_bind].
  rewrite Hk. cbn [mbind option_bind]. rewrite Ho. cbn [mbind option_bind].
  replace (100 * (y / 100) + y mod 100) with y by divmod.
  rewrite !(proj2 (Z.leb_le _ _)), !(proj2 (Z.ltb_lt _ _)) by lia. done.
Qed.

(** Formatting a datetime and reading it back loses nothing. *)
Lemma isoformat_roundtrip d : valid_datetime d = true → fromisoformat (isoformat d) = Some d.
Proof.
  destruct d as [w off]. unfold valid_datetime, isoformat. cbn [dt_wall dt_offset].
  intros H. apply andb_true_iff in H as [H Hoff]. apply andb_true_iff in H as [Hlo Hhi].
  apply Z.leb_le in Hlo. apply Z.ltb_lt in Hhi.
  destruct (ord2ymd _) as [[y m] d] eqn:E.
  assert (1 <= y <= 9999) as Hy.
  { apply ord2ymd_year in E; [done|].
    unfold days, hours, minutes, sec, epoch_ordinal in *. divmod. }
  apply ord2ymd_spec in E as (E & Hm & Hd).
  assert (get_offset (put_offset off) = Some off) as Ho.
  { apply get_put_offset. destruct off; [|done]. lia. }
  set (t := w mod days 1).
  assert (0 <= t < 86400 * sec) by (subst t; unfold days, hours, minutes, sec; divmod).
  assert (w = days (w / days 1) + t) as Hw by (subst t; unfold days, hours, minutes, sec; divmod).
  rewrite (fromisoformat_fields y m d _ _ _ (t mod sec) off); [|exact Hy|exact Hm|exact Hd| | | | |exact Ho].
  - rewrite E. clearbody t. unfold days, hours, minutes, sec in *. do 2 f_equal. divmod.
  - unfold hours, minutes, sec in *. divmod.
  - divmod.
  - divmod.
  - destruct (Z.eqb_spec (t mod sec) 0) as [->|]; [apply get_fraction_none|].
    apply get_fraction_some. unfold sec. divmod.
Qed.
