(* ===== verification/Json.v ===== *)
(** * JSON values and their canonical text

    The values [dict[str, Any]] columns and payloads hold, Python's [==] on
    them, and [json.dumps] with [sort_keys=True] and compact separators.  A
    Python [dict] is the list of its items in insertion order; its keys are
    pairwise different ([json_wf]). *)

From stdpp Require Import base list strings pretty sorting.
From Stdlib Require Import ZArith NArith Lia Ascii.
From S2P Require Import Prelude Python.

#[local] Open Scope string_scope.

(** A float: the text [float.__repr__] gives, and its exact value as a
    fraction when it is finite. *)
Record pyfloat := PyFloat { fl_repr : string; fl_value : option (Z * positive) }.

#[export] Instance pyfloat_eq_dec : EqDecision pyfloat.
Proof. solve_decision. Defined.

#[warnings="-register-all"]
Inductive json :=
  | JNull
  | JBool (b : bool)
  | JInt (n : Z)
  | JFloat (f : pyfloat)
  | JStr (s : string)
  | JArr (xs : list json)
  | JObj (items : list (string * json)).

(** ** [json.dumps] *)

Definition hex4 (n : N) : string := "\u" +:+ hex_digits 4 n "".

(** A code point outside the basic plane is written as a surrogate pair. *)
Definition escape_code_point (n : N) : string :=
  (if n <? 65536 then hex4 n
   else let m := n - 65536 in hex4 (55296 + m / 1024) +:+ hex4 (56320 + m mod 1024))%N.

Definition escape_control (c : ascii) : string :=
  match byte_val c with
  | 8 => "\b" | 9 => "\t" | 10 => "\n" | 12 => "\f" | 13 => "\r"
  | n => hex4 n
  end%N.

Definition cont (c : ascii) : N := (byte_val c - 128)%N.

(** The characters between the quotes; [asc] is [ensure_ascii]. *)
Fixpoint escape (asc : bool) (s : string) : string :=
  match s with
  | EmptyString => EmptyString
  | String a s1 =>
      let v := byte_val a in
      if (v <? 32)%N then escape_control a +:+ escape asc s1
      else if bool_decide (v = 34%N) || bool_decide (v = 92%N) then
        String "\"%char (String a (escape asc s1))
      else if asc && (127 <=? v)%N then
        match s1 with
        | String b s2 =>
            if (v <? 128)%N then hex4 v +:+ escape asc s1
            else if (v <? 224)%N then
              escape_code_point ((v - 192) * 64 + cont b) +:+ escape asc s2
            else match s2 with
            | String c s3 =>
                if (v <? 240)%N then
                  escape_code_point ((v - 224) * 4096 + cont b * 64 + cont c) +:+ escape asc s3
                else match s3 with
                | String d s4 =>
                    escape_code_point ((v - 240) * 262144 + cont b * 4096 + cont c * 64 + cont d)
                      +:+ escape asc s4
                | EmptyString => EmptyString
                end
            | EmptyString => EmptyString
            end
        | EmptyString => hex4 v
        end
      else String a (escape asc s1)
  end.

Definition quote : string := String (ascii_of_N 34) EmptyString.
Definition dump_str (asc : bool) (s : string) : string := quote +:+ escape asc s +:+ quote.

Definition dump_item (asc : bool) (kv : string * string) : string :=
  dump_str asc (fst kv) +:+ ":" +:+ snd kv.

(** [json.dumps(v, sort_keys=True, separators=(",", ":"), ensure_ascii=asc)] *)
Fixpoint dumps (asc : bool) (v : json) : string :=
  match v with
  | JNull => "null"
  | JBool b => if b then "true" else "false"
  | JInt n => pretty n
  | JFloat f => fl_repr f
  | JStr s => dump_str asc s
  | JArr xs => "[" +:+ join_with "," (map (dumps asc) xs) +:+ "]"
  | JObj items =>
      "{" +:+ join_with "," (map (dump_item asc)
                (sort_by fst (map (λ kv, (fst kv, dumps asc (snd kv))) items))) +:+ "}"
  end.

(** Some float in it is not finite: [allow_nan=False] raises. *)
Fixpoint has_nan (v : json) : bool :=
  match v with
  | JFloat f => match fl_value f with None => true | Some _ => false end
  | JArr xs => existsb has_nan xs
  | JObj items => existsb (λ kv, has_nan (snd kv)) items
  | _ => false
  end.

(** ** [==] *)

(** The exact value of a number; [True] and [False] are the integers 1 and 0. *)
Definition num_value (v : json) : option (Z * positive) :=
  match v with
  | JBool b => Some (if b then 1%Z else 0%Z, 1%positive)
  | JInt n => Some (n, 1%positive)
  | JFloat f => fl_value f
  | _ => None
  end.

Definition is_number (v : json) : bool :=
  match v with JBool _ | JInt _ | JFloat _ => true | _ => false end.

Definition num_eqb (v w : json) : bool :=
  match num_value v, num_value w with
  | Some (a, p), Some (b, q) => (a * Zpos q =? b * Zpos p)%Z
  | None, None =>
      match v, w with
      | JFloat f, JFloat g => bool_decide (fl_repr f = fl_repr g) && negb (bool_decide (fl_repr f = "nan"))
      | _, _ => false
      end
  | _, _ => false
  end.

(** [items.get(key)] *)
Fixpoint assoc {A} (key : string) (items : list (string * A)) : option A :=
  match items with
  | [] => None
  | (k, v) :: items => if bool_decide (k = key) then Some v else assoc key items
  end.

Fixpoint json_eqb (v w : json) {struct v} : bool :=
  match v, w with
  | JNull, JNull => true
  | JStr s, JStr t => bool_decide (s = t)
  | JArr xs, JArr ys =>
      (fix go xs ys := match xs, ys with
       | [], [] => true
       | x :: xs, y :: ys => json_eqb x y && go xs ys
       | _, _ => false
       end) xs ys
  | JObj xs, JObj ys =>
      (length xs =? length ys)%nat &&
      forallb (λ kv, match assoc (fst kv) ys with
                     | Some w => json_eqb (snd kv) w
                     | None => false end) xs
  | _, _ => is_number v && is_number w && num_eqb v w
  end.

(** ** The shape of a value up to the order of its keys *)

Fixpoint json_norm (v : json) : json :=
  match v with
  | JArr xs => JArr (map json_norm xs)
  | JObj items => JObj (sort_by fst (map (λ kv, (fst kv, json_norm (snd kv))) items))
  | _ => v
  end.

(** Equal up to the order in which dictionaries were filled. *)
Definition json_same (v w : json) : Prop := json_norm v = json_norm w.

Fixpoint json_wf (v : json) : bool :=
  match v with
  | JArr xs => forallb json_wf xs
  | JObj items => all_unique (map fst items) && forallb (λ kv, json_wf (snd kv)) items
  | _ => true
  end.

Example dumps_ex :
  dumps true (JObj [("b", JArr [JInt (-3); JNull]); ("a", JStr "é")])
  = "{" +:+ quote +:+ "a" +:+ quote +:+ ":" +:+ quote +:+ "\u00e9" +:+ quote +:+ ","
    +:+ quote +:+ "b" +:+ quote +:+ ":[-3,null]}".
Proof. vm_compute. reflexivity. Qed.

Example json_eqb_ex :
  json_eqb (JObj [("a", JInt 1); ("b", JNull)]) (JObj [("b", JNull); ("a", JBool true)]) = true.
Proof. reflexivity. Qed.

(** ** Facts *)

Section json_induction.
Variable P : json → Prop.
Hypothesis Hnull : P JNull.
Hypothesis Hbool : ∀ b, P (JBool b).
Hypothesis Hint : ∀ n, P (JInt n).
Hypothesis Hfloat : ∀ f, P (JFloat f).
Hypothesis Hstr : ∀ s, P (JStr s).
Hypothesis Harr : ∀ xs, Forall P xs → P (JArr xs).
Hypothesis Hobj : ∀ items, Forall (λ kv, P (snd kv)) items → P (JObj items).

Fixpoint json_induction (v : json) : P v :=
  match v with
  | JNull => Hnull | JBool b => Hbool b | JInt n => Hint n | JFloat f => Hfloat f
  | JStr s => Hstr s
  | JArr xs => Harr xs ((fix go xs : Forall P xs :=
      match xs with
      | [] => @List.Forall_nil _ _
      | x :: xs => @List.Forall_cons _ _ x xs (json_induction x) (go xs) end) xs)
  | JObj items => Hobj items ((fix go xs : Forall (λ kv, P (snd kv)) xs :=
      match xs with
      | [] => @List.Forall_nil _ _
      | kv :: xs => @List.Forall_cons _ _ kv xs (json_induction (snd kv)) (go xs) end) items)
  end.
End json_induction.

#[export] Instance json_same_equiv : Equivalence json_same.
Proof. unfold json_same. split; repeat intro; congruence. Qed.

Lemma map_key_fst {A B} (f : A → B) (items : list (string * A)) :
  fst <$> map (λ kv, (fst kv, f (snd kv))) items = fst <$> items.
Proof. induction items as [|kv items IH]; cbn; [done|]. by f_equal. Qed.

Lemma forallb_Forall {A} (p : A → bool) xs : forallb p xs = true ↔ Forall (λ x, p x = true) xs.
Proof. rewrite forallb_forall, Forall_forall. by setoid_rewrite list_elem_of_In. Qed.

(** Sorting the keys first does not change the canonical text. *)
Lemma dumps_norm asc v : json_wf v = true → dumps asc (json_norm v) = dumps asc v.
Proof.
  induction v as [| | | | |xs IH|items IH] using json_induction; cbn; try done.
  - intros Hwf%forallb_Forall. do 3 f_equal. rewrite map_map. apply map_ext_in.
    intros x Hx%list_elem_of_In. rewrite Forall_forall in IH, Hwf. eauto.
  - intros [Hu Hwf%forallb_Forall]%andb_true_iff. apply bool_decide_eq_true in Hu.
    do 4 f_equal. apply sort_by_unique.
    + rewrite map_key_fst, sort_by_Permutation, map_key_fst. done.
    + rewrite sort_by_Permutation, map_map. apply reflexive_eq, map_ext_in.
      intros kv Hkv%list_elem_of_In. cbn. rewrite Forall_forall in IH, Hwf.
      f_equal. eauto.
Qed.

(** The canonical text does not depend on the order dictionaries were filled. *)
Lemma dumps_same asc v w :
  json_wf v = true → json_wf w = true → json_same v w → dumps asc v = dumps asc w.
Proof. intros Hv Hw Hs. by rewrite <- (dumps_norm asc v), <- (dumps_norm asc w), Hs. Qed.

(** Two fillings of one dictionary are the same value. *)
Lemma json_same_perm items items' :
  NoDup (fst <$> items) → items ≡ₚ items' → json_same (JObj items) (JObj items').
Proof.
  intros Hnd Hp. unfold json_same. cbn. f_equal. apply sort_by_unique.
  - by rewrite map_key_fst.
  - by apply (fmap_Permutation (λ kv, (fst kv, json_norm (snd kv)))).
Qed.

Lemma json_eqb_refl_str s : json_eqb (JStr s) (JStr s) = true.
Proof. cbn. by rewrite bool_decide_true. Qed.
