(* ===== verification/Digests.v ===== *)
(** * [hashlib.sha256(...).hexdigest()] and [uuid.uuid5]

    FIPS 180-4 and RFC 4122, on bytes as 8-bit [N] and words as 32-bit [N].  SHA-256 gives
    the kernel its action identities and idempotency keys; SHA-1 over the bytes of a
    namespace and a name, with the version and variant bits, gives name-based identifiers.
    Proofs use only that they are functions. *)

From stdpp Require Import base list strings.
From Stdlib Require Import NArith Ascii.
From S2P Require Import Prelude Python.

#[local] Open Scope N_scope.

(** ** SHA-256 *)

Definition w32 (n : N) : N := N.land n 0xffffffff.
Definition add32 (a b : N) : N := w32 (a + b).
Definition rotr (k n : N) : N := N.lor (N.shiftr n k) (w32 (N.shiftl n (32 - k))).
Definition not32 (n : N) : N := N.lxor n 0xffffffff.

Definition ch (x y z : N) : N := N.lxor (N.land x y) (N.land (not32 x) z).
Definition maj (x y z : N) : N := N.lxor (N.lxor (N.land x y) (N.land x z)) (N.land y z).
Definition bsig0 (x : N) : N := N.lxor (N.lxor (rotr 2 x) (rotr 13 x)) (rotr 22 x).
Definition bsig1 (x : N) : N := N.lxor (N.lxor (rotr 6 x) (rotr 11 x)) (rotr 25 x).
Definition ssig0 (x : N) : N := N.lxor (N.lxor (rotr 7 x) (rotr 18 x)) (N.shiftr x 3).
Definition ssig1 (x : N) : N := N.lxor (N.lxor (rotr 17 x) (rotr 19 x)) (N.shiftr x 10).

(** The constants of the standard: the first 32 bits of the fractional parts of
    the square roots of the first 8 primes (initial hash) and of the cube roots
    of the first 64 (rounds), from integer roots found bit by bit. *)
Fixpoint iroot (bits : nat) (power n acc : N) : N :=
  match bits with
  | O => acc
  | S bits =>
      let acc' := acc + 2 ^ N.of_nat bits in
      iroot bits power n (if acc' ^ power <=? n then acc' else acc)
  end.

Definition root_fraction (power p : N) : N := w32 (iroot 40 power (p * 2 ^ (32 * power)) 0).

Definition primes (count : nat) : list N :=
  let small := N.of_nat <$> seq 2 400 in
  let is_prime p := forallb (λ d, (p <=? d) || negb (p mod d =? 0))%bool small in
  take count (List.filter is_prime small).

Definition round_constants : list N := Eval vm_compute in root_fraction 3 <$> primes 64.
Definition initial_hash : list N := Eval vm_compute in root_fraction 2 <$> primes 8.

Fixpoint bytes_of (s : string) : list N :=
  match s with EmptyString => [] | String c s => byte_val c :: bytes_of s end.

Definition be64 (n : N) : list N :=
  map (λ k, N.land (N.shiftr n k) 255) [56; 48; 40; 32; 24; 16; 8; 0].

(** The message, a 1 bit, zeros up to 56 modulo 64 bytes, the bit length. *)
Definition pad (m : list N) : list N :=
  let l := length m in
  m ++ [128] ++ repeat 0 ((119 - l mod 64) mod 64)%nat ++ be64 (8 * N.of_nat l).

Fixpoint words (m : list N) : list N :=
  match m with
  | a :: b :: c :: d :: m =>
      N.shiftl a 24 + N.shiftl b 16 + N.shiftl c 8 + d :: words m
  | _ => []
  end.

(** The message schedule, newest word first: [k] more words after [ws]. *)
Fixpoint schedule (k : nat) (ws : list N) : list N :=
  match k with
  | O => ws
  | S k =>
      let w := add32 (add32 (ssig1 (nth 1 ws 0)) (nth 6 ws 0))
                     (add32 (ssig0 (nth 14 ws 0)) (nth 15 ws 0)) in
      schedule k (w :: ws)
  end.

Definition compress_round (st : list N) (kw : N * N) : list N :=
  match st with
  | [a; b; c; d; e; f; g; h] =>
      let t1 := add32 (add32 (add32 h (bsig1 e)) (ch e f g)) (add32 (fst kw) (snd kw)) in
      let t2 := add32 (bsig0 a) (maj a b c) in
      [add32 t1 t2; a; b; c; add32 d t1; e; f; g]
  | _ => st
  end.

Definition compress (hash block : list N) : list N :=
  let ws := rev (schedule 48 (rev block)) in
  zip_with add32 hash (fold_left compress_round (combine round_constants ws) hash).

(** Blocks of sixteen words; [fuel] bounds the number of blocks. *)
Fixpoint compress_all (fuel : nat) (hash ws : list N) : list N :=
  match fuel, ws with
  | S fuel, _ :: _ => compress_all fuel (compress hash (take 16 ws)) (drop 16 ws)
  | _, _ => hash
  end.

Definition sha256_hex (s : string) : string :=
  let ws := words (pad (bytes_of s)) in
  String.concat "" (map (λ w, hex_digits 8 w "") (compress_all (length ws) initial_hash ws)).

Example sha256_abc : sha256_hex "abc"
  = "ba7816bf8f01cfea414140de5dae2223b00361a396177a9cb410ff61f20015ad"%string.
Proof. vm_compute. reflexivity. Qed.
Example sha256_two_blocks :
  sha256_hex "abcdbcdecdefdefgefghfghighijhijkijkljklmklmnlmnomnopnopq"
  = "248d6a61d20638b8e5c026930c3e6039a33ce45964ff2167f6ecedd419db06c1"%string.
Proof. vm_compute. reflexivity. Qed.

(** ** SHA-1 *)

Definition rotl (k n : N) : N := N.lor (w32 (N.shiftl n k)) (N.shiftr n (32 - k)).
Definition parity (x y z : N) : N := N.lxor (N.lxor x y) z.

(** The message schedule, newest word first: [k] more words after [ws]. *)
Fixpoint sha1_schedule (k : nat) (ws : list N) : list N :=
  match k with
  | O => ws
  | S k =>
      let w := rotl 1 (N.lxor (N.lxor (nth 2 ws 0) (nth 7 ws 0)) (N.lxor (nth 13 ws 0) (nth 15 ws 0))) in
      sha1_schedule k (w :: ws)
  end.

(** The function and the constant of each of the four groups of twenty rounds. *)
Definition sha1_groups : list ((N → N → N → N) * N) :=
  [(ch, 0x5a827999); (parity, 0x6ed9eba1); (maj, 0x8f1bbcdc); (parity, 0xca62c1d6)].

Definition sha1_round (f : N → N → N → N) (k : N) (st : list N) (w : N) : list N :=
  match st with
  | [a; b; c; d; e] => [add32 (add32 (add32 (rotl 5 a) (f b c d)) (add32 e k)) w; a; rotl 30 b; c; d]
  | _ => st
  end.

Fixpoint sha1_rounds (groups : list ((N → N → N → N) * N)) (st ws : list N) : list N :=
  match groups with
  | [] => st
  | (f, k) :: groups => sha1_rounds groups (fold_left (sha1_round f k) (take 20 ws) st) (drop 20 ws)
  end.

Definition sha1_compress (hash block : list N) : list N :=
  zip_with add32 hash (sha1_rounds sha1_groups hash (rev (sha1_schedule 64 (rev block)))).

(** Blocks of sixteen words; [fuel] bounds the number of blocks. *)
Fixpoint sha1_blocks (fuel : nat) (hash ws : list N) : list N :=
  match fuel, ws with
  | S fuel, _ :: _ => sha1_blocks fuel (sha1_compress hash (take 16 ws)) (drop 16 ws)
  | _, _ => hash
  end.

(** The digest as five words. *)
Definition sha1 (m : list N) : list N :=
  let ws := words (pad m) in
  sha1_blocks (length ws) [0x67452301; 0xefcdab89; 0x98badcfe; 0x10325476; 0xc3d2e1f0] ws.

(** ** Identifiers *)

(** [UUID.bytes] *)
Definition uuid_bytes (u : UUID) : list N :=
  let n := uuid_int u in be64 (N.shiftr n 64) ++ be64 (N.land n 0xffffffffffffffff).

(** [UUID(bytes=digest[:16], version=5)] *)
Definition uuid5 (namespace : UUID) (name : string) : UUID :=
  let n := fold_left (λ n w, N.shiftl n 32 + w) (take 4 (sha1 (uuid_bytes namespace ++ bytes_of name))) 0 in
  let n := N.lor (N.ldiff n (N.shiftl 0xc000 48)) (N.shiftl 0x8000 48) in
  uuid (N.lor (N.ldiff n (N.shiftl 0xf000 64)) (N.shiftl 5 76)).

Example sha1_abc : sha1 (bytes_of "abc") = [0xa9993e36; 0x4706816a; 0xba3e2571; 0x7850c26c; 0x9cd0d89d].
Proof. vm_compute. reflexivity. Qed.
Example uuid5_python_org :
  str_uuid (uuid5 (uuid 0x6ba7b8109dad11d180b400c04fd430c8) "python.org") = "886313e1-3b8a-5372-9b90-0c9aee199e5d"%string.
Proof. vm_compute. reflexivity. Qed.
