(* ===== verification/Limits.v ===== *)
(** * [core/limits.py]: hard platform ceilings

    Every [require_*] function returns the measured size or raises
    [SafetyLimitExceeded]; sizes are non-negative, counted in [Z]. *)

From stdpp Require Import base list strings pretty.
From Stdlib Require Import ZArith Lia.
From S2P Require Import Prelude Python Json.

#[local] Open Scope Z_scope.

Definition safety_limit_exceeded {A} (label : string) (actual limit : Z) (unit : string) : result A :=
  raise SafetyLimitExceeded
    (label +:+ " exceeds platform limit of " +:+ pretty limit +:+ " " +:+ unit
     +:+ " (received " +:+ pretty actual +:+ ")")%string.

Record PlatformSafetyLimits := mkLimits {
  max_event_payload_fields : Z;
  max_event_payload_bytes : Z;
  max_event_input_bytes : Z;
  max_canonical_event_bytes : Z;
  max_external_references_per_event : Z;
  max_facts_per_event : Z;
  max_fact_value_bytes : Z;
  max_events_per_turn : Z;
  max_reviews_per_turn : Z;
  max_action_results_per_turn : Z;
  max_timers_per_turn : Z;
  max_action_parameter_fields : Z;
  max_action_parameters_bytes : Z;
  max_action_conflict_facts : Z;
  max_action_conflict_message_bytes : Z;
  max_action_conflict_bytes : Z;
  max_review_message_bytes : Z;
  max_operator_guidance_bytes : Z;
  max_open_commitments : Z;
  max_commitment_bytes : Z;
  max_open_commitments_bytes : Z;
  max_memory_summary_bytes : Z;
  max_process_fact_entries : Z;
  max_process_fact_projection_bytes : Z;
  max_agent_context_bytes : Z;
  max_rendered_prompt_bytes : Z
}.

Definition DEFAULT_PLATFORM_SAFETY_LIMITS : PlatformSafetyLimits := {|
  max_event_payload_fields := 100;
  max_event_payload_bytes := 64 * 1024;
  max_event_input_bytes := 96 * 1024;
  max_canonical_event_bytes := 128 * 1024;
  max_external_references_per_event := 20;
  max_facts_per_event := 50;
  max_fact_value_bytes := 16 * 1024;
  max_events_per_turn := 50;
  max_reviews_per_turn := 20;
  max_action_results_per_turn := 20;
  max_timers_per_turn := 50;
  max_action_parameter_fields := 100;
  max_action_parameters_bytes := 32 * 1024;
  max_action_conflict_facts := 50;
  max_action_conflict_message_bytes := 4 * 1024;
  max_action_conflict_bytes := 128 * 1024;
  max_review_message_bytes := 16 * 1024;
  max_operator_guidance_bytes := 16 * 1024;
  max_open_commitments := 50;
  max_commitment_bytes := 2 * 1024;
  max_open_commitments_bytes := 32 * 1024;
  max_memory_summary_bytes := 16 * 1024;
  max_process_fact_entries := 500;
  max_process_fact_projection_bytes := 128 * 1024;
  max_agent_context_bytes := 256 * 1024;
  max_rendered_prompt_bytes := 512 * 1024
|}.

(** The fields in declaration order, with their names. *)
Definition limit_fields (l : PlatformSafetyLimits) : list (string * Z) :=
  [("max_event_payload_fields", max_event_payload_fields l);
   ("max_event_payload_bytes", max_event_payload_bytes l);
   ("max_event_input_bytes", max_event_input_bytes l);
   ("max_canonical_event_bytes", max_canonical_event_bytes l);
   ("max_external_references_per_event", max_external_references_per_event l);
   ("max_facts_per_event", max_facts_per_event l);
   ("max_fact_value_bytes", max_fact_value_bytes l);
   ("max_events_per_turn", max_events_per_turn l);
   ("max_reviews_per_turn", max_reviews_per_turn l);
   ("max_action_results_per_turn", max_action_results_per_turn l);
   ("max_timers_per_turn", max_timers_per_turn l);
   ("max_action_parameter_fields", max_action_parameter_fields l);
   ("max_action_parameters_bytes", max_action_parameters_bytes l);
   ("max_action_conflict_facts", max_action_conflict_facts l);
   ("max_action_conflict_message_bytes", max_action_conflict_message_bytes l);
   ("max_action_conflict_bytes", max_action_conflict_bytes l);
   ("max_review_message_bytes", max_review_message_bytes l);
   ("max_operator_guidance_bytes", max_operator_guidance_bytes l);
   ("max_open_commitments", max_open_commitments l);
   ("max_commitment_bytes", max_commitment_bytes l);
   ("max_open_commitments_bytes", max_open_commitments_bytes l);
   ("max_memory_summary_bytes", max_memory_summary_bytes l);
   ("max_process_fact_entries", max_process_fact_entries l);
   ("max_process_fact_projection_bytes", max_process_fact_projection_bytes l);
   ("max_agent_context_bytes", max_agent_context_bytes l);
   ("max_rendered_prompt_bytes", max_rendered_prompt_bytes l)]%string.

(** [PlatformSafetyLimits.__post_init__]; the fields are integers by type. *)
Definition limits_post_init (l : PlatformSafetyLimits) : result unit :=
  for_each (λ f, raise_if (snd f <? 1) ValueError
                   (fst f +:+ " must be a positive integer")) (limit_fields l) ≫= λ _,
  raise_if (max_event_input_bytes l <? max_event_payload_bytes l) ValueError
    "event payload limit cannot exceed event input limit" ≫= λ _,
  raise_if (max_canonical_event_bytes l <? max_event_input_bytes l) ValueError
    "event input limit cannot exceed canonical event limit" ≫= λ _,
  raise_if (max_rendered_prompt_bytes l <? max_agent_context_bytes l) ValueError
    "agent context limit cannot exceed rendered prompt limit".

(** [canonical_json_bytes]: the encoded text itself stands for its bytes. *)
Definition canonical_json_bytes (v : json) (label : string) : result string :=
  if has_nan v then raise ValueError (label +:+ " must contain JSON-compatible values")
  else Ok (dumps false v).

Definition require_json_bytes (v : json) (label : string) (max_bytes : Z) : result Z :=
  bytes ← canonical_json_bytes v label;
  let actual := Z.of_nat (utf8_len bytes) in
  if max_bytes <? actual then safety_limit_exceeded label actual max_bytes "bytes" else Ok actual.

Definition require_utf8_bytes (v : string) (label : string) (max_bytes : Z) : result Z :=
  let actual := Z.of_nat (utf8_len v) in
  if max_bytes <? actual then safety_limit_exceeded label actual max_bytes "bytes" else Ok actual.

(** The collection enters by its length. *)
Definition require_item_count (n : nat) (label : string) (max_items : Z) : result Z :=
  let actual := Z.of_nat n in
  if max_items <? actual then safety_limit_exceeded label actual max_items "items" else Ok actual.

Definition require_event_content (payload : list (string * json)) (references facts : nat)
    (l : PlatformSafetyLimits) : result unit :=
  _ ← require_item_count (length payload) "event payload fields" (max_event_payload_fields l);
  _ ← require_json_bytes (JObj payload) "event payload" (max_event_payload_bytes l);
  _ ← require_item_count references "event external references" (max_external_references_per_event l);
  _ ← require_item_count facts "event facts" (max_facts_per_event l);
  Ok tt.

Definition require_action_parameters (parameters : list (string * json)) (label : string)
    (l : PlatformSafetyLimits) : result unit :=
  _ ← require_item_count (length parameters) (label +:+ " fields") (max_action_parameter_fields l);
  _ ← require_json_bytes (JObj parameters) label (max_action_parameters_bytes l);
  Ok tt.

Definition require_memory_content (summary : option string) (open_commitments : list string)
    (l : PlatformSafetyLimits) : result unit :=
  _ ← match summary with
      | Some s => _ ← require_utf8_bytes s "memory summary" (max_memory_summary_bytes l); Ok tt
      | None => Ok tt
      end;
  _ ← require_item_count (length open_commitments) "open commitments" (max_open_commitments l);
  _ ← for_each (λ c, _ ← require_utf8_bytes c "open commitment" (max_commitment_bytes l); Ok tt)
        open_commitments;
  _ ← require_json_bytes (JArr (JStr <$> open_commitments)) "open commitments"
        (max_open_commitments_bytes l);
  Ok tt.

Definition fact_projection_json (authoritative claims provenance : list (string * json)) : json :=
  JObj [("authoritative_facts", JObj authoritative); ("customer_claims", JObj claims);
        ("fact_provenance", JObj provenance)]%string.

Definition require_process_fact_projection (authoritative claims provenance : list (string * json))
    (l : PlatformSafetyLimits) : result unit :=
  let entry_count := Z.of_nat (length authoritative) + Z.of_nat (length claims) in
  if max_process_fact_entries l <? entry_count then
    safety_limit_exceeded "process fact projection" entry_count (max_process_fact_entries l) "items"
  else
    _ ← require_json_bytes (fact_projection_json authoritative claims provenance)
          "process fact projection" (max_process_fact_projection_bytes l);
    Ok tt.

(** ** What the checks accept *)

Lemma require_json_bytes_ok v label n k :
  require_json_bytes v label n = Ok k ↔
  has_nan v = false ∧ k = Z.of_nat (utf8_len (dumps false v)) ∧ k <= n.
Proof.
  unfold require_json_bytes, canonical_json_bytes.
  destruct (has_nan v); cbn; [naive_solver|].
  destruct (Z.ltb_spec n (Z.of_nat (utf8_len (dumps false v)))); cbn;
    [split; [done|lia]|]. split; [intros [= <-]; done|by intros (_ & -> & _)].
Qed.

Lemma require_utf8_bytes_ok v label n k :
  require_utf8_bytes v label n = Ok k ↔ k = Z.of_nat (utf8_len v) ∧ k <= n.
Proof.
  unfold require_utf8_bytes. destruct (Z.ltb_spec n (Z.of_nat (utf8_len v))); cbn;
    [split; [done|lia]|]. split; [intros [= <-]; done|by intros (-> & _)].
Qed.

Lemma require_item_count_ok c label n k :
  require_item_count c label n = Ok k ↔ k = Z.of_nat c ∧ k <= n.
Proof.
  unfold require_item_count. destruct (Z.ltb_spec n (Z.of_nat c)); cbn;
    [split; [done|lia]|]. split; [intros [= <-]; done|by intros (-> & _)].
Qed.

Definition utf8_at_most (n : Z) (s : string) : Prop := Z.of_nat (utf8_len s) <= n.
Definition json_at_most (n : Z) (v : json) : Prop :=
  has_nan v = false ∧ utf8_at_most n (dumps false v).

Lemma succeeds_json_bytes v label n : succeeds (require_json_bytes v label n) ↔ json_at_most n v.
Proof.
  unfold succeeds, json_at_most, utf8_at_most. setoid_rewrite require_json_bytes_ok. naive_solver.
Qed.

Lemma succeeds_utf8_bytes v label n : succeeds (require_utf8_bytes v label n) ↔ utf8_at_most n v.
Proof. unfold succeeds, utf8_at_most. setoid_rewrite require_utf8_bytes_ok. naive_solver. Qed.

Lemma succeeds_item_count c label n : succeeds (require_item_count c label n) ↔ Z.of_nat c <= n.
Proof. unfold succeeds. setoid_rewrite require_item_count_ok. naive_solver. Qed.

#[export] Hint Rewrite succeeds_json_bytes succeeds_utf8_bytes succeeds_item_count : tiramisu.

Lemma require_action_parameters_ok ps label l :
  succeeds (require_action_parameters ps label l) ↔
  Z.of_nat (length ps) <= max_action_parameter_fields l ∧
  json_at_most (max_action_parameters_bytes l) (JObj ps).
Proof. unfold require_action_parameters. autorewrite with tiramisu. tauto. Qed.

Lemma require_memory_content_ok summary cs l :
  succeeds (require_memory_content summary cs l) ↔
  (∀ s, summary = Some s → utf8_at_most (max_memory_summary_bytes l) s)
  ∧ Z.of_nat (length cs) <= max_open_commitments l
  ∧ Forall (utf8_at_most (max_commitment_bytes l)) cs
  ∧ json_at_most (max_open_commitments_bytes l) (JArr (JStr <$> cs)).
Proof.
  unfold require_memory_content. autorewrite with tiramisu.
  rewrite (succeeds_for_each _ (utf8_at_most (max_commitment_bytes l)))
    by (intros c; autorewrite with tiramisu; tauto).
  destruct summary as [s|]; autorewrite with tiramisu; naive_solver.
Qed.

Lemma json_bytes_value_error v label n :
  raises_only (λ c, is_value_error c = true) (require_json_bytes v label n).
Proof.
  unfold require_json_bytes, canonical_json_bytes, safety_limit_exceeded.
  apply raises_only_bind; [destruct (has_nan v); auto with tiramisu|].
  intros bytes. cbv zeta. case_if; auto with tiramisu.
Qed.

Lemma utf8_bytes_value_error v label n :
  raises_only (λ c, is_value_error c = true) (require_utf8_bytes v label n).
Proof. unfold require_utf8_bytes, safety_limit_exceeded. cbv zeta. case_if; auto with tiramisu. Qed.

Lemma item_count_value_error c label n :
  raises_only (λ c, is_value_error c = true) (require_item_count c label n).
Proof. unfold require_item_count, safety_limit_exceeded. cbv zeta. case_if; auto with tiramisu. Qed.

#[export] Hint Resolve json_bytes_value_error utf8_bytes_value_error item_count_value_error : tiramisu.

(** The order in which a payload was filled does not affect its measured size. *)
Lemma require_json_bytes_same v w label n :
  json_wf v = true → json_wf w = true → has_nan v = has_nan w → json_same v w →
  require_json_bytes v label n = require_json_bytes w label n.
Proof.
  intros Hv Hw Hn Hs. unfold require_json_bytes, canonical_json_bytes.
  by rewrite Hn, (dumps_same false v w Hv Hw Hs).
Qed.
