(* ===== verification/Contracts.v ===== *)
(** * [core/contracts/]: the typed contracts of the kernel

    Enumerations with their stored values, the records that cross the kernel's
    boundaries, and the validators pydantic runs when one is built.  A
    validator is a [result unit]: [ValueError] is what the construction raises.
    Field constraints ([min_length], [pattern], ...) are boolean checks. *)

From stdpp Require Import base list strings pretty.
From Stdlib Require Import ZArith Lia.
From S2P Require Import Prelude Python PyTime Json Limits.

#[local] Open Scope Z_scope.
#[local] Open Scope string_scope.

(** ** [actions.py]: enumerations *)

Inductive PermissionOutcome := ALLOW | DENY | REQUIRE_APPROVAL.
Definition permission_value (p : PermissionOutcome) : string :=
  match p with ALLOW => "allow" | DENY => "deny" | REQUIRE_APPROVAL => "require_approval" end.

Inductive ActionRequestStatus :=
  | ALLOWED | DENIED | PENDING_APPROVAL | APPROVED | REJECTED | SUPERSEDED | EXECUTING
  | SUCCEEDED | FAILED | CONFLICT | UNKNOWN | RECONCILING.
Definition request_status_value (s : ActionRequestStatus) : string :=
  match s with
  | ALLOWED => "allowed" | DENIED => "denied" | PENDING_APPROVAL => "pending_approval"
  | APPROVED => "approved" | REJECTED => "rejected" | SUPERSEDED => "superseded"
  | EXECUTING => "executing" | SUCCEEDED => "succeeded" | FAILED => "failed"
  | CONFLICT => "conflict" | UNKNOWN => "unknown" | RECONCILING => "reconciling"
  end.

Inductive ActionAttemptStatus :=
  | AT_EXECUTING | AT_SUCCEEDED | AT_FAILED | AT_CONFLICT | AT_UNKNOWN | AT_RECONCILING.
Definition attempt_status_value (s : ActionAttemptStatus) : string :=
  match s with
  | AT_EXECUTING => "executing" | AT_SUCCEEDED => "succeeded" | AT_FAILED => "failed"
  | AT_CONFLICT => "conflict" | AT_UNKNOWN => "unknown" | AT_RECONCILING => "reconciling"
  end.

(** [request.status = attempt_status.value]: the two enumerations share values. *)
Definition request_status_of_attempt (s : ActionAttemptStatus) : ActionRequestStatus :=
  match s with
  | AT_EXECUTING => EXECUTING | AT_SUCCEEDED => SUCCEEDED | AT_FAILED => FAILED
  | AT_CONFLICT => CONFLICT | AT_UNKNOWN => UNKNOWN | AT_RECONCILING => RECONCILING
  end.

Inductive ActionResolution := RES_SUCCEEDED | RES_FAILED.
Definition resolution_value (r : ActionResolution) : string :=
  match r with RES_SUCCEEDED => "succeeded" | RES_FAILED => "failed" end.
Definition attempt_status_of_resolution (r : ActionResolution) : ActionAttemptStatus :=
  match r with RES_SUCCEEDED => AT_SUCCEEDED | RES_FAILED => AT_FAILED end.

Inductive ApprovalStatus :=
  | AP_PENDING | AP_APPROVED | AP_REJECTED | AP_EXPIRED | AP_CANCELLED | AP_SUPERSEDED.
Definition approval_status_value (s : ApprovalStatus) : string :=
  match s with
  | AP_PENDING => "pending" | AP_APPROVED => "approved" | AP_REJECTED => "rejected"
  | AP_EXPIRED => "expired" | AP_CANCELLED => "cancelled" | AP_SUPERSEDED => "superseded"
  end.

#[export] Instance PermissionOutcome_eq_dec : EqDecision PermissionOutcome.
Proof. solve_decision. Defined.
#[export] Instance ActionRequestStatus_eq_dec : EqDecision ActionRequestStatus.
Proof. solve_decision. Defined.
#[export] Instance ActionAttemptStatus_eq_dec : EqDecision ActionAttemptStatus.
Proof. solve_decision. Defined.
#[export] Instance ActionResolution_eq_dec : EqDecision ActionResolution.
Proof. solve_decision. Defined.
#[export] Instance ApprovalStatus_eq_dec : EqDecision ApprovalStatus.
Proof. solve_decision. Defined.

(** ** [knowledge.py] *)

Inductive FactKind := AUTHORITATIVE | CUSTOMER_CLAIM.
Definition fact_kind_value (k : FactKind) : string :=
  match k with AUTHORITATIVE => "authoritative" | CUSTOMER_CLAIM => "customer_claim" end.
#[export] Instance FactKind_eq_dec : EqDecision FactKind.
Proof. solve_decision. Defined.

Record FactObservation := mkFact { fact_key : string; fact_kind : FactKind; fact_value : json }.

(** Field constraints of [key] and [require_bounded_value]. *)
Definition fact_validate (f : FactObservation) : result unit :=
  raise_if (negb (is_dotted_identifier (fact_key f)) || (200 <? py_len (fact_key f))%nat)
    ValueError "fact key" ≫= λ _,
  _ ← require_json_bytes (fact_value f) "fact value"
        (max_fact_value_bytes DEFAULT_PLATFORM_SAFETY_LIMITS);
  Ok tt.

(** [fact.model_dump(mode="json")] *)
Definition fact_json (f : FactObservation) : json :=
  JObj [("key", JStr (fact_key f)); ("kind", JStr (fact_kind_value (fact_kind f)));
        ("value", fact_value f)].

(** ** [actions.py]: conflicts and operator resolutions *)

Record ActionConflict := mkConflict {
  conflict_code : string;
  conflict_message : string;
  conflict_details : list (string * json);
  conflict_facts : list FactObservation
}.

Definition conflict_json (c : ActionConflict) : json :=
  JObj [("code", JStr (conflict_code c)); ("message", JStr (conflict_message c));
        ("details", JObj (conflict_details c)); ("facts", JArr (fact_json <$> conflict_facts c))].

Definition conflict_fields_ok (c : ActionConflict) : bool :=
  is_identifier (conflict_code c) && (py_len (conflict_code c) <=? 100)%nat
  && (1 <=? py_len (conflict_message c))%nat && (Z.of_nat (py_len (conflict_message c)) <=? 2000)%Z.

(** [_validate_details] and [_require_authoritative_facts]. *)
Definition conflict_validate (c : ActionConflict) : result unit :=
  let l := DEFAULT_PLATFORM_SAFETY_LIMITS in
  raise_if (negb (conflict_fields_ok c)) ValueError "action conflict" ≫= λ _,
  require_action_parameters (conflict_details c) "action conflict details" l ≫= λ _,
  raise_if (existsb (λ f, negb (bool_decide (fact_kind f = AUTHORITATIVE))) (conflict_facts c))
    ValueError "action conflict facts must be authoritative" ≫= λ _,
  _ ← require_item_count (length (conflict_facts c)) "action conflict facts"
        (max_action_conflict_facts l);
  _ ← require_utf8_bytes (conflict_message c) "action conflict message"
        (max_action_conflict_message_bytes l);
  _ ← require_json_bytes (conflict_json c) "action conflict" (max_action_conflict_bytes l);
  Ok tt.

Record OperatorActionResolution := mkOperatorResolution {
  oar_decision_id : UUID;
  oar_tenant_id : UUID;
  oar_process_instance_id : UUID;
  oar_action_attempt_id : UUID;
  oar_actor_id : UUID;
  oar_resolution : ActionResolution;
  oar_evidence : string;
  oar_provider_reference : option string;
  oar_result : option (list (string * json))
}.

(** ** [decisions.py] *)

Inductive DecisionStatus := DS_ACTIVE | DS_WAITING | DS_COMPLETED | DS_ESCALATED.
Definition decision_status_value (s : DecisionStatus) : string :=
  match s with
  | DS_ACTIVE => "active" | DS_WAITING => "waiting"
  | DS_COMPLETED => "completed" | DS_ESCALATED => "escalated"
  end.
#[export] Instance DecisionStatus_eq_dec : EqDecision DecisionStatus.
Proof. solve_decision. Defined.

Record ActionProposal := mkProposal {
  ap_action_request_id : UUID;
  ap_logical_action_key : string;
  ap_action_type : string;
  ap_parameters : list (string * json);
  ap_rationale : string
}.

(** [HumanWakeCondition.interaction] *)
Inductive HumanInteraction := APPROVAL | REVIEW_INTERACTION | OPERATOR.
Definition interaction_value (i : HumanInteraction) : string :=
  match i with APPROVAL => "approval" | REVIEW_INTERACTION => "review" | OPERATOR => "operator" end.

Inductive WakeCondition :=
  | EventWakeCondition (event_type : string)
  | TimerWakeCondition (at_ : datetime)
  | HumanWakeCondition (interaction : HumanInteraction).

#[export] Instance HumanInteraction_eq_dec : EqDecision HumanInteraction.
Proof. solve_decision. Defined.
#[export] Instance WakeCondition_eq_dec : EqDecision WakeCondition.
Proof. solve_decision. Defined.

(** The pattern of [event_type] and [TimerWakeCondition.require_timezone]. *)
Definition wake_validate (w : WakeCondition) : result unit :=
  match w with
  | EventWakeCondition t => raise_if (negb (is_dotted_identifier t)) ValueError "event_type"
  | TimerWakeCondition d => raise_if (is_naive d) ValueError "timer must be timezone-aware"
  | HumanWakeCondition _ => Ok tt
  end.

Definition is_human_wake (w : WakeCondition) : bool :=
  match w with HumanWakeCondition _ => true | _ => false end.

Record MemoryUpdate := mkMemory {
  mu_summary : option string;
  mu_summary_source_event_ids : list UUID;
  mu_summary_source_review_command_ids : list UUID;
  mu_summary_source_action_attempt_ids : list UUID;
  mu_summary_source_timer_ids : list string;
  mu_open_commitments : list string
}.

Definition empty_memory : MemoryUpdate := mkMemory None [] [] [] [] [].

(** The length of [summary]. *)
Definition memory_fields_ok (m : MemoryUpdate) : bool :=
  match mu_summary m with Some s => (py_len s <=? 4000)%nat | None => true end.

Definition nonempty {A} (xs : list A) : bool := match xs with [] => false | _ => true end.

(** [require_bounded_memory_provenance] *)
Definition memory_validate (m : MemoryUpdate) : result unit :=
  let any_source := nonempty (mu_summary_source_event_ids m)
    || nonempty (mu_summary_source_review_command_ids m)
    || nonempty (mu_summary_source_action_attempt_ids m)
    || nonempty (mu_summary_source_timer_ids m) in
  let has_summary := bool_decide (is_Some (mu_summary m)) in
  raise_if (negb has_summary && any_source) ValueError
    "memory summary sources require a summary" ≫= λ _,
  raise_if (has_summary && negb any_source) ValueError
    "a memory summary requires source provenance" ≫= λ _,
  raise_if (negb (all_unique (mu_summary_source_event_ids m)
                  && all_unique (mu_summary_source_review_command_ids m)
                  && all_unique (mu_summary_source_action_attempt_ids m)
                  && all_unique (mu_summary_source_timer_ids m))) ValueError
    "memory summary source IDs must be unique" ≫= λ _,
  raise_if (existsb is_blank (mu_open_commitments m)) ValueError
    "open commitments cannot be blank" ≫= λ _,
  raise_if (negb (all_unique (mu_open_commitments m))) ValueError
    "open commitments must be unique".

Record AgentDecision := mkDecision {
  ad_decision_id : UUID;
  ad_based_on_event_ids : list UUID;
  ad_based_on_review_command_ids : list UUID;
  ad_based_on_action_attempt_ids : list UUID;
  ad_based_on_timer_ids : list string;
  ad_status : DecisionStatus;
  ad_actions : list ActionProposal;
  ad_wake_conditions : list WakeCondition;
  ad_memory_update : MemoryUpdate
}.

(** [waiting_requires_a_wake_condition] *)
Definition decision_validate (d : AgentDecision) : result unit :=
  raise_if (bool_decide (ad_status d = DS_WAITING) && negb (nonempty (ad_wake_conditions d)))
    ValueError "a waiting decision requires at least one wake condition".

(** ** [processes.py] *)

Inductive ProcessStatus :=
  | PS_ACTIVE | PS_WAITING | PS_REVIEW | PS_PAUSED | PS_COMPLETED | PS_CANCELLED | PS_FAILED.
Definition process_status_value (s : ProcessStatus) : string :=
  match s with
  | PS_ACTIVE => "active" | PS_WAITING => "waiting" | PS_REVIEW => "review" | PS_PAUSED => "paused"
  | PS_COMPLETED => "completed" | PS_CANCELLED => "cancelled" | PS_FAILED => "failed"
  end.
#[export] Instance ProcessStatus_eq_dec : EqDecision ProcessStatus.
Proof. solve_decision. Defined.

(** [status in {"completed", "cancelled", "failed"}] *)
Definition is_terminal (s : ProcessStatus) : bool :=
  match s with PS_COMPLETED | PS_CANCELLED | PS_FAILED => true | _ => false end.

(** [status in {"paused", "completed", "cancelled", "failed"}] *)
Definition is_halted (s : ProcessStatus) : bool :=
  bool_decide (s = PS_PAUSED) || is_terminal s.

(** ** [reviews.py] *)

Inductive ReviewCommandType :=
  | RC_APPROVE | RC_REJECT | RC_REQUEST_REVISION | RC_COMMENT | RC_CORRECT_FACT | RC_CANCEL.
Definition review_type_value (t : ReviewCommandType) : string :=
  match t with
  | RC_APPROVE => "approve" | RC_REJECT => "reject" | RC_REQUEST_REVISION => "request_revision"
  | RC_COMMENT => "comment" | RC_CORRECT_FACT => "correct_fact" | RC_CANCEL => "cancel"
  end.
#[export] Instance ReviewCommandType_eq_dec : EqDecision ReviewCommandType.
Proof. solve_decision. Defined.

Record ReviewCommand := mkReviewCommand {
  rc_command_id : UUID;
  rc_tenant_id : UUID;
  rc_process_instance_id : UUID;
  rc_review_thread_id : UUID;
  rc_action_request_id : UUID;
  rc_proposal_revision : Z;
  rc_command_type : ReviewCommandType;
  rc_actor_id : UUID;
  rc_message : option string;
  rc_expected_payload_hash : option string
}.

(** [not value] for an optional string. *)
Definition falsy (v : option string) : bool :=
  match v with None => true | Some s => is_empty s end.

(** The field constraints, [require_bounded_message] and
    [require_command_specific_fields]. *)
Definition review_command_validate (c : ReviewCommand) : result unit :=
  raise_if (rc_proposal_revision c <? 1)%Z ValueError "proposal_revision" ≫= λ _,
  match rc_message c with
  | Some m =>
      raise_if (10000 <? Z.of_nat (py_len m))%Z ValueError "message" ≫= λ _,
      _ ← require_utf8_bytes m "review message"
            (max_review_message_bytes DEFAULT_PLATFORM_SAFETY_LIMITS); Ok tt
  | None => Ok tt
  end ≫= λ _,
  match rc_expected_payload_hash c with
  | Some h => raise_if ((py_len h <? 32)%nat || (128 <? py_len h)%nat) ValueError
                "expected_payload_hash"
  | None => Ok tt
  end ≫= λ _,
  raise_if (bool_decide (rc_command_type c = RC_APPROVE) && falsy (rc_expected_payload_hash c))
    ValueError "approval requires the exact expected payload hash" ≫= λ _,
  raise_if (match rc_command_type c with
            | RC_REJECT | RC_REQUEST_REVISION | RC_COMMENT | RC_CORRECT_FACT => falsy (rc_message c)
            | _ => false
            end) ValueError (review_type_value (rc_command_type c) +:+ " requires a message").

(** ** [events.py] and [reserved_events.py] *)

Inductive Sensitivity := PUBLIC | INTERNAL | CONFIDENTIAL | RESTRICTED.
Definition sensitivity_value (s : Sensitivity) : string :=
  match s with
  | PUBLIC => "public" | INTERNAL => "internal"
  | CONFIDENTIAL => "confidential" | RESTRICTED => "restricted"
  end.

Record ExternalReference := mkReference {
  er_provider : string; er_resource_type : string; er_external_id : string
}.
#[export] Instance ExternalReference_eq_dec : EqDecision ExternalReference.
Proof. solve_decision. Defined.

Definition reference_json (r : ExternalReference) : json :=
  JObj [("provider", JStr (er_provider r)); ("resource_type", JStr (er_resource_type r));
        ("external_id", JStr (er_external_id r))].

Record CanonicalEvent := mkEvent {
  ce_event_id : UUID;
  ce_tenant_id : UUID;
  ce_process_instance_id : option UUID;
  ce_event_type : string;
  ce_source : string;
  ce_source_event_id : string;
  ce_occurred_at : datetime;
  ce_received_at : datetime;
  ce_schema_version : Z;
  ce_sensitivity : Sensitivity;
  ce_external_references : list ExternalReference;
  ce_facts : list FactObservation;
  ce_payload : list (string * json)
}.

Section event_validation.
(** How pydantic writes a datetime in JSON mode. *)
Context (dump_datetime : datetime → string).

Definition event_json (e : CanonicalEvent) : json :=
  JObj [("event_id", JStr (str_uuid (ce_event_id e)));
        ("tenant_id", JStr (str_uuid (ce_tenant_id e)));
        ("process_instance_id",
           match ce_process_instance_id e with Some u => JStr (str_uuid u) | None => JNull end);
        ("event_type", JStr (ce_event_type e));
        ("source", JStr (ce_source e));
        ("source_event_id", JStr (ce_source_event_id e));
        ("occurred_at", JStr (dump_datetime (ce_occurred_at e)));
        ("received_at", JStr (dump_datetime (ce_received_at e)));
        ("schema_version", JInt (ce_schema_version e));
        ("sensitivity", JStr (sensitivity_value (ce_sensitivity e)));
        ("external_references", JArr (reference_json <$> ce_external_references e));
        ("facts", JArr (fact_json <$> ce_facts e));
        ("payload", JObj (ce_payload e))].

Definition event_fields_ok (e : CanonicalEvent) : bool :=
  is_dotted_identifier (ce_event_type e) && (py_len (ce_event_type e) <=? 150)%nat
  && (1 <=? py_len (ce_source e))%nat && (py_len (ce_source e) <=? 100)%nat
  && (1 <=? py_len (ce_source_event_id e))%nat && (py_len (ce_source_event_id e) <=? 500)%nat
  && (1 <=? ce_schema_version e)%Z.

(** [require_timezone] and [require_bounded_content]. *)
Definition event_validate (e : CanonicalEvent) : result unit :=
  let l := DEFAULT_PLATFORM_SAFETY_LIMITS in
  raise_if (negb (event_fields_ok e)) ValueError "canonical event" ≫= λ _,
  raise_if (is_naive (ce_occurred_at e) || is_naive (ce_received_at e)) ValueError
    "event timestamps must be timezone-aware" ≫= λ _,
  require_event_content (ce_payload e) (length (ce_external_references e))
    (length (ce_facts e)) l ≫= λ _,
  _ ← require_json_bytes (event_json e) "canonical event" (max_canonical_event_bytes l);
  Ok tt.
End event_validation.

Definition OPERATOR_MANUAL_WAKE_EVENT_TYPE : string := "operator.manual_wake".
Definition RESERVED_KERNEL_EVENT_TYPES : list string := [OPERATOR_MANUAL_WAKE_EVENT_TYPE].

(** ** Facts *)

#[export] Instance permission_value_inj : Inj (=) (=) permission_value.
Proof. by intros [] []. Qed.
#[export] Instance request_status_value_inj : Inj (=) (=) request_status_value.
Proof. by intros [] []. Qed.
#[export] Instance process_status_value_inj : Inj (=) (=) process_status_value.
Proof. by intros [] []. Qed.
#[export] Instance fact_kind_value_inj : Inj (=) (=) fact_kind_value.
Proof. by intros [] []. Qed.

Lemma request_status_of_attempt_value s :
  request_status_value (request_status_of_attempt s) = attempt_status_value s.
Proof. by destruct s. Qed.
