(* ===== verification/DecisionPolicy.v ===== *)
(** * [core/policy.py], [core/action_policy.py], [core/action_identity.py]

    The deterministic validation of an agent's proposal.  [validate_decision]
    follows the source check by check; [Admissible] is the declarative
    specification it implements ([validate_decision_spec]). *)

From stdpp Require Import base list strings pretty.
From Stdlib Require Import ZArith Lia.
From S2P Require Import Prelude Python PyTime Json Digests Limits Contracts.

#[local] Open Scope Z_scope.

(** ** Action identities *)

Definition action_payload_json (action_type : string) (parameters : list (string * json)) : json :=
  JObj [("action_type", JStr action_type); ("parameters", JObj parameters)]%string.

Definition action_payload_identity (action_type : string) (parameters : list (string * json)) : string :=
  sha256_hex (dumps true (action_payload_json action_type parameters)).

Definition execution_idempotency_key (tenant_id process_instance_id action_request_id : UUID)
    (revision : Z) (payload_hash : string) : string :=
  sha256_hex (str_uuid tenant_id +:+ ":" +:+ str_uuid process_instance_id +:+ ":"
    +:+ str_uuid action_request_id +:+ ":" +:+ pretty revision +:+ ":" +:+ payload_hash)%string.

(** ** Permissions *)

Record ActionPolicyDecision := mkPolicyDecision {
  apd_outcome : PermissionOutcome; apd_policy_version : string; apd_reason : string
}.

Record ConfiguredActionPolicy := mkActionPolicy {
  cap_permissions : list (string * PermissionOutcome); cap_version : string
}.

(** [ConfiguredActionPolicy.evaluate]: an omitted action type is denied. *)
Definition evaluate (p : ConfiguredActionPolicy) (a : ActionProposal) : ActionPolicyDecision :=
  let outcome := default DENY (assoc (ap_action_type a) (cap_permissions p)) in
  mkPolicyDecision outcome (cap_version p)
    ("action '" +:+ ap_action_type a +:+ "' is configured as " +:+ permission_value outcome
     +:+ " by policy " +:+ cap_version p)%string.

Definition initial_action_request_status (o : PermissionOutcome) : ActionRequestStatus :=
  match o with ALLOW => ALLOWED | DENY => DENIED | REQUIRE_APPROVAL => PENDING_APPROVAL end.

(** ** [DecisionPolicy] *)

Record DecisionPolicy := mkDecisionPolicy {
  dp_allowed_action_types : list string;
  dp_allowed_wake_event_types : list string;
  dp_human_wake_action_types : list string;
  dp_max_actions_per_turn : Z;
  dp_max_timer_horizon : Z;
  dp_max_action_parameter_fields : Z;
  dp_max_action_parameters_bytes : Z;
  dp_max_open_commitments : Z;
  dp_max_commitment_bytes : Z;
  dp_max_open_commitments_bytes : Z;
  dp_max_memory_summary_bytes : Z;
  dp_completion_requirements : list (string * json)
}.

(** The configurable ceilings, each with the platform maximum of its name. *)
Definition policy_limits (p : DecisionPolicy) : list (string * Z * Z) :=
  let l := DEFAULT_PLATFORM_SAFETY_LIMITS in
  [("max_action_parameter_fields", dp_max_action_parameter_fields p, max_action_parameter_fields l);
   ("max_action_parameters_bytes", dp_max_action_parameters_bytes p, max_action_parameters_bytes l);
   ("max_open_commitments", dp_max_open_commitments p, max_open_commitments l);
   ("max_commitment_bytes", dp_max_commitment_bytes p, max_commitment_bytes l);
   ("max_open_commitments_bytes", dp_max_open_commitments_bytes p, max_open_commitments_bytes l);
   ("max_memory_summary_bytes", dp_max_memory_summary_bytes p, max_memory_summary_bytes l)]%string.

(** [DecisionPolicy.__post_init__] *)
Definition policy_post_init (p : DecisionPolicy) : result unit :=
  raise_if (dp_max_actions_per_turn p <? 0) ValueError
    "max_actions_per_turn cannot be negative" ≫= λ _,
  raise_if (dp_max_timer_horizon p <=? 0) ValueError "max_timer_horizon must be positive" ≫= λ _,
  for_each (λ '(name, value, platform_maximum),
      raise_if (value <? 1) ValueError (name +:+ " must be a positive integer") ≫= λ _,
      raise_if (platform_maximum <? value) ValueError
        (name +:+ " cannot exceed the platform maximum")) (policy_limits p) ≫= λ _,
  raise_if (negb (subset_of (dp_human_wake_action_types p) (dp_allowed_action_types p)))
    ValueError "human wake action types must be allowed action types".

(** ** [validate_decision] *)

(** The keyword arguments of one call. *)
Record TurnExpectation := mkExpectation {
  te_workflow_now : datetime;
  te_expected_event_ids : option (list UUID);
  te_expected_review_command_ids : option (list UUID);
  te_expected_action_attempt_ids : option (list UUID);
  te_expected_timer_ids : option (list string);
  te_conflicted_action_payload_hashes : list string;
  te_current_authoritative_facts : option (list (string * json));
  te_enforce_completion_requirements : bool
}.

Definition wrong_lineage {A} `{EqDecision A} (expected : option (list A)) (actual : list A) : bool :=
  match expected with Some ids => negb (same_set actual ids) | None => false end.

(** The size checks of memory and action parameters inside the [try]. *)
Definition check_content (d : AgentDecision) (p : DecisionPolicy) : result unit :=
  let m := ad_memory_update d in
  _ ← match mu_summary m with
      | Some s => _ ← require_utf8_bytes s "memory summary" (dp_max_memory_summary_bytes p); Ok tt
      | None => Ok tt
      end;
  _ ← require_item_count (length (mu_open_commitments m)) "open commitments"
        (dp_max_open_commitments p);
  _ ← for_each (λ c, _ ← require_utf8_bytes c "open commitment" (dp_max_commitment_bytes p); Ok tt)
        (mu_open_commitments m);
  _ ← require_json_bytes (JArr (JStr <$> mu_open_commitments m)) "open commitments"
        (dp_max_open_commitments_bytes p);
  for_each (λ a,
      let label := ("action parameters for " +:+ ap_logical_action_key a)%string in
      _ ← require_item_count (length (ap_parameters a)) label (dp_max_action_parameter_fields p);
      _ ← require_json_bytes (JObj (ap_parameters a)) label (dp_max_action_parameters_bytes p);
      Ok tt) (ad_actions d).

(** [key in facts and facts[key] == expected] *)
Definition requirement_holds (facts : list (string * json)) (kv : string * json) : bool :=
  match assoc (fst kv) facts with Some v => json_eqb v (snd kv) | None => false end.

(** The requirement keys, sorted, whose fact is missing or different. *)
Definition unsatisfied (requirements facts : list (string * json)) : list string :=
  fst <$> List.filter (λ kv, negb (requirement_holds facts kv)) (sort_by fst requirements).

Definition check_completion (d : AgentDecision) (p : DecisionPolicy) (t : TurnExpectation)
  : result unit :=
  if te_enforce_completion_requirements t && bool_decide (ad_status d = DS_COMPLETED)
     && nonempty (dp_completion_requirements p) then
    match te_current_authoritative_facts t with
    | None => raise DecisionRejected "authoritative facts are required to validate completion"
    | Some facts =>
        let missing := unsatisfied (dp_completion_requirements p) facts in
        raise_if (nonempty missing) DecisionRejected
          ("completion requirements are not satisfied: " +:+ join_with ", " missing)
    end
  else Ok tt.

Fixpoint check_actions (p : DecisionPolicy) (conflicted : list string) (seen : list string)
    (actions : list ActionProposal) : result unit :=
  match actions with
  | [] => Ok tt
  | a :: actions =>
      _ ← raise_if (negb (bool_decide (ap_action_type a ∈ dp_allowed_action_types p)))
            DecisionRejected ("action type is not allowed: " +:+ ap_action_type a);
      _ ← raise_if (bool_decide (ap_logical_action_key a ∈ seen))
            DecisionRejected ("duplicate logical action key: " +:+ ap_logical_action_key a);
      _ ← raise_if (bool_decide
              (action_payload_identity (ap_action_type a) (ap_parameters a) ∈ conflicted))
            DecisionRejected
            "decision repeats an action payload that just returned a definitive conflict";
      check_actions p conflicted (ap_logical_action_key a :: seen) actions
  end.

Definition check_wake (p : DecisionPolicy) (now : Z) (w : WakeCondition) : result unit :=
  match w with
  | EventWakeCondition t =>
      raise_if (negb (bool_decide (t ∈ dp_allowed_wake_event_types p)))
        DecisionRejected ("wake event type is not allowed: " +:+ t)
  | TimerWakeCondition at_ =>
      _ ← raise_if (instant at_ <=? now) DecisionRejected
            "timer wake condition must be in the future";
      raise_if (dp_max_timer_horizon p <? instant at_ - now) DecisionRejected
        "timer wake condition exceeds the maximum horizon"
  | HumanWakeCondition _ => Ok tt
  end.

Definition validate_decision (d : AgentDecision) (p : DecisionPolicy) (t : TurnExpectation)
  : result AgentDecision :=
  let m := ad_memory_update d in
  _ ← raise_if (is_naive (te_workflow_now t)) ValueError "workflow_now must be timezone-aware";
  _ ← raise_if (wrong_lineage (te_expected_event_ids t) (ad_based_on_event_ids d)) DecisionRejected
        "decision must be based on exactly the events in this turn";
  _ ← raise_if (wrong_lineage (te_expected_review_command_ids t) (ad_based_on_review_command_ids d))
        DecisionRejected "decision must be based on exactly the review commands in this turn";
  _ ← raise_if (wrong_lineage (te_expected_action_attempt_ids t) (ad_based_on_action_attempt_ids d))
        DecisionRejected "decision must be based on exactly the action results in this turn";
  _ ← raise_if (wrong_lineage (te_expected_timer_ids t) (ad_based_on_timer_ids d)) DecisionRejected
        "decision must be based on exactly the timers in this turn";
  _ ← rewrap_value_error DecisionRejected (check_content d p);
  _ ← raise_if (negb (subset_of (mu_summary_source_event_ids m) (ad_based_on_event_ids d)))
        DecisionRejected "memory summary cites an event outside this turn";
  _ ← raise_if (negb (subset_of (mu_summary_source_review_command_ids m)
                                (ad_based_on_review_command_ids d)))
        DecisionRejected "memory summary cites a review command outside this turn";
  _ ← raise_if (negb (subset_of (mu_summary_source_action_attempt_ids m)
                                (ad_based_on_action_attempt_ids d)))
        DecisionRejected "memory summary cites an action result outside this turn";
  _ ← raise_if (negb (subset_of (mu_summary_source_timer_ids m) (ad_based_on_timer_ids d)))
        DecisionRejected "memory summary cites a timer outside this turn";
  _ ← raise_if (dp_max_actions_per_turn p <? Z.of_nat (length (ad_actions d)))
        DecisionRejected "decision exceeds the maximum actions per turn";
  _ ← raise_if (bool_decide (ad_status d = DS_COMPLETED) && nonempty (ad_actions d))
        DecisionRejected "completed decision cannot propose unresolved actions";
  _ ← check_completion d p t;
  _ ← raise_if (bool_decide (ad_status d = DS_ACTIVE) && negb (nonempty (ad_actions d))
                && negb (nonempty (ad_wake_conditions d)))
        DecisionRejected "active decision requires an action or wake condition";
  _ ← check_actions p (te_conflicted_action_payload_hashes t) [] (ad_actions d);
  _ ← raise_if (existsb is_human_wake (ad_wake_conditions d)
                && negb (existsb (λ a, bool_decide (ap_action_type a ∈ dp_human_wake_action_types p))
                           (ad_actions d)))
        DecisionRejected "human wake condition requires an action that requires human approval";
  _ ← for_each (check_wake p (instant (te_workflow_now t))) (ad_wake_conditions d);
  Ok d.

(** ** Specification *)

Definition lineage_is {A} (expected : option (list A)) (actual : list A) : Prop :=
  match expected with Some ids => ∀ x, x ∈ actual ↔ x ∈ ids | None => True end.

Definition requirement_met (facts : list (string * json)) (kv : string * json) : Prop :=
  ∃ v, assoc (fst kv) facts = Some v ∧ json_eqb v (snd kv) = true.

Definition wake_admissible (p : DecisionPolicy) (now : Z) (w : WakeCondition) : Prop :=
  match w with
  | EventWakeCondition t => t ∈ dp_allowed_wake_event_types p
  | TimerWakeCondition d => now < instant d <= now + dp_max_timer_horizon p
  | HumanWakeCondition _ => True
  end.

Record Admissible (d : AgentDecision) (p : DecisionPolicy) (t : TurnExpectation) : Prop := {
  adm_now : is_naive (te_workflow_now t) = false;
  adm_events : lineage_is (te_expected_event_ids t) (ad_based_on_event_ids d);
  adm_reviews : lineage_is (te_expected_review_command_ids t) (ad_based_on_review_command_ids d);
  adm_attempts : lineage_is (te_expected_action_attempt_ids t) (ad_based_on_action_attempt_ids d);
  adm_timers : lineage_is (te_expected_timer_ids t) (ad_based_on_timer_ids d);
  adm_summary : ∀ s, mu_summary (ad_memory_update d) = Some s →
    utf8_at_most (dp_max_memory_summary_bytes p) s;
  adm_commitments_count :
    Z.of_nat (length (mu_open_commitments (ad_memory_update d))) <= dp_max_open_commitments p;
  adm_commitments_each :
    Forall (utf8_at_most (dp_max_commitment_bytes p)) (mu_open_commitments (ad_memory_update d));
  adm_commitments_total : json_at_most (dp_max_open_commitments_bytes p)
    (JArr (JStr <$> mu_open_commitments (ad_memory_update d)));
  adm_parameters : Forall (λ a,
    Z.of_nat (length (ap_parameters a)) <= dp_max_action_parameter_fields p ∧
    json_at_most (dp_max_action_parameters_bytes p) (JObj (ap_parameters a))) (ad_actions d);
  adm_cites_events :
    mu_summary_source_event_ids (ad_memory_update d) ⊆ ad_based_on_event_ids d;
  adm_cites_reviews :
    mu_summary_source_review_command_ids (ad_memory_update d) ⊆ ad_based_on_review_command_ids d;
  adm_cites_attempts :
    mu_summary_source_action_attempt_ids (ad_memory_update d) ⊆ ad_based_on_action_attempt_ids d;
  adm_cites_timers :
    mu_summary_source_timer_ids (ad_memory_update d) ⊆ ad_based_on_timer_ids d;
  adm_action_count : Z.of_nat (length (ad_actions d)) <= dp_max_actions_per_turn p;
  adm_completed : ad_status d = DS_COMPLETED → ad_actions d = [];
  adm_requirements : te_enforce_completion_requirements t = true → ad_status d = DS_COMPLETED →
    dp_completion_requirements p ≠ [] →
    ∃ facts, te_current_authoritative_facts t = Some facts ∧
      Forall (requirement_met facts) (dp_completion_requirements p);
  adm_active : ad_status d = DS_ACTIVE → ad_actions d ≠ [] ∨ ad_wake_conditions d ≠ [];
  adm_allowed : Forall (λ a, ap_action_type a ∈ dp_allowed_action_types p) (ad_actions d);
  adm_keys : NoDup (ap_logical_action_key <$> ad_actions d);
  adm_no_conflict : Forall (λ a, action_payload_identity (ap_action_type a) (ap_parameters a)
    ∉ te_conflicted_action_payload_hashes t) (ad_actions d);
  adm_human : Exists (λ w, is_human_wake w = true) (ad_wake_conditions d) →
    Exists (λ a, ap_action_type a ∈ dp_human_wake_action_types p) (ad_actions d);
  adm_wakes : Forall (wake_admissible p (instant (te_workflow_now t))) (ad_wake_conditions d)
}.

(** ** Each check against its clause *)

Lemma wrong_lineage_false {A} `{EqDecision A} (expected : option (list A)) actual :
  wrong_lineage expected actual = false ↔ lineage_is expected actual.
Proof.
  destruct expected as [ids|]; cbn; [|done].
  rewrite negb_false_iff. apply same_set_spec.
Qed.

Lemma nonempty_true {A} (xs : list A) : nonempty xs = true ↔ xs ≠ [].
Proof. by destruct xs. Qed.

Lemma existsb_Exists {A} (f : A → bool) xs : existsb f xs = true ↔ Exists (λ x, f x = true) xs.
Proof. rewrite existsb_exists, Exists_exists. by setoid_rewrite list_elem_of_In. Qed.

Lemma check_content_ok d p :
  succeeds (check_content d p) ↔
  (∀ s, mu_summary (ad_memory_update d) = Some s → utf8_at_most (dp_max_memory_summary_bytes p) s)
  ∧ Z.of_nat (length (mu_open_commitments (ad_memory_update d))) <= dp_max_open_commitments p
  ∧ Forall (utf8_at_most (dp_max_commitment_bytes p)) (mu_open_commitments (ad_memory_update d))
  ∧ json_at_most (dp_max_open_commitments_bytes p)
      (JArr (JStr <$> mu_open_commitments (ad_memory_update d)))
  ∧ Forall (λ a, Z.of_nat (length (ap_parameters a)) <= dp_max_action_parameter_fields p ∧
      json_at_most (dp_max_action_parameters_bytes p) (JObj (ap_parameters a))) (ad_actions d).
Proof.
  unfold check_content. autorewrite with tiramisu.
  rewrite (succeeds_for_each _ (utf8_at_most (dp_max_commitment_bytes p)))
    by (intros c; autorewrite with tiramisu; tauto).
  rewrite (succeeds_for_each _ (λ a,
    Z.of_nat (length (ap_parameters a)) <= dp_max_action_parameter_fields p ∧
    json_at_most (dp_max_action_parameters_bytes p) (JObj (ap_parameters a))))
    by (intros a; autorewrite with tiramisu; tauto).
  destruct (mu_summary _) as [s|]; autorewrite with tiramisu; naive_solver.
Qed.

Lemma requirement_holds_met facts kv :
  requirement_holds facts kv = true ↔ requirement_met facts kv.
Proof. unfold requirement_holds, requirement_met. destruct (assoc _ _); naive_solver. Qed.

Lemma unsatisfied_nil requirements facts :
  unsatisfied requirements facts = [] ↔ Forall (requirement_met facts) requirements.
Proof.
  unfold unsatisfied.
  trans (Forall (requirement_met facts) (sort_by fst requirements));
    [|by rewrite sort_by_Permutation].
  induction (sort_by fst requirements) as [|kv kvs IH]; [by split|].
  cbn [List.filter]. rewrite Forall_cons, <- requirement_holds_met.
  destruct (requirement_holds facts kv); cbn [negb]; [tauto|].
  split; [done|intros [? _]; done].
Qed.

Lemma check_completion_ok d p t :
  succeeds (check_completion d p t) ↔
  (te_enforce_completion_requirements t = true → ad_status d = DS_COMPLETED →
   dp_completion_requirements p ≠ [] →
   ∃ facts, te_current_authoritative_facts t = Some facts ∧
     Forall (requirement_met facts) (dp_completion_requirements p)).
Proof.
  unfold check_completion.
  destruct (te_enforce_completion_requirements t); cbn; [|rewrite succeeds_ok; done].
  case_bool_decide as Hc; cbn; [|rewrite succeeds_ok; by split].
  destruct (nonempty _) eqn:E.
  - apply nonempty_true in E. destruct (te_current_authoritative_facts t) as [facts|].
    + rewrite succeeds_raise_if, <- not_true_iff_false, nonempty_true.
      pose proof (unsatisfied_nil (dp_completion_requirements p) facts) as Hu.
      split; [intros Hn _ _ _; exists facts; split; [done|]|intros H; destruct H as (? & [= <-] & H); auto].
      * apply Hu. destruct (unsatisfied _ _); [done|]. by destruct Hn.
      * intros []. by apply Hu.
    + rewrite succeeds_raise. split; [done|]. intros H. by destruct H as (? & [=] & _).
  - rewrite succeeds_ok. split; [|done]. intros _ _ _ Hn. by apply nonempty_true in Hn; rewrite E in Hn.
Qed.

Lemma check_actions_ok p conflicted seen actions :
  succeeds (check_actions p conflicted seen actions) ↔
  Forall (λ a, ap_action_type a ∈ dp_allowed_action_types p) actions
  ∧ NoDup (ap_logical_action_key <$> actions)
  ∧ Forall (λ a, ap_logical_action_key a ∉ seen) actions
  ∧ Forall (λ a, action_payload_identity (ap_action_type a) (ap_parameters a) ∉ conflicted) actions.
Proof.
  revert seen. induction actions as [|a actions IH]; intros seen.
  { cbn. rewrite succeeds_ok. repeat split; auto; constructor. }
  cbn [check_actions]. autorewrite with tiramisu. rewrite IH, fmap_cons, NoDup_cons, !Forall_cons.
  rewrite negb_false_iff, bool_decide_eq_true, !bool_decide_eq_false.
  setoid_rewrite elem_of_cons. rewrite list_elem_of_fmap.
  rewrite !Forall_forall. split.
  - intros (? & ? & ? & ? & ? & Hs & ?). repeat split; auto.
    + intros (b & ? & Hb). apply (Hs b Hb). by left.
    + intros b Hb ?. apply (Hs b Hb). by right.
  - intros ((? & ?) & (Hn & ?) & (? & Hs) & ? & ?). repeat split; auto.
    intros b Hb [Hk|Hk]; [apply Hn; eauto|by apply (Hs b Hb)].
Qed.

Lemma check_wake_ok p now w : succeeds (check_wake p now w) ↔ wake_admissible p now w.
Proof.
  destruct w as [t|at_|i]; cbn; autorewrite with tiramisu.
  - by rewrite negb_false_iff, bool_decide_eq_true.
  - rewrite Z.leb_gt, Z.ltb_ge. lia.
  - done.
Qed.

Definition rejects (c : exn_class) : Prop := c = DecisionRejected.

Lemma check_content_value_error d p :
  raises_only (λ c, is_value_error c = true) (check_content d p).
Proof.
  unfold check_content.
  apply raises_only_bind; [destruct (mu_summary _); auto with tiramisu|intros _].
  apply raises_only_bind; [auto with tiramisu|intros _].
  apply raises_only_bind; [apply raises_only_for_each; auto with tiramisu|intros _].
  apply raises_only_bind; [auto with tiramisu|intros _].
  apply raises_only_for_each. auto with tiramisu.
Qed.

Lemma check_completion_rejects d p t : raises_only rejects (check_completion d p t).
Proof.
  unfold check_completion. case_if; [|auto with tiramisu].
  case_match; [by apply raises_only_raise_if|by apply raises_only_raise].
Qed.

Lemma check_actions_rejects p conflicted seen actions :
  raises_only rejects (check_actions p conflicted seen actions).
Proof.
  revert seen. induction actions as [|a actions IH]; intros seen; cbn; [auto with tiramisu|].
  repeat (apply raises_only_bind; [by apply raises_only_raise_if|intros _]). apply IH.
Qed.

Lemma check_wake_rejects p now w : raises_only rejects (check_wake p now w).
Proof.
  destruct w; cbn; [by apply raises_only_raise_if| |auto with tiramisu].
  apply raises_only_bind; intros; by apply raises_only_raise_if.
Qed.

Lemma validate_decision_ok d p t d' :
  validate_decision d p t = Ok d' ↔ d' = d ∧ Admissible d p t.
Proof.
  unfold validate_decision. rewrite !seq_ok.
  rewrite !succeeds_raise_if, !wrong_lineage_false, succeeds_rewrap, check_content_ok,
    !negb_false_iff, !subset_of_spec, Z.ltb_ge, check_completion_ok, check_actions_ok,
    (succeeds_for_each _ _ _ (check_wake_ok p (instant (te_workflow_now t)))).
  rewrite !andb_false_iff, !negb_false_iff, !bool_decide_eq_false.
  split.
  - intros (?&?&?&?&?&(?&?&?&?&?)&?&?&?&?&?&Hc&?&Ha&(?&?&_&?)&Hh&?&[= <-]).
    split; [done|]. constructor; auto.
    + intros ?. destruct Hc as [Hc|Hc]; [done|]. by destruct (ad_actions d).
    + intros ?. rewrite <- !nonempty_true. tauto.
    + intros Hw%existsb_Exists. destruct Hh as [Hh|Hh]; [congruence|].
      apply existsb_Exists in Hh. eapply Exists_impl; [exact Hh|]. intros a. by rewrite bool_decide_eq_true.
  - intros [-> []]. split_and!; auto.
    + destruct (decide (ad_status d = DS_COMPLETED)) as [E|]; [right|by left].
      by rewrite adm_completed0.
    + destruct (decide (ad_status d = DS_ACTIVE)) as [E|]; [|by left; left].
      rewrite !nonempty_true. destruct (adm_active0 E); tauto.
    + apply Forall_true. intros; apply not_elem_of_nil.
    + destruct (existsb is_human_wake _) eqn:E; [right|by left].
      apply existsb_Exists in E. apply existsb_Exists. eapply Exists_impl; [by apply adm_human0|].
      intros a. by rewrite bool_decide_eq_true.
Qed.

(** ** Properties *)

(** C5: [validate_decision] accepts exactly the admissible decisions, and returns
    the decision unchanged: every check of the source is a clause of
    [Admissible], and no clause is left unchecked. *)
Theorem validate_decision_spec d p t d' :
  validate_decision d p t = Ok d' ↔ d' = d ∧ Admissible d p t.
Proof. apply validate_decision_ok. Qed.

(** With an aware clock, a decision that is not accepted is rejected with
    [DecisionRejected] and nothing else: an encoding failure or an exceeded
    ceiling inside the checks does not escape under another type. *)
Theorem validate_decision_fails_closed d p t e :
  is_naive (te_workflow_now t) = false →
  validate_decision d p t = Raise e → exn_cls e = DecisionRejected.
Proof.
  intros Hnow. revert e. change (raises_only rejects (validate_decision d p t)).
  unfold validate_decision. rewrite Hnow.
  apply raises_only_bind; [apply raises_only_ok|intros _].
  do 4 (apply raises_only_bind; [by apply raises_only_raise_if|intros _]).
  apply raises_only_bind; [by apply raises_only_rewrap, check_content_value_error|intros _].
  do 6 (apply raises_only_bind; [by apply raises_only_raise_if|intros _]).
  apply raises_only_bind; [apply check_completion_rejects|intros _].
  apply raises_only_bind; [by apply raises_only_raise_if|intros _].
  apply raises_only_bind; [apply check_actions_rejects|intros _].
  apply raises_only_bind; [by apply raises_only_raise_if|intros _].
  apply raises_only_bind; [apply raises_only_for_each, check_wake_rejects|auto with tiramisu].
Qed.

Lemma policy_post_init_limits p :
  policy_post_init p = Ok tt →
  Forall (λ '(name, value, platform_maximum), 1 <= value <= platform_maximum) (policy_limits p).
Proof.
  unfold policy_post_init. rewrite !seq_ok. intros (_ & _ & H & _). revert H.
  rewrite (succeeds_for_each _ (λ '(name, value, platform_maximum), 1 <= value <= platform_maximum)).
  { done. }
  intros [[name value] m]. autorewrite with tiramisu. rewrite !Z.ltb_ge. lia.
Qed.

Lemma utf8_at_most_mono n m s : utf8_at_most n s → n <= m → utf8_at_most m s.
Proof. unfold utf8_at_most. lia. Qed.
Lemma json_at_most_mono n m v : json_at_most n v → n <= m → json_at_most m v.
Proof. intros [? ?] ?. split; [done|]. by eapply utf8_at_most_mono. Qed.

(** A decision validated under a well-formed policy passes the memory and
    parameter ceilings that the action gateway and the state projector check
    again at their persistence boundaries. *)
Theorem validated_decision_passes_persistence d p t d' label :
  policy_post_init p = Ok tt → validate_decision d p t = Ok d' →
  require_memory_content (mu_summary (ad_memory_update d')) (mu_open_commitments (ad_memory_update d'))
    DEFAULT_PLATFORM_SAFETY_LIMITS = Ok tt
  ∧ Forall (λ a, require_action_parameters (ap_parameters a) label DEFAULT_PLATFORM_SAFETY_LIMITS
                 = Ok tt) (ad_actions d').
Proof.
  intros Hp [-> []]%validate_decision_ok.
  apply policy_post_init_limits in Hp. unfold policy_limits in Hp.
  rewrite !Forall_cons in Hp. destruct Hp as (?&?&?&?&?&?&_).
  rewrite <- succeeds_unit, require_memory_content_ok. split; [split_and!|].
  - intros s Hs. eapply utf8_at_most_mono; [eauto|lia].
  - lia.
  - eapply Forall_impl; [eassumption|]. intros s Hs. eapply utf8_at_most_mono; [eauto|lia].
  - eapply json_at_most_mono; [eauto|lia].
  - eapply Forall_impl; [exact adm_parameters0|]. intros a [? ?].
    rewrite <- succeeds_unit, require_action_parameters_ok. split; [lia|].
    eapply json_at_most_mono; [eauto|lia].
Qed.

Lemma action_payload_wf action_type items :
  json_wf (action_payload_json action_type items) = json_wf (JObj items).
Proof.
  change (json_wf (action_payload_json action_type items)) with
    (all_unique ["action_type"; "parameters"]%string && (true && (json_wf (JObj items) && true))).
  change (all_unique ["action_type"; "parameters"]%string) with true.
  cbn -[json_wf]. by rewrite andb_true_r.
Qed.

Lemma action_identity_order_lemma action_type items items' :
  json_wf (JObj items) = true → items ≡ₚ items' →
  dumps true (action_payload_json action_type items) = dumps true (action_payload_json action_type items').
Proof.
  intros Hwf Hp. pose proof Hwf as Hwf0. cbn in Hwf.
  apply andb_true_iff in Hwf as [Hu Hv]. apply bool_decide_eq_true in Hu.
  assert (json_wf (JObj items') = true) as Hwf'.
  { cbn. apply andb_true_iff. split.
    - apply bool_decide_eq_true. change (NoDup (fst <$> items')). by rewrite <- Hp.
    - apply forallb_Forall. apply forallb_Forall in Hv. by rewrite <- Hp. }
  apply dumps_same; [by rewrite action_payload_wf|by rewrite action_payload_wf|].
  unfold json_same, action_payload_json. cbn -[sort_by].
  pose proof (json_same_perm items items' Hu Hp) as E. unfold json_same in E.
  cbn -[sort_by] in E. by rewrite E.
Qed.

(** The identity of an action payload does not depend on the order in which
    its parameters were written. *)
Theorem action_payload_identity_order action_type items items' :
  json_wf (JObj items) = true → items ≡ₚ items' →
  action_payload_identity action_type items = action_payload_identity action_type items'.
Proof. intros Hwf Hp. unfold action_payload_identity. by rewrite (action_identity_order_lemma _ _ items'). Qed.

(** ** Examples *)

Definition ex_policy : DecisionPolicy := mkDecisionPolicy
  ["send_message"; "refund"] ["customer.replied"] ["refund"] 3 (days 30) 100 32768 50 2048 32768 16384
  [("booking.status", JStr "confirmed")].
Definition ex_action : ActionProposal :=
  mkProposal (uuid 7) "greet" "send_message" [("body", JStr "hello"); ("to", JStr "ana")] "first contact".
Definition ex_decision : AgentDecision := mkDecision (uuid 5) [uuid 1] [] [] [] DS_WAITING [ex_action]
  [EventWakeCondition "customer.replied"; TimerWakeCondition (utc (days 2))]
  (mkMemory (Some "met the customer") [uuid 1] [] [] [] ["call back"]).
Definition ex_turn : TurnExpectation :=
  mkExpectation (utc (days 1)) (Some [uuid 1]) None None None [] None true.

Lemma validate_decision_fails_closed_witness :
  exn_cls (Exn DecisionRejected "timer wake condition must be in the future") = DecisionRejected.
Proof.
  apply (validate_decision_fails_closed ex_decision ex_policy
    (mkExpectation (utc (days 2)) (Some [uuid 1]) None None None [] None true)); vm_compute; reflexivity.
Defined.

Lemma validated_decision_passes_persistence_witness :
  require_memory_content (Some "met the customer"%string) ["call back"%string]
    DEFAULT_PLATFORM_SAFETY_LIMITS = Ok tt.
Proof.
  apply (proj1 (validated_decision_passes_persistence ex_decision ex_policy ex_turn ex_decision
    "action parameters" ltac:(vm_compute; reflexivity) ltac:(vm_compute; reflexivity))).
Defined.

Lemma action_payload_identity_order_witness :
  action_payload_identity "send_message" [("body", JStr "hello"); ("to", JStr "ana")]
  = action_payload_identity "send_message" [("to", JStr "ana"); ("body", JStr "hello")].
Proof.
  apply (action_payload_identity_order "send_message"); [vm_compute; reflexivity|].
  apply Permutation_swap.
Defined.
