(* ===== verification/Transitions.v ===== *)
(** * [core/transitions.py]: projecting a validated decision

    Facts enter the projection only through [apply_fact_observations]; the
    process status and its wake conditions only through
    [project_process_transition]. *)

From stdpp Require Import base gmap list strings.
From Stdlib Require Import ZArith Lia.
From S2P Require Import Prelude Python PyTime Json Limits Contracts DecisionPolicy.

#[local] Open Scope string_scope.

(** ** Facts *)

(** The three dictionaries of the projection.  Provenance values are dictionaries
    themselves. *)
Record FactProjection := mkProjection {
  fp_authoritative : gmap string json;
  fp_claims : gmap string json;
  fp_provenance : gmap string json
}.

Definition provenance_key (f : FactObservation) : string :=
  fact_kind_value (fact_kind f) +:+ ":" +:+ fact_key f.

Definition provenance_entry (source_type : string) (source_id : UUID) (f : FactObservation) : json :=
  JObj [("kind", JStr (fact_kind_value (fact_kind f))); ("source_type", JStr source_type);
        ("source_id", JStr (str_uuid source_id))].

Definition apply_fact_observation (source_type : string) (source_id : UUID)
    (p : FactProjection) (f : FactObservation) : FactProjection :=
  let provenance := <[provenance_key f := provenance_entry source_type source_id f]> (fp_provenance p) in
  match fact_kind f with
  | AUTHORITATIVE =>
      mkProjection (<[fact_key f := fact_value f]> (fp_authoritative p)) (fp_claims p) provenance
  | CUSTOMER_CLAIM =>
      mkProjection (fp_authoritative p) (<[fact_key f := fact_value f]> (fp_claims p)) provenance
  end.

Definition apply_fact_observations (observations : list FactObservation) (source_type : string)
    (source_id : UUID) (p : FactProjection) : FactProjection :=
  fold_left (apply_fact_observation source_type source_id) observations p.

(** The items of a fact dictionary; key order does not matter to its readers. *)
Definition fact_items (m : gmap string json) : list (string * json) := map_to_list m.

(** ** Status and wake conditions *)

Record ProjectedProcessTransition := mkTransition {
  ppt_status : ProcessStatus;
  ppt_wake_conditions : list WakeCondition
}.

Abbreviation OpenActions := (list (UUID * ActionRequestStatus)).

Definition needs_review (s : ActionRequestStatus) : bool :=
  match s with PENDING_APPROVAL | UNKNOWN | RECONCILING => true | _ => false end.

Definition _next_status (d : AgentDecision) (open_actions : OpenActions)
    (terminal_states : option (list ProcessStatus))
    (authoritative_facts completion_requirements : list (string * json)) : result ProcessStatus :=
  let open_statuses := snd <$> open_actions in
  if bool_decide (ad_status d = DS_COMPLETED) && nonempty open_actions then
    raise ProcessTransitionRejected "completed decision has unresolved actions"
  else if existsb needs_review open_statuses then Ok PS_REVIEW
  else if nonempty open_statuses then Ok PS_ACTIVE
  else if bool_decide (ad_status d = DS_COMPLETED) then
    let missing := unsatisfied completion_requirements authoritative_facts in
    _ ← raise_if (nonempty missing) ProcessTransitionRejected
          ("completion requirements are not satisfied: " +:+ join_with ", " missing);
    _ ← raise_if (match terminal_states with
                  | Some ts => negb (bool_decide (PS_COMPLETED ∈ ts))
                  | None => false
                  end) ProcessTransitionRejected "completed is not a configured terminal state";
    Ok PS_COMPLETED
  else if bool_decide (ad_status d = DS_ESCALATED) || existsb is_human_wake (ad_wake_conditions d)
  then Ok PS_REVIEW
  else if bool_decide (ad_status d = DS_WAITING) then Ok PS_WAITING
  else Ok PS_ACTIVE.

Definition _effective_wake_conditions (d : AgentDecision) (status : ProcessStatus)
    (open_actions : OpenActions) : list WakeCondition :=
  let open_statuses := snd <$> open_actions in
  if bool_decide (PENDING_APPROVAL ∈ open_statuses) then [HumanWakeCondition APPROVAL]
  else if bool_decide (UNKNOWN ∈ open_statuses) || bool_decide (RECONCILING ∈ open_statuses)
  then [HumanWakeCondition OPERATOR]
  else if nonempty open_actions then []
  else if is_terminal status then []
  else if bool_decide (status = PS_REVIEW) && negb (nonempty (ad_wake_conditions d))
  then [HumanWakeCondition OPERATOR]
  else ad_wake_conditions d.

Definition project_process_transition (d : AgentDecision) (open_actions : OpenActions)
    (terminal_states : option (list ProcessStatus))
    (authoritative_facts completion_requirements : list (string * json))
  : result ProjectedProcessTransition :=
  status ← _next_status d open_actions terminal_states authoritative_facts completion_requirements;
  Ok (mkTransition status (_effective_wake_conditions d status open_actions)).

(** ** Facts about the projection *)

Lemma fact_key_lookup_other f p st sid k :
  k ≠ fact_key f →
  fp_authoritative (apply_fact_observation st sid p f) !! k = fp_authoritative p !! k
  ∧ fp_claims (apply_fact_observation st sid p f) !! k = fp_claims p !! k.
Proof.
  intros Hk. unfold apply_fact_observation.
  destruct (fact_kind f); cbn; rewrite ?lookup_insert_ne by done; done.
Qed.

(** The last observation of a key among those of a kind. *)
Fixpoint last_observed (k : FactKind) (key : string) (fs : list FactObservation) : option json :=
  match fs with
  | [] => None
  | f :: fs =>
      match last_observed k key fs with
      | Some v => Some v
      | None => if bool_decide (fact_kind f = k) && bool_decide (fact_key f = key)
                then Some (fact_value f) else None
      end
  end.

Definition facts_of (k : FactKind) (p : FactProjection) : gmap string json :=
  match k with AUTHORITATIVE => fp_authoritative p | CUSTOMER_CLAIM => fp_claims p end.

Lemma apply_fact_observation_lookup st sid p f k key :
  facts_of k (apply_fact_observation st sid p f) !! key
  = (if bool_decide (fact_kind f = k) && bool_decide (fact_key f = key)
     then Some (fact_value f) else facts_of k p !! key).
Proof.
  unfold apply_fact_observation. destruct (fact_kind f), k; cbn.
  all: rewrite ?(bool_decide_true (AUTHORITATIVE = _)), ?(bool_decide_true (CUSTOMER_CLAIM = _)),
    ?(bool_decide_false (AUTHORITATIVE = _)), ?(bool_decide_false (CUSTOMER_CLAIM = _)) by done.
  all: cbn; rewrite ?lookup_insert; try done.
  all: case_decide; case_bool_decide; done.
Qed.

(** Last write wins, per kind; keys that are not observed keep their value. *)
Lemma apply_fact_observations_lookup fs st sid p k key :
  facts_of k (apply_fact_observations fs st sid p) !! key
  = match last_observed k key fs with Some v => Some v | None => facts_of k p !! key end.
Proof.
  revert p. induction fs as [|f fs IH]; intros p; [done|]. cbn.
  change (fold_left _ fs ?q) with (apply_fact_observations fs st sid q).
  rewrite IH. destruct (last_observed k key fs); [done|].
  rewrite apply_fact_observation_lookup.
  by destruct (bool_decide (fact_kind f = k) && bool_decide (fact_key f = key)).
Qed.

(** Which transitions are accepted, and what they project, case by case. *)
Lemma project_ok d open ts facts reqs tr :
  project_process_transition d open ts facts reqs = Ok tr ↔
  ∃ st, _next_status d open ts facts reqs = Ok st ∧
    tr = mkTransition st (_effective_wake_conditions d st open).
Proof. unfold project_process_transition. rewrite bind_ok. naive_solver. Qed.

Lemma nonempty_fmap {A B} (f : A → B) xs : nonempty (f <$> xs) = nonempty xs.
Proof. by destruct xs. Qed.

Lemma completed_projection_ok d open ts facts reqs wakes :
  project_process_transition d open ts facts reqs = Ok (mkTransition PS_COMPLETED wakes) ↔
  ad_status d = DS_COMPLETED ∧ open = [] ∧ Forall (requirement_met facts) reqs ∧
  match ts with Some l => PS_COMPLETED ∈ l | None => True end ∧ wakes = [].
Proof.
  rewrite project_ok. unfold _next_status. rewrite nonempty_fmap. split.
  - intros (st & H & [= <- ->]). destruct open as [|o open]; cbn [nonempty] in *.
    + rewrite andb_false_r in H. cbn in H. case_bool_decide as Hc; cbn in H.
      * rewrite !seq_ok, !succeeds_raise_if in H. destruct H as (Hm & Ht & _).
        split_and!; auto.
        -- apply unsatisfied_nil. destruct (unsatisfied reqs facts); [done|discriminate Hm].
        -- destruct ts; [|done]. apply negb_false_iff, bool_decide_eq_true in Ht. done.
      * repeat case_if; discriminate H.
    + repeat case_if; discriminate H.
  - intros (-> & -> & Hreqs & Hts & ->). exists PS_COMPLETED. cbn. split; [|done].
    rewrite (proj2 (unsatisfied_nil reqs facts) Hreqs). cbn.
    destruct ts as [l|]; cbn; [|done]. by rewrite (bool_decide_true (PS_COMPLETED ∈ l)).
Qed.

(** ** Properties *)

(** A process becomes completed exactly when the decision says so, no action
    is open, every completion requirement equals its authoritative fact, and
    the definition lists completed among its terminal states; it then has no
    wake condition. *)
Theorem completed_projection_spec d open ts facts reqs wakes :
  project_process_transition d open ts facts reqs = Ok (mkTransition PS_COMPLETED wakes) ↔
  ad_status d = DS_COMPLETED ∧ open = [] ∧ Forall (requirement_met facts) reqs ∧
  match ts with Some l => PS_COMPLETED ∈ l | None => True end ∧ wakes = [].
Proof. apply completed_projection_ok. Qed.

(** A pending approval owns the next wake: whatever a non-completed decision
    asks for, the process goes to review and only the approval wakes it. *)
Theorem pending_approval_owns_wake d open ts facts reqs :
  ad_status d ≠ DS_COMPLETED → PENDING_APPROVAL ∈ snd <$> open →
  project_process_transition d open ts facts reqs
  = Ok (mkTransition PS_REVIEW [HumanWakeCondition APPROVAL]).
Proof.
  intros Hd Hp. unfold project_process_transition, _next_status, _effective_wake_conditions.
  rewrite (bool_decide_false (ad_status d = _)) by done. cbn [andb].
  rewrite (proj2 (existsb_Exists needs_review (snd <$> open)))
    by (apply Exists_exists; by exists PENDING_APPROVAL).
  cbn. by rewrite bool_decide_true.
Qed.

(** An accepted transition of a valid, admissible decision leaves something
    that moves the process on: it is completed, or an action is open, or a wake
    condition is set, unless the decision was active, relied on its actions
    alone and none of them is open. *)
Theorem transition_leaves_wake d p t open ts facts reqs tr :
  decision_validate d = Ok tt → Admissible d p t →
  project_process_transition d open ts facts reqs = Ok tr →
  ppt_status tr = PS_COMPLETED ∨ open ≠ [] ∨ ppt_wake_conditions tr ≠ [] ∨
  (ad_status d = DS_ACTIVE ∧ ad_actions d ≠ [] ∧ ad_wake_conditions d = []).
Proof.
  intros Hv Hadm (st & Hst & ->)%project_ok. cbn.
  destruct open as [|o open]; [|by right; left].
  unfold _next_status in Hst. unfold _effective_wake_conditions. cbn in *.
  rewrite andb_false_r in Hst. cbn in Hst.
  apply raise_if_ok in Hv. rewrite andb_false_iff, bool_decide_eq_false, negb_false_iff in Hv.
  case_bool_decide as Hc; cbn in Hst.
  { left. rewrite !seq_ok in Hst. naive_solver. }
  destruct (ad_wake_conditions d) as [|w ws] eqn:Hw; cbn in *.
  - destruct (ad_status d) eqn:Hs; cbn in Hst; try done.
    + destruct (adm_active _ _ _ Hadm Hs) as [Ha|Ha]; [|done]. auto 10.
    + by destruct Hv.
    + vm_compute in Hst. injection Hst as <-. right. right. left. done.
  - right. right. left.
    assert (is_terminal st = false) as Ht by (repeat case_if; by injection Hst as <-).
    rewrite Ht. cbn. by rewrite andb_false_r.
Qed.

(** What validation promises, projection delivers: a completed decision that
    [validate_decision] accepted against the current facts completes the
    process when no action is open. *)
Theorem validated_completion_completes d p t facts d' :
  validate_decision d p t = Ok d' → ad_status d = DS_COMPLETED →
  te_enforce_completion_requirements t = true → te_current_authoritative_facts t = Some facts →
  project_process_transition d' [] (Some [PS_COMPLETED; PS_CANCELLED; PS_FAILED]) facts
    (dp_completion_requirements p) = Ok (mkTransition PS_COMPLETED []).
Proof.
  intros [-> Hadm]%validate_decision_ok Hc He Hf.
  apply completed_projection_ok. split_and!; [done|done| |set_solver|done].
  destruct (dp_completion_requirements p) as [|r rs] eqn:E; [constructor|].
  destruct (adm_requirements _ _ _ Hadm He Hc) as (facts' & Hf' & H); [by rewrite E|].
  rewrite E in H. congruence.
Qed.


(** An active decision that set no wake condition, once none of its actions
    is open (its only action was denied by policy, for instance), leaves the
    process active with nothing that can wake it. *)
Theorem active_without_open_action_stalls d ts facts reqs :
  ad_status d = DS_ACTIVE → ad_wake_conditions d = [] →
  project_process_transition d [] ts facts reqs = Ok (mkTransition PS_ACTIVE []).
Proof.
  intros Hs Hw. unfold project_process_transition, _next_status, _effective_wake_conditions.
  by rewrite Hs, Hw.
Qed.

(** ** Examples *)

Definition ex_completed : AgentDecision :=
  mkDecision (uuid 6) [uuid 1] [] [] [] DS_COMPLETED [] [] empty_memory.
Definition ex_facts : list (string * json) := [("booking.status", JStr "confirmed")].
Definition ex_completed_turn : TurnExpectation :=
  mkExpectation (utc (days 1)) (Some [uuid 1]) None None None [] (Some ex_facts) true.
Definition ex_denied : AgentDecision :=
  mkDecision (uuid 8) [uuid 1] [] [] [] DS_ACTIVE [ex_action] [] empty_memory.

Lemma pending_approval_owns_wake_witness :
  project_process_transition ex_decision [(uuid 7, PENDING_APPROVAL)] None ex_facts []
  = Ok (mkTransition PS_REVIEW [HumanWakeCondition APPROVAL]).
Proof. apply pending_approval_owns_wake; [discriminate|left]. Defined.

Lemma transition_leaves_wake_witness :
  ppt_status (mkTransition PS_WAITING (ad_wake_conditions ex_decision)) = PS_COMPLETED
  ∨ [] ≠ ([] : OpenActions) ∨ ad_wake_conditions ex_decision ≠ []
  ∨ (ad_status ex_decision = DS_ACTIVE ∧ ad_actions ex_decision ≠ [] ∧ ad_wake_conditions ex_decision = []).
Proof.
  apply (transition_leaves_wake ex_decision ex_policy ex_turn [] None ex_facts []
    (mkTransition PS_WAITING (ad_wake_conditions ex_decision))); [reflexivity| |reflexivity].
  apply (proj2 (proj1 (validate_decision_ok ex_decision ex_policy ex_turn ex_decision)
    ltac:(vm_compute; reflexivity))).
Defined.

Lemma validated_completion_completes_witness :
  project_process_transition ex_completed [] (Some [PS_COMPLETED; PS_CANCELLED; PS_FAILED]) ex_facts
    [("booking.status", JStr "confirmed")] = Ok (mkTransition PS_COMPLETED []).
Proof.
  apply (validated_completion_completes ex_completed ex_policy ex_completed_turn ex_facts ex_completed);
    vm_compute; reflexivity.
Defined.


Lemma active_without_open_action_stalls_witness :
  is_ok (validate_decision ex_denied ex_policy ex_turn) = true ∧
  initial_action_request_status (apd_outcome (evaluate (mkActionPolicy [] "v1") ex_action)) = DENIED ∧
  project_process_transition ex_denied [] None ex_facts [] = Ok (mkTransition PS_ACTIVE []).
Proof.
  split; [vm_compute; reflexivity|]. split; [reflexivity|].
  apply active_without_open_action_stalls; reflexivity.
Defined.
