(* ===== verification/Mailbox.v ===== *)
(** * [temporal/workflows/mailbox.py]: the state of the process mailbox

    The data classes, the attributes of [ProcessMailboxWorkflow], its signal
    handlers and the pure helpers of the class.  The asynchronous part is in
    [MailboxRun]; Continue-As-New is in [Continuation].

    A [..._json] field holds a document that the workflow passes on or loads
    again; it is represented by that document. *)

From stdpp Require Import base gmap sets list strings.
From Stdlib Require Import ZArith Lia.
From S2P Require Import Prelude Python PyTime Json Contracts.

#[local] Open Scope string_scope.

(** ** Messages *)

Record MailboxEvent := mkMailboxEvent { me_event_id : string; me_event_type : string }.

Record MailboxReview := mkMailboxReview {
  mr_command_id : string;
  mr_command_type : string;
  mr_review_thread_id : string;
  mr_action_request_id : string;
  mr_proposal_revision : Z
}.

Record MailboxActionResolution := mkMailboxResolution {
  mx_command_id : string;
  mx_action_request_id : string;
  mx_action_attempt_id : string;
  mx_status : string
}.

(** The inputs of one turn: the four keyword arguments that travel together. *)
Record TurnSources := mkSources {
  src_event_ids : list string;
  src_review_command_ids : list string;
  src_action_attempt_ids : list string;
  src_timer_ids : list string
}.

Record MailboxControl := mkMailboxControl {
  mc_command_id : string;
  mc_command_type : string;
  mc_sources : TurnSources
}.

Record WakePlan := mkWakePlan {
  wp_event_types : list string;
  wp_timer_id : option string;
  wp_timer_at : option datetime;
  wp_human_interactions : list string
}.

(** [WakePlan(human_interactions=(i,))] *)
Definition human_wake_plan (interaction : string) : WakePlan :=
  mkWakePlan [] None None [interaction].

Record WakeRecord := mkWakeRecord {
  wr_reason : string;
  wr_event_id : option string;
  wr_event_type : option string;
  wr_timer_id : option string;
  wr_woke_at : datetime;
  wr_review_command_id : option string;
  wr_review_command_type : option string
}.

Record TurnRecord := mkTurnRecord {
  tr_turn_id : string;
  tr_sources : TurnSources;
  tr_decision_json : option json;
  tr_actions_json : option json;
  tr_execution_results_json : option json;
  tr_error : option string
}.

Record ExecutionRecord := mkExecutionRecord {
  er_action_request_id : string;
  er_revision : Z;
  er_result_json : option json;
  er_error : option string
}.

#[export] Instance MailboxEvent_eq_dec : EqDecision MailboxEvent.
Proof. solve_decision. Defined.
#[export] Instance MailboxReview_eq_dec : EqDecision MailboxReview.
Proof. solve_decision. Defined.
#[export] Instance WakePlan_eq_dec : EqDecision WakePlan.
Proof. solve_decision. Defined.
#[export] Instance TurnSources_eq_dec : EqDecision TurnSources.
Proof. solve_decision. Defined.

(** ** The attributes of the workflow object *)

Record Mailbox := mkMailbox {
  _tenant_id : string;
  _process_instance_id : string;
  _buffered_events : list MailboxEvent;
  _seen_event_ids : gset string;
  _buffered_reviews : list MailboxReview;
  _seen_review_command_ids : gset string;
  _buffered_action_resolutions : list MailboxActionResolution;
  _seen_action_resolution_ids : gset string;
  _buffered_controls : list MailboxControl;
  _seen_control_command_ids : gset string;
  _wake_records : list WakeRecord;
  _turn_records : list TurnRecord;
  _execution_records : list ExecutionRecord;
  _pending_action_request_ids : list string;
  _turn_in_progress : bool;
  _process_definition_id : option string;
  _process_definition_version : option string;
  _wake_plan : option WakePlan;
  _timer_due_at : option datetime;
  _plan_revision : Z;
  _closed : bool;
  _started : bool;
  _continue_as_new_after_turns : Z;
  _turns_since_continue : Z;
  _completed_turn_count : Z;
  _continued_run_count : Z
}.

#[export] Instance Mailbox_rebuild : Rebuild Mailbox := λ s,
  mkMailbox (_tenant_id s) (_process_instance_id s) (_buffered_events s) (_seen_event_ids s)
    (_buffered_reviews s) (_seen_review_command_ids s) (_buffered_action_resolutions s)
    (_seen_action_resolution_ids s) (_buffered_controls s) (_seen_control_command_ids s)
    (_wake_records s) (_turn_records s) (_execution_records s) (_pending_action_request_ids s)
    (_turn_in_progress s) (_process_definition_id s) (_process_definition_version s) (_wake_plan s)
    (_timer_due_at s) (_plan_revision s) (_closed s) (_started s) (_continue_as_new_after_turns s)
    (_turns_since_continue s) (_completed_turn_count s) (_continued_run_count s).

(** [ProcessMailboxWorkflow.__init__] *)
Definition mailbox_init : Mailbox :=
  mkMailbox "" "" [] ∅ [] ∅ [] ∅ [] ∅ [] [] [] [] false None None None None 0%Z false false
    100%Z 0%Z 0%Z 0%Z.

(** ** Signals *)

Definition receive_event (event : MailboxEvent) (s : Mailbox) : Mailbox :=
  if bool_decide (me_event_id event ∈ _seen_event_ids s) then s
  else s <| _seen_event_ids ::= union {[me_event_id event]} |>
         <| _buffered_events ::= λ l, (l ++ [event])%list |>.

Definition receive_review (review : MailboxReview) (s : Mailbox) : Mailbox :=
  if bool_decide (mr_command_id review ∈ _seen_review_command_ids s) then s
  else s <| _seen_review_command_ids ::= union {[mr_command_id review]} |>
         <| _buffered_reviews ::= λ l, (l ++ [review])%list |>.

Definition receive_action_resolution (resolution : MailboxActionResolution) (s : Mailbox) : Mailbox :=
  if bool_decide (mx_command_id resolution ∈ _seen_action_resolution_ids s) then s
  else s <| _seen_action_resolution_ids ::= union {[mx_command_id resolution]} |>
         <| _buffered_action_resolutions ::= λ l, (l ++ [resolution])%list |>.

Definition receive_control (control : MailboxControl) (s : Mailbox) : Mailbox :=
  if bool_decide (mc_command_id control ∈ _seen_control_command_ids s) then s
  else s <| _seen_control_command_ids ::= union {[mc_command_id control]} |>
         <| _buffered_controls ::= λ l, (l ++ [control])%list |>.

(** [self._wake_plan = plan; self._timer_due_at = ...; self._plan_revision += 1] *)
Definition install_wake_plan (plan : WakePlan) (s : Mailbox) : Mailbox :=
  s <| _wake_plan := Some plan |> <| _timer_due_at := wp_timer_at plan |>
    <| _plan_revision ::= Z.succ |>.

Definition replace_wake_plan (plan : WakePlan) (s : Mailbox) : Mailbox := install_wake_plan plan s.

Definition close (s : Mailbox) : Mailbox := s <| _closed := true |>.

Inductive Signal :=
  | SigEvent (e : MailboxEvent)
  | SigReview (r : MailboxReview)
  | SigResolution (r : MailboxActionResolution)
  | SigControl (c : MailboxControl)
  | SigWakePlan (p : WakePlan)
  | SigClose.

Definition handle_signal (sig : Signal) : Mailbox → Mailbox :=
  match sig with
  | SigEvent e => receive_event e
  | SigReview r => receive_review r
  | SigResolution r => receive_action_resolution r
  | SigControl c => receive_control c
  | SigWakePlan p => replace_wake_plan p
  | SigClose => close
  end.

Definition handle_signals (sigs : list Signal) (s : Mailbox) : Mailbox :=
  fold_left (λ s sig, handle_signal sig s) sigs s.

(** ** Helpers of the class *)

Definition _clear_wake_plan (s : Mailbox) : Mailbox :=
  s <| _wake_plan := None |> <| _timer_due_at := None |> <| _plan_revision ::= Z.succ |>.

Definition _lifecycle_preemption_pending (s : Mailbox) : bool :=
  _closed s || existsb (λ c, bool_decide (mc_command_type c = "takeover")) (_buffered_controls s).

Definition is_manual_wake (e : MailboxEvent) : bool :=
  bool_decide (me_event_type e = OPERATOR_MANUAL_WAKE_EVENT_TYPE).

Definition _initial_event_index (s : Mailbox) : option nat :=
  find_index (λ e, negb (is_manual_wake e)) (_buffered_events s).

Definition _manual_wake_event_index (s : Mailbox) : option nat :=
  find_index is_manual_wake (_buffered_events s).

Definition plan_matches (p : WakePlan) (e : MailboxEvent) : bool :=
  bool_decide (me_event_type e ∈ wp_event_types p).

Definition _matching_event_index (s : Mailbox) : option nat :=
  match _wake_plan s with
  | None => None
  | Some p => find_index (plan_matches p) (_buffered_events s)
  end.

(** [max(due - now, timedelta(0))]; [now] is the workflow clock. *)
Definition _timer_timeout (now : Z) (s : Mailbox) : option Z :=
  match _timer_due_at s with
  | None => None
  | Some due => Some (Z.max (instant due - now) 0)
  end.

Definition _add_pending_action (action_request_id : string) (s : Mailbox) : Mailbox :=
  if bool_decide (action_request_id ∈ _pending_action_request_ids s) then s
  else s <| _pending_action_request_ids ::= λ l, (l ++ [action_request_id])%list |>.

Definition _remove_pending_action (action_request_id : string) (s : Mailbox) : Mailbox :=
  s <| _pending_action_request_ids ::= remove_first action_request_id |>.

Definition _LIFECYCLE_PREEMPTION_ERROR : string := "turn superseded by operator lifecycle control".

Definition append_turn_record (r : TurnRecord) (s : Mailbox) : Mailbox :=
  s <| _turn_records ::= λ l, (l ++ [r])%list |>.

Definition append_wake_record (r : WakeRecord) (s : Mailbox) : Mailbox :=
  s <| _wake_records ::= λ l, (l ++ [r])%list |>.

Definition append_execution_record (r : ExecutionRecord) (s : Mailbox) : Mailbox :=
  s <| _execution_records ::= λ l, (l ++ [r])%list |>.

Definition _record_preempted_turn (turn_id : string) (sources : TurnSources)
    (decision_json actions_json execution_results : option json) (s : Mailbox) : Mailbox :=
  append_turn_record (mkTurnRecord turn_id sources decision_json actions_json execution_results
    (Some _LIFECYCLE_PREEMPTION_ERROR)) s.

(** ** The query *)

Record MailboxState := mkMailboxState {
  ms_tenant_id : string;
  ms_process_instance_id : string;
  ms_buffered_events : list MailboxEvent;
  ms_buffered_reviews : list MailboxReview;
  ms_buffered_action_resolutions : list MailboxActionResolution;
  ms_buffered_controls : list MailboxControl;
  ms_wake_records : list WakeRecord;
  ms_turn_records : list TurnRecord;
  ms_execution_records : list ExecutionRecord;
  ms_pending_action_request_ids : list string;
  ms_turn_in_progress : bool;
  ms_wake_plan : option WakePlan;
  ms_closed : bool;
  ms_completed_turn_count : Z;
  ms_continued_run_count : Z
}.

#[export] Instance MailboxState_rebuild : Rebuild MailboxState := λ s,
  mkMailboxState (ms_tenant_id s) (ms_process_instance_id s) (ms_buffered_events s)
    (ms_buffered_reviews s) (ms_buffered_action_resolutions s) (ms_buffered_controls s)
    (ms_wake_records s) (ms_turn_records s) (ms_execution_records s) (ms_pending_action_request_ids s)
    (ms_turn_in_progress s) (ms_wake_plan s) (ms_closed s) (ms_completed_turn_count s)
    (ms_continued_run_count s).

Definition state (s : Mailbox) : MailboxState :=
  mkMailboxState (_tenant_id s) (_process_instance_id s) (_buffered_events s) (_buffered_reviews s)
    (_buffered_action_resolutions s) (_buffered_controls s) (_wake_records s) (_turn_records s)
    (_execution_records s) (_pending_action_request_ids s) (_turn_in_progress s) (_wake_plan s)
    (_closed s) (_completed_turn_count s) (_continued_run_count s).

(** ** Continue-As-New documents *)

Record MailboxContinuation := mkContinuation {
  mk_schema_version : Z;
  mk_started : bool;
  mk_buffered_events : list json;
  mk_seen_event_ids : list string;
  mk_buffered_reviews : list json;
  mk_seen_review_command_ids : list string;
  mk_buffered_action_resolutions : list json;
  mk_seen_action_resolution_ids : list string;
  mk_buffered_controls : list json;
  mk_seen_control_command_ids : list string;
  mk_recent_wake_records : list json;
  mk_recent_turn_records : list json;
  mk_recent_execution_records : list json;
  mk_pending_action_request_ids : list string;
  mk_wake_plan : option json;
  mk_completed_turn_count : Z;
  mk_continued_run_count : Z
}.

(** The defaults of the data class: the first run of a process. *)
Definition first_run : MailboxContinuation :=
  mkContinuation 1%Z false [] [] [] [] [] [] [] [] [] [] [] [] None 0%Z 0%Z.

Record MailboxInput := mkMailboxInput {
  mi_tenant_id : string;
  mi_process_instance_id : string;
  mi_process_definition_id : option string;
  mi_process_definition_version : option string;
  mi_continue_as_new_after_turns : Z;
  mi_continuation : MailboxContinuation
}.

Example receive_twice :
  _buffered_events (handle_signals
    [SigEvent (mkMailboxEvent "e1" "a.b"); SigEvent (mkMailboxEvent "e1" "a.b");
     SigEvent (mkMailboxEvent "e2" "a.b")] mailbox_init)
  = [mkMailboxEvent "e1" "a.b"; mkMailboxEvent "e2" "a.b"].
Proof. vm_compute. reflexivity. Qed.
