(* ===== verification/Workflow.v ===== *)
(** * The workflow runtime that the mailbox runs on

    A workflow coroutine runs until it awaits; the runtime resumes it with an
    activation, which first delivers signals and then, possibly, the completion
    of the awaited activity or the firing of the timer.  A computation is a
    function of the world: the workflow's state, the clock and the remaining
    activations.  Every activity call is logged with the state it was made in. *)

From stdpp Require Import base gmap sets list strings.
From Stdlib Require Import ZArith Lia.
From S2P Require Import Prelude Python PyTime Json Mailbox.

(** ** Exceptions *)

(** An exception below an [ActivityError] on its chain of causes. *)
Inductive Cause :=
  | ApplicationCause (type_ : option string) (class_name : string)
  | OtherCause.

Record ActivityError := mkActivityError { ae_text : string; ae_causes : list Cause }.

Definition _is_activity_error_type (error : ActivityError) (expected_type : string) : bool :=
  existsb (λ c, match c with
                | ApplicationCause (Some t) _ => bool_decide (t = expected_type)
                | _ => false
                end) (ae_causes error).

Fixpoint causes_type (causes : list Cause) : option string :=
  match causes with
  | [] => None
  | ApplicationCause t class_name :: _ =>
      Some (match t with
            | Some s => if is_empty s then class_name else s
            | None => class_name
            end)
  | OtherCause :: causes => causes_type causes
  end.

Definition _activity_error_type (error : ActivityError) : string :=
  default "ActivityError"%string (causes_type (ae_causes error)).

(** ** Activities *)

Record TurnCall := mkTurnCall {
  tc_tenant_id : string;
  tc_process_instance_id : string;
  tc_process_definition_id : string;
  tc_process_definition_version : string;
  tc_turn_id : string;
  tc_workflow_now : Z;
  tc_sources : TurnSources
}.

Record ActionCall := mkActionCall {
  ac_tenant_id : string;
  ac_process_instance_id : string;
  ac_action_request_id : string;
  ac_revision : Z
}.

Record InterventionCall := mkInterventionCall {
  ic_intervention_id : string;
  ic_tenant_id : string;
  ic_process_instance_id : string;
  ic_agent_turn_id : string;
  ic_kind : string;
  ic_error_type : string;
  ic_error : string;
  ic_sources : TurnSources
}.

Inductive Activity :=
  | run_agent_turn (c : TurnCall)
  | persist_agent_actions (c : TurnCall) (decision_json : json)
  | persist_process_state (c : TurnCall) (decision_json : json)
  | execute_action (c : ActionCall)
  | reconcile_action (c : ActionCall)
  | record_process_intervention (c : InterventionCall).

(** [RetryPolicy(maximum_attempts=...)]: how often the runtime may start one call. *)
Definition maximum_attempts (a : Activity) : nat :=
  match a with
  | run_agent_turn _ => 3
  | persist_agent_actions _ _ | persist_process_state _ _ => 5
  | execute_action _ => 1
  | reconcile_action _ => 3
  | record_process_intervention _ => 5
  end.

(** What an activity call gives: the document the workflow reads from its result
    ([decision_json], [actions_json], [result_json] or the result itself). *)
Inductive Reply :=
  | Completed (document : json)
  | Failed (e : ActivityError).

Inductive Resolution :=
  | ActivityResolved (r : Reply)
  | TimerFired.

Record Activation := mkActivation {
  av_signals : list Signal;
  av_now : Z;
  av_continue_as_new_suggested : bool;
  av_resolution : option Resolution
}.

(** ** Outcomes *)

(** What a coroutine is suspended on. *)
Inductive Await := OnActivity (a : Activity) | OnSleep | OnWake.

(** Exceptions.  [PythonError] is one that fails the workflow task, such as the
    [KeyError] of a malformed document. *)
Inductive wexn :=
  | ActivityFailed (e : ActivityError)
  | ApplicationError (type_ message : string)
  | PythonError
  | ContinueAsNew (input : MailboxInput).

(** [Blocked]: the script of activations ended before the coroutine did. *)
Inductive outcome (A : Type) :=
  | Done (a : A)
  | Throw (e : wexn)
  | Blocked (on : Await)
  | OutOfFuel.
Arguments Done {A} a.
Arguments Throw {A} e.
Arguments Blocked {A} on.
Arguments OutOfFuel {A}.

(** ** The monad *)

(** [S] is the world, or the world with the local variables of a coroutine. *)
Definition M (S A : Type) : Type := S → outcome A * S.

#[export] Instance M_ret {S} : MRet (M S) := λ A a s, (Done a, s).
#[export] Instance M_bind {S} : MBind (M S) := λ A B k m s,
  match m s with
  | (Done a, s') => k a s'
  | (Throw e, s') => (Throw e, s')
  | (Blocked on, s') => (Blocked on, s')
  | (OutOfFuel, s') => (OutOfFuel, s')
  end.

Definition throw {S A} (e : wexn) : M S A := λ s, (Throw e, s).
Definition out_of_fuel {S A} : M S A := λ s, (OutOfFuel, s).
Definition get {S} : M S S := λ s, (Done s, s).
Definition modify {S} (f : S → S) : M S unit := λ s, (Done tt, f s).

(** [None] stands for the exception that reading a document raises. *)
Definition read {S A} (o : option A) : M S A :=
  match o with Some a => mret a | None => throw PythonError end.

(** [try: m except ActivityError as error: handler] *)
Definition try_activity {S A} (m : M S A) (handler : ActivityError → M S A) : M S A := λ s,
  match m s with
  | (Throw (ActivityFailed e), s') => handler e s'
  | r => r
  end.

(** [try: m finally: f], where the final statements only assign attributes.  A
    coroutine that is still suspended has not reached them. *)
Definition finally {S A} (m : M S A) (f : S → S) : M S A := λ s,
  match m s with
  | (Done a, s') => (Done a, f s')
  | (Throw e, s') => (Throw e, f s')
  | r => r
  end.

(** A coroutine body with local variables [L]. *)
Definition with_locals {S L A} (l : L) (m : M (S * L) A) : M S A := λ s,
  let '(r, (s', _)) := m (s, l) in (r, s').
Definition lift {S L A} (m : M S A) : M (S * L) A := λ sl,
  let '(r, s') := m (fst sl) in (r, (s', snd sl)).
Definition local {S L} : M (S * L) L := λ sl, (Done (snd sl), sl).
Definition set_local {S L} (f : L → L) : M (S * L) unit := λ sl, (Done tt, (fst sl, f (snd sl))).

(** [while True: body], left with a value by [break] or [return]. *)
Fixpoint loop {S A} (fuel : nat) (body : M S (option A)) : M S A :=
  match fuel with
  | O => out_of_fuel
  | Datatypes.S fuel =>
      r ← body;
      match r with Some a => mret a | None => loop fuel body end
  end.

(** ** The world and its effects *)

Record World := mkWorld {
  w_state : Mailbox;
  w_now : Z;
  w_suggested : bool;
  w_uuid4 : nat → string;
  w_drawn : nat;
  w_script : list Activation;
  w_log : list (Activity * Mailbox)
}.
#[export] Instance World_rebuild : Rebuild World := λ w,
  mkWorld (w_state w) (w_now w) (w_suggested w) (w_uuid4 w) (w_drawn w) (w_script w) (w_log w).

Abbreviation WF := (M World).

Definition self : WF Mailbox := λ w, (Done (w_state w), w).
Definition update (f : Mailbox → Mailbox) : WF unit := modify (λ w, w <| w_state ::= f |>).
Definition now : WF Z := λ w, (Done (w_now w), w).
Definition is_continue_as_new_suggested : WF bool := λ w, (Done (w_suggested w), w).
Definition uuid4 : WF string := λ w, (Done (w_uuid4 w (w_drawn w)), w <| w_drawn ::= S |>).
Definition log_call (a : Activity) : WF unit :=
  modify (λ w, w <| w_log ::= λ l, l ++ [(a, w_state w)] |>).

Definition activate (v : Activation) (w : World) : World :=
  w <| w_state ::= handle_signals (av_signals v) |> <| w_now := av_now v |>
    <| w_suggested := av_continue_as_new_suggested v |>.

(** Suspend until an activation makes [resume] answer. *)
Fixpoint await_script {A} (on : Await) (resume : option Resolution → Mailbox → option A)
    (script : list Activation) (w : World) : outcome A * World :=
  match script with
  | [] => (Blocked on, w <| w_script := [] |>)
  | v :: script =>
      let w := activate v w <| w_script := script |> in
      match resume (av_resolution v) (w_state w) with
      | Some a => (Done a, w)
      | None => await_script on resume script w
      end
  end.
Definition await {A} (on : Await) (resume : option Resolution → Mailbox → option A) : WF A :=
  λ w, await_script on resume (w_script w) w.

Definition execute_activity (a : Activity) : WF json :=
  _ ← log_call a;
  r ← await (OnActivity a) (λ r _, match r with Some (ActivityResolved r) => Some r | _ => None end);
  match r with Completed d => mret d | Failed e => throw (ActivityFailed e) end.

Definition sleep : WF unit :=
  await OnSleep (λ r _, match r with Some TimerFired => Some tt | _ => None end).

(** [with suppress(TimeoutError): await wait_condition(pred, timeout=...)].  The
    condition is checked before suspending and after the signals of every
    activation; the timer exists only when there is a timeout. *)
Definition wait_condition (pred : Mailbox → bool) (timeout : option Z) : WF unit :=
  s ← self;
  if pred s then mret tt
  else await OnWake (λ r s,
    if pred s then Some tt
    else match r, timeout with Some TimerFired, Some _ => Some tt | _, _ => None end).

(** [while True] around a body whose every round awaits: a round uses an
    activation, so the script bounds the rounds. *)
Definition while_true {A} (body : WF (option A)) : WF A := λ w,
  loop (S (length (w_script w))) body w.
