(* ===== verification/Continuation.v ===== *)
(** * Continue-As-New: [_continuation_input] and [_restore_continuation]

    The state a run hands to its successor, as JSON documents, and the
    successor's reading of it, merged with what was signalled before its start. *)

From stdpp Require Import base gmap sets list strings pretty.
From Stdlib Require Import ZArith Lia.
From S2P Require Import Prelude Python PyTime Json Mailbox Workflow.

#[local] Open Scope string_scope.

(** ** Reading documents *)

(** [document[key]] *)
Definition get_key (key : string) (d : json) : option json :=
  match d with JObj items => assoc key items | _ => None end.

(** [document.get(key, ())]; [None] when the document is not a dictionary. *)
Definition get_or_empty (key : string) (d : json) : option json :=
  match d with JObj items => Some (default (JArr []) (assoc key items)) | _ => None end.

(** [str(value)] on scalars.  The documents hold strings here; the [repr] of a
    container is not modelled. *)
Definition py_str (v : json) : option string :=
  match v with
  | JStr s => Some s
  | JInt n => Some (pretty n)
  | JBool b => Some (if b then "True" else "False")
  | JNull => Some "None"
  | JFloat f => Some (fl_repr f)
  | JArr _ | JObj _ => None
  end.

(** [cast(str | None, value)] *)
Definition cast_str (v : json) : option (option string) :=
  match v with JStr s => Some (Some s) | JNull => Some None | _ => None end.

(** [int(value)] on numbers *)
Definition py_int (v : json) : option Z :=
  match v with JInt n => Some n | JBool b => Some (if b then 1 else 0)%Z | _ => None end.

Definition get_str (key : string) (d : json) : option string := get_key key d ≫= py_str.
Definition get_cast (key : string) (d : json) : option (option string) := get_key key d ≫= cast_str.
Definition get_int (key : string) (d : json) : option Z := get_key key d ≫= py_int.

(** [tuple(str(value) for value in ...)] *)
Definition str_tuple (v : json) : option (list string) :=
  match v with JArr xs => mapM py_str xs | JObj items => Some (fst <$> items) | _ => None end.

(** ** Writing *)

Definition opt_str (o : option string) : json :=
  match o with Some s => JStr s | None => JNull end.
Definition opt_doc (o : option json) : json := default JNull o.
Definition strs (xs : list string) : json := JArr (JStr <$> xs).

Definition event_document (e : MailboxEvent) : json :=
  JObj [("event_id", JStr (me_event_id e)); ("event_type", JStr (me_event_type e))].

Definition review_document (r : MailboxReview) : json :=
  JObj [("command_id", JStr (mr_command_id r)); ("command_type", JStr (mr_command_type r));
        ("review_thread_id", JStr (mr_review_thread_id r));
        ("action_request_id", JStr (mr_action_request_id r));
        ("proposal_revision", JInt (mr_proposal_revision r))].

Definition resolution_document (r : MailboxActionResolution) : json :=
  JObj [("command_id", JStr (mx_command_id r)); ("action_request_id", JStr (mx_action_request_id r));
        ("action_attempt_id", JStr (mx_action_attempt_id r)); ("status", JStr (mx_status r))].

Definition sources_items (s : TurnSources) : list (string * json) :=
  [("event_ids", strs (src_event_ids s)); ("review_command_ids", strs (src_review_command_ids s));
   ("action_attempt_ids", strs (src_action_attempt_ids s)); ("timer_ids", strs (src_timer_ids s))].

Definition control_document (c : MailboxControl) : json :=
  JObj (("command_id", JStr (mc_command_id c)) :: ("command_type", JStr (mc_command_type c))
        :: sources_items (mc_sources c)).

Definition wake_record_document (r : WakeRecord) : json :=
  JObj [("reason", JStr (wr_reason r)); ("event_id", opt_str (wr_event_id r));
        ("event_type", opt_str (wr_event_type r)); ("timer_id", opt_str (wr_timer_id r));
        ("woke_at", JStr (isoformat (wr_woke_at r)));
        ("review_command_id", opt_str (wr_review_command_id r));
        ("review_command_type", opt_str (wr_review_command_type r))].

Definition turn_record_document (r : TurnRecord) : json :=
  JObj (("turn_id", JStr (tr_turn_id r)) :: sources_items (tr_sources r)
        ++ [("decision_json", opt_doc (tr_decision_json r));
            ("actions_json", opt_doc (tr_actions_json r));
            ("execution_results_json", opt_doc (tr_execution_results_json r));
            ("error", opt_str (tr_error r))])%list.

Definition execution_record_document (r : ExecutionRecord) : json :=
  JObj [("action_request_id", JStr (er_action_request_id r)); ("revision", JInt (er_revision r));
        ("result_json", opt_doc (er_result_json r)); ("error", opt_str (er_error r))].

Definition wake_plan_document (p : WakePlan) : json :=
  JObj [("event_types", strs (wp_event_types p)); ("timer_id", opt_str (wp_timer_id p));
        ("timer_at", match wp_timer_at p with Some d => JStr (isoformat d) | None => JNull end);
        ("human_interactions", strs (wp_human_interactions p))].

Definition _CONTINUATION_SCHEMA_VERSION : Z := 1.
Definition _RECENT_RECORD_LIMIT : nat := 50.

(** [tuple(sorted(ids))] of a set. *)
Definition sorted_ids (ids : gset string) : list string := sorted (elements ids).

Definition _continuation_input (s : Mailbox) : MailboxInput :=
  mkMailboxInput (_tenant_id s) (_process_instance_id s) (_process_definition_id s)
    (_process_definition_version s) (_continue_as_new_after_turns s)
    {| mk_schema_version := _CONTINUATION_SCHEMA_VERSION;
       mk_started := _started s;
       mk_buffered_events := event_document <$> _buffered_events s;
       mk_seen_event_ids := sorted_ids (_seen_event_ids s);
       mk_buffered_reviews := review_document <$> _buffered_reviews s;
       mk_seen_review_command_ids := sorted_ids (_seen_review_command_ids s);
       mk_buffered_action_resolutions := resolution_document <$> _buffered_action_resolutions s;
       mk_seen_action_resolution_ids := sorted_ids (_seen_action_resolution_ids s);
       mk_buffered_controls := control_document <$> _buffered_controls s;
       mk_seen_control_command_ids := sorted_ids (_seen_control_command_ids s);
       mk_recent_wake_records := wake_record_document <$> last_n _RECENT_RECORD_LIMIT (_wake_records s);
       mk_recent_turn_records := turn_record_document <$> last_n _RECENT_RECORD_LIMIT (_turn_records s);
       mk_recent_execution_records :=
         execution_record_document <$> last_n _RECENT_RECORD_LIMIT (_execution_records s);
       mk_pending_action_request_ids := _pending_action_request_ids s;
       mk_wake_plan := wake_plan_document <$> _wake_plan s;
       mk_completed_turn_count := _completed_turn_count s;
       mk_continued_run_count := _continued_run_count s + 1 |}.

(** ** Restoring *)

Definition read_event (d : json) : option MailboxEvent :=
  i ← get_str "event_id" d; t ← get_str "event_type" d; Some (mkMailboxEvent i t).

Definition read_review (d : json) : option MailboxReview :=
  i ← get_str "command_id" d; t ← get_str "command_type" d; h ← get_str "review_thread_id" d;
  a ← get_str "action_request_id" d; r ← get_int "proposal_revision" d;
  Some (mkMailboxReview i t h a r).

Definition read_resolution (d : json) : option MailboxActionResolution :=
  i ← get_str "command_id" d; a ← get_str "action_request_id" d;
  t ← get_str "action_attempt_id" d; st ← get_str "status" d; Some (mkMailboxResolution i a t st).

(** The four tuples of a control default to empty; those of a turn do not. *)
Definition read_sources (get : string → json → option json) (d : json) : option TurnSources :=
  e ← get "event_ids" d ≫= str_tuple; r ← get "review_command_ids" d ≫= str_tuple;
  a ← get "action_attempt_ids" d ≫= str_tuple; t ← get "timer_ids" d ≫= str_tuple;
  Some (mkSources e r a t).

Definition read_control (d : json) : option MailboxControl :=
  i ← get_str "command_id" d; t ← get_str "command_type" d; s ← read_sources get_or_empty d;
  Some (mkMailboxControl i t s).

Definition read_wake_record (d : json) : option WakeRecord :=
  r ← get_str "reason" d; e ← get_cast "event_id" d; t ← get_cast "event_type" d;
  i ← get_cast "timer_id" d; w ← get_str "woke_at" d ≫= fromisoformat;
  c ← get_cast "review_command_id" d; ct ← get_cast "review_command_type" d;
  Some (mkWakeRecord r e t i w c ct).

(** A document column: [null] or the text of a document. *)
Definition read_doc (key : string) (d : json) : option (option json) :=
  v ← get_key key d; Some (match v with JNull => None | _ => Some v end).

Definition read_turn_record (d : json) : option TurnRecord :=
  i ← get_str "turn_id" d; s ← read_sources get_key d; dj ← read_doc "decision_json" d;
  aj ← read_doc "actions_json" d; rj ← read_doc "execution_results_json" d;
  e ← get_cast "error" d; Some (mkTurnRecord i s dj aj rj e).

Definition read_execution_record (d : json) : option ExecutionRecord :=
  a ← get_str "action_request_id" d; r ← get_int "revision" d; rj ← read_doc "result_json" d;
  e ← get_cast "error" d; Some (mkExecutionRecord a r rj e).

Definition read_timer_at (d : json) : option (option datetime) :=
  v ← get_key "timer_at" d;
  match v with
  | JNull => Some None
  | _ => Some <$> (py_str v ≫= fromisoformat)
  end.

Definition read_wake_plan (d : json) : option WakePlan :=
  e ← get_key "event_types" d ≫= str_tuple; i ← get_cast "timer_id" d; a ← read_timer_at d;
  h ← get_or_empty "human_interactions" d ≫= str_tuple; Some (mkWakePlan e i a h).

Definition read_optional {A} (f : json → option A) (d : option json) : option (option A) :=
  match d with Some d => Some <$> f d | None => Some None end.

(** The carried snapshot over the identity of a state. *)
Definition load_snapshot (c : MailboxContinuation) (s : Mailbox) : option Mailbox :=
  events ← mapM read_event (mk_buffered_events c);
  reviews ← mapM read_review (mk_buffered_reviews c);
  resolutions ← mapM read_resolution (mk_buffered_action_resolutions c);
  controls ← mapM read_control (mk_buffered_controls c);
  wakes ← mapM read_wake_record (mk_recent_wake_records c);
  turns ← mapM read_turn_record (mk_recent_turn_records c);
  executions ← mapM read_execution_record (mk_recent_execution_records c);
  plan ← read_optional read_wake_plan (mk_wake_plan c);
  Some (s <| _started := mk_started c |>
          <| _buffered_events := events |>
          <| _seen_event_ids := list_to_set (mk_seen_event_ids c) |>
          <| _buffered_reviews := reviews |>
          <| _seen_review_command_ids := list_to_set (mk_seen_review_command_ids c) |>
          <| _buffered_action_resolutions := resolutions |>
          <| _seen_action_resolution_ids := list_to_set (mk_seen_action_resolution_ids c) |>
          <| _buffered_controls := controls |>
          <| _seen_control_command_ids := list_to_set (mk_seen_control_command_ids c) |>
          <| _wake_records := wakes |>
          <| _turn_records := turns |>
          <| _execution_records := executions |>
          <| _pending_action_request_ids := mk_pending_action_request_ids c |>
          <| _wake_plan := plan |>
          <| _timer_due_at := plan ≫= wp_timer_at |>
          <| _completed_turn_count := mk_completed_turn_count c |>
          <| _continued_run_count := mk_continued_run_count c |>).

(** What was signalled before the start, delivered after the snapshot. *)
Definition merge_messages (pre s : Mailbox) : Mailbox :=
  let s := fold_left (λ s e, receive_event e s) (_buffered_events pre) s in
  let s := fold_left (λ s r, receive_review r s) (_buffered_reviews pre) s in
  let s := fold_left (λ s r, receive_action_resolution r s) (_buffered_action_resolutions pre) s in
  fold_left (λ s c, receive_control c s) (_buffered_controls pre) s.

Definition merge_wake_plan (pre s : Mailbox) : Mailbox :=
  match _wake_plan pre with
  | Some p => s <| _wake_plan := Some p |> <| _timer_due_at := wp_timer_at p |>
  | None => s
  end.

Definition merge_prestart (pre s : Mailbox) : Mailbox := merge_wake_plan pre (merge_messages pre s).

Definition _restore_continuation (c : MailboxContinuation) (pre : Mailbox) : wexn + Mailbox :=
  if bool_decide (mk_schema_version c = _CONTINUATION_SCHEMA_VERSION) then
    match load_snapshot c pre with
    | Some s => inr (merge_prestart pre s)
    | None => inl PythonError
    end
  else inl (ApplicationError "UnsupportedMailboxContinuation"
              ("unsupported mailbox continuation schema " +:+ pretty (mk_schema_version c))).
