(* ===== verification/MailboxRun.v ===== *)
(** * [ProcessMailboxWorkflow.run] and the coroutines below it

    [run_turn] is [_run_turn] with its chain of follow-up turns, [loop_body] one
    round of the loop of [run].  Both are functions of the world of [Workflow]. *)

From stdpp Require Import base gmap sets list strings pretty.
From Stdlib Require Import ZArith Lia.
From S2P Require Import Prelude Python PyTime Json Contracts Mailbox Workflow Continuation.

#[local] Open Scope string_scope.

(** ** Document access in a coroutine *)

Definition no_sources : TurnSources := mkSources [] [] [] [].
Definition event_sources (id : string) : TurnSources := mkSources [id] [] [] [].
Definition review_sources (id : string) : TurnSources := mkSources [] [id] [] [].
Definition attempt_sources (ids : list string) : TurnSources := mkSources [] [] ids [].
Definition timer_sources (id : string) : TurnSources := mkSources [] [] [] [id].

(** [value == text] *)
Definition is_text (text : string) (v : json) : bool :=
  match v with JStr s => bool_decide (s = text) | _ => false end.

(** [bool(value)] *)
Definition truthy (v : json) : bool :=
  match v with
  | JNull => false
  | JBool b => b
  | JInt n => negb (n =? 0)%Z
  | JFloat f => match fl_value f with Some (n, _) => negb (n =? 0)%Z | None => true end
  | JStr s => negb (is_empty s)
  | JArr xs => match xs with [] => false | _ => true end
  | JObj items => match items with [] => false | _ => true end
  end.

(** Iterating over a value of a document. *)
Definition json_items (v : json) : option (list json) :=
  match v with JArr xs => Some xs | JObj items => Some ((λ kv, JStr (fst kv)) <$> items) | _ => None end.

(** ** [_apply_turn_outcome] *)

(** The text of [item[key]] of the items whose ["type"] is [kind]. *)
Definition select_wakes (kind key : string) (wakes : list json) : option (list string) :=
  o ← mapM (λ item,
    t ← get_key "type" item;
    if is_text kind t then Some <$> get_str key item else Some None) wakes;
  Some (omap id o).

(** The timers with their index among all wake conditions. *)
Definition timers_of (wakes : list json) : option (list (nat * datetime)) :=
  o ← mapM (λ '(i, item),
    t ← get_key "type" item;
    if is_text "timer" t then
      d ← get_str "at" item ≫= fromisoformat; Some (Some (i, d))
    else Some None) (imap pair wakes);
  Some (omap id o).

(** [min(timers, key=...)]: the first of the earliest.  Python refuses to compare
    an aware with a naive datetime. *)
Fixpoint earliest (best : nat * datetime) (timers : list (nat * datetime))
  : option (nat * datetime) :=
  match timers with
  | [] => Some best
  | t :: timers =>
      if Bool.eqb (is_naive (snd t)) (is_naive (snd best)) then
        earliest (if (instant (snd t) <? instant (snd best))%Z then t else best) timers
      else None
  end.

Definition select_timer (timers : list (nat * datetime)) : option (option (nat * datetime)) :=
  match timers with
  | [] => Some None
  | t :: timers => Some <$> earliest t timers
  end.

(** [f"{decision['decision_id']}:timer:{index}"] *)
Definition timer_id_of (decision : json) (selected : option (nat * datetime))
  : option (option string) :=
  match selected with
  | None => Some None
  | Some (i, _) => d ← get_str "decision_id" decision; Some (Some (d +:+ ":timer:" +:+ pretty i))
  end.

(** Whether the process ended, and its wake conditions. *)
Definition outcome_of (process_state_result decision : json) : option (bool * list json) :=
  match get_key "terminal" process_state_result with
  | Some t =>
      wakes ← get_or_empty "wake_conditions_json" process_state_result ≫= json_items;
      Some (truthy t, wakes)
  | None =>
      wakes ← get_or_empty "wake_conditions" decision ≫= json_items;
      Some (match get_key "status" decision with Some s => is_text "completed" s | None => false end,
            wakes)
  end.

Definition turn_outcome (process_state_result decision : json) : option (option WakePlan) :=
  '(terminal, wakes) ← outcome_of process_state_result decision;
  event_types ← select_wakes "event" "event_type" wakes;
  human_interactions ← select_wakes "human" "interaction" wakes;
  timers ← timers_of wakes;
  selected ← select_timer timers;
  if (terminal : bool) then Some None
  else
    timer_id ← timer_id_of decision selected;
    Some (Some (mkWakePlan event_types timer_id (snd <$> selected) human_interactions)).

Definition _apply_turn_outcome (process_state_result decision : json) : WF unit :=
  o ← read (turn_outcome process_state_result decision);
  match o with
  | None => update close
  | Some plan => update (install_wake_plan plan)
  end.

(** ** Activities of a turn *)

Definition _record_intervention (intervention_id turn_id kind error_type error : string)
    (sources : TurnSources) : WF unit :=
  s ← self;
  _ ← execute_activity (record_process_intervention
        (mkInterventionCall intervention_id (_tenant_id s) (_process_instance_id s) turn_id kind
           error_type error sources));
  mret tt.

(** [while True: try: ... break except ActivityError]: a call that a suspended
    tenant refuses is repeated until it is accepted or the process is closed
    ([None]). *)
Definition suspension_retry (error_type : string) (call : WF json) : WF (option json) :=
  while_true (
    r ← try_activity (d ← call; mret (inl d)) (λ e,
          if _is_activity_error_type e error_type then mret (inr e) else throw (ActivityFailed e));
    match r with
    | inl d => mret (Some (Some d))
    | inr _ =>
        _ ← sleep;
        s ← self;
        mret (if _closed s then Some None else None)
    end).

Definition append_execution (action_request_id : string) (revision : Z) (result_json : option json)
    (error : option string) : WF unit :=
  update (append_execution_record (mkExecutionRecord action_request_id revision result_json error)).

Definition is_settled (status : json) : bool :=
  is_text "succeeded" status || is_text "failed" status || is_text "conflict" status.

(** The lookup that follows an unknown outcome; gives the result to go on with. *)
Definition reconcile_unknown (call : ActionCall) (result : json) : WF json :=
  let id := ac_action_request_id call in
  try_activity (
    reconciled ← execute_activity (reconcile_action call);
    _ ← append_execution id (ac_revision call) (Some reconciled) None;
    mret reconciled) (λ e,
    _ ← append_execution id (ac_revision call) None (Some (ae_text e));
    if _is_activity_error_type e "DeploymentCompatibilityError" then throw (ActivityFailed e)
    else mret result).

Definition _execute_pending_action (action_request_id : string) (revision : Z) : WF (option json) :=
  _ ← update (_add_pending_action action_request_id);
  try_activity (
    s ← self;
    let call := mkActionCall (_tenant_id s) (_process_instance_id s) action_request_id revision in
    o ← suspension_retry "ActionExecutionSuspended" (execute_activity (execute_action call));
    match o with
    | None => mret None
    | Some result =>
        _ ← append_execution action_request_id revision (Some result) None;
        status ← read (get_key "status" result);
        result ← (if is_text "unknown" status then reconcile_unknown call result else mret result);
        status ← read (get_key "status" result);
        _ ← (if is_settled status then update (_remove_pending_action action_request_id)
             else mret tt);
        mret (Some result)
    end) (λ e,
    _ ← append_execution action_request_id revision None (Some (ae_text e));
    if _is_activity_error_type e "DeploymentCompatibilityError" then throw (ActivityFailed e)
    else mret None).

(** ** [_run_turn] *)

(** The local variables that the exception handler of a turn reads. *)
Record TurnLocals := mkLocals {
  tl_decision_json : option json;
  tl_actions_json : option json;
  tl_execution_results : list json
}.
#[export] Instance TurnLocals_rebuild : Rebuild TurnLocals := λ l,
  mkLocals (tl_decision_json l) (tl_actions_json l) (tl_execution_results l).

Abbreviation Turn := (M (World * TurnLocals)).


(** [if self._lifecycle_preemption_pending(): self._record_preempted_turn(...); return]:
    whether the turn must return. *)
Definition check_preempted (x : TurnCall) (with_results : bool) : Turn bool :=
  s ← lift self;
  if _lifecycle_preemption_pending s then
    l ← local;
    _ ← lift (update (_record_preempted_turn (tc_turn_id x) (tc_sources x) (tl_decision_json l)
          (tl_actions_json l)
          (if with_results then Some (JArr (tl_execution_results l)) else None)));
    mret true
  else mret false.

(** The loop over the persisted actions: [None] when the turn was preempted,
    otherwise whether an action requires approval. *)
Fixpoint run_actions (x : TurnCall) (items : list json) (requires_approval : bool)
  : Turn (option bool) :=
  match items with
  | [] => mret (Some requires_approval)
  | item :: items =>
      preempted ← check_preempted x true;
      if (preempted : bool) then mret None
      else
        action_request_id ← read (get_str "action_request_id" item);
        outcome ← read (get_key "outcome" item);
        if is_text "allow" outcome then
          revision ← read (get_int "revision" item);
          execution ← lift (_execute_pending_action action_request_id revision);
          _ ← match execution with
              | Some e => set_local (λ l, l <| tl_execution_results ::= λ es, (es ++ [e])%list |>)
              | None => mret tt
              end;
          run_actions x items requires_approval
        else if is_text "require_approval" outcome then
          _ ← lift (update (_add_pending_action action_request_id));
          run_actions x items true
        else run_actions x items requires_approval
  end.

Definition _CHAIN_LIMIT_ERROR : string := "automatic action-result chain limit reached".

(** After the actions: record the turn, then follow the results, hand over to an
    operator, or set the wake plan. *)
Definition finish_actions (follow : TurnSources → WF unit) (chain_depth : nat) (x : TurnCall)
    (process_state_result : json) (requires_approval : bool) : Turn unit :=
  l ← local;
  result_attempt_ids ← read (mapM (get_str "attempt_id") (tl_execution_results l));
  let has_results := match result_attempt_ids with [] => false | _ => true end in
  let chain_limit_reached := has_results && (5 <=? chain_depth)%nat in
  decision ← read (tl_decision_json l);
  lift (
    _ ← update (append_turn_record (mkTurnRecord (tc_turn_id x) (tc_sources x)
          (tl_decision_json l) (tl_actions_json l) (Some (JArr (tl_execution_results l)))
          (if chain_limit_reached then Some _CHAIN_LIMIT_ERROR else None)));
    if has_results then
      if negb chain_limit_reached then follow (attempt_sources result_attempt_ids)
      else
        intervention_id ← uuid4;
        _ ← _record_intervention intervention_id (tc_turn_id x) "action_chain_limit"
              "ActionChainLimitReached" _CHAIN_LIMIT_ERROR (attempt_sources result_attempt_ids);
        update (install_wake_plan (human_wake_plan "operator"))
    else
      s ← self;
      if requires_approval || match _pending_action_request_ids s with [] => false | _ => true end then
        match get_key "terminal" process_state_result with
        | Some _ => _apply_turn_outcome process_state_result decision
        | None => update (install_wake_plan (human_wake_plan "approval"))
        end
      else _apply_turn_outcome process_state_result decision).

(** The body of the [try] of [_run_turn]. *)
Definition turn_body (follow : TurnSources → WF unit) (chain_depth : nat) (x : TurnCall)
  : Turn unit :=
  o ← lift (suspension_retry "TenantSuspended" (execute_activity (run_agent_turn x)));
  match o with
  | None => mret tt
  | Some decision_json =>
      _ ← set_local (λ l, l <| tl_decision_json := Some decision_json |>);
      preempted ← check_preempted x false;
      if (preempted : bool) then mret tt
      else
        actions_json ← lift (execute_activity (persist_agent_actions x decision_json));
        _ ← set_local (λ l, l <| tl_actions_json := Some actions_json |>);
        preempted ← check_preempted x false;
        if (preempted : bool) then mret tt
        else
          process_state_result ← lift (execute_activity (persist_process_state x decision_json));
          items ← read (json_items actions_json);
          r ← run_actions x items false;
          match r with
          | None => mret tt
          | Some requires_approval =>
              preempted ← check_preempted x true;
              if (preempted : bool) then mret tt
              else finish_actions follow chain_depth x process_state_result requires_approval
          end
  end.

(** The [except ActivityError] of [_run_turn]. *)
Definition turn_handler (x : TurnCall) (e : ActivityError) : Turn unit :=
  preempted ← check_preempted x true;
  if (preempted : bool) then mret tt
  else
    lift (
      _ ← update (append_turn_record (mkTurnRecord (tc_turn_id x) (tc_sources x) None None None
            (Some (ae_text e))));
      intervention_id ← uuid4;
      _ ← _record_intervention intervention_id (tc_turn_id x) "turn_failure" (_activity_error_type e)
            (ae_text e) (tc_sources x);
      update (install_wake_plan (human_wake_plan "operator"))).

(** The [finally] of [_run_turn]. *)
Definition finish_turn (w : World) : World :=
  w <| w_state ::= λ s, s <| _turn_in_progress := false |> <| _turns_since_continue ::= Z.succ |>
                          <| _completed_turn_count ::= Z.succ |> |>.

(** One turn of a process with a definition; [follow] runs the turn that follows
    its results. *)
Definition single_turn (follow : TurnSources → WF unit) (chain_depth : nat) (sources : TurnSources)
    (definition_id version : string) : WF unit :=
  s ← self;
  turn_id ← uuid4;
  workflow_now ← now;
  let x := mkTurnCall (_tenant_id s) (_process_instance_id s) definition_id version turn_id
             workflow_now sources in
  _ ← update (λ s, s <| _turn_in_progress := true |>);
  finally
    (with_locals (mkLocals None None [])
       (try_activity (turn_body follow chain_depth x) (turn_handler x)))
    finish_turn.

(** [fuel] bounds the chain of follow-up turns; [chain_depth] stops it at 5. *)
Fixpoint run_turn (fuel : nat) (sources : TurnSources) (chain_depth : nat) : WF unit :=
  match fuel with
  | O => out_of_fuel
  | S fuel =>
      s ← self;
      match _process_definition_id s, _process_definition_version s with
      | Some definition_id, Some version =>
          single_turn (λ sources, run_turn fuel sources (S chain_depth)) chain_depth sources
            definition_id version
      | _, _ => mret tt
      end
  end.

Definition _run_turn (sources : TurnSources) : WF unit := run_turn 6 sources 0.

(** ** The loop of [run] *)

Definition _should_continue_as_new : WF bool :=
  s ← self;
  if _turn_in_progress s then mret false
  else
    suggested ← is_continue_as_new_suggested;
    mret ((_continue_as_new_after_turns s <=? _turns_since_continue s)%Z || suggested).

(** [self._wake_records.append(WakeRecord(..., woke_at=workflow.now()))] *)
Definition record_wake (reason : string) (event : option MailboxEvent) (timer_id : option string)
    (review : option MailboxReview) : WF unit :=
  woke_at ← now;
  update (append_wake_record (mkWakeRecord reason (me_event_id <$> event) (me_event_type <$> event)
    timer_id (utc woke_at) (mr_command_id <$> review) (mr_command_type <$> review))).

Definition set_started (s : Mailbox) : Mailbox := s <| _started := true |>.

(** [event = self._buffered_events.pop(index)] and the wake it causes. *)
Definition wake_on_event (reason : string) (index : nat) (event : MailboxEvent) : WF unit :=
  _ ← update (λ s, s <| _buffered_events ::= pop_at index |>);
  _ ← update set_started;
  record_wake reason (Some event) None None.

(** [review = self._buffered_reviews.pop(0)] and the wake it causes. *)
Definition wake_on_review (review : MailboxReview) : WF unit :=
  _ ← update (λ s, s <| _buffered_reviews ::= pop_at 0 |>);
  _ ← update set_started;
  record_wake "review" None None (Some review).

Definition act_on_review (review : MailboxReview) : WF unit :=
  _ ← update _clear_wake_plan;
  if bool_decide (mr_command_type review = "approve") then
    execution ← _execute_pending_action (mr_action_request_id review) (mr_proposal_revision review);
    match execution with
    | Some e =>
        attempt_id ← read (get_str "attempt_id" e);
        _run_turn (attempt_sources [attempt_id])
    | None => mret tt
    end
  else if bool_decide (mr_command_type review ∈ ["reject"; "request_revision"]) then
    _ ← update (_remove_pending_action (mr_action_request_id review));
    _run_turn (review_sources (mr_command_id review))
  else if bool_decide (mr_command_type review = "comment") then
    _run_turn (review_sources (mr_command_id review))
  else mret tt.

Definition handle_review (review : MailboxReview) : WF unit :=
  _ ← wake_on_review review; act_on_review review.

(** [self._buffered_action_resolutions.pop(0)], [self._buffered_controls.pop(0)] *)
Definition take_resolution (s : Mailbox) : Mailbox := s <| _buffered_action_resolutions ::= pop_at 0 |>.
Definition take_control (s : Mailbox) : Mailbox := s <| _buffered_controls ::= pop_at 0 |>.

Definition act_on_resolution (resolution : MailboxActionResolution) : WF unit :=
  _ ← update set_started;
  _ ← update (_remove_pending_action (mx_action_request_id resolution));
  _ ← update _clear_wake_plan;
  _run_turn (attempt_sources [mx_action_attempt_id resolution]).

Definition handle_resolution (resolution : MailboxActionResolution) : WF unit :=
  _ ← update take_resolution; act_on_resolution resolution.

Definition act_on_control (control : MailboxControl) : WF unit :=
  _ ← update set_started;
  if bool_decide (mc_command_type control = "takeover") then
    update (install_wake_plan (human_wake_plan "operator"))
  else if bool_decide (mc_command_type control = "retry") then
    _ ← update _clear_wake_plan;
    _run_turn (mc_sources control)
  else mret tt.

Definition handle_control (control : MailboxControl) : WF unit :=
  _ ← update take_control; act_on_control control.

Definition handle_timer (s : Mailbox) : WF unit :=
  let timer_id := _wake_plan s ≫= wp_timer_id in
  _ ← update set_started;
  _ ← record_wake "timer" None timer_id None;
  _ ← update _clear_wake_plan;
  match timer_id with
  | Some id => _run_turn (timer_sources id)
  | None => mret tt
  end.

(** The condition of [wait_condition]. *)
Definition wakes_up (awaited_revision : Z) (s : Mailbox) : bool :=
  _closed s
  || negb (_plan_revision s =? awaited_revision)%Z
  || bool_decide (_buffered_reviews s ≠ [])
  || bool_decide (_buffered_action_resolutions s ≠ [])
  || bool_decide (_buffered_controls s ≠ [])
  || (negb (_started s) && bool_decide (_wake_plan s = None)
      && bool_decide (_initial_event_index s ≠ None))
  || bool_decide (_manual_wake_event_index s ≠ None)
  || bool_decide (_matching_event_index s ≠ None).

(** [self._timer_due_at is not None and self._timer_due_at <= workflow.now()]; a
    naive time is not comparable to the clock. *)
Definition timer_is_due (now : Z) (s : Mailbox) : option bool :=
  match _timer_due_at s with
  | Some due => if is_naive due then None else Some (instant due <=? now)%Z
  | None => Some false
  end.

(** [self._buffered_events[index]] for an index that was just found. *)
Definition event_at (index : option nat) (s : Mailbox) : option (nat * MailboxEvent) :=
  i ← index; e ← _buffered_events s !! i; Some (i, e).

Definition starting_event (s : Mailbox) : option (nat * MailboxEvent) :=
  if negb (_started s) && bool_decide (_wake_plan s = None) then event_at (_initial_event_index s) s
  else None.

Definition wait_for_wake : WF unit :=
  s ← self;
  t ← now;
  wait_condition (wakes_up (_plan_revision s)) (_timer_timeout t s).

(** The choice among the sources of work, in the order of the contract. *)
Definition choose_work (s : Mailbox) (t : Z) : WF unit :=
  match starting_event s with
  | Some (i, event) =>
      _ ← wake_on_event "process_started" i event;
      _run_turn (event_sources (me_event_id event))
  | None =>
  match _buffered_reviews s with
  | review :: _ => handle_review review
  | [] =>
  match _buffered_action_resolutions s with
  | resolution :: _ => handle_resolution resolution
  | [] =>
  match _buffered_controls s with
  | control :: _ => handle_control control
  | [] =>
  match event_at (_manual_wake_event_index s) s with
  | Some (i, event) =>
      _ ← wake_on_event "operator_manual_wake" i event;
      _ ← update _clear_wake_plan;
      _run_turn (event_sources (me_event_id event))
  | None =>
  match event_at (_matching_event_index s) s with
  | Some (i, event) =>
      _ ← wake_on_event "event" i event;
      _ ← update _clear_wake_plan;
      _run_turn (event_sources (me_event_id event))
  | None =>
      due ← read (timer_is_due t s);
      if (due : bool) then handle_timer s else wait_for_wake
  end end end end end end.

(** One round of [while not self._closed]. *)
Definition loop_body : WF unit :=
  continue_as_new ← _should_continue_as_new;
  s ← self;
  t ← now;
  if (continue_as_new : bool) then throw (ContinueAsNew (_continuation_input s))
  else choose_work s t.

(** The messages in the buffers. *)
Definition buffered (s : Mailbox) : nat :=
  length (_buffered_events s) + length (_buffered_reviews s)
  + length (_buffered_action_resolutions s) + length (_buffered_controls s).

(** The work a world holds: its messages and its activations with their signals. *)
Definition work_left (w : World) : nat :=
  2 * buffered (w_state w) + sum_list_with (λ v, 2 + 2 * length (av_signals v)) (w_script w).

(** A bound on the rounds of the loop: a message counts twice, since the turn it
    causes may set a timer that causes another. *)
Definition rounds_bound (w : World) : nat :=
  work_left w + (if _timer_due_at (w_state w) then 1 else 0).

Definition main_loop : WF unit := λ w,
  loop (S (rounds_bound w)) (
    s ← self;
    if _closed s then mret (Some tt) else _ ← loop_body; mret None) w.

(** The attributes that [run] takes from its input. *)
Definition identify (input : MailboxInput) (s : Mailbox) : Mailbox :=
  s <| _tenant_id := mi_tenant_id input |>
    <| _process_instance_id := mi_process_instance_id input |>
    <| _process_definition_id := mi_process_definition_id input |>
    <| _process_definition_version := mi_process_definition_version input |>
    <| _continue_as_new_after_turns := Z.max 1 (mi_continue_as_new_after_turns input) |>.

(** [run]: what was signalled before it is already in the state of the world. *)
Definition run (input : MailboxInput) : WF MailboxState :=
  _ ← update (identify input);
  s ← self;
  _ ← match _restore_continuation (mi_continuation input) s with
      | inr s => update (λ _, s)
      | inl e => throw e
      end;
  _ ← main_loop;
  s ← self;
  mret (state s).

(** ** An example process *)

Definition ex_definition (limit : Z) : MailboxInput :=
  mkMailboxInput "tenant" "process" (Some "support") (Some "1") limit first_run.

Definition answer (d : json) : Activation := mkActivation [] 1000000 false (Some (ActivityResolved (Completed d))).
Definition failure (type_ : string) : Activation :=
  mkActivation [] 1000000 false
    (Some (ActivityResolved (Failed (mkActivityError "activity failed" [ApplicationCause (Some type_) ""])))).

Definition ex_wake_list : list json :=
  [JObj [("type", JStr "timer"); ("at", JStr "2026-01-02T00:00:00+00:00")];
   JObj [("type", JStr "event"); ("event_type", JStr "customer.replied")];
   JObj [("type", JStr "timer"); ("at", JStr "2026-01-01T12:00:00+00:00")]].
Definition ex_wakes : json := JArr ex_wake_list.
Definition ex_decision_json : json :=
  JObj [("decision_id", JStr "d1"); ("status", JStr "waiting"); ("wake_conditions", ex_wakes)].
Definition ex_result : json :=
  JObj [("terminal", JBool false); ("wake_conditions_json", ex_wakes)].

(** The answers of one quiet turn. *)
Definition ex_turn_script : list Activation :=
  [answer ex_decision_json; answer (JArr []); answer ex_result].

Definition ex_start (pre : list Signal) (script : list Activation) : World :=
  mkWorld (handle_signals pre mailbox_init) 0 false (λ n, "uuid-" +:+ pretty n) 0 script [].

Definition ex_opened : Signal := SigEvent (mkMailboxEvent "e1" "case.opened").
Definition ex_noise : Signal := SigEvent (mkMailboxEvent "e2" "case.noted").

Example ex_run_waits :
  let w := snd (run (ex_definition 100) (ex_start [ex_opened] ex_turn_script)) in
  fst (run (ex_definition 100) (ex_start [ex_opened] ex_turn_script)) = Blocked OnWake
  ∧ _wake_plan (w_state w) = Some (mkWakePlan ["customer.replied"] (Some "d1:timer:2")
      (Some (DateTime 1767268800000000 (Some 0%Z))) [])
  ∧ length (w_log w) = 3.
Proof. vm_compute. auto. Qed.
