(* ===== verification/Triples.v ===== *)
(** * Reasoning about workflow computations

    [tri R P m Q]: from a world where [P] holds, [m] leads to a world related by
    [R], whatever its outcome, and where it returns [Q] holds.  [R] is a
    preorder, so that it composes along a run; an instance of [Effects R] says
    which elementary effects [R] admits, and the rules below lift it to every
    coroutine. *)

From stdpp Require Import base gmap sets list strings.
From Stdlib Require Import ZArith Lia.
From S2P Require Import Prelude Python PyTime Json Mailbox Workflow.

(** The world inside the state of a computation. *)
Class HasWorld (S : Type) := world_of : S → World.
#[export] Instance world_has_world : HasWorld World := λ w, w.
#[export] Instance locals_have_world {L} : HasWorld (World * L) := fst.

Lemma bind_done {S A B} (m : M S A) (k : A → M S B) s a s' :
  m s = (Done a, s') → (m ≫= k) s = k a s'.
Proof. intros E. unfold mbind, M_bind. by rewrite E. Qed.

Section rules.
Context (R : World → World → Prop) `{!PreOrder R}.

Definition tri {S A} `{HasWorld S} (P : S → Prop) (m : M S A) (Q : A → S → Prop) : Prop :=
  ∀ s, P s → R (world_of s) (world_of (snd (m s))) ∧ ∀ a, fst (m s) = Done a → Q a (snd (m s)).

Definition follows {S A} `{HasWorld S} (m : M S A) : Prop := tri (λ _, True) m (λ _ _, True).

Lemma follows_intro {S A} `{HasWorld S} (m : M S A) :
  (∀ s, R (world_of s) (world_of (snd (m s)))) → follows m.
Proof. intros Hm s _. auto. Qed.

Lemma follows_elim {S A} `{HasWorld S} (m : M S A) s :
  follows m → R (world_of s) (world_of (snd (m s))).
Proof. intros Hm. by apply Hm. Qed.

Lemma follows_run {A} (m : WF A) w : follows m → R w (snd (m w)).
Proof. exact (follows_elim m w). Qed.

Lemma tri_bind {S A B} `{HasWorld S} P (m : M S A) Q (k : A → M S B) Q' :
  tri P m Q → (∀ a, tri (Q a) (k a) Q') → tri P (m ≫= k) Q'.
Proof.
  intros Hm Hk s HP. destruct (Hm s HP) as [HR HQ]. unfold mbind, M_bind.
  destruct (m s) as [[a|e|on|] s'] eqn:E; cbn in *; try (split; [done|by intros ? [=]]).
  destruct (Hk a s' (HQ a eq_refl)) as [HR' HQ']. split; [by etrans|done].
Qed.

Lemma tri_weaken {S A} `{HasWorld S} (P P' : S → Prop) (m : M S A) (Q Q' : A → S → Prop) :
  tri P' m Q' → (∀ s, P s → P' s) → (∀ a s, Q' a s → Q a s) → tri P m Q.
Proof. intros Hm HP HQ s Hs. destruct (Hm s (HP s Hs)) as [? H2]. eauto. Qed.

Lemma tri_follows {S A} `{HasWorld S} (P : S → Prop) (m : M S A) :
  follows m → tri P m (λ _ _, True).
Proof. intros Hm. by eapply tri_weaken. Qed.

Lemma tri_ret {S A} `{HasWorld S} (P : S → Prop) (a : A) :
  tri P (mret a) (λ a' s, a' = a ∧ P s).
Proof. intros s HP. cbn. split; [done|]. intros a' [= <-]. done. Qed.

Lemma follows_bind {S A B} `{HasWorld S} (m : M S A) (k : A → M S B) :
  follows m → (∀ a, follows (k a)) → follows (m ≫= k).
Proof. intros Hm Hk. eapply tri_bind; [exact Hm|]. intros a. apply Hk. Qed.

Lemma follows_ret {S A} `{HasWorld S} (a : A) : follows (S:=S) (mret a).
Proof. apply follows_intro. done. Qed.
Lemma follows_throw {S A} `{HasWorld S} e : follows (S:=S) (A:=A) (throw e).
Proof. apply follows_intro. done. Qed.
Lemma follows_out_of_fuel {S A} `{HasWorld S} : follows (S:=S) (A:=A) out_of_fuel.
Proof. apply follows_intro. done. Qed.
Lemma follows_read {S A} `{HasWorld S} (o : option A) : follows (S:=S) (read o).
Proof. destruct o; [apply follows_ret|apply follows_throw]. Qed.
Lemma follows_self : follows self.
Proof. apply follows_intro. done. Qed.
Lemma follows_now : follows now.
Proof. apply follows_intro. done. Qed.
Lemma follows_suggested : follows is_continue_as_new_suggested.
Proof. apply follows_intro. done. Qed.

Lemma follows_try {S A} `{HasWorld S} (m : M S A) h :
  follows m → (∀ e, follows (h e)) → follows (try_activity m h).
Proof.
  intros Hm Hh. apply follows_intro. intros s. unfold try_activity.
  pose proof (follows_elim m s Hm) as HR. destruct (m s) as [[a|[e| | |]|on|] s']; cbn in *; try done.
  etrans; [exact HR|]. apply (follows_elim _ s' (Hh e)).
Qed.

Lemma follows_with_locals {L A} (l : L) (m : M (World * L) A) :
  follows m → follows (with_locals l m).
Proof.
  intros Hm. apply follows_intro. intros w. unfold with_locals.
  pose proof (follows_elim m (w, l) Hm) as HR. destruct (m (w, l)) as [r [w' l']]. exact HR.
Qed.

Lemma tri_lift {L A} (P : World → Prop) (m : WF A) (Q : A → World → Prop) :
  tri P m Q → tri (λ sl : World * L, P (fst sl)) (lift m) (λ a sl, Q a (fst sl)).
Proof.
  intros Hm [w l] HP. destruct (Hm w HP) as [HR HQ]. unfold lift. cbn in *.
  destruct (m w) as [r w']. cbn in *. auto.
Qed.

Lemma follows_lift {L A} (m : WF A) : follows m → follows (S:=World * L) (lift m).
Proof. intros Hm. exact (tri_lift (L:=L) _ _ _ Hm). Qed.

Lemma follows_local {L} : follows (S:=World * L) local.
Proof. apply follows_intro. done. Qed.
Lemma follows_set_local {L} (f : L → L) : follows (S:=World * L) (set_local f).
Proof. apply follows_intro. done. Qed.

Lemma follows_loop {S A} `{HasWorld S} fuel (body : M S (option A)) :
  follows body → follows (loop fuel body).
Proof.
  intros Hb. induction fuel as [|fuel IH]; [apply follows_out_of_fuel|]. cbn.
  apply follows_bind; [done|]. intros [a|]; [apply follows_ret|done].
Qed.

Lemma follows_while {A} (body : WF (option A)) : follows body → follows (while_true body).
Proof.
  intros Hb. apply follows_intro. intros w. unfold while_true.
  apply (follows_elim (loop (S (length (w_script w))) body) w), follows_loop, Hb.
Qed.

(** An assignment to the attributes that [R] admits. *)
Definition admits (f : Mailbox → Mailbox) : Prop := ∀ w, R w (w <| w_state ::= f |>).

Lemma follows_update f : admits f → follows (update f).
Proof. intros Hf. apply follows_intro. apply Hf. Qed.

(** The effects of the runtime that [R] admits. *)
Class Runtime : Prop := {
  rt_uuid4 : ∀ w, R w (w <| w_drawn ::= S |>);
  rt_activate : ∀ w v script, w_script w = v :: script → R w (activate v w <| w_script := script |>);
}.
Context `{!Runtime}.

Lemma follows_uuid4 : follows uuid4.
Proof. apply follows_intro. intros w. apply rt_uuid4. Qed.

Lemma follows_await {A} on (resume : option Resolution → Mailbox → option A) :
  follows (await on resume).
Proof.
  apply follows_intro. intros w. unfold await.
  assert (∀ script w, w_script w = script → R w (snd (await_script on resume script w))) as Hs;
    [|by apply Hs].
  clear w. induction script as [|v script IH]; intros w Hw; cbn.
  - destruct w; cbn in *; by subst.
  - pose proof (rt_activate w v script Hw) as HR. case_match; [done|].
    etrans; [exact HR|]. by apply IH.
Qed.

Lemma follows_sleep : follows sleep.
Proof. apply follows_await. Qed.

Lemma follows_wait pred timeout : follows (wait_condition pred timeout).
Proof.
  apply follows_bind; [apply follows_self|]. intros s.
  destruct (pred s); [apply follows_ret|apply follows_await].
Qed.

(** [R] admits that activity [a] is called from a world where [P] holds. *)
Definition callable (P : World → Prop) (a : Activity) : Prop :=
  ∀ w, P w → R w (w <| w_log ::= λ l, l ++ [(a, w_state w)] |>).

Lemma tri_call P a : callable P a → tri P (execute_activity a) (λ _ _, True).
Proof.
  intros Hc. eapply (tri_bind P (log_call a) (λ _ _, True)); [intros w HP; by split; [apply Hc|]|].
  intros _. apply follows_bind; [apply follows_await|].
  intros [d|e]; [apply follows_ret|apply follows_throw].
Qed.

Lemma follows_call a : callable (λ _, True) a → follows (execute_activity a).
Proof. apply tri_call. Qed.

End rules.

Create HintDb workflow.
#[export] Hint Resolve follows_bind follows_ret follows_throw follows_out_of_fuel follows_read
  follows_self follows_now follows_suggested follows_try follows_with_locals follows_lift
  follows_local follows_set_local follows_loop follows_while follows_update follows_uuid4
  follows_await follows_sleep follows_wait follows_call : workflow.

(** Walk through a computation by the rules. *)
Ltac follow :=
  repeat first
    [ progress intros
    | match goal with
      | |- follows _ (match ?x with _ => _ end) => destruct x
      | |- follows _ (if ?b then _ else _) => destruct b
      | |- follows _ (mbind _ _) => apply follows_bind
      end
    | solve [auto 6 with workflow typeclass_instances]
    | apply follows_try | apply follows_lift | apply follows_with_locals | apply follows_while | apply follows_loop ].
