(* ===== verification/MailboxFacts.v ===== *)
(** * Properties of the mailbox workflow *)

From stdpp Require Import base gmap sets list strings pretty.
From Stdlib Require Import ZArith Lia.
From S2P Require Import Prelude Python PyTime Json Contracts Mailbox Workflow Continuation MailboxRun Triples.

(** ** What a turn does, as effects *)

Definition preempted (w : World) : Prop := _lifecycle_preemption_pending (w_state w) = true.

(** The calls that make a decision durable. *)
Definition is_persist (a : Activity) : bool :=
  match a with persist_agent_actions _ _ | persist_process_state _ _ => true | _ => false end.

(** [R] admits the effects of a turn that do not persist its decision. *)
Class StepEffects (R : World → World → Prop) : Prop := {
  te_order :: PreOrder R;
  te_runtime :: Runtime R;
  te_start : admits R (λ s, s <| _turn_in_progress := true |>);
  te_finish : ∀ w, R w (finish_turn w);
  te_add_pending : ∀ id, admits R (_add_pending_action id);
  te_remove_pending : ∀ id, admits R (_remove_pending_action id);
  te_turn_record : ∀ r, admits R (append_turn_record r);
  te_execution_record : ∀ r, admits R (append_execution_record r);
  te_install : ∀ p, admits R (install_wake_plan p);
  te_close : admits R close;
  te_call : ∀ a, is_persist a = false → callable R (λ _, True) a;
}.

(** [R] admits every effect of a turn; a decision is persisted only while no
    lifecycle control pre-empts the turn. *)
Class TurnEffects (R : World → World → Prop) : Prop := {
  te_steps :: StepEffects R;
  te_persist : ∀ a, is_persist a = true → callable R (λ w, ¬ preempted w) a;
}.
#[export] Hint Resolve te_start te_add_pending te_remove_pending te_turn_record
  te_execution_record te_install te_close te_call : workflow.

Lemma check_preempted_eq x b w l :
  check_preempted x b (w, l) =
  if _lifecycle_preemption_pending (w_state w) then
    (Done true,
     (w <| w_state ::= _record_preempted_turn (tc_turn_id x) (tc_sources x) (tl_decision_json l)
        (tl_actions_json l) (if b then Some (JArr (tl_execution_results l)) else None) |>, l))
  else (Done false, (w, l)).
Proof.
  unfold check_preempted, lift, local, self, mbind, M_bind. cbn.
  destruct (_lifecycle_preemption_pending (w_state w)); reflexivity.
Qed.

Lemma run_turn_eq fuel src depth w :
  run_turn (S fuel) src depth w =
  match _process_definition_id (w_state w), _process_definition_version (w_state w) with
  | Some id, Some v => single_turn (λ src, run_turn fuel src (S depth)) depth src id v w
  | _, _ => (Done tt, w)
  end.
Proof.
  cbn [run_turn]. unfold mbind, M_bind, self.
  destruct (_process_definition_id _); [destruct (_process_definition_version _)|]; reflexivity.
Qed.

Section steps.
Context (R : World → World → Prop) `{!StepEffects R}.

Lemma follows_intervention i t k et e src : follows R (_record_intervention i t k et e src).
Proof. unfold _record_intervention. follow. Qed.

Lemma follows_append_execution id rev res err : follows R (append_execution id rev res err).
Proof. unfold append_execution. follow. Qed.
Hint Resolve follows_intervention follows_append_execution : workflow.

Lemma follows_suspension ty call : follows R call → follows R (suspension_retry ty call).
Proof. intros. unfold suspension_retry. follow. Qed.
Hint Resolve follows_suspension : workflow.

Lemma follows_reconcile call result : follows R (reconcile_unknown call result).
Proof. unfold reconcile_unknown. follow. Qed.
Hint Resolve follows_reconcile : workflow.

Lemma follows_execute_pending id rev : follows R (_execute_pending_action id rev).
Proof. unfold _execute_pending_action. follow. Qed.
Hint Resolve follows_execute_pending : workflow.

Lemma follows_apply_outcome res d : follows R (_apply_turn_outcome res d).
Proof. unfold _apply_turn_outcome. follow. Qed.
Hint Resolve follows_apply_outcome : workflow.

Lemma tri_check_preempted x b :
  tri R (λ _, True) (check_preempted x b) (λ r sl, r = false → ¬ preempted (fst sl)).
Proof.
  intros [w l] _. rewrite check_preempted_eq. unfold preempted.
  destruct (_lifecycle_preemption_pending (w_state w)) eqn:E; cbn.
  - split; [apply (te_turn_record _ w)|by intros ? [= <-]].
  - split; [reflexivity|]. intros ? [= <-] _. by rewrite E.
Qed.

Lemma follows_check_preempted x b : follows R (check_preempted x b).
Proof. eapply tri_weaken; [apply tri_check_preempted|done|done]. Qed.
Hint Resolve follows_check_preempted : workflow.

Lemma follows_run_actions x items b : follows R (run_actions x items b).
Proof. revert b. induction items as [|item items IH]; intros b; cbn [run_actions]; follow. Qed.
Hint Resolve follows_run_actions : workflow.

Lemma follows_finish_actions follow_up d x res b :
  (∀ src, follows R (follow_up src)) → follows R (finish_actions follow_up d x res b).
Proof. intros. unfold finish_actions. follow. Qed.
Hint Resolve follows_finish_actions : workflow.

Lemma follows_turn_handler x e : follows R (turn_handler x e).
Proof. unfold turn_handler. follow. Qed.

Lemma follows_finally {A} (m : WF A) f :
  (∀ w, R w (f w)) → follows R m → follows R (finally m f).
Proof.
  intros Hf Hm. apply follows_intro. intros w. unfold finally.
  pose proof (follows_elim R m w Hm) as HR. destruct (m w) as [[a|e|on|] w']; cbn in *; try done;
  (etrans; [exact HR|apply Hf]).
Qed.
End steps.
#[export] Hint Resolve follows_intervention follows_append_execution follows_suspension
  follows_reconcile follows_execute_pending follows_apply_outcome follows_check_preempted
  follows_run_actions follows_finish_actions follows_turn_handler : workflow.

Section turn.
Context (R : World → World → Prop) `{!TurnEffects R}.

(** What follows a check for pre-emption may persist. *)
Lemma follows_checked {A} x b (k : Turn A) (stop : Turn A) :
  follows R stop → tri R (λ sl, ¬ preempted (fst sl)) k (λ _ _, True) →
  follows R (p ← check_preempted x b; if (p : bool) then stop else k).
Proof.
  intros Hs Hk. eapply tri_bind; [apply _|apply (tri_check_preempted R)|]. intros [].
  - by apply tri_follows.
  - eapply tri_weaken; [exact Hk| |done]. cbn. auto.
Qed.

Lemma tri_persist a : is_persist a = true →
  tri R (λ sl : World * TurnLocals, ¬ preempted (fst sl)) (lift (execute_activity a)) (λ _ _, True).
Proof.
  intros Ha. exact (tri_lift R (L:=TurnLocals) (λ w, ¬ preempted w) _ (λ _ _, True)
    (tri_call R (λ w, ¬ preempted w) a (te_persist a Ha))).
Qed.

Lemma follows_turn_body follow_up d x :
  (∀ src, follows R (follow_up src)) → follows R (turn_body follow_up d x).
Proof.
  intros. unfold turn_body. apply follows_bind; [apply _|follow|]. intros [doc|]; [|follow].
  apply follows_bind; [apply _|follow|]. intros _.
  apply follows_checked; [follow|].
  eapply tri_bind; [apply _|by apply tri_persist|]. intros actions_json. cbn beta.
  apply follows_bind; [apply _|follow|]. intros _.
  apply follows_checked; [follow|].
  eapply tri_bind; [apply _|by apply tri_persist|]. intros res. cbn beta.
  enough (follows R (S:=World * TurnLocals) (items ← read (json_items actions_json);
    r ← run_actions x items false;
    match r with
    | None => mret tt
    | Some b => p ← check_preempted x true;
        if (p : bool) then mret tt else finish_actions follow_up d x res b
    end)) as Hk; [exact Hk|follow].
Qed.
Hint Resolve follows_turn_body : workflow.

Lemma follows_single_turn follow_up d src id v :
  (∀ src, follows R (follow_up src)) → follows R (single_turn follow_up d src id v).
Proof.
  intros. unfold single_turn. do 4 (apply follows_bind; [apply _|follow|]; intros ?).
  apply follows_finally; [apply _|apply te_finish|]. follow.
Qed.
Hint Resolve follows_single_turn : workflow.

Lemma follows_run_turn fuel src depth : follows R (run_turn fuel src depth).
Proof. revert src depth. induction fuel as [|fuel IH]; intros src depth; cbn [run_turn]; follow. Qed.

Lemma follows_turn src : follows R (_run_turn src).
Proof. apply follows_run_turn. Qed.
End turn.
#[export] Hint Resolve follows_turn : workflow.

(** ** What a round of the loop does, as effects *)

(** [R] admits taking an item out of a buffer, and waking on a buffered event. *)
Class LoopEffects (R : World → World → Prop) : Prop := {
  le_turn :: TurnEffects R;
  le_started : admits R set_started;
  le_clear : admits R _clear_wake_plan;
  le_pop_resolution : admits R take_resolution;
  le_pop_control : admits R take_control;
  le_wake_event : ∀ reason i e w, _buffered_events (w_state w) !! i = Some e →
    R w (snd (wake_on_event reason i e w));
  le_wake_review : ∀ r rs w, _buffered_reviews (w_state w) = r :: rs →
    R w (snd (wake_on_review r w));
  le_wake_other : ∀ r, wr_event_id r = None → wr_review_command_id r = None →
    admits R (append_wake_record r);
}.
#[export] Hint Resolve le_started le_clear le_pop_resolution le_pop_control : workflow.

Lemma wake_on_event_eq reason i e w :
  wake_on_event reason i e w =
  (Done tt, w <| w_state ::= λ s,
     append_wake_record (mkWakeRecord reason (Some (me_event_id e)) (Some (me_event_type e)) None
        (utc (w_now w)) None None)
       (set_started (s <| _buffered_events ::= pop_at i |>)) |>).
Proof. reflexivity. Qed.

Lemma wake_on_review_eq r w :
  wake_on_review r w =
  (Done tt, w <| w_state ::= λ s,
     append_wake_record (mkWakeRecord "review" None None None (utc (w_now w))
        (Some (mr_command_id r)) (Some (mr_command_type r)))
       (set_started (s <| _buffered_reviews ::= pop_at 0 |>)) |>).
Proof. reflexivity. Qed.

Lemma event_at_Some index s i e : event_at index s = Some (i, e) → index = Some i ∧ _buffered_events s !! i = Some e.
Proof.
  unfold event_at. intros (j & -> & Hj)%bind_Some. apply bind_Some in Hj as (e' & He & [= -> ->]). done.
Qed.

Lemma starting_event_Some s i e : starting_event s = Some (i, e) →
  _started s = false ∧ _wake_plan s = None ∧ _buffered_events s !! i = Some e.
Proof.
  unfold starting_event. destruct (_started s); [done|]. case_bool_decide; [|done].
  intros [_ ?]%event_at_Some. done.
Qed.

Definition must_continue (w : World) : bool :=
  negb (_turn_in_progress (w_state w))
  && ((_continue_as_new_after_turns (w_state w) <=? _turns_since_continue (w_state w))%Z
      || w_suggested w).

Lemma loop_body_eq w : loop_body w =
  if must_continue w then (Throw (ContinueAsNew (_continuation_input (w_state w))), w)
  else choose_work (w_state w) (w_now w) w.
Proof.
  unfold loop_body, _should_continue_as_new, must_continue, mbind, M_bind. cbn.
  destruct (_turn_in_progress (w_state w)); cbn; [done|].
  by destruct (_ || _).
Qed.

Section loop.
Context (R : World → World → Prop) `{!LoopEffects R}.

Lemma follows_record_wake reason timer : follows R (record_wake reason None timer None).
Proof. unfold record_wake. follow. by apply follows_update, le_wake_other. Qed.
Hint Resolve follows_record_wake : workflow.

Lemma follows_act_on_review r : follows R (act_on_review r).
Proof. unfold act_on_review. follow. Qed.
Lemma follows_handle_review r rs w : _buffered_reviews (w_state w) = r :: rs →
  R w (snd (handle_review r w)).
Proof.
  intros Hr. etrans; [exact (le_wake_review r rs w Hr)|].
  exact (follows_run R _ (snd (wake_on_review r w)) (follows_act_on_review r)).
Qed.
Lemma follows_act_on_resolution r : follows R (act_on_resolution r).
Proof. unfold act_on_resolution. follow. Qed.
Lemma follows_act_on_control c : follows R (act_on_control c).
Proof. unfold act_on_control. follow. Qed.
Hint Resolve follows_act_on_resolution follows_act_on_control : workflow.
Lemma follows_handle_resolution r : follows R (handle_resolution r).
Proof. unfold handle_resolution. follow. Qed.
Lemma follows_handle_control c : follows R (handle_control c).
Proof. unfold handle_control. follow. Qed.
Lemma follows_handle_timer s : follows R (handle_timer s).
Proof. unfold handle_timer. follow. Qed.
Lemma follows_wait_for_wake : follows R wait_for_wake.
Proof. unfold wait_for_wake. follow. Qed.
Hint Resolve follows_handle_resolution follows_handle_control
  follows_handle_timer follows_wait_for_wake : workflow.

(** An event branch of the loop. *)
Lemma follows_event_branch reason i e w (k : WF unit) :
  _buffered_events (w_state w) !! i = Some e → follows R k →
  R w (snd ((_ ← wake_on_event reason i e; k) w)).
Proof.
  intros Hi Hk. etrans; [apply (le_wake_event reason i e w Hi)|]. apply (follows_elim R k _ Hk).
Qed.

Lemma follows_choose_work w : R w (snd (choose_work (w_state w) (w_now w) w)).
Proof.
  unfold choose_work. destruct (starting_event (w_state w)) as [[i e]|] eqn:Es.
  { apply starting_event_Some in Es as (_ & _ & Hi). apply follows_event_branch; [done|follow]. }
  destruct (_buffered_reviews _) as [|r rs] eqn:Er; [|by eapply follows_handle_review].
  destruct (_buffered_action_resolutions _); [|apply (follows_run R); follow].
  destruct (_buffered_controls _); [|apply (follows_run R); follow].
  destruct (event_at (_manual_wake_event_index _) _) as [[i e]|] eqn:Em.
  { apply event_at_Some in Em as [_ Hi]. apply follows_event_branch; [done|follow]. }
  destruct (event_at (_matching_event_index _) _) as [[i e]|] eqn:Ee.
  { apply event_at_Some in Ee as [_ Hi]. apply follows_event_branch; [done|follow]. }
  apply (follows_run R); follow.
Qed.

Lemma follows_loop_body : follows R loop_body.
Proof.
  apply follows_intro. intros w. rewrite loop_body_eq.
  destruct (must_continue w); [reflexivity|apply follows_choose_work].
Qed.
Hint Resolve follows_loop_body : workflow.

Lemma follows_main_loop : follows R main_loop.
Proof.
  apply follows_intro. intros w. unfold main_loop.
  refine (follows_elim R (loop (S (rounds_bound w)) _) w _). follow.
Qed.
End loop.
