(* ===== verification/MailboxTurns.v ===== *)
(** * Turns: what they persist, how they end, what they leave *)

From stdpp Require Import base gmap sets list strings pretty.
From Stdlib Require Import ZArith Lia.
From S2P Require Import Prelude Python PyTime Json Contracts Mailbox Workflow Continuation MailboxRun Triples MailboxFacts.

#[local] Open Scope string_scope.

(** ** Relations on the log of activity calls *)

(** The log grew by calls that satisfy [ok]. *)
Definition logs_only (ok : Activity * Mailbox → Prop) (w w' : World) : Prop :=
  ∃ new, w_log w' = (w_log w ++ new)%list ∧ Forall ok new.

Lemma logs_only_same ok w w' : w_log w' = w_log w → logs_only ok w w'.
Proof. intros E. exists []. by rewrite app_nil_r. Qed.
#[local] Hint Resolve logs_only_same : core.

#[export] Instance logs_only_preorder ok : PreOrder (logs_only ok).
Proof.
  split; [intros w; by apply logs_only_same|].
  intros w1 w2 w3 (n1 & E1 & F1) (n2 & E2 & F2). exists (n1 ++ n2)%list.
  split; [by rewrite E2, E1, app_assoc|by apply Forall_app].
Qed.

(** The relation of a run whose calls all satisfy [ok]: any assignment is
    admitted, and the calls a turn makes. *)
Lemma logs_only_steps ok :
  (∀ a s, is_persist a = false → ok (a, s)) → StepEffects (logs_only ok).
Proof.
  intros Ho. constructor; try (intros; intro; by apply logs_only_same); try apply _.
  - constructor; intros; by apply logs_only_same.
  - intros w. by apply logs_only_same.
  - intros a Ha w _. exists [(a, w_state w)]. split; [done|]. by constructor; [apply Ho|].
Qed.

Lemma logs_only_turn ok :
  (∀ a s, is_persist a = false → ok (a, s)) →
  (∀ a s, is_persist a = true → _lifecycle_preemption_pending s = false → ok (a, s)) →
  TurnEffects (logs_only ok).
Proof.
  intros Ho Hp. constructor; [by apply logs_only_steps|].
  - intros a Ha w Hw. exists [(a, w_state w)]. split; [done|].
    constructor; [|done]. apply Hp; [done|]. by apply not_true_is_false.
Qed.

Lemma logs_only_loop ok : TurnEffects (logs_only ok) → LoopEffects (logs_only ok).
Proof. intros. constructor; try apply _; intros; try intro; by apply logs_only_same. Qed.

Lemma follows_process_run R `{!LoopEffects R} input :
  (∀ f, admits R f) → follows R (run input).
Proof.
  intros Hf. unfold run. apply follows_bind; [apply _|follow|]. intros _.
  apply follows_bind; [apply _|follow|]. intros s.
  apply follows_bind; [apply _|destruct (_restore_continuation _ _); follow|]. intros _.
  apply follows_bind; [apply _|apply follows_main_loop, _|]. follow.
Qed.

Definition unpreempted_persist (c : Activity * Mailbox) : Prop :=
  is_persist (fst c) = true → _lifecycle_preemption_pending (snd c) = false.

(** C21: whatever signals arrive and however activities answer, a run persists the
    actions or the state of a decision only in a state where no takeover is
    buffered and the process is not closed: a lifecycle control that reached the
    mailbox supersedes the turn. *)
Theorem decisions_persist_only_unpreempted input w :
  ∃ calls, w_log (snd (run input w)) = (w_log w ++ calls)%list ∧ Forall unpreempted_persist calls.
Proof.
  assert (LoopEffects (logs_only unpreempted_persist)).
  { apply logs_only_loop, logs_only_turn; unfold unpreempted_persist; cbn; [congruence|auto]. }
  apply (follows_run (logs_only unpreempted_persist) (run input)), follows_process_run; [apply _|].
  intros f w'. by apply logs_only_same.
Qed.

(** ** The chain of follow-up turns is bounded *)

Definition persists_actions (a : Activity) : bool :=
  match a with persist_agent_actions _ _ => true | _ => false end.

(** How many decisions had their actions persisted. *)
Definition decisions_persisted (w : World) : nat :=
  length (List.filter persists_actions (fst <$> w_log w)).

(** [m] persists the actions of at most [n] decisions. *)
Definition costs {S A} `{HasWorld S} (n : nat) (m : M S A) : Prop :=
  ∀ s, (decisions_persisted (world_of (snd (m s))) ≤ decisions_persisted (world_of s) + n)%nat.

Definition no_actions (c : Activity * Mailbox) : Prop := persists_actions (fst c) = false.

Lemma logs_no_actions w w' : logs_only no_actions w w' → decisions_persisted w' = decisions_persisted w.
Proof.
  intros (new & E & Hn). unfold decisions_persisted. rewrite E, fmap_app, List.filter_app, length_app.
  enough (List.filter persists_actions (fst <$> new) = []) as ->; [apply Nat.add_0_r|].
  clear E. induction Hn as [|c new Hc _ IH]; [done|].
  rewrite fmap_cons. cbn [List.filter]. by rewrite Hc.
Qed.

Lemma costs_follows {S A} `{HasWorld S} n (m : M S A) : follows (logs_only no_actions) m → costs n m.
Proof.
  intros Hm s. rewrite (logs_no_actions (world_of s) _); [lia|]. by apply follows_elim.
Qed.

Lemma costs_bind {S A B} `{HasWorld S} a b (m : M S A) (k : A → M S B) :
  costs a m → (∀ x, costs b (k x)) → costs (a + b) (m ≫= k).
Proof.
  intros Hm Hk s. specialize (Hm s). unfold mbind, M_bind.
  destruct (m s) as [[x|e|on|] s']; cbn in *; [specialize (Hk x s')|..]; lia.
Qed.

(** A step of no cost in front. *)
Lemma costs_then {S A B} `{HasWorld S} n (m : M S A) (k : A → M S B) :
  follows (logs_only no_actions) m → (∀ x, costs n (k x)) → costs n (m ≫= k).
Proof. intros Hm. apply (costs_bind 0 n). by apply costs_follows. Qed.

Lemma costs_try {S A} `{HasWorld S} n (m : M S A) h :
  costs n m → (∀ e, follows (logs_only no_actions) (h e)) → costs n (try_activity m h).
Proof.
  intros Hm Hh s. specialize (Hm s). unfold try_activity.
  destruct (m s) as [[x|[e| | |]|on|] s']; cbn in *; try lia.
  specialize (costs_follows 0 (h e) (Hh e) s'). lia.
Qed.

Lemma costs_finally {A} n (m : WF A) : costs n m → costs n (finally m finish_turn).
Proof.
  intros Hm s. specialize (Hm s). unfold finally. destruct (m s) as [[x|e|on|] s']; exact Hm.
Qed.

Lemma costs_with_locals {L A} n (l : L) (m : M (World * L) A) : costs n m → costs n (with_locals l m).
Proof.
  intros Hm w. specialize (Hm (w, l)). unfold with_locals. destruct (m (w, l)) as [r [w' l']]. exact Hm.
Qed.

Lemma costs_lift {L A} n (m : WF A) : costs n m → costs n (lift (L:=L) m).
Proof.
  intros Hm [w l]. specialize (Hm w). unfold lift. cbn in *. destruct (m w) as [r w']. exact Hm.
Qed.

Lemma costs_persist a : costs 1 (execute_activity a).
Proof.
  intros w. unfold execute_activity.
  enough (follows (logs_only no_actions)
    (r ← await (OnActivity a) (λ r _, match r with Some (ActivityResolved r) => Some r | _ => None end);
     match r with Completed d => mret d | Failed e => throw (ActivityFailed e) end)) as Hk.
  - pose proof (costs_follows 0 _ Hk (w <| w_log ::= λ l, (l ++ [(a, w_state w)])%list |>)) as Hc.
    etrans; [exact Hc|]. rewrite Nat.add_0_r. unfold decisions_persisted.
    change (w_log (world_of (w <| w_log ::= λ l, (l ++ [(a, w_state w)])%list |>)))
      with (w_log w ++ [(a, w_state w)])%list.
    rewrite fmap_app, List.filter_app, length_app. apply Nat.add_le_mono_l.
    cbn. destruct (persists_actions a); cbn; lia.
  - apply follows_bind; [apply _| |intros []; follow].
    apply follows_await; [apply _|]. constructor; intros; by apply logs_only_same.
Qed.

#[local] Instance no_actions_steps : StepEffects (logs_only no_actions).
Proof. apply logs_only_steps. unfold no_actions. by intros [] s. Qed.

Lemma no_actions_state x d : follows (logs_only no_actions) (execute_activity (persist_process_state x d)).
Proof.
  apply follows_call; [apply _..|]. intros w _. exists [(persist_process_state x d, w_state w)].
  by repeat constructor.
Qed.
#[local] Hint Resolve no_actions_state : workflow.

Lemma costs_finish n follow_up depth x res b :
  ((depth < 5)%nat → ∀ src, costs n (follow_up src)) → costs n (finish_actions follow_up depth x res b).
Proof.
  intros Hf. unfold finish_actions. do 2 (apply costs_then; [follow|]; intros ?).
  apply costs_then; [follow|]. intros ?. apply costs_lift, costs_then; [follow|]. intros _.
  case_match; cbn [andb]; [|apply costs_follows; follow].
  destruct (Nat.leb_spec 5 depth); cbn [negb]; [apply costs_follows; follow|by apply Hf].
Qed.

Lemma costs_turn_body n follow_up depth x :
  ((depth < 5)%nat → ∀ src, costs n (follow_up src)) → costs (1 + n) (turn_body follow_up depth x).
Proof.
  intros Hf. unfold turn_body. apply costs_then; [follow|]. intros [doc|]; [|apply costs_follows; follow].
  do 2 (apply costs_then; [follow|]; intros ?). case_if; [apply costs_follows; follow|].
  apply costs_bind; [apply costs_lift, costs_persist|]. intros actions.
  do 2 (apply costs_then; [follow|]; intros ?). case_if; [apply costs_follows; follow|].
  do 3 (apply costs_then; [follow|]; intros ?). case_match; [|apply costs_follows; follow].
  apply costs_then; [follow|]. intros ?. case_if; [apply costs_follows; follow|].
  by apply costs_finish.
Qed.

(** The chain limit, not the fuel, is what bounds the chain. *)
Lemma costs_run_turn fuel src depth : (depth <= 5)%nat → costs (6 - depth) (run_turn fuel src depth).
Proof.
  revert src depth. induction fuel as [|fuel IH]; intros src depth Hd; cbn [run_turn];
    [apply costs_follows; follow|].
  apply costs_then; [follow|]. intros s. case_match; [|apply costs_follows; follow].
  case_match; [|apply costs_follows; follow]. unfold single_turn.
  do 4 (apply costs_then; [follow|]; intros ?).
  apply costs_finally, costs_with_locals, costs_try; [|follow].
  replace (6 - depth)%nat with (1 + (5 - depth))%nat by lia.
  apply costs_turn_body. intros Hlt src'. replace (5 - depth)%nat with (6 - S depth)%nat by lia.
  apply IH. lia.
Qed.

(** C22: one wake starts a chain of at most six turns: however the agent decides and
    however its actions end, a turn and the turns on its action results, followed
    for as long as the chain limit lets them, persist the actions of at most six
    decisions before they hand over to an operator, a wake condition or the end. *)
Theorem action_chain_is_bounded fuel src w :
  (decisions_persisted (snd (run_turn fuel src 0 w)) ≤ decisions_persisted w + 6)%nat.
Proof. apply (costs_run_turn fuel src 0). lia. Qed.

(** ** The ordering contract *)

(** Turns and waits leave the wake records alone. *)
Definition same_wakes (w w' : World) : Prop := _wake_records (w_state w') = _wake_records (w_state w).

#[export] Instance same_wakes_preorder : PreOrder same_wakes.
Proof. split; [by intros w|]. unfold same_wakes. intros ???. congruence. Qed.

Lemma signals_wakes sigs s : _wake_records (handle_signals sigs s) = _wake_records s.
Proof.
  unfold handle_signals. revert s. induction sigs as [|sig sigs IH]; intros s; [done|]. cbn.
  rewrite IH. destruct sig; cbn; unfold receive_event, receive_review, receive_action_resolution,
    receive_control; by try case_bool_decide.
Qed.

#[export] Instance same_wakes_runtime : Runtime same_wakes.
Proof. constructor; [done|]. intros w v script _. apply signals_wakes. Qed.
#[export] Instance same_wakes_turn : TurnEffects same_wakes.
Proof.
  constructor; [constructor; try apply _; intros; try intro; try done|by intros a _ w _].
  unfold same_wakes, _add_pending_action. cbn. by case_bool_decide.
Qed.

(** The sources of work in the order of the contract, each with its test. *)
Definition sources_ready : list (Mailbox → bool) :=
  [λ s, bool_decide (is_Some (starting_event s));
   λ s, bool_decide (_buffered_reviews s ≠ []);
   λ s, bool_decide (_buffered_action_resolutions s ≠ []);
   λ s, bool_decide (_buffered_controls s ≠ []);
   λ s, existsb is_manual_wake (_buffered_events s);
   λ s, existsb (λ e, match _wake_plan s with Some p => plan_matches p e | None => false end)
          (_buffered_events s)].

(** How many sources go before a wake with this reason. *)
Definition goes_after (reason : string) : nat :=
  if bool_decide (reason = "process_started") then 0
  else if bool_decide (reason = "review") then 1
  else if bool_decide (reason = "operator_manual_wake") then 4
  else if bool_decide (reason = "event") then 5
  else 6.

Definition in_order (s : Mailbox) (r : WakeRecord) : Prop :=
  Forall (λ ready, ready s = false) (take (goes_after (wr_reason r)) sources_ready).

Definition wakes_added (ok : WakeRecord → Prop) (w w' : World) : Prop :=
  ∃ rs, _wake_records (w_state w') = (_wake_records (w_state w) ++ rs)%list
        ∧ (length rs ≤ 1)%nat ∧ Forall ok rs.

Lemma no_wake_added ok w w' : same_wakes w w' → wakes_added ok w w'.
Proof. intros E. exists []. rewrite app_nil_r. split_and!; [done|cbn; lia|constructor]. Qed.

Lemma one_wake_added ok r w w1 w' :
  _wake_records (w_state w1) = (_wake_records (w_state w) ++ [r])%list → ok r → same_wakes w1 w' →
  wakes_added ok w w'.
Proof. intros E Hr Hs. exists [r]. rewrite Hs, E. split_and!; [done|cbn; lia|by constructor]. Qed.

Lemma find_index_existsb {A} (p : A → bool) xs : find_index p xs = None → existsb p xs = false.
Proof.
  rewrite find_index_None. induction 1 as [|x xs Hx _ IH]; cbn; [done|]. by rewrite Hx.
Qed.

Lemma event_at_None p s : event_at (find_index p (_buffered_events s)) s = None →
  existsb p (_buffered_events s) = false.
Proof.
  intros H. apply find_index_existsb. destruct (find_index p _) as [i|] eqn:E; [|done].
  unfold event_at in H. cbn in H. apply find_index_Some in E as (e & E & _). by rewrite E in H.
Qed.

Lemma event_branch_wakes ok reason i e (k : WF unit) w :
  ok (mkWakeRecord reason (Some (me_event_id e)) (Some (me_event_type e)) None (utc (w_now w)) None None) →
  follows same_wakes k → wakes_added ok w (snd ((_ ← wake_on_event reason i e; k) w)).
Proof.
  intros Hok Hk. eapply one_wake_added; [|exact Hok|].
  2: exact (follows_run same_wakes k (snd (wake_on_event reason i e w)) Hk).
  by rewrite wake_on_event_eq.
Qed.

Lemma same_wakes_admits f : (∀ s, _wake_records (f s) = _wake_records s) → admits same_wakes f.
Proof. intros Hf w. apply Hf. Qed.
#[local] Hint Resolve same_wakes_admits : workflow.

Lemma no_start_ready s : starting_event s = None → bool_decide (is_Some (starting_event s)) = false.
Proof. intros ->. apply bool_decide_eq_false. by intros [? [=]]. Qed.

Lemma matching_none s : event_at (_matching_event_index s) s = None →
  existsb (λ e, match _wake_plan s with Some p => plan_matches p e | None => false end)
    (_buffered_events s) = false.
Proof.
  unfold _matching_event_index. destruct (_wake_plan s) as [p|]; [apply event_at_None|]. intros _.
  by induction (_buffered_events s).
Qed.

(** The ordering contract: one round of the loop records at most one wake, and
    a wake of a later source only when every earlier source has nothing: the
    start event first, then reviews, action resolutions, lifecycle controls,
    manual wakes, business events that match the wake plan, and the timer. *)
Theorem rounds_keep_the_ordering_contract w :
  wakes_added (in_order (w_state w)) w (snd (loop_body w)).
Proof.
  rewrite loop_body_eq. destruct (must_continue w); [by apply no_wake_added|].
  unfold choose_work. destruct (starting_event (w_state w)) as [[i e]|] eqn:Es.
  { apply event_branch_wakes; [constructor|follow]. }
  pose proof (no_start_ready _ Es) as H0.
  destruct (_buffered_reviews (w_state w)) as [|r rs] eqn:Er.
  2:{ eapply (one_wake_added _ _ w (snd (wake_on_review r w)));
        [by rewrite wake_on_review_eq|by repeat constructor|].
      apply (follows_run same_wakes (act_on_review r)). unfold act_on_review. follow. }
  assert (bool_decide (_buffered_reviews (w_state w) ≠ []) = false) as H1.
  { rewrite Er. by apply bool_decide_eq_false; intros []. }
  destruct (_buffered_action_resolutions (w_state w)) as [|r rs] eqn:Ex.
  2:{ apply no_wake_added, (follows_run same_wakes). unfold handle_resolution, act_on_resolution. follow. }
  assert (bool_decide (_buffered_action_resolutions (w_state w) ≠ []) = false) as H2.
  { rewrite Ex. by apply bool_decide_eq_false; intros []. }
  destruct (_buffered_controls (w_state w)) as [|r rs] eqn:Ek.
  2:{ apply no_wake_added, (follows_run same_wakes). unfold handle_control, act_on_control. follow. }
  assert (bool_decide (_buffered_controls (w_state w) ≠ []) = false) as H3.
  { rewrite Ek. by apply bool_decide_eq_false; intros []. }
  destruct (event_at (_manual_wake_event_index _) _) as [[i e]|] eqn:Em.
  { apply event_branch_wakes; [by repeat constructor|follow]. }
  pose proof (event_at_None _ _ Em) as H4.
  destruct (event_at (_matching_event_index _) _) as [[i e]|] eqn:Ee.
  { apply event_branch_wakes; [by repeat constructor|follow]. }
  pose proof (matching_none _ Ee) as H5.
  unfold read. destruct (timer_is_due _ _) as [[]|]; [| |by apply no_wake_added].
  - apply (one_wake_added _ (mkWakeRecord "timer" None None (_wake_plan (w_state w) ≫= wp_timer_id)
      (utc (w_now w)) None None) w
      (snd ((_ ← update set_started;
             record_wake "timer" None (_wake_plan (w_state w) ≫= wp_timer_id) None) w)));
      [done|by repeat constructor|].
    refine (follows_run same_wakes (_ ← update _clear_wake_plan;
      match _wake_plan (w_state w) ≫= wp_timer_id with
      | Some id => _run_turn (timer_sources id) | None => mret tt end) _ _). follow.
  - rewrite (bind_done _ _ w false w) by done.
    apply no_wake_added, (follows_run same_wakes). unfold wait_for_wake. follow.
Qed.
