(* ===== verification/MailboxMeasure.v ===== *)
(** * The loop of a run makes progress

    Every round of the loop takes a message, clears a timer or uses an
    activation, so that [rounds_bound] bounds the rounds. *)

From stdpp Require Import base gmap sets list strings pretty.
From Stdlib Require Import ZArith Lia.
From S2P Require Import Prelude Python PyTime Json Contracts Mailbox Workflow Continuation MailboxRun Triples MailboxFacts.

#[local] Open Scope nat_scope.

Definition no_more_work (w w' : World) : Prop :=
  work_left w' ≤ work_left w ∧ length (w_script w') ≤ length (w_script w).

#[export] Instance no_more_work_preorder : PreOrder no_more_work.
Proof. split; unfold no_more_work; [intros w|intros w1 w2 w3 [] []]; lia. Qed.

Lemma buffered_signal sig s : buffered (handle_signal sig s) ≤ S (buffered s).
Proof.
  destruct sig; cbn; unfold receive_event, receive_review, receive_action_resolution, receive_control;
    try case_bool_decide; unfold buffered; cbn; rewrite ?length_app; cbn; lia.
Qed.

Lemma buffered_signals sigs s : buffered (handle_signals sigs s) ≤ length sigs + buffered s.
Proof.
  unfold handle_signals. revert s. induction sigs as [|sig sigs IH]; intros s; [done|].
  cbn [fold_left length]. etrans; [apply IH|]. pose proof (buffered_signal sig s). lia.
Qed.

Lemma activation_uses v script w : w_script w = v :: script →
  work_left (activate v w <| w_script := script |>) + 2 ≤ work_left w.
Proof.
  intros E. unfold work_left. rewrite E. cbn.
  pose proof (buffered_signals (av_signals v) (w_state w)). lia.
Qed.

#[export] Instance no_more_work_runtime : Runtime no_more_work.
Proof.
  constructor.
  - intros w. split; reflexivity.
  - intros w v script E. split; [pose proof (activation_uses v script w E); lia|].
    rewrite E. cbn. lia.
Qed.

Lemma no_more_work_admits f : (∀ s, buffered (f s) ≤ buffered s) → admits no_more_work f.
Proof. intros Hf w. split; [|done]. unfold work_left. cbn. specialize (Hf (w_state w)). lia. Qed.

Lemma length_pop_at {A} i (xs : list A) : length (pop_at i xs) ≤ length xs.
Proof. unfold pop_at. rewrite length_app, length_take, length_drop. lia. Qed.

#[export] Instance no_more_work_steps : StepEffects no_more_work.
Proof.
  constructor; try apply _; intros; try (by apply no_more_work_admits); try (intros w ?; done).
  apply no_more_work_admits. intros s. unfold _add_pending_action. by case_bool_decide.
Qed.
#[export] Instance no_more_work_turn : TurnEffects no_more_work.
Proof. constructor; [apply _|]. intros a _ w _. by split. Qed.
#[export] Instance no_more_work_loop : LoopEffects no_more_work.
Proof.
  constructor; try apply _; intros; try (by apply no_more_work_admits);
    try (apply no_more_work_admits; intros s; unfold buffered; cbn;
         pose proof (length_pop_at 0 (_buffered_action_resolutions s));
         pose proof (length_pop_at 0 (_buffered_controls s)); lia).
  - rewrite wake_on_event_eq. apply no_more_work_admits. intros s. unfold buffered. cbn.
    pose proof (length_pop_at i (_buffered_events s)). lia.
  - rewrite wake_on_review_eq. apply no_more_work_admits. intros s. unfold buffered. cbn.
    pose proof (length_pop_at 0 (_buffered_reviews s)). lia.
Qed.

Lemma no_more_work_call a : callable no_more_work (λ _, True) a.
Proof. by split. Qed.
#[export] Hint Resolve no_more_work_call : workflow.

(** ** Waiting uses an activation *)

(** Whatever stops waiting for the runtime has used one of its activations. *)
Definition uses_activation {S A} `{HasWorld S} (m : M S A) : Prop := ∀ s,
  (∃ on, fst (m s) = Blocked on) ∨
  (work_left (world_of (snd (m s))) + 2 ≤ work_left (world_of s)
   ∧ length (w_script (world_of (snd (m s)))) < length (w_script (world_of s))).

Lemma uses_await {A} on (resume : option Resolution → Mailbox → option A) : uses_activation (await on resume).
Proof.
  intros w. unfold await.
  assert (∀ script w, w_script w = script →
    (∃ on', fst (await_script on resume script w) = Blocked on') ∨
    (work_left (snd (await_script on resume script w)) + 2 ≤ work_left w
     ∧ length (w_script (snd (await_script on resume script w))) < length (w_script w))) as Hs; [|by apply Hs].
  clear w. induction script as [|v script IH]; intros w E; cbn [await_script]; [left; by eexists|].
  pose proof (activation_uses v script w E) as Hu. rewrite E. case_match; [right; cbn in *; lia|].
  set (w1 := activate v w <| w_script := script |>) in *.
  assert (w_script w1 = script) as E1 by reflexivity.
  destruct (IH w1 E1) as [Hb|[H1 H2]]; [by left|right]. rewrite E1 in H2. cbn [length]. lia.
Qed.

Lemma uses_bind_l {S A B} `{HasWorld S} (m : M S A) (k : A → M S B) :
  uses_activation m → (∀ a, follows no_more_work (k a)) → uses_activation (m ≫= k).
Proof.
  intros Hm Hk s. unfold mbind, M_bind. destruct (Hm s) as [[on Hb]|Hu].
  - left. exists on. destruct (m s) as [[] s']; try done. by injection Hb as ->.
  - destruct (m s) as [[a|e|on|] s']; cbn [fst snd] in *; [|by right..].
    right. pose proof (follows_elim no_more_work (k a) s' (Hk a)) as []. lia.
Qed.

Lemma uses_bind_r {S A B} `{HasWorld S} (m : M S A) (k : A → M S B) :
  (∀ s, ∃ a s', m s = (Done a, s')) → follows no_more_work m →
  (∀ a, uses_activation (k a)) → uses_activation (m ≫= k).
Proof.
  intros Hd Hm Hk s. pose proof (follows_elim no_more_work m s Hm) as Hf.
  destruct (Hd s) as (a & s' & E). unfold mbind, M_bind. rewrite E in *. cbn in Hf.
  destruct (Hk a s') as [Hb|Hu]; [by left|right]. destruct Hf. lia.
Qed.

Lemma uses_call a : uses_activation (execute_activity a).
Proof.
  apply uses_bind_r; [by repeat eexists|apply follows_intro; by split|]. intros _.
  apply uses_bind_l; [apply uses_await|]. intros []; follow.
Qed.

Lemma uses_try {S A} `{HasWorld S} (m : M S A) h :
  uses_activation m → (∀ e, follows no_more_work (h e)) → uses_activation (try_activity m h).
Proof.
  intros Hm Hh s. unfold try_activity. destruct (Hm s) as [[on Hb]|Hu].
  - left. exists on. destruct (m s) as [[] s']; try done.
  - destruct (m s) as [[a|[e| | |]|on|] s']; cbn [fst snd] in *; try by right.
    right. pose proof (follows_elim no_more_work (h e) s' (Hh e)) as []. lia.
Qed.

Lemma uses_loop {A} fuel (body : WF (option A)) :
  uses_activation body → follows no_more_work body → uses_activation (loop (S fuel) body).
Proof.
  intros Hu Hf. cbn. apply uses_bind_l; [done|]. intros [a|]; follow.
Qed.

Lemma uses_suspension ty a : uses_activation (suspension_retry ty (execute_activity a)).
Proof.
  intros w. unfold suspension_retry, while_true. apply uses_loop; [|follow].
  apply uses_bind_l; [apply uses_try; [apply uses_bind_l; [apply uses_call|follow]|follow]|follow].
Qed.

Lemma uses_lift {L A} (m : WF A) : uses_activation m → uses_activation (lift (L:=L) m).
Proof.
  intros Hm [w l]. specialize (Hm w). unfold lift. cbn [fst snd] in *. destruct (m w) as [r w']. cbn in *.
  destruct Hm as [[on ->]|]; [left; by exists on|by right].
Qed.

Lemma uses_turn_body follow_up d x :
  (∀ src, follows no_more_work (follow_up src)) → uses_activation (turn_body follow_up d x).
Proof.
  intros Hf. unfold turn_body. apply uses_bind_l; [apply uses_lift, uses_suspension|].
  intros [doc|]; [|follow]. pose proof (follows_turn_body no_more_work follow_up d x Hf). follow.
Qed.

Lemma uses_finally {A} (m : WF A) : uses_activation m → uses_activation (finally m finish_turn).
Proof.
  intros Hm w. specialize (Hm w). unfold finally.
  destruct (m w) as [[] w']; cbn [fst snd] in *; destruct Hm as [[on' [= ->]]|]; try (by right);
    by left; eexists.
Qed.

Lemma uses_with_locals {L A} (l : L) (m : M (World * L) A) :
  uses_activation m → uses_activation (with_locals l m).
Proof.
  intros Hm w. specialize (Hm (w, l)). unfold with_locals. destruct (m (w, l)) as [r [w' l']]. exact Hm.
Qed.

Lemma uses_single_turn follow_up d src id v :
  (∀ src, follows no_more_work (follow_up src)) → uses_activation (single_turn follow_up d src id v).
Proof.
  intros Hf. unfold single_turn. do 4 (apply uses_bind_r; [by repeat eexists|follow|]; intros ?).
  apply uses_finally, uses_with_locals, uses_try; [by apply uses_turn_body|follow].
Qed.

(** A turn that is over did nothing at all, for want of a definition, or used an
    activation. *)
Lemma turn_done src w w' : _run_turn src w = (Done tt, w') → w' = w ∨ work_left w' < work_left w.
Proof.
  unfold _run_turn. rewrite run_turn_eq.
  destruct (_process_definition_id (w_state w)) as [id|]; [|by intros [= <-]; left].
  destruct (_process_definition_version (w_state w)) as [v|]; [|by intros [= <-]; left].
  intros E. pose proof (uses_single_turn (λ src, run_turn 5 src 1) 0 src id v
    (λ src, follows_run_turn no_more_work 5 src 1) w) as Hw.
  rewrite E in Hw. destruct Hw as [[on [=]]|[Hw _]]. right. cbn [snd] in Hw.
  unfold world_of, world_has_world in Hw. lia.
Qed.

(** ** A round makes progress *)

Lemma rounds_bound_le w : work_left w ≤ rounds_bound w ≤ work_left w + 1.
Proof. unfold rounds_bound. destruct (_timer_due_at (w_state w)); lia. Qed.

(** A message was taken before the rest of the round. *)
Lemma taken_progress w w1 w' :
  work_left w1 + 2 ≤ work_left w → no_more_work w1 w' → rounds_bound w' < rounds_bound w.
Proof. intros H1 [H2 _]. pose proof (rounds_bound_le w). pose proof (rounds_bound_le w'). lia. Qed.

Lemma pop_at_taken {A} i (x : A) xs : xs !! i = Some x → S (length (pop_at i xs)) = length xs.
Proof. intros H. apply pop_at_Permutation, Permutation_length in H. by rewrite H. Qed.

Lemma event_taken reason i e w : _buffered_events (w_state w) !! i = Some e →
  work_left (snd (wake_on_event reason i e w)) + 2 ≤ work_left w.
Proof.
  intros H%pop_at_taken. rewrite wake_on_event_eq. unfold work_left, buffered. cbn. lia.
Qed.

Lemma event_branch_progress reason i e (k : WF unit) w :
  _buffered_events (w_state w) !! i = Some e → follows no_more_work k →
  rounds_bound (snd ((_ ← wake_on_event reason i e; k) w)) < rounds_bound w.
Proof.
  intros Hi Hk. apply (taken_progress w _ _ (event_taken reason i e w Hi)).
  exact (follows_run no_more_work k (snd (wake_on_event reason i e w)) Hk).
Qed.

Lemma timer_progress s w w' : timer_is_due (w_now w) (w_state w) = Some true →
  handle_timer s w = (Done tt, w') → rounds_bound w' < rounds_bound w.
Proof.
  intros Ht E. assert (∃ d, _timer_due_at (w_state w) = Some d) as [d Hd].
  { unfold timer_is_due in Ht. destruct (_timer_due_at _) as [d|]; [by exists d|done]. }
  set (w1 := snd ((_ ← update set_started; _ ← record_wake "timer" None (_wake_plan s ≫= wp_timer_id) None;
                   update _clear_wake_plan) w)).
  assert (rounds_bound w1 = work_left w) as H1 by (unfold rounds_bound; cbn; apply Nat.add_0_r).
  assert (work_left w1 = work_left w) as H2 by reflexivity.
  assert (rounds_bound w = work_left w + 1) as H0 by (unfold rounds_bound; by rewrite Hd).
  unfold handle_timer in E. destruct (_wake_plan s ≫= wp_timer_id) as [id|].
  - change (_run_turn (timer_sources id) w1 = (Done tt, w')) in E.
    apply turn_done in E as [->|Hlt]; [lia|]. pose proof (rounds_bound_le w'). lia.
  - change ((Done tt, w1) = (Done tt, w')) in E. injection E as <-. lia.
Qed.

Lemma wait_progress pred timeout w w' : pred (w_state w) = false →
  wait_condition pred timeout w = (Done tt, w') → rounds_bound w' < rounds_bound w.
Proof.
  intros Hp E. unfold wait_condition, self in E. unfold mbind, M_bind in E. rewrite Hp in E.
  match type of E with await ?on ?r w = _ => pose proof (uses_await on r w) as Hw end.
  rewrite E in Hw. destruct Hw as [[on [=]]|[Hw _]]. cbn [snd] in Hw.
  pose proof (rounds_bound_le w). pose proof (rounds_bound_le w'). unfold world_of, world_has_world in Hw.
  lia.
Qed.

(** The waiting round waits: nothing it waits for is there yet. *)
Lemma nothing_to_do s : starting_event s = None → _buffered_reviews s = [] →
  _buffered_action_resolutions s = [] → _buffered_controls s = [] →
  event_at (_manual_wake_event_index s) s = None → event_at (_matching_event_index s) s = None →
  _closed s = false → wakes_up (_plan_revision s) s = false.
Proof.
  intros Hs Hr Hx Hk Hm He Hc. unfold wakes_up. rewrite Hc, Hr, Hx, Hk, Z.eqb_refl. cbn.
  assert (∀ p, event_at (find_index p (_buffered_events s)) s = None →
    find_index p (_buffered_events s) = None) as Hf.
  { intros p Hp. destruct (find_index p _) as [i|] eqn:E; [|done]. unfold event_at in Hp. cbn in Hp.
    apply find_index_Some in E as (e & E & _). by rewrite E in Hp. }
  rewrite !orb_false_iff, !bool_decide_eq_false. split_and!; try done.
  - unfold starting_event in Hs. destruct (_started s); [done|]. case_bool_decide; [|done].
    rewrite (bool_decide_eq_false_2 (_initial_event_index s ≠ None)); [by rewrite andb_false_r|].
    intros Hn. by apply Hn, Hf.
  - intros Hn. by apply Hn, Hf.
  - unfold _matching_event_index in *. destruct (_wake_plan s); intros Hn; [by apply Hn, Hf|by apply Hn].
Qed.

Lemma pop_at_head {A} (x : A) xs : pop_at 0 (x :: xs) = xs.
Proof. done. Qed.

Lemma head_taken_work w f : S (buffered (f (w_state w))) ≤ buffered (w_state w) →
  work_left (w <| w_state ::= f |>) + 2 ≤ work_left w.
Proof. intros H. unfold work_left. cbn [w_state w_script field_update]. lia. Qed.

(** Every round that ends leaves fewer rounds. *)
Lemma round_progress w w' : _closed (w_state w) = false →
  loop_body w = (Done tt, w') → rounds_bound w' < rounds_bound w.
Proof.
  intros Hc. rewrite loop_body_eq. destruct (must_continue w); [done|]. unfold choose_work.
  destruct (starting_event _) as [[i e]|] eqn:Es.
  { intros E. replace w' with (snd (Done tt, w')) by done. rewrite <- E.
    apply starting_event_Some in Es as (_ & _ & Hi). apply event_branch_progress; [done|follow]. }
  destruct (_buffered_reviews _) as [|r rs] eqn:Er.
  2:{ intros E. apply (taken_progress w (snd (wake_on_review r w))).
      - rewrite wake_on_review_eq. apply head_taken_work. unfold buffered. cbn. rewrite Er, pop_at_head. cbn. lia.
      - replace w' with (snd (Done tt, w')) by done. rewrite <- E.
        exact (follows_run no_more_work _ _ (follows_act_on_review no_more_work r)). }
  destruct (_buffered_action_resolutions _) as [|r rs] eqn:Ex.
  2:{ intros E. apply (taken_progress w (w <| w_state ::= take_resolution |>)).
      - apply head_taken_work. unfold buffered. cbn. rewrite Ex, pop_at_head. cbn. lia.
      - replace w' with (snd (Done tt, w')) by done. rewrite <- E.
        exact (follows_run no_more_work _ _ (follows_act_on_resolution no_more_work r)). }
  destruct (_buffered_controls _) as [|c cs] eqn:Ek.
  2:{ intros E. apply (taken_progress w (w <| w_state ::= take_control |>)).
      - apply head_taken_work. unfold buffered. cbn. rewrite Ek, pop_at_head. cbn. lia.
      - replace w' with (snd (Done tt, w')) by done. rewrite <- E.
        exact (follows_run no_more_work _ _ (follows_act_on_control no_more_work c)). }
  destruct (event_at (_manual_wake_event_index _) _) as [[i e]|] eqn:Em.
  { intros E. replace w' with (snd (Done tt, w')) by done. rewrite <- E.
    apply event_at_Some in Em as [_ Hi]. apply event_branch_progress; [done|follow]. }
  destruct (event_at (_matching_event_index _) _) as [[i e]|] eqn:Ee.
  { intros E. replace w' with (snd (Done tt, w')) by done. rewrite <- E.
    apply event_at_Some in Ee as [_ Hi]. apply event_branch_progress; [done|follow]. }
  unfold read. destruct (timer_is_due _ _) as [[]|] eqn:Et; cbn.
  - by apply timer_progress.
  - unfold wait_for_wake, self, now. unfold mbind, M_bind. apply wait_progress. by apply nothing_to_do.
  - done.
Qed.
