(* ===== verification/MailboxIdle.v ===== *)
(** * Where a run can stop

    A run stops when it waits, when it hands over to its successor, or, in the
    model, when it is out of fuel.  [stops P m]: whenever [m] stops so, [P] holds
    of how it stopped and of the world it stopped in.  A run is left waiting for
    a wake only when its mailbox is idle, it hands over its own state, and it
    never runs out of fuel. *)

From stdpp Require Import base gmap sets list strings pretty.
From Stdlib Require Import ZArith Lia.
From S2P Require Import Prelude Python PyTime Json Contracts Mailbox Workflow Continuation MailboxRun Triples MailboxFacts MailboxMeasure.

#[local] Open Scope string_scope.

Inductive Stop := Waiting (on : Await) | Rolled (input : MailboxInput) | Exhausted.

Definition stop_of {A} (r : outcome A) : option Stop :=
  match r with
  | Blocked on => Some (Waiting on)
  | Throw (ContinueAsNew input) => Some (Rolled input)
  | OutOfFuel => Some Exhausted
  | _ => None
  end.

Section rules.
Context (P : Stop → World → Prop).

Definition stops {S A} `{HasWorld S} (m : M S A) : Prop :=
  ∀ s st, stop_of (fst (m s)) = Some st → P st (world_of (snd (m s))).

Lemma stops_bind {S A B} `{HasWorld S} (m : M S A) (k : A → M S B) :
  stops m → (∀ a, stops (k a)) → stops (m ≫= k).
Proof.
  intros Hm Hk s st. specialize (Hm s). unfold mbind, M_bind.
  destruct (m s) as [[a|e|on'|] s']; cbn in *; try done; [apply Hk|auto..].
Qed.

(** A computation that always returns or raises. *)
Lemma stops_never {S A} `{HasWorld S} (m : M S A) : (∀ s, stop_of (fst (m s)) = None) → stops m.
Proof. intros Hm s st E. by rewrite Hm in E. Qed.

Lemma stops_read {S A} `{HasWorld S} (o : option A) : stops (S:=S) (read o).
Proof. by destruct o. Qed.

Lemma stops_try {S A} `{HasWorld S} (m : M S A) h :
  stops m → (∀ e, stops (h e)) → stops (try_activity m h).
Proof.
  intros Hm Hh s st. specialize (Hm s). unfold try_activity.
  destruct (m s) as [[a|[e| | |]|on'|] s']; cbn in *; try done; try (by apply Hm); apply Hh.
Qed.

Lemma stops_finally {A} (m : WF A) f :
  (∀ st w, P st w → P st (f w)) → stops m → stops (finally m f).
Proof.
  intros Hf Hm s st. specialize (Hm s). unfold finally.
  destruct (m s) as [[a|e|on'|] s']; cbn in *; try done; [|auto..].
  intros E. by apply Hf, Hm.
Qed.

Lemma stops_with_locals {L A} (l : L) (m : M (World * L) A) : stops m → stops (with_locals l m).
Proof.
  intros Hm w st. specialize (Hm (w, l)). unfold with_locals. destruct (m (w, l)) as [r [w' l']].
  cbn in *. auto.
Qed.

Lemma stops_lift {L A} (m : WF A) : stops m → stops (lift (L:=L) m).
Proof.
  intros Hm [w l] st. specialize (Hm w). unfold lift. cbn. destruct (m w) as [r w']. cbn in *. auto.
Qed.

(** A loop whose rounds decrease a measure below its fuel. *)
Lemma stops_loop {S A} `{HasWorld S} (mu : S → nat) (body : M S (option A)) :
  stops body → (∀ s s', body s = (Done None, s') → mu s' < mu s)%nat →
  ∀ fuel s st, (mu s < fuel)%nat → stop_of (fst (loop fuel body s)) = Some st →
  P st (world_of (snd (loop fuel body s))).
Proof.
  intros Hb Hmu. induction fuel as [|fuel IH]; intros s st Hf; [lia|].
  cbn [loop]. specialize (Hb s). specialize (Hmu s). unfold mbind, M_bind.
  destruct (body s) as [[[a|]|e|on|] s']; cbn [fst snd] in *; try done; [|auto..].
  apply IH. specialize (Hmu s' eq_refl). lia.
Qed.

Lemma stops_while {A} (body : WF (option A)) :
  stops body → (∀ w w', body w = (Done None, w') → length (w_script w') < length (w_script w))%nat →
  stops (while_true body).
Proof.
  intros Hb Hmu w st. apply (stops_loop (λ w, length (w_script w)) body Hb Hmu). lia.
Qed.

Lemma stops_await {A} on (resume : option Resolution → Mailbox → option A) :
  (∀ w, P (Waiting on) w) → stops (await on resume).
Proof.
  intros HP w st. unfold await. generalize (w_script w). intros script. revert w.
  induction script as [|v script IH]; intros w; cbn; [by intros [= <-]|]. case_match; [done|apply IH].
Qed.

End rules.

Lemma stops_weaken (P Q : Stop → World → Prop) {S A} `{HasWorld S} (m : M S A) :
  (∀ st w, P st w → Q st w) → stops P m → stops Q m.
Proof. intros HPQ Hm s st E. by apply HPQ, Hm. Qed.

(** What a turn may stop for: an activity or a timer. *)
Definition in_turn (st : Stop) (w : World) : Prop :=
  match st with Waiting (OnActivity _) | Waiting OnSleep => True | _ => False end.

Lemma stops_call a : stops in_turn (execute_activity a).
Proof.
  apply stops_bind; [by apply stops_never|]. intros _.
  apply stops_bind; [by apply stops_await|]. intros []; by apply stops_never.
Qed.
Lemma stops_sleep : stops in_turn sleep.
Proof. by apply stops_await. Qed.

Create HintDb stopping.
#[export] Hint Resolve stops_read stops_call stops_sleep : stopping.

Ltac stop :=
  repeat first
    [ progress intros
    | match goal with
      | |- stops _ (match ?x with _ => _ end) => destruct x
      | |- stops _ (if ?b then _ else _) => destruct b
      end
    | solve [auto 4 with stopping typeclass_instances]
    | match goal with
      | |- stops _ (mbind _ _) => apply stops_bind
      | |- stops _ (try_activity _ _) => apply stops_try
      | |- stops _ (lift _) => apply stops_lift
      | |- stops _ (with_locals _ _) => apply stops_with_locals
      | |- stops _ (finally _ _) => apply stops_finally
      end
    | solve [by apply stops_never] ].

(** A round of a suspension retry that goes on has slept. *)
Lemma suspension_round_uses (ty : string) (a : Activity) (w w' : World) :
  (r ← try_activity (d ← execute_activity a; mret (inl d)) (λ e,
        if _is_activity_error_type e ty then mret (inr e) else throw (ActivityFailed e));
   match r with
   | inl d => mret (Some (Some d))
   | inr _ => _ ← sleep; s ← self; mret (if _closed s then Some None else None)
   end : WF (option (option json))) w = (Done None, w') →
  (length (w_script w') < length (w_script w))%nat.
Proof.
  match goal with |- ?m w = _ → _ => assert (uses_activation m) as Hu end.
  { apply uses_bind_l; [apply uses_try; [apply uses_bind_l; [apply uses_call|follow]|follow]|follow]. }
  intros E. specialize (Hu w). rewrite E in Hu. by destruct Hu as [[on [=]]|[_ Hw]].
Qed.

Lemma stops_suspension ty a : stops in_turn (suspension_retry ty (execute_activity a)).
Proof.
  unfold suspension_retry. apply stops_while; [stop|]. intros w w'. apply suspension_round_uses.
Qed.
#[export] Hint Resolve stops_suspension : stopping.
Lemma stops_execute_pending id rev : stops in_turn (_execute_pending_action id rev).
Proof. unfold _execute_pending_action, reconcile_unknown, append_execution. stop. Qed.
#[export] Hint Resolve stops_execute_pending : stopping.
Lemma stops_intervention i t k et e src : stops in_turn (_record_intervention i t k et e src).
Proof. unfold _record_intervention. stop. Qed.
#[export] Hint Resolve stops_intervention : stopping.
Lemma stops_outcome res d : stops in_turn (_apply_turn_outcome res d).
Proof. unfold _apply_turn_outcome. stop. Qed.
#[export] Hint Resolve stops_outcome : stopping.
Lemma stops_check x b : stops in_turn (check_preempted x b).
Proof. unfold check_preempted. stop. Qed.
#[export] Hint Resolve stops_check : stopping.
Lemma stops_run_actions x items b : stops in_turn (run_actions x items b).
Proof. revert b. induction items as [|item items IH]; intros b; cbn [run_actions]; stop. Qed.
#[export] Hint Resolve stops_run_actions : stopping.

(** The results of a turn are followed only below the chain limit. *)
Lemma stops_finish f d x res b :
  ((d < 5)%nat → ∀ src, stops in_turn (f src)) → stops in_turn (finish_actions f d x res b).
Proof.
  intros Hf. unfold finish_actions. do 3 (apply stops_bind; [stop|]; intros ?).
  apply stops_lift, stops_bind; [stop|]. intros _. case_if; [|stop].
  case_if; [|stop]. apply Hf. apply Nat.leb_gt. by destruct (5 <=? d)%nat.
Qed.
#[export] Hint Resolve stops_finish : stopping.
Lemma stops_turn_body f d x : ((d < 5)%nat → ∀ src, stops in_turn (f src)) → stops in_turn (turn_body f d x).
Proof. intros. unfold turn_body. stop. Qed.
#[export] Hint Resolve stops_turn_body : stopping.

(** Six levels of fuel cover the chain. *)
Lemma stops_run_turn fuel src depth : (6 ≤ fuel + depth)%nat → (depth < 6)%nat →
  stops in_turn (run_turn fuel src depth).
Proof.
  revert src depth. induction fuel as [|fuel IH]; intros src depth Hf Hd; [lia|].
  assert ((depth < 5)%nat → ∀ src, stops in_turn (run_turn fuel src (S depth))) as Hk.
  { intros ? src'. apply IH; lia. }
  cbn [run_turn]. unfold single_turn, turn_handler. stop.
Qed.
Lemma stops_turn src : stops in_turn (_run_turn src).
Proof. apply stops_run_turn; lia. Qed.
#[export] Hint Resolve stops_turn : stopping.

(** ** Stops of the loop *)

Section loop.
(** What a run may stop for, beyond its turns. *)
Context (P : Stop → World → Prop) (P_turn : ∀ st w, in_turn st w → P st w).
Context (P_wait : stops P wait_for_wake).
Context (P_rolled : ∀ w, P (Rolled (_continuation_input (w_state w))) w).

Lemma stops_choose_work s t : stops P (choose_work s t).
Proof.
  assert (∀ (m : WF unit), stops in_turn m → stops P m) as Hw.
  { intros m. by apply stops_weaken. }
  assert (stops in_turn (handle_timer s)) by (unfold handle_timer, record_wake; stop).
  unfold choose_work.
  repeat match goal with
  | |- stops P (match ?x with _ => _ end) => destruct x
  end.
  all: try (apply Hw; unfold handle_review, act_on_review, handle_resolution, act_on_resolution,
      handle_control, act_on_control, wake_on_review, wake_on_event, record_wake; solve [stop]).
  apply stops_bind; [apply stops_read|]. intros []; [by apply Hw|exact P_wait].
Qed.

Lemma stops_loop_body : stops P loop_body.
Proof.
  intros w st. rewrite loop_body_eq.
  destruct (must_continue w); [intros [= <-]; apply P_rolled|apply stops_choose_work].
Qed.

Lemma stops_main_loop : stops P main_loop.
Proof.
  intros w st. unfold main_loop. refine (stops_loop P rounds_bound _ _ _ _ w st _); [..|lia].
  - apply stops_bind; [by apply stops_never|]. intros s. destruct (_closed s); [by apply stops_never|].
    apply stops_bind; [apply stops_loop_body|]. intros ?. by apply stops_never.
  - intros w1 w2. unfold self. unfold mbind, M_bind. destruct (_closed (w_state w1)) eqn:Hc; [done|].
    destruct (loop_body w1) as [[[]|e|on|] w3] eqn:E; try done. intros [= <-].
    by apply round_progress.
Qed.

Lemma restore_error c s e i : _restore_continuation c s = inl e → e ≠ ContinueAsNew i.
Proof.
  unfold _restore_continuation. case_bool_decide; [destruct (load_snapshot _ _)|]; congruence.
Qed.

Lemma stops_process_run input : stops P (run input).
Proof.
  unfold run. do 2 (apply stops_bind; [by apply stops_never|]; intros ?).
  apply stops_bind.
  - destruct (_restore_continuation _ _) as [e|s] eqn:E; [|by apply stops_never].
    apply stops_never. intros w. cbn. destruct e; try done. by eapply restore_error in E.
  - intros _. apply stops_bind; [apply stops_main_loop|]. intros _. by apply stops_never.
Qed.
End loop.

(** ** A sleeping process has nothing to do *)

(** Nothing in the mailbox can start a turn. *)
Record idle (s : Mailbox) : Prop := {
  idle_open : _closed s = false;
  idle_reviews : _buffered_reviews s = [];
  idle_resolutions : _buffered_action_resolutions s = [];
  idle_controls : _buffered_controls s = [];
  idle_manual : ∀ e, e ∈ _buffered_events s → me_event_type e ≠ OPERATOR_MANUAL_WAKE_EVENT_TYPE;
  idle_events : ∀ p e, _wake_plan s = Some p → e ∈ _buffered_events s → me_event_type e ∉ wp_event_types p;
  idle_start : _started s = true ∨ _wake_plan s ≠ None ∨ _buffered_events s = [];
}.

Definition idle_when_waiting (st : Stop) (w : World) : Prop :=
  st = Waiting OnWake → idle (w_state w).

Lemma find_index_None_elem {A} (p : A → bool) xs x : find_index p xs = None → x ∈ xs → p x = false.
Proof. rewrite find_index_None, Forall_forall. auto. Qed.

Lemma wakes_up_idle rev s : wakes_up rev s = false → idle s.
Proof.
  unfold wakes_up. rewrite !orb_false_iff.
  intros (((((((Hc & _) & Hr) & Hx) & Hk) & Hi) & Hm) & He).
  apply bool_decide_eq_false, dec_stable in Hr, Hx, Hk, Hm, He.
  split; try done.
  - intros e Hin Ht. pose proof (find_index_None_elem _ _ e Hm Hin) as Hf. unfold is_manual_wake in Hf.
    by apply bool_decide_eq_false in Hf.
  - intros p e Hp Hin Ht. unfold _matching_event_index in He. rewrite Hp in He.
    pose proof (find_index_None_elem _ _ e He Hin) as Hf. by apply bool_decide_eq_false in Hf.
  - destruct (_started s); [by left|]. destruct (_wake_plan s) eqn:Ep; [right; left; done|]. right; right.
    cbn in Hi. apply bool_decide_eq_false, dec_stable in Hi.
    destruct (_buffered_events s) as [|e es] eqn:Eb; [done|]. exfalso.
    unfold _initial_event_index in Hi. rewrite Eb in Hi.
    pose proof (find_index_None_elem _ _ e Hi (list_elem_of_here _ _)) as Hf.
    pose proof (find_index_None_elem is_manual_wake _ e Hm) as Hf'. rewrite Eb in Hf'.
    cbn beta in Hf. rewrite Hf' in Hf by apply list_elem_of_here. done.
Qed.

(** [wait_condition] is left waiting only while its condition is false. *)
Lemma wait_condition_blocked pred timeout w on w' :
  wait_condition pred timeout w = (Blocked on, w') → on = OnWake ∧ pred (w_state w') = false.
Proof.
  unfold wait_condition, self, mbind, M_bind. destruct (pred (w_state w)) eqn:E; [done|].
  unfold await. generalize (w_script w). intros script. revert w E.
  induction script as [|v script IH]; intros w E; cbn [await_script].
  { intros [= <- <-]. done. }
  set (w1 := activate v w <| w_script := script |>).
  destruct (pred (w_state w1)) eqn:E1; [done|].
  destruct (av_resolution v) as [[]|], timeout; try done; exact (IH w1 E1).
Qed.

Lemma wait_for_wake_idle : stops idle_when_waiting wait_for_wake.
Proof.
  intros w st E ->. unfold wait_for_wake, self, now, mbind, M_bind in *.
  destruct (wait_condition _ _ w) as [[|[]|on|] w'] eqn:Ew; try done.
  apply wait_condition_blocked in Ew as [_ Hp]. by apply wakes_up_idle in Hp.
Qed.

(** C17: no wake-up is lost: whenever a run sleeps in its wait for a wake
    condition, the process is open and nothing it was sent can start a turn: no
    review, resolution, control or manual wake is buffered, no buffered event
    matches the wake plan, and a process that has not started has no event to
    start on. *)
Theorem sleeping_run_is_idle input w w' :
  run input w = (Blocked OnWake, w') → idle (w_state w').
Proof.
  intros E. assert (stops idle_when_waiting (run input)) as Hr.
  { apply stops_process_run; [intros [[]| |] ? ?; done|apply wait_for_wake_idle|done]. }
  specialize (Hr w (Waiting OnWake)). rewrite E in Hr. by apply Hr.
Qed.

(** ** A run ends, waits or hands over *)

(** A wait neither runs out of fuel nor hands over. *)
Definition only_waits (st : Stop) (w : World) : Prop := ∃ on, st = Waiting on.
Lemma wait_only_waits : stops only_waits wait_for_wake.
Proof.
  unfold wait_for_wake, wait_condition. do 3 (apply stops_bind; [by apply stops_never|]; intros ?).
  case_if; [by apply stops_never|]. apply stops_await. by eexists.
Qed.

(** C18: every run ends or waits for its runtime: whatever the state of the
    mailbox and however long the history of activations, no loop of the workflow
    (suspended tenants, follow-up turns, the loop of [run]) spins forever, so the
    fuel of the model is never used up. *)
Theorem run_never_spins input w : stop_of (fst (run input w)) ≠ Some Exhausted.
Proof.
  intros E. assert (stops (λ st _, st ≠ Exhausted) (run input)) as Hr.
  { apply stops_process_run; [by intros [[]| |] ? ?| |done].
    eapply stops_weaken; [|apply wait_only_waits]. by intros st ? [on ->]. }
  by apply (Hr w Exhausted).
Qed.

(** A run that continues as new hands over the state it ended in. *)
Lemma run_hands_over input w next w' :
  run input w = (Throw (ContinueAsNew next), w') → next = _continuation_input (w_state w').
Proof.
  intros E. assert (stops (λ st w, ∀ i, st = Rolled i → i = _continuation_input (w_state w)) (run input))
    as Hr.
  { apply stops_process_run; [by intros [[]| |] ? ? ?| |by intros ? ? [= <-]].
    eapply stops_weaken; [|apply wait_only_waits]. by intros st ? [on ->]. }
  specialize (Hr w (Rolled next)). rewrite E in Hr. by apply Hr.
Qed.

Lemma sleeping_run_is_idle_witness :
  idle (w_state (snd (run (ex_definition 100) (ex_start [ex_opened; ex_noise] ex_turn_script)))).
Proof.
  apply (sleeping_run_is_idle (ex_definition 100) (ex_start [ex_opened; ex_noise] ex_turn_script)).
  vm_compute. reflexivity.
Defined.
