(* ===== verification/ContinuationFacts.v ===== *)
(** * Continue-As-New loses nothing but old records *)

From stdpp Require Import base gmap sets list strings pretty.
From Stdlib Require Import ZArith Lia.
From S2P Require Import Prelude Python PyTime Json Contracts Mailbox Workflow Continuation MailboxRun.

#[local] Open Scope string_scope.

(** Evaluate the comparisons of literal keys. *)
Ltac eval_keys :=
  repeat match goal with
  | |- context [bool_decide (@eq string ?a ?b)] =>
      let v := eval vm_compute in (bool_decide (@eq string a b)) in
      change (bool_decide (@eq string a b)) with v; cbn [mbind option_bind]
  end.

(** ** Documents are read back *)

Lemma mapM_read {A B} (f : B → option A) (g : A → B) xs :
  Forall (λ x, f (g x) = Some x) xs → mapM f (g <$> xs) = Some xs.
Proof. induction 1 as [|x xs Hx _ IH]; cbn; [done|]. by rewrite Hx, IH. Qed.

Lemma str_tuple_strs xs : str_tuple (strs xs) = Some xs.
Proof. apply (mapM_read py_str JStr). by apply Forall_true. Qed.

Lemma cast_str_opt o : cast_str (opt_str o) = Some o.
Proof. by destruct o. Qed.

Lemma read_event_document e : read_event (event_document e) = Some e.
Proof. by destruct e. Qed.
Lemma read_review_document r : read_review (review_document r) = Some r.
Proof. by destruct r. Qed.
Lemma read_resolution_document r : read_resolution (resolution_document r) = Some r.
Proof. by destruct r. Qed.

Ltac read_document :=
  unfold get_cast, get_str, get_key, get_int, get_or_empty;
  cbn -[str_tuple strs opt_doc cast_str opt_str bool_decide isoformat]; eval_keys;
  cbn -[str_tuple strs opt_doc cast_str opt_str isoformat];
  rewrite ?str_tuple_strs, ?cast_str_opt; cbn -[opt_doc isoformat].

Lemma read_control_document c : read_control (control_document c) = Some c.
Proof. destruct c as [i t [e r a x]]. unfold read_control, read_sources. by read_document. Qed.

(** What a state must satisfy to be written and read back: its times are what
    Python can represent, and no record holds the document [null]. *)
Definition valid_time (o : option datetime) : Prop :=
  match o with Some d => valid_datetime d = true | None => True end.

Record restorable (s : Mailbox) : Prop := {
  rs_wakes : Forall (λ r, valid_datetime (wr_woke_at r) = true) (_wake_records s);
  rs_turns : Forall (λ r, tr_decision_json r ≠ Some JNull ∧ tr_actions_json r ≠ Some JNull
    ∧ tr_execution_results_json r ≠ Some JNull) (_turn_records s);
  rs_executions : Forall (λ r, er_result_json r ≠ Some JNull) (_execution_records s);
  rs_timer : valid_time (_wake_plan s ≫= wp_timer_at);
}.

Lemma read_wake_record_document r :
  valid_datetime (wr_woke_at r) = true → read_wake_record (wake_record_document r) = Some r.
Proof.
  destruct r as [reason e t i w c ct]. cbn. intros Hw. unfold read_wake_record. read_document.
  by rewrite (isoformat_roundtrip w Hw).
Qed.

Lemma opt_doc_read o : o ≠ Some JNull → match opt_doc o with JNull => None | _ => Some (opt_doc o) end = o.
Proof. destruct o as [[]|]; done. Qed.

Lemma read_turn_record_document r :
  tr_decision_json r ≠ Some JNull → tr_actions_json r ≠ Some JNull →
  tr_execution_results_json r ≠ Some JNull → read_turn_record (turn_record_document r) = Some r.
Proof.
  destruct r as [i [e rv a x] d ac ex er]. cbn. intros Hd Ha He.
  unfold read_turn_record, read_sources, read_doc. read_document. by rewrite !opt_doc_read.
Qed.

Lemma read_execution_record_document r :
  er_result_json r ≠ Some JNull → read_execution_record (execution_record_document r) = Some r.
Proof.
  destruct r as [a rev d e]. cbn. intros Hd. unfold read_execution_record, read_doc. read_document.
  by rewrite opt_doc_read.
Qed.

Lemma read_wake_plan_document p :
  valid_time (wp_timer_at p) → read_wake_plan (wake_plan_document p) = Some p.
Proof.
  destruct p as [e i [d|] h]; cbn; intros Hd; unfold read_wake_plan, read_timer_at; read_document;
    [|done]. by rewrite (isoformat_roundtrip d Hd).
Qed.

Lemma list_to_set_sorted_ids (ids : gset string) : list_to_set (sorted_ids ids) = ids.
Proof. apply set_eq. intros x. unfold sorted_ids. rewrite elem_of_list_to_set, sorted_Permutation. set_solver. Qed.

Lemma Forall_last_n {A} (P : A → Prop) n xs : Forall P xs → Forall P (last_n n xs).
Proof. intros H. unfold last_n. by apply Forall_drop. Qed.

(** ** The state after a rollover *)

(** What the successor carries on with, over the attributes of [pre]. *)
Definition carry (s pre : Mailbox) : Mailbox :=
  pre <| _started := _started s |>
      <| _buffered_events := _buffered_events s |> <| _seen_event_ids := _seen_event_ids s |>
      <| _buffered_reviews := _buffered_reviews s |>
      <| _seen_review_command_ids := _seen_review_command_ids s |>
      <| _buffered_action_resolutions := _buffered_action_resolutions s |>
      <| _seen_action_resolution_ids := _seen_action_resolution_ids s |>
      <| _buffered_controls := _buffered_controls s |>
      <| _seen_control_command_ids := _seen_control_command_ids s |>
      <| _wake_records := last_n _RECENT_RECORD_LIMIT (_wake_records s) |>
      <| _turn_records := last_n _RECENT_RECORD_LIMIT (_turn_records s) |>
      <| _execution_records := last_n _RECENT_RECORD_LIMIT (_execution_records s) |>
      <| _pending_action_request_ids := _pending_action_request_ids s |>
      <| _wake_plan := _wake_plan s |> <| _timer_due_at := _wake_plan s ≫= wp_timer_at |>
      <| _completed_turn_count := _completed_turn_count s |>
      <| _continued_run_count := (_continued_run_count s + 1)%Z |>.

Lemma load_carried s pre : restorable s →
  load_snapshot (mi_continuation (_continuation_input s)) pre = Some (carry s pre).
Proof.
  intros [Hw Ht He Hp]. unfold load_snapshot, _continuation_input. cbn [mi_continuation
    mk_buffered_events mk_buffered_reviews mk_buffered_action_resolutions mk_buffered_controls
    mk_recent_wake_records mk_recent_turn_records mk_recent_execution_records mk_wake_plan].
  rewrite (mapM_read read_event), (mapM_read read_review), (mapM_read read_resolution),
    (mapM_read read_control), (mapM_read read_wake_record), (mapM_read read_turn_record),
    (mapM_read read_execution_record);
    try solve [apply Forall_true; auto using read_event_document, read_review_document,
      read_resolution_document, read_control_document].
  - cbn [mbind option_bind]. assert (read_optional read_wake_plan (wake_plan_document <$> _wake_plan s)
      = Some (_wake_plan s)) as ->.
    { destruct (_wake_plan s) as [p|]; [|done]. unfold read_optional.
      change (Some <$> read_wake_plan (wake_plan_document p) = Some (Some p)).
      by rewrite (read_wake_plan_document p Hp). }
    cbn. by rewrite !list_to_set_sorted_ids.
  - eapply List.Forall_impl; [|exact (Forall_last_n _ _ _ He)]. intros r. apply read_execution_record_document.
  - eapply List.Forall_impl; [|exact (Forall_last_n _ _ _ Ht)]. intros r (? & ? & ?).
    by apply read_turn_record_document.
  - eapply List.Forall_impl; [|exact (Forall_last_n _ _ _ Hw)]. intros r. apply read_wake_record_document.
Qed.

Lemma restore_carried s pre : restorable s →
  _restore_continuation (mi_continuation (_continuation_input s)) pre
  = inr (merge_prestart pre (carry s pre)).
Proof.
  intros Hs. unfold _restore_continuation. rewrite (load_carried s pre Hs).
  cbn. by rewrite bool_decide_true by done.
Qed.

(** The state a run starts its loop in. *)
Definition start_state (input : MailboxInput) (pre : Mailbox) : option Mailbox :=
  match _restore_continuation (mi_continuation input) (identify input pre) with
  | inr s => Some s
  | inl _ => None
  end.

Definition recent {A} (xs : list A) : list A := last_n _RECENT_RECORD_LIMIT xs.

(** C19: Continue-As-New preserves the state of a process: the successor of a run
    between turns answers the state query as the run did, but for the records
    beyond the last fifty and the count of runs, remembers every message it has
    seen, whether the process started, and the timer of its wake plan. *)
Theorem rollover_preserves_state s :
  restorable s → _turn_in_progress s = false → _closed s = false →
  ∃ s', start_state (_continuation_input s) mailbox_init = Some s'
    ∧ state s' = state s <| ms_wake_records ::= recent |> <| ms_turn_records ::= recent |>
                         <| ms_execution_records ::= recent |> <| ms_continued_run_count ::= Z.succ |>
    ∧ _seen_event_ids s' = _seen_event_ids s
    ∧ _seen_review_command_ids s' = _seen_review_command_ids s
    ∧ _seen_action_resolution_ids s' = _seen_action_resolution_ids s
    ∧ _seen_control_command_ids s' = _seen_control_command_ids s
    ∧ _started s' = _started s ∧ _timer_due_at s' = _wake_plan s ≫= wp_timer_at
    ∧ _process_definition_id s' = _process_definition_id s
    ∧ _process_definition_version s' = _process_definition_version s.
Proof.
  intros Hs Ht Hc. eexists. split; [unfold start_state; by rewrite (restore_carried s _ Hs)|].
  split; [|done]. unfold state, merge_prestart. cbn. by rewrite Ht, Hc.
Qed.

(** ** Signals before the start of a run *)

(** An assignment that no message handler looks at. *)
Record bystander (h : Mailbox → Mailbox) : Prop := {
  by_event : ∀ e s, receive_event e (h s) = h (receive_event e s);
  by_review : ∀ r s, receive_review r (h s) = h (receive_review r s);
  by_resolution : ∀ r s, receive_action_resolution r (h s) = h (receive_action_resolution r s);
  by_control : ∀ c s, receive_control c (h s) = h (receive_control c s);
}.

Lemma fold_commute {A B} (f : B → A → B) (h : B → B) xs s :
  (∀ s x, f (h s) x = h (f s x)) → fold_left f xs (h s) = h (fold_left f xs s).
Proof. intros Hc. revert s. induction xs as [|x xs IH]; intros s; cbn; [done|]. by rewrite Hc, IH. Qed.

Lemma merge_bystander h pre s : bystander h → merge_messages pre (h s) = h (merge_messages pre s).
Proof.
  intros [He Hr Hx Hk]. unfold merge_messages.
  rewrite (fold_commute _ h (_buffered_events pre)), (fold_commute _ h (_buffered_reviews pre)),
    (fold_commute _ h (_buffered_action_resolutions pre)), (fold_commute _ h (_buffered_controls pre)); auto.
Qed.

Ltac handlers := unfold receive_event, receive_review, receive_action_resolution, receive_control;
  cbn; repeat case_bool_decide; try done; set_solver.

(** Handlers of different channels commute. *)
Lemma event_review e r s : receive_event e (receive_review r s) = receive_review r (receive_event e s).
Proof. handlers. Qed.
Lemma event_resolution e r s :
  receive_event e (receive_action_resolution r s) = receive_action_resolution r (receive_event e s).
Proof. handlers. Qed.
Lemma event_control e c s : receive_event e (receive_control c s) = receive_control c (receive_event e s).
Proof. handlers. Qed.
Lemma review_resolution e r s :
  receive_review e (receive_action_resolution r s) = receive_action_resolution r (receive_review e s).
Proof. handlers. Qed.
Lemma review_control e c s : receive_review e (receive_control c s) = receive_control c (receive_review e s).
Proof. handlers. Qed.
Lemma resolution_control e c s :
  receive_action_resolution e (receive_control c s) = receive_control c (receive_action_resolution e s).
Proof. handlers. Qed.

Lemma handle_signals_app l1 l2 s : handle_signals (l1 ++ l2)%list s = handle_signals l2 (handle_signals l1 s).
Proof. apply fold_left_app. Qed.

(** Before a run, what was seen is what is buffered. *)
Record fresh (pre : Mailbox) : Prop := {
  fr_events : _seen_event_ids pre = list_to_set (me_event_id <$> _buffered_events pre);
  fr_reviews : _seen_review_command_ids pre = list_to_set (mr_command_id <$> _buffered_reviews pre);
  fr_resolutions : _seen_action_resolution_ids pre =
    list_to_set (mx_command_id <$> _buffered_action_resolutions pre);
  fr_controls : _seen_control_command_ids pre = list_to_set (mc_command_id <$> _buffered_controls pre);
  fr_timer : _timer_due_at pre = _wake_plan pre ≫= wp_timer_at;
}.

Lemma fresh_signals sigs : fresh (handle_signals sigs mailbox_init).
Proof.
  induction sigs as [|sig sigs IH] using rev_ind; [by constructor|].
  rewrite handle_signals_app. destruct IH as [He Hr Hx Hk Ht]. cbn. destruct sig; cbn;
    unfold receive_event, receive_review, receive_action_resolution, receive_control, install_wake_plan;
    try case_bool_decide; constructor; cbn; try done; rewrite ?fmap_app, ?list_to_set_app_L; cbn;
    rewrite <- ?He, <- ?Hr, <- ?Hx, <- ?Hk; set_solver.
Qed.

Lemma fold_field {A B T} (f : B → A → B) (g : B → T) xs s :
  (∀ s x, g (f s x) = g s) → g (fold_left f xs s) = g s.
Proof. intros Hg. revert s. induction xs as [|x xs IH]; intros s; cbn; [done|]. by rewrite IH, Hg. Qed.

(** A fold that adds the ids of a list to a set. *)
Lemma fold_seen {A B} (f : B → A → B) (g : B → gset string) (key : A → string) xs s x :
  (∀ s y, g (f s y) = {[key y]} ∪ g s) → x ∈ key <$> xs → x ∈ g (fold_left f xs s).
Proof.
  intros Hg. revert s. induction xs as [|y xs IH]; intros s; cbn; [set_solver|].
  rewrite elem_of_cons. intros [->|Hx]; [|by apply IH].
  clear IH. assert (key y ∈ g (f s y)) as Hin by (rewrite Hg; set_solver). revert Hin.
  generalize (f s y). induction xs as [|z xs IH]; intros s' Hin; cbn; [done|].
  apply IH. rewrite Hg. set_solver.
Qed.

Lemma seen_event e s : _seen_event_ids (receive_event e s) = {[me_event_id e]} ∪ _seen_event_ids s.
Proof. handlers. Qed.
Lemma seen_review r s :
  _seen_review_command_ids (receive_review r s) = {[mr_command_id r]} ∪ _seen_review_command_ids s.
Proof. handlers. Qed.
Lemma seen_resolution r s : _seen_action_resolution_ids (receive_action_resolution r s)
  = {[mx_command_id r]} ∪ _seen_action_resolution_ids s.
Proof. handlers. Qed.
Lemma seen_control c s :
  _seen_control_command_ids (receive_control c s) = {[mc_command_id c]} ∪ _seen_control_command_ids s.
Proof. handlers. Qed.

(** After a merge every message that was buffered before the start is seen. *)
Lemma merge_seen pre s :
  (∀ x, x ∈ me_event_id <$> _buffered_events pre → x ∈ _seen_event_ids (merge_messages pre s)) ∧
  (∀ x, x ∈ mr_command_id <$> _buffered_reviews pre →
     x ∈ _seen_review_command_ids (merge_messages pre s)) ∧
  (∀ x, x ∈ mx_command_id <$> _buffered_action_resolutions pre →
     x ∈ _seen_action_resolution_ids (merge_messages pre s)) ∧
  (∀ x, x ∈ mc_command_id <$> _buffered_controls pre →
     x ∈ _seen_control_command_ids (merge_messages pre s)).
Proof.
  unfold merge_messages. split_and!; intros x Hx;
    rewrite ?(fold_field (λ s c, receive_control c s) _seen_event_ids),
      ?(fold_field (λ s r, receive_action_resolution r s) _seen_event_ids),
      ?(fold_field (λ s r, receive_review r s) _seen_event_ids),
      ?(fold_field (λ s c, receive_control c s) _seen_review_command_ids),
      ?(fold_field (λ s r, receive_action_resolution r s) _seen_review_command_ids),
      ?(fold_field (λ s c, receive_control c s) _seen_action_resolution_ids);
    try (intros; handlers).
  - eapply fold_seen; [|exact Hx]. intros; apply seen_event.
  - eapply fold_seen; [|exact Hx]. intros; apply seen_review.
  - eapply fold_seen; [|exact Hx]. intros; apply seen_resolution.
  - eapply fold_seen; [|exact Hx]. intros; apply seen_control.
Qed.

(** Receiving a message before the merge is receiving it after. *)
Lemma merge_receive pre s : fresh pre →
  (∀ e, merge_messages (receive_event e pre) s = receive_event e (merge_messages pre s)) ∧
  (∀ r, merge_messages (receive_review r pre) s = receive_review r (merge_messages pre s)) ∧
  (∀ r, merge_messages (receive_action_resolution r pre) s
     = receive_action_resolution r (merge_messages pre s)) ∧
  (∀ c, merge_messages (receive_control c pre) s = receive_control c (merge_messages pre s)).
Proof.
  intros [He Hr Hx Hk _]. destruct (merge_seen pre s) as (Se & Sr & Sx & Sk). split_and!; intros m.
  - unfold receive_event at 1. case_bool_decide as Hm.
    + unfold receive_event. rewrite bool_decide_true; [done|]. apply Se. set_solver.
    + unfold merge_messages. cbn. rewrite fold_left_app. cbn.
      rewrite (fold_commute _ (receive_event m)), (fold_commute _ (receive_event m)),
        (fold_commute _ (receive_event m)); auto using event_review, event_resolution, event_control.
  - unfold receive_review at 1. case_bool_decide as Hm.
    + unfold receive_review. rewrite bool_decide_true; [done|]. apply Sr. set_solver.
    + unfold merge_messages. cbn. rewrite fold_left_app. cbn.
      rewrite (fold_commute _ (receive_review m)), (fold_commute _ (receive_review m));
        auto using review_resolution, review_control.
  - unfold receive_action_resolution at 1. case_bool_decide as Hm.
    + unfold receive_action_resolution. rewrite bool_decide_true; [done|]. apply Sx. set_solver.
    + unfold merge_messages. cbn. rewrite fold_left_app. cbn.
      rewrite (fold_commute _ (receive_action_resolution m)); auto using resolution_control.
  - unfold receive_control at 1. case_bool_decide as Hm.
    + unfold receive_control. rewrite bool_decide_true; [done|]. apply Sk. set_solver.
    + unfold merge_messages. cbn. by rewrite fold_left_app.
Qed.

Lemma fresh_identify i pre : fresh pre → fresh (identify i pre).
Proof. intros []. by constructor. Qed.

Lemma plan_bystander pre : bystander (merge_wake_plan pre).
Proof. unfold merge_wake_plan. destruct (_wake_plan pre); constructor; intros; handlers. Qed.
Lemma revision_bystander : bystander (λ s, s <| _plan_revision ::= Z.succ |>).
Proof. constructor; intros; handlers. Qed.
Lemma close_bystander : bystander close.
Proof. constructor; intros; unfold close; handlers. Qed.

Lemma carry_receive s pre :
  (∀ m, carry s (receive_event m pre) = carry s pre) ∧ (∀ m, carry s (receive_review m pre) = carry s pre) ∧
  (∀ m, carry s (receive_action_resolution m pre) = carry s pre) ∧
  (∀ m, carry s (receive_control m pre) = carry s pre).
Proof. split_and!; intros; handlers. Qed.

Lemma plan_receive pre :
  (∀ m, merge_wake_plan (receive_event m pre) = merge_wake_plan pre) ∧
  (∀ m, merge_wake_plan (receive_review m pre) = merge_wake_plan pre) ∧
  (∀ m, merge_wake_plan (receive_action_resolution m pre) = merge_wake_plan pre) ∧
  (∀ m, merge_wake_plan (receive_control m pre) = merge_wake_plan pre).
Proof. split_and!; intros; handlers. Qed.

(** Handling one more signal before the start is handling it after. *)
Lemma merge_signal s sig pre : fresh pre →
  merge_prestart (handle_signal sig pre) (carry s (handle_signal sig pre))
  = handle_signal sig (merge_prestart pre (carry s pre)).
Proof.
  intros Hf. destruct (merge_receive pre (carry s pre) Hf) as (Me & Mr & Mx & Mk).
  destruct (carry_receive s pre) as (Ce & Cr & Cx & Ck). destruct (plan_receive pre) as (Pe & Pr & Px & Pk).
  unfold merge_prestart. destruct sig; cbn [handle_signal].
  - by rewrite Ce, Pe, Me, (by_event _ (plan_bystander pre)).
  - by rewrite Cr, Pr, Mr, (by_review _ (plan_bystander pre)).
  - by rewrite Cx, Px, Mx, (by_resolution _ (plan_bystander pre)).
  - by rewrite Ck, Pk, Mk, (by_control _ (plan_bystander pre)).
  - pose proof (merge_bystander _ pre (carry s pre) revision_bystander) as Hm.
    change (merge_wake_plan (replace_wake_plan p pre)
      (merge_messages pre (carry s pre <| _plan_revision ::= Z.succ |>)) =
      replace_wake_plan p (merge_wake_plan pre (merge_messages pre (carry s pre)))).
    rewrite Hm. unfold merge_wake_plan. by destruct (_wake_plan pre).
  - pose proof (merge_bystander _ pre (carry s pre) close_bystander) as Hm.
    change (merge_wake_plan pre (merge_messages pre (close (carry s pre))) =
      close (merge_wake_plan pre (merge_messages pre (carry s pre)))).
    rewrite Hm. unfold merge_wake_plan. by destruct (_wake_plan pre).
Qed.

Lemma identify_signal i sig pre : identify i (handle_signal sig pre) = handle_signal sig (identify i pre).
Proof. destruct sig; cbn; handlers. Qed.

(** C20: no signal is lost around Continue-As-New: signals that the successor of a
    run receives before it starts leave it in the same state as if it had
    received them, in the same order, right after starting. *)
Theorem prestart_signals_survive s sigs : restorable s →
  start_state (_continuation_input s) (handle_signals sigs mailbox_init)
  = handle_signals sigs <$> start_state (_continuation_input s) mailbox_init.
Proof.
  intros Hs. unfold start_state. rewrite !(restore_carried s _ Hs). cbn. f_equal.
  induction sigs as [|sig sigs IH] using rev_ind; [done|].
  rewrite !handle_signals_app. cbn [handle_signals fold_left]. rewrite identify_signal, merge_signal.
  - by rewrite IH.
  - apply fresh_identify, fresh_signals.
Qed.

Definition ex_carried : Mailbox :=
  w_state (snd (run (ex_definition 100) (ex_start [ex_opened; ex_noise] ex_turn_script))).

Lemma ex_carried_restorable : restorable ex_carried.
Proof.
  assert (_wake_records ex_carried = [mkWakeRecord "process_started" (Some "e1") (Some "case.opened") None
    (utc 0) None None]) as Hw by (vm_compute; reflexivity).
  assert (_turn_records ex_carried = [mkTurnRecord "uuid-0" (event_sources "e1") (Some ex_decision_json)
    (Some (JArr [])) (Some (JArr [])) None]) as Ht by (vm_compute; reflexivity).
  assert (_execution_records ex_carried = []) as He by (vm_compute; reflexivity).
  constructor; rewrite ?Hw, ?Ht, ?He; [by repeat constructor|by repeat constructor|constructor|].
  vm_compute. reflexivity.
Qed.

Lemma rollover_preserves_state_witness :
  ∃ s', start_state (_continuation_input ex_carried) mailbox_init = Some s'
        ∧ ms_buffered_events (state s') = [mkMailboxEvent "e2" "case.noted"].
Proof.
  destruct (rollover_preserves_state ex_carried ex_carried_restorable eq_refl eq_refl) as (s' & Hs & E & _).
  exists s'. split; [exact Hs|]. rewrite E. vm_compute. reflexivity.
Defined.

Lemma prestart_signals_survive_witness :
  start_state (_continuation_input ex_carried) (handle_signals [ex_opened; ex_noise; SigClose] mailbox_init)
  = handle_signals [ex_opened; ex_noise; SigClose]
      <$> start_state (_continuation_input ex_carried) mailbox_init.
Proof. apply (prestart_signals_survive ex_carried), ex_carried_restorable. Defined.
