(* ===== verification/MailboxInbox.v ===== *)
(** * Every message is taken at most once

    Across the channels of the mailbox, over a run and over Continue-As-New. *)

From stdpp Require Import base gmap sets list strings pretty.
From Stdlib Require Import ZArith Lia.
From S2P Require Import Prelude Python PyTime Json Contracts Mailbox Workflow Continuation MailboxRun Triples MailboxFacts MailboxTurns MailboxMeasure MailboxIdle ContinuationFacts.

#[local] Open Scope string_scope.

(** ** Channels *)

Inductive Channel := Events | Reviews | Resolutions | Controls.

(** The ids that wait in a buffer. *)
Definition waiting_ids (c : Channel) (s : Mailbox) : list string :=
  match c with
  | Events => me_event_id <$> _buffered_events s
  | Reviews => mr_command_id <$> _buffered_reviews s
  | Resolutions => mx_command_id <$> _buffered_action_resolutions s
  | Controls => mc_command_id <$> _buffered_controls s
  end.

Definition seen_ids (c : Channel) (s : Mailbox) : gset string :=
  match c with
  | Events => _seen_event_ids s
  | Reviews => _seen_review_command_ids s
  | Resolutions => _seen_action_resolution_ids s
  | Controls => _seen_control_command_ids s
  end.

(** The ids that the wake records say were taken. *)
Definition woken_ids (c : Channel) (s : Mailbox) : list string :=
  match c with
  | Events => omap wr_event_id (_wake_records s)
  | Reviews => omap wr_review_command_id (_wake_records s)
  | _ => []
  end.

(** No message is twice in the mailbox, or both there and in the wake records,
    and all of them are remembered as seen. *)
Definition orderly (s : Mailbox) : Prop := ∀ c,
  NoDup (woken_ids c s ++ waiting_ids c s) ∧
  ∀ id, id ∈ (woken_ids c s ++ waiting_ids c s)%list → id ∈ seen_ids c s.

(** A message that was seen and has left its buffer never comes back. *)
Definition forward (s s' : Mailbox) : Prop := ∀ c id,
  id ∈ seen_ids c s → id ∈ seen_ids c s' ∧ (id ∉ waiting_ids c s → id ∉ waiting_ids c s').

Definition keeps_order (w w' : World) : Prop :=
  (orderly (w_state w) → orderly (w_state w')) ∧ forward (w_state w) (w_state w').

#[export] Instance keeps_order_preorder : PreOrder keeps_order.
Proof.
  split; [intros w; split; [done|]; by intros ? ?|].
  intros w1 w2 w3 [H1 F1] [H2 F2]. split; [auto|]. intros c id Hid.
  destruct (F1 c id Hid) as [Hid' ?]. destruct (F2 c id Hid') as [? ?]. auto.
Qed.

(** An assignment that leaves the channels alone. *)
Definition same_channels (s s' : Mailbox) : Prop := ∀ c,
  waiting_ids c s' = waiting_ids c s ∧ seen_ids c s' = seen_ids c s ∧ woken_ids c s' = woken_ids c s.

Lemma same_channels_keeps w w' : same_channels (w_state w) (w_state w') → keeps_order w w'.
Proof.
  intros Hs. split.
  - intros Ho c. destruct (Hs c) as (-> & -> & ->). apply Ho.
  - intros c id Hid. destruct (Hs c) as (-> & -> & _). auto.
Qed.

(** ** Signals *)

(** A message with a new id enters its buffer and the set of seen ids. *)
Lemma arrival_keeps c id s s' :
  id ∉ seen_ids c s → seen_ids c s' = {[id]} ∪ seen_ids c s →
  waiting_ids c s' = (waiting_ids c s ++ [id])%list → woken_ids c s' = woken_ids c s →
  (∀ c', c' ≠ c → waiting_ids c' s' = waiting_ids c' s ∧ seen_ids c' s' = seen_ids c' s
                ∧ woken_ids c' s' = woken_ids c' s) →
  (orderly s → orderly s') ∧ forward s s'.
Proof.
  intros Hn Es Ew Ek Ho. assert (∀ c', {c' = c} + {c' ≠ c}) as dec by (intros; decide equality).
  split.
  - intros Hord c'. destruct (dec c') as [->|Hc]; [|destruct (Ho c' Hc) as (-> & -> & ->); apply Hord].
    destruct (Hord c) as [Hnd Hin]. rewrite Es, Ew, Ek, app_assoc. split.
    + apply NoDup_app. split_and!; [done| |apply NoDup_singleton].
      intros x Hx ->%list_elem_of_singleton. auto.
    + intros x [Hx|Hx]%elem_of_app; [specialize (Hin x Hx); set_solver|set_solver].
  - intros c' x Hx. destruct (dec c') as [->|Hc]; [|destruct (Ho c' Hc) as (-> & -> & _); auto].
    rewrite Es, Ew. split; [set_solver|]. intros Hw [?|?%list_elem_of_singleton]%elem_of_app; set_solver.
Qed.

Lemma signal_keeps sig s : (orderly s → orderly (handle_signal sig s)) ∧ forward s (handle_signal sig s).
Proof.
  destruct sig; cbn; unfold receive_event, receive_review, receive_action_resolution, receive_control;
    try case_bool_decide; try (split; [done|]; by intros ? ?).
  - apply (arrival_keeps Events (me_event_id e)); try done; [cbn; by rewrite fmap_app|by intros []].
  - apply (arrival_keeps Reviews (mr_command_id r)); try done; [cbn; by rewrite fmap_app|by intros []].
  - apply (arrival_keeps Resolutions (mx_command_id r)); try done; [cbn; by rewrite fmap_app|by intros []].
  - apply (arrival_keeps Controls (mc_command_id c)); try done; [cbn; by rewrite fmap_app|by intros []].
Qed.

Lemma signals_keep sigs s :
  (orderly s → orderly (handle_signals sigs s)) ∧ forward s (handle_signals sigs s).
Proof.
  revert s. induction sigs as [|sig sigs IH]; intros s; [split; [done|]; by intros ? ?|].
  destruct (signal_keeps sig s) as [H1 F1]. destruct (IH (handle_signal sig s)) as [H2 F2].
  split; [auto|]. intros c id Hid. destruct (F1 c id Hid) as [Hid' ?].
  destruct (F2 c id Hid') as [? ?]. auto.
Qed.

(** ** Turns and rounds *)

#[export] Instance keeps_order_runtime : Runtime keeps_order.
Proof.
  constructor; [intros w; by apply same_channels_keeps|].
  intros w v script _. apply (signals_keep (av_signals v) (w_state w)).
Qed.

Lemma admits_same f : (∀ s, same_channels s (f s)) → admits keeps_order f.
Proof. intros Hf w. apply same_channels_keeps, Hf. Qed.

#[export] Instance keeps_order_steps : StepEffects keeps_order.
Proof.
  constructor; try apply _; intros; try (apply admits_same; intros s c; by destruct c).
  - apply admits_same. intros s c. unfold _add_pending_action. case_bool_decide; by destruct c.
  - intros w _. by apply same_channels_keeps.
Qed.
#[export] Instance keeps_order_turn : TurnEffects keeps_order.
Proof. constructor; [apply _|]. intros a _ w _. by apply same_channels_keeps. Qed.

(** A message leaves its buffer, perhaps for the wake records. *)
Lemma departure_keeps c id s s' :
  waiting_ids c s ≡ₚ id :: waiting_ids c s' →
  woken_ids c s' = woken_ids c s ∨ woken_ids c s' = (woken_ids c s ++ [id])%list →
  seen_ids c s' = seen_ids c s →
  (∀ c', c' ≠ c → waiting_ids c' s' = waiting_ids c' s ∧ seen_ids c' s' = seen_ids c' s
                ∧ woken_ids c' s' = woken_ids c' s) →
  (orderly s → orderly s') ∧ forward s s'.
Proof.
  intros Hp Ek Es Ho. assert (∀ c', {c' = c} + {c' ≠ c}) as dec by (intros; decide equality).
  split.
  - intros Hord c'. destruct (dec c') as [->|Hc]; [|destruct (Ho c' Hc) as (-> & -> & ->); apply Hord].
    destruct (Hord c) as [Hnd Hin]. rewrite Hp in Hnd. setoid_rewrite Hp in Hin. rewrite Es.
    destruct Ek as [->| ->].
    + split; [|set_solver]. apply NoDup_app in Hnd as (? & Hd & [? ?]%NoDup_cons). apply NoDup_app.
      set_solver.
    + rewrite <- app_assoc. split; [exact Hnd|exact Hin].
  - intros c' x Hx. destruct (dec c') as [->|Hc]; [|destruct (Ho c' Hc) as (-> & -> & _); auto].
    rewrite Es, Hp. set_solver.
Qed.

Lemma head_departs {A} (f : A → string) x xs l : l = x :: xs → f <$> l ≡ₚ f x :: (f <$> pop_at 0 l).
Proof. by intros ->. Qed.

Lemma omap_snoc {A B} (f : A → option B) l x :
  omap f (l ++ [x])%list = (omap f l ++ match f x with Some y => [y] | None => [] end)%list.
Proof. rewrite omap_app. cbn. by destruct (f x). Qed.

#[export] Instance keeps_order_loop : LoopEffects keeps_order.
Proof.
  constructor; try apply _; intros; try (apply admits_same; intros s c; by destruct c).
  - intros w. cbn. destruct (_buffered_action_resolutions (w_state w)) as [|r rs] eqn:E.
    + apply same_channels_keeps. intros c. destruct c; cbn; rewrite ?E; done.
    + apply (departure_keeps Resolutions (mx_command_id r)); try done; [|by left|by intros []].
      cbn. by rewrite E.
  - intros w. cbn. destruct (_buffered_controls (w_state w)) as [|r rs] eqn:E.
    + apply same_channels_keeps. intros c. destruct c; cbn; rewrite ?E; done.
    + apply (departure_keeps Controls (mc_command_id r)); try done; [|by left|by intros []].
      cbn. by rewrite E.
  - rewrite wake_on_event_eq. apply (departure_keeps Events (me_event_id e)); try done.
    + cbn. rewrite <- fmap_cons. by apply fmap_Permutation, pop_at_Permutation.
    + right. cbn. by rewrite omap_snoc.
    + intros []; try done; intros _; cbn; rewrite omap_snoc; by rewrite app_nil_r.
  - rewrite wake_on_review_eq. apply (departure_keeps Reviews (mr_command_id r)); try done.
    + cbn. by rewrite H.
    + right. cbn. by rewrite omap_snoc.
    + intros []; try done; intros _; cbn; rewrite omap_snoc; by rewrite app_nil_r.
  - apply admits_same. intros s c. split_and!; [by destruct c..|].
    destruct c; cbn; try done; rewrite omap_snoc; [rewrite H|rewrite H0]; by rewrite app_nil_r.
Qed.

(** ** Starting a run *)

Lemma read_wake_record_ids r r' : read_wake_record (wake_record_document r) = Some r' →
  wr_event_id r' = wr_event_id r ∧ wr_review_command_id r' = wr_review_command_id r.
Proof.
  destruct r as [reason e t i w c ct]. unfold read_wake_record. read_document.
  destruct (fromisoformat (isoformat w)); cbn; [|done]. by intros [= <-].
Qed.

Lemma mapM_ids {A} (docs : list WakeRecord) rs (f : WakeRecord → option A) :
  mapM read_wake_record (wake_record_document <$> docs) = Some rs →
  (∀ r r', read_wake_record (wake_record_document r) = Some r' → f r' = f r) → omap f rs = omap f docs.
Proof.
  intros Hm Hf. revert rs Hm. induction docs as [|d docs IH]; intros rs; cbn; [by intros [= <-]|].
  intros (r & Hr & Hm)%bind_Some. apply bind_Some in Hm as (rs' & Hrs & [= <-]). cbn.
  by rewrite (Hf d r Hr), (IH rs' Hrs).
Qed.

Lemma sublist_omap {A B} (f : A → option B) l k : l `sublist_of` k → omap f l `sublist_of` omap f k.
Proof.
  induction 1 as [|x l k _ IH|x l k _ IH]; cbn; [done|..]; destruct (f x); try done.
  - by apply sublist_skip.
  - by apply sublist_cons.
Qed.

(** What a successor reads, it reads of the messages of its predecessor. *)
Lemma load_channels s pre s' : load_snapshot (mi_continuation (_continuation_input s)) pre = Some s' →
  ∀ c, waiting_ids c s' = waiting_ids c s ∧ seen_ids c s' = seen_ids c s
       ∧ woken_ids c s' `sublist_of` woken_ids c s.
Proof.
  unfold load_snapshot, _continuation_input. cbn [mi_continuation
    mk_buffered_events mk_buffered_reviews mk_buffered_action_resolutions mk_buffered_controls
    mk_recent_wake_records mk_recent_turn_records mk_recent_execution_records mk_wake_plan].
  rewrite (mapM_read read_event), (mapM_read read_review), (mapM_read read_resolution),
    (mapM_read read_control);
    try solve [apply Forall_true; auto using read_event_document, read_review_document,
      read_resolution_document, read_control_document].
  cbn [mbind option_bind]. intros (wakes & Hw & H)%bind_Some.
  apply bind_Some in H as (turns & _ & H). apply bind_Some in H as (execs & _ & H).
  apply bind_Some in H as (plan & _ & [= <-]). intros c.
  split_and!; [by destruct c|destruct c; apply list_to_set_sorted_ids|].
  destruct c; cbn; try apply sublist_nil_l;
    (rewrite (mapM_ids _ _ _ Hw) by (intros; by apply read_wake_record_ids));
    apply sublist_omap, last_n_sublist.
Qed.

Lemma merge_keeps pre s : (orderly s → orderly (merge_prestart pre s)) ∧ forward s (merge_prestart pre s).
Proof.
  set (sigs := ((SigEvent <$> _buffered_events pre) ++ (SigReview <$> _buffered_reviews pre)
    ++ (SigResolution <$> _buffered_action_resolutions pre) ++ (SigControl <$> _buffered_controls pre))%list).
  assert (merge_messages pre s = handle_signals sigs s) as E.
  { assert (∀ {A} (f : A → Signal) xs s, fold_left (λ s x, handle_signal (f x) s) xs s
      = handle_signals (f <$> xs) s) as Hf.
    { intros A f xs. induction xs as [|x xs IH]; intros s0; [done|]. apply IH. }
    unfold merge_messages, sigs. rewrite !handle_signals_app, <- !Hf. done. }
  assert (same_channels (merge_messages pre s) (merge_prestart pre s)) as Hs.
  { unfold merge_prestart, merge_wake_plan. intros c. by destruct (_wake_plan pre), c. }
  rewrite E in Hs. destruct (signals_keep sigs s) as [Ho Fo]. split.
  - intros Hord c. destruct (Hs c) as (-> & -> & ->). by apply Ho.
  - intros c id Hid. destruct (Hs c) as (-> & -> & _). by apply Fo.
Qed.

Lemma orderly_init : orderly mailbox_init.
Proof. intros []; cbn; (split; [constructor|set_solver]). Qed.

Lemma prestart_orderly input pre : orderly (identify input (handle_signals pre mailbox_init)).
Proof. intros c. destruct (proj1 (signals_keep pre mailbox_init) orderly_init c). by destruct c. Qed.

Lemma run_eq input w :
  run input w = match _restore_continuation (mi_continuation input) (identify input (w_state w)) with
                | inl e => (Throw e, w <| w_state ::= identify input |>)
                | inr s => (_ ← main_loop; s ← self; mret (state s)) (w <| w_state := s |>)
                end.
Proof.
  unfold run. rewrite (bind_done (update (identify input)) _ w tt (w <| w_state ::= identify input |>))
    by done.
  rewrite (bind_done self _ (w <| w_state ::= identify input |>) (identify input (w_state w))
    (w <| w_state ::= identify input |>)) by done.
  destruct (_restore_continuation _ _) as [e|s]; [done|].
  by rewrite (bind_done (update (λ _, s)) _ _ tt (w <| w_state := s |>)).
Qed.

(** A run ends in order if it starts its loop in order. *)
Lemma run_from_start input w :
  match start_state input (w_state w) with
  | Some s => keeps_order (w <| w_state := s |>) (snd (run input w))
  | None => w_state (snd (run input w)) = identify input (w_state w)
  end.
Proof.
  unfold start_state. rewrite run_eq. destruct (_restore_continuation _ _) as [e|s]; [done|].
  apply (follows_run keeps_order (_ ← main_loop; s ← self; mret (state s))).
  apply follows_bind; [apply _|apply follows_main_loop, _|]. follow.
Qed.

(** ** The life of a process *)

(** The ends of the runs of one process: the first run starts with nothing, each
    later one with what its predecessor handed over; both may find signals that
    were delivered before they started. *)
Inductive lived : outcome MailboxState → World → Prop :=
  | lived_first pre input w :
      mi_continuation input = first_run → w_state w = handle_signals pre mailbox_init →
      lived (fst (run input w)) (snd (run input w))
  | lived_next input w1 pre w :
      lived (Throw (ContinueAsNew input)) w1 → w_state w = handle_signals pre mailbox_init →
      lived (fst (run input w)) (snd (run input w)).

Lemma lived_hands_over input w : lived (Throw (ContinueAsNew input)) w →
  input = _continuation_input (w_state w).
Proof.
  intros H. inversion H as [pre i w0 Hi Hw Hr Hs|i w1 pre w0 Hl Hw Hr Hs];
    apply (run_hands_over i w0); rewrite <- Hr; by destruct (run i w0).
Qed.

Lemma start_state_inv input pre s : start_state input pre = Some s →
  ∃ s0, load_snapshot (mi_continuation input) (identify input pre) = Some s0
        ∧ s = merge_prestart (identify input pre) s0.
Proof.
  unfold start_state, _restore_continuation. case_bool_decide; [|done].
  destruct (load_snapshot _ _) as [s0|]; [|done]. intros [= <-]. by exists s0.
Qed.

Lemma lived_orderly r w : lived r w → orderly (w_state w).
Proof.
  intros H. induction H as [pre input w Hi Hw|input w1 pre w Hl IH Hw].
  - pose proof (run_from_start input w) as Hr. destruct (start_state input (w_state w)) as [s|] eqn:Es;
      [|rewrite Hr, Hw; apply prestart_orderly].
    apply Hr. cbn. apply start_state_inv in Es as (s0 & Hs0 & ->). apply merge_keeps.
    rewrite Hi in Hs0. injection Hs0 as <-. intros []; cbn; (split; [constructor|set_solver]).
  - apply lived_hands_over in Hl as ->.
    pose proof (run_from_start (_continuation_input (w_state w1)) w) as Hr.
    destruct (start_state _ (w_state w)) as [s|] eqn:Es; [|rewrite Hr, Hw; apply prestart_orderly].
    apply Hr. cbn. apply start_state_inv in Es as (s0 & Hs0 & ->). apply merge_keeps.
    intros c. destruct (load_channels _ _ _ Hs0 c) as (-> & -> & Hk). destruct (IH c) as [Hnd Hin].
    assert ((woken_ids c s0 ++ waiting_ids c (w_state w1))%list
      `sublist_of` (woken_ids c (w_state w1) ++ waiting_ids c (w_state w1))%list) as Hsub
      by by apply sublist_app.
    split; [by eapply sublist_NoDup|]. intros id Hid. apply Hin.
    by eapply elem_of_sublist.
Qed.

(** C16: at every end of every run of a process, through any number of
    Continue-As-New, no event and no review command is recorded twice as having
    woken the process, none of those is still buffered, and no message is
    buffered twice: redelivered signals have no effect. *)
Theorem messages_are_taken_at_most_once r w : lived r w →
  ∀ c, NoDup (woken_ids c (w_state w) ++ waiting_ids c (w_state w)).
Proof. intros H c. by apply (lived_orderly r w H). Qed.

(** What a run has taken out of its mailbox never comes back, also not in its
    successor: once a message was seen and has left its buffer, no signal before
    or during the next run puts it there again. *)
Theorem taken_messages_never_return input w1 pre w s c id :
  lived (Throw (ContinueAsNew input)) w1 → w_state w = handle_signals pre mailbox_init →
  start_state input (w_state w) = Some s →
  id ∈ seen_ids c (w_state w1) → id ∉ waiting_ids c (w_state w1) →
  id ∉ waiting_ids c (w_state (snd (run input w))).
Proof.
  intros Hl Hw Hs Hin Hout. apply lived_hands_over in Hl as ->.
  pose proof (run_from_start (_continuation_input (w_state w1)) w) as Hr. rewrite Hs in Hr.
  apply start_state_inv in Hs as (s0 & Hs0 & ->).
  destruct (load_channels _ _ _ Hs0 c) as (Hq & Hseen & _).
  destruct (merge_keeps (identify (_continuation_input (w_state w1)) (w_state w)) s0) as [_ Fm].
  destruct Hr as [_ Fr]. specialize (Fm c id). rewrite Hseen, Hq in Fm.
  destruct (Fm Hin) as [Hin' Hout']. apply (Fr c id Hin'), Hout', Hout.
Qed.

Definition ex_first_run : outcome MailboxState * World :=
  run (ex_definition 1) (ex_start [ex_opened; ex_noise] ex_turn_script).

Lemma ex_first_lived : lived (fst ex_first_run) (snd ex_first_run).
Proof. by apply (lived_first [ex_opened; ex_noise]). Qed.

Lemma messages_are_taken_at_most_once_witness :
  NoDup (woken_ids Events (w_state (snd ex_first_run)) ++ waiting_ids Events (w_state (snd ex_first_run))).
Proof. apply (messages_are_taken_at_most_once (fst ex_first_run)), ex_first_lived. Defined.

Definition ex_next_input : MailboxInput := _continuation_input (w_state (snd ex_first_run)).

Lemma taken_messages_never_return_witness :
  "e1" ∉ waiting_ids Events (w_state (snd (run ex_next_input (ex_start [ex_opened] [])))).
Proof.
  assert (lived (Throw (ContinueAsNew ex_next_input)) (snd ex_first_run)) as Hl.
  { replace (Throw (ContinueAsNew ex_next_input)) with (fst ex_first_run) by (vm_compute; reflexivity).
    apply ex_first_lived. }
  destruct (start_state ex_next_input (w_state (ex_start [ex_opened] []))) as [s|] eqn:Es;
    [|vm_compute in Es; discriminate].
  apply (taken_messages_never_return ex_next_input (snd ex_first_run) [ex_opened] (ex_start [ex_opened] [])
    s Events "e1" Hl eq_refl Es).
  - apply (bool_decide_eq_true_1 ("e1" ∈ seen_ids Events (w_state (snd ex_first_run)))).
    vm_compute. reflexivity.
  - apply (bool_decide_eq_true_1 ("e1" ∉ waiting_ids Events (w_state (snd ex_first_run)))).
    vm_compute. reflexivity.
Defined.
