(* ===== verification/MailboxOutcomes.v ===== *)
(** * Wake plans, and an approved action that cannot be executed *)

From stdpp Require Import base gmap sets list strings pretty.
From Stdlib Require Import ZArith Lia Sorted.
From S2P Require Import Prelude Python PyTime Json Contracts Mailbox Workflow Continuation MailboxRun Triples MailboxFacts.

#[local] Open Scope string_scope.
#[local] Open Scope nat_scope.

(** ** The timer of a wake plan *)

(** [a] goes before [b]: earlier, or as early and named first. *)
Definition not_after (a b : nat * datetime) : Prop :=
  (instant (snd a) < instant (snd b))%Z ∨ (instant (snd a) = instant (snd b) ∧ (fst a ≤ fst b)%nat)%Z.

#[local] Instance not_after_preorder : PreOrder not_after.
Proof.
  split; [intros [i a]; right; cbn; lia|].
  intros [i a] [j b] [k c]. unfold not_after. cbn. lia.
Qed.

Lemma earliest_spec timers : ∀ best t, earliest best timers = Some t →
  Forall (λ x, fst best ≤ fst x) timers → StronglySorted (λ x y, fst x ≤ fst y) timers →
  t ∈ best :: timers ∧ Forall (not_after t) (best :: timers).
Proof.
  induction timers as [|x timers IH]; intros best t; cbn.
  { intros [= <-] _ _. split; [set_solver|]. by repeat constructor. }
  destruct (Bool.eqb _ _); [|done]. intros E Hb Hs.
  apply Forall_cons in Hb as [Hbx Hb]. apply StronglySorted_inv in Hs as [Hs Hx].
  destruct (instant (snd x) <? instant (snd best))%Z eqn:Hlt.
  - destruct (IH x t E Hx Hs) as [Hin Ht]. split; [set_solver|].
    apply Forall_cons in Ht as [Htx Ht]. rewrite !Forall_cons. split_and!; try done.
    etrans; [exact Htx|]. left. lia.
  - destruct (IH best t E Hb Hs) as [Hin Ht]. split; [set_solver|].
    apply Forall_cons in Ht as [Htb Ht]. rewrite !Forall_cons. split_and!; try done.
    etrans; [exact Htb|]. unfold not_after. lia.
Qed.

(** The timers keep the order of the wake conditions. *)
Lemma timers_sorted_from n wakes ts :
  (o ← mapM (λ '(i, item),
     t ← get_key "type" item;
     if is_text "timer" t then d ← get_str "at" item ≫= fromisoformat; Some (Some (i, d)) else Some None)
     (imap (λ i x, (n + i, x)) wakes); Some (omap id o)) = Some ts →
  Forall (λ x, n ≤ fst x) ts ∧ StronglySorted (λ x y, fst x ≤ fst y) ts.
Proof.
  revert n ts. induction wakes as [|w wakes IH]; intros n ts; cbn.
  { intros [= <-]. split; constructor. }
  intros (o & Ho & [= <-])%bind_Some. apply bind_Some in Ho as (h & Hh & Ho).
  apply bind_Some in Ho as (o' & Ho & [= <-]).
  assert (imap ((λ i x, (n + i, x)) ∘ S) wakes = imap (λ i x, (S n + i, x)) wakes) as E.
  { apply imap_ext. intros i x _. cbn. f_equal. lia. }
  rewrite E in Ho. specialize (IH (S n) (omap id o')). rewrite Ho in IH.
  destruct (IH eq_refl) as [Hn Hs].
  assert (Forall (λ x : nat * datetime, n ≤ fst x) (omap id o')) as Hn'.
  { eapply List.Forall_impl; [|exact Hn]. cbn. lia. }
  cbn. destruct h as [[i d]|]; cbn; [|done].
  apply bind_Some in Hh as (t & _ & Hh). destruct (is_text _ _); [|done].
  apply bind_Some in Hh as (d' & _ & [= <- <-]). rewrite Nat.add_0_r.
  split; constructor; cbn; auto.
Qed.

Lemma timers_of_sorted wakes ts : timers_of wakes = Some ts → StronglySorted (λ x y, fst x ≤ fst y) ts.
Proof. intros H. apply (timers_sorted_from 0 wakes ts H). Qed.

(** Of several timers of a decision the wake plan keeps the earliest, the first
    named of equally early ones, under the id that names its position; without a
    timer it sets none. *)
Theorem wake_plan_takes_earliest_timer res d terminal wakes timers plan :
  outcome_of res d = Some (terminal, wakes) → timers_of wakes = Some timers →
  turn_outcome res d = Some (Some plan) →
  (timers = [] ∧ wp_timer_at plan = None ∧ wp_timer_id plan = None) ∨
  ∃ t id, t ∈ timers ∧ Forall (not_after t) timers ∧ wp_timer_at plan = Some (snd t)
    ∧ get_str "decision_id" d = Some id ∧ wp_timer_id plan = Some (id +:+ ":timer:" +:+ pretty (fst t)).
Proof.
  intros Ho Ht. unfold turn_outcome. rewrite Ho. cbn. intros (es & _ & H)%bind_Some.
  apply bind_Some in H as (hs & _ & H). rewrite Ht in H. cbn in H.
  apply bind_Some in H as (sel & Hsel & H). destruct terminal; [done|].
  apply bind_Some in H as (tid & Htid & [= <-]). cbn.
  pose proof (timers_of_sorted wakes timers Ht) as Hs.
  destruct timers as [|t0 timers]; cbn in Hsel.
  { injection Hsel as <-. injection Htid as <-. by left. }
  destruct (earliest t0 timers) as [t|] eqn:Et; [|done]. injection Hsel as <-.
  apply StronglySorted_inv in Hs as [Hs Hx]. destruct (earliest_spec timers t0 t Et Hx Hs) as [Hin Hall].
  destruct t as [i at_]. cbn in Htid. apply bind_Some in Htid as (id & Hid & [= <-]).
  right. by exists (i, at_), id.
Qed.

Lemma wake_plan_takes_earliest_timer_witness :
  ∃ plan, turn_outcome ex_result ex_decision_json = Some (Some plan)
          ∧ wp_timer_id plan = Some "d1:timer:2".
Proof.
  destruct (turn_outcome ex_result ex_decision_json) as [[plan|]|] eqn:E;
    [|vm_compute in E; discriminate..].
  exists plan. split; [done|]. assert (outcome_of ex_result ex_decision_json = Some (false, ex_wake_list)) as Ho
    by (vm_compute; reflexivity).
  assert (timers_of ex_wake_list =
    Some [(0, DateTime 1767312000000000 (Some 0%Z)); (2, DateTime 1767268800000000 (Some 0%Z))]) as Ht
    by (vm_compute; reflexivity).
  destruct (wake_plan_takes_earliest_timer _ _ _ _ _ _ Ho Ht E)
    as [[? _]|(t & id & Hin & Hall & _ & Hid & ->)]; [done|].
  injection Hid as <-. apply Forall_cons in Hall as [_ Hall]. apply Forall_cons in Hall as [Hl _].
  apply list_elem_of_In in Hin as [<-|[<-|[]]]; [|done].
  destruct Hl as [Hl|[Hl _]]; vm_compute in Hl; discriminate.
Defined.

(** ** An approved action that cannot be executed *)

Definition other_failure (e : ActivityError) : Prop :=
  _is_activity_error_type e "ActionExecutionSuspended" = false
  ∧ _is_activity_error_type e "DeploymentCompatibilityError" = false.

(** An activity that fails at the next activation. *)
Lemma call_fails a e v script w : w_script w = v :: script →
  av_resolution v = Some (ActivityResolved (Failed e)) →
  execute_activity a w = (Throw (ActivityFailed e),
    activate v (w <| w_log ::= λ l, (l ++ [(a, w_state w)])%list |>) <| w_script := script |>).
Proof.
  intros Hs Hr. unfold execute_activity.
  rewrite (bind_done (log_call a) _ w tt (w <| w_log ::= λ l, (l ++ [(a, w_state w)])%list |>)) by done.
  unfold await, mbind, M_bind. cbn. rewrite Hs. cbn. by rewrite Hr.
Qed.

Lemma retry_fails ty a e v script w : w_script w = v :: script →
  av_resolution v = Some (ActivityResolved (Failed e)) → _is_activity_error_type e ty = false →
  suspension_retry ty (execute_activity a) w = (Throw (ActivityFailed e),
    activate v (w <| w_log ::= λ l, (l ++ [(a, w_state w)])%list |>) <| w_script := script |>).
Proof.
  intros Hs Hr He. unfold suspension_retry, while_true. cbn [loop]. unfold try_activity.
  unfold mbind, M_bind. rewrite (call_fails a e v script w Hs Hr). by rewrite He.
Qed.

Lemma approved_execution_fails id rev e v script w : w_script w = v :: script → av_signals v = [] →
  av_resolution v = Some (ActivityResolved (Failed e)) → other_failure e →
  ∃ w', _execute_pending_action id rev w = (Done None, w')
    ∧ w_state w' = append_execution_record (mkExecutionRecord id rev None (Some (ae_text e)))
        (_add_pending_action id (w_state w))
    ∧ fst <$> w_log w' = ((fst <$> w_log w) ++ [execute_action (mkActionCall (_tenant_id (w_state w))
        (_process_instance_id (w_state w)) id rev)])%list.
Proof.
  intros Hs Hv Hr [He1 He2]. unfold _execute_pending_action.
  rewrite (bind_done (update _) _ w tt (w <| w_state ::= _add_pending_action id |>)) by done.
  unfold try_activity.
  rewrite (bind_done self _ _ (_add_pending_action id (w_state w)) (w <| w_state ::= _add_pending_action id |>))
    by done.
  set (w1 := w <| w_state ::= _add_pending_action id |>).
  match goal with |- context [suspension_retry ?ty (execute_activity ?a)] => set (call := a) end.
  match goal with |- context [match ?m w1 with _ => _ end] =>
    assert (m w1 = (Throw (ActivityFailed e),
      activate v (w1 <| w_log ::= λ l, (l ++ [(call, w_state w1)])%list |>) <| w_script := script |>)) as ->
  end.
  { unfold mbind, M_bind. by rewrite (retry_fails _ call e v script w1 Hs Hr He1). }
  rewrite He2. eexists. split; [reflexivity|]. cbn. rewrite Hv, fmap_app. cbn. split; [done|].
  unfold call, _add_pending_action. by case_bool_decide.
Qed.

Lemma act_on_approval r w : mr_command_type r = "approve" →
  act_on_review r w =
  (execution ← _execute_pending_action (mr_action_request_id r) (mr_proposal_revision r);
   match execution with
   | Some x => attempt_id ← read (get_str "attempt_id" x); _run_turn (attempt_sources [attempt_id])
   | None => mret tt
   end) (w <| w_state ::= _clear_wake_plan |>).
Proof.
  intros Ht. unfold act_on_review. rewrite Ht.
  by rewrite (bind_done (update _clear_wake_plan) _ w tt (w <| w_state ::= _clear_wake_plan |>)).
Qed.


