(* ===== verification/Definitions.v ===== *)
(** * [processes/definitions.py]: configuration contracts

    A [ProcessDefinition] is the configuration one process version runs under:
    its validators, its fingerprint, the two deterministic policies compiled from
    it and the instructions written for the agent.  pydantic is modelled by the
    validators it runs: a construction returns or raises a [ValueError]. *)

From stdpp Require Import base list strings pretty sets.
From Stdlib Require Import ZArith Lia Ascii.
From S2P Require Import Prelude Python PyTime Json Digests Limits Contracts DecisionPolicy.

#[local] Open Scope Z_scope.
#[local] Open Scope string_scope.

(** ** Data *)

Inductive DefinitionStatus := DRAFT | PUBLISHED | RETIRED.
Definition definition_status_value (s : DefinitionStatus) : string :=
  match s with DRAFT => "draft" | PUBLISHED => "published" | RETIRED => "retired" end.

Record ProcessLimits := mkProcessLimits {
  pl_max_actions_per_turn : Z;
  pl_max_follow_ups_without_reply : Z;
  pl_minimum_follow_up_interval_hours : Z;
  pl_maximum_timer_horizon_days : Z;
  pl_max_outbound_messages_per_process : Z;
  pl_max_outbound_messages_per_window : Z;
  pl_outbound_message_window_hours : Z;
  pl_maximum_process_lifetime_days : Z;
  pl_max_model_input_tokens_per_process : Z;
  pl_max_model_output_tokens_per_process : Z;
  pl_max_model_total_tokens_per_process : Z;
  pl_max_model_cost_micros_per_process : Z
}.

Definition default_process_limits : ProcessLimits :=
  mkProcessLimits 3 3 24 30 50 5 24 90 1000000 250000 1000000 20000000.

(** Each field with its name, its [ge] and its [le]. *)
Definition process_limit_ranges (l : ProcessLimits) : list (string * Z * Z * Z) :=
  [("max_actions_per_turn", pl_max_actions_per_turn l, 0, 20);
   ("max_follow_ups_without_reply", pl_max_follow_ups_without_reply l, 0, 100);
   ("minimum_follow_up_interval_hours", pl_minimum_follow_up_interval_hours l, 1, 24 * 30);
   ("maximum_timer_horizon_days", pl_maximum_timer_horizon_days l, 1, 365);
   ("max_outbound_messages_per_process", pl_max_outbound_messages_per_process l, 0, 10000);
   ("max_outbound_messages_per_window", pl_max_outbound_messages_per_window l, 0, 1000);
   ("outbound_message_window_hours", pl_outbound_message_window_hours l, 1, 24 * 30);
   ("maximum_process_lifetime_days", pl_maximum_process_lifetime_days l, 1, 3650);
   ("max_model_input_tokens_per_process", pl_max_model_input_tokens_per_process l, 0, 1000000000);
   ("max_model_output_tokens_per_process", pl_max_model_output_tokens_per_process l, 0, 1000000000);
   ("max_model_total_tokens_per_process", pl_max_model_total_tokens_per_process l, 0, 1000000000);
   ("max_model_cost_micros_per_process", pl_max_model_cost_micros_per_process l, 0, 10 ^ 15)]%Z.

Definition process_limits_validate (l : ProcessLimits) : result unit :=
  for_each (λ '(name, value, ge, le),
    raise_if ((value <? ge)%Z || (le <? value)%Z) ValueError name) (process_limit_ranges l).

(** [ReviewConfiguration.commands] *)
Definition review_configuration_validate (commands : list ReviewCommandType) : result unit :=
  raise_if (negb (subset_of commands [RC_APPROVE; RC_REJECT; RC_REQUEST_REVISION; RC_COMMENT]))
    ValueError "process definition advertises an unsupported review command" ≫= λ _,
  raise_if (negb (all_unique commands)) ValueError "review commands must be unique".

(** A clock time: microseconds since midnight, with its UTC offset if it has one. *)
Record time := Time { time_usec : Z; time_offset : option Z }.
#[export] Instance time_eq_dec : EqDecision time.
Proof. solve_decision. Defined.

Record DailyQuietHours := mkQuietHours {
  qh_timezone : string; qh_start_local : time; qh_end_local : time
}.

Record CommunicationConfiguration := mkCommunications {
  cc_outbound_action_types : list string;
  cc_reply_event_types : list string;
  cc_opt_out_event_types : list string;
  cc_automated_response_event_types : list string;
  cc_quiet_hours : option DailyQuietHours
}.

Record FactDefinition := mkFactDefinition {
  fd_key : string;
  fd_title : string;
  fd_description : string;
  fd_kinds : list FactKind;
  fd_value_schema : list (string * json);
  fd_operator_editable : bool
}.

(** Dictionaries are their items in insertion order. *)
Record ProcessDefinition := mkDefinition {
  pd_id : string;
  pd_version : string;
  pd_status : DefinitionStatus;
  pd_trigger_events : list string;
  pd_goals : list string;
  pd_terminal_states : list ProcessStatus;
  pd_allowed_actions : list string;
  pd_action_permissions : list (string * PermissionOutcome);
  pd_action_guidance : list (string * string);
  pd_decision_guidance : list string;
  pd_allowed_wake_events : list string;
  pd_limits : ProcessLimits;
  pd_review : list ReviewCommandType;
  pd_communications : CommunicationConfiguration;
  pd_integrations : list (string * string);
  pd_facts : list FactDefinition;
  pd_completion_requirements : list (string * json)
}.

(** ** Validators *)

Definition disjoint_sets (xs ys : list string) : bool :=
  negb (existsb (λ x, bool_decide (x ∈ ys)) xs).

Section validators.
(** The IANA zones the host's [zoneinfo] knows. *)
Context (known_zone : string → bool).

(** The field constraints, [validate_timezone] and [validate_interval]. *)
Definition quiet_hours_validate (q : DailyQuietHours) : result unit :=
  raise_if ((py_len (qh_timezone q) <? 1)%nat || (100 <? py_len (qh_timezone q))%nat)
    ValueError "timezone" ≫= λ _,
  raise_if (negb (known_zone (qh_timezone q))) ValueError
    "quiet-hours timezone must be a valid IANA timezone" ≫= λ _,
  raise_if (bool_decide (is_Some (time_offset (qh_start_local q)))
            || bool_decide (is_Some (time_offset (qh_end_local q)))) ValueError
    "quiet-hours times must be local clock times without UTC offsets" ≫= λ _,
  raise_if (bool_decide (time_usec (qh_start_local q) = time_usec (qh_end_local q))) ValueError
    "quiet-hours start and end must differ".

(** [validate_unique_values] and [validate_event_roles]. *)
Definition communications_validate (c : CommunicationConfiguration) : result unit :=
  let replies := cc_reply_event_types c in
  let opt_outs := cc_opt_out_event_types c in
  let automated := cc_automated_response_event_types c in
  for_each (λ values, raise_if (negb (all_unique values)) ValueError
      "communication action and event types must be unique")
    [cc_outbound_action_types c; replies; opt_outs; automated] ≫= λ _,
  match cc_quiet_hours c with Some q => quiet_hours_validate q | None => Ok tt end ≫= λ _,
  raise_if (negb (disjoint_sets replies opt_outs && disjoint_sets replies automated
                  && disjoint_sets opt_outs automated)) ValueError
    "communication event types must have one unambiguous role" ≫= λ _,
  raise_if (negb (nonempty (cc_outbound_action_types c))
            && (nonempty replies || nonempty opt_outs || nonempty automated
                || bool_decide (is_Some (cc_quiet_hours c)))) ValueError
    "communication controls require at least one outbound action type".

Definition fact_definition_validate (f : FactDefinition) : result unit :=
  raise_if (negb (is_dotted_identifier (fd_key f)) || (200 <? py_len (fd_key f))%nat)
    ValueError "key" ≫= λ _,
  raise_if ((py_len (fd_title f) <? 1)%nat || (200 <? py_len (fd_title f))%nat)
    ValueError "title" ≫= λ _,
  raise_if ((py_len (fd_description f) <? 1)%nat || (2000 <? Z.of_nat (py_len (fd_description f)))%Z)
    ValueError "description" ≫= λ _,
  raise_if (negb (nonempty (fd_kinds f))) ValueError "kinds" ≫= λ _,
  raise_if (negb (all_unique (fd_kinds f))) ValueError "fact kinds must be unique".

Definition validate_event_types (values : list string) : result unit :=
  raise_if (existsb (λ v, negb (is_dotted_identifier v)) values) ValueError
    "event types must use dotted lowercase identifiers" ≫= λ _,
  raise_if (negb (all_unique values)) ValueError "event types must be unique" ≫= λ _,
  let reserved := List.filter (λ v, bool_decide (v ∈ RESERVED_KERNEL_EVENT_TYPES)) values in
  raise_if (nonempty reserved) ValueError
    ("event types are reserved for kernel use: " +:+ join_with ", " (sorted reserved)).

Definition validate_action_types (values : list string) : result unit :=
  raise_if (existsb (λ v, negb (is_identifier v)) values) ValueError
    "action types must be snake_case identifiers" ≫= λ _,
  raise_if (negb (all_unique values)) ValueError "action types must be unique".

Definition validate_action_guidance (values : list (string * string)) : result unit :=
  raise_if (existsb (λ kv, negb (is_identifier (fst kv))) values) ValueError
    "action guidance keys must be snake_case action types" ≫= λ _,
  raise_if (existsb (λ kv, is_blank (snd kv)) values) ValueError "action guidance cannot be blank".

Definition validate_decision_guidance (values : list string) : result unit :=
  raise_if (existsb is_blank values) ValueError "decision guidance cannot be blank" ≫= λ _,
  raise_if (negb (all_unique values)) ValueError "decision guidance must be unique".

Definition validate_permission_action_types (values : list (string * PermissionOutcome))
  : result unit :=
  raise_if (existsb (λ kv, negb (is_identifier (fst kv))) values) ValueError
    "action permission keys must be snake_case identifiers".

Definition validate_goals (values : list string) : result unit :=
  raise_if (existsb is_blank values) ValueError "goals cannot be blank".

Definition validate_completion_values (values : list (string * json)) : result unit :=
  for_each (λ '(key, value),
    raise_if (negb (is_dotted_identifier key)) ValueError
      "completion requirement keys must be dotted lowercase facts" ≫= λ _,
    _ ← canonical_json_bytes value ("completion requirement " +:+ key); Ok tt) values.

Definition validate_terminal_states (values : list ProcessStatus) : result unit :=
  raise_if (existsb (λ s, negb (is_terminal s)) values) ValueError
    "terminal_states can only contain terminal process statuses" ≫= λ _,
  raise_if (negb (bool_decide (PS_COMPLETED ∈ values))) ValueError
    "terminal_states must include completed".

(** The declaration of a fact key. *)
Definition fact_by_key (d : ProcessDefinition) (key : string) : option FactDefinition :=
  assoc key ((λ f, (fd_key f, f)) <$> pd_facts d).

Definition require_explicit_action_permissions (d : ProcessDefinition) : result unit :=
  let c := pd_communications d in
  let requirement_keys := fst <$> pd_completion_requirements d in
  raise_if (negb (same_set (fst <$> pd_action_permissions d) (pd_allowed_actions d))) ValueError
    "every allowed action must have exactly one permission classification" ≫= λ _,
  raise_if (negb (subset_of (fst <$> pd_action_guidance d) (pd_allowed_actions d))) ValueError
    "action guidance can only describe allowed actions" ≫= λ _,
  raise_if (negb (subset_of (cc_outbound_action_types c) (pd_allowed_actions d))) ValueError
    "communication actions must be allowed actions" ≫= λ _,
  raise_if (negb (subset_of (cc_reply_event_types c) (pd_allowed_wake_events d))) ValueError
    "communication reply events must be allowed wake events" ≫= λ _,
  raise_if (negb (subset_of (cc_opt_out_event_types c ++ cc_automated_response_event_types c)
                    (pd_allowed_wake_events d))) ValueError
    "communication control events must be allowed wake events" ≫= λ _,
  raise_if (negb (all_unique (fd_key <$> pd_facts d))) ValueError
    "fact definitions must have unique keys" ≫= λ _,
  raise_if (negb (subset_of requirement_keys (fd_key <$> pd_facts d))) ValueError
    "completion requirements must reference declared facts" ≫= λ _,
  raise_if (existsb (λ key, match fact_by_key d key with
                            | Some f => negb (bool_decide (AUTHORITATIVE ∈ fd_kinds f))
                            | None => false
                            end) requirement_keys) ValueError
    "completion requirements must use authoritative facts".

(** Building a [ProcessDefinition]: the nested models, the field constraints and
    validators, then the model validator. *)
Definition definition_validate (d : ProcessDefinition) : result unit :=
  raise_if (negb (is_identifier (pd_id d))) ValueError
    "process definition ID must be a snake_case identifier" ≫= λ _,
  raise_if ((py_len (pd_version d) <? 1)%nat || (64 <? py_len (pd_version d))%nat)
    ValueError "version" ≫= λ _,
  validate_event_types (pd_trigger_events d) ≫= λ _,
  raise_if (negb (nonempty (pd_goals d))) ValueError "goals" ≫= λ _,
  validate_goals (pd_goals d) ≫= λ _,
  raise_if (negb (nonempty (pd_terminal_states d))) ValueError "terminal_states" ≫= λ _,
  validate_terminal_states (pd_terminal_states d) ≫= λ _,
  validate_action_types (pd_allowed_actions d) ≫= λ _,
  validate_permission_action_types (pd_action_permissions d) ≫= λ _,
  validate_action_guidance (pd_action_guidance d) ≫= λ _,
  validate_decision_guidance (pd_decision_guidance d) ≫= λ _,
  validate_event_types (pd_allowed_wake_events d) ≫= λ _,
  process_limits_validate (pd_limits d) ≫= λ _,
  review_configuration_validate (pd_review d) ≫= λ _,
  communications_validate (pd_communications d) ≫= λ _,
  for_each fact_definition_validate (pd_facts d) ≫= λ _,
  validate_completion_values (pd_completion_requirements d) ≫= λ _,
  require_explicit_action_permissions d.
End validators.

(** ** Compiled policies *)

Definition limits_json (l : ProcessLimits) : json :=
  JObj ((λ '(name, value, _, _), (name, JInt value)) <$> process_limit_ranges l).

Definition strings_json (xs : list string) : json := JArr (JStr <$> xs).

Definition fact_definition_json (f : FactDefinition) : json :=
  JObj [("key", JStr (fd_key f)); ("title", JStr (fd_title f));
        ("description", JStr (fd_description f));
        ("kinds", strings_json (fact_kind_value <$> fd_kinds f));
        ("value_schema", JObj (fd_value_schema f));
        ("operator_editable", JBool (fd_operator_editable f))].

Section compile.
(** How pydantic writes a clock time in JSON mode. *)
Context (dump_time : time → string).

Definition communications_json (c : CommunicationConfiguration) : json :=
  JObj [("outbound_action_types", strings_json (cc_outbound_action_types c));
        ("reply_event_types", strings_json (cc_reply_event_types c));
        ("opt_out_event_types", strings_json (cc_opt_out_event_types c));
        ("automated_response_event_types", strings_json (cc_automated_response_event_types c));
        ("quiet_hours",
           match cc_quiet_hours c with
           | Some q => JObj [("timezone", JStr (qh_timezone q));
                             ("start_local", JStr (dump_time (qh_start_local q)));
                             ("end_local", JStr (dump_time (qh_end_local q)))]
           | None => JNull
           end)].

(** [self.model_dump(mode="json")]; the numbers of a fact schema are finite. *)
Definition definition_json (d : ProcessDefinition) : json :=
  JObj [("id", JStr (pd_id d)); ("version", JStr (pd_version d));
        ("status", JStr (definition_status_value (pd_status d)));
        ("trigger_events", strings_json (pd_trigger_events d));
        ("goals", strings_json (pd_goals d));
        ("terminal_states", strings_json (process_status_value <$> pd_terminal_states d));
        ("allowed_actions", strings_json (pd_allowed_actions d));
        ("action_permissions",
           JObj ((λ kv, (fst kv, JStr (permission_value (snd kv)))) <$> pd_action_permissions d));
        ("action_guidance", JObj ((λ kv, (fst kv, JStr (snd kv))) <$> pd_action_guidance d));
        ("decision_guidance", strings_json (pd_decision_guidance d));
        ("allowed_wake_events", strings_json (pd_allowed_wake_events d));
        ("limits", limits_json (pd_limits d));
        ("review", JObj [("commands", strings_json (review_type_value <$> pd_review d))]);
        ("communications", communications_json (pd_communications d));
        ("integrations", JObj ((λ kv, (fst kv, JStr (snd kv))) <$> pd_integrations d));
        ("facts", JArr (fact_definition_json <$> pd_facts d));
        ("completion_requirements", JObj (pd_completion_requirements d))].

Definition fingerprint (d : ProcessDefinition) : string := sha256_hex (dumps true (definition_json d)).

(** The ceilings [decision_policy] leaves to their defaults are the platform's. *)
Definition decision_policy (d : ProcessDefinition) : DecisionPolicy :=
  let l := DEFAULT_PLATFORM_SAFETY_LIMITS in {|
  dp_allowed_action_types := pd_allowed_actions d;
  dp_allowed_wake_event_types := pd_allowed_wake_events d;
  dp_human_wake_action_types :=
    fst <$> List.filter (λ kv, bool_decide (snd kv = REQUIRE_APPROVAL)) (pd_action_permissions d);
  dp_max_actions_per_turn := pl_max_actions_per_turn (pd_limits d);
  dp_max_timer_horizon := days (pl_maximum_timer_horizon_days (pd_limits d));
  dp_max_action_parameter_fields := max_action_parameter_fields l;
  dp_max_action_parameters_bytes := max_action_parameters_bytes l;
  dp_max_open_commitments := max_open_commitments l;
  dp_max_commitment_bytes := max_commitment_bytes l;
  dp_max_open_commitments_bytes := max_open_commitments_bytes l;
  dp_max_memory_summary_bytes := max_memory_summary_bytes l;
  dp_completion_requirements := pd_completion_requirements d
|}.

Definition action_policy (d : ProcessDefinition) : ConfiguredActionPolicy :=
  mkActionPolicy (pd_action_permissions d) (fingerprint d).
End compile.

(** ** Instructions *)

Definition newline : string := String (Ascii.ascii_of_N 10) EmptyString.

(** [json.dumps(v, sort_keys=True)], with the default separators. *)
Fixpoint dumps_spaced (v : json) : string :=
  match v with
  | JArr xs => "[" +:+ join_with ", " (map dumps_spaced xs) +:+ "]"
  | JObj items =>
      "{" +:+ join_with ", "
        (map (λ kv, dump_str true (fst kv) +:+ ": " +:+ snd kv)
          (sort_by fst (map (λ kv, (fst kv, dumps_spaced (snd kv))) items))) +:+ "}"
  | _ => dumps true v
  end.

(** [value or alternative] for a string. *)
Definition str_or (value alternative : string) : string :=
  if is_empty value then alternative else value.

(** [value.isoformat(timespec="minutes")] of a naive clock time. *)
Definition isoformat_minutes (t : time) : string :=
  let m := (time_usec t / minutes 1)%Z in put2 (m / 60) (put ":"%char (put2 (m mod 60) "")).

Definition _compile_communication_instructions (d : ProcessDefinition) : string :=
  let c := pd_communications d in
  let l := pd_limits d in
  if negb (nonempty (cc_outbound_action_types c))
  then "- This journey has no customer-facing outbound actions."
  else join_with newline (
    ["- Outbound actions: " +:+ join_with ", " (cc_outbound_action_types c);
     "- Never contact a customer after an opt-out or while an automated-response loop "
     +:+ "is active; deterministic policy is authoritative.";
     "- At most " +:+ pretty (pl_max_follow_ups_without_reply l)
     +:+ " follow-ups without a human reply, separated by at least "
     +:+ pretty (pl_minimum_follow_up_interval_hours l) +:+ " hours.";
     "- At most " +:+ pretty (pl_max_outbound_messages_per_window l)
     +:+ " outbound messages in " +:+ pretty (pl_outbound_message_window_hours l) +:+ " hours and "
     +:+ pretty (pl_max_outbound_messages_per_process l) +:+ " over the process lifetime."]
    ++ match cc_quiet_hours c with
       | Some q =>
           ["- Quiet hours are " +:+ isoformat_minutes (qh_start_local q) +:+ " to "
            +:+ isoformat_minutes (qh_end_local q) +:+ " in " +:+ qh_timezone q
            +:+ "; wait until they end before proposing outbound contact."]
       | None => []
       end)%list.

Definition compile_instructions (d : ProcessDefinition) : string :=
  let bullets xs := join_with newline ((λ x, "- " +:+ x) <$> xs) in
  let actions := str_or (join_with ", " (pd_allowed_actions d)) "none" in
  let action_guidance := str_or (join_with newline (omap (λ action,
      (λ guidance, "- " +:+ action +:+ ": " +:+ guidance) <$> assoc action (pd_action_guidance d))
      (pd_allowed_actions d)))
    "- No additional parameter guidance was declared." in
  let decision_guidance := str_or (bullets (pd_decision_guidance d))
    "- No additional decision guidance was declared." in
  let wakes := str_or (join_with ", " (pd_allowed_wake_events d)) "none" in
  let facts := str_or (join_with newline ((λ f,
      "- " +:+ fd_key f +:+ " (" +:+ fd_title f +:+ "; "
      +:+ join_with ", " (fact_kind_value <$> fd_kinds f) +:+ "): " +:+ fd_description f)
      <$> pd_facts d))
    "- No business facts were declared." in
  let completion := str_or (join_with newline ((λ kv,
      "- " +:+ fst kv +:+ " must equal " +:+ dumps_spaced (snd kv))
      <$> sort_by fst (pd_completion_requirements d)))
    "- No additional fact requirements were declared." in
  join_with newline [
    "Process: " +:+ pd_id d +:+ " version " +:+ pd_version d;
    "Goals:"; bullets (pd_goals d);
    "Allowed action types: " +:+ actions;
    "Action parameter guidance:"; action_guidance;
    "Decision guidance:"; decision_guidance;
    "Allowed event wake types: " +:+ wakes;
    "Business facts:"; facts;
    "Completion requirements:"; completion;
    "Communication safety:"; _compile_communication_instructions d;
    "Model budget: at most " +:+ pretty (pl_max_model_total_tokens_per_process (pd_limits d))
    +:+ " tokens and deterministic cost enforcement per process; deterministic "
    +:+ "policy is authoritative.";
    "Maximum process lifetime: " +:+ pretty (pl_maximum_process_lifetime_days (pd_limits d))
    +:+ " days from process creation.";
    "Terminal states: " +:+ join_with ", " (process_status_value <$> pd_terminal_states d);
    "Propose only actions and wake conditions allowed above. "
    +:+ "Never claim that a proposed action has already executed."].

(** ** What a valid definition guarantees *)

Lemma limit_in_range l n v lo hi :
  process_limits_validate l = Ok tt → (n, v, lo, hi) ∈ process_limit_ranges l → (lo <= v <= hi)%Z.
Proof.
  intros H Hin. unfold process_limits_validate in H. rewrite for_each_ok, Forall_forall in H.
  specialize (H _ Hin). cbn in H. apply raise_if_ok, orb_false_iff in H. lia.
Qed.

(** The shape a definition has once it is built. *)
Record ValidDefinition (d : ProcessDefinition) : Prop := {
  vd_limits : process_limits_validate (pd_limits d) = Ok tt;
  vd_permissions : ∀ t, t ∈ fst <$> pd_action_permissions d ↔ t ∈ pd_allowed_actions d;
  vd_outbound : cc_outbound_action_types (pd_communications d) ⊆ pd_allowed_actions d;
  vd_replies : cc_reply_event_types (pd_communications d) ⊆ pd_allowed_wake_events d;
  vd_controls : (cc_opt_out_event_types (pd_communications d)
    ++ cc_automated_response_event_types (pd_communications d))%list ⊆ pd_allowed_wake_events d;
  vd_completed : PS_COMPLETED ∈ pd_terminal_states d;
  vd_reserved : Forall (λ t, t ∉ RESERVED_KERNEL_EVENT_TYPES)
    (pd_trigger_events d ++ pd_allowed_wake_events d)%list;
  vd_requirements : Forall (λ kv, ∃ f, fact_by_key d (fst kv) = Some f ∧ AUTHORITATIVE ∈ fd_kinds f)
    (pd_completion_requirements d);
  vd_requirements_json : Forall (λ kv, has_nan (snd kv) = false) (pd_completion_requirements d)
}.

Lemma nonempty_filter {A} (p : A → bool) xs :
  nonempty (List.filter p xs) = false ↔ Forall (λ x, p x = false) xs.
Proof.
  induction xs as [|x xs IH]; cbn; [split; auto|]. rewrite Forall_cons, <- IH.
  destruct (p x); cbn; [split; [done|by intros [? _]]|tauto].
Qed.

Lemma validate_event_types_reserved xs :
  succeeds (validate_event_types xs) → Forall (λ t, t ∉ RESERVED_KERNEL_EVENT_TYPES) xs.
Proof.
  unfold validate_event_types. autorewrite with tiramisu. intros (_ & _ & H%nonempty_filter).
  eapply Forall_impl; [exact H|]. intros x Hx. by apply bool_decide_eq_false in Hx.
Qed.

Lemma fact_by_key_declared d key :
  key ∈ fd_key <$> pd_facts d → is_Some (fact_by_key d key).
Proof.
  unfold fact_by_key. induction (pd_facts d) as [|f fs IH]; cbn; [set_solver|].
  intros [->|Hin]%elem_of_cons; case_bool_decide; [by eexists|done|by eexists|auto].
Qed.

Lemma existsb_false {A} (p : A → bool) xs : existsb p xs = false ↔ Forall (λ x, p x = false) xs.
Proof.
  induction xs as [|x xs IH]; cbn; [split; auto|].
  by rewrite Forall_cons, orb_false_iff, IH.
Qed.

Lemma permissions_ok d :
  succeeds (require_explicit_action_permissions d) →
  (∀ t, t ∈ fst <$> pd_action_permissions d ↔ t ∈ pd_allowed_actions d)
  ∧ cc_outbound_action_types (pd_communications d) ⊆ pd_allowed_actions d
  ∧ cc_reply_event_types (pd_communications d) ⊆ pd_allowed_wake_events d
  ∧ (cc_opt_out_event_types (pd_communications d)
    ++ cc_automated_response_event_types (pd_communications d))%list ⊆ pd_allowed_wake_events d
  ∧ Forall (λ kv, ∃ f, fact_by_key d (fst kv) = Some f ∧ AUTHORITATIVE ∈ fd_kinds f)
    (pd_completion_requirements d).
Proof.
  unfold require_explicit_action_permissions. cbv zeta. autorewrite with tiramisu.
  rewrite !negb_false_iff, same_set_spec, !subset_of_spec.
  intros (? & _ & ? & ? & ? & _ & Hdecl & Hauth). split_and!; [done..|].
  apply existsb_false in Hauth. rewrite Forall_forall in Hauth. rewrite Forall_forall.
  intros kv Hkv. assert (fst kv ∈ fst <$> pd_completion_requirements d) as Hk
    by (by apply list_elem_of_fmap_2).
  destruct (fact_by_key_declared d (fst kv) (Hdecl _ Hk)) as [f Hf].
  exists f. split; [done|]. specialize (Hauth _ Hk). rewrite Hf in Hauth.
  by apply negb_false_iff, bool_decide_eq_true in Hauth.
Qed.

Lemma definition_valid known_zone d :
  definition_validate known_zone d = Ok tt → ValidDefinition d.
Proof.
  rewrite <- succeeds_unit. unfold definition_validate. rewrite !succeeds_seq.
  intros (_ & _ & Htrig & _ & _ & _ & Hterm & _ & _ & _ & _ & Hwake & Hlim & _ & _ & _ & Hcomp & Hperm).
  apply permissions_ok in Hperm as (? & ? & ? & ? & ?). split; try done.
  - by apply succeeds_unit.
  - unfold validate_terminal_states in Hterm. autorewrite with tiramisu in Hterm.
    by destruct Hterm as [_ ?%negb_false_iff%bool_decide_eq_true].
  - apply Forall_app; split; by apply validate_event_types_reserved.
  - unfold validate_completion_values in Hcomp. apply succeeds_unit in Hcomp.
    rewrite for_each_ok in Hcomp. eapply Forall_impl; [exact Hcomp|]. intros [k v] Hv.
    cbn in *. unfold canonical_json_bytes in Hv. bind_inv. case_if; [bind_inv; done|done].
Qed.

Lemma assoc_in {A} key (items : list (string * A)) v :
  NoDup (fst <$> items) → assoc key items = Some v ↔ (key, v) ∈ items.
Proof.
  induction items as [|[k w] items IH]; cbn; [set_solver|]. intros [Hk Hnd]%NoDup_cons.
  rewrite elem_of_cons. case_bool_decide as E.
  - subst k. split; [intros [= ->]; auto|]. intros [[= ->]|Hin]; [done|].
    destruct Hk. by apply (list_elem_of_fmap_2 fst _ (key, v)).
  - rewrite IH by done. split; [auto|]. by intros [[= <- _]|].
Qed.

Lemma assoc_is_Some {A} key (items : list (string * A)) :
  is_Some (assoc key items) ↔ key ∈ fst <$> items.
Proof.
  induction items as [|[k w] items IH]; cbn; [split; [by intros []|set_solver]|].
  rewrite elem_of_cons. case_bool_decide as E.
  - subst. split; [auto|eauto].
  - rewrite IH. split; [auto|]. by intros [->|].
Qed.

Lemma human_wake_types d t :
  t ∈ dp_human_wake_action_types (decision_policy d)
  ↔ (t, REQUIRE_APPROVAL) ∈ pd_action_permissions d.
Proof.
  cbn. rewrite list_elem_of_fmap. split.
  - intros ([k o] & -> & [Hin Ho]%list_elem_of_In%filter_In). cbn in *.
    apply bool_decide_eq_true in Ho. subst o. by apply list_elem_of_In.
  - intros Hin. exists (t, REQUIRE_APPROVAL). split; [done|].
    apply list_elem_of_In, filter_In. by rewrite <- list_elem_of_In.
Qed.

Lemma decision_policy_post_init d : ValidDefinition d → policy_post_init (decision_policy d) = Ok tt.
Proof.
  intros V.
  assert (0 <= pl_max_actions_per_turn (pd_limits d) <= 20)%Z as Ha by
    (apply (limit_in_range (pd_limits d) "max_actions_per_turn");
      [by apply vd_limits|repeat constructor]).
  assert (1 <= pl_maximum_timer_horizon_days (pd_limits d) <= 365)%Z as Ht by
    (apply (limit_in_range (pd_limits d) "maximum_timer_horizon_days");
      [by apply vd_limits|repeat constructor]).
  assert (subset_of (dp_human_wake_action_types (decision_policy d))
    (dp_allowed_action_types (decision_policy d)) = true) as Hs.
  { apply subset_of_spec. intros t Hin%human_wake_types. apply (vd_permissions d V).
    by apply (list_elem_of_fmap_2 fst _ (t, REQUIRE_APPROVAL)). }
  unfold policy_post_init. rewrite Hs.
  replace (dp_max_actions_per_turn (decision_policy d) <? 0)%Z with false by (cbn; lia).
  replace (dp_max_timer_horizon (decision_policy d) <=? 0)%Z with false
    by (cbn; unfold days, hours, minutes, sec; lia).
  reflexivity.
Qed.

Lemma initial_pending o : initial_action_request_status o = PENDING_APPROVAL ↔ o = REQUIRE_APPROVAL.
Proof. by destruct o. Qed.

Lemma approval_required_iff dump_time d a :
  NoDup (fst <$> pd_action_permissions d) →
  ap_action_type a ∈ dp_human_wake_action_types (decision_policy d) ↔
  initial_action_request_status (apd_outcome (evaluate (action_policy dump_time d) a))
  = PENDING_APPROVAL.
Proof.
  intros Hnd. rewrite human_wake_types, initial_pending, <- assoc_in by done. cbn.
  destruct (assoc _ _) as [o|]; cbn; naive_solver.
Qed.

(** ** Properties *)

(** The two policies compiled from a definition that was accepted agree: the
    decision policy itself passes its checks, it allows exactly the action
    types the action policy classifies explicitly (none of them falls through
    to the default denial), and the types whose proposal may justify a human
    wake condition are exactly those a proposal of which starts as a pending
    approval. *)
Theorem definition_policies_agree known_zone dump_time d :
  definition_validate known_zone d = Ok tt → NoDup (fst <$> pd_action_permissions d) →
  policy_post_init (decision_policy d) = Ok tt ∧
  ∀ a, (ap_action_type a ∈ dp_allowed_action_types (decision_policy d) ↔
        is_Some (assoc (ap_action_type a) (cap_permissions (action_policy dump_time d))))
    ∧ (ap_action_type a ∈ dp_human_wake_action_types (decision_policy d) ↔
       initial_action_request_status (apd_outcome (evaluate (action_policy dump_time d) a))
       = PENDING_APPROVAL).
Proof.
  intros V%definition_valid Hnd. split; [by apply decision_policy_post_init|].
  intros a. split; [|by apply approval_required_iff].
  cbn. by rewrite assoc_is_Some, (vd_permissions d V).
Qed.

(** A decision accepted under a definition's policy asks to be woken by a
    human only if it proposes an action that the definition's action policy
    puts before a human: some action of the decision starts as a pending
    approval. *)
Theorem human_wake_has_pending_approval dump_time d decision t decision' :
  NoDup (fst <$> pd_action_permissions d) →
  validate_decision decision (decision_policy d) t = Ok decision' →
  Exists (λ w, is_human_wake w = true) (ad_wake_conditions decision') →
  Exists (λ a, initial_action_request_status
                 (apd_outcome (evaluate (action_policy dump_time d) a)) = PENDING_APPROVAL)
    (ad_actions decision').
Proof.
  intros Hnd [-> []]%validate_decision_ok Hw.
  eapply Exists_impl; [by apply adm_human|].
  intros a Ha. by apply approval_required_iff.
Qed.

(** ** Examples *)

Definition ex_communications : CommunicationConfiguration := mkCommunications
  ["send_message"] ["customer.replied"] ["customer.opted_out"] ["customer.auto_replied"]
  (Some (mkQuietHours "Europe/Rome" (Time (hours 21) None) (Time (hours 8) None))).
Definition ex_process_definition : ProcessDefinition := mkDefinition
  "booking_follow_up" "1" PUBLISHED ["booking.created"] ["confirm the booking"] [PS_COMPLETED; PS_FAILED]
  ["send_message"; "refund"] [("refund", REQUIRE_APPROVAL); ("send_message", ALLOW)]
  [("send_message", "keep it short")] ["be kind"]
  ["customer.replied"; "customer.opted_out"; "customer.auto_replied"] default_process_limits
  [RC_APPROVE; RC_REJECT] ex_communications [("email", "smtp")]
  [mkFactDefinition "booking.status" "Status" "The status of the booking" [AUTHORITATIVE] [] false]
  [("booking.status", JStr "confirmed")].
Definition ex_known_zone (z : string) : bool := bool_decide (z = "Europe/Rome").
Definition ex_dump_time (t : time) : string := isoformat_minutes t +:+ ":00".

Lemma definition_policies_agree_witness :
  policy_post_init (decision_policy ex_process_definition) = Ok tt
  ∧ "refund" ∈ dp_human_wake_action_types (decision_policy ex_process_definition).
Proof.
  pose proof (definition_policies_agree ex_known_zone ex_dump_time ex_process_definition
    ltac:(vm_compute; reflexivity) ltac:(apply (bool_decide_eq_true_1 _); vm_compute; reflexivity))
    as [H1 H2].
  split; [exact H1|].
  apply (proj2 (H2 (mkProposal (uuid 9) "back" "refund" [] "unhappy"))). vm_compute. reflexivity.
Defined.

Definition ex_refund_decision : AgentDecision := mkDecision (uuid 5) [uuid 1] [] [] [] DS_WAITING
  [mkProposal (uuid 9) "back" "refund" [] "unhappy"] [HumanWakeCondition APPROVAL] empty_memory.

Lemma human_wake_has_pending_approval_witness :
  Exists (λ a, initial_action_request_status
    (apd_outcome (evaluate (action_policy ex_dump_time ex_process_definition) a)) = PENDING_APPROVAL)
    (ad_actions ex_refund_decision).
Proof.
  apply (human_wake_has_pending_approval ex_dump_time ex_process_definition ex_refund_decision ex_turn);
    [apply (bool_decide_eq_true_1 _); vm_compute; reflexivity|vm_compute; reflexivity|].
  constructor. reflexivity.
Defined.

