(* ===== verification/Communications.v ===== *)
(** * [communications/policy.py]: deterministic customer-communication policy

    Pure evaluation of one send boundary.  An aware datetime converted to UTC is
    its instant in microseconds, so [_as_utc] returns an instant and [isoformat]
    is applied to [utc] of it.  Dates are day numbers; the first and last
    representable years are not modelled. *)

From stdpp Require Import base list strings pretty sets.
From Stdlib Require Import ZArith Lia.
From S2P Require Import Prelude Python PyTime Json Limits Contracts Definitions.

#[local] Open Scope Z_scope.

Inductive CommunicationBlockCode :=
  | PROCESS_EXPIRED | OPTED_OUT | AUTOMATED_RESPONSE_LOOP | QUIET_HOURS
  | PROCESS_MESSAGE_LIMIT | RATE_LIMIT | FOLLOW_UP_LIMIT | MINIMUM_INTERVAL.
Definition block_code_value (c : CommunicationBlockCode) : string :=
  match c with
  | PROCESS_EXPIRED => "process_expired" | OPTED_OUT => "opted_out"
  | AUTOMATED_RESPONSE_LOOP => "automated_response_loop" | QUIET_HOURS => "quiet_hours"
  | PROCESS_MESSAGE_LIMIT => "process_message_limit" | RATE_LIMIT => "rate_limit"
  | FOLLOW_UP_LIMIT => "follow_up_limit" | MINIMUM_INTERVAL => "minimum_interval"
  end%string.
#[export] Instance CommunicationBlockCode_eq_dec : EqDecision CommunicationBlockCode.
Proof. solve_decision. Defined.

Record CommunicationBlock := mkBlock {
  cb_code : CommunicationBlockCode; cb_message : string; cb_next_allowed_at : option Z
}.

Record CommunicationPolicy := mkCommunicationPolicy {
  cp_outbound_action_types : list string;
  cp_reply_event_types : list string;
  cp_max_follow_ups_without_reply : Z;
  cp_minimum_follow_up_interval : Z;
  cp_opt_out_event_types : list string;
  cp_automated_response_event_types : list string;
  cp_quiet_hours : option DailyQuietHours;
  cp_max_outbound_messages_per_process : Z;
  cp_max_outbound_messages_per_window : Z;
  cp_outbound_message_window : Z;
  cp_maximum_process_lifetime : Z
}.

(** [CommunicationPolicy.from_definition] *)
Definition communication_policy (d : ProcessDefinition) : CommunicationPolicy :=
  let c := pd_communications d in
  let l := pd_limits d in {|
  cp_outbound_action_types := cc_outbound_action_types c;
  cp_reply_event_types := cc_reply_event_types c;
  cp_max_follow_ups_without_reply := pl_max_follow_ups_without_reply l;
  cp_minimum_follow_up_interval := hours (pl_minimum_follow_up_interval_hours l);
  cp_opt_out_event_types := cc_opt_out_event_types c;
  cp_automated_response_event_types := cc_automated_response_event_types c;
  cp_quiet_hours := cc_quiet_hours c;
  cp_max_outbound_messages_per_process := pl_max_outbound_messages_per_process l;
  cp_max_outbound_messages_per_window := pl_max_outbound_messages_per_window l;
  cp_outbound_message_window := hours (pl_outbound_message_window_hours l);
  cp_maximum_process_lifetime := days (pl_maximum_process_lifetime_days l)
|}.

Record CommunicationSafetySnapshot := mkSnapshot {
  css_evaluated_at : Z;
  css_outbound_allowed_now : bool;
  css_blocks : list CommunicationBlock;
  css_outbound_messages_total : Z;
  css_outbound_messages_in_window : Z;
  css_follow_ups_since_reply : Z;
  css_last_human_reply_at : option Z;
  css_latest_automated_response_at : option Z;
  css_opted_out_at : option Z;
  css_process_expires_at : Z;
  css_rate_window_started_at : Z
}.

(** [CommunicationSafetySnapshot.require_allowed] *)
Definition require_allowed (s : CommunicationSafetySnapshot) : result unit :=
  match css_blocks s with
  | b :: _ => raise CommunicationSafetyBlocked (cb_message b)
  | [] => Ok tt
  end.

Record CommunicationSafetyFacts := mkFacts {
  csf_process_created_at : datetime;
  csf_outbound_message_times : list datetime;
  csf_prior_outbound_message_times : option (list datetime);
  csf_last_human_reply_at : option datetime;
  csf_latest_automated_response_at : option datetime;
  csf_opted_out_at : option datetime;
  csf_reserve_next_message : bool
}.

Definition _as_utc (value : datetime) (label : string) : result Z :=
  if is_naive value then raise ValueError (label +:+ " must be timezone-aware") else Ok (instant value).

Definition _optional_as_utc (value : option datetime) (label : string) : result (option Z) :=
  match value with None => Ok None | Some d => t ← _as_utc d label; Ok (Some t) end.

(** [tuple(_as_utc(value, label=label) for value in values)] *)
Fixpoint all_as_utc (values : list datetime) (label : string) : result (list Z) :=
  match values with
  | [] => Ok []
  | d :: ds => t ← _as_utc d label; ts ← all_as_utc ds label; Ok (t :: ts)
  end.

(** [sum(p(value) for value in values)] *)
Definition count (p : Z → bool) (values : list Z) : Z := Z.of_nat (length (List.filter p values)).

(** [max(values, default=None)] and [min(values)]. *)
Definition max_of (values : list Z) : option Z :=
  match values with [] => None | v :: vs => Some (fold_left Z.max vs v) end.
Definition min_of (values : list Z) : option Z :=
  match values with [] => None | v :: vs => Some (fold_left Z.min vs v) end.

(** [last_human_reply_at is None or value > last_human_reply_at] *)
Definition after_reply (reply : option Z) (value : Z) : bool :=
  match reply with None => true | Some r => r <? value end.

Definition evaluate_process_lifetime (process_created_at : datetime) (policy : CommunicationPolicy)
    (now : datetime) : result (option CommunicationBlock) :=
  now ← _as_utc now "process lifetime evaluation time";
  created_at ← _as_utc process_created_at "process creation time";
  let process_expires_at := created_at + cp_maximum_process_lifetime policy in
  if now <? process_expires_at then Ok None
  else Ok (Some (mkBlock PROCESS_EXPIRED
    ("process lifetime ended at " +:+ isoformat (utc process_expires_at)) None)).

(** ** Time zones *)

(** [ZoneInfo]: the wall clock of a zone at an instant, and the instant of a wall
    clock value under each [fold]. *)
Class Zones := {
  local_wall : string → Z → Z;
  utc_of_wall : string → bool → Z → Z
}.

Section evaluation.
Context `{Zones}.

Definition _resolve_local_boundary (value : Z) (zone : string) (earliest : bool) : Z :=
  let candidates := (utc_of_wall zone false value, utc_of_wall zone true value) in
  if earliest then Z.min (fst candidates) (snd candidates)
  else Z.max (fst candidates) (snd candidates).

(** The interval of quiet hours that starts on a date, as instants. *)
Definition quiet_interval (q : DailyQuietHours) (start_date : Z) : Z * Z :=
  let overnight := time_usec (qh_end_local q) <? time_usec (qh_start_local q) in
  let end_date := start_date + (if overnight then 1 else 0) in
  (_resolve_local_boundary (days start_date + time_usec (qh_start_local q)) (qh_timezone q) true,
   _resolve_local_boundary (days end_date + time_usec (qh_end_local q)) (qh_timezone q) false).

Fixpoint first_quiet_end (q : DailyQuietHours) (now : Z) (start_dates : list Z) : option Z :=
  match start_dates with
  | [] => None
  | start_date :: start_dates =>
      let '(start_utc, end_utc) := quiet_interval q start_date in
      if (start_utc <=? now) && (now <? end_utc) then Some end_utc
      else first_quiet_end q now start_dates
  end.

Definition _quiet_hours_end (configuration : option DailyQuietHours) (now : Z) : option Z :=
  match configuration with
  | None => None
  | Some q =>
      let local_date := local_wall (qh_timezone q) now / days 1 in
      first_quiet_end q now [local_date - 1; local_date]
  end.

(** ** One send boundary *)

(** The facts in UTC. *)
Record UtcFacts := mkUtcFacts {
  uf_created_at : Z;
  uf_outbound : list Z;
  uf_prior : list Z;
  uf_reply : option Z;
  uf_automated : option Z;
  uf_opted_out : option Z;
  uf_reservation : Z
}.

Definition utc_facts (f : CommunicationSafetyFacts) : result UtcFacts :=
  created ← _as_utc (csf_process_created_at f) "process creation time";
  outbound ← all_as_utc (csf_outbound_message_times f) "outbound message time";
  prior ← all_as_utc (default (csf_outbound_message_times f) (csf_prior_outbound_message_times f))
            "prior outbound message time";
  reply ← _optional_as_utc (csf_last_human_reply_at f) "human reply time";
  automated ← _optional_as_utc (csf_latest_automated_response_at f) "automated response time";
  opted_out ← _optional_as_utc (csf_opted_out_at f) "opt-out time";
  Ok (mkUtcFacts created outbound prior reply automated opted_out
        (if csf_reserve_next_message f then 1 else 0)).

(** [[block] if cond else []] *)
Definition block_if (b : bool) (block : CommunicationBlock) : list CommunicationBlock :=
  if b then [block] else [].

Definition latest_prior (u : UtcFacts) : option Z :=
  max_of (List.filter (after_reply (uf_reply u)) (uf_prior u)).

(** The blocks after the lifetime block, in the order they are appended. *)
Definition communication_blocks (policy : CommunicationPolicy) (u : UtcFacts) (now : Z)
  : list CommunicationBlock :=
  let window_started_at := now - cp_outbound_message_window policy in
  let in_window := List.filter (λ value, window_started_at <? value) (uf_outbound u) in
  let since_reply := count (after_reply (uf_reply u)) (uf_outbound u) in
  match uf_opted_out u with
  | Some t => [mkBlock OPTED_OUT ("customer opted out at " +:+ isoformat (utc t)) None]
  | None => []
  end ++
  block_if (bool_decide (is_Some (uf_automated u))) (mkBlock AUTOMATED_RESPONSE_LOOP
    "latest inbound contact was classified as automated; wait for a human reply" None) ++
  match _quiet_hours_end (cp_quiet_hours policy) now with
  | Some t => [mkBlock QUIET_HOURS
      ("customer quiet hours are active until " +:+ isoformat (utc t)) (Some t)]
  | None => []
  end ++
  block_if (cp_max_outbound_messages_per_process policy
            <? Z.of_nat (length (uf_outbound u)) + uf_reservation u)
    (mkBlock PROCESS_MESSAGE_LIMIT "process outbound-message limit has been reached" None) ++
  block_if (cp_max_outbound_messages_per_window policy
            <? Z.of_nat (length in_window) + uf_reservation u)
    (mkBlock RATE_LIMIT "outbound-message rolling-window limit has been reached"
       ((λ t, t + cp_outbound_message_window policy) <$> min_of in_window)) ++
  block_if (cp_max_follow_ups_without_reply policy <? since_reply + uf_reservation u)
    (mkBlock FOLLOW_UP_LIMIT "maximum follow-ups without a human reply has been reached" None) ++
  match latest_prior u with
  | Some t =>
      let next_allowed_at := t + cp_minimum_follow_up_interval policy in
      block_if (now <? next_allowed_at) (mkBlock MINIMUM_INTERVAL
        ("minimum follow-up interval has not elapsed; retry after "
         +:+ isoformat (utc next_allowed_at)) (Some next_allowed_at))
  | None => []
  end.

Definition evaluate_communication_safety (policy : CommunicationPolicy)
    (facts : CommunicationSafetyFacts) (now : datetime) : result CommunicationSafetySnapshot :=
  now ← _as_utc now "communication policy evaluation time";
  u ← utc_facts facts;
  lifetime_block ← evaluate_process_lifetime (utc (uf_created_at u)) policy (utc now);
  let window_started_at := now - cp_outbound_message_window policy in
  let blocks := option_list lifetime_block ++ communication_blocks policy u now in
  Ok {|
    css_evaluated_at := now;
    css_outbound_allowed_now := negb (nonempty blocks);
    css_blocks := blocks;
    css_outbound_messages_total := Z.of_nat (length (uf_outbound u));
    css_outbound_messages_in_window := count (λ value, window_started_at <? value) (uf_outbound u);
    css_follow_ups_since_reply := count (after_reply (uf_reply u)) (uf_outbound u);
    css_last_human_reply_at := uf_reply u;
    css_latest_automated_response_at := uf_automated u;
    css_opted_out_at := uf_opted_out u;
    css_process_expires_at := uf_created_at u + cp_maximum_process_lifetime policy;
    css_rate_window_started_at := window_started_at
  |}.
End evaluation.

(** ** Lemmas *)

Lemma fold_min_spec vs v :
  let m := fold_left Z.min vs v in m ∈ v :: vs ∧ Forall (λ x, m <= x) (v :: vs).
Proof.
  cbv zeta. revert v. induction vs as [|w vs IH]; intros v; cbn.
  - split; [set_solver|]. by constructor.
  - destruct (IH (Z.min v w)) as [Hin Hle]. apply Forall_cons in Hle as [Hle Hvs]. split.
    + apply elem_of_cons in Hin as [->|]; [|set_solver].
      destruct (Z.min_spec v w) as [[_ ->]|[_ ->]]; set_solver.
    + repeat constructor; [lia..|done].
Qed.

Lemma min_of_spec vs m : min_of vs = Some m → m ∈ vs ∧ Forall (λ x, m <= x) vs.
Proof. destruct vs as [|v vs]; cbn; [done|]. intros [= <-]. apply fold_min_spec. Qed.

Lemma fold_max_spec vs v :
  let m := fold_left Z.max vs v in m ∈ v :: vs ∧ Forall (λ x, x <= m) (v :: vs).
Proof.
  cbv zeta. revert v. induction vs as [|w vs IH]; intros v; cbn.
  - split; [set_solver|]. by constructor.
  - destruct (IH (Z.max v w)) as [Hin Hle]. apply Forall_cons in Hle as [Hle Hvs]. split.
    + apply elem_of_cons in Hin as [->|]; [|set_solver].
      destruct (Z.max_spec v w) as [[_ ->]|[_ ->]]; set_solver.
    + repeat constructor; [lia..|done].
Qed.

Lemma max_of_spec vs m : max_of vs = Some m → m ∈ vs ∧ Forall (λ x, x <= m) vs.
Proof. destruct vs as [|v vs]; cbn; [done|]. intros [= <-]. apply fold_max_spec. Qed.

Lemma max_of_None vs : max_of vs = None ↔ vs = [].
Proof. by destruct vs. Qed.

(** More elements pass a weaker test. *)
Lemma filter_weaker_length {A} (p q : A → bool) xs :
  (∀ x, x ∈ xs → p x = true → q x = true) →
  (length (List.filter p xs) <= length (List.filter q xs))%nat.
Proof.
  induction xs as [|x xs IH]; cbn; [lia|]. intros H.
  assert (length (List.filter p xs) <= length (List.filter q xs))%nat by
    (apply IH; intros; apply H; [set_solver|done]).
  destruct (p x) eqn:E; [rewrite (H x) by (done || set_solver); cbn; lia|].
  destruct (q x); cbn; lia.
Qed.

Lemma block_if_nil b block : block_if b block = [] ↔ b = false.
Proof. by destruct b. Qed.

Lemma elem_of_block_if b block x : x ∈ block_if b block ↔ b = true ∧ x = block.
Proof. destruct b; cbn; set_solver. Qed.

Lemma nonempty_false {A} (xs : list A) : negb (nonempty xs) = true ↔ xs = [].
Proof. by destruct xs. Qed.

Lemma app_nil_iff {A} (xs ys : list A) : xs ++ ys = [] ↔ xs = [] ∧ ys = [].
Proof. split; [apply app_nil|by intros [-> ->]]. Qed.

Section specification.
Context `{Zones}.

(** When contact is allowed, without blocks or hints. *)
Record ContactAllowed (policy : CommunicationPolicy) (u : UtcFacts) (now : Z) : Prop := {
  ca_alive : now < uf_created_at u + cp_maximum_process_lifetime policy;
  ca_not_opted_out : uf_opted_out u = None;
  ca_no_loop : uf_automated u = None;
  ca_not_quiet : _quiet_hours_end (cp_quiet_hours policy) now = None;
  ca_process_limit :
    Z.of_nat (length (uf_outbound u)) + uf_reservation u <= cp_max_outbound_messages_per_process policy;
  ca_window_limit :
    count (λ value, now - cp_outbound_message_window policy <? value) (uf_outbound u) + uf_reservation u
    <= cp_max_outbound_messages_per_window policy;
  ca_follow_ups :
    count (after_reply (uf_reply u)) (uf_outbound u) + uf_reservation u
    <= cp_max_follow_ups_without_reply policy;
  ca_interval : ∀ t, t ∈ uf_prior u → after_reply (uf_reply u) t = true →
    t + cp_minimum_follow_up_interval policy <= now
}.

Lemma interval_ok u policy now :
  match latest_prior u with
  | Some t => block_if (now <? t + cp_minimum_follow_up_interval policy) (mkBlock MINIMUM_INTERVAL
        ("minimum follow-up interval has not elapsed; retry after "
         +:+ isoformat (utc (t + cp_minimum_follow_up_interval policy)))
        (Some (t + cp_minimum_follow_up_interval policy)))
  | None => []
  end = [] ↔
  ∀ t, t ∈ uf_prior u → after_reply (uf_reply u) t = true →
    t + cp_minimum_follow_up_interval policy <= now.
Proof.
  unfold latest_prior. destruct (max_of _) as [m|] eqn:E.
  - rewrite block_if_nil. apply max_of_spec in E as [[Hm Hin]%elem_of_filter_bool Hmax].
    rewrite Forall_forall in Hmax. split.
    + intros Hlt t Ht Ha. assert (t <= m) by (apply Hmax, elem_of_filter_bool; auto). lia.
    + intros Hall. specialize (Hall m Hin Hm). lia.
  - apply max_of_None in E. split; [|done]. intros _ t Ht Ha.
    exfalso. eapply (not_elem_of_nil t). rewrite <- E. by apply elem_of_filter_bool.
Qed.

Lemma communication_blocks_nil policy u now :
  now < uf_created_at u + cp_maximum_process_lifetime policy ∧ communication_blocks policy u now = []
  ↔ ContactAllowed policy u now.
Proof.
  unfold communication_blocks. cbv zeta. rewrite !app_nil_iff, !block_if_nil, interval_ok, !Z.ltb_ge.
  split.
  - intros (Hl & Ho & Ha & Hq & Hp & Hw & Hf & Hi). split; try done.
    + by destruct (uf_opted_out u).
    + by destruct (uf_automated u).
    + by destruct (_quiet_hours_end _ _).
  - intros []. rewrite ca_not_opted_out0, ca_no_loop0, ca_not_quiet0. done.
Qed.

Lemma evaluate_ok policy facts now u :
  is_naive now = false → utc_facts facts = Ok u →
  ∃ s, evaluate_communication_safety policy facts now = Ok s
    ∧ css_outbound_allowed_now s = negb (nonempty (css_blocks s))
    ∧ ∃ lifetime, evaluate_process_lifetime (utc (uf_created_at u)) policy (utc (instant now)) = Ok lifetime
      ∧ css_blocks s = option_list lifetime ++ communication_blocks policy u (instant now).
Proof.
  intros Hn Hu. unfold evaluate_communication_safety.
  unfold _as_utc at 1. rewrite Hn. cbn -[communication_blocks utc_facts]. rewrite Hu.
  unfold evaluate_process_lifetime, _as_utc, utc. cbn -[communication_blocks].
  case_if; eexists; split; try done; split; try done; eexists; split; done.
Qed.

Lemma lifetime_ok policy created now :
  evaluate_process_lifetime (utc created) policy (utc now) = Ok (
    if now <? created + cp_maximum_process_lifetime policy then None
    else Some (mkBlock PROCESS_EXPIRED
      ("process lifetime ended at " +:+ isoformat (utc (created + cp_maximum_process_lifetime policy)))
      None)).
Proof.
  unfold evaluate_process_lifetime, _as_utc, utc, instant. cbn.
  rewrite !Z.sub_0_r. by destruct (_ <? _).
Qed.
End specification.

(** ** Quiet hours against the wall clock *)

(** What PEP 495 promises of a zone: the earlier reading of a wall clock value is
    not after any instant whose clock has reached it, and the later reading is
    after every instant whose clock has not. *)
Class ZoneLaws `{Zones} := {
  earliest_le : ∀ zone w t, w <= local_wall zone t →
    Z.min (utc_of_wall zone false w) (utc_of_wall zone true w) <= t;
  latest_gt : ∀ zone w t, local_wall zone t < w →
    t < Z.max (utc_of_wall zone false w) (utc_of_wall zone true w)
}.

(** The clock time lies in the daily interval. *)
Definition in_quiet_hours (q : DailyQuietHours) (time_of_day : Z) : Prop :=
  let s := time_usec (qh_start_local q) in
  let e := time_usec (qh_end_local q) in
  if s <? e then s <= time_of_day < e else s <= time_of_day ∨ time_of_day < e.

(** A clock time of the validated configuration. *)
Definition clock_time (t : time) : Prop := 0 <= time_usec t < days 1.

Section quiet_hours.
Context `{ZoneLaws}.

Lemma quiet_interval_contains q start_date now :
  let s := time_usec (qh_start_local q) in
  let e := time_usec (qh_end_local q) in
  days start_date + s <= local_wall (qh_timezone q) now ->
  local_wall (qh_timezone q) now < days (start_date + (if e <? s then 1 else 0)) + e ->
  fst (quiet_interval q start_date) <= now < snd (quiet_interval q start_date).
Proof.
  cbv zeta. intros Hs He. unfold quiet_interval, _resolve_local_boundary. cbn.
  split; [by apply earliest_le|by apply latest_gt].
Qed.

Lemma first_quiet_end_found q now dates date :
  date ∈ dates → fst (quiet_interval q date) <= now < snd (quiet_interval q date) →
  ∃ e, first_quiet_end q now dates = Some e ∧ now < e.
Proof.
  induction dates as [|d dates IH]; [set_solver|]. intros Hin Hi. cbn [first_quiet_end].
  destruct (quiet_interval q d) as [s e] eqn:E. case_if.
  - exists e. split; [done|lia].
  - apply elem_of_cons in Hin as [->|Hin]; [rewrite E in Hi; cbn in Hi; lia|by apply IH].
Qed.

Lemma quiet_hours_found q now :
  clock_time (qh_start_local q) → clock_time (qh_end_local q) →
  time_usec (qh_start_local q) ≠ time_usec (qh_end_local q) →
  in_quiet_hours q (local_wall (qh_timezone q) now mod days 1) →
  ∃ e, _quiet_hours_end (Some q) now = Some e ∧ now < e.
Proof.
  unfold clock_time, in_quiet_hours. intros Hs He Hne Hin. unfold _quiet_hours_end.
  set (w := local_wall (qh_timezone q) now) in *. cbv zeta in *.
  assert (days (w / days 1) + w mod days 1 = w) as Hw.
  { unfold days, hours, minutes, sec. pose proof (Z.div_mod w (60 * (24 * 1) * 60 * 1000000)). lia. }
  assert (0 <= w mod days 1 < days 1) as Hm by (apply Z.mod_pos_bound; unfold days, hours, minutes, sec; lia).
  assert (∀ n, days (n - 1) = days n - days 1 ∧ days (n + 1) = days n + days 1 ∧ days (n + 0) = days n)
    as Hd by (intros n; unfold days, hours, minutes, sec; lia).
  pose proof (quiet_interval_contains q (w / days 1) now) as Hi0.
  pose proof (quiet_interval_contains q (w / days 1 - 1) now) as Hi1.
  cbv zeta in Hi0, Hi1. fold w in Hi0, Hi1.
  destruct (Hd (w / days 1)) as (Hd1 & Hd2 & Hd3).
  destruct (Z.ltb_spec (time_usec (qh_start_local q)) (time_usec (qh_end_local q))) as [Hlt|Hge].
  - rewrite (proj2 (Z.ltb_ge (time_usec (qh_end_local q)) _)) in Hi0 by lia.
    apply (first_quiet_end_found _ _ _ (w / days 1)); [set_solver|]. apply Hi0; lia.
  - rewrite (proj2 (Z.ltb_lt (time_usec (qh_end_local q)) _)) in Hi0, Hi1 by lia.
    replace (w / days 1 - 1 + 1) with (w / days 1) in Hi1 by lia.
    destruct Hin as [Hin|Hin].
    + apply (first_quiet_end_found _ _ _ (w / days 1)); [set_solver|]. apply Hi0; lia.
    + apply (first_quiet_end_found _ _ _ (w / days 1 - 1)); [set_solver|]. apply Hi1; lia.
Qed.
End quiet_hours.

(** What an evaluation answers, for the theorems here and for its callers. *)
Lemma evaluation_allows `{Zones} policy facts now u :
  is_naive now = false → utc_facts facts = Ok u →
  ∃ s, evaluate_communication_safety policy facts now = Ok s
    ∧ css_outbound_allowed_now s = negb (nonempty (css_blocks s))
    ∧ (css_blocks s = [] ↔ ContactAllowed policy u (instant now)).
Proof.
  intros Hn Hu. destruct (evaluate_ok policy facts now u Hn Hu) as (s & Hs & Hal & l & Hl & Hb).
  exists s. split_and!; [done..|]. rewrite Hb, app_nil_iff, <- communication_blocks_nil.
  rewrite lifetime_ok in Hl. injection Hl as <-.
  destruct (Z.ltb_spec (instant now) (uf_created_at u + cp_maximum_process_lifetime policy));
    cbn; [tauto|]. split; [by intros []|lia].
Qed.

(** ** Properties *)

(** C27: contact is allowed exactly when the process is within its lifetime, the
    customer has not opted out, no automated-response loop is active, no quiet
    interval covers the instant, and the process, window and follow-up limits
    (counting the message about to be reserved) and the minimum interval hold;
    the evaluation always answers for aware times, and [require_allowed]
    raises exactly when contact is not allowed. *)
Theorem contact_allowed_spec `{Zones} policy facts now u :
  is_naive now = false → utc_facts facts = Ok u →
  ∃ s, evaluate_communication_safety policy facts now = Ok s
    ∧ (css_outbound_allowed_now s = true ↔ ContactAllowed policy u (instant now))
    ∧ (require_allowed s = Ok tt ↔ ContactAllowed policy u (instant now)).
Proof.
  intros Hn Hu. destruct (evaluation_allows policy facts now u Hn Hu) as (s & Hs & Hal & Hiff).
  exists s. split; [done|]. rewrite Hal, nonempty_false, <- Hiff. split; [done|].
  unfold require_allowed. by destruct (css_blocks s).
Qed.

(** A retry hint of the rolling window or of the minimum interval is never
    too late to matter: with the same facts, contact stays blocked for the same
    reason at every instant before the hinted one. *)
Theorem retry_hints_are_not_early `{Zones} policy facts now later u s b next :
  is_naive now = false → is_naive later = false → utc_facts facts = Ok u →
  evaluate_communication_safety policy facts now = Ok s → b ∈ css_blocks s →
  cb_code b = RATE_LIMIT ∨ cb_code b = MINIMUM_INTERVAL → cb_next_allowed_at b = Some next →
  instant now <= instant later < next →
  ∃ s' b', evaluate_communication_safety policy facts later = Ok s' ∧ b' ∈ css_blocks s'
    ∧ cb_code b' = cb_code b ∧ css_outbound_allowed_now s' = false.
Proof.
  intros Hn Hl Hu Hs Hb Hc Hnext Ht.
  destruct (evaluate_ok policy facts now u Hn Hu) as (s0 & Hs0 & _ & l & Hl0 & Hbl).
  rewrite Hs in Hs0. injection Hs0 as <-.
  destruct (evaluate_ok policy facts later u Hl Hu) as (s' & Hs' & Hal & l' & Hl' & Hbl').
  enough (∃ b', b' ∈ communication_blocks policy u (instant later) ∧ cb_code b' = cb_code b) as (b' & Hb' & Hcode).
  { assert (b' ∈ css_blocks s') by (rewrite Hbl'; set_solver).
    exists s', b'. split_and!; try done. rewrite Hal. destruct (css_blocks s'); [set_solver|done]. }
  assert (b ∈ communication_blocks policy u (instant now)) as Hbin.
  { rewrite Hbl, lifetime_ok in *. apply elem_of_app in Hb as [Hb|]; [|done].
    injection Hl0 as <-. destruct (_ <? _); cbn in Hb; [set_solver|].
    apply list_elem_of_singleton in Hb as ->. cbn in Hc. naive_solver. }
  clear Hb. revert Hbin. unfold communication_blocks. cbv zeta.
  rewrite !elem_of_app, !elem_of_block_if.
  intros [Hb|[[_ ->]|[Hb|[[_ ->]|[[Hlim ->]|[[_ ->]|Hb]]]]]]; cbn in Hc.
  - destruct (uf_opted_out u); [apply list_elem_of_singleton in Hb as ->; naive_solver|set_solver].
  - naive_solver.
  - destruct (_quiet_hours_end _ _); [apply list_elem_of_singleton in Hb as ->; naive_solver|set_solver].
  - naive_solver.
  - eexists. split; [rewrite !elem_of_app, !elem_of_block_if; do 4 right; left; split; [|reflexivity]|done].
    cbn in Hnext. destruct (min_of _) as [m|] eqn:Em; [|done]. injection Hnext as <-.
    apply min_of_spec in Em as [_ Hmin]. rewrite Forall_forall in Hmin.
    eapply Z.ltb_lt, Z.lt_le_trans; [by apply Z.ltb_lt|].
    apply Z.add_le_mono_r, inj_le, filter_weaker_length. intros x Hx Hp.
    assert (m <= x) by (apply Hmin, elem_of_filter_bool; done). lia.
  - naive_solver.
  - destruct (latest_prior u) as [m|] eqn:Em; [|set_solver]. apply elem_of_block_if in Hb as [_ ->].
    injection Hnext as <-.
    eexists. split; [rewrite !elem_of_app, !elem_of_block_if; do 6 right; split; [|reflexivity]|done]. lia.
Qed.

(** Quiet hours fail closed across daylight-saving changes: whenever the
    customer's wall clock lies in the configured interval (which may cross
    midnight), contact is not allowed, and the block names a later instant. *)
Theorem quiet_hours_block_contact `{ZoneLaws} policy facts now u q :
  is_naive now = false → utc_facts facts = Ok u → cp_quiet_hours policy = Some q →
  clock_time (qh_start_local q) → clock_time (qh_end_local q) →
  time_usec (qh_start_local q) ≠ time_usec (qh_end_local q) →
  in_quiet_hours q (local_wall (qh_timezone q) (instant now) mod days 1) →
  ∃ s b until, evaluate_communication_safety policy facts now = Ok s
    ∧ css_outbound_allowed_now s = false ∧ b ∈ css_blocks s
    ∧ cb_code b = QUIET_HOURS ∧ cb_next_allowed_at b = Some until ∧ instant now < until.
Proof.
  intros Hn Hu Hq Hst Hen Hne Hin.
  destruct (quiet_hours_found q (instant now) Hst Hen Hne Hin) as (e & He & Hlt).
  destruct (evaluate_ok policy facts now u Hn Hu) as (s & Hs & Hal & l & _ & Hbl).
  eassert (_ ∈ css_blocks s) as Hb.
  { rewrite Hbl. unfold communication_blocks. cbv zeta. rewrite Hq, He.
    apply elem_of_app; right. apply elem_of_app; right. apply elem_of_app; right.
    apply elem_of_app; left. apply list_elem_of_here. }
  eexists s, _, e. split_and!; [done| |exact Hb|done..].
  rewrite Hal. destruct (css_blocks s); [set_solver|done].
Qed.

(** ** Examples *)

(** A zone one hour east of UTC that moves to two hours east at
    1970-03-30T01:00:00Z. *)
Definition ex_change : Z := days 88 + hours 1.
#[export] Instance ex_zones : Zones := {
  local_wall _ t := if t <? ex_change then t + hours 1 else t + hours 2;
  utc_of_wall _ fold w :=
    if w <? ex_change + hours 1 then w - hours 1
    else if w <? ex_change + hours 2 then (if fold then w - hours 2 else w - hours 1)
    else w - hours 2
}.
#[export] Instance ex_zone_laws : ZoneLaws.
Proof.
  split; unfold local_wall, utc_of_wall, ex_zones, ex_change, days, hours, minutes, sec;
    intros _ w t; repeat case_match; lia.
Defined.

Definition ex_send_policy : CommunicationPolicy := communication_policy ex_process_definition.
Definition ex_facts : CommunicationSafetyFacts :=
  mkFacts (utc (days 80)) [utc (days 86 + hours 12)] None None None None true.
Definition ex_utc_facts : UtcFacts :=
  mkUtcFacts (days 80) [days 86 + hours 12] [days 86 + hours 12] None None None 1.

Lemma contact_allowed_spec_witness :
  ∃ s, evaluate_communication_safety ex_send_policy ex_facts (utc (days 87 + hours 14)) = Ok s
    ∧ (css_outbound_allowed_now s = true ↔
        ContactAllowed ex_send_policy ex_utc_facts (instant (utc (days 87 + hours 14))))
    ∧ (require_allowed s = Ok tt ↔
        ContactAllowed ex_send_policy ex_utc_facts (instant (utc (days 87 + hours 14)))).
Proof. apply (contact_allowed_spec ex_send_policy ex_facts); reflexivity. Defined.

Example contact_allowed_ex :
  css_outbound_allowed_now <$> (match evaluate_communication_safety ex_send_policy ex_facts
    (utc (days 87 + hours 14)) with Ok s => Some s | Raise _ => None end) = Some true.
Proof. vm_compute. reflexivity. Qed.

Lemma retry_hints_are_not_early_witness :
  ∃ s b, evaluate_communication_safety ex_send_policy ex_facts (utc (days 87 + hours 11)) = Ok s
    ∧ b ∈ css_blocks s ∧ cb_code b = MINIMUM_INTERVAL ∧ css_outbound_allowed_now s = false.
Proof.
  eapply (retry_hints_are_not_early ex_send_policy ex_facts (utc (days 87 + hours 10))
    (utc (days 87 + hours 11)) ex_utc_facts _ (mkBlock MINIMUM_INTERVAL _ _) (days 87 + hours 12));
    [reflexivity..| | |reflexivity|].
  - apply list_elem_of_here.
  - by right.
  - vm_compute. split; congruence || discriminate.
Defined.

(** On the night of the change, at half past three on the customer's clock. *)
Lemma quiet_hours_block_contact_witness :
  ∃ s b until, evaluate_communication_safety ex_send_policy ex_facts (utc (days 88 + minutes 90)) = Ok s
    ∧ css_outbound_allowed_now s = false ∧ b ∈ css_blocks s
    ∧ cb_code b = QUIET_HOURS ∧ cb_next_allowed_at b = Some until
    ∧ instant (utc (days 88 + minutes 90)) < until.
Proof.
  eapply (quiet_hours_block_contact ex_send_policy ex_facts _ ex_utc_facts); try reflexivity.
  - split; reflexivity || discriminate.
  - split; reflexivity || discriminate.
  - discriminate.
  - right. reflexivity.
Defined.
