(* ===== verification/Schema.v ===== *)
(** * [db/models/]: the durable rows and their constraints

    A table is the list of its rows in insertion order.  A column whose check
    constraint lists its values has the corresponding enumeration as its type;
    timestamps are instants in microseconds.  A JSONB column that holds a dumped
    contract (an event, a conflict, facts, wake conditions, references) holds the
    contract; other JSONB objects are item lists, or maps where the program merges
    them.  The [updated_at] column, read only by listings, and the columns
    [late_event_policy] and [command_type] of a recovery, whose checks allow one
    value, are left out, and so are the format checks of fingerprints, deployment
    identifiers and slugs and the length limits of text columns.  [Table]
    gives each row type its table, its primary key, its tenant, its unique
    constraints, its foreign keys and its remaining checks. *)

From stdpp Require Import base gmap list strings.
From Stdlib Require Import ZArith Lia.
From S2P Require Import Prelude Python PyTime Json Contracts.

#[local] Open Scope Z_scope.

(** ** Enumerated columns *)

Inductive CredentialStatus := CR_ACTIVE | CR_REVOKED.
Inductive TenantStatus := TS_ACTIVE | TS_SUSPENDED.
Inductive CorrelationStatus := CS_PENDING | CS_MATCHED | CS_REJECTED.
Inductive OutboxStatus := OB_PENDING | OB_PUBLISHING | OB_PUBLISHED | OB_DEAD_LETTER.
Inductive ThreadStatus := TH_OPEN | TH_APPROVED | TH_REJECTED | TH_REVISION_REQUESTED | TH_CANCELLED.
Inductive ApprovalOutcome := OUTCOME_APPROVED | OUTCOME_REJECTED.
Inductive InterventionKind := IK_TURN_FAILURE | IK_ACTION_CHAIN_LIMIT.
Inductive InterventionStatus := IS_OPEN | IS_RESOLVED.
(** [ProcessControlType] of [processes/control.py]. *)
Inductive ProcessControlType := PC_RETRY | PC_WAKE | PC_TAKEOVER | PC_RESUME.
Inductive BreakerScope := MODEL_CALLS | OUTBOUND_MESSAGES | CAPABILITY | ALL.

Definition thread_status_value (s : ThreadStatus) : string :=
  match s with
  | TH_OPEN => "open" | TH_APPROVED => "approved" | TH_REJECTED => "rejected"
  | TH_REVISION_REQUESTED => "revision_requested" | TH_CANCELLED => "cancelled"
  end.
Definition breaker_scope_value (s : BreakerScope) : string :=
  match s with
  | MODEL_CALLS => "model_calls" | OUTBOUND_MESSAGES => "outbound_messages"
  | CAPABILITY => "capability" | ALL => "all"
  end.

#[export] Instance CredentialStatus_eq_dec : EqDecision CredentialStatus.
Proof. solve_decision. Defined.
#[export] Instance TenantStatus_eq_dec : EqDecision TenantStatus.
Proof. solve_decision. Defined.
#[export] Instance CorrelationStatus_eq_dec : EqDecision CorrelationStatus.
Proof. solve_decision. Defined.
#[export] Instance OutboxStatus_eq_dec : EqDecision OutboxStatus.
Proof. solve_decision. Defined.
#[export] Instance ThreadStatus_eq_dec : EqDecision ThreadStatus.
Proof. solve_decision. Defined.
#[export] Instance ApprovalOutcome_eq_dec : EqDecision ApprovalOutcome.
Proof. solve_decision. Defined.
#[export] Instance InterventionKind_eq_dec : EqDecision InterventionKind.
Proof. solve_decision. Defined.
#[export] Instance InterventionStatus_eq_dec : EqDecision InterventionStatus.
Proof. solve_decision. Defined.
#[export] Instance ProcessControlType_eq_dec : EqDecision ProcessControlType.
Proof. solve_decision. Defined.
#[export] Instance BreakerScope_eq_dec : EqDecision BreakerScope.
Proof. solve_decision. Defined.

(** ** Rows *)

Record Tenant := mkTenant {
  tn_id : UUID;
  tn_slug : string;
  tn_name : string;
  tn_status : TenantStatus;
  tn_deployment_id : string
}.
Record ProcessInstance := mkProcessInstance {
  pi_id : UUID;
  pi_tenant_id : UUID;
  pi_process_type : string;
  pi_definition_version : string;
  pi_extension_manifest_hash : string;
  pi_client_pack_fingerprint : string;
  pi_process_definition_fingerprint : string;
  pi_deployment_id : string;
  pi_deployment_release_fingerprint : string;
  pi_temporal_task_queue : string;
  pi_status : ProcessStatus;
  pi_workflow_id : string;
  pi_current_run_id : option string;
  pi_authoritative_facts : gmap string json;
  pi_customer_claims : gmap string json;
  pi_fact_provenance : gmap string json;
  pi_memory_summary : option string;
  pi_memory_summary_source_event_ids : list string;
  pi_memory_summary_source_review_command_ids : list string;
  pi_memory_summary_source_action_attempt_ids : list string;
  pi_memory_summary_source_timer_ids : list string;
  pi_open_commitments : list string;
  pi_current_wake_conditions : list WakeCondition;
  pi_state_version : Z;
  pi_created_at : Z
}.
Record EventInbox := mkEventInbox {
  ei_id : UUID;
  ei_tenant_id : UUID;
  ei_process_instance_id : option UUID;
  ei_source : string;
  ei_source_event_id : string;
  ei_event_type : string;
  ei_event_data : CanonicalEvent;
  ei_correlation_status : CorrelationStatus;
  ei_correlation_reason : option string;
  ei_received_at : Z;
  ei_created_at : Z
}.
Record OutboxMessage := mkOutboxMessage {
  om_id : UUID;
  om_tenant_id : UUID;
  om_process_instance_id : option UUID;
  om_causation_event_id : option UUID;
  om_message_type : string;
  om_destination : string;
  om_deduplication_key : string;
  om_payload : list (string * json);
  om_status : OutboxStatus;
  om_available_at : Z;
  om_attempt_count : Z;
  om_claimed_at : option Z;
  om_claim_token : option UUID;
  om_last_error : option string;
  om_published_at : option Z;
  om_dead_lettered_at : option Z;
  om_created_at : Z
}.
Record ActionRequest := mkActionRequest {
  ar_id : UUID;
  ar_tenant_id : UUID;
  ar_process_instance_id : UUID;
  ar_agent_turn_id : UUID;
  ar_logical_action_key : string;
  ar_action_type : string;
  ar_process_definition_version : string;
  ar_supersedes_action_request_id : option UUID;
  ar_current_revision : Z;
  ar_status : ActionRequestStatus;
  ar_created_at : Z
}.
Record ActionRevision := mkActionRevision {
  arv_id : UUID;
  arv_tenant_id : UUID;
  arv_process_instance_id : UUID;
  arv_action_request_id : UUID;
  arv_revision : Z;
  arv_parameters : list (string * json);
  arv_payload_hash : string;
  arv_rationale : string;
  arv_based_on_event_ids : list string;
  arv_based_on_review_command_ids : list string;
  arv_based_on_action_attempt_ids : list string;
  arv_based_on_timer_ids : list string;
  arv_created_at : Z
}.
Record ActionPolicyRecord := mkActionPolicyRecord {
  apr_id : UUID;
  apr_tenant_id : UUID;
  apr_process_instance_id : UUID;
  apr_action_request_id : UUID;
  apr_revision : Z;
  apr_outcome : PermissionOutcome;
  apr_policy_version : string;
  apr_reason : string;
  apr_created_at : Z
}.
Record ApprovalRequest := mkApprovalRequest {
  apq_id : UUID;
  apq_tenant_id : UUID;
  apq_process_instance_id : UUID;
  apq_action_request_id : UUID;
  apq_revision : Z;
  apq_payload_hash : string;
  apq_status : ApprovalStatus;
  apq_required_role : option string;
  apq_expires_at : option Z;
  apq_created_at : Z
}.
Record ActionAttempt := mkActionAttempt {
  aa_id : UUID;
  aa_tenant_id : UUID;
  aa_process_instance_id : UUID;
  aa_action_request_id : UUID;
  aa_revision : Z;
  aa_attempt_number : Z;
  aa_idempotency_key : string;
  aa_adapter_id : string;
  aa_status : ActionAttemptStatus;
  aa_provider_reference : option string;
  aa_result : option (list (string * json));
  aa_conflict : option ActionConflict;
  aa_facts : list FactObservation;
  aa_error : option string;
  aa_started_at : Z;
  aa_completed_at : option Z;
  aa_created_at : Z
}.
Record ActionReconciliationDecision := mkActionReconciliationDecision {
  rd_id : UUID;
  rd_tenant_id : UUID;
  rd_process_instance_id : UUID;
  rd_action_request_id : UUID;
  rd_action_attempt_id : UUID;
  rd_actor_id : UUID;
  rd_previous_status : ActionAttemptStatus;
  rd_resolution : ActionResolution;
  rd_evidence : string;
  rd_provider_reference : option string;
  rd_result : option (list (string * json));
  rd_created_at : Z
}.
Record ReviewThread := mkReviewThread {
  rt_id : UUID;
  rt_tenant_id : UUID;
  rt_process_instance_id : UUID;
  rt_approval_request_id : UUID;
  rt_status : ThreadStatus;
  rt_created_at : Z
}.
Record ReviewMessage := mkReviewMessage {
  rm_id : UUID;
  rm_tenant_id : UUID;
  rm_process_instance_id : UUID;
  rm_review_thread_id : UUID;
  rm_actor_id : UUID;
  rm_message_type : ReviewCommandType;
  rm_content : option string;
  rm_proposal_revision : Z;
  rm_created_at : Z
}.
Record ApprovalDecision := mkApprovalDecision {
  apd_row_id : UUID;
  apd_row_tenant_id : UUID;
  apd_row_process_instance_id : UUID;
  apd_row_approval_request_id : UUID;
  apd_row_actor_id : UUID;
  apd_row_decision : ApprovalOutcome;
  apd_row_payload_hash : string;
  apd_row_reason : option string;
  apd_row_created_at : Z
}.
Record ModelUsageLedger := mkModelUsageLedger {
  mul_id : UUID;
  mul_tenant_id : UUID;
  mul_process_instance_id : UUID;
  mul_agent_turn_id : UUID;
  mul_execution_id : UUID;
  mul_attempt_number : Z;
  mul_model : string;
  mul_input_tokens : Z;
  mul_output_tokens : Z;
  mul_cost_micros : Z;
  mul_price_table_version : Z;
  mul_created_at : Z
}.
Record CircuitBreaker := mkCircuitBreaker {
  br_id : UUID;
  br_tenant_id : UUID;
  br_scope : BreakerScope;
  br_target : string;
  br_tripped : bool;
  br_reason : string;
  br_actor_id : UUID;
  br_created_at : Z
}.
Record ProcessStateRevision := mkProcessStateRevision {
  psr_id : UUID;
  psr_tenant_id : UUID;
  psr_process_instance_id : UUID;
  psr_agent_turn_id : UUID;
  psr_decision_id : UUID;
  psr_version : Z;
  psr_decision_status : DecisionStatus;
  psr_process_status : ProcessStatus;
  psr_authoritative_facts : gmap string json;
  psr_customer_claims : gmap string json;
  psr_fact_provenance : gmap string json;
  psr_memory_summary : option string;
  psr_memory_summary_source_event_ids : list string;
  psr_memory_summary_source_review_command_ids : list string;
  psr_memory_summary_source_action_attempt_ids : list string;
  psr_memory_summary_source_timer_ids : list string;
  psr_open_commitments : list string;
  psr_wake_conditions : list WakeCondition;
  psr_based_on_event_ids : list string;
  psr_based_on_review_command_ids : list string;
  psr_based_on_action_attempt_ids : list string;
  psr_based_on_timer_ids : list string;
  psr_created_at : Z
}.
Record ProcessIntervention := mkProcessIntervention {
  pv_id : UUID;
  pv_tenant_id : UUID;
  pv_process_instance_id : UUID;
  pv_agent_turn_id : UUID;
  pv_kind : InterventionKind;
  pv_status : InterventionStatus;
  pv_error_type : string;
  pv_error : string;
  pv_source_event_ids : list string;
  pv_source_review_command_ids : list string;
  pv_source_action_attempt_ids : list string;
  pv_source_timer_ids : list string;
  pv_resolved_by_command_id : option UUID;
  pv_resolved_at : option Z;
  pv_created_at : Z
}.
Record ProcessControlCommand := mkProcessControlCommand {
  pcc_id : UUID;
  pcc_tenant_id : UUID;
  pcc_process_instance_id : UUID;
  pcc_actor_id : UUID;
  pcc_intervention_id : option UUID;
  pcc_command_type : ProcessControlType;
  pcc_reason : string;
  pcc_payload : list (string * json);
  pcc_created_at : Z
}.
Record ExternalCorrelation := mkExternalCorrelation {
  ec_id : UUID;
  ec_tenant_id : UUID;
  ec_process_instance_id : UUID;
  ec_provider : string;
  ec_resource_type : string;
  ec_external_id : string;
  ec_created_at : Z
}.
Record OutboxRecoveryCommand := mkOutboxRecoveryCommand {
  orc_id : UUID;
  orc_tenant_id : UUID;
  orc_outbox_message_id : UUID;
  orc_actor_id : UUID;
  orc_reason : string;
  orc_previous_attempt_count : Z;
  orc_previous_error : option string;
  orc_previous_dead_lettered_at : Z;
  orc_created_at : Z
}.
Record EventResolutionCommand := mkEventResolutionCommand {
  erc_id : UUID;
  erc_tenant_id : UUID;
  erc_event_id : UUID;
  erc_process_instance_id : UUID;
  erc_actor_id : UUID;
  erc_reason : string;
  erc_previous_status : CorrelationStatus;
  erc_previous_reason : option string;
  erc_bound_references : list ExternalReference;
  erc_delivery_scheduled : bool;
  erc_created_at : Z
}.
Record TenantSafetyEvent := mkTenantSafetyEvent {
  tse_id : UUID;
  tse_tenant_id : UUID;
  tse_actor_id : UUID;
  tse_previous_status : TenantStatus;
  tse_new_status : TenantStatus;
  tse_reason : string;
  tse_metadata : list (string * json);
  tse_created_at : Z
}.
Record TenantDeploymentEvent := mkTenantDeploymentEvent {
  tde_id : UUID;
  tde_tenant_id : UUID;
  tde_actor_id : UUID;
  tde_previous_deployment_id : string;
  tde_new_deployment_id : string;
  tde_reason : string;
  tde_created_at : Z
}.
#[export] Instance Tenant_rebuild : Rebuild Tenant := λ r,
  mkTenant (tn_id r) (tn_slug r) (tn_name r) (tn_status r) (tn_deployment_id r).
#[export] Instance ProcessInstance_rebuild : Rebuild ProcessInstance := λ r,
  mkProcessInstance (pi_id r) (pi_tenant_id r) (pi_process_type r) (pi_definition_version r)
    (pi_extension_manifest_hash r) (pi_client_pack_fingerprint r)
    (pi_process_definition_fingerprint r) (pi_deployment_id r) (pi_deployment_release_fingerprint
    r) (pi_temporal_task_queue r) (pi_status r) (pi_workflow_id r) (pi_current_run_id r)
    (pi_authoritative_facts r) (pi_customer_claims r) (pi_fact_provenance r) (pi_memory_summary r)
    (pi_memory_summary_source_event_ids r) (pi_memory_summary_source_review_command_ids r)
    (pi_memory_summary_source_action_attempt_ids r) (pi_memory_summary_source_timer_ids r)
    (pi_open_commitments r) (pi_current_wake_conditions r) (pi_state_version r) (pi_created_at r).
#[export] Instance EventInbox_rebuild : Rebuild EventInbox := λ r,
  mkEventInbox (ei_id r) (ei_tenant_id r) (ei_process_instance_id r) (ei_source r)
    (ei_source_event_id r) (ei_event_type r) (ei_event_data r) (ei_correlation_status r)
    (ei_correlation_reason r) (ei_received_at r) (ei_created_at r).
#[export] Instance OutboxMessage_rebuild : Rebuild OutboxMessage := λ r,
  mkOutboxMessage (om_id r) (om_tenant_id r) (om_process_instance_id r) (om_causation_event_id r)
    (om_message_type r) (om_destination r) (om_deduplication_key r) (om_payload r) (om_status r)
    (om_available_at r) (om_attempt_count r) (om_claimed_at r) (om_claim_token r) (om_last_error
    r) (om_published_at r) (om_dead_lettered_at r) (om_created_at r).
#[export] Instance ActionRequest_rebuild : Rebuild ActionRequest := λ r,
  mkActionRequest (ar_id r) (ar_tenant_id r) (ar_process_instance_id r) (ar_agent_turn_id r)
    (ar_logical_action_key r) (ar_action_type r) (ar_process_definition_version r)
    (ar_supersedes_action_request_id r) (ar_current_revision r) (ar_status r) (ar_created_at r).
#[export] Instance ActionRevision_rebuild : Rebuild ActionRevision := λ r,
  mkActionRevision (arv_id r) (arv_tenant_id r) (arv_process_instance_id r) (arv_action_request_id
    r) (arv_revision r) (arv_parameters r) (arv_payload_hash r) (arv_rationale r)
    (arv_based_on_event_ids r) (arv_based_on_review_command_ids r)
    (arv_based_on_action_attempt_ids r) (arv_based_on_timer_ids r) (arv_created_at r).
#[export] Instance ActionPolicyRecord_rebuild : Rebuild ActionPolicyRecord := λ r,
  mkActionPolicyRecord (apr_id r) (apr_tenant_id r) (apr_process_instance_id r)
    (apr_action_request_id r) (apr_revision r) (apr_outcome r) (apr_policy_version r) (apr_reason
    r) (apr_created_at r).
#[export] Instance ApprovalRequest_rebuild : Rebuild ApprovalRequest := λ r,
  mkApprovalRequest (apq_id r) (apq_tenant_id r) (apq_process_instance_id r)
    (apq_action_request_id r) (apq_revision r) (apq_payload_hash r) (apq_status r)
    (apq_required_role r) (apq_expires_at r) (apq_created_at r).
#[export] Instance ActionAttempt_rebuild : Rebuild ActionAttempt := λ r,
  mkActionAttempt (aa_id r) (aa_tenant_id r) (aa_process_instance_id r) (aa_action_request_id r)
    (aa_revision r) (aa_attempt_number r) (aa_idempotency_key r) (aa_adapter_id r) (aa_status r)
    (aa_provider_reference r) (aa_result r) (aa_conflict r) (aa_facts r) (aa_error r)
    (aa_started_at r) (aa_completed_at r) (aa_created_at r).
#[export] Instance ActionReconciliationDecision_rebuild : Rebuild ActionReconciliationDecision := λ r,
  mkActionReconciliationDecision (rd_id r) (rd_tenant_id r) (rd_process_instance_id r)
    (rd_action_request_id r) (rd_action_attempt_id r) (rd_actor_id r) (rd_previous_status r)
    (rd_resolution r) (rd_evidence r) (rd_provider_reference r) (rd_result r) (rd_created_at r).
#[export] Instance ReviewThread_rebuild : Rebuild ReviewThread := λ r,
  mkReviewThread (rt_id r) (rt_tenant_id r) (rt_process_instance_id r) (rt_approval_request_id r)
    (rt_status r) (rt_created_at r).
#[export] Instance ReviewMessage_rebuild : Rebuild ReviewMessage := λ r,
  mkReviewMessage (rm_id r) (rm_tenant_id r) (rm_process_instance_id r) (rm_review_thread_id r)
    (rm_actor_id r) (rm_message_type r) (rm_content r) (rm_proposal_revision r) (rm_created_at r).
#[export] Instance ApprovalDecision_rebuild : Rebuild ApprovalDecision := λ r,
  mkApprovalDecision (apd_row_id r) (apd_row_tenant_id r) (apd_row_process_instance_id r)
    (apd_row_approval_request_id r) (apd_row_actor_id r) (apd_row_decision r)
    (apd_row_payload_hash r) (apd_row_reason r) (apd_row_created_at r).
#[export] Instance ModelUsageLedger_rebuild : Rebuild ModelUsageLedger := λ r,
  mkModelUsageLedger (mul_id r) (mul_tenant_id r) (mul_process_instance_id r) (mul_agent_turn_id
    r) (mul_execution_id r) (mul_attempt_number r) (mul_model r) (mul_input_tokens r)
    (mul_output_tokens r) (mul_cost_micros r) (mul_price_table_version r) (mul_created_at r).
#[export] Instance CircuitBreaker_rebuild : Rebuild CircuitBreaker := λ r,
  mkCircuitBreaker (br_id r) (br_tenant_id r) (br_scope r) (br_target r) (br_tripped r) (br_reason
    r) (br_actor_id r) (br_created_at r).
#[export] Instance ProcessStateRevision_rebuild : Rebuild ProcessStateRevision := λ r,
  mkProcessStateRevision (psr_id r) (psr_tenant_id r) (psr_process_instance_id r)
    (psr_agent_turn_id r) (psr_decision_id r) (psr_version r) (psr_decision_status r)
    (psr_process_status r) (psr_authoritative_facts r) (psr_customer_claims r)
    (psr_fact_provenance r) (psr_memory_summary r) (psr_memory_summary_source_event_ids r)
    (psr_memory_summary_source_review_command_ids r)
    (psr_memory_summary_source_action_attempt_ids r) (psr_memory_summary_source_timer_ids r)
    (psr_open_commitments r) (psr_wake_conditions r) (psr_based_on_event_ids r)
    (psr_based_on_review_command_ids r) (psr_based_on_action_attempt_ids r)
    (psr_based_on_timer_ids r) (psr_created_at r).
#[export] Instance ProcessIntervention_rebuild : Rebuild ProcessIntervention := λ r,
  mkProcessIntervention (pv_id r) (pv_tenant_id r) (pv_process_instance_id r)
    (pv_agent_turn_id r) (pv_kind r) (pv_status r) (pv_error_type r) (pv_error r)
    (pv_source_event_ids r) (pv_source_review_command_ids r) (pv_source_action_attempt_ids r)
    (pv_source_timer_ids r) (pv_resolved_by_command_id r) (pv_resolved_at r) (pv_created_at r).
#[export] Instance ProcessControlCommand_rebuild : Rebuild ProcessControlCommand := λ r,
  mkProcessControlCommand (pcc_id r) (pcc_tenant_id r) (pcc_process_instance_id r)
    (pcc_actor_id r) (pcc_intervention_id r) (pcc_command_type r) (pcc_reason r) (pcc_payload r)
    (pcc_created_at r).
#[export] Instance ExternalCorrelation_rebuild : Rebuild ExternalCorrelation := λ r,
  mkExternalCorrelation (ec_id r) (ec_tenant_id r) (ec_process_instance_id r) (ec_provider r)
    (ec_resource_type r) (ec_external_id r) (ec_created_at r).
#[export] Instance OutboxRecoveryCommand_rebuild : Rebuild OutboxRecoveryCommand := λ r,
  mkOutboxRecoveryCommand (orc_id r) (orc_tenant_id r) (orc_outbox_message_id r)
    (orc_actor_id r) (orc_reason r) (orc_previous_attempt_count r) (orc_previous_error r)
    (orc_previous_dead_lettered_at r) (orc_created_at r).
#[export] Instance EventResolutionCommand_rebuild : Rebuild EventResolutionCommand := λ r,
  mkEventResolutionCommand (erc_id r) (erc_tenant_id r) (erc_event_id r)
    (erc_process_instance_id r) (erc_actor_id r) (erc_reason r) (erc_previous_status r)
    (erc_previous_reason r) (erc_bound_references r) (erc_delivery_scheduled r)
    (erc_created_at r).
#[export] Instance TenantSafetyEvent_rebuild : Rebuild TenantSafetyEvent := λ r,
  mkTenantSafetyEvent (tse_id r) (tse_tenant_id r) (tse_actor_id r) (tse_previous_status r)
    (tse_new_status r) (tse_reason r) (tse_metadata r) (tse_created_at r).
#[export] Instance TenantDeploymentEvent_rebuild : Rebuild TenantDeploymentEvent := λ r,
  mkTenantDeploymentEvent (tde_id r) (tde_tenant_id r) (tde_actor_id r)
    (tde_previous_deployment_id r) (tde_new_deployment_id r) (tde_reason r) (tde_created_at r).

(** A pending outbox row; the other columns have their defaults. *)
Definition new_outbox_message (id tenant_id process_instance_id : UUID) (causation_event_id : option UUID)
    (message_type destination key : string) (payload : list (string * json)) (now : Z) : OutboxMessage :=
  mkOutboxMessage id tenant_id (Some process_instance_id) causation_event_id message_type destination key
    payload OB_PENDING now 0 None None None None None now.

(** ** The database *)

Record TenantCredential := mkTenantCredential {
  tcr_id : UUID;
  tcr_tenant_id : UUID;
  tcr_actor_id : UUID;
  tcr_name : string;
  tcr_secret_hash : string;
  tcr_scopes : list string;
  tcr_roles : list string;
  tcr_status : CredentialStatus;
  tcr_expires_at : option Z;
  tcr_revoked_at : option Z;
  tcr_revoked_by_actor_id : option UUID
}.
#[export] Instance TenantCredential_rebuild : Rebuild TenantCredential := λ c,
  mkTenantCredential (tcr_id c) (tcr_tenant_id c) (tcr_actor_id c) (tcr_name c) (tcr_secret_hash c)
    (tcr_scopes c) (tcr_roles c) (tcr_status c) (tcr_expires_at c) (tcr_revoked_at c)
    (tcr_revoked_by_actor_id c).

Record Db := mkDb {
  tenants : list Tenant;
  process_instances : list ProcessInstance;
  event_inbox : list EventInbox;
  outbox_messages : list OutboxMessage;
  action_requests : list ActionRequest;
  action_revisions : list ActionRevision;
  action_policy_decisions : list ActionPolicyRecord;
  approval_requests : list ApprovalRequest;
  action_attempts : list ActionAttempt;
  action_reconciliation_decisions : list ActionReconciliationDecision;
  review_threads : list ReviewThread;
  review_messages : list ReviewMessage;
  approval_decisions : list ApprovalDecision;
  model_usage_ledger : list ModelUsageLedger;
  circuit_breakers : list CircuitBreaker;
  process_state_revisions : list ProcessStateRevision;
  process_interventions : list ProcessIntervention;
  process_control_commands : list ProcessControlCommand;
  external_correlations : list ExternalCorrelation;
  outbox_recovery_commands : list OutboxRecoveryCommand;
  event_resolution_commands : list EventResolutionCommand;
  tenant_safety_events : list TenantSafetyEvent;
  tenant_deployment_events : list TenantDeploymentEvent;
  tenant_credentials : list TenantCredential
}.
#[export] Instance Db_rebuild : Rebuild Db := λ d,
  mkDb (tenants d) (process_instances d) (event_inbox d) (outbox_messages d)
    (action_requests d) (action_revisions d) (action_policy_decisions d) (approval_requests d)
    (action_attempts d) (action_reconciliation_decisions d) (review_threads d)
    (review_messages d) (approval_decisions d) (model_usage_ledger d) (circuit_breakers d)
    (process_state_revisions d) (process_interventions d) (process_control_commands d)
    (external_correlations d) (outbox_recovery_commands d) (event_resolution_commands d)
    (tenant_safety_events d) (tenant_deployment_events d) (tenant_credentials d).
Definition empty_db : Db := mkDb [] [] [] [] [] [] [] [] [] [] [] [] [] [] [] [] [] [] [] [] [] [] [] [].

(** The constraints of a table.  [same_key] relates two rows that some unique
    constraint other than the primary key forbids to coexist. *)
Class Table (R : Type) := {
  table : Db → list R;
  set_table : list R → Db → Db;
  row_id : R → UUID;
  row_tenant : R → UUID;
  same_key : R → R → bool;
  parents_exist : Db → R → bool;
  checks_hold : R → bool
}.

Definition eqb {A} `{EqDecision A} (x y : A) : bool := bool_decide (x = y).

Definition process_exists (d : Db) (tenant process : UUID) : bool :=
  existsb (λ p, eqb (pi_tenant_id p) tenant && eqb (pi_id p) process) (process_instances d).
Definition tenant_exists (d : Db) (tenant : UUID) : bool :=
  existsb (λ t, eqb (tn_id t) tenant) (tenants d).
Definition request_exists (d : Db) (tenant process request : UUID) : bool :=
  existsb (λ r, eqb (ar_tenant_id r) tenant && eqb (ar_process_instance_id r) process
                && eqb (ar_id r) request) (action_requests d).
Definition revision_exists (d : Db) (tenant process request : UUID) (revision : Z) : bool :=
  existsb (λ r, eqb (arv_tenant_id r) tenant && eqb (arv_process_instance_id r) process
                && eqb (arv_action_request_id r) request && (arv_revision r =? revision))
    (action_revisions d).

#[export] Instance Tenant_table : Table Tenant := {|
  table := tenants; set_table rs d := d <| tenants := rs |>;
  row_id := tn_id; row_tenant := tn_id;
  same_key r s := eqb (tn_slug r) (tn_slug s);
  parents_exist _ _ := true; checks_hold _ := true
|}.

#[export] Instance ProcessInstance_table : Table ProcessInstance := {|
  table := process_instances; set_table rs d := d <| process_instances := rs |>;
  row_id := pi_id; row_tenant := pi_tenant_id;
  same_key r s := eqb (pi_tenant_id r) (pi_tenant_id s) && eqb (pi_workflow_id r) (pi_workflow_id s);
  parents_exist d r := tenant_exists d (pi_tenant_id r);
  checks_hold r := 0 <=? pi_state_version r
|}.

(** [uq_event_inbox_source_event] *)
Definition same_source_event (r s : EventInbox) : bool :=
  eqb (ei_tenant_id r) (ei_tenant_id s) && eqb (ei_source r) (ei_source s)
  && eqb (ei_source_event_id r) (ei_source_event_id s).

#[export] Instance EventInbox_table : Table EventInbox := {|
  table := event_inbox; set_table rs d := d <| event_inbox := rs |>;
  row_id := ei_id; row_tenant := ei_tenant_id;
  same_key := same_source_event;
  parents_exist d r := match ei_process_instance_id r with
                       | Some p => process_exists d (ei_tenant_id r) p | None => true end;
  checks_hold _ := true
|}.

(** [uq_outbox_messages_dedup] *)
Definition same_dedup (r s : OutboxMessage) : bool :=
  eqb (om_tenant_id r) (om_tenant_id s) && eqb (om_deduplication_key r) (om_deduplication_key s).

#[export] Instance OutboxMessage_table : Table OutboxMessage := {|
  table := outbox_messages; set_table rs d := d <| outbox_messages := rs |>;
  row_id := om_id; row_tenant := om_tenant_id;
  same_key := same_dedup;
  parents_exist d r :=
    match om_process_instance_id r with
    | Some p => process_exists d (om_tenant_id r) p | None => true end
    && match om_causation_event_id r with
       | Some e => existsb (λ i, eqb (ei_tenant_id i) (om_tenant_id r) && eqb (ei_id i) e)
                     (event_inbox d)
       | None => true end;
  checks_hold r :=
    (0 <=? om_attempt_count r)
    && eqb (eqb (om_status r) OB_PUBLISHING)
         (bool_decide (is_Some (om_claimed_at r)) && bool_decide (is_Some (om_claim_token r)))
    && eqb (bool_decide (is_Some (om_claimed_at r))) (bool_decide (is_Some (om_claim_token r)))
    && eqb (eqb (om_status r) OB_DEAD_LETTER) (bool_decide (is_Some (om_dead_lettered_at r)))
|}.

(** [uq_action_request_turn_logical_key] *)
Definition same_turn_key (r s : ActionRequest) : bool :=
  eqb (ar_tenant_id r) (ar_tenant_id s) && eqb (ar_process_instance_id r) (ar_process_instance_id s)
  && eqb (ar_agent_turn_id r) (ar_agent_turn_id s)
  && eqb (ar_logical_action_key r) (ar_logical_action_key s).

#[export] Instance ActionRequest_table : Table ActionRequest := {|
  table := action_requests; set_table rs d := d <| action_requests := rs |>;
  row_id := ar_id; row_tenant := ar_tenant_id;
  same_key := same_turn_key;
  parents_exist d r :=
    process_exists d (ar_tenant_id r) (ar_process_instance_id r)
    && match ar_supersedes_action_request_id r with
       | Some q => request_exists d (ar_tenant_id r) (ar_process_instance_id r) q
       | None => true end;
  checks_hold r := 1 <=? ar_current_revision r
|}.

(** [uq_action_revision_number], which implies [uq_action_revision_payload]. *)
Definition same_revision (r s : ActionRevision) : bool :=
  eqb (arv_tenant_id r) (arv_tenant_id s)
  && eqb (arv_process_instance_id r) (arv_process_instance_id s)
  && eqb (arv_action_request_id r) (arv_action_request_id s) && (arv_revision r =? arv_revision s).

#[export] Instance ActionRevision_table : Table ActionRevision := {|
  table := action_revisions; set_table rs d := d <| action_revisions := rs |>;
  row_id := arv_id; row_tenant := arv_tenant_id;
  same_key := same_revision;
  parents_exist d r :=
    request_exists d (arv_tenant_id r) (arv_process_instance_id r) (arv_action_request_id r);
  checks_hold r := 1 <=? arv_revision r
|}.

(** [uq_action_policy_decision_revision] *)
Definition same_policy (r s : ActionPolicyRecord) : bool :=
  eqb (apr_tenant_id r) (apr_tenant_id s)
  && eqb (apr_process_instance_id r) (apr_process_instance_id s)
  && eqb (apr_action_request_id r) (apr_action_request_id s) && (apr_revision r =? apr_revision s).

#[export] Instance ActionPolicyRecord_table : Table ActionPolicyRecord := {|
  table := action_policy_decisions; set_table rs d := d <| action_policy_decisions := rs |>;
  row_id := apr_id; row_tenant := apr_tenant_id;
  same_key := same_policy;
  parents_exist d r := revision_exists d (apr_tenant_id r) (apr_process_instance_id r)
                         (apr_action_request_id r) (apr_revision r);
  checks_hold _ := true
|}.

(** [uq_approval_request_revision] *)
Definition same_approval (r s : ApprovalRequest) : bool :=
  eqb (apq_tenant_id r) (apq_tenant_id s)
  && eqb (apq_process_instance_id r) (apq_process_instance_id s)
  && eqb (apq_action_request_id r) (apq_action_request_id s) && (apq_revision r =? apq_revision s).

#[export] Instance ApprovalRequest_table : Table ApprovalRequest := {|
  table := approval_requests; set_table rs d := d <| approval_requests := rs |>;
  row_id := apq_id; row_tenant := apq_tenant_id;
  same_key := same_approval;
  parents_exist d r :=
    existsb (λ v, eqb (arv_tenant_id v) (apq_tenant_id r)
                  && eqb (arv_process_instance_id v) (apq_process_instance_id r)
                  && eqb (arv_action_request_id v) (apq_action_request_id r)
                  && (arv_revision v =? apq_revision r)
                  && eqb (arv_payload_hash v) (apq_payload_hash r)) (action_revisions d);
  checks_hold _ := true
|}.

(** [uq_action_attempt_idempotency] and [uq_action_attempt_number]. *)
Definition same_idempotency (r s : ActionAttempt) : bool :=
  eqb (aa_tenant_id r) (aa_tenant_id s) && eqb (aa_idempotency_key r) (aa_idempotency_key s).
Definition same_attempt_number (r s : ActionAttempt) : bool :=
  eqb (aa_tenant_id r) (aa_tenant_id s)
  && eqb (aa_process_instance_id r) (aa_process_instance_id s)
  && eqb (aa_action_request_id r) (aa_action_request_id s)
  && (aa_revision r =? aa_revision s) && (aa_attempt_number r =? aa_attempt_number s).

#[export] Instance ActionAttempt_table : Table ActionAttempt := {|
  table := action_attempts; set_table rs d := d <| action_attempts := rs |>;
  row_id := aa_id; row_tenant := aa_tenant_id;
  same_key r s := same_idempotency r s || same_attempt_number r s;
  parents_exist d r := revision_exists d (aa_tenant_id r) (aa_process_instance_id r)
                         (aa_action_request_id r) (aa_revision r);
  checks_hold r := 1 <=? aa_attempt_number r
|}.

#[export] Instance ActionReconciliationDecision_table : Table ActionReconciliationDecision := {|
  table := action_reconciliation_decisions;
  set_table rs d := d <| action_reconciliation_decisions := rs |>;
  row_id := rd_id; row_tenant := rd_tenant_id;
  same_key r s := eqb (rd_tenant_id r) (rd_tenant_id s)
    && eqb (rd_process_instance_id r) (rd_process_instance_id s)
    && eqb (rd_action_attempt_id r) (rd_action_attempt_id s);
  parents_exist d r :=
    existsb (λ a, eqb (aa_tenant_id a) (rd_tenant_id r)
                  && eqb (aa_process_instance_id a) (rd_process_instance_id r)
                  && eqb (aa_action_request_id a) (rd_action_request_id r)
                  && eqb (aa_id a) (rd_action_attempt_id r)) (action_attempts d);
  checks_hold r := match rd_previous_status r with
                   | AT_UNKNOWN | AT_RECONCILING => true | _ => false end
|}.

(** [uq_review_thread_approval] *)
Definition same_thread (r s : ReviewThread) : bool :=
  eqb (rt_tenant_id r) (rt_tenant_id s)
  && eqb (rt_process_instance_id r) (rt_process_instance_id s)
  && eqb (rt_approval_request_id r) (rt_approval_request_id s).

#[export] Instance ReviewThread_table : Table ReviewThread := {|
  table := review_threads; set_table rs d := d <| review_threads := rs |>;
  row_id := rt_id; row_tenant := rt_tenant_id;
  same_key := same_thread;
  parents_exist d r :=
    existsb (λ a, eqb (apq_tenant_id a) (rt_tenant_id r)
                  && eqb (apq_process_instance_id a) (rt_process_instance_id r)
                  && eqb (apq_id a) (rt_approval_request_id r)) (approval_requests d);
  checks_hold _ := true
|}.

#[export] Instance ReviewMessage_table : Table ReviewMessage := {|
  table := review_messages; set_table rs d := d <| review_messages := rs |>;
  row_id := rm_id; row_tenant := rm_tenant_id;
  same_key _ _ := false;
  parents_exist d r :=
    existsb (λ t, eqb (rt_tenant_id t) (rm_tenant_id r)
                  && eqb (rt_process_instance_id t) (rm_process_instance_id r)
                  && eqb (rt_id t) (rm_review_thread_id r)) (review_threads d);
  checks_hold r := match rm_message_type r with
                   | RC_APPROVE | RC_REJECT | RC_REQUEST_REVISION | RC_COMMENT => true
                   | RC_CORRECT_FACT | RC_CANCEL => false end
|}.

#[export] Instance ApprovalDecision_table : Table ApprovalDecision := {|
  table := approval_decisions; set_table rs d := d <| approval_decisions := rs |>;
  row_id := apd_row_id; row_tenant := apd_row_tenant_id;
  same_key r s := eqb (apd_row_tenant_id r) (apd_row_tenant_id s)
    && eqb (apd_row_process_instance_id r) (apd_row_process_instance_id s)
    && eqb (apd_row_approval_request_id r) (apd_row_approval_request_id s);
  parents_exist d r :=
    existsb (λ a, eqb (apq_tenant_id a) (apd_row_tenant_id r)
                  && eqb (apq_process_instance_id a) (apd_row_process_instance_id r)
                  && eqb (apq_id a) (apd_row_approval_request_id r)) (approval_requests d);
  checks_hold _ := true
|}.

(** [uq_model_usage_turn_attempt] *)
Definition same_usage (r s : ModelUsageLedger) : bool :=
  eqb (mul_tenant_id r) (mul_tenant_id s)
  && eqb (mul_process_instance_id r) (mul_process_instance_id s)
  && eqb (mul_agent_turn_id r) (mul_agent_turn_id s)
  && eqb (mul_execution_id r) (mul_execution_id s) && (mul_attempt_number r =? mul_attempt_number s).

#[export] Instance ModelUsageLedger_table : Table ModelUsageLedger := {|
  table := model_usage_ledger; set_table rs d := d <| model_usage_ledger := rs |>;
  row_id := mul_id; row_tenant := mul_tenant_id;
  same_key := same_usage;
  parents_exist d r := process_exists d (mul_tenant_id r) (mul_process_instance_id r);
  checks_hold r := (1 <=? mul_attempt_number r) && (0 <=? mul_input_tokens r)
    && (0 <=? mul_output_tokens r) && (0 <=? mul_cost_micros r) && (1 <=? mul_price_table_version r)
|}.

#[export] Instance CircuitBreaker_table : Table CircuitBreaker := {|
  table := circuit_breakers; set_table rs d := d <| circuit_breakers := rs |>;
  row_id := br_id; row_tenant := br_tenant_id;
  same_key _ _ := false;
  parents_exist d r := tenant_exists d (br_tenant_id r);
  checks_hold r := eqb (eqb (br_scope r) CAPABILITY) (negb (is_empty (br_target r)))
|}.

(** [uq_process_state_revision_turn], [uq_process_state_revision_version] and
    [uq_process_state_revision_decision]. *)
Definition same_state_revision (r s : ProcessStateRevision) : bool :=
  eqb (psr_tenant_id r) (psr_tenant_id s)
  && eqb (psr_process_instance_id r) (psr_process_instance_id s)
  && (eqb (psr_agent_turn_id r) (psr_agent_turn_id s) || (psr_version r =? psr_version s)
      || eqb (psr_decision_id r) (psr_decision_id s)).

#[export] Instance ProcessStateRevision_table : Table ProcessStateRevision := {|
  table := process_state_revisions; set_table rs d := d <| process_state_revisions := rs |>;
  row_id := psr_id; row_tenant := psr_tenant_id;
  same_key := same_state_revision;
  parents_exist d r := process_exists d (psr_tenant_id r) (psr_process_instance_id r);
  checks_hold r := 1 <=? psr_version r
|}.

(** [uq_process_intervention_turn] *)
Definition same_intervention (r s : ProcessIntervention) : bool :=
  eqb (pv_tenant_id r) (pv_tenant_id s)
  && eqb (pv_process_instance_id r) (pv_process_instance_id s)
  && eqb (pv_agent_turn_id r) (pv_agent_turn_id s).

#[export] Instance ProcessIntervention_table : Table ProcessIntervention := {|
  table := process_interventions; set_table rs d := d <| process_interventions := rs |>;
  row_id := pv_id; row_tenant := pv_tenant_id;
  same_key := same_intervention;
  parents_exist d r := process_exists d (pv_tenant_id r) (pv_process_instance_id r);
  checks_hold _ := true
|}.

#[export] Instance ProcessControlCommand_table : Table ProcessControlCommand := {|
  table := process_control_commands; set_table rs d := d <| process_control_commands := rs |>;
  row_id := pcc_id; row_tenant := pcc_tenant_id;
  same_key _ _ := false;
  parents_exist d r := process_exists d (pcc_tenant_id r) (pcc_process_instance_id r);
  checks_hold _ := true
|}.

(** [uq_external_correlations_identity] *)
Definition same_correlation (r s : ExternalCorrelation) : bool :=
  eqb (ec_tenant_id r) (ec_tenant_id s) && eqb (ec_provider r) (ec_provider s)
  && eqb (ec_resource_type r) (ec_resource_type s) && eqb (ec_external_id r) (ec_external_id s).

#[export] Instance ExternalCorrelation_table : Table ExternalCorrelation := {|
  table := external_correlations; set_table rs d := d <| external_correlations := rs |>;
  row_id := ec_id; row_tenant := ec_tenant_id;
  same_key := same_correlation;
  parents_exist d r := process_exists d (ec_tenant_id r) (ec_process_instance_id r);
  checks_hold _ := true
|}.

#[export] Instance OutboxRecoveryCommand_table : Table OutboxRecoveryCommand := {|
  table := outbox_recovery_commands; set_table rs d := d <| outbox_recovery_commands := rs |>;
  row_id := orc_id; row_tenant := orc_tenant_id;
  same_key _ _ := false;
  parents_exist d r := existsb (λ m, eqb (om_tenant_id m) (orc_tenant_id r)
                                     && eqb (om_id m) (orc_outbox_message_id r)) (outbox_messages d);
  checks_hold r := 0 <? orc_previous_attempt_count r
|}.

(** [uq_event_resolution_commands_event] *)
Definition same_resolution (r s : EventResolutionCommand) : bool :=
  eqb (erc_tenant_id r) (erc_tenant_id s) && eqb (erc_event_id r) (erc_event_id s).

#[export] Instance EventResolutionCommand_table : Table EventResolutionCommand := {|
  table := event_resolution_commands; set_table rs d := d <| event_resolution_commands := rs |>;
  row_id := erc_id; row_tenant := erc_tenant_id;
  same_key := same_resolution;
  parents_exist d r := process_exists d (erc_tenant_id r) (erc_process_instance_id r)
    && existsb (λ e, eqb (ei_tenant_id e) (erc_tenant_id r) && eqb (ei_id e) (erc_event_id r))
         (event_inbox d);
  checks_hold r := negb (eqb (erc_previous_status r) CS_MATCHED)
|}.

#[export] Instance TenantSafetyEvent_table : Table TenantSafetyEvent := {|
  table := tenant_safety_events; set_table rs d := d <| tenant_safety_events := rs |>;
  row_id := tse_id; row_tenant := tse_tenant_id;
  same_key _ _ := false;
  parents_exist d r := tenant_exists d (tse_tenant_id r);
  checks_hold r := negb (eqb (tse_previous_status r) (tse_new_status r))
|}.

#[export] Instance TenantDeploymentEvent_table : Table TenantDeploymentEvent := {|
  table := tenant_deployment_events; set_table rs d := d <| tenant_deployment_events := rs |>;
  row_id := tde_id; row_tenant := tde_tenant_id;
  same_key _ _ := false;
  parents_exist d r := tenant_exists d (tde_tenant_id r);
  checks_hold r := negb (eqb (tde_previous_deployment_id r) (tde_new_deployment_id r))
|}.

#[export] Instance TenantCredential_table : Table TenantCredential := {|
  table := tenant_credentials; set_table rs d := d <| tenant_credentials := rs |>;
  row_id := tcr_id; row_tenant := tcr_tenant_id;
  same_key _ _ := false;
  parents_exist d r := tenant_exists d (tcr_tenant_id r);
  checks_hold r := eqb (bool_decide (is_Some (tcr_revoked_at r))) (eqb (tcr_status r) CR_REVOKED)
    && eqb (bool_decide (is_Some (tcr_revoked_by_actor_id r))) (eqb (tcr_status r) CR_REVOKED)
|}.

(** Reading back a table that was written, and leaving the others alone. *)
Class TableLaws (R : Type) `{Table R} := {
  table_set : ∀ rs d, table (set_table rs d) = rs;
  set_table_same : ∀ d, set_table (table d) d = d;
  set_table_twice : ∀ rs rs' d, set_table rs (set_table rs' d) = set_table rs d
}.
#[export] Instance Tenant_laws : TableLaws Tenant.
Proof. by split; intros; destruct d. Qed.
#[export] Instance ProcessInstance_laws : TableLaws ProcessInstance.
Proof. by split; intros; destruct d. Qed.
#[export] Instance EventInbox_laws : TableLaws EventInbox.
Proof. by split; intros; destruct d. Qed.
#[export] Instance OutboxMessage_laws : TableLaws OutboxMessage.
Proof. by split; intros; destruct d. Qed.
#[export] Instance ActionRequest_laws : TableLaws ActionRequest.
Proof. by split; intros; destruct d. Qed.
#[export] Instance ActionRevision_laws : TableLaws ActionRevision.
Proof. by split; intros; destruct d. Qed.
#[export] Instance ActionPolicyRecord_laws : TableLaws ActionPolicyRecord.
Proof. by split; intros; destruct d. Qed.
#[export] Instance ApprovalRequest_laws : TableLaws ApprovalRequest.
Proof. by split; intros; destruct d. Qed.
#[export] Instance ActionAttempt_laws : TableLaws ActionAttempt.
Proof. by split; intros; destruct d. Qed.
#[export] Instance ActionReconciliationDecision_laws : TableLaws ActionReconciliationDecision.
Proof. by split; intros; destruct d. Qed.
#[export] Instance ReviewThread_laws : TableLaws ReviewThread.
Proof. by split; intros; destruct d. Qed.
#[export] Instance ReviewMessage_laws : TableLaws ReviewMessage.
Proof. by split; intros; destruct d. Qed.
#[export] Instance ApprovalDecision_laws : TableLaws ApprovalDecision.
Proof. by split; intros; destruct d. Qed.
#[export] Instance ModelUsageLedger_laws : TableLaws ModelUsageLedger.
Proof. by split; intros; destruct d. Qed.
#[export] Instance CircuitBreaker_laws : TableLaws CircuitBreaker.
Proof. by split; intros; destruct d. Qed.
#[export] Instance ProcessStateRevision_laws : TableLaws ProcessStateRevision.
Proof. by split; intros; destruct d. Qed.
#[export] Instance ProcessIntervention_laws : TableLaws ProcessIntervention.
Proof. by split; intros; destruct d. Qed.
#[export] Instance ProcessControlCommand_laws : TableLaws ProcessControlCommand.
Proof. by split; intros; destruct d. Qed.
#[export] Instance ExternalCorrelation_laws : TableLaws ExternalCorrelation.
Proof. by split; intros; destruct d. Qed.
#[export] Instance OutboxRecoveryCommand_laws : TableLaws OutboxRecoveryCommand.
Proof. by split; intros; destruct d. Qed.
#[export] Instance EventResolutionCommand_laws : TableLaws EventResolutionCommand.
Proof. by split; intros; destruct d. Qed.
#[export] Instance TenantSafetyEvent_laws : TableLaws TenantSafetyEvent.
Proof. by split; intros; destruct d. Qed.
#[export] Instance TenantDeploymentEvent_laws : TableLaws TenantDeploymentEvent.
Proof. by split; intros; destruct d. Qed.
#[export] Instance TenantCredential_laws : TableLaws TenantCredential.
Proof. by split; intros; destruct d. Qed.
