(* ===== verification/Session.v ===== *)
(** * [db/session.py] and SQLAlchemy sessions: transactions over the tables

    A transaction is a state and error monad over a [Session]: the database as
    the transaction sees it, the tenant row-level security is scoped to, and the
    clocks and identifiers it draws.  An exception carries no state: everything
    the transaction wrote is rolled back.  Row-level security is the policy
    [tenant_isolation] of the migrations: a row is visible, and may be written,
    only under its own tenant. *)

From stdpp Require Import base list strings.
From Stdlib Require Import ZArith Lia.
From S2P Require Import Prelude Python PyTime Json Contracts Schema.

#[local] Open Scope Z_scope.

Record Session := mkSession {
  s_db : Db;
  s_tenant : option UUID;      (* app.tenant_id *)
  s_now : Z;                   (* now(): the transaction's timestamp *)
  s_clock : nat → Z;           (* the readings of datetime.now(UTC) *)
  s_reads : nat;
  s_uuids : nat → UUID;        (* gen_random_uuid() and uuid4() *)
  s_drawn : nat
}.
#[export] Instance Session_rebuild : Rebuild Session := λ s,
  mkSession (s_db s) (s_tenant s) (s_now s) (s_clock s) (s_reads s) (s_uuids s) (s_drawn s).

Definition Tx (A : Type) : Type := Session → result (A * Session).

#[export] Instance Tx_ret : MRet Tx := λ A a s, Ok (a, s).
#[export] Instance Tx_bind : MBind Tx := λ A B f m s,
  match m s with Ok (a, s') => f a s' | Raise e => Raise e end.

(** A pure computation that may raise, inside a transaction. *)
Definition lift_result {A} (m : result A) : Tx A := λ s, a ← m; Ok (a, s).
Definition tx_raise {A} (c : exn_class) (msg : string) : Tx A := lift_result (raise c msg).
Definition tx_raise_if (b : bool) (c : exn_class) (msg : string) : Tx unit :=
  lift_result (raise_if b c msg).

(** [try: m except cls as error: raise cls'(message) from error], for the errors that
    [table] translates. *)
Definition translate {A} (table : exn → option (exn_class * string)) (m : Tx A) : Tx A := λ s,
  match m s with
  | Ok r => Ok r
  | Raise e => match table e with
               | Some (c, message) => raise c message
               | None => Raise e
               end
  end.

(** [datetime.now(UTC)], [gen_random_uuid()] and [now()]. *)
Definition utcnow : Tx Z := λ s, Ok (s_clock s (s_reads s), s <| s_reads ::= S |>).
Definition draw_uuid : Tx UUID := λ s, Ok (s_uuids s (s_drawn s), s <| s_drawn ::= S |>).
Definition transaction_now : Tx Z := λ s, Ok (s_now s, s).

(** [set_tenant_context] *)
Definition set_tenant_context (tenant_id : UUID) : Tx unit :=
  λ s, Ok (tt, s <| s_tenant := Some tenant_id |>).

(** ** Statements *)

Section statements.
Context {R : Type} `{Table R}.

Definition visible (s : Session) (r : R) : bool := eqb (s_tenant s) (Some (row_tenant r)).

(** [select(R).where(p)], in insertion order. *)
Definition select (p : R → bool) : Tx (list R) :=
  λ s, Ok (List.filter (λ r, visible s r && p r) (table (s_db s)), s).

(** [session.scalar(select(R).where(p))] *)
Definition scalar (p : R → bool) : Tx (option R) := rs ← select p; mret (hd_error rs).

(** [(await session.execute(statement)).one_or_none()] *)
Definition one_or_none {A} (rows : list A) : Tx (option A) :=
  match rows with
  | [] => mret None
  | [r] => mret (Some r)
  | _ => tx_raise MultipleResultsFound "Multiple rows were found when one or none was required"
  end.

(** A row that breaks a constraint of its table, or that belongs to another tenant,
    is not written. *)
Definition violates (s : Session) (r : R) : bool :=
  negb (visible s r)
  || existsb (λ r', eqb (row_id r') (row_id r) || same_key r r') (table (s_db s))
  || negb (parents_exist (s_db s) r) || negb (checks_hold r).

(** [session.add(r)] and its flush. *)
Definition insert (r : R) : Tx unit := λ s,
  if violates s r then Raise (Exn IntegrityError "constraint violation")
  else Ok (tt, s <| s_db ::= (λ d, set_table (table d ++ [r]) d) |>).

(** [insert(R).values(...).on_conflict_do_nothing(constraint=named).returning(R.id)] *)
Definition insert_or_skip (named : R → R → bool) (r : R) : Tx (option UUID) := λ s,
  if existsb (named r) (table (s_db s)) then Ok (None, s)
  else (_ ← insert r; mret (Some (row_id r))) s.

(** Assignments to the attributes of a persistent object. *)
Definition update (id : UUID) (f : R → R) : Tx unit := λ s,
  Ok (tt, s <| s_db ::= (λ d, set_table
    ((λ r, if visible s r && eqb (row_id r) id then f r else r) <$> table d) d) |>).
End statements.

(** ** [ORDER BY time DESC, id DESC LIMIT 1] *)

Section newest.
Context {R : Type} (time : R → Z) (id : R → UUID).

(** [r] comes before [r']. *)
Definition newer (r r' : R) : bool :=
  (time r' <? time r) || ((time r' =? time r) && (uuid_int (id r') <? uuid_int (id r))%N).

Fixpoint newest_by (rows : list R) : option R :=
  match rows with
  | [] => None
  | r :: rows => match newest_by rows with
                 | Some r' => Some (if newer r r' then r else r')
                 | None => Some r
                 end
  end.

Lemma newest_by_max rows m : newest_by rows = Some m → Forall (λ r, time r <= time m) rows.
Proof.
  revert m. induction rows as [|r rows IH]; intros m; cbn; [done|].
  destruct (newest_by rows) as [r'|] eqn:E.
  - intros [= <-]. specialize (IH r' eq_refl). unfold newer.
    destruct (Z.ltb_spec (time r') (time r)); cbn.
    + constructor; [lia|]. eapply Forall_impl; [exact IH|]. intros; cbn in *; lia.
    + destruct (Z.eqb_spec (time r') (time r)); cbn.
      * destruct (_ <? _)%N; constructor; try lia; eapply Forall_impl; try exact IH; intros; cbn in *; lia.
      * constructor; [lia|done].
  - intros [= <-]. constructor; [lia|]. destruct rows; [done|]. cbn in E. by destruct (newest_by rows).
Qed.

Lemma newest_by_snoc rows r :
  Forall (λ r', time r' < time r) rows → newest_by (rows ++ [r]) = Some r.
Proof.
  induction 1 as [|r' rows Hr Hall IH]; cbn; [done|]. rewrite IH. unfold newer.
  rewrite (proj2 (Z.ltb_ge _ _)) by lia. by rewrite (proj2 (Z.eqb_neq _ _)) by lia.
Qed.

Lemma newest_by_None rows : newest_by rows = None ↔ rows = [].
Proof. destruct rows as [|r rows]; [done|]. cbn. by destruct (newest_by rows). Qed.

Lemma newest_by_in rows m : newest_by rows = Some m → m ∈ rows.
Proof.
  revert m. induction rows as [|r rows IH]; intros m; cbn; [done|].
  destruct (newest_by rows) as [r'|]; intros [= <-]; [|apply list_elem_of_here].
  case_match; [apply list_elem_of_here|]. apply list_elem_of_further. by apply IH.
Qed.
End newest.

(** ** Committing *)

(** [async with session_factory.begin()]: what a transaction leaves of the
    database. *)
Definition committed {A} (d : Db) (m : result (A * Session)) : Db :=
  match m with Ok (_, s) => s_db s | Raise _ => d end.

(** ** Reasoning about transactions *)

Section rules.
Context {A B : Type}.

Lemma tx_bind_ok (m : Tx A) (k : A → Tx B) s b s' :
  (m ≫= k) s = Ok (b, s') ↔ ∃ a s1, m s = Ok (a, s1) ∧ k a s1 = Ok (b, s').
Proof.
  unfold mbind, Tx_bind. destruct (m s) as [[a s1]|e]; [|split; [done|by intros (? & ? & ? & ?)]].
  split; [eauto|]. by intros (? & ? & [= <- <-] & ?).
Qed.

Lemma tx_bind_run (m : Tx A) (k : A → Tx B) s a s1 : m s = Ok (a, s1) → (m ≫= k) s = k a s1.
Proof. intros E. unfold mbind, Tx_bind. by rewrite E. Qed.

Lemma lift_result_ok (m : result A) s a s' : lift_result m s = Ok (a, s') ↔ m = Ok a ∧ s' = s.
Proof. unfold lift_result. destruct m; cbn; naive_solver. Qed.
End rules.

Lemma translate_ok {A} table (m : Tx A) s r : translate table m s = Ok r ↔ m s = Ok r.
Proof. unfold translate. destruct (m s) as [|e]; [done|]. by destruct (table e) as [[]|]. Qed.

Lemma tx_raise_if_ok b c msg s u s' : tx_raise_if b c msg s = Ok (u, s') ↔ b = false ∧ s' = s.
Proof. unfold tx_raise_if. rewrite lift_result_ok, raise_if_ok. done. Qed.

Lemma tx_raise_if_run b c msg s : b = false → tx_raise_if b c msg s = Ok (tt, s).
Proof. by intros ->. Qed.

Section statement_rules.
Context {R : Type} `{TableLaws R}.

Lemma select_ok p s rs s' :
  select p s = Ok (rs, s') ↔ s' = s ∧ rs = List.filter (λ r, visible s r && p r) (table (s_db s)).
Proof. unfold select. naive_solver. Qed.

Lemma scalar_ok p s o s' :
  scalar p s = Ok (o, s') ↔
  s' = s ∧ o = hd_error (List.filter (λ r, visible s r && p r) (table (s_db s))).
Proof. unfold scalar. rewrite tx_bind_ok. setoid_rewrite select_ok. unfold mret, Tx_ret. naive_solver. Qed.

Lemma hd_filter_Some {X} (q : X → bool) xs x :
  hd_error (List.filter q xs) = Some x → x ∈ xs ∧ q x = true.
Proof.
  intros E. assert (x ∈ List.filter q xs) as Hin.
  { destruct (List.filter q xs); cbn in E; [done|]. injection E as ->. apply list_elem_of_here. }
  apply list_elem_of_In, filter_In in Hin. by rewrite <- list_elem_of_In in Hin.
Qed.

Lemma hd_filter_None {X} (q : X → bool) xs :
  hd_error (List.filter q xs) = None ↔ Forall (λ x, q x = false) xs.
Proof.
  induction xs as [|x xs IH]; cbn; [split; auto|]. rewrite Forall_cons, <- IH.
  destruct (q x); cbn; [split; [done|by intros [? _]]|tauto].
Qed.

Lemma insert_ok r s u s' :
  insert r s = Ok (u, s') ↔
  violates s r = false ∧ s' = s <| s_db ::= (λ d, set_table (table d ++ [r]) d) |>.
Proof. unfold insert. destruct (violates s r), u; naive_solver. Qed.

Lemma insert_or_skip_ok named r s o s' :
  insert_or_skip named r s = Ok (o, s') ↔
  (existsb (named r) (table (s_db s)) = true ∧ o = None ∧ s' = s)
  ∨ (existsb (named r) (table (s_db s)) = false ∧ o = Some (row_id r) ∧ insert r s = Ok (tt, s')).
Proof.
  unfold insert_or_skip. destruct (existsb _ _); [naive_solver|].
  rewrite tx_bind_ok. unfold mret, Tx_ret. split.
  - intros ([] & s1 & Hi & [= <- <-]). auto.
  - intros [[? _]|(_ & -> & Hi)]; [done|]. eauto.
Qed.

Lemma update_ok id f s u s' :
  update id f s = Ok (u, s') ↔
  s' = s <| s_db ::= (λ d, set_table
    ((λ r, if visible s r && eqb (row_id r) id then f r else r) <$> table d) d) |>.
Proof. unfold update. destruct u. naive_solver. Qed.
End statement_rules.

(** ** Row-level security *)

Lemma eqb_refl {A} `{EqDecision A} (x : A) : eqb x x = true.
Proof. by apply bool_decide_eq_true. Qed.
Lemma eqb_eq {A} `{EqDecision A} (x y : A) : eqb x y = true ↔ x = y.
Proof. apply bool_decide_eq_true. Qed.
Lemma eqb_true {A} `{EqDecision A} (x y : A) : eqb x y = true → x = y.
Proof. apply bool_decide_eq_true. Qed.
Lemma eqb_false {A} `{EqDecision A} (x y : A) : eqb x y = false → x ≠ y.
Proof. apply bool_decide_eq_false. Qed.
Lemma eqb_neq {A} `{EqDecision A} (x y : A) : eqb x y = false ↔ x ≠ y.
Proof. apply bool_decide_eq_false. Qed.

Lemma eqb_sym {A} `{EqDecision A} (x y : A) : eqb x y = eqb y x.
Proof. by apply bool_decide_ext. Qed.

Lemma eqb_Some {A} `{EqDecision A} (x y : A) : eqb (Some x) (Some y) = eqb x y.
Proof. unfold eqb. apply bool_decide_ext. split; congruence. Qed.

Lemma filter_bool_ext {A} (p q : A → bool) xs :
  (∀ x, x ∈ xs → p x = q x) → List.filter p xs = List.filter q xs.
Proof.
  induction xs as [|x xs IH]; cbn; [done|]. intros E.
  rewrite E, IH; [done|intros; apply E; by apply list_elem_of_further|apply list_elem_of_here].
Qed.

(** A statement that names its tenant reads the same rows as without the policy. *)
Lemma visible_filter {R} `{Table R} s t (p : R → bool) xs :
  s_tenant s = Some t → (∀ r, p r = true → row_tenant r = t) →
  List.filter (λ r, visible s r && p r) xs = List.filter p xs.
Proof.
  intros Hs Hp. apply filter_bool_ext. intros r _. unfold visible. rewrite Hs.
  destruct (p r) eqn:E; [|by rewrite andb_false_r]. by rewrite (Hp r E), eqb_refl.
Qed.

Lemma select_run {R} `{Table R} s t (p : R → bool) :
  s_tenant s = Some t → (∀ r, p r = true → row_tenant r = t) →
  select p s = Ok (List.filter p (table (s_db s)), s).
Proof. intros. unfold select. by rewrite (visible_filter s t). Qed.

Lemma scalar_run {R} `{Table R} s t (p : R → bool) :
  s_tenant s = Some t → (∀ r, p r = true → row_tenant r = t) →
  scalar p s = Ok (hd_error (List.filter p (table (s_db s))), s).
Proof. intros. unfold scalar, mbind, Tx_bind. by rewrite (select_run s t). Qed.

(** A row of tenant [t]; statements that do not name their tenant see these rows. *)
Definition seen {R} `{Table R} (t : UUID) (r : R) : bool := eqb (Some t) (Some (row_tenant r)).

Lemma select_seen {R} `{Table R} s t (p : R → bool) :
  s_tenant s = Some t → select p s = Ok (List.filter (λ r, seen t r && p r) (table (s_db s)), s).
Proof. intros Hs. unfold select, visible, seen. by rewrite Hs. Qed.

Lemma scalar_seen {R} `{Table R} s t (p : R → bool) :
  s_tenant s = Some t → scalar p s = Ok (hd_error (List.filter (λ r, seen t r && p r) (table (s_db s))), s).
Proof. intros Hs. unfold scalar. by rewrite (tx_bind_run _ _ _ _ _ (select_seen s t p Hs)). Qed.

(** The first conjunct of a row test names the tenant. *)
Ltac tenant_first :=
  intros ? ?; repeat match goal with H : _ && _ = true |- _ => apply andb_true_iff in H as [H _] end;
  match goal with H : eqb _ _ = true |- _ => by apply eqb_true in H end.

(** ** Automation *)

Lemma mret_ok {A} (a : A) (s : Session) b s' : (mret a : Tx A) s = Ok (b, s') ↔ b = a ∧ s' = s.
Proof. unfold mret, Tx_ret. naive_solver. Qed.
Lemma draw_uuid_ok s u s' : draw_uuid s = Ok (u, s') ↔ u = s_uuids s (s_drawn s) ∧ s' = s <| s_drawn ::= S |>.
Proof. unfold draw_uuid. naive_solver. Qed.
Lemma utcnow_ok s t s' : utcnow s = Ok (t, s') ↔ t = s_clock s (s_reads s) ∧ s' = s <| s_reads ::= S |>.
Proof. unfold utcnow. naive_solver. Qed.
Lemma transaction_now_ok s t s' : transaction_now s = Ok (t, s') ↔ t = s_now s ∧ s' = s.
Proof. unfold transaction_now. naive_solver. Qed.
Lemma set_tenant_context_ok t s u s' :
  set_tenant_context t s = Ok (u, s') ↔ s' = s <| s_tenant := Some t |>.
Proof. unfold set_tenant_context. destruct u. naive_solver. Qed.

(** Take a finished transaction apart, statement by statement. *)
Ltac tx_step :=
  match goal with
  | H : mbind _ _ _ = Ok (_, _) |- _ => apply tx_bind_ok in H as (? & ? & ? & H)
  | H : tx_raise_if _ _ _ _ = Ok _ |- _ => apply tx_raise_if_ok in H as [? ->]
  | H : tx_raise _ _ _ = Ok _ |- _ => discriminate H
  | H : lift_result _ _ = Ok _ |- _ => apply lift_result_ok in H as [? ->]
  | H : mret _ _ = Ok (_, _) |- _ => apply mret_ok in H as [-> ->]
  | H : draw_uuid _ = Ok (_, _) |- _ => apply draw_uuid_ok in H as [-> ->]
  | H : utcnow _ = Ok (_, _) |- _ => apply utcnow_ok in H as [-> ->]
  | H : transaction_now _ = Ok (_, _) |- _ => apply transaction_now_ok in H as [-> ->]
  | H : set_tenant_context _ _ = Ok (_, _) |- _ => apply set_tenant_context_ok in H as ->
  | H : select _ _ = Ok (_, _) |- _ => apply select_ok in H as [-> ->]
  | H : scalar _ _ = Ok (_, _) |- _ => apply scalar_ok in H as [-> ->]
  | H : insert _ _ = Ok (_, _) |- _ => apply insert_ok in H as [? ->]
  | H : update _ _ _ = Ok (_, _) |- _ => apply update_ok in H as ->
  | u : unit |- _ => destruct u
  end.
Ltac tx_inv := repeat tx_step.

(** ** Transactions that only read *)

(** The transaction leaves the database and, once it is set to [t], the tenant. *)
Definition reads_only {A} (t : UUID) (m : Tx A) : Prop :=
  ∀ s a s', m s = Ok (a, s') →
    s_db s' = s_db s ∧ (s_tenant s = Some t → s_tenant s' = Some t).

Section reads.
Context (t : UUID).

Lemma reads_ret {A} (a : A) : reads_only t (mret a : Tx A).
Proof. intros s b s' [-> ->]%mret_ok. done. Qed.
Lemma reads_bind {A B} (m : Tx A) (k : A → Tx B) :
  reads_only t m → (∀ a, reads_only t (k a)) → reads_only t (m ≫= k).
Proof.
  intros Hm Hk s b s' (a & s1 & H1 & H2)%tx_bind_ok.
  apply Hm in H1 as [<- Ht1]. apply Hk in H2 as [-> Ht2]. auto.
Qed.
Lemma reads_lift {A} (m : result A) : reads_only t (lift_result m).
Proof. intros s a s' [_ ->]%lift_result_ok. done. Qed.
Lemma reads_raise {A} c msg : reads_only t (tx_raise (A:=A) c msg).
Proof. apply reads_lift. Qed.
Lemma reads_raise_if b c msg : reads_only t (tx_raise_if b c msg).
Proof. apply reads_lift. Qed.
Lemma reads_utcnow : reads_only t utcnow.
Proof. intros s a s' [_ ->]%utcnow_ok. done. Qed.
Lemma reads_set_tenant : reads_only t (set_tenant_context t).
Proof. intros s a s' ->%set_tenant_context_ok. done. Qed.
Lemma reads_select {R} `{Table R} p : reads_only t (select (R:=R) p).
Proof. intros s a s' [-> _]%select_ok. done. Qed.
Lemma reads_scalar {R} `{Table R} p : reads_only t (scalar (R:=R) p).
Proof. intros s a s' [-> _]%scalar_ok. done. Qed.
Lemma reads_one_or_none {A} (rows : list A) : reads_only t (one_or_none rows).
Proof. destruct rows as [|? [|? ?]]; [apply reads_ret..|apply reads_raise]. Qed.
Lemma reads_translate {A} table (m : Tx A) : reads_only t m → reads_only t (translate table m).
Proof. intros Hm s a s' H%translate_ok. exact (Hm s a s' H). Qed.
End reads.

Create HintDb reads.
#[export] Hint Resolve reads_ret reads_bind reads_lift reads_raise reads_raise_if reads_utcnow
  reads_set_tenant reads_select reads_scalar reads_one_or_none reads_translate : reads.

(** Show that a transaction only reads, by its statements. *)
Ltac reads := repeat (intros; match goal with
  | |- reads_only _ (match ?x with _ => _ end) => destruct x
  | |- _ => solve [eauto 3 with reads]
  | |- reads_only _ (_ ≫= _) => apply reads_bind
  end).

(** ** The rows an update touches *)

(** The row [update] leaves in place of [r]. *)
Definition touch {R} `{Table R} (tenant id : UUID) (f : R → R) (r : R) : R :=
  if eqb (Some tenant) (Some (row_tenant r)) && eqb (row_id r) id then f r else r.

Lemma update_touch {R} `{Table R} s t id (f : R → R) :
  s_tenant s = Some t →
  update id f s = Ok (tt, s <| s_db := set_table (touch t id f <$> table (s_db s)) (s_db s) |>).
Proof. intros Hs. unfold update, visible, touch. rewrite Hs. reflexivity. Qed.

Lemma head_touch {R} `{Table R} tenant id (f : R → R) p xs x :
  (∀ y, p (f y) = p y) →
  hd_error (List.filter p xs) = Some x →
  hd_error (List.filter p (touch tenant id f <$> xs)) = Some (touch tenant id f x).
Proof.
  intros Hf. assert (∀ y, p (touch tenant id f y) = p y) as Hp.
  { intros y. unfold touch. destruct (eqb (Some tenant) _ && eqb _ id); [apply Hf|done]. }
  induction xs as [|y xs IH]; cbn; [done|]. rewrite Hp.
  destruct (p y); cbn; [by intros [= <-]|exact IH].
Qed.

Lemma touch_self {R} `{Table R} tenant id (f : R → R) r :
  row_id r = id → row_tenant r = tenant → touch tenant id f r = f r.
Proof. intros <- <-. unfold touch. by rewrite !eqb_refl. Qed.

Lemma touch_cases {R} `{Table R} t id (f : R → R) r :
  touch t id f r = r ∨ touch t id f r = f r ∧ row_tenant r = t ∧ row_id r = id.
Proof.
  unfold touch. destruct (_ && _) eqn:E; [right|by left]. apply andb_true_iff in E as [E1%eqb_true E2%eqb_true].
  by injection E1 as ->.
Qed.

(** Rows of equal identity are equal. *)
Lemma same_row {A B} (id : A → B) (rows : list A) x y :
  NoDup (id <$> rows) → x ∈ rows → y ∈ rows → id x = id y → x = y.
Proof.
  intros Hn [i Hi]%list_elem_of_lookup [j Hj]%list_elem_of_lookup E.
  assert (i = j) as ->; [|by rewrite Hi in Hj; injection Hj].
  eapply NoDup_lookup; [exact Hn| |]; rewrite list_lookup_fmap, ?Hi, ?Hj; cbn; [done|by rewrite E].
Qed.

Lemma Forall2_touch {R} `{Table R} tenant id (f : R → R) (P : R → R → Prop) xs :
  (∀ x, x ∈ xs → P x x) → (∀ x, x ∈ xs → row_id x = id → P x (f x)) →
  Forall2 P xs (touch tenant id f <$> xs).
Proof.
  intros Hk Hf. induction xs as [|x xs IH]; cbn; constructor.
  - unfold touch. destruct (_ && eqb (row_id x) id) eqn:E; [|apply Hk, list_elem_of_here].
    apply andb_true_iff in E as [_ E%eqb_true]. apply Hf; [apply list_elem_of_here|done].
  - apply IH; intros; [apply Hk|apply Hf]; try done; by apply list_elem_of_further.
Qed.

(** ** Tables that only grow *)

(** The table of [d'] is that of [d] with rows of new identity after it. *)
Definition grows R `{Table R} (d d' : Db) : Prop :=
  ∃ new, table d' = table (R:=R) d ++ new
       ∧ Forall (λ x, Forall (λ y, row_id y ≠ row_id x) (table d)) new.

(** Every row of the table has its parents. *)
Definition integral R `{Table R} (d : Db) : Prop := Forall (λ r : R, parents_exist d r = true) (table d).

Section growth.
Context {R : Type} `{TableLaws R}.

Lemma grows_same d d' : table (R:=R) d' = table d → grows R d d'.
Proof. intros E. exists []. rewrite app_nil_r. auto. Qed.

Lemma grows_trans d1 d2 d3 : grows R d1 d2 → grows R d2 d3 → grows R d1 d3.
Proof.
  intros (n1 & E1 & F1) (n2 & E2 & F2). exists (n1 ++ n2). rewrite E2, E1, app_assoc. split; [done|].
  apply Forall_app. split; [done|]. eapply Forall_impl; [exact F2|]. intros x. rewrite E1, Forall_app. tauto.
Qed.

Lemma grows_insert s r :
  violates s r = false → grows R (s_db s) (set_table (table (s_db s) ++ [r]) (s_db s)).
Proof.
  intros Hv. exists [r]. rewrite table_set. split; [done|]. constructor; [|constructor].
  unfold violates in Hv. apply orb_false_iff in Hv as [[[_ Hk]%orb_false_iff _]%orb_false_iff _].
  apply Forall_forall. intros y Hy E. rewrite <- not_true_iff_false, existsb_exists in Hk. apply Hk.
  exists y. rewrite <- list_elem_of_In, E, eqb_refl. done.
Qed.

(** The first match of a query stays the first match. *)
Lemma grows_head d d' (q : R → bool) x :
  grows R d d' → hd_error (List.filter q (table d)) = Some x →
  hd_error (List.filter q (table d')) = Some x.
Proof.
  intros (new & -> & _) E. rewrite List.filter_app. destruct (List.filter q (table d)); [done|exact E].
Qed.

(** A row that is looked up by the identity of an old row is an old row. *)
Lemma grows_by_id d d' (q : R → bool) x :
  grows R d d' → x ∈ table d → (∀ y, q y = true → row_id y = row_id x) →
  List.filter q (table d') = List.filter q (table d).
Proof.
  intros (new & -> & Hnew) Hx Hq. rewrite List.filter_app.
  replace (List.filter q new) with (@nil R); [apply app_nil_r|]. symmetry.
  induction Hnew as [|y ys Hy _ IH]; cbn; [done|]. rewrite Forall_forall in Hy.
  destruct (q y) eqn:E; [|done]. exfalso. apply (Hy x Hx). symmetry. by apply Hq.
Qed.
End growth.
