(* ===== verification/State.v ===== *)
(** * [processes/state.py]: the durable projection of a process

    [ProcessStateService.apply_decision] applies a validated decision to the row
    of its process, once per agent turn, and appends an immutable revision.  The
    row is written as [update] of the loaded row; JSONB objects that the code
    merges are maps. *)

From stdpp Require Import base gmap list strings sets.
From Stdlib Require Import ZArith Lia.
From S2P Require Import Prelude Python PyTime Json Limits Contracts DecisionPolicy Transitions Schema Session.

#[local] Open Scope Z_scope.

Record AppliedProcessState := mkAppliedState {
  aps_process_instance_id : UUID;
  aps_agent_turn_id : UUID;
  aps_decision_id : UUID;
  aps_version : Z;
  aps_status : ProcessStatus;
  aps_wake_conditions : list WakeCondition;
  aps_pending_action_request_ids : list UUID;
  aps_terminal : bool
}.

(** [ProcessStateService._result] *)
Definition state_result (r : ProcessStateRevision) (open_actions : OpenActions) : AppliedProcessState :=
  mkAppliedState (psr_process_instance_id r) (psr_agent_turn_id r) (psr_decision_id r) (psr_version r)
    (psr_process_status r) (psr_wake_conditions r) (fst <$> open_actions)
    (is_terminal (psr_process_status r)).

(** The statuses of an open action. *)
Definition is_open_status (s : ActionRequestStatus) : bool :=
  match s with
  | ALLOWED | PENDING_APPROVAL | APPROVED | EXECUTING | UNKNOWN | RECONCILING => true
  | _ => false
  end.

Definition _load_open_actions (process_instance_id : UUID) : Tx OpenActions :=
  rows ← select (λ r : ActionRequest, eqb (ar_process_instance_id r) process_instance_id
                                      && is_open_status (ar_status r));
  mret ((λ r, (ar_id r, ar_status r)) <$> rows).

(** [set(found) == set(ids)], for rows selected by [ids]. *)
Definition all_found {R} (id : R → UUID) (ids : list UUID) (rows : list R) : bool :=
  forallb (λ i, existsb (λ r, eqb (id r) i) rows) ids.

Definition _load_events (process_instance_id : UUID) (event_ids : list UUID) : Tx (list EventInbox) :=
  stored ← select (λ e : EventInbox, bool_decide (ei_id e ∈ event_ids)
    && eqb (ei_process_instance_id e) (Some process_instance_id)
    && eqb (ei_correlation_status e) CS_MATCHED);
  _ ← tx_raise_if (negb (all_found ei_id event_ids stored)) ProcessStateConflict
        "one or more decision events are unavailable";
  mret stored.

Definition _load_attempts (process_instance_id : UUID) (attempt_ids : list UUID) : Tx (list ActionAttempt) :=
  stored ← select (λ a : ActionAttempt, bool_decide (aa_id a ∈ attempt_ids)
                                        && eqb (aa_process_instance_id a) process_instance_id);
  _ ← tx_raise_if (negb (all_found aa_id attempt_ids stored)) ProcessStateConflict
        "one or more decision action attempts are unavailable";
  mret stored.

(** [for id in ids: apply_fact_observations(facts of rows[id], source_type, id, ...)] *)
Definition apply_sources {R} (id : R → UUID) (facts : R → list FactObservation) (source_type : string)
    (rows : list R) (ids : list UUID) (p : FactProjection) : FactProjection :=
  fold_left (λ p i, match List.find (λ r, eqb (id r) i) rows with
                    | Some r => apply_fact_observations (facts r) source_type i p
                    | None => p
                    end) ids p.

(** The projection of a decision's inputs over the facts of its process. *)
Definition project_facts (process : ProcessInstance) (d : AgentDecision) (events : list EventInbox)
    (attempts : list ActionAttempt) : FactProjection :=
  apply_sources aa_id aa_facts "action_attempt" attempts (ad_based_on_action_attempt_ids d)
    (apply_sources ei_id (λ e, ce_facts (ei_event_data e)) "event" events (ad_based_on_event_ids d)
       (mkProjection (pi_authoritative_facts process) (pi_customer_claims process)
          (pi_fact_provenance process))).

(** The process row after the decision. *)
Definition with_memory (m : MemoryUpdate) (p : ProcessInstance) : ProcessInstance :=
  match mu_summary m with
  | Some s => p <| pi_memory_summary := Some s |>
      <| pi_memory_summary_source_event_ids := str_uuid <$> mu_summary_source_event_ids m |>
      <| pi_memory_summary_source_review_command_ids := str_uuid <$> mu_summary_source_review_command_ids m |>
      <| pi_memory_summary_source_action_attempt_ids := str_uuid <$> mu_summary_source_action_attempt_ids m |>
      <| pi_memory_summary_source_timer_ids := mu_summary_source_timer_ids m |>
  | None => p
  end.

Definition with_decision (d : AgentDecision) (facts : FactProjection) (t : ProjectedProcessTransition)
    (p : ProcessInstance) : ProcessInstance :=
  with_memory (ad_memory_update d) p
    <| pi_open_commitments := mu_open_commitments (ad_memory_update d) |>
    <| pi_current_wake_conditions := ppt_wake_conditions t |>
    <| pi_authoritative_facts := fp_authoritative facts |>
    <| pi_customer_claims := fp_claims facts |> <| pi_fact_provenance := fp_provenance facts |>
    <| pi_status := ppt_status t |> <| pi_state_version ::= Z.succ |>.

(** The revision of an updated process row. *)
Definition new_state_revision (id agent_turn_id : UUID) (d : AgentDecision) (p : ProcessInstance) (now : Z)
  : ProcessStateRevision :=
  mkProcessStateRevision id (pi_tenant_id p) (pi_id p) agent_turn_id (ad_decision_id d)
    (pi_state_version p) (ad_status d) (pi_status p) (pi_authoritative_facts p) (pi_customer_claims p)
    (pi_fact_provenance p) (pi_memory_summary p) (pi_memory_summary_source_event_ids p)
    (pi_memory_summary_source_review_command_ids p) (pi_memory_summary_source_action_attempt_ids p)
    (pi_memory_summary_source_timer_ids p) (pi_open_commitments p) (pi_current_wake_conditions p)
    (str_uuid <$> ad_based_on_event_ids d) (str_uuid <$> ad_based_on_review_command_ids d)
    (str_uuid <$> ad_based_on_action_attempt_ids d) (ad_based_on_timer_ids d) now.

(** [except ProcessTransitionRejected as error: raise ProcessStateConflict(str(error))] *)
Definition rewrap_transition {A} (m : result A) : result A :=
  match m with
  | Raise e => if bool_decide (exn_cls e = ProcessTransitionRejected)
               then raise ProcessStateConflict (exn_msg e) else Raise e
  | Ok a => Ok a
  end.

Definition is_process (tenant_id process_instance_id : UUID) (p : ProcessInstance) : bool :=
  eqb (pi_tenant_id p) tenant_id && eqb (pi_id p) process_instance_id.
Definition is_state_revision (tenant_id process_instance_id : UUID) (r : ProcessStateRevision) : bool :=
  eqb (psr_tenant_id r) tenant_id && eqb (psr_process_instance_id r) process_instance_id.

(** What the decision is checked against before anything is written. *)
Definition decide_transition (process : ProcessInstance) (d : AgentDecision)
    (terminal_states : option (list ProcessStatus)) (completion_requirements : list (string * json))
  : Tx (FactProjection * OpenActions * ProjectedProcessTransition) :=
  let limits := DEFAULT_PLATFORM_SAFETY_LIMITS in
  let memory := ad_memory_update d in
  events ← _load_events (pi_id process) (ad_based_on_event_ids d);
  attempts ← _load_attempts (pi_id process) (ad_based_on_action_attempt_ids d);
  let facts := project_facts process d events attempts in
  _ ← lift_result (rewrap_value_error ProcessStateConflict (require_process_fact_projection
        (fact_items (fp_authoritative facts)) (fact_items (fp_claims facts))
        (fact_items (fp_provenance facts)) limits));
  open_actions ← _load_open_actions (pi_id process);
  transition ← lift_result (rewrap_transition (project_process_transition d open_actions terminal_states
                 (fact_items (fp_authoritative facts)) completion_requirements));
  _ ← lift_result (rewrap_value_error ProcessStateConflict
        (require_memory_content (mu_summary memory) (mu_open_commitments memory) limits));
  mret (facts, open_actions, transition).

(** [ProcessStateService.apply_decision] *)
Definition apply_decision (tenant_id process_instance_id agent_turn_id : UUID) (d : AgentDecision)
    (terminal_states : option (list ProcessStatus)) (completion_requirements : list (string * json))
  : Tx AppliedProcessState :=
  _ ← set_tenant_context tenant_id;
  found ← scalar (is_process tenant_id process_instance_id);
  match found with
  | None => tx_raise ProcessStateConflict "process instance not found"
  | Some process =>
      existing ← scalar (λ r, is_state_revision tenant_id process_instance_id r
                              && eqb (psr_agent_turn_id r) agent_turn_id);
      match existing with
      | Some r =>
          _ ← tx_raise_if (negb (eqb (psr_decision_id r) (ad_decision_id d))) ProcessStateConflict
                "agent turn was reused for another decision";
          open_actions ← _load_open_actions process_instance_id;
          mret (state_result r open_actions)
      | None =>
          reused_decision ← scalar (λ r, is_state_revision tenant_id process_instance_id r
                                         && eqb (psr_decision_id r) (ad_decision_id d));
          _ ← tx_raise_if (bool_decide (is_Some reused_decision)) ProcessStateConflict
                "decision was reused for another agent turn";
          _ ← tx_raise_if (is_terminal (pi_status process)) ProcessStateConflict
                "terminal process state cannot accept another decision";
          _ ← tx_raise_if (eqb (pi_status process) PS_PAUSED) ProcessStateConflict
                "paused process cannot accept an agent decision";
          '(facts, open_actions, transition) ←
            decide_transition process d terminal_states completion_requirements;
          let updated := with_decision d facts transition process in
          _ ← update (pi_id process) (with_decision d facts transition);
          id ← draw_uuid;
          now ← transaction_now;
          let revision := new_state_revision id agent_turn_id d updated now in
          _ ← insert revision;
          mret (state_result revision open_actions)
      end
  end.

(** ** What the service does *)

Definition revisions (d : Db) (t p : UUID) : list ProcessStateRevision :=
  List.filter (is_state_revision t p) (process_state_revisions d).

Definition open_actions_of (d : Db) (t p : UUID) : OpenActions :=
  (λ r, (ar_id r, ar_status r)) <$> List.filter (λ r : ActionRequest,
    eqb (Some t) (Some (ar_tenant_id r)) && (eqb (ar_process_instance_id r) p && is_open_status (ar_status r)))
    (action_requests d).

Lemma load_open_actions_run p t s :
  s_tenant s = Some t → _load_open_actions p s = Ok (open_actions_of (s_db s) t p, s).
Proof.
  intros Hs. unfold _load_open_actions, mbind, Tx_bind, select, open_actions_of, visible. by rewrite Hs.
Qed.

Lemma reads_load_events t p ids : reads_only t (_load_events p ids).
Proof. unfold _load_events. reads. Qed.
Lemma reads_load_attempts t p ids : reads_only t (_load_attempts p ids).
Proof. unfold _load_attempts. reads. Qed.
Lemma reads_open_actions t p : reads_only t (_load_open_actions p).
Proof. unfold _load_open_actions. reads. Qed.
#[export] Hint Resolve reads_load_events reads_load_attempts reads_open_actions : reads.
Lemma reads_decide_transition t p d ts reqs : reads_only t (decide_transition p d ts reqs).
Proof. unfold decide_transition. reads. Qed.

(** The rows after a decision is stored. *)
Definition decided_state (t p agent_turn : UUID) (d : AgentDecision) (facts : FactProjection)
    (tr : ProjectedProcessTransition) (process : ProcessInstance) (id : UUID) (now : Z) (db : Db) : Db :=
  db <| process_instances := touch t p (with_decision d facts tr) <$> process_instances db |>
     <| process_state_revisions := process_state_revisions db
          ++ [new_state_revision id agent_turn d (with_decision d facts tr process) now] |>.

(** A stored decision either replays its revision or writes a new one. *)
Inductive state_effect (t p turn : UUID) (d : AgentDecision) (ts : option (list ProcessStatus))
    (reqs : list (string * json)) (s : Session) : AppliedProcessState → Db → Prop :=
  | state_replayed process r :
      hd_error (List.filter (is_process t p) (process_instances (s_db s))) = Some process →
      hd_error (List.filter (λ r, is_state_revision t p r && eqb (psr_agent_turn_id r) turn)
                  (process_state_revisions (s_db s))) = Some r →
      psr_decision_id r = ad_decision_id d →
      state_effect t p turn d ts reqs s (state_result r (open_actions_of (s_db s) t p)) (s_db s)
  | state_applied process facts oa tr id now s1 s2 :
      hd_error (List.filter (is_process t p) (process_instances (s_db s))) = Some process →
      Forall (λ r, psr_agent_turn_id r ≠ turn ∧ psr_decision_id r ≠ ad_decision_id d) (revisions (s_db s) t p) →
      is_terminal (pi_status process) = false → pi_status process ≠ PS_PAUSED →
      s_db s1 = s_db s → s_tenant s1 = Some t →
      decide_transition process d ts reqs s1 = Ok (facts, oa, tr, s2) →
      state_effect t p turn d ts reqs s
        (state_result (new_state_revision id turn d (with_decision d facts tr process) now) oa)
        (decided_state t p turn d facts tr process id now (s_db s)).

Lemma is_process_ids t p process :
  is_process t p process = true → pi_tenant_id process = t ∧ pi_id process = p.
Proof. unfold is_process. by intros [?%eqb_true ?%eqb_true]%andb_true_iff. Qed.

Lemma apply_decision_effect t p turn d ts reqs s res s' :
  apply_decision t p turn d ts reqs s = Ok (res, s') → state_effect t p turn d ts reqs s res (s_db s').
Proof.
  intros H. unfold apply_decision in H.
  apply tx_bind_ok in H as ([] & ? & ->%set_tenant_context_ok & H).
  apply tx_bind_ok in H as (found & ? & Hf & H).
  rewrite (scalar_run _ t) in Hf by (done || (intros ? []%is_process_ids; done)). injection Hf as <- <-.
  destruct (hd_error _) as [process|] eqn:Hp; [|done]. cbn in Hp.
  pose proof Hp as [_ [Ht Hid]%is_process_ids]%hd_filter_Some.
  assert (∀ q r, is_state_revision t p r && q r = true → row_tenant r = t) as Hrt.
  { unfold is_state_revision. intros q r. rewrite !andb_true_iff. by intros [[?%eqb_true _] _]. }
  apply tx_bind_ok in H as (existing & ? & He & H).
  rewrite (scalar_run _ t) in He by (done || apply Hrt). injection He as <- <-.
  destruct (hd_error (List.filter (λ r, _ && eqb (psr_agent_turn_id r) turn) _)) as [r|] eqn:Hr.
  { apply tx_bind_ok in H as ([] & ? & [Hd%negb_false_iff%eqb_true ->]%tx_raise_if_ok & H).
    apply tx_bind_ok in H as (oa & ? & Hoa & [-> ->]%mret_ok).
    rewrite (load_open_actions_run _ t) in Hoa by done. injection Hoa as <- <-.
    by apply (state_replayed t p turn d ts reqs s process r). }
  apply tx_bind_ok in H as (reused & ? & Hu & H).
  rewrite (scalar_run _ t) in Hu by (done || apply Hrt). injection Hu as <- <-.
  apply tx_bind_ok in H as ([] & ? & [Hno%bool_decide_eq_false ->]%tx_raise_if_ok & H).
  apply tx_bind_ok in H as ([] & ? & [Hterm ->]%tx_raise_if_ok & H).
  apply tx_bind_ok in H as ([] & ? & [Hpaused%eqb_false ->]%tx_raise_if_ok & H).
  apply tx_bind_ok in H as ([[facts oa] tr] & s2 & Hdt & H).
  pose proof (reads_decide_transition t _ _ _ _ _ _ _ Hdt) as [Hd2 Ht2]. specialize (Ht2 eq_refl).
  apply tx_bind_ok in H as ([] & ? & Hup & H). rewrite (update_touch _ t) in Hup by done.
  injection Hup as <-.
  apply tx_bind_ok in H as (id & ? & [_ ->]%draw_uuid_ok & H).
  apply tx_bind_ok in H as (now & ? & [_ ->]%transaction_now_ok & H).
  apply tx_bind_ok in H as ([] & ? & [_ ->]%insert_ok & [-> ->]%mret_ok).
  rewrite Hid. cbn in Hd2.
  match goal with |- state_effect _ _ _ _ _ _ _ _ ?db => change db with (set_table (R:=ProcessStateRevision)
    (process_state_revisions (s_db s2) ++ [new_state_revision id turn d (with_decision d facts tr process) now])
    (set_table (R:=ProcessInstance)
      (touch t p (with_decision d facts tr) <$> process_instances (s_db s2)) (s_db s2))) end.
  rewrite Hd2. eapply (state_applied t p turn d ts reqs s process facts oa tr id now (s <| s_tenant := Some t |>)); try done.
  apply Forall_forall. intros r [Hrev Hin]%elem_of_filter_bool.
  apply hd_filter_None in Hr. apply eq_None_not_Some, hd_filter_None in Hno.
  rewrite Forall_forall in Hr, Hno. specialize (Hr r Hin). specialize (Hno r Hin).
  rewrite Hrev in Hr, Hno. split; by apply eqb_false.
Qed.

Lemma decide_transition_open process d ts reqs t s facts oa tr s' :
  s_tenant s = Some t → decide_transition process d ts reqs s = Ok (facts, oa, tr, s') →
  oa = open_actions_of (s_db s) t (pi_id process).
Proof.
  intros Hs H. unfold decide_transition in H.
  apply tx_bind_ok in H as (events & s1 & [Hd1 Ht1]%(reads_load_events t) & H).
  apply tx_bind_ok in H as (attempts & s2 & [Hd2 Ht2]%(reads_load_attempts t) & H).
  apply tx_bind_ok in H as ([] & ? & [_ ->]%lift_result_ok & H).
  apply tx_bind_ok in H as (oa' & ? & Ho & H).
  rewrite (load_open_actions_run _ t) in Ho by auto. injection Ho as <- <-.
  apply tx_bind_ok in H as (tr' & ? & [_ ->]%lift_result_ok & H).
  apply tx_bind_ok in H as ([] & ? & [_ ->]%lift_result_ok & [[= -> -> ->] ->]%mret_ok).
  by rewrite Hd2, Hd1.
Qed.

Lemma hd_filter_snoc {R} (q : R → bool) xs x :
  Forall (λ y, q y = false) xs → q x = true → hd_error (List.filter q (xs ++ [x])) = Some x.
Proof.
  intros Hxs Hx. rewrite List.filter_app. cbn. rewrite Hx.
  replace (List.filter q xs) with (@nil R); [done|]. symmetry. induction Hxs as [|y ys Hy _ IH]; cbn; [done|].
  by rewrite Hy.
Qed.

Lemma with_decision_ids d facts tr p :
  pi_id (with_decision d facts tr p) = pi_id p ∧ pi_tenant_id (with_decision d facts tr p) = pi_tenant_id p.
Proof. unfold with_decision, with_memory. by destruct (mu_summary (ad_memory_update d)). Qed.

Lemma is_process_decision t p d facts tr process :
  is_process t p (with_decision d facts tr process) = is_process t p process.
Proof. unfold is_process. by destruct (with_decision_ids d facts tr process) as [-> ->]. Qed.

(** What a second call finds: the process and the revision of the turn. *)
Lemma state_effect_found t p turn d ts reqs s res db :
  state_effect t p turn d ts reqs s res db →
  ∃ process r, hd_error (List.filter (is_process t p) (process_instances db)) = Some process
    ∧ hd_error (List.filter (λ r, is_state_revision t p r && eqb (psr_agent_turn_id r) turn)
        (process_state_revisions db)) = Some r
    ∧ psr_decision_id r = ad_decision_id d ∧ res = state_result r (open_actions_of db t p).
Proof.
  destruct 1 as [process r Hp Hr Hd|process facts oa tr id now s1 s2 Hp Hfresh Hterm Hpaused Hs1 Ht1 Hdt].
  - by exists process, r.
  - pose proof Hp as [_ [Ht Hid]%is_process_ids]%hd_filter_Some.
    exists (touch t p (with_decision d facts tr) process),
      (new_state_revision id turn d (with_decision d facts tr process) now).
    apply decide_transition_open with (t := t) in Hdt as ->; [|done]. rewrite Hid, Hs1. split_and!; [| |done..].
    + apply head_touch; [apply is_process_decision|done].
    + apply hd_filter_snoc.
      * apply Forall_forall. intros r Hin. destruct (is_state_revision t p r) eqn:Hrev; [|done]. cbn.
        apply eqb_neq. rewrite Forall_forall in Hfresh. apply Hfresh, elem_of_filter_bool. done.
      * unfold is_state_revision, new_state_revision. cbn -[with_decision]. destruct (with_decision_ids d facts tr process) as [-> ->].
        by rewrite Ht, Hid, !eqb_refl.
Qed.

(** A turn's decision is applied once.  After [apply_decision] has stored the
    decision of a turn, calling it again for that turn in any later session on
    that database, even with other terminal states and requirements, changes
    nothing and returns the same result, and another decision for the same turn
    is refused. *)
Theorem decisions_apply_once t p turn d ts reqs s res s' :
  apply_decision t p turn d ts reqs s = Ok (res, s') →
  ∀ d' ts' reqs' later, s_db later = s_db s' →
    (ad_decision_id d' = ad_decision_id d →
     apply_decision t p turn d' ts' reqs' later = Ok (res, later <| s_tenant := Some t |>))
    ∧ (ad_decision_id d' ≠ ad_decision_id d →
       ∃ msg, apply_decision t p turn d' ts' reqs' later = raise ProcessStateConflict msg).
Proof.
  intros (process & r & Hp & Hr & Hd & ->)%apply_decision_effect%state_effect_found d' ts' reqs' later Hdb.
  rewrite <- Hdb in Hp, Hr. unfold apply_decision, mbind, Tx_bind. cbn -[scalar].
  rewrite (scalar_run _ t) by (done || (intros ? []%is_process_ids; done)). cbn -[scalar] in *. rewrite Hp.
  rewrite (scalar_run _ t); [|done|].
  2:{ unfold is_state_revision. intros q. rewrite !andb_true_iff. by intros [[?%eqb_true _] _]. }
  cbn -[_load_open_actions] in *. rewrite Hr, Hd. unfold tx_raise_if, lift_result. split; intros Hid.
  - rewrite Hid, eqb_refl. cbn -[_load_open_actions].
    rewrite (load_open_actions_run _ t) by done. cbn. by rewrite Hdb.
  - apply eqb_neq in Hid. rewrite eqb_sym, Hid. by eexists.
Qed.

(** ** The history of a process *)

(** The revisions of a process are numbered 1, 2, ... up to the version of its row,
    and the last one holds the row's facts, memory and commitments. *)
Definition describes (p : ProcessInstance) (r : ProcessStateRevision) : Prop :=
  psr_authoritative_facts r = pi_authoritative_facts p ∧ psr_customer_claims r = pi_customer_claims p
  ∧ psr_fact_provenance r = pi_fact_provenance p ∧ psr_memory_summary r = pi_memory_summary p
  ∧ psr_open_commitments r = pi_open_commitments p.

Definition StateHistory (d : Db) (t p : UUID) : Prop :=
  ∀ process, hd_error (List.filter (is_process t p) (process_instances d)) = Some process →
    psr_version <$> revisions d t p = Z.of_nat <$> seq 1 (length (revisions d t p))
    ∧ pi_state_version process = Z.of_nat (length (revisions d t p))
    ∧ ∀ r, last (revisions d t p) = Some r → describes process r.

Lemma hd_touch {R} `{Table R} tenant id (f : R → R) (q : R → bool) xs :
  (∀ y, q (f y) = q y) →
  hd_error (List.filter q (touch tenant id f <$> xs)) = touch tenant id f <$> hd_error (List.filter q xs).
Proof.
  intros Hf. assert (∀ y, q (touch tenant id f y) = q y) as Hq.
  { intros y. unfold touch. by destruct (eqb (Some tenant) _ && eqb _ id). }
  induction xs as [|y xs IH]; cbn; [done|]. rewrite Hq. by destruct (q y).
Qed.

Lemma revisions_snoc t p turn d facts tr process id now db t' p' :
  pi_tenant_id process = t → pi_id process = p →
  revisions (decided_state t p turn d facts tr process id now db) t' p'
  = revisions db t' p' ++ (if decide ((t, p) = (t', p'))
      then [new_state_revision id turn d (with_decision d facts tr process) now] else []).
Proof.
  intros Ht Hp. unfold revisions, decided_state. cbn [process_state_revisions field_update].
  rewrite List.filter_app. f_equal. cbn -[with_decision]. unfold is_state_revision, new_state_revision.
  cbn -[with_decision]. destruct (with_decision_ids d facts tr process) as [-> ->]. rewrite Ht, Hp.
  unfold eqb. case_decide as E.
  - injection E as -> ->. by rewrite !bool_decide_true.
  - destruct (bool_decide_reflect (t = t')), (bool_decide_reflect (p = p')); cbn; congruence.
Qed.

(** The history of a process is complete and in order.  [apply_decision]
    preserves, for every process, that its revisions are numbered without gaps
    up to the version of its row and that the last revision holds the row's
    facts, provenance, memory and commitments. *)
Theorem state_history_is_consecutive t p turn d ts reqs s res s' t' p' :
  apply_decision t p turn d ts reqs s = Ok (res, s') →
  StateHistory (s_db s) t' p' → StateHistory (s_db s') t' p'.
Proof.
  intros H%apply_decision_effect Hh.
  destruct H as [process r Hp Hr Hd|process facts oa tr id now s1 s2 Hp Hfresh Hterm Hpaused Hs1 Ht1 Hdt]; [done|].
  pose proof Hp as [_ [Ht Hid]%is_process_ids]%hd_filter_Some.
  intros row. rewrite revisions_snoc by done.
  unfold decided_state. cbn [process_instances field_update].
  rewrite hd_touch by (intros; apply is_process_decision).
  destruct (hd_error (List.filter (is_process t' p') _)) as [old|] eqn:Ho; [|done]. cbn. intros [= <-].
  destruct (Hh old Ho) as (Hv & Hn & Hl).
  pose proof Ho as [_ [Ht' Hid']%is_process_ids]%hd_filter_Some.
  case_decide as E.
  - injection E as -> ->. rewrite Ho in Hp. injection Hp as ->.
    rewrite touch_self by done. rewrite length_app, fmap_app, Hv. cbn [length].
    rewrite Nat.add_1_r, seq_S, fmap_app.
    assert (pi_state_version (with_decision d facts tr process) = Z.succ (pi_state_version process)) as Hsv
      by (unfold with_decision, with_memory; by destruct (mu_summary (ad_memory_update d))).
    rewrite Hsv, Hn. split_and!.
    + f_equal. cbn -[with_decision]. rewrite Hsv, Hn. f_equal. lia.
    + lia.
    + intros r. rewrite last_snoc. by intros [= <-].
  - rewrite app_nil_r. assert (touch t p (with_decision d facts tr) old = old) as ->; [|done].
    unfold touch. change (row_id old) with (pi_id old). change (row_tenant old) with (pi_tenant_id old).
    rewrite Ht', Hid'. unfold eqb.
    destruct (bool_decide_reflect (Some t = Some t')), (bool_decide_reflect (p' = p)); cbn; congruence.
Qed.

(** ** Examples *)

Definition ex_state_process : ProcessInstance := mkProcessInstance (uuid 20) (uuid 10)
  "booking_follow_up" "1" "m" "c" "d" "acme" "r" "tiramisu.acme.r" PS_ACTIVE "process/20" None
  ∅ ∅ ∅ None [] [] [] [] [] [] 0 (days 80).
Definition ex_state_event : EventInbox := mkEventInbox (uuid 40) (uuid 10) (Some (uuid 20)) "email" "m-1"
  "booking.created" (mkEvent (uuid 40) (uuid 10) None "booking.created" "email" "m-1" (utc (days 81))
    (utc (days 81)) 1 INTERNAL [] [mkFact "booking.status" AUTHORITATIVE (JStr "confirmed")] [])
  CS_MATCHED None (days 81) (days 81).
Definition ex_state_db : Db := empty_db <| process_instances := [ex_state_process] |>
  <| event_inbox := [ex_state_event] |>.
Definition ex_state_session : Session :=
  mkSession ex_state_db None (days 81) (λ _, days 81) 0 (λ n, uuid (100 + N.of_nat n)) 0.
Definition ex_state_decision : AgentDecision := mkDecision (uuid 5) [uuid 40] [] [] [] DS_COMPLETED [] [] empty_memory.
Definition ex_applied : result (AppliedProcessState * Session) :=
  apply_decision (uuid 10) (uuid 20) (uuid 30) ex_state_decision (Some [PS_COMPLETED])
    [("booking.status"%string, JStr "confirmed")] ex_state_session.

Lemma decisions_apply_once_witness :
  ∃ res s', ex_applied = Ok (res, s') ∧ aps_status res = PS_COMPLETED
    ∧ apply_decision (uuid 10) (uuid 20) (uuid 30) ex_state_decision None [] (s' <| s_tenant := None |>)
      = Ok (res, s').
Proof.
  eexists _, _. split; [vm_compute; reflexivity|]. split; [reflexivity|].
  eapply (decisions_apply_once (uuid 10) (uuid 20) (uuid 30) ex_state_decision (Some [PS_COMPLETED])
    [("booking.status"%string, JStr "confirmed")] ex_state_session); [vm_compute; reflexivity|reflexivity|reflexivity].
Defined.

Lemma state_history_is_consecutive_witness :
  ∃ res s', ex_applied = Ok (res, s') ∧ StateHistory (s_db s') (uuid 10) (uuid 20).
Proof.
  eexists _, _. split; [vm_compute; reflexivity|].
  apply (state_history_is_consecutive (uuid 10) (uuid 20) (uuid 30) ex_state_decision (Some [PS_COMPLETED])
    [("booking.status"%string, JStr "confirmed")] ex_state_session
    (match ex_applied with Ok (r, _) => r | Raise _ => mkAppliedState (uuid 0) (uuid 0) (uuid 0) 0 PS_ACTIVE [] [] false end));
    [vm_compute; reflexivity|].
  intros process [= <-]. split_and!; done.
Defined.
