(* ===== verification/Budgets.v ===== *)
(** * [budgets/]: model budgets, prices, the usage ledger and circuit breakers

    [budgets/policy.py] and [budgets/pricing.py] are pure; [budgets/ledger.py] and
    [budgets/breakers.py] are transactions over two append-only tables. *)

From stdpp Require Import base gmap list strings pretty sets.
From Stdlib Require Import ZArith Lia.
From S2P Require Import Prelude Python PyTime Json Limits Contracts Definitions Schema Session.

#[local] Open Scope Z_scope.

(** ** [policy.py] *)

Inductive ModelBudgetBlockCode :=
  | INPUT_TOKEN_LIMIT | OUTPUT_TOKEN_LIMIT | TOTAL_TOKEN_LIMIT | COST_LIMIT
  | TENANT_SPEND_LIMIT | CIRCUIT_OPEN.

Record ModelBudgetBlock := mkBudgetBlock {
  mbb_code : ModelBudgetBlockCode; mbb_message : string
}.

Record ModelUsage := mkUsage { input_tokens : Z; output_tokens : Z }.
#[export] Instance ModelUsage_eq_dec : EqDecision ModelUsage.
Proof. solve_decision. Defined.

(** [ModelUsage.__post_init__] *)
Definition usage_post_init (u : ModelUsage) : result unit :=
  raise_if (input_tokens u <? 0) ValueError "model input tokens must be a non-negative integer" ≫= λ _,
  raise_if (output_tokens u <? 0) ValueError "model output tokens must be a non-negative integer".

Definition total_tokens (u : ModelUsage) : Z := input_tokens u + output_tokens u.

(** [ModelUsage.__add__] *)
Definition usage_add (u v : ModelUsage) : ModelUsage :=
  mkUsage (input_tokens u + input_tokens v) (output_tokens u + output_tokens v).
Definition no_usage : ModelUsage := mkUsage 0 0.

Record ModelBudget := mkBudget {
  max_input_tokens_per_process : Z;
  max_output_tokens_per_process : Z;
  max_total_tokens_per_process : Z;
  max_cost_micros_per_process : Z
}.

(** [ModelBudget.from_definition] *)
Definition model_budget (d : ProcessDefinition) : ModelBudget :=
  let l := pd_limits d in
  mkBudget (pl_max_model_input_tokens_per_process l) (pl_max_model_output_tokens_per_process l)
    (pl_max_model_total_tokens_per_process l) (pl_max_model_cost_micros_per_process l).

Record ModelBudgetSnapshot := mkBudgetSnapshot {
  mbs_evaluated_spent : ModelUsage;
  mbs_evaluated_cost_micros : Z;
  mbs_model_allowed_now : bool;
  mbs_blocks : list ModelBudgetBlock
}.

(** [ModelBudgetSnapshot.require_allowed] *)
Definition require_model_allowed (s : ModelBudgetSnapshot) : result unit :=
  match mbs_blocks s with
  | b :: _ => raise ModelBudgetExceeded (mbb_message b)
  | [] => Ok tt
  end.

Definition budget_block_if (b : bool) (code : ModelBudgetBlockCode) (message : string)
  : list ModelBudgetBlock :=
  if b then [mkBudgetBlock code message] else [].

Definition evaluate_model_budget (budget : ModelBudget) (spent : ModelUsage) (spent_cost_micros : Z)
  : result ModelBudgetSnapshot :=
  _ ← raise_if (spent_cost_micros <? 0) ValueError
        "spent model cost must be a non-negative integer of micro-USD";
  let blocks :=
    budget_block_if (max_input_tokens_per_process budget <=? input_tokens spent)
      INPUT_TOKEN_LIMIT "process model input-token budget has been reached" ++
    budget_block_if (max_output_tokens_per_process budget <=? output_tokens spent)
      OUTPUT_TOKEN_LIMIT "process model output-token budget has been reached" ++
    budget_block_if (max_total_tokens_per_process budget <=? total_tokens spent)
      TOTAL_TOKEN_LIMIT "process model total-token budget has been reached" ++
    budget_block_if (max_cost_micros_per_process budget <=? spent_cost_micros)
      COST_LIMIT "process model cost budget has been reached" in
  Ok (mkBudgetSnapshot spent spent_cost_micros (negb (nonempty blocks)) blocks).

(** ** [pricing.py] *)

Definition PRICE_TABLE_VERSION : Z := 1.

Record PriceEntry := mkPrice {
  input_micros_per_million_tokens : Z; output_micros_per_million_tokens : Z
}.

(** [PriceEntry.__post_init__] *)
Definition price_post_init (p : PriceEntry) : result unit :=
  raise_if (input_micros_per_million_tokens p <? 0) ValueError
    "model input price must be a non-negative integer" ≫= λ _,
  raise_if (output_micros_per_million_tokens p <? 0) ValueError
    "model output price must be a non-negative integer".

Definition DEFAULT_MODEL_PRICES : list (string * PriceEntry) :=
  [("gpt-4o", mkPrice 2500000 10000000); ("gpt-4o-mini", mkPrice 150000 600000);
   ("gpt-4.1", mkPrice 2000000 8000000); ("gpt-4.1-mini", mkPrice 400000 1600000);
   ("o4-mini", mkPrice 1100000 4400000)]%string.

(** [items[key] = value]: an existing key keeps its place. *)
Fixpoint dict_set {A} (key : string) (value : A) (items : list (string * A)) : list (string * A) :=
  match items with
  | [] => [(key, value)]
  | (k, v) :: items => if bool_decide (k = key) then (key, value) :: items
                       else (k, v) :: dict_set key value items
  end.

(** The ranges of a [ModelPriceOverride]. *)
Definition override_validate (p : PriceEntry) : result unit :=
  for_each (λ v, raise_if ((v <? 0) || (10 ^ 15 <? v)) ValueError "model price override")
    [input_micros_per_million_tokens p; output_micros_per_million_tokens p].

(** The loop of [resolve_model_prices] over the overrides. *)
Fixpoint apply_overrides (overrides resolved : list (string * PriceEntry))
  : result (list (string * PriceEntry)) :=
  match overrides with
  | [] => Ok resolved
  | (model, entry) :: overrides =>
      _ ← raise_if (is_blank model) ValueError "model price overrides require a non-blank model name";
      _ ← price_post_init entry;
      apply_overrides overrides (dict_set model entry resolved)
  end.

Definition resolve_model_prices (overrides : list (string * PriceEntry))
  : result (list (string * PriceEntry)) := apply_overrides overrides DEFAULT_MODEL_PRICES.

(** [repr(model)] of a name without quotes, backslashes or control characters. *)
Definition repr_name (model : string) : string := ("'" +:+ model +:+ "'")%string.

Definition require_priced_model (model : string) (prices : list (string * PriceEntry)) : result unit :=
  _ ← raise_if (is_blank model) ValueError "a model name is required to check price coverage";
  match assoc model prices with
  | Some _ => Ok tt
  | None => raise UnknownModelPrice ("no price entry for model " +:+ repr_name model)
  end.

Definition estimate_cost_micros (model : string) (usage : ModelUsage)
    (prices : list (string * PriceEntry)) : result Z :=
  _ ← raise_if (is_blank model) ValueError "a model name is required to estimate cost";
  match assoc model prices with
  | Some entry => Ok (input_tokens usage * input_micros_per_million_tokens entry / 1000000
                      + output_tokens usage * output_micros_per_million_tokens entry / 1000000)
  | None => raise UnknownModelPrice ("no price entry for model " +:+ repr_name model)
  end.

(** ** [ledger.py] *)

(** [ModelUsageService.record] *)
Definition record (tenant_id process_instance_id agent_turn_id : UUID) (attempt_number : Z)
    (model : string) (usage : ModelUsage) (cost_micros price_table_version : Z) (execution_id : UUID)
  : Tx UUID :=
  _ ← tx_raise_if (attempt_number <? 1) ValueError "usage attempt number must be a positive integer";
  _ ← tx_raise_if (is_blank model) ValueError "a model name is required to record usage";
  _ ← tx_raise_if (cost_micros <? 0) ValueError
        "recorded model cost must be a non-negative integer of micro-USD";
  _ ← tx_raise_if (price_table_version <? 1) ValueError
        "recorded price-table version must be a positive integer";
  _ ← set_tenant_context tenant_id;
  id ← draw_uuid;
  now ← transaction_now;
  inserted_id ← insert_or_skip same_usage
    (mkModelUsageLedger id tenant_id process_instance_id agent_turn_id execution_id attempt_number
       model (input_tokens usage) (output_tokens usage) cost_micros price_table_version now);
  match inserted_id with
  | Some id => mret id
  | None =>
      existing ← scalar (λ r, eqb (mul_tenant_id r) tenant_id
        && eqb (mul_process_instance_id r) process_instance_id
        && eqb (mul_agent_turn_id r) agent_turn_id && eqb (mul_execution_id r) execution_id
        && (mul_attempt_number r =? attempt_number));
      match existing with
      | None => tx_raise ValueError "model usage identity could not be reserved"
      | Some r =>
          _ ← tx_raise_if (negb (eqb (mul_model r) model)
                || negb (mul_input_tokens r =? input_tokens usage)
                || negb (mul_output_tokens r =? output_tokens usage)
                || negb (mul_cost_micros r =? cost_micros)
                || negb (mul_price_table_version r =? price_table_version)) ValueError
                "model usage lineage changed during replay";
          mret (mul_id r)
      end
  end.

(** [func.coalesce(func.sum(column), 0)] *)
Definition sum_of {A} (f : A → Z) (rows : list A) : Z := foldr (λ r n, f r + n) 0 rows.

Definition ledger_totals (rows : list ModelUsageLedger) : ModelUsage * Z :=
  (mkUsage (sum_of mul_input_tokens rows) (sum_of mul_output_tokens rows), sum_of mul_cost_micros rows).

(** [ModelUsageService.spent] *)
Definition spent (tenant_id process_instance_id : UUID) : Tx (ModelUsage * Z) :=
  _ ← set_tenant_context tenant_id;
  rows ← select (λ r, eqb (mul_tenant_id r) tenant_id
                      && eqb (mul_process_instance_id r) process_instance_id);
  mret (ledger_totals rows).

(** [ModelUsageService.inspect] *)
Definition inspect_budget (tenant_id process_instance_id : UUID) (budget : ModelBudget)
  : Tx ModelBudgetSnapshot :=
  '(usage, cost_micros) ← spent tenant_id process_instance_id;
  lift_result (evaluate_model_budget budget usage cost_micros).

(** [ModelUsageService.tenant_spent] *)
Definition tenant_spent (tenant_id : UUID) : Tx (ModelUsage * Z) :=
  _ ← set_tenant_context tenant_id;
  rows ← select (λ r, eqb (mul_tenant_id r) tenant_id);
  mret (ledger_totals rows).

(** ** [breakers.py] *)

Record BreakerState := mkBreakerState {
  bs_scope : BreakerScope;
  bs_target : string;
  bs_tripped : bool;
  bs_reason : string;
  bs_actor_id : UUID;
  bs_transitioned_at : Z
}.

Record TenantSpendCaps := mkCaps { max_tokens : Z; max_cost_micros : Z }.
Definition DEFAULT_TENANT_SPEND_CAPS : TenantSpendCaps := mkCaps 100000000 2000000000.

Definition normalize_breaker_target (scope : BreakerScope) (target : string) : result string :=
  match scope with
  | CAPABILITY =>
      _ ← raise_if (is_blank target) ValueError "capability breakers require a non-blank action type";
      _ ← raise_if (200 <? py_len (strip target))%nat ValueError
            "capability breaker action type is too long";
      Ok (strip target)
  | _ =>
      _ ← raise_if (negb (is_empty target)) ValueError "only capability breakers accept a target";
      Ok ""%string
  end.

Definition evaluate_tenant_spend (spent : ModelUsage) (spent_cost_micros : Z) (caps : TenantSpendCaps)
  : option ModelBudgetBlock :=
  if max_tokens caps <=? total_tokens spent then
    Some (mkBudgetBlock TENANT_SPEND_LIMIT "tenant model token spend has reached its platform cap")
  else if max_cost_micros caps <=? spent_cost_micros then
    Some (mkBudgetBlock TENANT_SPEND_LIMIT "tenant model cost spend has reached its platform cap")
  else None.

(** The first row [ORDER BY created_at DESC, id DESC]. *)
Definition newest (rows : list CircuitBreaker) : option CircuitBreaker :=
  newest_by br_created_at br_id rows.

Definition breaker_state (scope : BreakerScope) (row : CircuitBreaker) : BreakerState :=
  mkBreakerState scope (br_target row) (br_tripped row) (br_reason row) (br_actor_id row)
    (br_created_at row).

(** [CircuitBreakerService.latest] *)
Definition latest (tenant_id : UUID) (scope : BreakerScope) (target : string) : Tx (option BreakerState) :=
  _ ← set_tenant_context tenant_id;
  target ← lift_result (normalize_breaker_target scope target);
  rows ← select (λ r, eqb (br_tenant_id r) tenant_id && eqb (br_scope r) scope
                      && eqb (br_target r) target);
  mret (breaker_state scope <$> newest rows).

(** The advisory lock serialises the transitions of one breaker; the model runs
    transactions one after the other. *)
Definition _transition (tenant_id : UUID) (scope : BreakerScope) (target : string) (actor_id : UUID)
    (reason : string) (tripped : bool) : Tx BreakerState :=
  let normalized_reason := strip reason in
  _ ← tx_raise_if (is_empty normalized_reason) ValueError "a breaker transition requires a reason";
  _ ← tx_raise_if (10000 <? Z.of_nat (py_len normalized_reason)) ValueError
        "breaker transition reason is too long";
  normalized_target ← lift_result (normalize_breaker_target scope target);
  _ ← set_tenant_context tenant_id;
  current ← latest tenant_id scope target;
  _ ← tx_raise_if (eqb (match current with Some c => bs_tripped c | None => false end) tripped)
        BreakerConflict ("breaker is already " +:+ (if tripped then "tripped" else "closed"));
  now ← utcnow;
  let transitioned_at :=
    match current with Some c => Z.max now (bs_transitioned_at c + usec) | None => now end in
  id ← draw_uuid;
  _ ← insert (mkCircuitBreaker id tenant_id scope normalized_target tripped normalized_reason actor_id
                transitioned_at);
  mret (mkBreakerState scope normalized_target tripped normalized_reason actor_id transitioned_at).

Definition trip (tenant_id : UUID) (scope : BreakerScope) (target : string) (actor_id : UUID)
    (reason : string) : Tx BreakerState := _transition tenant_id scope target actor_id reason true.

Definition reset (tenant_id : UUID) (scope : BreakerScope) (target : string) (actor_id : UUID)
    (reason : string) : Tx BreakerState := _transition tenant_id scope target actor_id reason false.

(** [state if state is not None and state.tripped else None] *)
Definition open_state (state : option BreakerState) : option BreakerState :=
  match state with Some s => if bs_tripped s then Some s else None | None => None end.

(** The first breaker of a list of scopes that is open. *)
Fixpoint first_open (tenant_id : UUID) (breakers : list (BreakerScope * string))
  : Tx (option BreakerState) :=
  match breakers with
  | [] => mret None
  | (scope, target) :: breakers =>
      state ← latest tenant_id scope target;
      match open_state state with
      | Some s => mret (Some s)
      | None => first_open tenant_id breakers
      end
  end.

Definition open_for_model_calls (tenant_id : UUID) : Tx (option BreakerState) :=
  first_open tenant_id [(ALL, ""%string); (MODEL_CALLS, ""%string)].
Definition open_for_outbound (tenant_id : UUID) : Tx (option BreakerState) :=
  first_open tenant_id [(ALL, ""%string); (OUTBOUND_MESSAGES, ""%string)].
Definition open_for_capability (tenant_id : UUID) (action_type : string) : Tx (option BreakerState) :=
  first_open tenant_id [(ALL, ""%string); (CAPABILITY, action_type)].

(** The gates only read. *)
Lemma reads_latest t scope target : reads_only t (latest t scope target).
Proof. unfold latest. reads. Qed.
#[export] Hint Resolve reads_latest : reads.
Lemma reads_first_open t breakers : reads_only t (first_open t breakers).
Proof. induction breakers as [|[scope target] breakers IH]; cbn [first_open]; reads. Qed.
#[export] Hint Resolve reads_first_open : reads.
Lemma reads_capability t a : reads_only t (open_for_capability t a).
Proof. apply reads_first_open. Qed.
Lemma reads_outbound t : reads_only t (open_for_outbound t).
Proof. apply reads_first_open. Qed.
#[export] Hint Resolve reads_capability reads_outbound : reads.

(** ** Lemmas *)


Lemma budget_blocks_nil b code msg : budget_block_if b code msg = [] ↔ b = false.
Proof. by destruct b. Qed.

(** The next model call is permitted. *)
Definition fence_open (b : ModelBudget) (u : ModelUsage) (cost : Z) : Prop :=
  input_tokens u < max_input_tokens_per_process b ∧ output_tokens u < max_output_tokens_per_process b
  ∧ total_tokens u < max_total_tokens_per_process b ∧ cost < max_cost_micros_per_process b.

Lemma evaluate_model_budget_ok b u cost s :
  evaluate_model_budget b u cost = Ok s →
  mbs_model_allowed_now s = negb (nonempty (mbs_blocks s)) ∧ (mbs_blocks s = [] ↔ fence_open b u cost).
Proof.
  intros H. unfold evaluate_model_budget in H. bind_inv. subst s. cbn. split; [done|].
  unfold fence_open. rewrite <- !Z.leb_gt. split.
  - intros (? & (? & (? & ?)%app_nil)%app_nil)%app_nil. by rewrite !budget_blocks_nil in *.
  - intros (-> & -> & -> & ->). done.
Qed.

(** The rows that count towards a process. *)
Definition charged (d : Db) (tenant_id process_instance_id : UUID) : list ModelUsageLedger :=
  List.filter (λ r, eqb (mul_tenant_id r) tenant_id
                    && eqb (mul_process_instance_id r) process_instance_id) (model_usage_ledger d).

Lemma spent_run t p s :
  spent t p s = Ok (ledger_totals (charged (s_db s) t p), s <| s_tenant := Some t |>).
Proof.
  unfold spent, mbind, Tx_bind. cbn -[select]. by rewrite (select_run _ t) by (done || tenant_first).
Qed.

(** The row a charge is recorded as. *)
Definition usage_row (id t p turn e : UUID) (n : Z) (model : string) (u : ModelUsage) (c v now : Z)
  : ModelUsageLedger :=
  mkModelUsageLedger id t p turn e n model (input_tokens u) (output_tokens u) c v now.

(** The row that holds a turn attempt's identity. *)
Definition usage_of (t p turn e : UUID) (n : Z) (r : ModelUsageLedger) : bool :=
  eqb (mul_tenant_id r) t && eqb (mul_process_instance_id r) p && eqb (mul_agent_turn_id r) turn
  && eqb (mul_execution_id r) e && (mul_attempt_number r =? n).

(** The content a replay must repeat. *)
Definition same_charge (model : string) (u : ModelUsage) (c v : Z) (r : ModelUsageLedger) : bool :=
  eqb (mul_model r) model && (mul_input_tokens r =? input_tokens u)
  && (mul_output_tokens r =? output_tokens u) && (mul_cost_micros r =? c)
  && (mul_price_table_version r =? v).

Lemma same_usage_row id t p turn e n model u c v now r :
  same_usage (usage_row id t p turn e n model u c v now) r = usage_of t p turn e n r.
Proof.
  unfold same_usage, usage_of, usage_row. cbn.
  by rewrite (Z.eqb_sym n), (eqb_sym t), (eqb_sym p), (eqb_sym turn), (eqb_sym e).
Qed.

Lemma existsb_ext {A} (p q : A → bool) xs : (∀ x, p x = q x) → existsb p xs = existsb q xs.
Proof. intros E. induction xs as [|x xs IH]; cbn; [done|]. by rewrite E, IH. Qed.

(** Either the identity is new and one row is appended, or it is taken and the
    row that holds it must carry the same charge. *)
Lemma record_run t p turn n model u c v e s :
  1 <= n → is_blank model = false → 0 <= c → 1 <= v →
  let row := usage_row (s_uuids s (s_drawn s)) t p turn e n model u c v (s_now s) in
  let s1 := s <| s_tenant := Some t |> <| s_drawn ::= S |> in
  record t p turn n model u c v e s =
  if existsb (usage_of t p turn e n) (model_usage_ledger (s_db s)) then
    match hd_error (List.filter (usage_of t p turn e n) (model_usage_ledger (s_db s))) with
    | None => raise ValueError "model usage identity could not be reserved"
    | Some r => if same_charge model u c v r then Ok (mul_id r, s1)
                else raise ValueError "model usage lineage changed during replay"
    end
  else if violates s1 row then Raise (Exn IntegrityError "constraint violation")
  else Ok (s_uuids s (s_drawn s),
           s1 <| s_db ::= (λ d, d <| model_usage_ledger := model_usage_ledger d ++ [row] |>) |>).
Proof.
  intros Hn Hm Hc Hv row s1. unfold record.
  rewrite (proj2 (Z.ltb_ge n 1) Hn), Hm, (proj2 (Z.ltb_ge c 0) Hc), (proj2 (Z.ltb_ge v 1) Hv).
  transitivity ((inserted_id ← insert_or_skip same_usage row;
    match inserted_id with
    | Some id => mret id
    | None =>
        existing ← scalar (usage_of t p turn e n);
        match existing with
        | None => tx_raise ValueError "model usage identity could not be reserved"
        | Some r =>
            _ ← tx_raise_if (negb (eqb (mul_model r) model)
                  || negb (mul_input_tokens r =? input_tokens u)
                  || negb (mul_output_tokens r =? output_tokens u)
                  || negb (mul_cost_micros r =? c)
                  || negb (mul_price_table_version r =? v)) ValueError
                  "model usage lineage changed during replay";
            mret (mul_id r)
        end
    end) s1).
  { reflexivity. }
  unfold insert_or_skip. unfold mbind at 1, Tx_bind at 1.
  rewrite (existsb_ext (same_usage row) (usage_of t p turn e n)) by (intros; apply same_usage_row).
  change (table (s_db s1)) with (model_usage_ledger (s_db s)).
  destruct (existsb (usage_of t p turn e n) _).
  - unfold mbind, Tx_bind. rewrite (scalar_run s1 t) by (done || (unfold usage_of; tenant_first)).
    change (table (s_db s1)) with (model_usage_ledger (s_db s)).
    destruct (hd_error _) as [r|]; [|done]. unfold same_charge. rewrite <- !negb_andb.
    by destruct (_ && (mul_price_table_version r =? v)).
  - unfold mbind, Tx_bind, insert. by destruct (violates s1 row).
Qed.

(** [ledger_totals] adds up. *)
Lemma sum_of_app {A} (f : A → Z) xs ys : sum_of f (xs ++ ys) = sum_of f xs + sum_of f ys.
Proof. unfold sum_of. induction xs as [|x xs IH]; cbn; lia. Qed.

Lemma ledger_totals_snoc rows r :
  ledger_totals (rows ++ [r])
  = (usage_add (fst (ledger_totals rows)) (mkUsage (mul_input_tokens r) (mul_output_tokens r)),
     snd (ledger_totals rows) + mul_cost_micros r).
Proof.
  unfold ledger_totals, usage_add. rewrite !sum_of_app. cbn. do 3 f_equal; lia.
Qed.

Lemma charged_snoc d d' t p r :
  model_usage_ledger d' = model_usage_ledger d ++ [r] →
  mul_tenant_id r = t → mul_process_instance_id r = p →
  charged d' t p = charged d t p ++ [r].
Proof.
  intros E <- <-. unfold charged. rewrite E, List.filter_app. cbn. by rewrite !eqb_refl.
Qed.

Lemma filter_none {A} (p : A → bool) xs : existsb p xs = false → List.filter p xs = [].
Proof. induction xs as [|x xs IH]; cbn; [done|]. intros [-> ?]%orb_false_iff. auto. Qed.

(** A recorded charge is a row of the ledger. *)
Lemma record_leaves_row t p turn n model u c v e s id s' :
  record t p turn n model u c v e s = Ok (id, s') →
  s_tenant s' = Some t ∧ ∃ r, r ∈ model_usage_ledger (s_db s') ∧ usage_of t p turn e n r = true
    ∧ same_charge model u c v r = true.
Proof.
  intros H.
  assert (1 <= n ∧ is_blank model = false ∧ 0 <= c ∧ 1 <= v) as (Hn & Hm & Hc & Hv)
    by (unfold record in H; tx_inv; by rewrite !Z.ltb_ge in *).
  rewrite record_run in H by done. cbv zeta in H. destruct (existsb _ _).
  - destruct (hd_error _) as [r|] eqn:Er; [|done]. apply hd_filter_Some in Er as [? ?].
    destruct (same_charge model u c v r) eqn:Ec; [|done]. injection H as <- <-. split; [done|]. by exists r.
  - destruct (violates _ _); [done|]. injection H as <- <-. split; [done|].
    eexists. split; [apply elem_of_app; right; apply list_elem_of_here|].
    unfold usage_of, same_charge, usage_row. cbn. by rewrite !eqb_refl, !Z.eqb_refl.
Qed.

(** ** Properties of the ledger and the fence *)

(** A turn attempt is charged at most once.  A successful [record] either
    takes a new identity and raises the process's totals by exactly the reported
    usage and cost, or finds the identity taken and leaves the database as it
    is; afterwards every replay of the same attempt, from any session on that
    database, returns the same row and charges nothing more. *)
Theorem usage_is_charged_once t p turn n model u c v e s id s' :
  record t p turn n model u c v e s = Ok (id, s') →
  let before := ledger_totals (charged (s_db s) t p) in
  let after := ledger_totals (charged (s_db s') t p) in
  (s_db s' = s_db s
   ∨ existsb (usage_of t p turn e n) (model_usage_ledger (s_db s)) = false
     ∧ after = (usage_add (fst before) u, snd before + c))
  ∧ ∀ later, s_db later = s_db s' →
    ∃ later', record t p turn n model u c v e later = Ok (id, later') ∧ s_db later' = s_db s'.
Proof.
  intros H.
  assert (1 <= n ∧ is_blank model = false ∧ 0 <= c ∧ 1 <= v) as (Hn & Hm & Hc & Hv)
    by (unfold record in H; tx_inv; by rewrite !Z.ltb_ge in *).
  rewrite record_run in H by done. cbv zeta in H |- *.
  destruct (existsb _ _) eqn:Ee.
  - destruct (hd_error _) as [r|] eqn:Er; [|done].
    destruct (same_charge model u c v r) eqn:Ec; [|done]. injection H as <- <-.
    split; [by left|]. intros later Hl. rewrite record_run by done.
    cbn in Hl |- *. rewrite Hl, Ee, Er, Ec. by eexists.
  - destruct (violates _ _) eqn:Evi; [done|]. injection H as <- <-. split.
    + right. split; [done|]. erewrite (charged_snoc (s_db s)) by reflexivity.
      rewrite ledger_totals_snoc. by destruct u.
    + intros later Hl. rewrite record_run by done. rewrite Hl. cbn -[List.filter].
      set (row := usage_row _ _ _ _ _ _ _ _ _ _ _).
      assert (usage_of t p turn e n row = true) as Hrow.
      { unfold usage_of. cbn. by rewrite !eqb_refl, Z.eqb_refl. }
      rewrite existsb_app, Ee. cbn [existsb]. rewrite Hrow. cbn [orb].
      rewrite List.filter_app. cbn [List.filter]. rewrite Hrow.
      rewrite (filter_none (usage_of t p turn e n)) by done. cbn [app hd_error].
      assert (same_charge model u c v row = true) as ->.
      { unfold same_charge. cbn. by rewrite eqb_refl, !Z.eqb_refl. }
      by eexists.
Qed.

(** Model calls each admitted by the fence on what was spent before it. *)
Fixpoint fenced (b : ModelBudget) (before : ModelUsage * Z) (calls : list (ModelUsage * Z)) : Prop :=
  match calls with
  | [] => True
  | (u, c) :: calls =>
      (∃ s, evaluate_model_budget b (fst before) (snd before) = Ok s ∧ mbs_model_allowed_now s = true)
      ∧ fenced b (usage_add (fst before) u, snd before + c) calls
  end.

Definition spend (before : ModelUsage * Z) (calls : list (ModelUsage * Z)) : ModelUsage * Z :=
  fold_left (λ b c, (usage_add (fst b) (fst c), snd b + snd c)) calls before.

(** What one call may use. *)
Definition call_within (most : ModelUsage) (most_cost : Z) (call : ModelUsage * Z) : Prop :=
  input_tokens (fst call) <= input_tokens most ∧ output_tokens (fst call) <= output_tokens most
  ∧ snd call <= most_cost.

(** C29: the fence bounds overspend by one call.  When every call of a process was
    admitted by [evaluate_model_budget] on the spend recorded before it, each
    recorded total stays below its cap plus what a single call may use. *)
Theorem overspend_is_bounded_by_one_call b before calls most most_cost :
  calls ≠ [] → fenced b before calls → Forall (call_within most most_cost) calls →
  let after := spend before calls in
  input_tokens (fst after) < max_input_tokens_per_process b + input_tokens most
  ∧ output_tokens (fst after) < max_output_tokens_per_process b + output_tokens most
  ∧ total_tokens (fst after) < max_total_tokens_per_process b + total_tokens most
  ∧ snd after < max_cost_micros_per_process b + most_cost.
Proof.
  revert before. induction calls as [|[u c] calls IH]; intros before Hne Hf Hc; [done|].
  cbn in Hf. destruct Hf as [(s & Hs & Ha) Hf]. apply Forall_cons in Hc as [(Hi & Ho & Hcost) Hc].
  destruct calls as [|call calls].
  - apply evaluate_model_budget_ok in Hs as [Hal Hb]. rewrite Hal in Ha.
    destruct (mbs_blocks s); [|done]. destruct (proj1 Hb eq_refl) as (? & ? & ? & ?).
    unfold total_tokens in *. cbn in *. lia.
  - apply (IH _ ltac:(done) Hf Hc).
Qed.

(** ** Cost estimates *)

Definition total_usage (us : list ModelUsage) : ModelUsage := foldr usage_add no_usage us.

Lemma estimate_ok model u prices c :
  estimate_cost_micros model u prices = Ok c →
  ∃ e, assoc model prices = Some e ∧
    c = input_tokens u * input_micros_per_million_tokens e / 1000000
        + output_tokens u * output_micros_per_million_tokens e / 1000000.
Proof.
  unfold estimate_cost_micros. intros H. bind_inv. destruct (assoc model prices) as [e|]; [|done].
  injection H as <-. eauto.
Qed.

(** Dividing a sum and summing the quotients. *)
Lemma div_add_bounds a b m : 0 < m → a / m + b / m <= (a + b) / m <= a / m + b / m + 1.
Proof.
  intros Hm. pose proof (Z.mod_pos_bound a m Hm). pose proof (Z.mod_pos_bound b m Hm).
  pose proof (Z.div_mod a m). pose proof (Z.div_mod b m).
  split; [apply Z.div_le_lower_bound; lia|].
  apply Z.lt_succ_r, Z.div_lt_upper_bound; lia.
Qed.

(** Pricing call by call never overcharges, and undercharges by less than two
    micro-dollars a call: the recorded estimates add up to at most the estimate
    of the total usage, which exceeds them by at most two per call. *)
Theorem call_estimates_approximate_the_total model prices us cs total :
  Forall2 (λ u c, estimate_cost_micros model u prices = Ok c) us cs →
  estimate_cost_micros model (total_usage us) prices = Ok total →
  sum_of id cs <= total <= sum_of id cs + 2 * Z.of_nat (length us).
Proof.
  intros Hall (e & He & ->)%estimate_ok. induction Hall as [|u c us cs Hu Hall IH]; cbn; [by rewrite !Z.mul_0_l|].
  apply estimate_ok in Hu as (e' & He' & ->). rewrite He in He'. injection He' as <-.
  set (p := input_micros_per_million_tokens e) in *. set (q := output_micros_per_million_tokens e) in *.
  rewrite !Z.mul_add_distr_r.
  pose proof (div_add_bounds (input_tokens u * p) (input_tokens (total_usage us) * p) 1000000).
  pose proof (div_add_bounds (output_tokens u * q) (output_tokens (total_usage us) * q) 1000000).
  unfold id, sum_of in *. cbn in *. fold (total_usage us). lia.
Qed.

(** ** Circuit breakers *)

(** The history of one breaker. *)
Definition breaker_rows (d : Db) (t : UUID) (scope : BreakerScope) (target : string) : list CircuitBreaker :=
  List.filter (λ r, eqb (br_tenant_id r) t && eqb (br_scope r) scope && eqb (br_target r) target)
    (circuit_breakers d).

Lemma latest_run t scope target s :
  latest t scope target s =
  match normalize_breaker_target scope target with
  | Ok n => Ok (breaker_state scope <$> newest (breaker_rows (s_db s) t scope n),
                s <| s_tenant := Some t |>)
  | Raise e => Raise e
  end.
Proof.
  unfold latest, mbind, Tx_bind, lift_result. cbn -[select].
  destruct (normalize_breaker_target scope target) as [n|]; cbn -[select]; [|done].
  by rewrite (select_run _ t) by (done || tenant_first).
Qed.

(** The breaker is open. *)
Definition is_open (d : Db) (t : UUID) (scope : BreakerScope) (target : string) : bool :=
  match newest (breaker_rows d t scope target) with Some r => br_tripped r | None => false end.

Lemma is_open_state d t scope n :
  is_open d t scope n =
  match breaker_state scope <$> newest (breaker_rows d t scope n) with
  | Some c => bs_tripped c | None => false end.
Proof. unfold is_open. by destruct (newest _). Qed.

Lemma breaker_rows_snoc d d' r t scope n :
  circuit_breakers d' = circuit_breakers d ++ [r] →
  breaker_rows d' t scope n = breaker_rows d t scope n ++
    (if decide ((br_tenant_id r, br_scope r, br_target r) = (t, scope, n)) then [r] else []).
Proof.
  intros E. unfold breaker_rows. rewrite E, List.filter_app. f_equal. cbn.
  case_decide as Ed; [injection Ed as -> -> ->; by rewrite !eqb_refl|].
  destruct (eqb (br_tenant_id r) t) eqn:?; [|done]. destruct (eqb (br_scope r) scope) eqn:?; [|done].
  destruct (eqb (br_target r) n) eqn:?; [|done]. cbn.
  repeat match goal with H : eqb _ _ = true |- _ => apply eqb_true in H end. congruence.
Qed.

(** A transition that returns appended one row, newer than the breaker's history. *)
Lemma transition_ok t scope target actor reason tripped s st s' :
  _transition t scope target actor reason tripped s = Ok (st, s') →
  ∃ n r, normalize_breaker_target scope target = Ok n
    ∧ is_open (s_db s) t scope n = negb tripped
    ∧ circuit_breakers (s_db s') = circuit_breakers (s_db s) ++ [r]
    ∧ (br_tenant_id r, br_scope r, br_target r) = (t, scope, n) ∧ br_tripped r = tripped
    ∧ Forall (λ r', br_created_at r' < br_created_at r) (breaker_rows (s_db s) t scope n)
    ∧ st = breaker_state scope r.
Proof.
  intros H. unfold _transition in H.
  apply tx_bind_ok in H as ([] & ? & [_ ->]%tx_raise_if_ok & H).
  apply tx_bind_ok in H as ([] & ? & [_ ->]%tx_raise_if_ok & H).
  apply tx_bind_ok in H as (n & ? & [Hn ->]%lift_result_ok & H).
  apply tx_bind_ok in H as ([] & ? & ->%set_tenant_context_ok & H).
  apply tx_bind_ok in H as (current & s1 & Hl & H).
  rewrite latest_run, Hn in Hl. injection Hl as Hcur <-. cbn in Hcur.
  apply tx_bind_ok in H as ([] & ? & [Hopen ->]%tx_raise_if_ok & H). tx_inv.
  eexists n, _. split; [done|]. cbn.
  assert (is_open (s_db s) t scope n = negb tripped) as Ho.
  { rewrite is_open_state, Hcur. apply eqb_false in Hopen. destruct current as [c|]; cbn in *; [destruct (bs_tripped c), tripped|destruct tripped]; cbn in *; congruence. }
  split_and!; try done. subst current.
  destruct (newest (breaker_rows (s_db s) t scope n)) as [m|] eqn:Em; cbn.
  - apply newest_by_max in Em. eapply Forall_impl; [exact Em|]. intros r Hr. cbn in *. unfold usec. lia.
  - apply newest_by_None in Em. by rewrite Em.
Qed.

Lemma newest_after t scope n s s' r :
  circuit_breakers (s_db s') = circuit_breakers (s_db s) ++ [r] →
  (br_tenant_id r, br_scope r, br_target r) = (t, scope, n) →
  Forall (λ r', br_created_at r' < br_created_at r) (breaker_rows (s_db s) t scope n) →
  newest (breaker_rows (s_db s') t scope n) = Some r.
Proof.
  intros Hd Hk Hlt. rewrite (breaker_rows_snoc (s_db s) (s_db s') r) by done.
  rewrite decide_True by done. by apply newest_by_snoc.
Qed.

(** A breaker's history alternates and its latest row is unambiguous.  A
    transition succeeds only from the opposite state; afterwards [latest]
    reports exactly the state the transition returned, the same transition is a
    conflict, and the history of every other breaker is what it was. *)
Theorem breaker_transitions_alternate t scope target actor reason tripped s st s' :
  _transition t scope target actor reason tripped s = Ok (st, s') →
  ∃ n, normalize_breaker_target scope target = Ok n
    ∧ is_open (s_db s) t scope n = negb tripped ∧ is_open (s_db s') t scope n = tripped
    ∧ (∀ t' scope' n', (t', scope', n') ≠ (t, scope, n) →
        breaker_rows (s_db s') t' scope' n' = breaker_rows (s_db s) t' scope' n')
    ∧ ∀ later, s_db later = s_db s' →
        (∃ later', latest t scope target later = Ok (Some st, later'))
        ∧ ∀ actor', _transition t scope target actor' reason tripped later
            = raise BreakerConflict ("breaker is already " +:+ (if tripped then "tripped" else "closed")).
Proof.
  intros H. pose proof H as (n & r & Hn & Hbefore & Hd & Hk & Ht & Hlt & ->)%transition_ok.
  pose proof (newest_after t scope n s s' r Hd Hk Hlt) as Hnew.
  exists n. split_and!; [done|done|by unfold is_open; rewrite Hnew| |].
  - intros t' scope' n' Hne. rewrite (breaker_rows_snoc (s_db s) (s_db s') r) by done.
    rewrite decide_False by congruence. by rewrite app_nil_r.
  - intros later Hl. split; [eexists; by rewrite latest_run, Hn, Hl, Hnew|]. intros actor'.
    unfold _transition in H |- *.
    apply tx_bind_ok in H as ([] & ? & [Hr1 ->]%tx_raise_if_ok & H).
    apply tx_bind_ok in H as ([] & ? & [Hr2 ->]%tx_raise_if_ok & _).
    rewrite Hr1, Hr2. unfold mbind, Tx_bind, tx_raise_if, lift_result. cbn -[latest].
    rewrite Hn. cbn -[latest]. rewrite latest_run, Hn. cbn. rewrite Hl, Hnew. cbn.
    by rewrite Ht, eqb_refl.
Qed.

Lemma first_open_ok t breakers s o s' :
  first_open t breakers s = Ok (o, s') →
  (is_Some o ↔ Exists (λ b, ∃ n, normalize_breaker_target (fst b) (snd b) = Ok n
                         ∧ is_open (s_db s) t (fst b) n = true) breakers).
Proof.
  revert s. induction breakers as [|[scope target] breakers IH]; intros s H; cbn in H.
  { tx_inv. split; [by intros []|by intros ?%Exists_nil]. }
  apply tx_bind_ok in H as (state & s1 & Hl & H). rewrite latest_run in Hl.
  destruct (normalize_breaker_target scope target) as [n|] eqn:Hn; [|done]. injection Hl as <- <-.
  rewrite Exists_cons. cbn [fst snd].
  assert (is_Some (open_state (breaker_state scope <$> newest (breaker_rows (s_db s) t scope n)))
    ↔ is_open (s_db s) t scope n = true) as Hst.
  { rewrite is_open_state. destruct (_ <$> _) as [c|]; cbn; [|split; [by intros []|done]].
    destruct (bs_tripped c); split; try done; by intros []. }
  destruct (open_state _) as [c|] eqn:Eo.
  - tx_inv. split; [intros _; left; exists n; split; [done|]; by apply Hst|eauto].
  - apply IH in H. cbn in H. rewrite H. split; [by right|]. intros [(n' & [= <-]%(eq_trans (eq_sym Hn)) & Ho)|]; [|done].
    apply Hst in Ho as [? [=]].
Qed.

(** What the gates report is what the histories say: model calls are stopped
    exactly when the tenant's [all] or [model_calls] breaker is open, outbound
    messages exactly when [all] or [outbound_messages] is, and an action type
    exactly when [all] or its own capability breaker is. *)
Theorem open_gates_match_breakers t action_type s :
  (∀ o s', open_for_model_calls t s = Ok (o, s') →
    (is_Some o ↔ is_open (s_db s) t ALL "" = true ∨ is_open (s_db s) t MODEL_CALLS "" = true))
  ∧ (∀ o s', open_for_outbound t s = Ok (o, s') →
    (is_Some o ↔ is_open (s_db s) t ALL "" = true ∨ is_open (s_db s) t OUTBOUND_MESSAGES "" = true))
  ∧ (∀ o s', is_blank action_type = false → (py_len (strip action_type) <= 200)%nat →
    open_for_capability t action_type s = Ok (o, s') →
    (is_Some o ↔ is_open (s_db s) t ALL "" = true
                 ∨ is_open (s_db s) t CAPABILITY (strip action_type) = true)).
Proof.
  split_and!; intros o s'.
  1-2: intros H%first_open_ok; rewrite H, !Exists_cons, Exists_nil; cbn; naive_solver.
  intros Hb Hl%Nat.ltb_ge H%first_open_ok. rewrite H, !Exists_cons, Exists_nil.
  unfold normalize_breaker_target. cbn [fst snd]. rewrite Hb, Hl. cbn. naive_solver.
Qed.

(** ** Examples *)

Definition ex_process_row : ProcessInstance := mkProcessInstance (uuid 20) (uuid 10)
  "booking_follow_up" "1" "m" "c" "d" "acme" "r" "tiramisu.acme.r" PS_ACTIVE "process/20" None
  ∅ ∅ ∅ None [] [] [] [] [] [] 0 (days 80).
Definition ex_budget_db : Db := empty_db <| tenants := [mkTenant (uuid 10) "acme" "Acme" TS_ACTIVE "acme"] |>
  <| process_instances := [ex_process_row] |>.
(** A session that reads the clock at [now] and draws identifiers from [base]. *)
Definition ex_session (d : Db) (now : Z) (base : N) : Session :=
  mkSession d None now (λ _, now) 0 (λ n, uuid (base + N.of_nat n)) 0.

Definition ex_record (s : Session) : result (UUID * Session) :=
  record (uuid 10) (uuid 20) (uuid 30) 1 "gpt-4o" (mkUsage 1000 200) 4500 1 (uuid 0) s.

Lemma usage_is_charged_once_witness :
  ∃ s', ex_record (ex_session ex_budget_db (days 81) 100) = Ok (uuid 100, s')
    ∧ ∃ later', ex_record (s' <| s_tenant := None |>) = Ok (uuid 100, later') ∧ s_db later' = s_db s'.
Proof.
  eexists. split; [vm_compute; reflexivity|].
  eapply (usage_is_charged_once (uuid 10) (uuid 20) (uuid 30) 1 "gpt-4o" (mkUsage 1000 200) 4500 1 (uuid 0)
    (ex_session ex_budget_db (days 81) 100)); [vm_compute; reflexivity|reflexivity].
Defined.

Definition ex_budget : ModelBudget := mkBudget 1500 1000 2000 10000.

Lemma overspend_is_bounded_by_one_call_witness :
  let after := spend (no_usage, 0) [(mkUsage 1000 200, 4500); (mkUsage 1000 300, 4600)] in
  input_tokens (fst after) < 2500 ∧ output_tokens (fst after) < 1300
  ∧ total_tokens (fst after) < 3300 ∧ snd after < 14600.
Proof.
  apply (overspend_is_bounded_by_one_call ex_budget (no_usage, 0) _ (mkUsage 1000 300) 4600); [done| |].
  - cbn. split_and!; try done; eexists; split; reflexivity.
  - repeat constructor; vm_compute; discriminate.
Defined.

Lemma call_estimates_approximate_the_total_witness :
  sum_of id [0; 0] <= 1 <= sum_of id [0; 0] + 2 * 2.
Proof.
  apply (call_estimates_approximate_the_total "gpt-4o-mini" DEFAULT_MODEL_PRICES
    [mkUsage 4 0; mkUsage 4 0] [0; 0] 1); [repeat constructor|reflexivity].
Defined.

Lemma breaker_transitions_alternate_witness :
  ∃ st s' n, trip (uuid 10) CAPABILITY " refund " (uuid 50) "incident" (ex_session ex_budget_db 5 100)
      = Ok (st, s')
    ∧ normalize_breaker_target CAPABILITY " refund " = Ok n ∧ is_open (s_db s') (uuid 10) CAPABILITY n = true.
Proof.
  eexists _, _, "refund"%string. split; [vm_compute; reflexivity|].
  edestruct (breaker_transitions_alternate (uuid 10) CAPABILITY " refund " (uuid 50) "incident" true
    (ex_session ex_budget_db 5 100)) as (n & Hn & _ & Ho & _); [vm_compute; reflexivity|].
  assert (n = "refund"%string) as -> by (vm_compute in Hn; congruence). split; [exact Hn|exact Ho].
Defined.

Lemma open_gates_match_breakers_witness :
  ∃ o s', open_for_outbound (uuid 10) (ex_session ex_budget_db 5 100) = Ok (o, s')
    ∧ (is_Some o ↔ is_open ex_budget_db (uuid 10) ALL "" = true
                   ∨ is_open ex_budget_db (uuid 10) OUTBOUND_MESSAGES "" = true).
Proof.
  eexists _, _. split; [vm_compute; reflexivity|].
  refine (proj1 (proj2 (open_gates_match_breakers (uuid 10) "refund" (ex_session ex_budget_db 5 100)))
    _ _ _).
  vm_compute. reflexivity.
Defined.
