(* ===== verification/CommunicationSafety.v ===== *)
(** * [communications/safety.py]: the send budget of a process

    [CommunicationSafetyService] collects, inside a transaction, the durable
    reservations and the inbound events of a process and evaluates
    [evaluate_communication_safety] on them. *)

From stdpp Require Import base gmap list strings sorting sets.
From Stdlib Require Import ZArith Lia.
From S2P Require Import Prelude Python PyTime Json Limits Contracts Definitions Communications Schema Session.

#[local] Open Scope Z_scope.

(** [_RESERVED_OUTBOUND_STATUSES] *)
Definition reserved_outbound (s : ActionRequestStatus) : bool :=
  match s with
  | ALLOWED | PENDING_APPROVAL | APPROVED | EXECUTING | SUCCEEDED | UNKNOWN | RECONCILING => true
  | DENIED | REJECTED | SUPERSEDED | FAILED | CONFLICT => false
  end.

(** [value in xs] for a frozenset of strings. *)
Definition member (value : string) (xs : list string) : bool := bool_decide (value ∈ xs).

(** The rows that reserve or record an outbound message of a process. *)
Definition is_reservation (tenant_id process_id : UUID) (policy : CommunicationPolicy)
    (r : ActionRequest) : bool :=
  eqb (ar_tenant_id r) tenant_id && eqb (ar_process_instance_id r) process_id
  && member (ar_action_type r) (cp_outbound_action_types policy) && reserved_outbound (ar_status r).

(** [ORDER BY created_at DESC, id] *)
Definition request_order (r r' : ActionRequest) : Prop :=
  ar_created_at r' < ar_created_at r
  ∨ ar_created_at r = ar_created_at r' ∧ (uuid_int (ar_id r) <= uuid_int (ar_id r'))%N.
#[export] Instance request_order_dec r r' : Decision (request_order r r') := _.

(** A matched inbound event of a process, of one of some types. *)
Definition is_matched_event (tenant_id process_instance_id : UUID) (event_types : list string)
    (e : EventInbox) : bool :=
  eqb (ei_tenant_id e) tenant_id && eqb (ei_process_instance_id e) (Some process_instance_id)
  && eqb (ei_correlation_status e) CS_MATCHED && member (ei_event_type e) event_types.

Definition _latest_event_time (tenant_id process_instance_id : UUID) (event_types : list string)
  : Tx (option Z) :=
  if negb (nonempty event_types) then mret None
  else
    rows ← select (is_matched_event tenant_id process_instance_id event_types);
    mret (ei_received_at <$> newest_by ei_received_at ei_id rows).

Definition _active_automated_response_time (tenant_id process_instance_id : UUID)
    (reply_event_types automated_response_event_types : list string) : Tx (option Z) :=
  if negb (nonempty automated_response_event_types) then mret None
  else
    rows ← select (is_matched_event tenant_id process_instance_id
                     (reply_event_types ++ automated_response_event_types));
    mret (match newest_by ei_received_at ei_id rows with
          | Some e => if member (ei_event_type e) automated_response_event_types
                      then Some (ei_received_at e) else None
          | None => None
          end).

Section inspect.
Context `{Zones}.

(** [CommunicationSafetyService.inspect] *)
Definition inspect (tenant_id : UUID) (process : ProcessInstance) (policy : CommunicationPolicy)
    (now : datetime) (current_action_request_id : option UUID) : Tx CommunicationSafetySnapshot :=
  _ ← tx_raise_if (is_naive now) ValueError
        "communication policy evaluation time must be timezone-aware";
  let now := astimezone_utc now in
  found ← select (is_reservation tenant_id (pi_id process) policy);
  let action_rows := merge_sort request_order found in
  let is_current r := eqb (Some (ar_id r)) current_action_request_id in
  _ ← tx_raise_if (bool_decide (is_Some current_action_request_id)
                   && negb (existsb is_current action_rows)) ValueError
        "current outbound action is not a durable communication reservation";
  last_human_reply_at ← _latest_event_time tenant_id (pi_id process) (cp_reply_event_types policy);
  opted_out_at ← _latest_event_time tenant_id (pi_id process) (cp_opt_out_event_types policy);
  latest_automated_response_at ← _active_automated_response_time tenant_id (pi_id process)
    (cp_reply_event_types policy) (cp_automated_response_event_types policy);
  lift_result (evaluate_communication_safety policy {|
    csf_process_created_at := utc (pi_created_at process);
    csf_outbound_message_times := utc ∘ ar_created_at <$> action_rows;
    csf_prior_outbound_message_times :=
      Some (utc ∘ ar_created_at <$> List.filter (λ r, negb (is_current r)) action_rows);
    csf_last_human_reply_at := utc <$> last_human_reply_at;
    csf_latest_automated_response_at := utc <$> latest_automated_response_at;
    csf_opted_out_at := utc <$> opted_out_at;
    csf_reserve_next_message := bool_decide (current_action_request_id = None)
  |} now).
End inspect.

(** [CommunicationSafetyService.process_lifetime_block] *)
Definition process_lifetime_block (process : ProcessInstance) (policy : CommunicationPolicy)
    (now : datetime) : result (option CommunicationBlock) :=
  evaluate_process_lifetime (utc (pi_created_at process)) policy now.

(** An inspection only reads. *)
Lemma reads_event_time u t p types : reads_only u (_latest_event_time t p types).
Proof. unfold _latest_event_time. reads. Qed.
Lemma reads_automated_time u t p r a : reads_only u (_active_automated_response_time t p r a).
Proof. unfold _active_automated_response_time. reads. Qed.
#[export] Hint Resolve reads_event_time reads_automated_time : reads.
Lemma reads_inspect `{Zones} u t process policy now current :
  reads_only u (inspect t process policy now current).
Proof. unfold inspect. reads. Qed.
#[export] Hint Resolve reads_inspect : reads.

(** ** What an inspection evaluates *)

(** The reservations of a process, the latest matched event of some types, and the
    time of an unanswered automated response, read off the database. *)
Definition reservations (d : Db) (t p : UUID) (policy : CommunicationPolicy) : list ActionRequest :=
  merge_sort request_order (List.filter (is_reservation t p policy) (action_requests d)).

Definition latest_event (d : Db) (t p : UUID) (types : list string) : option EventInbox :=
  newest_by ei_received_at ei_id (List.filter (is_matched_event t p types) (event_inbox d)).

Definition automated_time (d : Db) (t p : UUID) (policy : CommunicationPolicy) : option Z :=
  match latest_event d t p (cp_reply_event_types policy ++ cp_automated_response_event_types policy) with
  | Some e => if member (ei_event_type e) (cp_automated_response_event_types policy)
              then Some (ei_received_at e) else None
  | None => None
  end.

Definition durable_facts (d : Db) (t : UUID) (process : ProcessInstance) (policy : CommunicationPolicy)
    (current : option UUID) : UtcFacts :=
  let p := pi_id process in
  mkUtcFacts (pi_created_at process) (ar_created_at <$> reservations d t p policy)
    (ar_created_at <$> List.filter (λ r, negb (eqb (Some (ar_id r)) current)) (reservations d t p policy))
    (ei_received_at <$> latest_event d t p (cp_reply_event_types policy))
    (automated_time d t p policy)
    (ei_received_at <$> latest_event d t p (cp_opt_out_event_types policy))
    (if bool_decide (current = None) then 1 else 0).

(** The same facts as the service passes them. *)
Definition collected_facts (d : Db) (t : UUID) (process : ProcessInstance) (policy : CommunicationPolicy)
    (current : option UUID) : CommunicationSafetyFacts :=
  let p := pi_id process in
  mkFacts (utc (pi_created_at process)) (utc ∘ ar_created_at <$> reservations d t p policy)
    (Some (utc ∘ ar_created_at
             <$> List.filter (λ r, negb (eqb (Some (ar_id r)) current)) (reservations d t p policy)))
    (utc <$> (ei_received_at <$> latest_event d t p (cp_reply_event_types policy)))
    (utc <$> automated_time d t p policy)
    (utc <$> (ei_received_at <$> latest_event d t p (cp_opt_out_event_types policy)))
    (bool_decide (current = None)).

Lemma all_as_utc_utc {A} (f : A → Z) xs label : all_as_utc (utc ∘ f <$> xs) label = Ok (f <$> xs).
Proof.
  induction xs as [|x xs IH]; cbn; [done|]. rewrite IH. unfold _as_utc, instant. cbn.
  by rewrite Z.sub_0_r.
Qed.

Lemma optional_as_utc_utc o label : _optional_as_utc (utc <$> o) label = Ok o.
Proof. destruct o as [t|]; cbn; [|done]. unfold _as_utc, instant. cbn. by rewrite Z.sub_0_r. Qed.

Lemma matched_event_tenant t p types e : is_matched_event t p types e = true → row_tenant e = t.
Proof. revert e. unfold is_matched_event. tenant_first. Qed.
Lemma reservation_tenant t p policy r : is_reservation t p policy r = true → row_tenant r = t.
Proof. revert r. unfold is_reservation. tenant_first. Qed.

Lemma filter_no_type t p xs : List.filter (is_matched_event t p []) xs = [].
Proof.
  induction xs as [|x xs IH]; cbn; [done|]. unfold is_matched_event, member at 1.
  rewrite bool_decide_false by set_solver. by rewrite andb_false_r.
Qed.

Lemma latest_event_run t p types s :
  s_tenant s = Some t →
  _latest_event_time t p types s = Ok (ei_received_at <$> latest_event (s_db s) t p types, s).
Proof.
  intros Hs. unfold _latest_event_time, latest_event. destruct types as [|x types]; cbn -[select].
  - rewrite filter_no_type. done.
  - unfold mbind, Tx_bind. by rewrite (select_run s t) by (done || apply matched_event_tenant).
Qed.

Lemma automated_run t p policy s :
  s_tenant s = Some t →
  _active_automated_response_time t p (cp_reply_event_types policy)
    (cp_automated_response_event_types policy) s
  = Ok (automated_time (s_db s) t p policy, s).
Proof.
  intros Hs. unfold _active_automated_response_time, automated_time, latest_event.
  destruct (cp_automated_response_event_types policy) as [|x types] eqn:E; cbn -[select].
  - unfold mret, Tx_ret, member. destruct (newest_by _ _ _) as [e|]; [|done].
    by rewrite bool_decide_false by set_solver.
  - unfold mbind, Tx_bind. by rewrite (select_run s t) by (done || apply matched_event_tenant).
Qed.

Section inspection.
Context `{Zones}.

(** The inspection fails only on a naive time or a current action that holds no
    reservation; otherwise it decides [ContactAllowed] on the durable facts. *)
Lemma inspect_run t process policy now current s :
  s_tenant s = Some t → is_naive now = false →
  (∀ id, current = Some id →
    existsb (λ r, eqb (Some (ar_id r)) current) (reservations (s_db s) t (pi_id process) policy) = true) →
  ∃ snap, inspect t process policy now current s = Ok (snap, s)
    ∧ (css_outbound_allowed_now snap = true ↔ css_blocks snap = [])
    ∧ (css_outbound_allowed_now snap = true ↔
       ContactAllowed policy (durable_facts (s_db s) t process policy current) (instant now)).
Proof.
  intros Hs Hn Hc.
  assert (bool_decide (is_Some current) && negb (existsb (λ r, eqb (Some (ar_id r)) current)
    (reservations (s_db s) t (pi_id process) policy)) = false) as Hc'.
  { destruct current as [id|]; [|done]. by rewrite (Hc id eq_refl). }
  destruct (evaluation_allows policy (collected_facts (s_db s) t process policy current)
    (astimezone_utc now) (durable_facts (s_db s) t process policy current)) as (snap & Hev & Hal & Hiff).
  - done.
  - unfold utc_facts, collected_facts. cbn -[all_as_utc _optional_as_utc]. rewrite !all_as_utc_utc. cbn -[_optional_as_utc].
    rewrite !optional_as_utc_utc. cbn. unfold durable_facts, instant. cbn. by rewrite Z.sub_0_r.
  - exists snap. split.
    + unfold inspect, mbind, Tx_bind, tx_raise_if, lift_result. rewrite Hn. cbn -[select inspect].
      rewrite (select_run s t) by (done || apply reservation_tenant).
      change (merge_sort request_order _) with (reservations (s_db s) t (pi_id process) policy).
      rewrite Hc'. cbn -[_latest_event_time _active_automated_response_time evaluate_communication_safety].
      rewrite (latest_event_run t) by done. rewrite (latest_event_run t) by done.
      rewrite automated_run by done.
      transitivity (lift_result (evaluate_communication_safety policy
        (collected_facts (s_db s) t process policy current) (astimezone_utc now)) s); [reflexivity|].
      unfold lift_result. by rewrite Hev.
    + rewrite Hal, nonempty_false, Hiff. split; [done|]. unfold astimezone_utc, utc, instant at 1. cbn. by rewrite Z.sub_0_r.
Qed.

Lemma latest_event_None d t p types e :
  e ∈ event_inbox d → is_matched_event t p types e = true → latest_event d t p types ≠ None.
Proof.
  intros Hin He Hl%newest_by_None. apply (not_elem_of_nil e). rewrite <- Hl.
  by apply elem_of_filter_bool.
Qed.


Lemma count_Permutation p xs ys : xs ≡ₚ ys → count p xs = count p ys.
Proof.
  intros Hp. unfold count. f_equal. induction Hp as [|x xs ys _ IH|x y xs|xs ys zs _ IH1 _ IH2]; cbn; try lia.
  - destruct (p x); cbn; lia.
  - destruct (p x), (p y); cbn; lia.
Qed.

Lemma count_cons p x xs : count p (x :: xs) = (if p x then 1 else 0) + count p xs.
Proof. unfold count. cbn. destruct (p x); cbn; lia. Qed.

(** Replacing the message about to be reserved by the reservation itself keeps
    contact allowed. *)
Lemma reservation_replaces_next policy u u' now r :
  ContactAllowed policy u now → uf_reservation u = 1 → uf_reservation u' = 0 →
  uf_created_at u' = uf_created_at u → uf_reply u' = uf_reply u → uf_automated u' = uf_automated u →
  uf_opted_out u' = uf_opted_out u → uf_outbound u' ≡ₚ r :: uf_outbound u → uf_prior u' ≡ₚ uf_prior u →
  ContactAllowed policy u' now.
Proof.
  intros [Halive Hopt Hloop Hquiet Hmax Hwindow Hfollow Hint] H1 H0 Hc Hr Ha Ho Hout Hp.
  split; rewrite ?Hc, ?Ha, ?Ho, ?H0, ?Hr; try done.
  - rewrite Hout. cbn. lia.
  - rewrite (count_Permutation _ _ _ Hout), count_cons. case_match; lia.
  - rewrite (count_Permutation _ _ _ Hout), count_cons. case_match; lia.
  - intros x Hx. apply Hint. by rewrite <- Hp.
Qed.
End inspection.

Lemma filter_Permutation {A} (p : A → bool) xs ys : xs ≡ₚ ys → List.filter p xs ≡ₚ List.filter p ys.
Proof.
  induction 1 as [|x xs ys _ IH|x y xs|xs ys zs _ IH1 _ IH2]; cbn; [done| | |by etrans].
  - by destruct (p x); rewrite ?IH.
  - destruct (p x), (p y); try done. apply Permutation_swap.
Qed.

Lemma filter_all {A} (p : A → bool) xs : (∀ x, x ∈ xs → p x = true) → List.filter p xs = xs.
Proof.
  induction xs as [|x xs IH]; cbn; [done|]. intros H. rewrite H by apply list_elem_of_here.
  f_equal. apply IH. intros y Hy. apply H. by apply list_elem_of_further.
Qed.

(** The database after one more reservation. *)
Record Reserved (d d' : Db) (t p : UUID) (policy : CommunicationPolicy) (r : ActionRequest) : Prop := {
  rs_events : event_inbox d' = event_inbox d;
  rs_requests : action_requests d' = action_requests d ++ [r];
  rs_reservation : is_reservation t p policy r = true;
  rs_fresh : Forall (λ r', ar_id r' ≠ ar_id r) (action_requests d)
}.

Lemma reserved_outbound_rows d d' t p policy r :
  Reserved d d' t p policy r → reservations d' t p policy ≡ₚ r :: reservations d t p policy.
Proof.
  intros [_ Hreq Hres _]. unfold reservations. rewrite !merge_sort_Permutation, Hreq, List.filter_app.
  cbn. rewrite Hres. by rewrite Permutation_app_comm.
Qed.

Lemma reserved_prior_rows d d' t p policy r :
  Reserved d d' t p policy r →
  List.filter (λ x, negb (eqb (Some (ar_id x)) (Some (ar_id r)))) (reservations d' t p policy)
  ≡ₚ reservations d t p policy.
Proof.
  intros H. rewrite (filter_Permutation _ _ _ (reserved_outbound_rows _ _ _ _ _ _ H)). cbn.
  rewrite eqb_refl. cbn. rewrite filter_all; [done|].
  intros x Hx. unfold reservations in Hx. rewrite merge_sort_Permutation in Hx.
  apply elem_of_filter_bool in Hx as [_ Hx].
  apply negb_true_iff, eqb_neq. intros [= E].
  by apply (proj1 (Forall_forall _ _) (rs_fresh _ _ _ _ _ _ H) x Hx).
Qed.

Section reservation.
Context `{Zones}.

(** A reservation made when contact was allowed can be used: if an inspection
    for a new message allows contact and the proposal is then stored as a
    reservation of the process, the inspection the executor makes for that very
    action, at the same instant and before anything else changes, allows
    contact too; the reservation is counted once, and not as a prior message. *)
Theorem reservation_carries_to_execution t process policy now s snap s1 s' r :
  s_tenant s = Some t → s_tenant s' = Some t → is_naive now = false →
  Reserved (s_db s) (s_db s') t (pi_id process) policy r →
  inspect t process policy now None s = Ok (snap, s1) → css_outbound_allowed_now snap = true →
  ∃ snap', inspect t process policy now (Some (ar_id r)) s' = Ok (snap', s')
    ∧ css_outbound_allowed_now snap' = true.
Proof.
  intros Hs Hs' Hn Hr Hi Ha.
  pose proof (reserved_outbound_rows _ _ _ _ _ _ Hr) as Hrows.
  destruct (inspect_run t process policy now None s Hs Hn) as (snap0 & Hi0 & _ & Hal0); [done|].
  rewrite Hi in Hi0. injection Hi0 as <- ->.
  destruct (inspect_run t process policy now (Some (ar_id r)) s' Hs' Hn) as (snap' & Hi' & _ & Hal').
  { intros id [= <-]. apply existsb_exists. exists r. split; [|apply eqb_refl].
    apply list_elem_of_In. rewrite Hrows. apply list_elem_of_here. }
  exists snap'. split; [done|]. apply Hal'.
  unfold durable_facts, latest_event, automated_time, latest_event in *.
  rewrite (rs_events _ _ _ _ _ _ Hr).
  eapply (reservation_replaces_next _ _ _ _ (ar_created_at r)); [by apply Hal0|done..| |]; cbn.
  - by rewrite Hrows.
  - rewrite (reserved_prior_rows _ _ _ _ _ _ Hr). by rewrite filter_all.
Qed.
End reservation.

(** ** Examples *)

Definition ex_contact_process : ProcessInstance := mkProcessInstance (uuid 20) (uuid 10)
  "booking_follow_up" "1" "m" "c" "d" "acme" "r" "tiramisu.acme.r" PS_ACTIVE "process/20" None
  ∅ ∅ ∅ None [] [] [] [] [] [] 0 (days 80).
Definition ex_event (event_type : string) : CanonicalEvent := mkEvent (uuid 40) (uuid 10) None event_type
  "email" "m-1" (utc (days 81)) (utc (days 81)) 1 INTERNAL
  [mkReference "booking" "id" "b-1"] [mkFact "booking.status" AUTHORITATIVE (JStr "confirmed")] [].
Definition ex_opt_out : EventInbox := mkEventInbox (uuid 40) (uuid 10) (Some (uuid 20)) "email" "m-1"
  "customer.opted_out" (ex_event "customer.opted_out") CS_MATCHED None (days 81) (days 81).
Definition ex_contact_db : Db := empty_db <| process_instances := [ex_contact_process] |>.
Definition ex_contact_session (d : Db) : Session :=
  mkSession d (Some (uuid 10)) (days 87) (λ _, days 87) 0 (λ n, uuid (100 + N.of_nat n)) 0.
Definition ex_contact_request : ActionRequest := mkActionRequest (uuid 60) (uuid 10) (uuid 20) (uuid 30)
  "greet" "send_message" "1" None 1 ALLOWED (days 87).


Lemma reservation_carries_to_execution_witness :
  ∃ snap', inspect (uuid 10) ex_contact_process ex_send_policy (utc (days 87 + hours 14)) (Some (uuid 60))
      (ex_contact_session (ex_contact_db <| action_requests := [ex_contact_request] |>))
    = Ok (snap', ex_contact_session (ex_contact_db <| action_requests := [ex_contact_request] |>))
    ∧ css_outbound_allowed_now snap' = true.
Proof.
  eapply (reservation_carries_to_execution (uuid 10) ex_contact_process ex_send_policy
    (utc (days 87 + hours 14)) (ex_contact_session ex_contact_db) _ _ _ ex_contact_request);
    [reflexivity|reflexivity|reflexivity| |vm_compute; reflexivity|reflexivity].
  split; [reflexivity|reflexivity|vm_compute; reflexivity|constructor].
Defined.
