(* ===== verification/Reviews.v ===== *)
(** * [reviews/service.py]: human review commands

    [ReviewService.apply] is one transaction.  It locks the process and the
    approval, refuses a stale or decided proposal, applies the command and
    schedules its delivery to the workflow through the outbox. *)

From stdpp Require Import base gmap list strings sets.
From Stdlib Require Import ZArith Lia.
From S2P Require Import Prelude Python PyTime Json Limits Contracts Schema Session.

#[local] Open Scope Z_scope.

Record ReviewResult := mkReviewResult {
  rr_command_id : string; rr_thread_status : string; rr_approval_status : string; rr_action_status : string
}.

Definition _review_result (c : ReviewCommand) (thread : ThreadStatus) (approval : ApprovalStatus)
    (action : ActionRequestStatus) : ReviewResult :=
  mkReviewResult (str_uuid (rc_command_id c)) (thread_status_value thread)
    (approval_status_value approval) (request_status_value action).

(** [existing] was stored by another command. *)
Definition reused_with_different_content (c : ReviewCommand) (existing : ReviewMessage)
    (approval : ApprovalRequest) : bool :=
  negb (eqb (rm_review_thread_id existing) (rc_review_thread_id c))
  || negb (eqb (rm_message_type existing) (rc_command_type c))
  || negb (eqb (rm_actor_id existing) (rc_actor_id c))
  || negb (eqb (rm_content existing) (rc_message c))
  || negb (rm_proposal_revision existing =? rc_proposal_revision c)
  || (eqb (rc_command_type c) RC_APPROVE
      && negb (eqb (rc_expected_payload_hash c) (Some (apq_payload_hash approval)))).

(** The row that records an approval or a rejection. *)
Definition decision_row (c : ReviewCommand) (approval : ApprovalRequest) (decision : ApprovalOutcome)
    (now : Z) : ApprovalDecision :=
  mkApprovalDecision (rc_command_id c) (rc_tenant_id c) (rc_process_instance_id c) (apq_id approval)
    (rc_actor_id c) decision (apq_payload_hash approval) (rc_message c) now.

(** The assignments to the three statuses. *)
Definition set_statuses (thread : ReviewThread) (approval : ApprovalRequest) (request : ActionRequest)
    (t : ThreadStatus) (a : ApprovalStatus) (r : ActionRequestStatus) : Tx unit :=
  _ ← update (apq_id approval) (λ x : ApprovalRequest, x <| apq_status := a |>);
  _ ← update (ar_id request) (λ x : ActionRequest, x <| ar_status := r |>);
  update (rt_id thread) (λ x : ReviewThread, x <| rt_status := t |>).

(** The branches on the command type; the statuses they leave. *)
Definition apply_command (c : ReviewCommand) (thread : ReviewThread) (approval : ApprovalRequest)
    (request : ActionRequest) : Tx (ThreadStatus * ApprovalStatus * ActionRequestStatus) :=
  now ← transaction_now;
  match rc_command_type c with
  | RC_APPROVE =>
      _ ← tx_raise_if (negb (eqb (rc_expected_payload_hash c) (Some (apq_payload_hash approval))))
            ReviewConflict "approval payload hash does not match the current proposal";
      _ ← set_statuses thread approval request TH_APPROVED AP_APPROVED APPROVED;
      _ ← insert (decision_row c approval OUTCOME_APPROVED now);
      mret (TH_APPROVED, AP_APPROVED, APPROVED)
  | RC_REJECT =>
      _ ← set_statuses thread approval request TH_REJECTED AP_REJECTED REJECTED;
      _ ← insert (decision_row c approval OUTCOME_REJECTED now);
      mret (TH_REJECTED, AP_REJECTED, REJECTED)
  | RC_REQUEST_REVISION =>
      _ ← set_statuses thread approval request TH_REVISION_REQUESTED AP_SUPERSEDED SUPERSEDED;
      mret (TH_REVISION_REQUESTED, AP_SUPERSEDED, SUPERSEDED)
  | RC_COMMENT => mret (rt_status thread, apq_status approval, ar_status request)
  | t => tx_raise ReviewConflict ("unsupported review command: " +:+ review_type_value t)
  end.

Definition review_payload (c : ReviewCommand) : list (string * json) :=
  [("command_id", JStr (str_uuid (rc_command_id c)));
   ("command_type", JStr (review_type_value (rc_command_type c)));
   ("review_thread_id", JStr (str_uuid (rc_review_thread_id c)));
   ("action_request_id", JStr (str_uuid (rc_action_request_id c)));
   ("proposal_revision", JInt (rc_proposal_revision c))]%string.

(** The message, the delivery and the result. *)
Definition record_command (c : ReviewCommand) : Tx unit :=
  now ← transaction_now;
  _ ← insert (mkReviewMessage (rc_command_id c) (rc_tenant_id c) (rc_process_instance_id c)
                (rc_review_thread_id c) (rc_actor_id c) (rc_command_type c) (rc_message c)
                (rc_proposal_revision c) now);
  process ← scalar (λ p : ProcessInstance, eqb (pi_tenant_id p) (rc_tenant_id c)
                                           && eqb (pi_id p) (rc_process_instance_id c));
  match process with
  | None => tx_raise ReviewConflict "review process has no workflow identity"
  | Some p =>
      id ← draw_uuid;
      _ ← insert_or_skip same_dedup (new_outbox_message id (rc_tenant_id c) (rc_process_instance_id c) None
            "temporal.process_review" (pi_workflow_id p)
            ("process-review:" +:+ str_uuid (rc_command_id c)) (review_payload c) now);
      mret tt
  end.

(** [approval.expires_at is not None and approval.expires_at <= datetime.now(UTC)] *)
Definition approval_expired (a : ApprovalRequest) : Tx bool :=
  match apq_expires_at a with
  | Some t => now ← utcnow; mret (t <=? now)
  | None => mret false
  end.

(** What the command is checked against, loaded and locked. *)
Record ReviewTarget := mkReviewTarget {
  rv_thread : ReviewThread; rv_approval : ApprovalRequest; rv_request : ActionRequest
}.

Definition load_target (c : ReviewCommand) : Tx ReviewTarget :=
  thread ← scalar (λ t : ReviewThread, eqb (rt_tenant_id t) (rc_tenant_id c)
    && eqb (rt_process_instance_id t) (rc_process_instance_id c) && eqb (rt_id t) (rc_review_thread_id c));
  match thread with
  | None => tx_raise ReviewConflict "review thread not found"
  | Some thread =>
      process ← scalar (λ p : ProcessInstance, eqb (pi_tenant_id p) (rc_tenant_id c)
                                               && eqb (pi_id p) (rc_process_instance_id c));
      match process with
      | None => tx_raise ReviewConflict "review process not found"
      | Some process =>
          _ ← tx_raise_if (is_halted (pi_status process)) ReviewConflict
                ("process state does not permit a review decision: "
                 +:+ process_status_value (pi_status process));
          approval ← scalar (λ a : ApprovalRequest, eqb (apq_tenant_id a) (rc_tenant_id c)
            && eqb (apq_process_instance_id a) (rc_process_instance_id c)
            && eqb (apq_id a) (rt_approval_request_id thread));
          request ← scalar (λ r : ActionRequest, eqb (ar_tenant_id r) (rc_tenant_id c)
            && eqb (ar_process_instance_id r) (rc_process_instance_id c)
            && eqb (ar_id r) (rc_action_request_id c));
          match approval, request with
          | Some approval, Some request =>
              _ ← tx_raise_if (negb (eqb (apq_action_request_id approval) (rc_action_request_id c))
                    || negb (apq_revision approval =? rc_proposal_revision c)
                    || negb (ar_current_revision request =? rc_proposal_revision c)) ReviewConflict
                    "review command targets a stale proposal revision";
              mret (mkReviewTarget thread approval request)
          | _, _ => tx_raise ReviewConflict "review target not found"
          end
      end
  end.

(** [ReviewService.apply] *)
Definition apply_review (c : ReviewCommand) : Tx ReviewResult :=
  _ ← set_tenant_context (rc_tenant_id c);
  existing ← scalar (λ m : ReviewMessage, eqb (rm_tenant_id m) (rc_tenant_id c)
                                          && eqb (rm_id m) (rc_command_id c));
  target ← load_target c;
  let thread := rv_thread target in
  let approval := rv_approval target in
  let request := rv_request target in
  match existing with
  | Some existing =>
      _ ← tx_raise_if (reused_with_different_content c existing approval) ReviewConflict
            "review command ID was reused with different content";
      mret (_review_result c (rt_status thread) (apq_status approval) (ar_status request))
  | None =>
      _ ← tx_raise_if (negb (eqb (apq_status approval) AP_PENDING) || negb (eqb (rt_status thread) TH_OPEN))
            ReviewConflict "review is no longer pending";
      expired ← approval_expired approval;
      _ ← tx_raise_if expired ReviewConflict "approval has expired";
      '(t, a, r) ← apply_command c thread approval request;
      _ ← record_command c;
      mret (_review_result c t a r)
  end.

(** ** The rows a command touches *)

Definition with_status (a : ApprovalStatus) (x : ApprovalRequest) : ApprovalRequest := x <| apq_status := a |>.
Definition with_action (r : ActionRequestStatus) (x : ActionRequest) : ActionRequest := x <| ar_status := r |>.
Definition with_thread (t : ThreadStatus) (x : ReviewThread) : ReviewThread := x <| rt_status := t |>.

(** The database after the three assignments. *)
Definition decided_db (tenant : UUID) (th : ReviewThread) (ap : ApprovalRequest) (rq : ActionRequest)
    (t : ThreadStatus) (a : ApprovalStatus) (r : ActionRequestStatus) (d : Db) : Db :=
  d <| approval_requests := touch tenant (apq_id ap) (with_status a) <$> approval_requests d |>
    <| action_requests := touch tenant (ar_id rq) (with_action r) <$> action_requests d |>
    <| review_threads := touch tenant (rt_id th) (with_thread t) <$> review_threads d |>.

Lemma set_statuses_run tenant th ap rq t a r s :
  s_tenant s = Some tenant →
  set_statuses th ap rq t a r s = Ok (tt, s <| s_db := decided_db tenant th ap rq t a r (s_db s) |>).
Proof. destruct s as [[] tn ? ? ? ? ?]. cbn. intros ->. reflexivity. Qed.

(** What [apply_command] does: it checks the exact payload of an approval, sets the
    three statuses, and records the decision of an approval or a rejection. *)
Inductive command_effect (c : ReviewCommand) (th : ReviewThread) (ap : ApprovalRequest)
    (rq : ActionRequest) (d : Db) : ThreadStatus * ApprovalStatus * ActionRequestStatus → Db → Prop :=
  | effect_approve rows :
      rc_command_type c = RC_APPROVE → rc_expected_payload_hash c = Some (apq_payload_hash ap) →
      command_effect c th ap rq d (TH_APPROVED, AP_APPROVED, APPROVED)
        (decided_db (rc_tenant_id c) th ap rq TH_APPROVED AP_APPROVED APPROVED d
           <| approval_decisions := rows |>)
  | effect_reject rows :
      rc_command_type c = RC_REJECT →
      command_effect c th ap rq d (TH_REJECTED, AP_REJECTED, REJECTED)
        (decided_db (rc_tenant_id c) th ap rq TH_REJECTED AP_REJECTED REJECTED d
           <| approval_decisions := rows |>)
  | effect_revise :
      rc_command_type c = RC_REQUEST_REVISION →
      command_effect c th ap rq d (TH_REVISION_REQUESTED, AP_SUPERSEDED, SUPERSEDED)
        (decided_db (rc_tenant_id c) th ap rq TH_REVISION_REQUESTED AP_SUPERSEDED SUPERSEDED d)
  | effect_comment :
      rc_command_type c = RC_COMMENT →
      command_effect c th ap rq d (rt_status th, apq_status ap, ar_status rq) d.

Lemma apply_command_ok c th ap rq s v s' :
  s_tenant s = Some (rc_tenant_id c) → apply_command c th ap rq s = Ok (v, s') →
  command_effect c th ap rq (s_db s) v (s_db s') ∧ s_tenant s' = Some (rc_tenant_id c).
Proof.
  intros Hs H. unfold apply_command in H.
  apply tx_bind_ok in H as (now & ? & [_ ->]%transaction_now_ok & H).
  destruct (rc_command_type c) eqn:Ec; cbn in H.
  - apply tx_bind_ok in H as ([] & ? & [Hh ->]%tx_raise_if_ok & H).
    apply negb_false_iff, eqb_true in Hh.
    apply tx_bind_ok in H as ([] & ? & Hset & H). rewrite (set_statuses_run (rc_tenant_id c)) in Hset by done.
    injection Hset as <-. tx_inv. split; [by constructor|done].
  - apply tx_bind_ok in H as ([] & ? & Hset & H). rewrite (set_statuses_run (rc_tenant_id c)) in Hset by done.
    injection Hset as <-. tx_inv. split; [by constructor|done].
  - apply tx_bind_ok in H as ([] & ? & Hset & H). rewrite (set_statuses_run (rc_tenant_id c)) in Hset by done.
    injection Hset as <-. tx_inv. split; [by constructor|done].
  - tx_inv. split; [by constructor|done].
  - done.
  - done.
Qed.

(** [record_command] appends the message, and possibly a delivery. *)
Lemma record_command_ok c s u s' :
  s_tenant s = Some (rc_tenant_id c) → record_command c s = Ok (u, s') →
  ∃ m outbox, s_db s' = s_db s <| review_messages := review_messages (s_db s) ++ [m] |>
                               <| outbox_messages := outbox |>
    ∧ rm_id m = rc_command_id c ∧ rm_tenant_id m = rc_tenant_id c
    ∧ ∀ ap, (rc_command_type c = RC_APPROVE → rc_expected_payload_hash c = Some (apq_payload_hash ap)) →
        reused_with_different_content c m ap = false.
Proof.
  intros Hs H. unfold record_command in H.
  apply tx_bind_ok in H as (now & ? & [_ ->]%transaction_now_ok & H).
  apply tx_bind_ok in H as ([] & ? & [_ ->]%insert_ok & H).
  apply tx_bind_ok in H as (p & ? & [-> _]%scalar_ok & H).
  destruct p as [p|]; [|done].
  apply tx_bind_ok in H as (id & ? & [_ ->]%draw_uuid_ok & H).
  apply tx_bind_ok in H as (o & s2 & Hskip & H). apply mret_ok in H as [_ ->].
  eexists (mkReviewMessage (rc_command_id c) (rc_tenant_id c) (rc_process_instance_id c)
    (rc_review_thread_id c) (rc_actor_id c) (rc_command_type c) (rc_message c) (rc_proposal_revision c) now).
  exists (outbox_messages (s_db s2)). split_and!; [|done|done|].
  - apply insert_or_skip_ok in Hskip as [(_ & _ & ->)|(_ & _ & [_ ->]%insert_ok)]; cbn; by destruct (s_db s).
  - intros ap Hap. unfold reused_with_different_content. cbn. rewrite !eqb_refl, Z.eqb_refl. cbn.
    destruct (eqb (rc_command_type c) RC_APPROVE) eqn:E; [|done]. cbn. apply eqb_true in E.
    by rewrite (Hap E), eqb_refl.
Qed.

(** ** Loading the target again *)

(** The rows [load_target] reads. *)
Record Loaded (c : ReviewCommand) (d : Db) (v : ReviewTarget) : Prop := {
  ld_thread : hd_error (List.filter (λ t : ReviewThread, eqb (rt_tenant_id t) (rc_tenant_id c)
    && eqb (rt_process_instance_id t) (rc_process_instance_id c) && eqb (rt_id t) (rc_review_thread_id c))
    (review_threads d)) = Some (rv_thread v);
  ld_process : ∃ p, hd_error (List.filter (λ p : ProcessInstance, eqb (pi_tenant_id p) (rc_tenant_id c)
    && eqb (pi_id p) (rc_process_instance_id c)) (process_instances d)) = Some p
    ∧ is_halted (pi_status p) = false;
  ld_approval : hd_error (List.filter (λ a : ApprovalRequest, eqb (apq_tenant_id a) (rc_tenant_id c)
    && eqb (apq_process_instance_id a) (rc_process_instance_id c)
    && eqb (apq_id a) (rt_approval_request_id (rv_thread v))) (approval_requests d)) = Some (rv_approval v);
  ld_request : hd_error (List.filter (λ r : ActionRequest, eqb (ar_tenant_id r) (rc_tenant_id c)
    && eqb (ar_process_instance_id r) (rc_process_instance_id c)
    && eqb (ar_id r) (rc_action_request_id c)) (action_requests d)) = Some (rv_request v);
  ld_current : negb (eqb (apq_action_request_id (rv_approval v)) (rc_action_request_id c))
    || negb (apq_revision (rv_approval v) =? rc_proposal_revision c)
    || negb (ar_current_revision (rv_request v) =? rc_proposal_revision c) = false
}.

Lemma load_target_ok c s v s' :
  s_tenant s = Some (rc_tenant_id c) →
  load_target c s = Ok (v, s') ↔ s' = s ∧ Loaded c (s_db s) v.
Proof.
  intros Hs. unfold load_target, mbind, Tx_bind.
  rewrite (scalar_run s (rc_tenant_id c)) by (done || tenant_first). cbn [table ReviewThread_table].
  split.
  - destruct (hd_error (List.filter _ (review_threads _))) as [th|] eqn:Eth; [|done].
    rewrite (scalar_run s (rc_tenant_id c)) by (done || tenant_first). cbn [table ProcessInstance_table].
    destruct (hd_error (List.filter _ (process_instances _))) as [p|] eqn:Ep; [|done].
    unfold tx_raise_if at 1, lift_result. destruct (is_halted (pi_status p)) eqn:Eh; [done|]. cbn -[scalar].
    rewrite (scalar_run s (rc_tenant_id c)) by (done || tenant_first). cbn [table ApprovalRequest_table].
    rewrite (scalar_run s (rc_tenant_id c)) by (done || tenant_first). cbn [table ActionRequest_table].
    destruct (hd_error (List.filter _ (approval_requests _))) as [ap|] eqn:Ea; [|done].
    destruct (hd_error (List.filter _ (action_requests _))) as [rq|] eqn:Er; [|done].
    unfold tx_raise_if, lift_result. destruct (_ || _) eqn:Ec; [done|]. intros [= <- <-].
    split; [done|]. split; try done. eauto.
  - intros [-> [Hth (p & Hp & Hh) Ha Hr Hc]]. rewrite Hth.
    rewrite (scalar_run s (rc_tenant_id c)) by (done || tenant_first). cbn [table ProcessInstance_table].
    rewrite Hp. unfold tx_raise_if at 1, lift_result. rewrite Hh. cbn -[scalar].
    rewrite (scalar_run s (rc_tenant_id c)) by (done || tenant_first). cbn [table ApprovalRequest_table].
    rewrite (scalar_run s (rc_tenant_id c)) by (done || tenant_first). cbn [table ActionRequest_table].
    rewrite Ha, Hr. unfold tx_raise_if, lift_result. rewrite Hc. by destruct v.
Qed.

(** ** What a command does to the database *)

Definition stored_message (c : ReviewCommand) (d : Db) : option ReviewMessage :=
  hd_error (List.filter (λ m : ReviewMessage, eqb (rm_tenant_id m) (rc_tenant_id c)
                                              && eqb (rm_id m) (rc_command_id c)) (review_messages d)).

(** A fresh command: the proposal is pending and open, the command takes effect, and
    its message is stored. *)
Record Applied (c : ReviewCommand) (v : ReviewTarget) (d d' : Db) (res : ReviewResult) : Prop := {
  ap_new : stored_message c d = None;
  ap_pending : apq_status (rv_approval v) = AP_PENDING;
  ap_open : rt_status (rv_thread v) = TH_OPEN;
  ap_effect : ∃ t a r d1 m outbox,
    command_effect c (rv_thread v) (rv_approval v) (rv_request v) d (t, a, r) d1
    ∧ d' = d1 <| review_messages := review_messages d1 ++ [m] |> <| outbox_messages := outbox |>
    ∧ rm_id m = rc_command_id c ∧ rm_tenant_id m = rc_tenant_id c
    ∧ (∀ ap, (rc_command_type c = RC_APPROVE → rc_expected_payload_hash c = Some (apq_payload_hash ap)) →
        reused_with_different_content c m ap = false)
    ∧ res = _review_result c t a r
}.

(** A replay: the stored message has the same content. *)
Record Replayed (c : ReviewCommand) (v : ReviewTarget) (d d' : Db) (res : ReviewResult) : Prop := {
  re_stored : ∃ m, stored_message c d = Some m
    ∧ reused_with_different_content c m (rv_approval v) = false;
  re_same : d' = d;
  re_result : res = _review_result c (rt_status (rv_thread v)) (apq_status (rv_approval v))
                      (ar_status (rv_request v))
}.

Lemma apply_review_ok c s res s' :
  apply_review c s = Ok (res, s') →
  ∃ v, Loaded c (s_db s) v ∧
    (Applied c v (s_db s) (s_db s') res ∨ Replayed c v (s_db s) (s_db s') res).
Proof.
  intros H. unfold apply_review in H.
  apply tx_bind_ok in H as ([] & s1 & ->%set_tenant_context_ok & H).
  apply tx_bind_ok in H as (existing & s1 & He & H).
  rewrite (scalar_run _ (rc_tenant_id c)) in He by (done || tenant_first). injection He as <- <-.
  apply tx_bind_ok in H as (v & s1 & [-> Hv]%load_target_ok & H); [|done].
  exists v. split; [exact Hv|]. cbn [s_db] in *.
  change (hd_error _) with (stored_message c (s_db s)) in H.
  destruct (stored_message c (s_db s)) as [m|] eqn:Em.
  - right. apply tx_bind_ok in H as ([] & ? & [Hr ->]%tx_raise_if_ok & [-> ->]%mret_ok).
    split; [by exists m|done|done].
  - left. apply tx_bind_ok in H as ([] & ? & [Hp ->]%tx_raise_if_ok & H).
    apply orb_false_iff in Hp as [Hp%negb_false_iff%eqb_true Ho%negb_false_iff%eqb_true].
    apply tx_bind_ok in H as (expired & s2 & Hx & H).
    assert (s_db s2 = s_db s ∧ s_tenant s2 = Some (rc_tenant_id c)) as [Hd2 Ht2].
    { unfold approval_expired in Hx. destruct (apq_expires_at _); tx_inv; done. }
    apply tx_bind_ok in H as ([] & ? & [_ ->]%tx_raise_if_ok & H).
    apply tx_bind_ok in H as ([[t a] r] & s3 & Hc & H).
    apply apply_command_ok in Hc as [Hc Ht3]; [|done]. rewrite Hd2 in Hc.
    apply tx_bind_ok in H as ([] & s4 & Hm & [-> ->]%mret_ok).
    apply record_command_ok in Hm as (m & outbox & Hd4 & ? & ? & ?); [|done].
    split; try done. exists t, a, r, (s_db s3), m, outbox. split_and!; done.
Qed.

(** The statuses a command leaves are the statuses a later load finds. *)
Lemma effect_loaded c v d d1 t a r :
  Loaded c d v →
  command_effect c (rv_thread v) (rv_approval v) (rv_request v) d (t, a, r) d1 →
  Loaded c d1 (mkReviewTarget (with_thread t (rv_thread v)) (with_status a (rv_approval v))
                 (with_action r (rv_request v))).
Proof.
  intros Hv He. pose proof Hv as [Hth Hp Ha Hr Hcur]. destruct v as [th ap rq]; cbn in *.
  assert (∀ t' a' r' rows,
    Loaded c (decided_db (rc_tenant_id c) th ap rq t' a' r' d <| approval_decisions := rows |>)
      (mkReviewTarget (with_thread t' th) (with_status a' ap) (with_action r' rq))) as Hdecided.
  { intros t' a' r' rows.
    apply hd_filter_Some in Hth as Hth'. apply hd_filter_Some in Ha as Ha'. apply hd_filter_Some in Hr as Hr'.
    split; cbn; try done.
    - erewrite head_touch; [|done|exact Hth].
      f_equal. apply touch_self; [done|].
      by destruct Hth' as [_ [[?%eqb_true _]%andb_true_iff _]%andb_true_iff].
    - erewrite head_touch; [|done|exact Ha].
      f_equal. apply touch_self; [done|].
      by destruct Ha' as [_ [[?%eqb_true _]%andb_true_iff _]%andb_true_iff].
    - erewrite head_touch; [|done|exact Hr].
      f_equal. apply touch_self; [done|].
      by destruct Hr' as [_ [[?%eqb_true _]%andb_true_iff _]%andb_true_iff]. }
  inversion He; subst; try apply Hdecided.
  by destruct th, ap, rq.
Qed.

Lemma replay_run c s v m :
  Loaded c (s_db s) v → stored_message c (s_db s) = Some m →
  reused_with_different_content c m (rv_approval v) = false →
  apply_review c s = Ok (_review_result c (rt_status (rv_thread v)) (apq_status (rv_approval v))
                           (ar_status (rv_request v)), s <| s_tenant := Some (rc_tenant_id c) |>).
Proof.
  intros Hv Hm Hr.
  assert (load_target c (s <| s_tenant := Some (rc_tenant_id c) |>)
    = Ok (v, s <| s_tenant := Some (rc_tenant_id c) |>)) as Hl by (by apply load_target_ok).
  unfold apply_review, mbind, Tx_bind, set_tenant_context.
  rewrite (scalar_run _ (rc_tenant_id c)) by (done || tenant_first). rewrite Hl.
  change (hd_error _) with (stored_message c (s_db s)). rewrite Hm.
  unfold tx_raise_if, lift_result. by rewrite Hr.
Qed.

Lemma stored_after c d m :
  stored_message c d = None → rm_id m = rc_command_id c → rm_tenant_id m = rc_tenant_id c →
  ∀ d', review_messages d' = review_messages d ++ [m] → stored_message c d' = Some m.
Proof.
  unfold stored_message. intros Hn Hi Ht d' ->. rewrite List.filter_app.
  destruct (List.filter _ (review_messages d)); [|done]. cbn.
  by rewrite Hi, Ht, !eqb_refl.
Qed.

Lemma effect_messages c th ap rq d v d1 :
  command_effect c th ap rq d v d1 → review_messages d1 = review_messages d.
Proof. by intros []. Qed.

(** ** Properties *)

(** A review command takes effect once.  After it succeeded, sending it again,
    from any session on the database it left, returns the same result and
    changes nothing: no status moves, and no second message, decision or
    delivery is stored. *)
Theorem review_commands_apply_once c s res s' :
  apply_review c s = Ok (res, s') →
  ∀ later, s_db later = s_db s' →
  ∃ later', apply_review c later = Ok (res, later') ∧ s_db later' = s_db s'.
Proof.
  intros (v & Hv & [[Hnew _ _ (t & a & r & d1 & m & outbox & He & Hd & Hi & Ht & Hreuse & ->)]
    | [(m & Hm & Hr) Hd ->]])%apply_review_ok later Hl.
  - pose proof (effect_loaded _ _ _ _ _ _ _ Hv He) as Hv1.
    exists (later <| s_tenant := Some (rc_tenant_id c) |>). split; [|exact Hl].
    etrans; [apply (replay_run c later (mkReviewTarget (with_thread t (rv_thread v))
      (with_status a (rv_approval v)) (with_action r (rv_request v))) m)|reflexivity].
    + rewrite Hl, Hd. by destruct Hv1.
    + apply (stored_after c (s_db s)); try done.
      rewrite Hl, Hd. cbn. by rewrite (effect_messages _ _ _ _ _ _ _ He).
    + apply Hreuse. intros Hc. inversion He; congruence || done.
  - exists (later <| s_tenant := Some (rc_tenant_id c) |>). split; [|exact Hl].
    apply (replay_run c later v m); rewrite ?Hl, ?Hd; done.
Qed.

(** How a command may move one approval. *)
Inductive approval_step (c : ReviewCommand) (a : ApprovalRequest) : ApprovalRequest → Prop :=
  | approval_kept : approval_step c a a
  | approval_granted :
      apq_status a = AP_PENDING → rc_command_type c = RC_APPROVE →
      apq_revision a = rc_proposal_revision c → apq_action_request_id a = rc_action_request_id c →
      rc_expected_payload_hash c = Some (apq_payload_hash a) →
      approval_step c a (with_status AP_APPROVED a)
  | approval_refused :
      apq_status a = AP_PENDING → rc_command_type c = RC_REJECT →
      apq_revision a = rc_proposal_revision c → apq_action_request_id a = rc_action_request_id c →
      approval_step c a (with_status AP_REJECTED a)
  | approval_superseded :
      apq_status a = AP_PENDING → rc_command_type c = RC_REQUEST_REVISION →
      apq_revision a = rc_proposal_revision c → apq_action_request_id a = rc_action_request_id c →
      approval_step c a (with_status AP_SUPERSEDED a).

Lemma unique_id {R} `{Table R} (xs : list R) x y :
  NoDup (row_id <$> xs) → x ∈ xs → y ∈ xs → row_id x = row_id y → x = y.
Proof.
  intros Hnd (i & Hi)%list_elem_of_lookup (j & Hj)%list_elem_of_lookup E.
  assert (i = j) as ->; [|congruence].
  eapply (NoDup_lookup (row_id <$> xs)); [done|by rewrite list_lookup_fmap, Hi|].
  by rewrite list_lookup_fmap, Hj, E.
Qed.

(** C30: approval decisions are final and bind the exact proposal.  A command leaves
    every approval that is not pending as it is, whatever its type, and moves a
    pending one only if it names its action and its revision; it is approved only
    by a command that carries the hash of its payload. *)
Theorem approvals_are_final_and_exact c s res s' :
  NoDup (apq_id <$> approval_requests (s_db s)) →
  apply_review c s = Ok (res, s') →
  Forall2 (approval_step c) (approval_requests (s_db s)) (approval_requests (s_db s')).
Proof.
  intros Hnd (v & Hv & [[_ Hp _ (t & a & r & d1 & m & outbox & He & -> & _)]|[_ -> _]])%apply_review_ok.
  - destruct Hv as [_ _ Ha _ Hc].
    apply hd_filter_Some in Ha as [Hin _].
    apply orb_false_iff in Hc as [[Hid%negb_false_iff%eqb_true Hrev%negb_false_iff]%orb_false_iff _].
    apply Z.eqb_eq in Hrev.
    assert (∀ x, x ∈ approval_requests (s_db s) → row_id x = apq_id (rv_approval v) → x = rv_approval v)
      as Hone by (intros x Hx E; by eapply unique_id).
    assert (approval_requests d1 = approval_requests (s_db s) ∨
      ∃ a', approval_requests d1 = touch (rc_tenant_id c) (apq_id (rv_approval v)) (with_status a')
              <$> approval_requests (s_db s)
        ∧ approval_step c (rv_approval v) (with_status a' (rv_approval v))) as [E|(a' & E & Hstep)].
    { inversion He; subst; cbn; [right; eexists; split; [done|]..|by left].
      - by apply approval_granted.
      - by apply approval_refused.
      - by apply approval_superseded. }
    + cbn. rewrite E. apply Forall2_same_length_lookup_2; [done|]. intros i x y Hx Hy.
      rewrite Hx in Hy. injection Hy as <-. constructor.
    + cbn. rewrite E. apply Forall2_touch; [intros; constructor|].
      intros x Hx Ex. by rewrite (Hone x Hx Ex).
  - apply Forall2_same_length_lookup_2; [done|]. intros i x y Hx Hy.
    rewrite Hx in Hy. injection Hy as <-. constructor.
Qed.

(** ** Examples *)

Definition ex_review_process : ProcessInstance := mkProcessInstance (uuid 20) (uuid 10)
  "booking_follow_up" "1" "m" "c" "d" "acme" "r" "tiramisu.acme.r" PS_REVIEW "process/20" None
  ∅ ∅ ∅ None [] [] [] [] [] [] 0 0.
Definition ex_review_request : ActionRequest := mkActionRequest (uuid 60) (uuid 10) (uuid 20) (uuid 30)
  "back" "refund" "1" None 1 PENDING_APPROVAL 0.
Definition ex_approval : ApprovalRequest := mkApprovalRequest (uuid 61) (uuid 10) (uuid 20) (uuid 60) 1
  "hash" AP_PENDING None (Some (days 2)) 0.
Definition ex_other_approval : ApprovalRequest := mkApprovalRequest (uuid 71) (uuid 10) (uuid 20) (uuid 70) 1
  "other" AP_REJECTED None None 0.
Definition ex_thread : ReviewThread := mkReviewThread (uuid 62) (uuid 10) (uuid 20) (uuid 61) TH_OPEN 0.
Definition ex_review_db : Db := empty_db <| process_instances := [ex_review_process] |>
  <| action_requests := [ex_review_request] |> <| approval_requests := [ex_other_approval; ex_approval] |>
  <| review_threads := [ex_thread] |>.
Definition ex_review_session : Session :=
  mkSession ex_review_db None (days 1) (λ _, days 1) 0 (λ n, uuid (100 + N.of_nat n)) 0.
Definition ex_approve : ReviewCommand := mkReviewCommand (uuid 80) (uuid 10) (uuid 20) (uuid 62) (uuid 60) 1
  RC_APPROVE (uuid 50) None (Some "hash"%string).

Lemma review_commands_apply_once_witness :
  ∃ res s', apply_review ex_approve ex_review_session = Ok (res, s')
    ∧ rr_action_status res = "approved"%string
    ∧ ∃ later', apply_review ex_approve (s' <| s_tenant := None |>) = Ok (res, later')
        ∧ s_db later' = s_db s'.
Proof.
  eexists _, _. split; [vm_compute; reflexivity|]. split; [reflexivity|].
  eapply (review_commands_apply_once ex_approve ex_review_session); [vm_compute; reflexivity|reflexivity].
Defined.

Lemma approvals_are_final_and_exact_witness :
  Forall2 (approval_step ex_approve) [ex_other_approval; ex_approval]
    [ex_other_approval; with_status AP_APPROVED ex_approval].
Proof.
  apply (approvals_are_final_and_exact ex_approve ex_review_session
    (mkReviewResult (str_uuid (uuid 80)) "approved" "approved" "approved")
    (match apply_review ex_approve ex_review_session with Ok (_, s) => s | Raise _ => ex_review_session end)).
  - apply (bool_decide_eq_true_1 _). vm_compute. reflexivity.
  - vm_compute. reflexivity.
Defined.
