(* ===== verification/Control.v ===== *)
(** * [processes/control.py]: interventions and operator controls

    [record_intervention] parks a process on its operator after a failed turn;
    [apply_control] applies an attributed retry, wake, takeover or resume once, and
    schedules its delivery to the workflow through the outbox. *)

From stdpp Require Import base gmap list strings sets.
From Stdlib Require Import ZArith Lia.
From S2P Require Import Prelude Python PyTime Json Limits Contracts Schema Session State.

#[local] Open Scope Z_scope.

Definition control_type_value (t : ProcessControlType) : string :=
  match t with
  | PC_RETRY => "retry" | PC_WAKE => "wake" | PC_TAKEOVER => "takeover" | PC_RESUME => "resume"
  end.

(** The kind is a string that a check constraint of the table restricts. *)
Record InterventionInput := mkInterventionInput {
  iv_intervention_id : UUID;
  iv_tenant_id : UUID;
  iv_process_instance_id : UUID;
  iv_agent_turn_id : UUID;
  iv_kind : InterventionKind;
  iv_error_type : string;
  iv_error : string;
  iv_event_ids : list UUID;
  iv_review_command_ids : list UUID;
  iv_action_attempt_ids : list UUID;
  iv_timer_ids : list string
}.

#[export] Instance InterventionInput_rebuild : Rebuild InterventionInput := λ v,
  mkInterventionInput (iv_intervention_id v) (iv_tenant_id v) (iv_process_instance_id v) (iv_agent_turn_id v)
    (iv_kind v) (iv_error_type v) (iv_error v) (iv_event_ids v) (iv_review_command_ids v)
    (iv_action_attempt_ids v) (iv_timer_ids v).

Record ProcessControlInput := mkControlInput {
  pc_command_id : UUID;
  pc_tenant_id : UUID;
  pc_process_instance_id : UUID;
  pc_actor_id : UUID;
  pc_command_type : ProcessControlType;
  pc_reason : string;
  pc_intervention_id : option UUID
}.

(** [process.status = ...; process.current_wake_conditions = ...] *)
Definition steered (status : ProcessStatus) (wakes : list WakeCondition) (p : ProcessInstance)
  : ProcessInstance := p <| pi_status := status |> <| pi_current_wake_conditions := wakes |>.

(** ** Interventions *)

Definition new_intervention (v : InterventionInput) (now : Z) : ProcessIntervention :=
  mkProcessIntervention (iv_intervention_id v) (iv_tenant_id v) (iv_process_instance_id v)
    (iv_agent_turn_id v) (iv_kind v) IS_OPEN (iv_error_type v) (py_prefix 10000 (iv_error v))
    (str_uuid <$> iv_event_ids v) (str_uuid <$> iv_review_command_ids v)
    (str_uuid <$> iv_action_attempt_ids v) (iv_timer_ids v) None None now.

Definition is_turn_intervention (v : InterventionInput) (r : ProcessIntervention) : bool :=
  eqb (pv_tenant_id r) (iv_tenant_id v) && eqb (pv_process_instance_id r) (iv_process_instance_id v)
  && eqb (pv_agent_turn_id r) (iv_agent_turn_id v).

(** [ProcessControlService.record_intervention] *)
Definition record_intervention (v : InterventionInput) : Tx ProcessIntervention :=
  _ ← set_tenant_context (iv_tenant_id v);
  existing ← scalar (is_turn_intervention v);
  match existing with
  | Some r => mret r
  | None =>
      found ← scalar (is_process (iv_tenant_id v) (iv_process_instance_id v));
      match found with
      | None => tx_raise ProcessControlConflict "process instance not found"
      | Some process =>
          now ← transaction_now;
          _ ← insert (new_intervention v now);
          _ ← (if is_halted (pi_status process) then mret tt
               else update (pi_id process) (steered PS_REVIEW [HumanWakeCondition OPERATOR]));
          mret (new_intervention v now)
      end
  end.

(** ** Controls *)

(** The checks of the reason. *)
Definition control_reason (reason : string) : result string :=
  let reason := strip reason in
  _ ← raise_if (is_empty reason || (10000 <? Z.of_nat (py_len reason))) ProcessControlConflict
        "control command reason must contain 1 to 10000 characters";
  _ ← rewrap_value_error ProcessControlConflict
        (require_utf8_bytes reason "operator guidance"
           (max_operator_guidance_bytes DEFAULT_PLATFORM_SAFETY_LIMITS));
  Ok reason.

Definition is_control (c : ProcessControlInput) (r : ProcessControlCommand) : bool :=
  eqb (pcc_tenant_id r) (pc_tenant_id c) && eqb (pcc_id r) (pc_command_id c).

(** [existing] was stored by another command. *)
Definition control_differs (c : ProcessControlInput) (reason : string) (existing : ProcessControlCommand)
  : bool :=
  negb (eqb (pcc_process_instance_id existing) (pc_process_instance_id c))
  || negb (eqb (pcc_actor_id existing) (pc_actor_id c))
  || negb (eqb (pcc_command_type existing) (pc_command_type c))
  || negb (eqb (pcc_reason existing) reason)
  || negb (eqb (pcc_intervention_id existing) (pc_intervention_id c)).

(** The open intervention that a retry names. *)
Definition retried_intervention (c : ProcessControlInput) : Tx ProcessIntervention :=
  match pc_intervention_id c with
  | None => tx_raise ProcessControlConflict "retry requires an intervention ID"
  | Some id =>
      intervention ← scalar (λ r : ProcessIntervention, eqb (pv_tenant_id r) (pc_tenant_id c)
        && eqb (pv_process_instance_id r) (pc_process_instance_id c) && eqb (pv_id r) id);
      match intervention with
      | Some r =>
          _ ← tx_raise_if (negb (eqb (pv_status r) IS_OPEN)) ProcessControlConflict "intervention is not open";
          mret r
      | None => tx_raise ProcessControlConflict "intervention is not open"
      end
  end.

(** The branches on the command type: the process is steered, and a retry returns
    its intervention. *)
Definition steer (c : ProcessControlInput) (process : ProcessInstance) : Tx (option ProcessIntervention) :=
  match pc_command_type c with
  | PC_RETRY =>
      r ← retried_intervention c;
      _ ← update (pi_id process) (steered PS_ACTIVE []);
      mret (Some r)
  | PC_TAKEOVER =>
      _ ← tx_raise_if (eqb (pi_status process) PS_PAUSED) ProcessControlConflict "process is already paused";
      _ ← update (pi_id process) (steered PS_PAUSED [HumanWakeCondition OPERATOR]);
      mret None
  | PC_RESUME =>
      _ ← tx_raise_if (negb (eqb (pi_status process) PS_PAUSED)) ProcessControlConflict
            "only a paused process can be resumed";
      _ ← update (pi_id process) (steered PS_ACTIVE []);
      mret None
  | PC_WAKE =>
      _ ← tx_raise_if (eqb (pi_status process) PS_PAUSED) ProcessControlConflict
            "resume a paused process before waking it";
      mret None
  end.

Definition retry_payload (r : option ProcessIntervention) : list (string * json) :=
  match r with
  | Some r => [("event_ids", JArr (JStr <$> pv_source_event_ids r));
               ("review_command_ids", JArr (JStr <$> pv_source_review_command_ids r));
               ("action_attempt_ids", JArr (JStr <$> pv_source_action_attempt_ids r));
               ("timer_ids", JArr (JStr <$> pv_source_timer_ids r))]%string
  | None => []
  end.

Definition new_control (c : ProcessControlInput) (reason : string) (payload : list (string * json)) (now : Z)
  : ProcessControlCommand :=
  mkProcessControlCommand (pc_command_id c) (pc_tenant_id c) (pc_process_instance_id c) (pc_actor_id c)
    (pc_intervention_id c) (pc_command_type c) reason payload now.

Definition resolve_intervention (c : ProcessControlInput) (r : option ProcessIntervention) : Tx unit :=
  match r with
  | Some r =>
      at_ ← utcnow;
      update (pv_id r) (λ x : ProcessIntervention, x <| pv_status := IS_RESOLVED |>
        <| pv_resolved_by_command_id := Some (pc_command_id c) |> <| pv_resolved_at := Some at_ |>)
  | None => mret tt
  end.

Definition control_key (c : ProcessControlInput) : string :=
  "process-control:" +:+ str_uuid (pc_command_id c).

(** The event that wakes the process; its document leaves the fields with defaults
    out. *)
Definition wake_event (c : ProcessControlInput) (event_id : UUID) (recorded_at : Z) : CanonicalEvent :=
  mkEvent event_id (pc_tenant_id c) (Some (pc_process_instance_id c)) OPERATOR_MANUAL_WAKE_EVENT_TYPE
    "operator" (str_uuid (pc_command_id c)) (utc recorded_at) (utc recorded_at) 1 CONFIDENTIAL [] []
    [("reason", JStr (pc_reason c)); ("actor_id", JStr (str_uuid (pc_actor_id c)));
     ("command_type", JStr (control_type_value (pc_command_type c)))]%string.

Definition _enqueue_manual_wake (process : ProcessInstance) (c : ProcessControlInput) : Tx unit :=
  event_id ← draw_uuid;
  recorded_at ← utcnow;
  now ← transaction_now;
  _ ← insert (mkEventInbox event_id (pc_tenant_id c) (Some (pc_process_instance_id c)) "operator"
                (str_uuid (pc_command_id c)) OPERATOR_MANUAL_WAKE_EVENT_TYPE (wake_event c event_id recorded_at)
                CS_MATCHED (Some "operator_manual_wake"%string) recorded_at now);
  id ← draw_uuid;
  _ ← insert_or_skip same_dedup (new_outbox_message id (pc_tenant_id c) (pc_process_instance_id c)
        (Some event_id) "temporal.process_event" (pi_workflow_id process) (control_key c)
        [("event_id", JStr (str_uuid event_id)); ("event_type", JStr OPERATOR_MANUAL_WAKE_EVENT_TYPE)]%string now);
  mret tt.

Definition _enqueue_control (process : ProcessInstance) (c : ProcessControlInput)
    (payload : list (string * json)) : Tx unit :=
  id ← draw_uuid;
  now ← transaction_now;
  _ ← insert_or_skip same_dedup (new_outbox_message id (pc_tenant_id c) (pc_process_instance_id c) None
        "temporal.process_control" (pi_workflow_id process) (control_key c)
        ([("command_id", JStr (str_uuid (pc_command_id c)));
          ("command_type", JStr (control_type_value (pc_command_type c)))]%string ++ payload) now);
  mret tt.

(** [ProcessControlService.apply_control] *)
Definition apply_control (c : ProcessControlInput) : Tx ProcessControlCommand :=
  _ ← set_tenant_context (pc_tenant_id c);
  reason ← lift_result (control_reason (pc_reason c));
  existing ← scalar (is_control c);
  match existing with
  | Some r =>
      _ ← tx_raise_if (control_differs c reason r) ProcessControlConflict "control command ID was reused";
      mret r
  | None =>
      found ← scalar (is_process (pc_tenant_id c) (pc_process_instance_id c));
      match found with
      | None => tx_raise ProcessControlConflict "process instance not found"
      | Some process =>
          _ ← tx_raise_if (is_terminal (pi_status process)) ProcessControlConflict
                "terminal processes cannot be controlled";
          intervention ← steer c process;
          let payload := retry_payload intervention in
          now ← transaction_now;
          _ ← insert (new_control c reason payload now);
          _ ← resolve_intervention c intervention;
          _ ← match pc_command_type c with
              | PC_WAKE | PC_RESUME => _enqueue_manual_wake process c
              | _ => _enqueue_control process c payload
              end;
          mret (new_control c reason payload now)
      end
  end.

(** ** What a control does *)

(** The status and the wake conditions a command leaves, if it changes them. *)
Definition steering (t : ProcessControlType) : option (ProcessStatus * list WakeCondition) :=
  match t with
  | PC_RETRY | PC_RESUME => Some (PS_ACTIVE, [])
  | PC_TAKEOVER => Some (PS_PAUSED, [HumanWakeCondition OPERATOR])
  | PC_WAKE => None
  end.
(** The statuses a command is refused for, beside the terminal ones. *)
Definition steerable (t : ProcessControlType) (s : ProcessStatus) : bool :=
  match t with
  | PC_RETRY => true
  | PC_RESUME => eqb s PS_PAUSED
  | PC_TAKEOVER | PC_WAKE => negb (eqb s PS_PAUSED)
  end.

Definition steered_rows (c : ProcessControlInput) (ps : list ProcessInstance) : list ProcessInstance :=
  match steering (pc_command_type c) with
  | Some (st, w) => touch (pc_tenant_id c) (pc_process_instance_id c) (steered st w) <$> ps
  | None => ps
  end.

(** The tables that interventions and controls leave alone. *)
Definition same_work (d d' : Db) : Prop :=
  action_requests d' = action_requests d ∧ action_attempts d' = action_attempts d
  ∧ approval_requests d' = approval_requests d ∧ process_state_revisions d' = process_state_revisions d.

Definition scheduled (d : Db) (tenant : UUID) (key : string) : Prop :=
  ∃ m, m ∈ outbox_messages d ∧ om_tenant_id m = tenant ∧ om_deduplication_key m = key.

(** A command replays its row or is applied. *)
Inductive control_effect (c : ProcessControlInput) (d : Db) : ProcessControlCommand → Db → Prop :=
  | control_replayed r reason :
      control_reason (pc_reason c) = Ok reason →
      hd_error (List.filter (is_control c) (process_control_commands d)) = Some r →
      control_differs c reason r = false → control_effect c d r d
  | control_applied reason process payload now d' :
      control_reason (pc_reason c) = Ok reason →
      hd_error (List.filter (is_control c) (process_control_commands d)) = None →
      hd_error (List.filter (is_process (pc_tenant_id c) (pc_process_instance_id c)) (process_instances d))
        = Some process →
      is_terminal (pi_status process) = false → steerable (pc_command_type c) (pi_status process) = true →
      process_instances d' = steered_rows c (process_instances d) →
      process_control_commands d' = process_control_commands d ++ [new_control c reason payload now] →
      same_work d d' → scheduled d' (pc_tenant_id c) (control_key c) →
      control_effect c d (new_control c reason payload now) d'.

Lemma is_process_tenant t p r : is_process t p r = true → row_tenant r = t.
Proof. by intros []%is_process_ids. Qed.

(** The tables a delivery leaves alone. *)
Definition same_control (d d' : Db) : Prop :=
  process_instances d' = process_instances d ∧ process_control_commands d' = process_control_commands d
  ∧ same_work d d'.

Lemma insert_or_skip_scheduled s t r o s' :
  s_tenant s = Some t → om_tenant_id r = t → insert_or_skip same_dedup r s = Ok (o, s') →
  same_control (s_db s) (s_db s') ∧ scheduled (s_db s') t (om_deduplication_key r) ∧ s_tenant s' = Some t.
Proof.
  intros Hs Ht [(He & _ & ->)|(_ & _ & [_ ->]%insert_ok)]%insert_or_skip_ok.
  - split; [by repeat split|]. split; [|done]. apply existsb_exists in He as (m & Hm & E).
    unfold same_dedup in E. apply andb_true_iff in E as [E1%eqb_true E2%eqb_true]. exists m.
    rewrite list_elem_of_In. split_and!; [done|congruence|done].
  - split; [by repeat split|]. split; [|done]. exists r. cbn. rewrite list_elem_of_In.
    split_and!; [apply in_or_app; right; by left|done|done].
Qed.

Lemma enqueue_control_ok process c payload s u s' :
  s_tenant s = Some (pc_tenant_id c) → _enqueue_control process c payload s = Ok (u, s') →
  same_control (s_db s) (s_db s') ∧ scheduled (s_db s') (pc_tenant_id c) (control_key c).
Proof.
  intros Hs H. unfold _enqueue_control in H.
  apply tx_bind_ok in H as (id & ? & [_ ->]%draw_uuid_ok & H).
  apply tx_bind_ok in H as (now & ? & [_ ->]%transaction_now_ok & H).
  apply tx_bind_ok in H as (o & s1 & Hi & [_ ->]%mret_ok).
  apply (insert_or_skip_scheduled _ (pc_tenant_id c)) in Hi as (? & ? & _); done.
Qed.

Lemma enqueue_wake_ok process c s u s' :
  s_tenant s = Some (pc_tenant_id c) → _enqueue_manual_wake process c s = Ok (u, s') →
  same_control (s_db s) (s_db s') ∧ scheduled (s_db s') (pc_tenant_id c) (control_key c).
Proof.
  intros Hs H. unfold _enqueue_manual_wake in H.
  apply tx_bind_ok in H as (e & ? & [_ ->]%draw_uuid_ok & H).
  apply tx_bind_ok in H as (at_ & ? & [_ ->]%utcnow_ok & H).
  apply tx_bind_ok in H as (now & ? & [_ ->]%transaction_now_ok & H).
  apply tx_bind_ok in H as ([] & ? & [_ ->]%insert_ok & H).
  apply tx_bind_ok in H as (id & ? & [_ ->]%draw_uuid_ok & H).
  apply tx_bind_ok in H as (o & s1 & Hi & [_ ->]%mret_ok).
  apply (insert_or_skip_scheduled _ (pc_tenant_id c)) in Hi as (? & ? & _); done.
Qed.

Lemma reads_retried t c : reads_only t (retried_intervention c).
Proof. unfold retried_intervention. reads. Qed.

Lemma steer_ok c process s r s' :
  s_tenant s = Some (pc_tenant_id c) → pi_id process = pc_process_instance_id c →
  steer c process s = Ok (r, s') →
  s_tenant s' = Some (pc_tenant_id c) ∧ steerable (pc_command_type c) (pi_status process) = true
  ∧ s_db s' = s_db s <| process_instances := steered_rows c (process_instances (s_db s)) |>.
Proof.
  intros Hs Hid H. unfold steer in H. unfold steered_rows, steering, steerable.
  destruct (pc_command_type c).
  - apply tx_bind_ok in H as (iv & s1 & Hr & H). apply (reads_retried (pc_tenant_id c)) in Hr as [Hd1 Ht1].
    apply tx_bind_ok in H as ([] & ? & Hu & [-> ->]%mret_ok). specialize (Ht1 Hs).
    rewrite (update_touch _ (pc_tenant_id c)) in Hu by done. injection Hu as <-. rewrite Hd1, Hid. done.
  - apply tx_bind_ok in H as ([] & ? & [-> ->]%tx_raise_if_ok & [-> ->]%mret_ok).
    split_and!; [done..|]. by destruct (s_db s).
  - apply tx_bind_ok in H as ([] & ? & [-> ->]%tx_raise_if_ok & H).
    apply tx_bind_ok in H as ([] & ? & Hu & [-> ->]%mret_ok).
    rewrite (update_touch _ (pc_tenant_id c)) in Hu by done. injection Hu as <-. by rewrite Hid.
  - apply tx_bind_ok in H as ([] & ? & [Hp%negb_false_iff ->]%tx_raise_if_ok & H).
    apply tx_bind_ok in H as ([] & ? & Hu & [-> ->]%mret_ok).
    rewrite (update_touch _ (pc_tenant_id c)) in Hu by done. injection Hu as <-. by rewrite Hid.
Qed.

Lemma resolve_intervention_ok c r s u s' :
  s_tenant s = Some (pc_tenant_id c) → resolve_intervention c r s = Ok (u, s') →
  same_control (s_db s) (s_db s') ∧ s_tenant s' = Some (pc_tenant_id c).
Proof.
  intros Hs H. unfold resolve_intervention in H. destruct r as [r|].
  - apply tx_bind_ok in H as (at_ & ? & [_ ->]%utcnow_ok & ->%update_ok). by repeat split.
  - apply mret_ok in H as [_ ->]. by repeat split.
Qed.

Lemma apply_control_ok c s r s' :
  apply_control c s = Ok (r, s') → control_effect c (s_db s) r (s_db s').
Proof.
  intros H. unfold apply_control in H.
  apply tx_bind_ok in H as ([] & ? & ->%set_tenant_context_ok & H).
  apply tx_bind_ok in H as (reason & ? & [Hreason ->]%lift_result_ok & H).
  apply tx_bind_ok in H as (existing & ? & He & H).
  rewrite (scalar_run _ (pc_tenant_id c)) in He by (done || (unfold is_control; tenant_first)). injection He as <- <-.
  destruct (hd_error (List.filter (is_control c) _)) as [x|] eqn:Hx.
  { apply tx_bind_ok in H as ([] & ? & [Hd ->]%tx_raise_if_ok & [-> ->]%mret_ok). by apply (control_replayed _ _ _ reason). }
  apply tx_bind_ok in H as (found & ? & Hf & H).
  rewrite (scalar_run _ (pc_tenant_id c)) in Hf by (done || apply is_process_tenant). injection Hf as <- <-.
  destruct (hd_error (List.filter (is_process _ _) _)) as [process|] eqn:Hp; [|done].
  pose proof Hp as [_ [_ Hid]%is_process_ids]%hd_filter_Some.
  apply tx_bind_ok in H as ([] & ? & [Hterm ->]%tx_raise_if_ok & H).
  apply tx_bind_ok in H as (iv & s1 & Hsteer & H). apply steer_ok in Hsteer as (Hs1 & Hok & Hd1); [|done..].
  cbv zeta in H. apply tx_bind_ok in H as (now & ? & [_ ->]%transaction_now_ok & H).
  apply tx_bind_ok in H as ([] & ? & [_ ->]%insert_ok & H).
  apply tx_bind_ok in H as ([] & s2 & Hres & H). apply resolve_intervention_ok in Hres as ((Hpi & Hpc & Hw) & Hs2); [|done].
  apply tx_bind_ok in H as ([] & s3 & Hq & [-> ->]%mret_ok).
  assert (same_control (s_db s2) (s_db s3) ∧ scheduled (s_db s3) (pc_tenant_id c) (control_key c))
    as [(Hpi' & Hpc' & Hw') Hsch].
  { destruct (pc_command_type c); first [by apply enqueue_control_ok in Hq|by apply enqueue_wake_ok in Hq]. }
  unfold same_work in *. cbn in Hpi, Hpc, Hw. rewrite Hd1 in Hpi, Hpc, Hw. cbn in Hpi, Hpc, Hw.
  apply (control_applied _ _ reason process); try done.
  - by rewrite Hpi', Hpi.
  - by rewrite Hpc', Hpc.
  - unfold same_work. destruct_and!. split_and!; congruence.
Qed.

(** ** What the service promises *)

Lemma is_control_new c reason payload now : is_control c (new_control c reason payload now) = true.
Proof. unfold is_control. cbn. by rewrite !eqb_refl. Qed.
Lemma control_same c reason payload now : control_differs c reason (new_control c reason payload now) = false.
Proof. unfold control_differs. cbn. by rewrite !eqb_refl. Qed.

Lemma control_stored c d r d' :
  control_effect c d r d' →
  ∃ reason, control_reason (pc_reason c) = Ok reason ∧ control_differs c reason r = false
    ∧ hd_error (List.filter (is_control c) (process_control_commands d')) = Some r.
Proof.
  destruct 1 as [r reason Hr Hs Hd|reason process payload now d' Hr Hno _ _ _ _ Hpc _ _]; exists reason; [done|].
  split; [done|]. split; [apply control_same|]. rewrite Hpc. apply hd_filter_snoc; [by apply hd_filter_None|].
  apply is_control_new.
Qed.

Lemma control_reason_strip reason reason' : control_reason reason = Ok reason' → reason' = strip reason.
Proof. unfold control_reason. intros H. bind_inv. done. Qed.
Lemma control_reason_conflict reason e : control_reason reason = Raise e → exn_cls e = ProcessControlConflict.
Proof.
  revert e. change (raises_only (λ c, c = ProcessControlConflict) (control_reason reason)).
  unfold control_reason. eauto 6 with tiramisu.
Qed.

(** A stored command decides every later use of its identity. *)
Lemma apply_control_found c reason r later :
  control_reason (pc_reason c) = Ok reason →
  hd_error (List.filter (is_control c) (process_control_commands (s_db later))) = Some r →
  apply_control c later =
  if control_differs c reason r then raise ProcessControlConflict "control command ID was reused"
  else Ok (r, later <| s_tenant := Some (pc_tenant_id c) |>).
Proof.
  intros Hr Hs. unfold apply_control. set (s0 := later <| s_tenant := Some (pc_tenant_id c) |>).
  rewrite (tx_bind_run _ _ later tt s0) by done.
  rewrite (tx_bind_run _ _ s0 reason s0) by by apply lift_result_ok.
  erewrite tx_bind_run; [|apply (scalar_run s0 (pc_tenant_id c)); [done|unfold is_control; tenant_first]].
  cbn [table ProcessControlCommand_table]. change (s_db s0) with (s_db later). rewrite Hs.
  unfold tx_raise_if, mbind, Tx_bind, lift_result. by destruct (control_differs c reason r).
Qed.

(** A control command applies once.  After [apply_control], the same command
    returns the stored row and changes nothing, whatever commands followed, and
    another command under its identity, for another process, by another actor, of
    another type, reason or intervention, is refused. *)
Theorem control_commands_apply_once c s r s' later more :
  apply_control c s = Ok (r, s') →
  process_control_commands (s_db later) = process_control_commands (s_db s') ++ more →
  apply_control c later = Ok (r, later <| s_tenant := Some (pc_tenant_id c) |>)
  ∧ ∀ c', pc_command_id c' = pc_command_id c → pc_tenant_id c' = pc_tenant_id c →
      pc_process_instance_id c' ≠ pc_process_instance_id c ∨ pc_actor_id c' ≠ pc_actor_id c
      ∨ pc_command_type c' ≠ pc_command_type c ∨ strip (pc_reason c') ≠ strip (pc_reason c)
      ∨ pc_intervention_id c' ≠ pc_intervention_id c →
      ∃ msg, apply_control c' later = raise ProcessControlConflict msg.
Proof.
  intros (reason & Hr & Hd & Hs)%apply_control_ok%control_stored Hmore.
  assert (hd_error (List.filter (is_control c) (process_control_commands (s_db later))) = Some r) as Hl.
  { rewrite Hmore, List.filter_app. by destruct (List.filter _ (process_control_commands (s_db s'))). }
  split; [by rewrite (apply_control_found c reason r), Hd|].
  intros c' Hid Ht Hne. destruct (control_reason (pc_reason c')) as [reason'|e] eqn:Hr'.
  - assert (hd_error (List.filter (is_control c') (process_control_commands (s_db later))) = Some r) as Hl'
      by (unfold is_control in *; by rewrite Hid, Ht).
    rewrite (apply_control_found c' reason' r) by done.
    apply control_reason_strip in Hr as ->. apply control_reason_strip in Hr' as ->.
    destruct (control_differs c' (strip (pc_reason c')) r) eqn:E; [by eexists|]. exfalso.
    unfold control_differs in E, Hd. rewrite !orb_false_iff, !negb_false_iff, !eqb_eq in E, Hd. destruct E as [[[[]]]], Hd as [[[[]]]], Hne as [?|[?|[?|[?|?]]]]; congruence.
  - exists (exn_msg e). unfold apply_control, mbind, Tx_bind, lift_result. cbn. rewrite Hr'.
    apply control_reason_conflict in Hr'. unfold raise. destruct e; cbn in *. by subst.
Qed.

(** Controls steer the process as its status allows.  A command that was not
    stored before finds its process, which is not terminal; it resumes only a paused
    process, takes over or wakes only one that is not paused; a retry or a resumption
    leaves the process active without wake conditions, a takeover leaves it paused and
    waiting for its operator, a wake-up leaves it as it is.  Other rows of processes,
    the process's actions, attempts, approvals and revisions stay, and the delivery
    to the workflow is scheduled. *)
Theorem controls_steer_the_process c s r s' :
  apply_control c s = Ok (r, s') →
  List.filter (is_control c) (process_control_commands (s_db s)) = [] →
  ∃ process, hd_error (List.filter (is_process (pc_tenant_id c) (pc_process_instance_id c))
                (process_instances (s_db s))) = Some process
    ∧ is_terminal (pi_status process) = false ∧ steerable (pc_command_type c) (pi_status process) = true
    ∧ hd_error (List.filter (is_process (pc_tenant_id c) (pc_process_instance_id c))
                (process_instances (s_db s')))
      = Some (match steering (pc_command_type c) with Some (st, w) => steered st w process | None => process end)
    ∧ Forall2 (λ p p', is_process (pc_tenant_id c) (pc_process_instance_id c) p = false → p' = p)
        (process_instances (s_db s)) (process_instances (s_db s'))
    ∧ same_work (s_db s) (s_db s') ∧ scheduled (s_db s') (pc_tenant_id c) (control_key c).
Proof.
  intros H%apply_control_ok Hno. destruct H as [x reason Hr Hs Hd|reason process payload now d' Hr _ Hp Hterm Hok Hpi Hpc Hw Hsch].
  { by rewrite Hno in Hs. }
  pose proof Hp as [_ [Ht Hid]%is_process_ids]%hd_filter_Some.
  exists process. split_and!; try done; rewrite Hpi; unfold steered_rows;
    destruct (steering (pc_command_type c)) as [[st w]|]; try done.
  - erewrite (head_touch _ _ (steered st w)); [by rewrite touch_self|done|done].
  - clear. induction (process_instances (s_db s)) as [|p ps IH]; constructor; [|done].
    unfold is_process, touch. cbn. intros E. rewrite andb_false_iff in E.
    destruct E as [E|E]; [|by rewrite E, andb_false_r]. apply eqb_neq in E.
    rewrite (proj2 (eqb_neq (Some _) (Some (pi_tenant_id p)))) by congruence. done.
  - clear. induction (process_instances (s_db s)); by constructor.
Qed.

(** A retry lifts a takeover.  A new retry of an open intervention is applied to a
    process that its operator took over, and leaves it active, without a resumption;
    waking the same process is refused until it is resumed. *)
Theorem retry_lifts_a_takeover c s r s' process :
  apply_control c s = Ok (r, s') → pc_command_type c = PC_RETRY →
  List.filter (is_control c) (process_control_commands (s_db s)) = [] →
  hd_error (List.filter (is_process (pc_tenant_id c) (pc_process_instance_id c))
    (process_instances (s_db s))) = Some process → pi_status process = PS_PAUSED →
  (∃ after, hd_error (List.filter (is_process (pc_tenant_id c) (pc_process_instance_id c))
      (process_instances (s_db s'))) = Some after ∧ pi_status after = PS_ACTIVE)
  ∧ apply_control (mkControlInput (pc_command_id c) (pc_tenant_id c) (pc_process_instance_id c) (pc_actor_id c)
      PC_WAKE (pc_reason c) None) s
    = raise ProcessControlConflict "resume a paused process before waking it".
Proof.
  intros H%apply_control_ok Hty Hno Hp Hpaused.
  destruct H as [x reason Hr Hs Hd|reason process' payload now d' Hr _ Hp' Hterm Hok Hpi Hpc Hw Hsch].
  { by rewrite Hno in Hs. }
  rewrite Hp in Hp'. injection Hp' as <-. pose proof Hp as [_ [Ht Hid]%is_process_ids]%hd_filter_Some. split.
  - exists (steered PS_ACTIVE [] process). split; [|done]. rewrite Hpi. unfold steered_rows. rewrite Hty.
    cbn [steering]. erewrite (head_touch _ _ (steered PS_ACTIVE [])); [by rewrite touch_self|done|done].
  - set (w := mkControlInput _ _ _ _ _ _ _). unfold apply_control.
    set (s0 := s <| s_tenant := Some (pc_tenant_id w) |>).
    rewrite (tx_bind_run _ _ s tt s0) by done.
    rewrite (tx_bind_run _ _ s0 reason s0) by by apply lift_result_ok.
    erewrite tx_bind_run; [|apply (scalar_run s0 (pc_tenant_id w)); [done|unfold is_control; tenant_first]].
    change (List.filter (is_control w) (table (s_db s0))) with
      (List.filter (is_control c) (process_control_commands (s_db s))). rewrite Hno. cbn [hd_error head].
    erewrite tx_bind_run; [|apply (scalar_run s0 (pc_tenant_id w)); [done|apply is_process_tenant]].
    cbn [table ProcessInstance_table]. change (s_db s0) with (s_db s). cbn [w pc_tenant_id pc_process_instance_id].
    rewrite Hp. unfold steer, mbind, Tx_bind, tx_raise_if, lift_result. cbn. by rewrite Hpaused.
Qed.

(** What [record_intervention] does. *)
Definition parked (process : ProcessInstance) : ProcessInstance :=
  if is_halted (pi_status process) then process else steered PS_REVIEW [HumanWakeCondition OPERATOR] process.

Inductive intervention_effect (v : InterventionInput) (d : Db) : ProcessIntervention → Db → Prop :=
  | intervention_kept r :
      hd_error (List.filter (is_turn_intervention v) (process_interventions d)) = Some r →
      intervention_effect v d r d
  | intervention_recorded process now d' :
      hd_error (List.filter (is_turn_intervention v) (process_interventions d)) = None →
      hd_error (List.filter (is_process (iv_tenant_id v) (iv_process_instance_id v)) (process_instances d))
        = Some process →
      process_interventions d' = process_interventions d ++ [new_intervention v now] →
      hd_error (List.filter (is_process (iv_tenant_id v) (iv_process_instance_id v)) (process_instances d'))
        = Some (parked process) →
      same_work d d' →
      intervention_effect v d (new_intervention v now) d'.

Lemma turn_intervention_tenant v r : is_turn_intervention v r = true → row_tenant r = iv_tenant_id v.
Proof. revert r. unfold is_turn_intervention. tenant_first. Qed.

Lemma record_intervention_ok v s r s' :
  record_intervention v s = Ok (r, s') → intervention_effect v (s_db s) r (s_db s').
Proof.
  intros H. unfold record_intervention in H.
  apply tx_bind_ok in H as ([] & ? & ->%set_tenant_context_ok & H).
  apply tx_bind_ok in H as (existing & ? & He & H).
  rewrite (scalar_run _ (iv_tenant_id v)) in He by (done || apply turn_intervention_tenant).
  injection He as <- <-. cbn in H.
  destruct (hd_error (List.filter (is_turn_intervention v) _)) as [x|] eqn:Hx.
  { apply mret_ok in H as [-> ->]. by apply intervention_kept. }
  apply tx_bind_ok in H as (found & ? & Hf & H).
  rewrite (scalar_run _ (iv_tenant_id v)) in Hf by (done || apply is_process_tenant). injection Hf as <- <-.
  cbn in H. destruct (hd_error (List.filter (is_process _ _) _)) as [process|] eqn:Hp; [|done].
  pose proof Hp as [_ [Ht Hid]%is_process_ids]%hd_filter_Some.
  apply tx_bind_ok in H as (now & ? & [_ ->]%transaction_now_ok & H).
  apply tx_bind_ok in H as ([] & ? & [_ ->]%insert_ok & H).
  apply tx_bind_ok in H as ([] & s1 & Hu & [-> ->]%mret_ok).
  destruct (is_halted (pi_status process)) eqn:Eh.
  - apply mret_ok in Hu as [_ ->]. apply (intervention_recorded _ _ process); try done.
    unfold parked. by rewrite Eh.
  - rewrite (update_touch _ (iv_tenant_id v)) in Hu by done. injection Hu as <-.
    apply (intervention_recorded _ _ process); try done. cbn. unfold parked. rewrite Eh.
    erewrite (head_touch _ _ (steered PS_REVIEW _)); [by rewrite touch_self|done|done].
Qed.

Lemma intervention_stored v d r d' :
  intervention_effect v d r d' →
  hd_error (List.filter (is_turn_intervention v) (process_interventions d')) = Some r.
Proof.
  destruct 1 as [r Hr|process now d' Hno _ Hi _ _]; [done|]. rewrite Hi.
  apply hd_filter_snoc; [by apply hd_filter_None|]. unfold is_turn_intervention, new_intervention. cbn.
  by rewrite !eqb_refl.
Qed.

(** A failed turn parks its process once.  [record_intervention] keeps the first
    intervention of a turn; recording one leaves a running process in review, waiting
    for its operator, and leaves a paused or terminal process as it is. *)
Theorem interventions_park_the_process v s r s' :
  record_intervention v s = Ok (r, s') →
  (∀ later more, process_interventions (s_db later) = process_interventions (s_db s') ++ more →
     ∀ v', iv_tenant_id v' = iv_tenant_id v → iv_process_instance_id v' = iv_process_instance_id v →
       iv_agent_turn_id v' = iv_agent_turn_id v →
       record_intervention v' later = Ok (r, later <| s_tenant := Some (iv_tenant_id v) |>))
  ∧ (List.filter (is_turn_intervention v) (process_interventions (s_db s)) = [] →
     ∃ process, hd_error (List.filter (is_process (iv_tenant_id v) (iv_process_instance_id v))
         (process_instances (s_db s))) = Some process
       ∧ hd_error (List.filter (is_process (iv_tenant_id v) (iv_process_instance_id v))
         (process_instances (s_db s')))
         = Some (parked process)
       ∧ pv_status r = IS_OPEN ∧ (py_len (pv_error r) <= 10000)%nat).
Proof.
  intros H%record_intervention_ok. split.
  - apply intervention_stored in H. intros later more Hl v' Hvt Hvp Hva.
    assert (hd_error (List.filter (is_turn_intervention v') (process_interventions (s_db later))) = Some r) as Hr.
    { rewrite Hl, List.filter_app. unfold is_turn_intervention in *. rewrite Hvt, Hvp, Hva.
      by destruct (List.filter _ (process_interventions (s_db s'))). }
    unfold record_intervention. rewrite Hvt. set (s0 := later <| s_tenant := Some (iv_tenant_id v) |>).
    rewrite (tx_bind_run _ _ later tt s0) by done.
    erewrite tx_bind_run; [|apply (scalar_run s0 (iv_tenant_id v)); [done|rewrite <- Hvt; apply turn_intervention_tenant]].
    cbn [table ProcessIntervention_table]. change (s_db s0) with (s_db later). by rewrite Hr.
  - intros Hno. destruct H as [x Hx|process now d' _ Hp _ Ha _]; [by rewrite Hno in Hx|].
    exists process. split_and!; [done|done|done|]. apply py_prefix_len.
Qed.

(** ** Examples *)

Definition ex_controlled (status : ProcessStatus) : ProcessInstance := ex_state_process <| pi_status := status |>.
Definition ex_control_db (status : ProcessStatus) : Db := empty_db
  <| tenants := [mkTenant (uuid 10) "acme" "Acme" TS_ACTIVE "acme"] |>
  <| process_instances := [ex_controlled status] |>.
Definition ex_control_session (base : N) (d : Db) : Session :=
  mkSession d None (days 81) (λ _, days 81) 0 (λ n, uuid (base + N.of_nat n)) 0.
Definition ex_failed_turn : InterventionInput := mkInterventionInput (uuid 50) (uuid 10) (uuid 20) (uuid 30)
  IK_TURN_FAILURE "DecisionRejected" "unknown action" [uuid 40] [] [] [].
Definition ex_intervened : Db :=
  match record_intervention ex_failed_turn (ex_control_session 100 (ex_control_db PS_ACTIVE)) with
  | Ok (_, s) => s_db s | Raise _ => empty_db end.
Definition ex_control (id : N) (t : ProcessControlType) : ProcessControlInput :=
  mkControlInput (uuid id) (uuid 10) (uuid 20) (uuid 9) t "  please  "
    (match t with PC_RETRY => Some (uuid 50) | _ => None end).
Definition ex_after (c : ProcessControlInput) (d : Db) : result (ProcessControlCommand * Session) :=
  apply_control c (ex_control_session (10 * uuid_int (pc_command_id c)) d).
Definition ex_taken_over : Db :=
  match ex_after (ex_control 51 PC_TAKEOVER) ex_intervened with Ok (_, s) => s_db s | Raise _ => empty_db end.

Example takeover_then_retry_is_active :
  match ex_after (ex_control 52 PC_RETRY) ex_taken_over with
  | Ok (_, s) => (pi_status <$> process_instances (s_db s), length (outbox_messages (s_db s)))
  | Raise _ => ([], O)
  end = ([PS_ACTIVE], 2%nat).
Proof. vm_compute. reflexivity. Qed.

Lemma control_commands_apply_once_witness :
  ∃ r s', ex_after (ex_control 51 PC_TAKEOVER) ex_intervened = Ok (r, s')
    ∧ apply_control (ex_control 51 PC_TAKEOVER) s' = Ok (r, s').
Proof.
  eexists _, _. split; [vm_compute; reflexivity|].
  refine (proj1 (control_commands_apply_once (ex_control 51 PC_TAKEOVER) (ex_control_session 510 ex_intervened) _ _ _ [] _ _));
    vm_compute; reflexivity.
Defined.

Lemma controls_steer_the_process_witness :
  ∃ process, hd_error (List.filter (is_process (uuid 10) (uuid 20)) (process_instances ex_intervened)) = Some process
    ∧ pi_status process = PS_REVIEW ∧ pi_status <$> process_instances ex_taken_over = [PS_PAUSED].
Proof.
  destruct (controls_steer_the_process (ex_control 51 PC_TAKEOVER) (ex_control_session 510 ex_intervened)
    (new_control (ex_control 51 PC_TAKEOVER) "please" [] (days 81))
    (match ex_after (ex_control 51 PC_TAKEOVER) ex_intervened with
     | Ok (_, s) => s | Raise _ => ex_control_session 0 empty_db end)) as (process & Hp & _);
    [vm_compute; reflexivity|vm_compute; reflexivity|].
  exists process. split; [exact Hp|]. vm_compute in Hp. injection Hp as <-. split; vm_compute; reflexivity.
Defined.

Definition ex_retried : ProcessControlCommand * Session :=
  match ex_after (ex_control 52 PC_RETRY) ex_taken_over with
  | Ok r => r
  | Raise _ => (new_control (ex_control 52 PC_RETRY) "" [] 0, ex_control_session 0 empty_db)
  end.

Lemma retry_lifts_a_takeover_witness :
  ∃ after, hd_error (List.filter (is_process (pc_tenant_id (ex_control 52 PC_RETRY))
      (pc_process_instance_id (ex_control 52 PC_RETRY))) (process_instances (s_db (snd ex_retried)))) = Some after
    ∧ pi_status after = PS_ACTIVE.
Proof.
  refine (proj1 (retry_lifts_a_takeover (ex_control 52 PC_RETRY) (ex_control_session 520 ex_taken_over)
    (fst ex_retried) (snd ex_retried)
    (steered PS_PAUSED [HumanWakeCondition OPERATOR] (steered PS_REVIEW [HumanWakeCondition OPERATOR]
       (ex_controlled PS_ACTIVE))) _ _ _ _ _)); vm_compute; reflexivity.
Defined.

Lemma interventions_park_the_process_witness :
  ∃ r s', record_intervention ex_failed_turn (ex_control_session 100 (ex_control_db PS_ACTIVE)) = Ok (r, s')
    ∧ record_intervention (ex_failed_turn <| iv_error := "again" |>) s' = Ok (r, s').
Proof.
  eexists _, _. split; [vm_compute; reflexivity|].
  refine (proj1 (interventions_park_the_process ex_failed_turn (ex_control_session 100 (ex_control_db PS_ACTIVE)) _ _ _)
    _ [] _ (ex_failed_turn <| iv_error := "again" |>) _ _ _); vm_compute; reflexivity.
Defined.
