(* ===== verification/Ingestion.v ===== *)
(** * [events/ingestion.py]: canonical events, their correlation and their delivery

    [ingest] is one transaction: an event that its source already reported is
    answered with the stored result; a new one is correlated through its process id
    and its external references, may start a process, and is stored with its
    delivery.  The advisory locks order concurrent calls; transactions are atomic
    in the model. *)

From stdpp Require Import base gmap list strings sets.
From Stdlib Require Import ZArith Lia.
From S2P Require Import Prelude Python PyTime Json Limits Contracts Schema Session State.

#[local] Open Scope Z_scope.

(** The trusted configuration of a new process; its late-event policy is the only
    one there is. *)
Record ProcessBootstrap := mkBootstrap {
  bt_process_type : string;
  bt_definition_version : string;
  bt_extension_manifest_hash : string;
  bt_client_pack_fingerprint : string;
  bt_process_definition_fingerprint : string;
  bt_deployment_id : string;
  bt_deployment_release_fingerprint : string;
  bt_temporal_task_queue : string
}.

Record IngestionResult := mkIngestion {
  ir_event_id : UUID;
  ir_created : bool;
  ir_correlation_status : CorrelationStatus;
  ir_correlation_reason : option string;
  ir_process_instance_id : option UUID;
  ir_outbox_message_id : option UUID
}.

(** ** Tenants *)

Definition require_ingress_tenant (tenant_id : UUID) (deployment_id : option string) : Tx string :=
  _ ← set_tenant_context tenant_id;
  rows ← select (λ t : Tenant, eqb (tn_id t) tenant_id);
  row ← one_or_none rows;
  match row with
  | None => tx_raise TenantNotFound (str_uuid tenant_id)
  | Some t =>
      _ ← tx_raise_if (match deployment_id with
                       | Some d => negb (eqb (tn_deployment_id t) d) | None => false end)
            TenantNotAuthorized (str_uuid tenant_id);
      _ ← tx_raise_if (negb (eqb (tn_status t) TS_ACTIVE)) TenantSuspended (str_uuid tenant_id);
      mret (tn_deployment_id t)
  end.

(** ** Stored events *)

Definition is_source_event (event : CanonicalEvent) (e : EventInbox) : bool :=
  eqb (ei_source e) (ce_source event) && eqb (ei_source_event_id e) (ce_source_event_id event).

(** The outer join with the deliveries of an event. *)
Definition with_deliveries (messages : list OutboxMessage) (e : EventInbox) : list (EventInbox * option UUID) :=
  match List.filter (λ m, eqb (om_tenant_id m) (ei_tenant_id e)
                          && eqb (om_causation_event_id m) (Some (ei_id e))) messages with
  | [] => [(e, None)]
  | ms => (λ m, (e, Some (om_id m))) <$> ms
  end.

Definition stored_result (row : EventInbox * option UUID) : IngestionResult :=
  mkIngestion (ei_id (fst row)) false (ei_correlation_status (fst row)) (ei_correlation_reason (fst row))
    (ei_process_instance_id (fst row)) (snd row).

Definition _existing_result (event : CanonicalEvent) : Tx (option IngestionResult) :=
  events ← select (is_source_event event);
  messages ← select (λ _ : OutboxMessage, true);
  row ← one_or_none (events ≫= with_deliveries messages);
  mret (stored_result <$> row).

(** ** Correlation *)

(** [_unique_references]: a reference has no field outside its key, so that the
    last of equal references is the first. *)
Definition _unique_references (references : list ExternalReference) : list ExternalReference :=
  fold_left (λ unique r, if bool_decide (r ∈ unique) then unique else unique ++ [r]) references [].

Definition names (r : ExternalReference) (c : ExternalCorrelation) : bool :=
  eqb (ec_provider c) (er_provider r) && eqb (ec_resource_type c) (er_resource_type r)
  && eqb (ec_external_id c) (er_external_id r).
Definition names_any (references : list ExternalReference) (c : ExternalCorrelation) : bool :=
  existsb (λ r, names r c) references.

(** The processes that own the references. *)
Definition correlated (references : list ExternalReference) : Tx (list UUID) :=
  if negb (nonempty references) then mret []
  else
    rows ← select (names_any (_unique_references references));
    mret (ec_process_instance_id <$> rows).

(** The branches on the number of candidates. *)
Definition match_candidates (candidates : list UUID) : option UUID * CorrelationStatus * string :=
  match remove_dups candidates with
  | [] => (None, CS_PENDING, "no_process_match"%string)
  | [p] => (Some p, CS_MATCHED, "single_process_match"%string)
  | _ => (None, CS_PENDING, "ambiguous_external_references"%string)
  end.

Definition _resolve_process (event : CanonicalEvent) : Tx (option UUID * CorrelationStatus * string) :=
  match ce_process_instance_id event with
  | Some p =>
      explicit ← scalar (λ q : ProcessInstance, eqb (pi_id q) p);
      match explicit with
      | None => mret (None, CS_REJECTED, "explicit_process_not_found"%string)
      | Some q =>
          owners ← correlated (ce_external_references event);
          mret (match_candidates (pi_id q :: owners))
      end
  | None =>
      owners ← correlated (ce_external_references event);
      mret (match_candidates owners)
  end.

Definition new_process (id tenant_id : UUID) (b : ProcessBootstrap) (now : Z) : ProcessInstance :=
  mkProcessInstance id tenant_id (bt_process_type b) (bt_definition_version b) (bt_extension_manifest_hash b)
    (bt_client_pack_fingerprint b) (bt_process_definition_fingerprint b) (bt_deployment_id b)
    (bt_deployment_release_fingerprint b) (bt_temporal_task_queue b) PS_ACTIVE
    ("tenant/" +:+ str_uuid tenant_id +:+ "/process/" +:+ str_uuid id) None ∅ ∅ ∅ None [] [] [] [] [] [] 0 now.

Definition _create_process (tenant_id : UUID) (b : ProcessBootstrap) : Tx UUID :=
  process_id ← draw_uuid;
  now ← transaction_now;
  _ ← insert (new_process process_id tenant_id b now);
  mret process_id.

(** The references without an owner; one that another process owns stops the
    transaction. *)
Fixpoint unowned (existing : list ExternalCorrelation) (process_id : UUID) (references : list ExternalReference)
  : result (list ExternalReference) :=
  match references with
  | [] => Ok []
  | r :: references =>
      match ec_process_instance_id <$> List.find (names r) existing with
      | Some owner =>
          _ ← raise_if (negb (eqb owner process_id)) RuntimeError
                "external reference changed ownership during correlation";
          unowned existing process_id references
      | None =>
          rest ← unowned existing process_id references;
          Ok (r :: rest)
      end
  end.

Definition new_correlation (id tenant_id process_id : UUID) (r : ExternalReference) (now : Z)
  : ExternalCorrelation :=
  mkExternalCorrelation id tenant_id process_id (er_provider r) (er_resource_type r) (er_external_id r) now.

(** [session.add_all(additions)] and the flush. *)
Fixpoint add_correlations (tenant_id process_id : UUID) (additions : list ExternalReference) : Tx unit :=
  match additions with
  | [] => mret tt
  | r :: additions =>
      id ← draw_uuid;
      now ← transaction_now;
      _ ← insert (new_correlation id tenant_id process_id r now);
      add_correlations tenant_id process_id additions
  end.

Definition persist_references (tenant_id process_id : UUID) (references : list ExternalReference) : Tx unit :=
  let unique := _unique_references references in
  if negb (nonempty unique) then mret tt
  else
    existing ← select (names_any unique);
    additions ← lift_result (unowned existing process_id unique);
    add_correlations tenant_id process_id additions.

(** ** Delivery *)

Definition delivery_key (event_id : UUID) : string := "process-event:" +:+ str_uuid event_id.

Definition is_delivery (tenant_id event_id : UUID) (m : OutboxMessage) : bool :=
  eqb (om_tenant_id m) tenant_id && eqb (om_deduplication_key m) (delivery_key event_id).

Definition schedule_delivery (event : CanonicalEvent) (process_id : UUID) : Tx UUID :=
  process ← scalar (is_process (ce_tenant_id event) process_id);
  match process with
  | None => tx_raise RuntimeError "matched process has no workflow identity"
  | Some p =>
      id ← draw_uuid;
      now ← transaction_now;
      inserted ← insert_or_skip same_dedup (new_outbox_message id (ce_tenant_id event) process_id
        (Some (ce_event_id event)) "temporal.process_event" (pi_workflow_id p) (delivery_key (ce_event_id event))
        [("event_id", JStr (str_uuid (ce_event_id event))); ("event_type", JStr (ce_event_type event))]%string now);
      match inserted with
      | Some id => mret id
      | None =>
          existing ← scalar (is_delivery (ce_tenant_id event) (ce_event_id event));
          match existing with
          | Some m =>
              _ ← tx_raise_if (negb (eqb (om_process_instance_id m) (Some process_id))) RuntimeError
                    "event delivery identity conflicts with its destination";
              mret (om_id m)
          | None => tx_raise RuntimeError "event delivery identity conflicts with its destination"
          end
      end
  end.

(** ** Ingestion *)

Definition new_event_row (event : CanonicalEvent) (process_id : option UUID) (status : CorrelationStatus)
    (reason : string) (now : Z) : EventInbox :=
  mkEventInbox (ce_event_id event) (ce_tenant_id event) process_id (ce_source event)
    (ce_source_event_id event) (ce_event_type event) event status (Some reason)
    (instant (ce_received_at event)) now.

(** The correlation, with the process a trigger may start. *)
Definition correlate (event : CanonicalEvent) (bootstrap : option ProcessBootstrap)
  : Tx (option UUID * CorrelationStatus * string) :=
  '(process_id, status, reason) ← _resolve_process event;
  match process_id, bootstrap with
  | None, Some b =>
      if eqb reason "no_process_match"%string then
        p ← _create_process (ce_tenant_id event) b;
        mret (Some p, CS_MATCHED, "process_created_from_trigger"%string)
      else mret (process_id, status, reason)
  | _, _ => mret (process_id, status, reason)
  end.

(** A matched event binds its references; a terminal process records it only. *)
Definition bind_process (event : CanonicalEvent) (process_id : UUID) (reason : string) : Tx (string * bool) :=
  process ← scalar (λ p : ProcessInstance, eqb (pi_id p) process_id);
  match process with
  | None => tx_raise RuntimeError "matched process instance is unavailable"
  | Some p =>
      _ ← persist_references (ce_tenant_id event) process_id (ce_external_references event);
      mret (if is_terminal (pi_status p) then ("terminal_process_record_only"%string, false) else (reason, true))
  end.

Definition bind_matched (event : CanonicalEvent) (process_id : option UUID) (status : CorrelationStatus)
    (reason : string) : Tx (string * bool) :=
  match process_id, status with
  | Some p, CS_MATCHED => bind_process event p reason
  | _, _ => mret (reason, true)
  end.

Definition schedule_matched (event : CanonicalEvent) (process_id : option UUID) (status : CorrelationStatus)
    (deliver_to_workflow : bool) : Tx (option UUID) :=
  match process_id, status, deliver_to_workflow with
  | Some p, CS_MATCHED, true => id ← schedule_delivery event p; mret (Some id)
  | _, _, _ => mret None
  end.

(** [EventIngestionService.ingest] *)
Definition ingest (event : CanonicalEvent) (bootstrap : option ProcessBootstrap) (deployment_id : option string)
  : Tx IngestionResult :=
  _ ← tx_raise_if (bool_decide (ce_event_type event ∈ RESERVED_KERNEL_EVENT_TYPES)) ReservedKernelEventType
        ("event type is reserved for kernel use: " +:+ ce_event_type event);
  _ ← require_ingress_tenant (ce_tenant_id event) deployment_id;
  existing ← _existing_result event;
  match existing with
  | Some r => mret r
  | None =>
      _ ← tx_raise_if (bool_decide (is_Some bootstrap) && negb (nonempty (ce_external_references event)))
            TriggerReferenceRequired "a process-triggering event requires an external reference";
      '(process_id, status, reason) ← correlate event bootstrap;
      '(reason, deliver_to_workflow) ← bind_matched event process_id status reason;
      now ← transaction_now;
      inserted_id ← insert_or_skip same_source_event (new_event_row event process_id status reason now);
      match inserted_id with
      | None =>
          existing ← _existing_result event;
          match existing with
          | Some r => mret r
          | None => tx_raise RuntimeError "event ID conflicts with a different source event"
          end
      | Some id =>
          outbox_id ← schedule_matched event process_id status deliver_to_workflow;
          mret (mkIngestion id true status (Some reason) process_id outbox_id)
      end
  end.
