(* ===== verification/IngestionFacts.v ===== *)
(** * Facts about [events/ingestion.py]

    What one ingestion does to the tables; that it is idempotent per source event;
    that the ownership of external references never changes; and that only
    events matched to a running process are delivered. *)

From stdpp Require Import base gmap list strings sets.
From Stdlib Require Import ZArith Lia.
From S2P Require Import Prelude Python PyTime Json Limits Contracts Schema Session State Ingestion.

#[local] Open Scope Z_scope.

(** ** Reading *)

Definition source_events (d : Db) (t : UUID) (event : CanonicalEvent) : list EventInbox :=
  List.filter (λ e, seen t e && is_source_event event e) (event_inbox d).
Definition existing_rows (d : Db) (t : UUID) (event : CanonicalEvent) : list (EventInbox * option UUID) :=
  source_events d t event ≫= with_deliveries (List.filter (λ m, seen t m && true) (outbox_messages d)).

Lemma existing_run t event s :
  s_tenant s = Some t →
  _existing_result event s =
  match one_or_none (existing_rows (s_db s) t event) s with
  | Ok (o, s) => Ok (option_map stored_result o, s)
  | Raise e => Raise e
  end.
Proof.
  intros Hs. unfold _existing_result. rewrite (tx_bind_run _ _ _ _ _ (select_seen s t _ Hs)).
  rewrite (tx_bind_run _ _ _ _ _ (select_seen s t _ Hs)). unfold mbind at 1, Tx_bind at 1.
  change (List.filter _ (table (s_db s)) ≫= _) with (existing_rows (s_db s) t event).
  by destruct (one_or_none _ s) as [[o s1]|].
Qed.

Definition owners_of (d : Db) (t : UUID) (references : list ExternalReference) : list UUID :=
  if nonempty references then
    ec_process_instance_id <$> List.filter (λ c, seen t c && names_any (_unique_references references) c)
                                 (external_correlations d)
  else [].

Definition resolution (d : Db) (t : UUID) (event : CanonicalEvent) : option UUID * CorrelationStatus * string :=
  let owners := owners_of d t (ce_external_references event) in
  match ce_process_instance_id event with
  | Some p =>
      match hd_error (List.filter (λ q, seen t q && eqb (pi_id q) p) (process_instances d)) with
      | None => (None, CS_REJECTED, "explicit_process_not_found"%string)
      | Some q => match_candidates (pi_id q :: owners)
      end
  | None => match_candidates owners
  end.

Lemma correlated_run t refs s :
  s_tenant s = Some t → correlated refs s = Ok (owners_of (s_db s) t refs, s).
Proof.
  intros Hs. unfold correlated, owners_of. destruct (nonempty refs); [|done]. cbn [negb].
  by rewrite (tx_bind_run _ _ _ _ _ (select_seen s t _ Hs)).
Qed.

Lemma resolve_run t event s :
  s_tenant s = Some t → _resolve_process event s = Ok (resolution (s_db s) t event, s).
Proof.
  intros Hs. unfold _resolve_process, resolution. destruct (ce_process_instance_id event) as [p|].
  - rewrite (tx_bind_run _ _ _ _ _ (scalar_seen s t _ Hs)). cbn [table ProcessInstance_table].
    destruct (hd_error _) as [q|]; [|done]. by rewrite (tx_bind_run _ _ _ _ _ (correlated_run t _ s Hs)).
  - by rewrite (tx_bind_run _ _ _ _ _ (correlated_run t _ s Hs)).
Qed.

(** ** External references *)

Lemma elem_of_unique r refs : r ∈ _unique_references refs ↔ r ∈ refs.
Proof.
  unfold _unique_references. set (f := λ _ _, _).
  assert (∀ u, r ∈ fold_left f refs u ↔ r ∈ u ∨ r ∈ refs) as H.
  { induction refs as [|x refs IH]; intros u; cbn; [rewrite elem_of_nil; tauto|].
    rewrite IH, elem_of_cons. unfold f. case_bool_decide; [|rewrite elem_of_app, list_elem_of_singleton];
      naive_solver. }
  rewrite H, elem_of_nil. tauto.
Qed.

(** The process owns the reference. *)
Definition owns (d : Db) (t p : UUID) (r : ExternalReference) : Prop :=
  ∃ c, c ∈ external_correlations d ∧ ec_tenant_id c = t ∧ names r c = true ∧ ec_process_instance_id c = p.

(** No other process owns it, where the table's identities are unique. *)
Definition unique_correlations (d : Db) : Prop :=
  ∀ c c', c ∈ external_correlations d → c' ∈ external_correlations d → same_correlation c c' = true → c = c'.
Definition sole_owner (d : Db) (t p : UUID) (r : ExternalReference) : Prop :=
  unique_correlations d → ∀ c, c ∈ external_correlations d → ec_tenant_id c = t → names r c = true →
  ec_process_instance_id c = p.

Lemma names_new id t p r now : names r (new_correlation id t p r now) = true.
Proof. unfold names. cbn. by rewrite !eqb_refl. Qed.

Lemma names_same r c c' : names r c = true → names r c' = true → ec_tenant_id c = ec_tenant_id c' →
  same_correlation c c' = true.
Proof.
  unfold names, same_correlation. rewrite !andb_true_iff, !eqb_eq. intros [[-> ->] ->] [[-> ->] ->] ->. auto.
Qed.

(** The rows that are added. *)
Lemma add_correlations_ok t p additions s u s' :
  s_tenant s = Some t → add_correlations t p additions s = Ok (u, s') →
  ∃ new, s_db s' = s_db s <| external_correlations := external_correlations (s_db s) ++ new |>
    ∧ s_tenant s' = Some t ∧ Forall (λ c, ec_tenant_id c = t ∧ ec_process_instance_id c = p) new
    ∧ Forall (λ r, Exists (λ c, names r c = true) new) additions
    ∧ Forall (λ c, Exists (λ r, names r c = true) additions) new.
Proof.
  revert s. induction additions as [|r additions IH]; intros s Hs H; cbn [add_correlations] in H.
  { apply mret_ok in H as [_ ->]. exists []. rewrite app_nil_r. split_and!; auto. by destruct (s_db s). }
  apply tx_bind_ok in H as (id & ? & [_ ->]%draw_uuid_ok & H).
  apply tx_bind_ok in H as (now & ? & [_ ->]%transaction_now_ok & H).
  apply tx_bind_ok in H as ([] & ? & [_ ->]%insert_ok & H).
  apply IH in H as (new & Hd & Ht & Hp & Ha & Hn); [|done].
  exists (new_correlation id t p r now :: new). cbn in Hd. split_and!.
  - rewrite Hd. cbn. by rewrite <- app_assoc.
  - done.
  - by constructor.
  - constructor; [left; apply names_new|]. eapply Forall_impl; [exact Ha|]. intros; by right.
  - constructor; [left; apply names_new|]. eapply Forall_impl; [exact Hn|]. intros; by right.
Qed.

Lemma unowned_ok existing p refs additions :
  unowned existing p refs = Ok additions →
  Forall (λ r, match List.find (names r) existing with
               | Some c => ec_process_instance_id c = p | None => r ∈ additions end) refs
  ∧ Forall (λ r, List.find (names r) existing = None) additions.
Proof.
  revert additions. induction refs as [|r refs IH]; intros additions H; cbn in H.
  { injection H as <-. by split. }
  destruct (List.find (names r) existing) as [c|] eqn:E; cbn in H.
  - apply bind_ok in H as ([] & Hc%raise_if_ok & H). apply IH in H as [H1 H2]. split; [|done].
    constructor; [|done]. rewrite E. by apply negb_false_iff, eqb_true in Hc.
  - apply bind_ok in H as (rest & Hr & [= <-]). apply IH in Hr as [H1 H2]. split.
    + constructor; [rewrite E; apply list_elem_of_here|]. eapply Forall_impl; [exact H1|].
      intros x Hx. cbn in *. destruct (List.find (names x) existing); [done|]. by apply list_elem_of_further.
    + by constructor.
Qed.

Lemma find_seen t q r cs c :
  List.find (names r) (List.filter (λ c, seen t c && q c) cs) = Some c →
  c ∈ cs ∧ names r c = true ∧ ec_tenant_id c = t.
Proof.
  intros [Hin Hn]%List.find_some. rewrite <- list_elem_of_In in Hin.
  apply elem_of_filter_bool in Hin as [[Hv%eqb_true _]%andb_true_iff Hin]. cbn in Hv. by injection Hv as ->.
Qed.

Lemma persist_references_ok t p refs s u s' :
  s_tenant s = Some t → persist_references t p refs s = Ok (u, s') →
  ∃ new, s_db s' = s_db s <| external_correlations := external_correlations (s_db s) ++ new |>
    ∧ s_tenant s' = Some t ∧ Forall (λ c, ec_tenant_id c = t ∧ ec_process_instance_id c = p) new
    ∧ (∀ r, r ∈ refs → owns (s_db s') t p r) ∧ (∀ r, r ∈ refs → sole_owner (s_db s) t p r).
Proof.
  intros Hs H. unfold persist_references in H. cbv zeta in H.
  destruct (nonempty (_unique_references refs)) eqn:En; cbn [negb] in H.
  2:{ apply mret_ok in H as [_ ->]. exists []. rewrite app_nil_r.
      assert (∀ r, r ∉ refs) as Hnone.
      { intros r Hr%elem_of_unique. destruct (_unique_references refs); [by apply elem_of_nil in Hr|done]. }
      split_and!; [by destruct (s_db s)|done|done|..]; by intros r ?%Hnone. }
  rewrite (tx_bind_run _ _ _ _ _ (select_seen s t _ Hs)) in H.
  apply tx_bind_ok in H as (additions & ? & [Hu ->]%lift_result_ok & H).
  apply add_correlations_ok in H as (new & Hd & Ht & Hp & Ha & _); [|done].
  exists new. apply unowned_ok in Hu as [Hu _]. cbn [table ExternalCorrelation_table] in Hu.
  assert (∀ r, r ∈ refs → match List.find (names r) (List.filter (λ c, seen t c && names_any (_unique_references refs) c)
    (external_correlations (s_db s))) with Some c => ec_process_instance_id c = p | None => r ∈ additions end) as Hr.
  { intros r Hr. rewrite Forall_forall in Hu. exact (Hu r (proj2 (elem_of_unique r refs) Hr)). }
  split_and!; try done.
  - intros r Hin. specialize (Hr r Hin). unfold owns. rewrite Hd. cbn. destruct (List.find _ _) as [c|] eqn:E.
    + apply find_seen in E as (Hc & Hn & Hct). exists c. rewrite elem_of_app. auto.
    + rewrite Forall_forall in Ha. specialize (Ha r Hr). apply Exists_exists in Ha as (c & Hc & Hn).
      rewrite Forall_forall in Hp. destruct (Hp c Hc). exists c. rewrite elem_of_app. auto.
  - intros r Hin Hun c Hc Hct Hn. specialize (Hr r Hin). destruct (List.find _ _) as [c'|] eqn:E.
    + apply find_seen in E as (Hc' & Hn' & Hct'). rewrite (Hun c c') by (done || apply (names_same r); congruence).
      done.
    + exfalso. enough (names r c = false) by congruence. apply (List.find_none _ _ E c), list_elem_of_In, elem_of_filter_bool.
      split; [|done]. unfold seen. cbn. rewrite Hct, eqb_refl. cbn. apply existsb_exists. exists r.
      rewrite <- list_elem_of_In, elem_of_unique. done.
Qed.

(** ** The parts of an ingestion *)

Lemma require_ingress_ok t deployment s r s' :
  require_ingress_tenant t deployment s = Ok (r, s') → s' = s <| s_tenant := Some t |>.
Proof.
  intros H. unfold require_ingress_tenant in H.
  apply tx_bind_ok in H as ([] & ? & ->%set_tenant_context_ok & H).
  apply tx_bind_ok in H as (rows & ? & [-> _]%select_ok & H).
  apply tx_bind_ok in H as (row & s1 & Hr & H).
  assert (s1 = s <| s_tenant := Some t |>) as ->.
  { destruct rows as [|x [|]]; [by apply mret_ok in Hr as [_ ->]..|done]. }
  destruct row as [x|]; [|done].
  apply tx_bind_ok in H as ([] & ? & [_ ->]%tx_raise_if_ok & H).
  by apply tx_bind_ok in H as ([] & ? & [_ ->]%tx_raise_if_ok & [_ ->]%mret_ok).
Qed.

(** The correlation of an event: as resolved, or with a process it started. *)
Inductive correlated_as (event : CanonicalEvent) (bootstrap : option ProcessBootstrap) (d : Db)
  : list ProcessInstance → option UUID → CorrelationStatus → string → Prop :=
  | as_resolved p st reason :
      resolution d (ce_tenant_id event) event = (p, st, reason) →
      correlated_as event bootstrap d [] p st reason
  | as_started b id now st :
      bootstrap = Some b → resolution d (ce_tenant_id event) event = (None, st, "no_process_match"%string) →
      correlated_as event bootstrap d [new_process id (ce_tenant_id event) b now] (Some id) CS_MATCHED
        "process_created_from_trigger".

Lemma correlate_ok event bootstrap s p st reason s' :
  s_tenant s = Some (ce_tenant_id event) → correlate event bootstrap s = Ok ((p, st, reason), s') →
  s_tenant s' = Some (ce_tenant_id event) ∧ ∃ started,
    s_db s' = s_db s <| process_instances := process_instances (s_db s) ++ started |>
    ∧ correlated_as event bootstrap (s_db s) started p st reason.
Proof.
  intros Hs H. unfold correlate in H. rewrite (tx_bind_run _ _ _ _ _ (resolve_run _ event s Hs)) in H.
  destruct (resolution _ _ event) as [[p0 st0] reason0] eqn:E.
  assert ((p, st, reason, s') = (p0, st0, reason0, s) → s_tenant s' = Some (ce_tenant_id event) ∧ ∃ started,
    s_db s' = s_db s <| process_instances := process_instances (s_db s) ++ started |>
    ∧ correlated_as event bootstrap (s_db s) started p st reason) as Hsame.
  { intros [= -> -> -> ->]. split; [done|]. exists []. rewrite app_nil_r. split; [by destruct (s_db s)|].
    by constructor. }
  destruct p0 as [p0|], bootstrap as [b|];
    try (apply mret_ok in H as [[= -> -> ->] ->]; by apply Hsame).
  destruct (eqb reason0 _) eqn:Er; [|apply mret_ok in H as [[= -> -> ->] ->]; by apply Hsame].
  apply eqb_true in Er as ->. apply tx_bind_ok in H as (id & s1 & Hc & [[= -> -> ->] ->]%mret_ok).
  unfold _create_process in Hc. apply tx_bind_ok in Hc as (? & ? & [-> ->]%draw_uuid_ok & Hc).
  apply tx_bind_ok in Hc as (now & ? & [_ ->]%transaction_now_ok & Hc).
  apply tx_bind_ok in Hc as ([] & ? & [_ ->]%insert_ok & [-> ->]%mret_ok).
  split; [done|]. eexists. split; [reflexivity|]. by econstructor.
Qed.

(** The process an event is bound to, and its new references. *)
Record Bound (event : CanonicalEvent) (p : UUID) (d d' : Db) (process : ProcessInstance)
    (new : list ExternalCorrelation) : Prop := {
  bd_process : hd_error (List.filter (λ q, seen (ce_tenant_id event) q && eqb (pi_id q) p) (process_instances d))
    = Some process;
  bd_db : d' = d <| external_correlations := external_correlations d ++ new |>;
  bd_new : Forall (λ c, ec_tenant_id c = ce_tenant_id event ∧ ec_process_instance_id c = p) new;
  bd_owns : ∀ r, r ∈ ce_external_references event → owns d' (ce_tenant_id event) p r;
  bd_sole : ∀ r, r ∈ ce_external_references event → sole_owner d (ce_tenant_id event) p r
}.

Lemma bind_process_ok event p reason s reason' deliver s' :
  s_tenant s = Some (ce_tenant_id event) → bind_process event p reason s = Ok ((reason', deliver), s') →
  s_tenant s' = Some (ce_tenant_id event) ∧ ∃ process new, Bound event p (s_db s) (s_db s') process new
    ∧ deliver = negb (is_terminal (pi_status process)).
Proof.
  intros Hs H. unfold bind_process in H. rewrite (tx_bind_run _ _ _ _ _ (scalar_seen s _ _ Hs)) in H.
  cbn [table ProcessInstance_table] in H. destruct (hd_error _) as [process|] eqn:Hp; [|done].
  apply tx_bind_ok in H as ([] & s1 & Hr & H).
  apply persist_references_ok in Hr as (new & Hd & Ht & Hn & Ho & Hsole); [|done].
  apply mret_ok in H as [Hd' ->]. split; [done|]. exists process, new. split; [by split|].
  by destruct (is_terminal _); injection Hd' as _ ->.
Qed.

(** The delivery of an event: a new message, or one with its key. *)
Inductive delivered (event : CanonicalEvent) (p : UUID) (d : Db) : UUID → Db → Prop :=
  | delivered_new process id now m :
      hd_error (List.filter (is_process (ce_tenant_id event) p) (process_instances d)) = Some process →
      m = new_outbox_message id (ce_tenant_id event) p (Some (ce_event_id event)) "temporal.process_event"
            (pi_workflow_id process) (delivery_key (ce_event_id event))
            [("event_id", JStr (str_uuid (ce_event_id event))); ("event_type", JStr (ce_event_type event))]%string
            now →
      delivered event p d id (d <| outbox_messages := outbox_messages d ++ [m] |>)
  | delivered_before m :
      m ∈ outbox_messages d → is_delivery (ce_tenant_id event) (ce_event_id event) m = true →
      om_process_instance_id m = Some p → delivered event p d (om_id m) d.

Lemma schedule_delivery_ok event p s id s' :
  s_tenant s = Some (ce_tenant_id event) → schedule_delivery event p s = Ok (id, s') →
  delivered event p (s_db s) id (s_db s').
Proof.
  intros Hs H. unfold schedule_delivery in H. apply tx_bind_ok in H as (process & ? & Hp & H).
  rewrite (scalar_run _ (ce_tenant_id event)) in Hp; [|done|by intros ? []%is_process_ids]. injection Hp as <- <-.
  destruct (hd_error _) as [process|] eqn:Hp; [|done].
  apply tx_bind_ok in H as (? & ? & [-> ->]%draw_uuid_ok & H).
  apply tx_bind_ok in H as (now & ? & [_ ->]%transaction_now_ok & H).
  apply tx_bind_ok in H as (inserted & s1 & Hi & H).
  apply insert_or_skip_ok in Hi as [(_ & -> & ->)|(_ & -> & [_ ->]%insert_ok)].
  - apply tx_bind_ok in H as (existing & ? & He & H).
    rewrite (scalar_run _ (ce_tenant_id event)) in He by (done || (unfold is_delivery; tenant_first)).
    injection He as <- <-. cbn in H.
    destruct (hd_error (List.filter (is_delivery _ _) _)) as [m|] eqn:Hm; [|done].
    apply hd_filter_Some in Hm as [Hm1 Hm2].
    apply tx_bind_ok in H as ([] & ? & [Hpm%negb_false_iff%eqb_true ->]%tx_raise_if_ok & [-> ->]%mret_ok).
    by apply delivered_before.
  - apply mret_ok in H as [-> ->]. cbn. by eapply delivered_new.
Qed.

(** ** What an ingestion does *)

Definition add_event (row : EventInbox) (d : Db) : Db := d <| event_inbox := event_inbox d ++ [row] |>.
Definition start_processes (started : list ProcessInstance) (d : Db) : Db :=
  d <| process_instances := process_instances d ++ started |>.
Definition fresh_event (event : CanonicalEvent) (d : Db) : Prop :=
  Forall (λ e, ei_id e ≠ ce_event_id event) (event_inbox d).

(** The source reported the event before; it is stored without a process; or it is
    bound to one, and delivered unless that process is terminal. *)
Inductive ingest_effect (event : CanonicalEvent) (bootstrap : option ProcessBootstrap) (d : Db)
  : IngestionResult → Db → Prop :=
  | ingest_known row :
      existing_rows d (ce_tenant_id event) event = [row] →
      ingest_effect event bootstrap d (stored_result row) d
  | ingest_stored p st reason now :
      existing_rows d (ce_tenant_id event) event = [] →
      correlated_as event bootstrap d [] p st reason → p = None ∨ st ≠ CS_MATCHED →
      fresh_event event d →
      ingest_effect event bootstrap d (mkIngestion (ce_event_id event) true st (Some reason) p None)
        (add_event (new_event_row event p st reason now) d)
  | ingest_bound p reason reason' process started new now outbox_id d2 d' :
      existing_rows d (ce_tenant_id event) event = [] →
      correlated_as event bootstrap d started (Some p) CS_MATCHED reason →
      Bound event p (start_processes started d) d2 process new → fresh_event event d →
      (if is_terminal (pi_status process)
       then outbox_id = None ∧ d' = add_event (new_event_row event (Some p) CS_MATCHED reason' now) d2
       else ∃ id, outbox_id = Some id
            ∧ delivered event p (add_event (new_event_row event (Some p) CS_MATCHED reason' now) d2) id d') →
      ingest_effect event bootstrap d
        (mkIngestion (ce_event_id event) true CS_MATCHED (Some reason') (Some p) outbox_id) d'.

Lemma with_deliveries_nonempty ms e : with_deliveries ms e ≠ [].
Proof. unfold with_deliveries. by destruct (List.filter _ ms). Qed.

Lemma existing_rows_nil d t event : existing_rows d t event = [] ↔ source_events d t event = [].
Proof.
  unfold existing_rows. destruct (source_events d t event) as [|e es]; [done|]. cbn. split; [|done].
  intros [E _]%app_eq_nil. by apply with_deliveries_nonempty in E.
Qed.

(** Only an event of the same source and identity keeps the row out. *)
Lemma store_event_ok event p st reason now s inserted s' :
  source_events (s_db s) (ce_tenant_id event) event = [] →
  insert_or_skip same_source_event (new_event_row event p st reason now) s = Ok (inserted, s') →
  inserted = Some (ce_event_id event) ∧ s_tenant s' = s_tenant s ∧ fresh_event event (s_db s)
  ∧ s_db s' = add_event (new_event_row event p st reason now) (s_db s).
Proof.
  intros Hno [(He & _)|(_ & -> & [Hv ->]%insert_ok)]%insert_or_skip_ok.
  - exfalso. apply existsb_exists in He as (e & Hin & Hk). rewrite <- list_elem_of_In in Hin.
    assert (e ∈ source_events (s_db s) (ce_tenant_id event) event) as Hse.
    { apply elem_of_filter_bool. split; [|done]. unfold same_source_event in Hk. cbn in Hk.
      rewrite !andb_true_iff in Hk. destruct Hk as [[Ht%eqb_true Hs%eqb_true] Hi%eqb_true].
      unfold seen, is_source_event. cbn. by rewrite Ht, Hs, Hi, !eqb_refl. }
    rewrite Hno in Hse. by apply elem_of_nil in Hse.
  - split_and!; [done|done| |done]. apply grows_insert in Hv as (new & Hn & Hf).
    rewrite table_set in Hn. apply app_inv_head in Hn as <-. by inversion_clear Hf.
Qed.

Lemma ingest_ok event bootstrap deployment s res s' :
  ingest event bootstrap deployment s = Ok (res, s') → ingest_effect event bootstrap (s_db s) res (s_db s').
Proof.
  intros H. unfold ingest in H. apply tx_bind_ok in H as ([] & ? & [_ ->]%tx_raise_if_ok & H).
  apply tx_bind_ok in H as (dep & ? & ->%require_ingress_ok & H).
  apply tx_bind_ok in H as (existing & s0 & He & H). rewrite (existing_run (ce_tenant_id event)) in He by done.
  cbn in He. destruct (existing_rows (s_db s) (ce_tenant_id event) event) as [|row [|]] eqn:Er; [| |done].
  2:{ injection He as <- <-. apply mret_ok in H as [-> ->]. by apply ingest_known. }
  injection He as <- <-. cbn [option_map] in H.
  apply tx_bind_ok in H as ([] & ? & [_ ->]%tx_raise_if_ok & H).
  apply tx_bind_ok in H as ([[p st] reason] & s1 & Hc & H).
  apply correlate_ok in Hc as (Hs1 & started & Hd1 & Hc); [|done]. cbn in Hd1, Hc.
  apply tx_bind_ok in H as ([reason' deliver] & s2 & Hb & H).
  apply tx_bind_ok in H as (now & ? & [_ ->]%transaction_now_ok & H).
  apply tx_bind_ok in H as (inserted & s3 & Hi & H). pose proof Er as Ese%existing_rows_nil.
  destruct (decide (p = None ∨ st ≠ CS_MATCHED)) as [Hp|Hp].
  - assert (started = []) as -> by (destruct Hc; [done|naive_solver]).
    assert (bind_matched event p st reason s1 = Ok ((reason, true), s1)) as Hb'
      by (destruct p, st; naive_solver).
    rewrite Hb' in Hb. injection Hb as <- <- <-.
    assert (s_db s1 = s_db s) as Hd by (rewrite Hd1, app_nil_r; by destruct (s_db s)).
    apply store_event_ok in Hi as (-> & _ & Hf & Hd3); [|by rewrite Hd]. rewrite Hd in Hf, Hd3.
    apply tx_bind_ok in H as (o & s4 & Ho & [-> ->]%mret_ok).
    assert (schedule_matched event p st true s3 = Ok (None, s3)) as Ho' by (destruct p, st; naive_solver).
    rewrite Ho' in Ho. injection Ho as <- <-. rewrite Hd3. by apply ingest_stored.
  - destruct p as [p|]; [|destruct Hp; by left]. destruct st; [destruct Hp; by right| |destruct Hp; by right].
    cbn [bind_matched] in Hb.
    apply bind_process_ok in Hb as (Hs2 & process & new & Hb & ->); [|done].
    assert (source_events (s_db s2) (ce_tenant_id event) event = []) as Ese2.
    { destruct Hb as [_ -> _ _ _]. rewrite Hd1. exact Ese. }
    apply store_event_ok in Hi as (-> & Hs3 & Hf & Hd3); [|done]. rewrite Hs2 in Hs3.
    assert (fresh_event event (s_db s)) as Hf'.
    { destruct Hb as [_ Hb _ _ _]. rewrite Hb, Hd1 in Hf. exact Hf. }
    apply tx_bind_ok in H as (o & s4 & Ho & [-> ->]%mret_ok). cbn [schedule_matched] in Ho.
    rewrite Hd1 in Hb. eapply ingest_bound; try done.
    destruct (is_terminal (pi_status process)).
    + apply mret_ok in Ho as [-> ->]. by rewrite <- Hd3.
    + apply tx_bind_ok in Ho as (id & s5 & Ho & [-> ->]%mret_ok). apply schedule_delivery_ok in Ho; [|done].
      rewrite Hd3 in Ho. eauto.
Qed.

(** ** Repeated reports *)

(** A result as a repeated report returns it. *)
Definition as_stored (r : IngestionResult) : IngestionResult :=
  mkIngestion (ir_event_id r) false (ir_correlation_status r) (ir_correlation_reason r)
    (ir_process_instance_id r) (ir_outbox_message_id r).

(** A delivery names its event. *)
Definition deliveries_caused (d : Db) (event : CanonicalEvent) : Prop :=
  ∀ m, m ∈ outbox_messages d → is_delivery (ce_tenant_id event) (ce_event_id event) m = true →
    om_causation_event_id m = Some (ce_event_id event).

Lemma fresh_uncaused d event m :
  integral OutboxMessage d → fresh_event event d → m ∈ outbox_messages d →
  om_causation_event_id m ≠ Some (ce_event_id event).
Proof.
  unfold integral, fresh_event. rewrite !Forall_forall. intros Hi Hf Hm E. specialize (Hi m Hm). cbn in Hi.
  rewrite E in Hi. apply andb_true_iff in Hi as [_ (e & He & [_ Hid%eqb_true]%andb_true_iff)%existsb_exists].
  by apply (Hf e); [apply list_elem_of_In|].
Qed.

Lemma existing_rows_snoc d d' event row :
  source_events d (ce_tenant_id event) event = [] → event_inbox d' = event_inbox d ++ [row] →
  seen (ce_tenant_id event) row && is_source_event event row = true →
  existing_rows d' (ce_tenant_id event) event
  = with_deliveries (List.filter (λ m, seen (ce_tenant_id event) m && true) (outbox_messages d')) row.
Proof.
  unfold existing_rows, source_events. intros Hno -> Hrow. rewrite List.filter_app, Hno. cbn [List.filter app].
  rewrite Hrow. cbn. by rewrite app_nil_r.
Qed.

Lemma with_deliveries_app ms ms' e :
  (∀ m, m ∈ ms → om_causation_event_id m ≠ Some (ei_id e)) → with_deliveries (ms ++ ms') e = with_deliveries ms' e.
Proof.
  intros Hm. unfold with_deliveries. rewrite List.filter_app, (filter_nil _ ms); [done|].
  intros m Hin. specialize (Hm m Hin). apply andb_false_iff. right. unfold eqb. by apply bool_decide_eq_false.
Qed.

Lemma seen_source event p st reason now :
  seen (ce_tenant_id event) (new_event_row event p st reason now)
  && is_source_event event (new_event_row event p st reason now) = true.
Proof. unfold seen, is_source_event. cbn. by rewrite !eqb_refl. Qed.

Lemma undelivered d d' event row :
  source_events d (ce_tenant_id event) event = [] → event_inbox d' = event_inbox d ++ [row] →
  outbox_messages d' = outbox_messages d → seen (ce_tenant_id event) row && is_source_event event row = true →
  ei_id row = ce_event_id event → integral OutboxMessage d → fresh_event event d →
  existing_rows d' (ce_tenant_id event) event = [(row, None)].
Proof.
  intros Hno He Ho Hrow Hid Hi Hf. rewrite (existing_rows_snoc d d' event row) by done. rewrite Ho.
  rewrite <- (app_nil_r (List.filter _ _)), with_deliveries_app; [done|].
  intros m [_ Hm]%elem_of_filter_bool. rewrite Hid. by apply (fresh_uncaused d).
Qed.

Lemma ingest_reported event bootstrap d res d' :
  ingest_effect event bootstrap d res d' → integral OutboxMessage d → deliveries_caused d event →
  tenants d' = tenants d ∧ ∃ row, existing_rows d' (ce_tenant_id event) event = [row] ∧ stored_result row = as_stored res.
Proof.
  intros H Hi Hc.
  destruct H as [row Hr|p st reason now Hr%existing_rows_nil _ _ Hf
    |p reason reason' process started new now outbox_id d2 d' Hr%existing_rows_nil _ [_ Hd2 _ _ _] Hf H]; [by eauto|..].
  { split; [done|]. eexists. split; [by eapply undelivered; eauto using seen_source|done]. }
  assert (event_inbox d2 = event_inbox d ∧ outbox_messages d2 = outbox_messages d ∧ tenants d2 = tenants d)
    as (He2 & Ho2 & Ht2) by (by rewrite Hd2).
  destruct (is_terminal _).
  { destruct H as [-> ->]. split; [done|]. eexists. split; [apply (undelivered d _ event); first [done|apply seen_source|cbn; by rewrite He2]|done]. }
  destruct H as (id & -> & H). set (row := new_event_row event (Some p) CS_MATCHED reason' now) in *.
  destruct H as [q id now' m _ Hm|m Hm Hk _].
  2:{ exfalso. cbn in Hm. rewrite Ho2 in Hm. eapply (fresh_uncaused d); eauto. }
  split; [done|]. exists (row, Some id). split; [|done].
  rewrite (existing_rows_snoc d _ event row); [|done|cbn; congruence|apply seen_source].
  cbn [outbox_messages field_update add_event]. rewrite List.filter_app, with_deliveries_app.
  - subst m. unfold with_deliveries, seen. cbn. rewrite eqb_refl. cbn. by rewrite !eqb_refl.
  - intros x [_ Hx]%elem_of_filter_bool. cbn in Hx. rewrite Ho2 in Hx. by apply (fresh_uncaused d).
Qed.

(** Rows that later transactions may add or dispatch, the event's apart. *)
Record Untouched (event : CanonicalEvent) (id : UUID) (d later : Db) : Prop := {
  ut_tenants : tenants later = tenants d;
  ut_events : ∃ more, event_inbox later = event_inbox d ++ more
    ∧ Forall (λ e, seen (ce_tenant_id event) e && is_source_event event e = false) more;
  ut_messages : ∃ old more, outbox_messages later = old ++ more
    ∧ Forall2 (λ m m', om_id m' = om_id m ∧ om_tenant_id m' = om_tenant_id m
                       ∧ om_causation_event_id m' = om_causation_event_id m) (outbox_messages d) old
    ∧ Forall (λ m, om_causation_event_id m ≠ Some id) more
}.

Lemma with_deliveries_same ms ms' e :
  Forall2 (λ m m', om_id m' = om_id m ∧ om_tenant_id m' = om_tenant_id m
                   ∧ om_causation_event_id m' = om_causation_event_id m) ms ms' →
  with_deliveries ms' e = with_deliveries ms e.
Proof.
  intros H. unfold with_deliveries. set (q := λ m, _).
  assert (om_id <$> List.filter q ms' = om_id <$> List.filter q ms) as E.
  { induction H as [|m m' ms ms' (Hid & Ht & Hc) _ IH]; cbn; [done|].
    assert (q m' = q m) as -> by (unfold q; by rewrite Ht, Hc). destruct (q m); cbn; congruence. }
  destruct (List.filter q ms) as [|x xs], (List.filter q ms') as [|y ys]; try done.
  assert (∀ l, (λ m, (e, Some (om_id m))) <$> l = (λ i, (e, Some i)) <$> (om_id <$> l)) as Hids
    by (intros; by rewrite <- list_fmap_compose).
  by rewrite !Hids, E.
Qed.

Lemma with_deliveries_snoc ms ms' e :
  (∀ m, m ∈ ms' → om_causation_event_id m ≠ Some (ei_id e)) → with_deliveries (ms ++ ms') e = with_deliveries ms e.
Proof.
  intros Hm. unfold with_deliveries. rewrite List.filter_app, (filter_nil _ ms'), app_nil_r; [done|].
  intros m Hin. specialize (Hm m Hin). apply andb_false_iff. right. unfold eqb. by apply bool_decide_eq_false.
Qed.

Lemma existing_rows_untouched event d later row :
  existing_rows d (ce_tenant_id event) event = [row] → Untouched event (ei_id (fst row)) d later →
  existing_rows later (ce_tenant_id event) event = [row].
Proof.
  intros H [_ (me & He & Hme) (old & mm & Hm & Hold & Hmm)]. unfold existing_rows, source_events in *.
  rewrite He, List.filter_app, (filter_nil _ me), app_nil_r by (rewrite Forall_forall in Hme; exact Hme).
  destruct (List.filter _ (event_inbox d)) as [|e es]; [done|]. cbn in *.
  assert (es = [] ∧ with_deliveries (List.filter (λ m, seen (ce_tenant_id event) m && true) (outbox_messages d)) e = [row])
    as [-> Hrow].
  { destruct (with_deliveries _ e) as [|x xs] eqn:E; [by apply with_deliveries_nonempty in E|].
    injection H as -> [-> H]%app_eq_nil. split; [|done]. destruct es as [|e' es]; [done|]. cbn in H.
    apply app_eq_nil in H as [H _]. by apply with_deliveries_nonempty in H. }
  assert (fst row = e) as <-.
  { unfold with_deliveries in Hrow. destruct (List.filter _ (List.filter _ _)) as [|m []]; by injection Hrow as <-. }
  cbn. rewrite app_nil_r, <- Hrow, Hm, List.filter_app.
  rewrite with_deliveries_snoc.
  2:{ intros m [_ Hin]%elem_of_filter_bool. rewrite Forall_forall in Hmm. by apply Hmm. }
  apply with_deliveries_same. clear -Hold.
  induction Hold as [|m m' ms ms' Hmm' _ IH]; [constructor|]. cbn. destruct Hmm' as (Hid & Ht & Hc).
  assert (seen (ce_tenant_id event) m' = seen (ce_tenant_id event) m) as -> by (unfold seen; cbn; by rewrite Ht).
  destruct (seen _ m); cbn; [|done]. by constructor.
Qed.

(** An active tenant of the deployment passes. *)
Lemma require_ingress_later t deployment s r s' later :
  require_ingress_tenant t deployment s = Ok (r, s') → tenants (s_db later) = tenants (s_db s) →
  require_ingress_tenant t deployment later = Ok (r, later <| s_tenant := Some t |>).
Proof.
  intros H Ht. unfold require_ingress_tenant in *.
  rewrite (tx_bind_run _ _ s tt (s <| s_tenant := Some t |>)) in H by done.
  rewrite (tx_bind_run _ _ later tt (later <| s_tenant := Some t |>)) by done.
  assert (s_tenant (s <| s_tenant := Some t |>) = Some t) as Hs by done.
  assert (s_tenant (later <| s_tenant := Some t |>) = Some t) as Hl by done.
  rewrite (tx_bind_run _ _ _ _ _ (select_seen _ t _ Hs)) in H.
  rewrite (tx_bind_run _ _ _ _ _ (select_seen _ t _ Hl)). clear Hs Hl.
  cbn [table Tenant_table s_db field_update] in *. rewrite Ht. revert H. generalize (List.filter (λ r, seen t r && eqb (tn_id r) t) (tenants (s_db s))).
  intros rows H. apply tx_bind_ok in H as (row & s1 & Hr & H).
  destruct rows as [|x [|]]; [by apply mret_ok in Hr as [-> _]| |done]. apply mret_ok in Hr as [-> ->].
  cbn [one_or_none]. rewrite (tx_bind_run _ _ _ _ _ (proj2 (mret_ok _ _ _ _) (conj eq_refl eq_refl))).
  apply tx_bind_ok in H as ([] & ? & [Hd ->]%tx_raise_if_ok & H).
  apply tx_bind_ok in H as ([] & ? & [Ha ->]%tx_raise_if_ok & [-> ->]%mret_ok).
  unfold tx_raise_if, mbind, Tx_bind. by rewrite Hd, Ha.
Qed.

Lemma ingest_allowed event bootstrap deployment s res s' :
  ingest event bootstrap deployment s = Ok (res, s') →
  ∃ r s1, require_ingress_tenant (ce_tenant_id event) deployment s = Ok (r, s1).
Proof.
  intros H. unfold ingest in H. apply tx_bind_ok in H as ([] & ? & [_ ->]%tx_raise_if_ok & H).
  apply tx_bind_ok in H as (dep & s1 & H & _). eauto.
Qed.


Lemma match_candidates_matched ps p st reason :
  match_candidates ps = (p, st, reason) → (st = CS_MATCHED ↔ is_Some p) ∧ st ≠ CS_REJECTED.
Proof.
  unfold match_candidates. destruct (remove_dups ps) as [|? [|]]; intros [= <- <- <-]; (split; [split|]); try done; by intros [].
Qed.

Lemma resolution_matched d t event p st reason :
  resolution d t event = (p, st, reason) → st = CS_MATCHED ↔ is_Some p.
Proof.
  unfold resolution. destruct (ce_process_instance_id event); [destruct (hd_error _)|];
    [by intros []%match_candidates_matched| |by intros []%match_candidates_matched].
  intros [= <- <- <-]. split; [done|by intros []].
Qed.

Lemma correlated_as_matched event bootstrap d started p st reason :
  correlated_as event bootstrap d started p st reason → st = CS_MATCHED ↔ is_Some p.
Proof. destruct 1; [by eapply resolution_matched|]. by split. Qed.

(** References never change their owner.  An ingestion adds ownerships but changes
    none; an event that is matched to a process leaves all its references with that
    process, which is the only one to own them. *)
Theorem references_keep_their_owner event bootstrap deployment s res s' :
  ingest event bootstrap deployment s = Ok (res, s') →
  (∃ new, external_correlations (s_db s') = external_correlations (s_db s) ++ new
    ∧ Forall (λ c, ec_tenant_id c = ce_tenant_id event ∧ ir_process_instance_id res = Some (ec_process_instance_id c)) new)
  ∧ (ir_created res = true → ir_correlation_status res = CS_MATCHED → ∃ p, ir_process_instance_id res = Some p
     ∧ (∀ r, r ∈ ce_external_references event → owns (s_db s') (ce_tenant_id event) p r)
     ∧ (∀ r, r ∈ ce_external_references event → sole_owner (s_db s) (ce_tenant_id event) p r)).
Proof.
  intros H%ingest_ok. destruct H as [row Hr|p st reason now Hr Hcor Hp Hf
    |p reason reason' process started new now outbox_id d2 d' Hr Hcor [Hbp Hd2 Hn Ho Hsole] Hf H].
  - split; [exists []; by rewrite app_nil_r|done].
  - split; [exists []; by rewrite app_nil_r|]. cbn. intros _ Hst. destruct Hp as [->|]; [|done].
    apply correlated_as_matched in Hcor as [Hcor _]. by destruct (Hcor Hst).
  - assert (external_correlations d' = external_correlations d2) as Hd'.
    { destruct (is_terminal _); [by destruct H as [_ ->]|]. destruct H as (id & _ & H). by destruct H. }
    split.
    + exists new. split; [by rewrite Hd', Hd2|]. eapply Forall_impl; [exact Hn|]. by intros c [? <-].
    + intros _ _. exists p. split_and!; [done| |exact Hsole].
      intros r Hin. unfold owns. rewrite Hd'. by apply Ho.
Qed.

Lemma delivered_message event p d id d' :
  delivered event p d id d' →
  event_inbox d' = event_inbox d ∧ process_instances d' = process_instances d
  ∧ ∃ m, m ∈ outbox_messages d' ∧ om_id m = id ∧ om_process_instance_id m = Some p
    ∧ is_delivery (ce_tenant_id event) (ce_event_id event) m = true.
Proof.
  destruct 1 as [q id now m Hq ->|m Hm Hk Hp].
  - split_and!; [done..|]. eexists. split; [apply elem_of_app; right; apply list_elem_of_here|].
    split_and!; [done..|]. unfold is_delivery. cbn. by rewrite !eqb_refl.
  - split_and!; [done..|]. by exists m.
Qed.

(** Events reach running processes only.  A new event is stored once, as it was
    received, with the correlation that is reported.  Without a delivery nothing is
    added to the outbox, and the event is unmatched or its process is completed,
    cancelled or failed; with one, the event's message is addressed to the matched
    process, which is not terminal.  At most one process is started, from the trusted
    bootstrap, and only when no process matches. *)
Theorem events_reach_running_processes event bootstrap deployment s res s' :
  ingest event bootstrap deployment s = Ok (res, s') → ir_created res = true →
  (∃ e, event_inbox (s_db s') = event_inbox (s_db s) ++ [e]
    ∧ ei_id e = ce_event_id event ∧ ei_event_data e = event ∧ ei_correlation_status e = ir_correlation_status res
    ∧ ei_process_instance_id e = ir_process_instance_id res)
  ∧ (∃ started, process_instances (s_db s') = process_instances (s_db s) ++ started
     ∧ (started = [] ∨ ∃ b id now, bootstrap = Some b ∧ ir_process_instance_id res = Some id
          ∧ started = [new_process id (ce_tenant_id event) b now]
          ∧ (∃ st, resolution (s_db s) (ce_tenant_id event) event = (None, st, "no_process_match"%string))))
  ∧ match ir_outbox_message_id res with
    | None => outbox_messages (s_db s') = outbox_messages (s_db s)
        ∧ (ir_correlation_status res ≠ CS_MATCHED ∨ ∃ process, process ∈ process_instances (s_db s')
             ∧ ir_process_instance_id res = Some (pi_id process) ∧ is_terminal (pi_status process) = true)
    | Some id => ir_correlation_status res = CS_MATCHED ∧ ∃ process m, process ∈ process_instances (s_db s')
        ∧ ir_process_instance_id res = Some (pi_id process) ∧ is_terminal (pi_status process) = false
        ∧ m ∈ outbox_messages (s_db s') ∧ om_id m = id ∧ om_process_instance_id m = Some (pi_id process)
        ∧ is_delivery (ce_tenant_id event) (ce_event_id event) m = true
    end.
Proof.
  intros H%ingest_ok Hcr. destruct H as [row Hr|p st reason now Hr Hcor Hp Hf
    |p reason reason' process started new now outbox_id d2 d' Hr Hcor [Hbp Hd2 Hn _ _] Hf H]; [done|..].
  - split_and!; [by eexists|exists []; rewrite app_nil_r; auto|split; [done|]]. left. cbn. intros Hst.
    apply correlated_as_matched in Hcor as [Hcor _]. destruct Hp as [->|]; [|done]. by destruct (Hcor Hst).
  - apply hd_filter_Some in Hbp as [Hin [_ Hid%eqb_true]%andb_true_iff]. cbn [ir_process_instance_id ir_outbox_message_id].
    assert (event_inbox d' = event_inbox d2 ++ [new_event_row event (Some p) CS_MATCHED reason' now]
      ∧ process_instances d' = process_instances d2
      ∧ match outbox_id with
        | None => outbox_messages d' = outbox_messages d2 ∧ is_terminal (pi_status process) = true
        | Some id => is_terminal (pi_status process) = false ∧ ∃ m, m ∈ outbox_messages d' ∧ om_id m = id ∧ om_process_instance_id m = Some p
            ∧ is_delivery (ce_tenant_id event) (ce_event_id event) m = true end) as (He & Hpi & Ho).
    { destruct (is_terminal _); [by destruct H as [-> ->]|]. by destruct H as (id & -> & (? & ? & ?)%delivered_message). }
    rewrite Hd2 in He, Hpi, Ho. cbn in He, Hpi, Ho. rewrite Hpi, <- Hid. split_and!.
    + rewrite He, Hid. by eexists.
    + exists started. split; [done|]. inversion Hcor as [? ? ? Hres|b id now' st Hb Hres]; subst; [by left|right].
      eexists b, _, now'. split_and!; [done..|by eexists].
    + destruct outbox_id as [id|].
      * destruct Ho as (Hterm & m & Hm & Hmi & Hmp & Hk). split; [done|]. exists process, m. subst p. split_and!; done.
      * destruct Ho as [Ho Hterm]. split; [done|]. right. by exists process.
Qed.

(** ** Examples *)

Definition ex_booking (id : N) (source_event_id : string) : CanonicalEvent := mkEvent (uuid id) (uuid 10) None
  "booking.created" "crm" source_event_id (utc (days 81)) (utc (days 81)) 1 INTERNAL
  [mkReference "crm" "booking" "b-1"] [] [].
Definition ex_bootstrap : ProcessBootstrap := mkBootstrap "booking_follow_up" "1" "m" "c" "d" "acme" "r" "tiramisu.acme.r".
Definition ex_ingest_session : Session :=
  mkSession (empty_db <| tenants := [mkTenant (uuid 10) "acme" "Acme" TS_ACTIVE "acme"] |>)
    None (days 81) (λ _, days 81) 0 (λ n, uuid (100 + N.of_nat n)) 0.
Definition ex_ingest (s : Session) (event : CanonicalEvent) (b : option ProcessBootstrap) : IngestionResult * Session :=
  match ingest event b (Some "acme"%string) s with
  | Ok r => r | Raise _ => (mkIngestion (uuid 0) false CS_PENDING None None None, s) end.
Definition ex_ingested : IngestionResult * Session := ex_ingest ex_ingest_session (ex_booking 40 "e-1") (Some ex_bootstrap).

Example a_second_event_finds_the_process :
  let '(r, s) := ex_ingest (snd ex_ingested) (ex_booking 41 "e-2") None in
  (ir_correlation_reason r, ir_process_instance_id r, length (outbox_messages (s_db s)))
  = (Some "single_process_match"%string, ir_process_instance_id (fst ex_ingested), 2%nat).
Proof. vm_compute. reflexivity. Qed.


Lemma references_keep_their_owner_witness :
  ∃ p, ir_process_instance_id (fst ex_ingested) = Some p
    ∧ ∀ r, r ∈ [mkReference "crm" "booking" "b-1"] → owns (s_db (snd ex_ingested)) (uuid 10) p r.
Proof.
  destruct (proj2 (references_keep_their_owner (ex_booking 40 "e-1") (Some ex_bootstrap) (Some "acme"%string)
    ex_ingest_session (fst ex_ingested) (snd ex_ingested) ltac:(vm_compute; reflexivity))
    ltac:(vm_compute; reflexivity) ltac:(vm_compute; reflexivity)) as (p & Hp & Ho & _).
  by exists p.
Defined.

Lemma events_reach_running_processes_witness :
  ∃ m, m ∈ outbox_messages (s_db (snd ex_ingested)) ∧ om_id m = uuid 102 ∧ is_delivery (uuid 10) (uuid 40) m = true.
Proof.
  destruct (proj2 (proj2 (events_reach_running_processes (ex_booking 40 "e-1") (Some ex_bootstrap) (Some "acme"%string)
    ex_ingest_session (fst ex_ingested) (snd ex_ingested) ltac:(vm_compute; reflexivity) ltac:(vm_compute; reflexivity))))
    as (_ & q & m & _ & _ & _ & Hm & Hid & _ & Hk).
  by exists m.
Defined.
