(* ===== verification/Quarantine.v ===== *)
(** * [events/quarantine.py]: resolving quarantined events

    An operator binds an unmatched event to a process, with some of the event's
    references; the event is then delivered as any other.  The advisory and row
    locks order concurrent calls; transactions are atomic in the model, so that the
    row read again under the locks is the row read before. *)

From stdpp Require Import base gmap list strings sets sorting.
From Stdlib Require Import ZArith Lia.
From S2P Require Import Prelude Python PyTime Json Limits Contracts Schema Session State Ingestion IngestionFacts.

#[local] Open Scope Z_scope.

Record ResolveQuarantineInput := mkResolveInput {
  qr_command_id : UUID;
  qr_tenant_id : UUID;
  qr_event_id : UUID;
  qr_process_instance_id : UUID;
  qr_actor_id : UUID;
  qr_reason : string;
  qr_bind_references : list ExternalReference
}.

(** The order of [sorted(..., key=reference_key)]: tuples of strings. *)
Definition reference_le (r r' : ExternalReference) : Prop :=
  (er_provider r ≠ er_provider r' ∧ String.le (er_provider r) (er_provider r'))
  ∨ (er_provider r = er_provider r' ∧
     ((er_resource_type r ≠ er_resource_type r' ∧ String.le (er_resource_type r) (er_resource_type r'))
      ∨ (er_resource_type r = er_resource_type r' ∧ String.le (er_external_id r) (er_external_id r')))).
#[export] Instance reference_le_dec r r' : Decision (reference_le r r') := _.

(** [tuple(sorted(set(references), key=reference_key))] *)
Definition sorted_references (references : list ExternalReference) : list ExternalReference :=
  merge_sort reference_le (remove_dups references).

Definition quarantine_reason (reason : string) : result string :=
  let reason := strip reason in
  _ ← raise_if (is_empty reason || (10000 <? py_len reason)%nat) QuarantineConflict
        "reason must contain 1 to 10000 characters";
  Ok reason.

Definition is_resolution (c : ResolveQuarantineInput) (r : EventResolutionCommand) : bool :=
  eqb (erc_tenant_id r) (qr_tenant_id c) && eqb (erc_id r) (qr_command_id c).
Definition resolution_differs (c : ResolveQuarantineInput) (reason : string) (r : EventResolutionCommand) : bool :=
  negb (eqb (erc_event_id r) (qr_event_id c))
  || negb (eqb (erc_process_instance_id r) (qr_process_instance_id c))
  || negb (eqb (erc_actor_id r) (qr_actor_id c)) || negb (eqb (erc_reason r) reason)
  || negb (eqb (erc_bound_references r) (sorted_references (qr_bind_references c))).
Definition is_event (tenant_id id : UUID) (e : EventInbox) : bool :=
  eqb (ei_tenant_id e) tenant_id && eqb (ei_id e) id.

(** The checks on the stored event. *)
Definition require_replayable (c : ResolveQuarantineInput) (event : CanonicalEvent) : result unit :=
  _ ← raise_if (bool_decide (ce_event_type event ∈ RESERVED_KERNEL_EVENT_TYPES)) QuarantineConflict
        "kernel events cannot be replayed through quarantine";
  raise_if (negb (forallb (λ r, bool_decide (r ∈ ce_external_references event))
                    (sorted_references (qr_bind_references c)))) QuarantineConflict
    "only references from the original event can be bound".

Definition require_unmatched (e : EventInbox) : result unit :=
  raise_if (eqb (ei_correlation_status e) CS_MATCHED || bool_decide (is_Some (ei_process_instance_id e)))
    QuarantineConflict "event is already correlated; use delivery recovery if needed".

Definition reference_conflict (e : exn) : option (exn_class * string) :=
  match exn_cls e with
  | RuntimeError => Some (QuarantineConflict,
      "a selected reference belongs to another process; its ownership cannot change"%string)
  | _ => None
  end.

Definition new_resolution (c : ResolveQuarantineInput) (reason : string) (e : EventInbox) (p : ProcessInstance)
    (now : Z) : EventResolutionCommand :=
  mkEventResolutionCommand (qr_command_id c) (qr_tenant_id c) (qr_event_id c) (pi_id p) (qr_actor_id c) reason
    (ei_correlation_status e) (ei_correlation_reason e) (sorted_references (qr_bind_references c))
    (negb (is_terminal (pi_status p))) now.

Definition resolved_event (p : ProcessInstance) (e : EventInbox) : EventInbox :=
  e <| ei_process_instance_id := Some (pi_id p) |> <| ei_correlation_status := CS_MATCHED |>
    <| ei_correlation_reason := Some (if is_terminal (pi_status p) then "terminal_process_record_only"%string
                                      else "operator_quarantine_resolution"%string) |>.

(** What [resolve] does once its command is known to be new. *)
Definition resolve_event (c : ResolveQuarantineInput) (reason deployment : string) (e : EventInbox)
  : Tx EventResolutionCommand :=
  _ ← lift_result (require_replayable c (ei_event_data e));
  _ ← lift_result (require_unmatched e);
  process ← scalar (is_process (qr_tenant_id c) (qr_process_instance_id c));
  match process with
  | None => tx_raise QuarantineNotFound "destination process not found"
  | Some p =>
      _ ← tx_raise_if (negb (eqb (pi_deployment_id p) deployment)) QuarantineConflict
            "destination process belongs to another deployment";
      _ ← translate reference_conflict
            (persist_references (qr_tenant_id c) (pi_id p) (sorted_references (qr_bind_references c)));
      now ← transaction_now;
      let stored := new_resolution c reason e p now in
      _ ← insert stored;
      _ ← update (ei_id e) (resolved_event p);
      _ ← (if is_terminal (pi_status p) then mret tt
           else _ ← schedule_delivery (ei_event_data e) (pi_id p); mret tt);
      mret stored
  end.

(** [QuarantineResolutionService.resolve] *)
Definition resolve (c : ResolveQuarantineInput) (deployment_id : option string) : Tx EventResolutionCommand :=
  reason ← lift_result (quarantine_reason (qr_reason c));
  deployment ← require_ingress_tenant (qr_tenant_id c) deployment_id;
  existing ← scalar (is_resolution c);
  match existing with
  | Some r =>
      _ ← tx_raise_if (resolution_differs c reason r) QuarantineConflict
            "resolution command ID was reused with different content";
      mret r
  | None =>
      row ← scalar (is_event (qr_tenant_id c) (qr_event_id c));
      match row with
      | None => tx_raise QuarantineNotFound "quarantined event not found"
      | Some e => resolve_event c reason deployment e
      end
  end.

(** ** What a resolution does *)

Lemma elem_of_sorted r refs : r ∈ sorted_references refs ↔ r ∈ refs.
Proof. unfold sorted_references. by rewrite merge_sort_Permutation, elem_of_remove_dups. Qed.

(** The stored event is the event of its tenant. *)
Definition stored_faithfully (d : Db) : Prop :=
  Forall (λ e, ce_tenant_id (ei_event_data e) = ei_tenant_id e) (event_inbox d).

Record Resolved (c : ResolveQuarantineInput) (d : Db) (r : EventResolutionCommand) (d' : Db) (reason : string)
    (e : EventInbox) (p : ProcessInstance) (new : list ExternalCorrelation) : Prop := {
  rs_reason : quarantine_reason (qr_reason c) = Ok reason;
  rs_event : hd_error (List.filter (is_event (qr_tenant_id c) (qr_event_id c)) (event_inbox d)) = Some e;
  rs_process : hd_error (List.filter (is_process (qr_tenant_id c) (qr_process_instance_id c)) (process_instances d)) = Some p;
  rs_replayable : require_replayable c (ei_event_data e) = Ok tt;
  rs_unmatched : require_unmatched e = Ok tt;
  rs_row : ∃ now, r = new_resolution c reason e p now;
  rs_tenants : tenants d' = tenants d;
  rs_inbox : event_inbox d' = touch (qr_tenant_id c) (ei_id e) (resolved_event p) <$> event_inbox d;
  rs_commands : event_resolution_commands d' = event_resolution_commands d ++ [r];
  rs_correlations : external_correlations d' = external_correlations d ++ new;
  rs_new : Forall (λ x, ec_tenant_id x = qr_tenant_id c ∧ ec_process_instance_id x = pi_id p) new;
  rs_owns : ∀ q, q ∈ qr_bind_references c → owns d' (qr_tenant_id c) (pi_id p) q;
  rs_processes : process_instances d' = process_instances d;
  rs_outbox : if is_terminal (pi_status p) then outbox_messages d' = outbox_messages d
    else ∃ id d1, outbox_messages d1 = outbox_messages d ∧ process_instances d1 = process_instances d
      ∧ delivered (ei_event_data e) (pi_id p) d1 id d'
}.

Lemma resolve_event_ok c reason deployment e s r s' :
  s_tenant s = Some (qr_tenant_id c) → quarantine_reason (qr_reason c) = Ok reason → stored_faithfully (s_db s) →
  hd_error (List.filter (is_event (qr_tenant_id c) (qr_event_id c)) (event_inbox (s_db s))) = Some e →
  resolve_event c reason deployment e s = Ok (r, s') →
  ∃ p new, Resolved c (s_db s) r (s_db s') reason e p new ∧ pi_deployment_id p = deployment.
Proof.
  intros Hs Hreason Hf He H. unfold resolve_event in H.
  apply tx_bind_ok in H as ([] & ? & [Hrep ->]%lift_result_ok & H).
  apply tx_bind_ok in H as ([] & ? & [Hun ->]%lift_result_ok & H).
  apply tx_bind_ok in H as (process & ? & Hp & H).
  rewrite (scalar_run _ (qr_tenant_id c)) in Hp by (done || by intros ? []%is_process_ids). injection Hp as <- <-.
  destruct (hd_error (List.filter (is_process _ _) _)) as [p|] eqn:Hp; [|done].
  apply tx_bind_ok in H as ([] & ? & [Hdep%negb_false_iff%eqb_true ->]%tx_raise_if_ok & H).
  apply tx_bind_ok in H as ([] & s1 & Href%translate_ok & H).
  apply persist_references_ok in Href as (new & Hd1 & Hs1 & Hnew & Hown & _); [|done].
  apply tx_bind_ok in H as (now & ? & [_ ->]%transaction_now_ok & H). cbv zeta in H.
  apply tx_bind_ok in H as ([] & s2 & [_ ->]%insert_ok & H).
  apply tx_bind_ok in H as ([] & s3 & Hu & H). rewrite (update_touch _ (qr_tenant_id c)) in Hu by done. injection Hu as <-.
  apply tx_bind_ok in H as ([] & s4 & Hdel & [-> ->]%mret_ok).
  pose proof He as [Hin [Het%eqb_true _]%andb_true_iff]%hd_filter_Some.
  unfold stored_faithfully in Hf. rewrite Forall_forall in Hf. specialize (Hf e Hin). rewrite Het in Hf.
  exists p, new. split; [|done].
  match type of Hdel with (_ : Tx _) ?s = _ => set (s3 := s) in * end.
  assert (s_tenant s3 = Some (ce_tenant_id (ei_event_data e))) as Hs3 by (by rewrite Hf).
  assert (event_resolution_commands (s_db s3) = event_resolution_commands (s_db s) ++ [new_resolution c reason e p now]
    ∧ event_inbox (s_db s3) = touch (qr_tenant_id c) (ei_id e) (resolved_event p) <$> event_inbox (s_db s)
    ∧ external_correlations (s_db s3) = external_correlations (s_db s) ++ new
    ∧ process_instances (s_db s3) = process_instances (s_db s) ∧ outbox_messages (s_db s3) = outbox_messages (s_db s)
    ∧ tenants (s_db s3) = tenants (s_db s)) as (E1 & E2 & E3 & E4 & E5 & E6) by (unfold s3; cbn; by rewrite Hd1).
  assert (external_correlations (s_db s3) = external_correlations (s_db s1)) as E7 by (unfold s3; cbn; by rewrite Hd1).
  clearbody s3.
  assert (if is_terminal (pi_status p) then s_db s4 = s_db s3
    else ∃ id, delivered (ei_event_data e) (pi_id p) (s_db s3) id (s_db s4)) as Hout.
  { destruct (is_terminal _); [by apply mret_ok in Hdel as [_ ->]|].
    apply tx_bind_ok in Hdel as (id & ? & Hdel & [_ ->]%mret_ok). apply schedule_delivery_ok in Hdel; eauto. }
  assert (∀ A (proj : Db → A), (∀ d ms, proj (d <| outbox_messages := ms |>) = proj d) → proj (s_db s4) = proj (s_db s3))
    as Hsame.
  { intros A proj Hpr. destruct (is_terminal _); [by rewrite Hout|]. destruct Hout as [id Hdv].
    destruct Hdv; [apply Hpr|done]. }
  split; try done.
  - by exists now.
  - by rewrite (Hsame _ tenants).
  - by rewrite (Hsame _ event_inbox).
  - by rewrite (Hsame _ event_resolution_commands).
  - by rewrite (Hsame _ external_correlations).
  - intros q Hq. unfold owns. rewrite (Hsame _ external_correlations), E7 by done. apply Hown. by apply elem_of_sorted.
  - by rewrite (Hsame _ process_instances).
  - destruct (is_terminal _); [by rewrite Hout|]. destruct Hout as [id Hdv]. by exists id, (s_db s3).
Qed.

Lemma resolve_ok c dep s r s' :
  resolve c dep s = Ok (r, s') → stored_faithfully (s_db s) →
  ∃ reason, quarantine_reason (qr_reason c) = Ok reason ∧
  ((hd_error (List.filter (is_resolution c) (event_resolution_commands (s_db s))) = Some r
    ∧ resolution_differs c reason r = false ∧ s_db s' = s_db s)
   ∨ (List.filter (is_resolution c) (event_resolution_commands (s_db s)) = [] ∧ ∃ e p new,
        Resolved c (s_db s) r (s_db s') reason e p new)).
Proof.
  intros H Hf. unfold resolve in H.
  apply tx_bind_ok in H as (reason & ? & [Hr ->]%lift_result_ok & H). exists reason. split; [done|].
  apply tx_bind_ok in H as (deployment & ? & ->%require_ingress_ok & H).
  apply tx_bind_ok in H as (existing & ? & He & H).
  rewrite (scalar_run _ (qr_tenant_id c)) in He by (done || (unfold is_resolution; tenant_first)). injection He as <- <-.
  cbn [table EventResolutionCommand_table] in H.
  destruct (hd_error (List.filter (is_resolution c) _)) as [x|] eqn:Hx.
  { apply tx_bind_ok in H as ([] & ? & [Hd ->]%tx_raise_if_ok & [-> ->]%mret_ok). by left. }
  right. split; [by destruct (List.filter (is_resolution c) _)|].
  apply tx_bind_ok in H as (row & ? & Hrow & H).
  rewrite (scalar_run _ (qr_tenant_id c)) in Hrow by (done || (unfold is_event; tenant_first)). injection Hrow as <- <-.
  destruct (hd_error (List.filter (is_event _ _) _)) as [e|] eqn:He; [|done].
  apply resolve_event_ok in H as (p & new & H & _); try done. by exists e, p, new.
Qed.

Lemma resolve_allowed c dep s r s' :
  resolve c dep s = Ok (r, s') → ∃ x s1, require_ingress_tenant (qr_tenant_id c) dep s = Ok (x, s1).
Proof.
  intros H. unfold resolve in H. apply tx_bind_ok in H as (reason & ? & [_ ->]%lift_result_ok & H).
  apply tx_bind_ok in H as (deployment & s1 & H & _). eauto.
Qed.

Lemma quarantine_reason_conflict reason e : quarantine_reason reason = Raise e → exn_cls e = QuarantineConflict.
Proof.
  revert e. change (raises_only (λ c, c = QuarantineConflict) (quarantine_reason reason)).
  unfold quarantine_reason. eauto 6 with tiramisu.
Qed.
Lemma quarantine_reason_strip reason reason' : quarantine_reason reason = Ok reason' → reason' = strip reason.
Proof. unfold quarantine_reason. intros H. bind_inv. done. Qed.

(** The start of [resolve], for a tenant that is still active. *)
Lemma quarantine_run c dep x s reason :
  require_ingress_tenant (qr_tenant_id c) dep s = Ok (x, s <| s_tenant := Some (qr_tenant_id c) |>) →
  quarantine_reason (qr_reason c) = Ok reason →
  resolve c dep s =
  match hd_error (List.filter (is_resolution c) (event_resolution_commands (s_db s))) with
  | Some r => if resolution_differs c reason r
              then raise QuarantineConflict "resolution command ID was reused with different content"
              else Ok (r, s <| s_tenant := Some (qr_tenant_id c) |>)
  | None => match hd_error (List.filter (is_event (qr_tenant_id c) (qr_event_id c)) (event_inbox (s_db s))) with
            | None => raise QuarantineNotFound "quarantined event not found"
            | Some e => resolve_event c reason x e (s <| s_tenant := Some (qr_tenant_id c) |>)
            end
  end.
Proof.
  intros Hx Hr. unfold resolve. rewrite (tx_bind_run _ _ s reason s) by by apply lift_result_ok.
  rewrite (tx_bind_run _ _ _ _ _ Hx). set (s0 := s <| s_tenant := Some (qr_tenant_id c) |>).
  erewrite tx_bind_run; [|apply (scalar_run s0 (qr_tenant_id c)); [done|unfold is_resolution; tenant_first]].
  cbn [table EventResolutionCommand_table]. change (s_db s0) with (s_db s).
  destruct (hd_error (List.filter (is_resolution c) _)) as [r|].
  { unfold tx_raise_if, mbind, Tx_bind, lift_result. by destruct (resolution_differs c reason r). }
  erewrite tx_bind_run; [|apply (scalar_run s0 (qr_tenant_id c)); [done|unfold is_event; tenant_first]].
  cbn [table EventInbox_table]. change (s_db s0) with (s_db s). by destruct (hd_error _).
Qed.

Lemma quarantine_stored c dep s r s' :
  resolve c dep s = Ok (r, s') → stored_faithfully (s_db s) →
  ∃ reason, quarantine_reason (qr_reason c) = Ok reason ∧ resolution_differs c reason r = false
    ∧ tenants (s_db s') = tenants (s_db s)
    ∧ hd_error (List.filter (is_resolution c) (event_resolution_commands (s_db s'))) = Some r.
Proof.
  intros H Hf. apply resolve_ok in H as (reason & Hr & [(Hx & Hd & ->)|(Hno & e & p & new & H)]); [| |done].
  { by exists reason. }
  pose proof (rs_process _ _ _ _ _ _ _ _ H) as [_ [_ Hid]%is_process_ids]%hd_filter_Some.
  exists reason. destruct (rs_row _ _ _ _ _ _ _ _ H) as [now E]. split_and!; [done| |by eapply rs_tenants|].
  - rewrite E. unfold resolution_differs. cbn. by rewrite Hid, !eqb_refl.
  - rewrite (rs_commands _ _ _ _ _ _ _ _ H), List.filter_app, Hno. cbn. rewrite E. unfold is_resolution. cbn.
    by rewrite !eqb_refl.
Qed.

(** Resolutions apply once.  After a resolution, the same command returns the stored
    row and changes nothing, whatever happened to the event, its process and its
    delivery since; another command under its identity, for another event, process,
    actor, reason or set of references, is refused. *)
Theorem resolutions_apply_once c dep s r s' later more :
  resolve c dep s = Ok (r, s') → stored_faithfully (s_db s) → tenants (s_db later) = tenants (s_db s') →
  event_resolution_commands (s_db later) = event_resolution_commands (s_db s') ++ more →
  resolve c dep later = Ok (r, later <| s_tenant := Some (qr_tenant_id c) |>)
  ∧ ∀ c', qr_command_id c' = qr_command_id c → qr_tenant_id c' = qr_tenant_id c →
      qr_event_id c' ≠ qr_event_id c ∨ qr_process_instance_id c' ≠ qr_process_instance_id c
      ∨ qr_actor_id c' ≠ qr_actor_id c ∨ strip (qr_reason c') ≠ strip (qr_reason c)
      ∨ sorted_references (qr_bind_references c') ≠ sorted_references (qr_bind_references c) →
      ∃ msg, resolve c' dep later = raise QuarantineConflict msg.
Proof.
  intros H Hf Ht Hmore. pose proof (resolve_allowed _ _ _ _ _ H) as (x & s1 & Hx).
  apply quarantine_stored in H as (reason & Hr & Hd & Htn & Hs); [|done].
  pose proof (require_ingress_later _ _ _ _ _ later Hx ltac:(by rewrite Ht, Htn)) as Hx'.
  assert (hd_error (List.filter (is_resolution c) (event_resolution_commands (s_db later))) = Some r) as Hl.
  { rewrite Hmore, List.filter_app. by destruct (List.filter _ (event_resolution_commands (s_db s'))). }
  split; [by rewrite (quarantine_run c dep x later reason), Hl, Hd|].
  intros c' Hid Htc Hne. rewrite <- Htc in Hx'. destruct (quarantine_reason (qr_reason c')) as [reason'|err] eqn:Hr'.
  - rewrite (quarantine_run c' dep x later reason') by done.
    assert (is_resolution c' = is_resolution c) as -> by (unfold is_resolution; by rewrite Hid, Htc). rewrite Hl.
    apply quarantine_reason_strip in Hr as ->. apply quarantine_reason_strip in Hr' as ->.
    destruct (resolution_differs c' _ r) eqn:E; [by eexists|]. exfalso.
    unfold resolution_differs in E, Hd. rewrite !orb_false_iff, !negb_false_iff, !eqb_eq in E, Hd.
    destruct E as [[[[]]]], Hd as [[[[]]]], Hne as [?|[?|[?|[?|?]]]]; congruence.
  - exists (exn_msg err). unfold resolve, mbind, Tx_bind, lift_result. cbn. rewrite Hr'.
    apply quarantine_reason_conflict in Hr'. unfold raise. destruct err; cbn in *. by subst.
Qed.

Lemma require_unmatched_ok e :
  require_unmatched e = Ok tt ↔ ei_correlation_status e ≠ CS_MATCHED ∧ ei_process_instance_id e = None.
Proof.
  unfold require_unmatched. rewrite raise_if_ok, orb_false_iff, bool_decide_eq_false, eq_None_not_Some.
  unfold eqb. by rewrite bool_decide_eq_false.
Qed.

Lemma require_replayable_ok c event :
  require_replayable c event = Ok tt ↔ ce_event_type event ∉ RESERVED_KERNEL_EVENT_TYPES
    ∧ ∀ r, r ∈ qr_bind_references c → r ∈ ce_external_references event.
Proof.
  unfold require_replayable. rewrite seq_ok, succeeds_raise_if, raise_if_ok, negb_false_iff, forallb_forall, bool_decide_eq_false.
  setoid_rewrite <- list_elem_of_In. setoid_rewrite elem_of_sorted. by setoid_rewrite bool_decide_eq_true.
Qed.

Lemma replayable_conflict c event e : require_replayable c event = Raise e → exn_cls e = QuarantineConflict.
Proof.
  revert e. change (raises_only (λ c, c = QuarantineConflict) (require_replayable c event)).
  unfold require_replayable. eauto 6 with tiramisu.
Qed.

(** An event with a process is refused. *)
Lemma resolve_matched c reason deployment e s :
  ei_correlation_status e = CS_MATCHED → ∃ msg, resolve_event c reason deployment e s = raise QuarantineConflict msg.
Proof.
  intros Hst. unfold resolve_event, mbind, Tx_bind, lift_result.
  destruct (require_replayable c (ei_event_data e)) as [[]|err] eqn:E; cbn.
  - unfold require_unmatched. rewrite Hst. by eexists.
  - exists (exn_msg err). apply replayable_conflict in E. unfold raise. destruct err; cbn in *. by subst.
Qed.

(** Quarantine binds unmatched events, once.  A new resolution applies to an event of
    the tenant that is not the kernel's and that no process has; the event keeps its
    data and its identity and is matched to the chosen process; of its own references,
    those that the operator names belong to that process, and no reference changes its
    owner; the event is delivered unless the process is completed, cancelled or failed,
    in which case the outbox stays as it is.  Another resolution of the event is
    refused. *)
Theorem quarantine_binds_unmatched_events c dep s r s' :
  resolve c dep s = Ok (r, s') → stored_faithfully (s_db s) →
  List.filter (is_resolution c) (event_resolution_commands (s_db s)) = [] →
  ∃ e p, e ∈ event_inbox (s_db s) ∧ ei_id e = qr_event_id c ∧ ei_correlation_status e ≠ CS_MATCHED
    ∧ ei_process_instance_id e = None ∧ ce_event_type (ei_event_data e) ∉ RESERVED_KERNEL_EVENT_TYPES
    ∧ p ∈ process_instances (s_db s) ∧ pi_id p = qr_process_instance_id c
    ∧ event_inbox (s_db s') = touch (qr_tenant_id c) (ei_id e) (resolved_event p) <$> event_inbox (s_db s)
    ∧ (∀ q, q ∈ qr_bind_references c → q ∈ ce_external_references (ei_event_data e)
         ∧ owns (s_db s') (qr_tenant_id c) (pi_id p) q)
    ∧ (∃ new, external_correlations (s_db s') = external_correlations (s_db s) ++ new
         ∧ Forall (λ x, ec_process_instance_id x = pi_id p) new)
    ∧ (if is_terminal (pi_status p) then outbox_messages (s_db s') = outbox_messages (s_db s)
       else ∃ m, m ∈ outbox_messages (s_db s') ∧ om_process_instance_id m = Some (pi_id p)
              ∧ is_delivery (qr_tenant_id c) (ce_event_id (ei_event_data e)) m = true)
    ∧ ∀ c' reason', qr_tenant_id c' = qr_tenant_id c → qr_event_id c' = qr_event_id c →
        quarantine_reason (qr_reason c') = Ok reason' →
        List.filter (is_resolution c') (event_resolution_commands (s_db s')) = [] →
        ∃ msg, resolve c' dep s' = raise QuarantineConflict msg.
Proof.
  intros H Hf Hno. pose proof (resolve_allowed _ _ _ _ _ H) as (x & s1 & Hx).
  apply resolve_ok in H as (reason & Hr & [(Hfound & _)|(_ & e & p & new & H)]); [by rewrite Hno in Hfound| |done].
  destruct H as [_ He Hp Hrep%require_replayable_ok Hun%require_unmatched_ok _ Htn Hin Hcmd Hcor Hnew Hown Hpi Hout].
  pose proof He as [Hein [Het%eqb_true Heid%eqb_true]%andb_true_iff]%hd_filter_Some.
  pose proof Hp as [Hpin [_ Hpid]%is_process_ids]%hd_filter_Some.
  destruct Hun as [Hst Hpn], Hrep as [Hres Hsub]. exists e, p. split_and!; try done.
  - intros q Hq. auto.
  - exists new. split; [done|]. eapply Forall_impl; [exact Hnew|]. by intros ? [].
  - destruct (is_terminal _); [done|]. destruct Hout as (id & d1 & _ & _ & Hd%delivered_message).
    destruct Hd as (_ & _ & m & Hm & _ & Hmp & Hk). exists m. split_and!; try done.
    unfold stored_faithfully in Hf. rewrite Forall_forall in Hf. by rewrite (Hf e Hein), Het in Hk.
  - intros c' reason' Htc Hev Hr' Hno'. pose proof (require_ingress_later _ _ _ _ _ s' Hx Htn) as Hx'. rewrite <- Htc in Hx'.
    rewrite (quarantine_run c' dep x s' reason'), Hno' by done. cbn [hd_error head]. rewrite Htc, Hev, Hin.
    erewrite (head_touch _ _ (resolved_event p)); [|done|done]. rewrite touch_self by done. by apply resolve_matched.
Qed.

(** ** Examples *)

Definition ex_quarantine_process : ProcessInstance := mkProcessInstance (uuid 20) (uuid 10)
  "booking_follow_up" "1" "m" "c" "d" "acme" "r" "tiramisu.acme.r" PS_WAITING "process/20" None
  ∅ ∅ ∅ None [] [] [] [] [] [] 0 (days 80).
Definition ex_quarantine_db : Db :=
  s_db (snd (ex_ingest ex_ingest_session (ex_booking 40 "e-1") None)) <| process_instances := [ex_quarantine_process] |>.
Definition ex_resolve : ResolveQuarantineInput := mkResolveInput (uuid 80) (uuid 10) (uuid 40) (uuid 20) (uuid 9)
  " belongs here " [mkReference "crm" "booking" "b-1"; mkReference "crm" "booking" "b-1"].
Definition ex_quarantine_session : Session :=
  mkSession ex_quarantine_db None (days 82) (λ _, days 82) 0 (λ n, uuid (300 + N.of_nat n)) 0.
Definition ex_resolved : EventResolutionCommand * Session :=
  match resolve ex_resolve None ex_quarantine_session with
  | Ok r => r
  | Raise _ => (new_resolution ex_resolve "" (new_event_row (ex_booking 40 "e-1") None CS_PENDING "" 0)
                  ex_quarantine_process 0, ex_quarantine_session) end.

Lemma ex_quarantine_faithful : stored_faithfully (s_db ex_quarantine_session).
Proof. vm_compute. by repeat constructor. Qed.

Lemma resolutions_apply_once_witness :
  erc_delivery_scheduled (fst ex_resolved) = true
  ∧ resolve ex_resolve None (snd ex_resolved) = Ok (fst ex_resolved, snd ex_resolved <| s_tenant := Some (uuid 10) |>).
Proof.
  split; [vm_compute; reflexivity|].
  refine (proj1 (resolutions_apply_once ex_resolve None ex_quarantine_session (fst ex_resolved) (snd ex_resolved)
    (snd ex_resolved) [] _ ex_quarantine_faithful _ _)); [vm_compute; reflexivity|reflexivity|by rewrite app_nil_r].
Defined.

Lemma quarantine_binds_unmatched_events_witness :
  ∃ e p, ei_id e = uuid 40 ∧ pi_id p = uuid 20
    ∧ event_inbox (s_db (snd ex_resolved)) = touch (uuid 10) (ei_id e) (resolved_event p) <$> event_inbox ex_quarantine_db.
Proof.
  destruct (quarantine_binds_unmatched_events ex_resolve None ex_quarantine_session (fst ex_resolved) (snd ex_resolved)
    ltac:(vm_compute; reflexivity) ex_quarantine_faithful ltac:(vm_compute; reflexivity))
    as (e & p & _ & He & _ & _ & _ & _ & Hp & Hi & _).
  exists e, p. split; [exact He|split; [exact Hp|exact Hi]].
Defined.
