(* ===== verification/Deployment.v ===== *)
(** * Which tenant, definition and release a process runs under

    [security/tenancy.py], [processes/registry.py], [processes/compatibility.py],
    [extensions/runtime.py] and [adapters/registry.py]: the checks a worker makes
    before it acts for a process. *)

From stdpp Require Import base list strings sorting pretty.
From Stdlib Require Import ZArith Lia.
From S2P Require Import Prelude Python PyTime Json Digests Limits Contracts Definitions Schema Session.

#[local] Open Scope Z_scope.

(** ** [security/tenancy.py] *)

Definition require_tenant_deployment (tenant_id : UUID) (deployment_id : string) : Tx unit :=
  _ ← set_tenant_context tenant_id;
  row ← scalar (λ t : Tenant, eqb (tn_id t) tenant_id);
  match row with
  | None => tx_raise TenantUnavailable (str_uuid tenant_id)
  | Some t => tx_raise_if (negb (eqb (tn_deployment_id t) deployment_id)) TenantNotAuthorized
                (str_uuid tenant_id)
  end.

Definition require_active_tenant (tenant_id : UUID) (deployment_id : option string) : Tx unit :=
  _ ← set_tenant_context tenant_id;
  rows ← select (λ t : Tenant, eqb (tn_id t) tenant_id);
  row ← one_or_none rows;
  match row with
  | None => tx_raise TenantUnavailable (str_uuid tenant_id)
  | Some t =>
      _ ← tx_raise_if (match deployment_id with
                       | Some d => negb (eqb (tn_deployment_id t) d) | None => false end)
            TenantNotAuthorized (str_uuid tenant_id);
      tx_raise_if (negb (eqb (tn_status t) TS_ACTIVE)) TenantSuspended (str_uuid tenant_id)
  end.

(** The row an active tenant is checked against. *)
Lemma require_active_tenant_ok t dep s u s' :
  require_active_tenant t (Some dep) s = Ok (u, s') →
  s' = s <| s_tenant := Some t |> ∧
  ∃ row, row ∈ tenants (s_db s) ∧ tn_id row = t ∧ tn_status row = TS_ACTIVE ∧ tn_deployment_id row = dep.
Proof.
  intros H. unfold require_active_tenant in H.
  apply tx_bind_ok in H as ([] & ? & ->%set_tenant_context_ok & H).
  apply tx_bind_ok in H as (rows & ? & Hr & H).
  rewrite (select_run _ t) in Hr by (done || (intros ? Hx; by apply eqb_true in Hx)). injection Hr as <- <-.
  apply tx_bind_ok in H as (row & s2 & Ho & H).
  destruct (List.filter _ _) as [|r [|? ?]] eqn:E; cbn in Ho; [by tx_inv|apply mret_ok in Ho as [-> ->]|done].
  apply tx_bind_ok in H as ([] & ? & [Hd ->]%tx_raise_if_ok & [Ha ->]%tx_raise_if_ok).
  assert (r ∈ tenants (s_db s) ∧ tn_id r = t) as [Hin Hid].
  { assert (r ∈ List.filter (λ r, eqb (tn_id r) t) (tenants (s_db s))) as Hin.
    { change (r ∈ List.filter (λ r, eqb (tn_id r) t) (table (s_db s))). cbn in E |- *.
      rewrite E. apply list_elem_of_here. }
    apply elem_of_filter_bool in Hin as [?%eqb_true ?]. done. }
  split; [done|]. exists r. split_and!; try done.
  - by apply negb_false_iff, eqb_true in Ha.
  - by apply negb_false_iff, eqb_true in Hd.
Qed.

Definition require_authorized_tenant (tenant_id : UUID) (authorized_tenant_ids : option (list UUID))
  : result unit :=
  match authorized_tenant_ids with
  | Some ids => raise_if (negb (bool_decide (tenant_id ∈ ids))) TenantNotAuthorized (str_uuid tenant_id)
  | None => Ok tt
  end.

(** ** [processes/registry.py] *)

Definition ProcessDefinitionRegistry : Type := list (string * string * ProcessDefinition).

Definition identity_of (d : ProcessDefinition) : string * string := (pd_id d, pd_version d).

(** [repr] of a pair of names without quotes, backslashes or control characters. *)
Definition repr_pair (key : string * string) : string :=
  ("('" +:+ fst key +:+ "', '" +:+ snd key +:+ "')")%string.

(** [self._definitions.get(key)] *)
Definition registered (r : ProcessDefinitionRegistry) (key : string * string) : option ProcessDefinition :=
  snd <$> List.find (λ entry, eqb (fst entry) key) r.

(** [ProcessDefinitionRegistry.__init__] *)
Fixpoint register (definitions : list ProcessDefinition) (r : ProcessDefinitionRegistry)
  : result ProcessDefinitionRegistry :=
  match definitions with
  | [] => Ok r
  | d :: definitions =>
      _ ← raise_if (bool_decide (is_Some (registered r (identity_of d)))) DuplicateProcessDefinition
            ("duplicate process definition: " +:+ repr_pair (identity_of d));
      register definitions (r ++ [(identity_of d, d)])
  end.

(** [ProcessDefinitionRegistry.get] *)
Definition get_definition (r : ProcessDefinitionRegistry) (id version : string) : result ProcessDefinition :=
  match registered r (id, version) with
  | Some d => Ok d
  | None => raise LookupError ("unknown process definition: " +:+ repr_pair (id, version))
  end.

(** [sorted] on pairs of strings. *)
Definition pair_le (x y : string * string) : Prop :=
  (fst x ≠ fst y ∧ String.le (fst x) (fst y)) ∨ (fst x = fst y ∧ String.le (snd x) (snd y)).
#[export] Instance pair_le_dec x y : Decision (pair_le x y) := _.

(** [ProcessDefinitionRegistry.resolve_trigger] *)
Definition resolve_trigger (r : ProcessDefinitionRegistry) (event_type : string) (include_drafts : bool)
  : result (option ProcessDefinition) :=
  let enabled s := match s with PUBLISHED => true | DRAFT => include_drafts | RETIRED => false end in
  let candidates := List.filter (λ d, enabled (pd_status d)
                                      && bool_decide (event_type ∈ pd_trigger_events d)) (snd <$> r) in
  match candidates with
  | [] => Ok None
  | [d] => Ok (Some d)
  | _ => raise AmbiguousTrigger ("ambiguous trigger " +:+ event_type +:+ ": ["
           +:+ join_with ", " (repr_pair <$> merge_sort pair_le (identity_of <$> candidates)) +:+ "]")
  end.

(** ** [processes/compatibility.py] *)

Record DeploymentCompatibility := mkCompatibility {
  dc_client_pack_fingerprint : string;
  dc_extension_manifest_hash : string;
  dc_definition_fingerprints : list (string * string * string)
}.

Definition is_hex_char (c : Ascii.ascii) : bool :=
  (((48 <=? byte_val c) && (byte_val c <=? 57)) || ((97 <=? byte_val c) && (byte_val c <=? 102)))%N.

(** Sixty-four lowercase hexadecimal digits. *)
Definition is_sha256_hex (s : string) : bool := (py_len s =? 64)%nat && all_chars is_hex_char s.

(** [DeploymentCompatibility.__post_init__] *)
Definition compatibility_post_init (c : DeploymentCompatibility) : result unit :=
  raise_if (existsb (λ v, negb (is_sha256_hex v))
              (dc_client_pack_fingerprint c :: dc_extension_manifest_hash c
               :: (snd <$> dc_definition_fingerprints c))) ValueError
    "deployment compatibility fingerprints must be lowercase SHA-256 hex".

(** [DeploymentCompatibility.require_process] on the pins of a process row. *)
Definition require_process_pins (c : DeploymentCompatibility) (p : ProcessInstance) : result unit :=
  match List.find (λ entry, eqb (fst entry) (pi_process_type p, pi_definition_version p))
          (dc_definition_fingerprints c) with
  | None => raise DeploymentCompatibilityError
              "process definition is not present in the deployed client pack"
  | Some (_, expected_definition) =>
      let mismatches :=
        (if negb (eqb (pi_client_pack_fingerprint p) (dc_client_pack_fingerprint c))
         then ["client pack"%string] else []) ++
        (if negb (eqb (pi_extension_manifest_hash p) (dc_extension_manifest_hash c))
         then ["extension manifest"%string] else []) ++
        (if negb (eqb (pi_process_definition_fingerprint p) expected_definition)
         then ["process definition"%string] else []) in
      raise_if (nonempty mismatches) DeploymentCompatibilityError
        ("process compatibility pins do not match the deployed composition: "
         +:+ join_with ", " mismatches)
  end.

(** ** [extensions/runtime.py] *)

Record DeploymentRelease := mkRelease {
  dr_deployment_id : string;
  dr_build_id : string;
  dr_client_pack_fingerprint : string;
  dr_model_id : string;
  dr_release_fingerprint : string;
  dr_temporal_task_queue : string
}.

Definition lower_char (c : Ascii.ascii) : Ascii.ascii :=
  if ((65 <=? byte_val c) && (byte_val c <=? 90))%N then Ascii.ascii_of_N (byte_val c + 32) else c.
(** [str.lower] as far as the pattern below can tell: the letters A-Z and the Kelvin
    sign (U+212A) are the characters whose lowercase is in ASCII; any other
    character outside ASCII fails the pattern in either case. *)
Fixpoint lower (s : string) : string :=
  match s with
  | EmptyString => EmptyString
  | String a s1 =>
      match s1 with
      | String b (String c s3) =>
          if ((byte_val a =? 226) && (byte_val b =? 132) && (byte_val c =? 170))%N
          then String (Ascii.ascii_of_N 107) (lower s3)
          else String (lower_char a) (lower s1)
      | _ => String (lower_char a) (lower s1)
      end
  end.

(** The pattern [[a-z][a-z0-9-]{0,62}]. *)
Definition is_deployment_id (s : string) : bool :=
  match s with
  | EmptyString => false
  | String c s => is_lower c && (String.length s <=? 62)%nat
      && all_chars (λ c, is_lower c || ((48 <=? byte_val c) && (byte_val c <=? 57))%N
                         || (byte_val c =? 45)%N) s
  end.

Definition normalize_deployment_id (value : string) : result string :=
  let normalized := lower (strip value) in
  _ ← raise_if (negb (is_deployment_id normalized)) ValueError
        ("deployment ID must contain 1 to 63 lowercase letters, digits, or hyphens, "
         +:+ "starting with a letter");
  Ok normalized.

Section release.
(** The package's [__version__]. *)
Context (tiramisu_version : string).

(** [DeploymentRelease.__post_init__] *)
Definition make_release (deployment_id build_id client_pack_fingerprint model_id : string)
  : result DeploymentRelease :=
  deployment_id ← normalize_deployment_id deployment_id;
  _ ← raise_if (eqb deployment_id "unassigned"%string) ValueError
        "unassigned is reserved for legacy or unconfigured tenants";
  let build_id := strip build_id in
  let model_id := strip model_id in
  _ ← raise_if (is_empty build_id || (200 <? py_len build_id)%nat) ValueError
        "deployment build ID must contain 1 to 200 characters";
  _ ← raise_if (is_empty model_id || (200 <? py_len model_id)%nat) ValueError
        "deployment model ID must contain 1 to 200 characters";
  _ ← raise_if (negb (is_sha256_hex client_pack_fingerprint)) ValueError
        "client-pack fingerprint must be lowercase SHA-256 hex";
  let fingerprint := sha256_hex (dumps true (JObj
    [("schema_version", JInt 1); ("deployment_id", JStr deployment_id); ("build_id", JStr build_id);
     ("client_pack_fingerprint", JStr client_pack_fingerprint); ("model_id", JStr model_id);
     ("tiramisu_version", JStr tiramisu_version)]%string)) in
  Ok (mkRelease deployment_id build_id client_pack_fingerprint model_id fingerprint
        ("tiramisu." +:+ deployment_id +:+ "." +:+ fingerprint)).
End release.

(** [DeploymentRelease.require_client_pack] *)
Definition require_client_pack (r : DeploymentRelease) (fingerprint : string) : result unit :=
  raise_if (negb (eqb fingerprint (dr_client_pack_fingerprint r))) ValueError
    "deployment release and client pack fingerprints disagree".

(** [DeploymentRelease.require_process] on the pins of a process row. *)
Definition require_release_pins (r : DeploymentRelease) (p : ProcessInstance) : result unit :=
  let mismatches :=
    (if negb (eqb (pi_deployment_id p) (dr_deployment_id r)) then ["deployment"%string] else []) ++
    (if negb (eqb (pi_deployment_release_fingerprint p) (dr_release_fingerprint r))
     then ["deployment release"%string] else []) ++
    (if negb (eqb (pi_temporal_task_queue p) (dr_temporal_task_queue r))
     then ["Temporal task queue"%string] else []) in
  raise_if (nonempty mismatches) DeploymentCompatibilityError
    ("process deployment pins do not match the running release: " +:+ join_with ", " mismatches).

(** ** [adapters/registry.py] *)

(** What the kernel reads of an adapter; its calls are answered by the provider. *)
Record ActionAdapter := mkAdapter { ad_id : string; ad_guarantees_idempotency : bool }.

Definition ActionAdapterRegistry : Type := list (string * ActionAdapter).

(** [ActionAdapterRegistry.resolve] *)
Definition resolve_adapter (r : ActionAdapterRegistry) (action_type : string) : result ActionAdapter :=
  match assoc action_type r with
  | Some a => Ok a
  | None => raise LookupError ("no action adapter registered for: " +:+ action_type)
  end.
