(* ===== verification/Context.v ===== *)
(** * [agents/context.py]: the bounded input of one agent turn

    [PostgresAgentContextLoader.load] reads, in one transaction, the process of a
    turn and the events, review commands and action results the turn was woken
    with, checks the deployment's pins and the platform's size limits, and builds
    the [AgentTurnInput] a model call sees.  Joins are products of the selected
    rows, filtered by the join condition; row-level security scopes each side.

    A JSONB column that holds a dumped contract holds the contract, so reading it
    back is its validation. *)

From stdpp Require Import base gmap list strings.
From Stdlib Require Import ZArith Lia.
From S2P Require Import Prelude Python Identifiers PyTime Json Limits Contracts DecisionPolicy Transitions Definitions Schema Session Deployment State.

#[local] Open Scope Z_scope.

(** ** [core/contracts/processes.py] *)

Record ReviewTurnContext := mkReviewContext {
  rc_command_id : UUID;
  rc_command_type : string;
  rc_review_thread_id : UUID;
  rc_action_request_id : UUID;
  rc_proposal_revision : Z;
  rc_actor_id : UUID;
  rc_message : option string;
  rc_action_type : string;
  rc_proposal_parameters : list (string * json);
  rc_proposal_payload_hash : string;
  rc_proposal_rationale : string
}.

Record ActionResultContext := mkActionResult {
  xc_attempt_id : UUID;
  xc_action_request_id : UUID;
  xc_revision : Z;
  xc_action_type : string;
  xc_parameters : list (string * json);
  xc_status : ActionAttemptStatus;
  xc_adapter_id : string;
  xc_idempotency_key : string;
  xc_provider_reference : option string;
  xc_result : option (list (string * json));
  xc_facts : list FactObservation;
  xc_error : option string;
  xc_conflict : option ActionConflict;
  xc_operator_resolution_id : option UUID;
  xc_operator_actor_id : option UUID;
  xc_operator_evidence : option string
}.

Record ProcessSnapshot := mkProcessSnapshot {
  ps_tenant_id : UUID;
  ps_process_instance_id : UUID;
  ps_process_type : string;
  ps_process_definition_version : string;
  ps_status : ProcessStatus;
  ps_authoritative_facts : gmap string json;
  ps_customer_claims : gmap string json;
  ps_fact_provenance : gmap string json;
  ps_memory_summary : option string;
  ps_memory_summary_source_event_ids : list UUID;
  ps_memory_summary_source_review_command_ids : list UUID;
  ps_memory_summary_source_action_attempt_ids : list UUID;
  ps_memory_summary_source_timer_ids : list string;
  ps_open_commitments : list string;
  ps_current_wake_conditions : list WakeCondition;
  ps_state_version : Z
}.

Record AgentTurnInput := mkTurnInput {
  ti_turn_id : UUID;
  ti_workflow_now : option datetime;
  ti_process : ProcessSnapshot;
  ti_events : list CanonicalEvent;
  ti_reviews : list ReviewTurnContext;
  ti_action_results : list ActionResultContext;
  ti_timer_ids : list string;
  ti_instructions : string
}.

(** The fields' own constraints. *)
Definition review_context_validate (r : ReviewTurnContext) : result unit :=
  raise_if (rc_proposal_revision r <? 1) ValueError "proposal_revision".

Definition action_result_validate (a : ActionResultContext) : result unit :=
  raise_if ((xc_revision a <? 1) || negb (is_identifier (xc_action_type a))
            || (py_len (xc_adapter_id a) <? 1)%nat || (150 <? py_len (xc_adapter_id a))%nat
            || negb (py_len (xc_idempotency_key a) =? 64)%nat)
    ValueError "action result context".

Definition is_object (v : json) : bool := match v with JObj _ => true | _ => false end.

Definition snapshot_validate (p : ProcessSnapshot) : result unit :=
  let named v := (1 <=? py_len v)%nat && (py_len v <=? 100)%nat in
  raise_if (negb (named (ps_process_type p) && named (ps_process_definition_version p)
                  && forallb (λ kv, is_object (snd kv)) (map_to_list (ps_fact_provenance p))
                  && (0 <=? ps_state_version p)))
    ValueError "process snapshot".

(** [require_workflow_timezone] and the length of [instructions]. *)
Definition turn_input_validate (i : AgentTurnInput) : result unit :=
  _ ← raise_if (match ti_workflow_now i with Some now => is_naive now | None => false end) ValueError
        "agent workflow time must be timezone-aware";
  raise_if (is_empty (ti_instructions i)) ValueError "instructions".

(** ** [model_dump(mode="json")] *)

Definition opt_json {A} (f : A → json) (o : option A) : json :=
  match o with Some a => f a | None => JNull end.
Definition uuid_json (u : UUID) : json := JStr (str_uuid u).

Section dump.
Context (dump_datetime : datetime → string).
#[local] Open Scope string_scope.

Definition wake_dump (w : WakeCondition) : json :=
  match w with
  | EventWakeCondition t => JObj [("type", JStr "event"); ("event_type", JStr t)]
  | TimerWakeCondition d => JObj [("type", JStr "timer"); ("at", JStr (dump_datetime d))]
  | HumanWakeCondition i => JObj [("type", JStr "human"); ("interaction", JStr (interaction_value i))]
  end.

Definition review_context_json (r : ReviewTurnContext) : json :=
  JObj [("command_id", uuid_json (rc_command_id r)); ("command_type", JStr (rc_command_type r));
        ("review_thread_id", uuid_json (rc_review_thread_id r));
        ("action_request_id", uuid_json (rc_action_request_id r));
        ("proposal_revision", JInt (rc_proposal_revision r)); ("actor_id", uuid_json (rc_actor_id r));
        ("message", opt_json JStr (rc_message r)); ("action_type", JStr (rc_action_type r));
        ("proposal_parameters", JObj (rc_proposal_parameters r));
        ("proposal_payload_hash", JStr (rc_proposal_payload_hash r));
        ("proposal_rationale", JStr (rc_proposal_rationale r))].

Definition action_result_json (a : ActionResultContext) : json :=
  JObj [("attempt_id", uuid_json (xc_attempt_id a));
        ("action_request_id", uuid_json (xc_action_request_id a));
        ("revision", JInt (xc_revision a)); ("action_type", JStr (xc_action_type a));
        ("parameters", JObj (xc_parameters a)); ("status", JStr (attempt_status_value (xc_status a)));
        ("adapter_id", JStr (xc_adapter_id a)); ("idempotency_key", JStr (xc_idempotency_key a));
        ("provider_reference", opt_json JStr (xc_provider_reference a));
        ("result", opt_json JObj (xc_result a)); ("facts", JArr (fact_json <$> xc_facts a));
        ("error", opt_json JStr (xc_error a)); ("conflict", opt_json conflict_json (xc_conflict a));
        ("operator_resolution_id", opt_json uuid_json (xc_operator_resolution_id a));
        ("operator_actor_id", opt_json uuid_json (xc_operator_actor_id a));
        ("operator_evidence", opt_json JStr (xc_operator_evidence a))].

Definition snapshot_json (p : ProcessSnapshot) : json :=
  JObj [("tenant_id", uuid_json (ps_tenant_id p));
        ("process_instance_id", uuid_json (ps_process_instance_id p));
        ("process_type", JStr (ps_process_type p));
        ("process_definition_version", JStr (ps_process_definition_version p));
        ("status", JStr (process_status_value (ps_status p)));
        ("authoritative_facts", JObj (fact_items (ps_authoritative_facts p)));
        ("customer_claims", JObj (fact_items (ps_customer_claims p)));
        ("fact_provenance", JObj (fact_items (ps_fact_provenance p)));
        ("memory_summary", opt_json JStr (ps_memory_summary p));
        ("memory_summary_source_event_ids", JArr (uuid_json <$> ps_memory_summary_source_event_ids p));
        ("memory_summary_source_review_command_ids",
           JArr (uuid_json <$> ps_memory_summary_source_review_command_ids p));
        ("memory_summary_source_action_attempt_ids",
           JArr (uuid_json <$> ps_memory_summary_source_action_attempt_ids p));
        ("memory_summary_source_timer_ids", JArr (JStr <$> ps_memory_summary_source_timer_ids p));
        ("open_commitments", JArr (JStr <$> ps_open_commitments p));
        ("current_wake_conditions", JArr (wake_dump <$> ps_current_wake_conditions p));
        ("state_version", JInt (ps_state_version p))].

Definition turn_input_json (i : AgentTurnInput) : json :=
  JObj [("turn_id", uuid_json (ti_turn_id i));
        ("workflow_now", opt_json (λ d, JStr (dump_datetime d)) (ti_workflow_now i));
        ("process", snapshot_json (ti_process i));
        ("events", JArr (event_json dump_datetime <$> ti_events i));
        ("reviews", JArr (review_context_json <$> ti_reviews i));
        ("action_results", JArr (action_result_json <$> ti_action_results i));
        ("timer_ids", JArr (JStr <$> ti_timer_ids i)); ("instructions", JStr (ti_instructions i))].
End dump.

(** ** The loader *)

Record ContextLoader := mkLoader {
  cl_limits : PlatformSafetyLimits;
  cl_max_events_per_turn : Z;
  cl_max_reviews_per_turn : Z;
  cl_max_action_results_per_turn : Z;
  cl_max_timers_per_turn : Z;
  cl_max_agent_context_bytes : Z
}.

(** One keyword of the constructor: the platform maximum when it is left out. *)
Definition bounded_by (name : string) (value : option Z) (maximum : Z) : result Z :=
  let v := default maximum value in
  _ ← raise_if (v <? 1) ValueError (name +:+ " must be positive")%string;
  _ ← raise_if (maximum <? v) ValueError (name +:+ " cannot exceed the platform maximum")%string;
  Ok v.

Definition make_loader (limits : PlatformSafetyLimits)
    (events reviews action_results timers context_bytes : option Z) : result ContextLoader :=
  e ← bounded_by "max_events_per_turn" events (max_events_per_turn limits);
  r ← bounded_by "max_reviews_per_turn" reviews (max_reviews_per_turn limits);
  a ← bounded_by "max_action_results_per_turn" action_results (max_action_results_per_turn limits);
  t ← bounded_by "max_timers_per_turn" timers (max_timers_per_turn limits);
  b ← bounded_by "max_agent_context_bytes" context_bytes (max_agent_context_bytes limits);
  Ok (mkLoader limits e r a t b).

(** What one turn is asked to be about. *)
Record TurnRequest := mkTurnRequest {
  tr_tenant_id : UUID;
  tr_process_instance_id : UUID;
  tr_turn_id : UUID;
  tr_workflow_now : option datetime;
  tr_event_ids : list UUID;
  tr_review_command_ids : list UUID;
  tr_action_attempt_ids : list UUID;
  tr_timer_ids : list string
}.

Definition longer {A} (xs : list A) (most : Z) : bool := most <? Z.of_nat (length xs).

Definition check_sources (l : ContextLoader) (q : TurnRequest) : result unit :=
  _ ← raise_if (negb (nonempty (tr_event_ids q)) && negb (nonempty (tr_review_command_ids q))
                && negb (nonempty (tr_action_attempt_ids q)) && negb (nonempty (tr_timer_ids q)))
        AgentContextError "an agent turn requires at least one wake source";
  _ ← raise_if (longer (tr_event_ids q) (cl_max_events_per_turn l)) AgentContextLimitExceeded
        "agent turn exceeds the event context limit";
  _ ← raise_if (negb (all_unique (tr_event_ids q))) AgentContextError
        "agent turn event IDs must be unique";
  _ ← raise_if (longer (tr_review_command_ids q) (cl_max_reviews_per_turn l)) AgentContextLimitExceeded
        "agent turn exceeds the review context limit";
  _ ← raise_if (negb (all_unique (tr_review_command_ids q))) AgentContextError
        "agent turn review command IDs must be unique";
  _ ← raise_if (longer (tr_action_attempt_ids q) (cl_max_action_results_per_turn l))
        AgentContextLimitExceeded "agent turn exceeds the action result context limit";
  _ ← raise_if (negb (all_unique (tr_action_attempt_ids q))) AgentContextError
        "agent turn action attempt IDs must be unique";
  _ ← raise_if (longer (tr_timer_ids q) (cl_max_timers_per_turn l)) AgentContextLimitExceeded
        "agent turn exceeds the timer context limit";
  raise_if (existsb is_blank (tr_timer_ids q) || negb (all_unique (tr_timer_ids q))) AgentContextError
    "agent turn timer IDs must be nonblank and unique".

(** The process of the turn, under the definition and release of this worker. *)
Definition load_process (q : TurnRequest) (definition : ProcessDefinition)
    (compatibility : DeploymentCompatibility) (release : DeploymentRelease) : Tx ProcessInstance :=
  process ← scalar (λ p : ProcessInstance, eqb (pi_id p) (tr_process_instance_id q));
  match process with
  | None => tx_raise AgentContextError "process instance not found"
  | Some p =>
      _ ← tx_raise_if (negb (eqb (pi_process_type p) (pd_id definition))
                       || negb (eqb (pi_definition_version p) (pd_version definition)))
            DeploymentCompatibilityError
            "process instance definition identity does not match the workflow command";
      _ ← lift_result (require_process_pins compatibility p);
      _ ← lift_result (require_release_pins release p);
      mret p
  end.

(** [{key(row): row for row in rows}]: a later row replaces an earlier one. *)
Definition row_of {R} (key : R → UUID) (rows : list R) (i : UUID) : option R :=
  List.find (λ r, eqb (key r) i) (rev rows).

(** [tuple(f(by_id[i]) for i in ids)] *)
Definition build_each {R A} (key : R → UUID) (f : R → result A) (rows : list R) (ids : list UUID)
  : result (list A) :=
  mapM (λ i, match row_of key rows i with Some r => f r | None => raise KeyError (str_uuid i) end) ids.

(** [set(by_id) != set(ids)] *)
Definition missing_rows {R} (key : R → UUID) (rows : list R) (ids : list UUID) : bool :=
  negb (same_set (key <$> rows) ids).

Section load.
Context (dump_datetime : datetime → string).

(** [CanonicalEvent.model_validate(data).model_copy(update=...)] *)
Definition turn_event (process_instance_id : UUID) (row : EventInbox) : result CanonicalEvent :=
  let e := ei_event_data row in
  _ ← for_each fact_validate (ce_facts e);
  _ ← event_validate dump_datetime e;
  Ok (mkEvent (ce_event_id e) (ce_tenant_id e) (Some process_instance_id) (ce_event_type e) (ce_source e)
        (ce_source_event_id e) (ce_occurred_at e) (ce_received_at e) (ce_schema_version e)
        (ce_sensitivity e) (ce_external_references e) (ce_facts e) (ce_payload e)).

Definition load_events (q : TurnRequest) : Tx (list CanonicalEvent) :=
  stored ← select (λ e : EventInbox, bool_decide (ei_id e ∈ tr_event_ids q)
    && eqb (ei_process_instance_id e) (Some (tr_process_instance_id q))
    && eqb (ei_correlation_status e) CS_MATCHED);
  _ ← tx_raise_if (missing_rows ei_id stored (tr_event_ids q)) AgentContextError
        "one or more turn events are unavailable or unmatched";
  lift_result (build_each ei_id (turn_event (tr_process_instance_id q)) stored (tr_event_ids q)).
End load.

Record ReviewRow := mkReviewRow {
  rr_message : ReviewMessage; rr_thread : ReviewThread; rr_approval : ApprovalRequest;
  rr_request : ActionRequest; rr_revision : ActionRevision
}.

Definition review_turn_context (row : ReviewRow) : result ReviewTurnContext :=
  let c := mkReviewContext (rm_id (rr_message row)) (review_type_value (rm_message_type (rr_message row)))
    (rt_id (rr_thread row)) (ar_id (rr_request row)) (arv_revision (rr_revision row))
    (rm_actor_id (rr_message row)) (rm_content (rr_message row)) (ar_action_type (rr_request row))
    (arv_parameters (rr_revision row)) (arv_payload_hash (rr_revision row))
    (arv_rationale (rr_revision row)) in
  _ ← review_context_validate c; Ok c.

Definition load_reviews (q : TurnRequest) : Tx (list ReviewTurnContext) :=
  messages ← select (λ m : ReviewMessage, bool_decide (rm_id m ∈ tr_review_command_ids q)
    && eqb (rm_process_instance_id m) (tr_process_instance_id q));
  threads ← select (λ t : ReviewThread, true);
  approvals ← select (λ a : ApprovalRequest, true);
  requests ← select (λ r : ActionRequest, true);
  revisions ← select (λ v : ActionRevision, true);
  let rows :=
    m ← messages;
    t ← List.filter (λ t, eqb (rt_id t) (rm_review_thread_id m)) threads;
    a ← List.filter (λ a, eqb (apq_id a) (rt_approval_request_id t)) approvals;
    r ← List.filter (λ r, eqb (ar_id r) (apq_action_request_id a)) requests;
    v ← List.filter (λ v, eqb (arv_action_request_id v) (apq_action_request_id a)
                          && (arv_revision v =? apq_revision a)) revisions;
    [mkReviewRow m t a r v] in
  _ ← tx_raise_if (missing_rows (λ row, rm_id (rr_message row)) rows (tr_review_command_ids q))
        AgentContextError "one or more review commands are unavailable";
  lift_result (build_each (λ row, rm_id (rr_message row)) review_turn_context rows
                 (tr_review_command_ids q)).

Record ActionRow := mkActionRow {
  xr_attempt : ActionAttempt; xr_request : ActionRequest; xr_revision : ActionRevision;
  xr_decision : option ActionReconciliationDecision
}.

Definition action_result_context (row : ActionRow) : result ActionResultContext :=
  let a := xr_attempt row in
  _ ← for_each fact_validate (aa_facts a);
  _ ← match aa_conflict a with
      | Some c => _ ← for_each fact_validate (conflict_facts c); conflict_validate c
      | None => Ok tt
      end;
  let c := mkActionResult (aa_id a) (ar_id (xr_request row)) (aa_revision a)
    (ar_action_type (xr_request row)) (arv_parameters (xr_revision row)) (aa_status a) (aa_adapter_id a)
    (aa_idempotency_key a) (aa_provider_reference a) (aa_result a) (aa_facts a) (aa_error a)
    (aa_conflict a) (rd_id <$> xr_decision row) (rd_actor_id <$> xr_decision row)
    (rd_evidence <$> xr_decision row) in
  _ ← action_result_validate c; Ok c.

(** The rows of an outer join: a row without a partner is kept with [None]. *)
Definition or_none {R} (rows : list R) : list (option R) :=
  match rows with [] => [None] | _ => Some <$> rows end.

Definition load_action_results (q : TurnRequest) : Tx (list ActionResultContext) :=
  attempts ← select (λ a : ActionAttempt, bool_decide (aa_id a ∈ tr_action_attempt_ids q)
    && eqb (aa_process_instance_id a) (tr_process_instance_id q));
  requests ← select (λ r : ActionRequest, true);
  revisions ← select (λ v : ActionRevision, true);
  decisions ← select (λ d : ActionReconciliationDecision, true);
  let rows :=
    a ← attempts;
    r ← List.filter (λ r, eqb (ar_id r) (aa_action_request_id a)) requests;
    v ← List.filter (λ v, eqb (arv_action_request_id v) (aa_action_request_id a)
                          && (arv_revision v =? aa_revision a)) revisions;
    d ← or_none (List.filter (λ d, eqb (rd_action_attempt_id d) (aa_id a)
                   && eqb (rd_tenant_id d) (aa_tenant_id a)
                   && eqb (rd_process_instance_id d) (aa_process_instance_id a)) decisions);
    [mkActionRow a r v d] in
  _ ← tx_raise_if (missing_rows (λ row, aa_id (xr_attempt row)) rows (tr_action_attempt_ids q))
        AgentContextError "one or more action attempts are unavailable";
  lift_result (build_each (λ row, aa_id (xr_attempt row)) action_result_context rows
                 (tr_action_attempt_ids q)).

(** The sizes of what the turn shows besides events. *)
Definition check_turn_content (limits : PlatformSafetyLimits) (process : ProcessInstance)
    (reviews : list ReviewTurnContext) (results : list ActionResultContext) : result unit :=
  _ ← require_memory_content (pi_memory_summary process) (pi_open_commitments process) limits;
  _ ← for_each (λ r,
        _ ← match rc_message r with
            | Some m => _ ← require_utf8_bytes m "review message" (max_review_message_bytes limits); Ok tt
            | None => Ok tt
            end;
        require_action_parameters (rc_proposal_parameters r) "review proposal parameters" limits) reviews;
  for_each (λ a, require_action_parameters (xc_parameters a) "action result parameters" limits) results.

(** The facts of the process once the turn's observations are applied. *)
Definition turn_projection (process : ProcessInstance) (events : list CanonicalEvent)
    (results : list ActionResultContext) : FactProjection :=
  fold_left (λ p a, apply_fact_observations (xc_facts a) "action_attempt" (xc_attempt_id a) p) results
    (fold_left (λ p e, apply_fact_observations (ce_facts e) "event" (ce_event_id e) p) events
       (mkProjection (pi_authoritative_facts process) (pi_customer_claims process)
          (pi_fact_provenance process))).

(** [except SafetyLimitExceeded ... except ValueError ...] *)
Definition rewrap_context {A} (m : result A) : result A :=
  match m with
  | Raise e => if bool_decide (exn_cls e = SafetyLimitExceeded)
               then raise AgentContextLimitExceeded (exn_msg e)
               else if is_value_error (exn_cls e) then raise AgentContextError (exn_msg e) else Raise e
  | Ok a => Ok a
  end.

Definition _require_safe_fact_projection (limits : PlatformSafetyLimits) (process : ProcessInstance)
    (events : list CanonicalEvent) (results : list ActionResultContext) : result unit :=
  let p := turn_projection process events results in
  rewrap_context (require_process_fact_projection (fact_items (fp_authoritative p))
    (fact_items (fp_claims p)) (fact_items (fp_provenance p)) limits).

Definition build_snapshot (q : TurnRequest) (p : ProcessInstance) : result ProcessSnapshot :=
  events ← parse_uuids (pi_memory_summary_source_event_ids p);
  reviews ← parse_uuids (pi_memory_summary_source_review_command_ids p);
  attempts ← parse_uuids (pi_memory_summary_source_action_attempt_ids p);
  _ ← for_each wake_validate (pi_current_wake_conditions p);
  let s := mkProcessSnapshot (tr_tenant_id q) (tr_process_instance_id q) (pi_process_type p)
    (pi_definition_version p) (pi_status p) (pi_authoritative_facts p) (pi_customer_claims p)
    (pi_fact_provenance p) (pi_memory_summary p) events reviews attempts
    (pi_memory_summary_source_timer_ids p) (pi_open_commitments p) (pi_current_wake_conditions p)
    (pi_state_version p) in
  _ ← snapshot_validate s; Ok s.

(** [PostgresAgentContextLoader.load] *)
Definition load (dump_datetime : datetime → string) (l : ContextLoader) (q : TurnRequest)
    (definition : ProcessDefinition) (compatibility : DeploymentCompatibility)
    (release : DeploymentRelease) : Tx AgentTurnInput :=
  _ ← lift_result (check_sources l q);
  _ ← set_tenant_context (tr_tenant_id q);
  process ← load_process q definition compatibility release;
  events ← load_events dump_datetime q;
  reviews ← load_reviews q;
  results ← load_action_results q;
  _ ← lift_result (rewrap_value_error AgentContextLimitExceeded
        (check_turn_content (cl_limits l) process reviews results));
  _ ← lift_result (_require_safe_fact_projection (cl_limits l) process events results);
  snapshot ← lift_result (build_snapshot q process);
  let input := mkTurnInput (tr_turn_id q) (tr_workflow_now q) snapshot events reviews results
    (tr_timer_ids q) (compile_instructions definition) in
  _ ← lift_result (turn_input_validate input);
  _ ← lift_result (rewrap_context (require_json_bytes (turn_input_json dump_datetime input)
        "agent turn context" (cl_max_agent_context_bytes l)));
  mret input.

(** ** What a loaded turn is *)

(** The event of inbox row [i], matched to the process. *)
Definition event_of (d : Db) (t p : UUID) (i : UUID) (e : CanonicalEvent) : Prop :=
  ∃ row, row ∈ event_inbox d ∧ ei_id row = i ∧ ei_tenant_id row = t
    ∧ ei_process_instance_id row = Some p ∧ ei_correlation_status row = CS_MATCHED
    ∧ ce_event_id e = ce_event_id (ei_event_data row) ∧ ce_process_instance_id e = Some p
    ∧ ce_event_type e = ce_event_type (ei_event_data row) ∧ ce_facts e = ce_facts (ei_event_data row)
    ∧ ce_payload e = ce_payload (ei_event_data row).

(** The review command [i] with the exact proposal revision its thread is about. *)
Definition review_of (d : Db) (t p : UUID) (i : UUID) (c : ReviewTurnContext) : Prop :=
  ∃ m th a r v, m ∈ review_messages d ∧ th ∈ review_threads d ∧ a ∈ approval_requests d
    ∧ r ∈ action_requests d ∧ v ∈ action_revisions d
    ∧ Forall (eq t) [rm_tenant_id m; rt_tenant_id th; apq_tenant_id a; ar_tenant_id r; arv_tenant_id v]
    ∧ rm_id m = i ∧ rm_process_instance_id m = p ∧ rt_id th = rm_review_thread_id m
    ∧ apq_id a = rt_approval_request_id th ∧ ar_id r = apq_action_request_id a
    ∧ arv_action_request_id v = ar_id r ∧ arv_revision v = apq_revision a
    ∧ review_turn_context (mkReviewRow m th a r v) = Ok c.

(** The outcome of attempt [i], with the operator's decision about it if there is one. *)
Definition result_of (d : Db) (t p : UUID) (i : UUID) (c : ActionResultContext) : Prop :=
  ∃ a r v o, a ∈ action_attempts d ∧ r ∈ action_requests d ∧ v ∈ action_revisions d
    ∧ Forall (eq t) [aa_tenant_id a; ar_tenant_id r; arv_tenant_id v]
    ∧ aa_id a = i ∧ aa_process_instance_id a = p ∧ ar_id r = aa_action_request_id a
    ∧ arv_action_request_id v = ar_id r ∧ arv_revision v = aa_revision a
    ∧ match o with
      | Some x => x ∈ action_reconciliation_decisions d ∧ rd_action_attempt_id x = i ∧ rd_tenant_id x = t
      | None => Forall (λ x, rd_tenant_id x = t → rd_process_instance_id x = p → rd_action_attempt_id x ≠ i)
                  (action_reconciliation_decisions d)
      end
    ∧ action_result_context (mkActionRow a r v o) = Ok c.

Definition is_snapshot_of (p : ProcessInstance) (s : ProcessSnapshot) : Prop :=
  ps_tenant_id s = pi_tenant_id p ∧ ps_process_instance_id s = pi_id p
  ∧ ps_process_type s = pi_process_type p ∧ ps_process_definition_version s = pi_definition_version p
  ∧ ps_status s = pi_status p ∧ ps_authoritative_facts s = pi_authoritative_facts p
  ∧ ps_customer_claims s = pi_customer_claims p ∧ ps_fact_provenance s = pi_fact_provenance p
  ∧ ps_state_version s = pi_state_version p.

(** A turn is about the events, commands and results it was asked for, each once and in
    order; its process runs under the worker's definition and release; and it is within
    the loader's bounds. *)
Record LoadedTurn (dump_datetime : datetime → string) (l : ContextLoader) (q : TurnRequest)
    (definition : ProcessDefinition) (compatibility : DeploymentCompatibility)
    (release : DeploymentRelease) (d : Db) (i : AgentTurnInput) : Prop := {
  lt_turn : ti_turn_id i = tr_turn_id q ∧ ti_workflow_now i = tr_workflow_now q
    ∧ ti_timer_ids i = tr_timer_ids q ∧ ti_instructions i = compile_instructions definition;
  lt_woken : (tr_event_ids q ++ tr_review_command_ids q ++ tr_action_attempt_ids q)%list ≠ []
    ∨ tr_timer_ids q ≠ [];
  lt_unique : NoDup (tr_event_ids q) ∧ NoDup (tr_review_command_ids q)
    ∧ NoDup (tr_action_attempt_ids q) ∧ NoDup (tr_timer_ids q);
  lt_counts : Z.of_nat (length (tr_event_ids q)) <= cl_max_events_per_turn l
    ∧ Z.of_nat (length (tr_review_command_ids q)) <= cl_max_reviews_per_turn l
    ∧ Z.of_nat (length (tr_action_attempt_ids q)) <= cl_max_action_results_per_turn l
    ∧ Z.of_nat (length (tr_timer_ids q)) <= cl_max_timers_per_turn l;
  lt_process : ∃ p, p ∈ process_instances d ∧ pi_id p = tr_process_instance_id q
    ∧ pi_tenant_id p = tr_tenant_id q ∧ pi_process_type p = pd_id definition
    ∧ pi_definition_version p = pd_version definition
    ∧ require_process_pins compatibility p = Ok tt ∧ require_release_pins release p = Ok tt
    ∧ is_snapshot_of p (ti_process i)
    ∧ check_turn_content (cl_limits l) p (ti_reviews i) (ti_action_results i) = Ok tt
    ∧ (let f := turn_projection p (ti_events i) (ti_action_results i) in
       succeeds (require_process_fact_projection (fact_items (fp_authoritative f))
         (fact_items (fp_claims f)) (fact_items (fp_provenance f)) (cl_limits l)));
  lt_events : Forall2 (event_of d (tr_tenant_id q) (tr_process_instance_id q)) (tr_event_ids q) (ti_events i);
  lt_reviews : Forall2 (review_of d (tr_tenant_id q) (tr_process_instance_id q))
    (tr_review_command_ids q) (ti_reviews i);
  lt_results : Forall2 (result_of d (tr_tenant_id q) (tr_process_instance_id q))
    (tr_action_attempt_ids q) (ti_action_results i);
  lt_size : json_at_most (cl_max_agent_context_bytes l) (turn_input_json dump_datetime i)
}.

(** ** The queries *)

Lemma row_of_Some {R} (key : R → UUID) rows i r :
  row_of key rows i = Some r → r ∈ rows ∧ key r = i.
Proof.
  intros [Hin Heq]%find_some. apply in_rev, list_elem_of_In in Hin. by apply eqb_true in Heq.
Qed.

Lemma build_each_ok {R A} (key : R → UUID) (f : R → result A) rows ids xs :
  build_each key f rows ids = Ok xs →
  Forall2 (λ i x, ∃ r, r ∈ rows ∧ key r = i ∧ f r = Ok x) ids xs.
Proof.
  intros H%mapM_ok. eapply Forall2_impl; [exact H|]. cbn. intros i x Hx.
  destruct (row_of key rows i) as [r|] eqn:E; [|discriminate Hx].
  apply row_of_Some in E as [? ?]. eauto.
Qed.

Lemma rewrap_context_ok {A} (m : result A) a : rewrap_context m = Ok a → m = Ok a.
Proof. destruct m as [|e]; cbn; [done|]. repeat case_if; naive_solver. Qed.

Lemma or_none_cases {R} (rows : list R) o :
  o ∈ or_none rows → match o with Some x => x ∈ rows | None => rows = [] end.
Proof.
  destruct rows as [|r rows]; cbn; [by intros ->%list_elem_of_singleton|].
  intros (x & -> & Hx)%(list_elem_of_fmap Some (r :: rows)). done.
Qed.

(** A row of a selection, and one of a filtered table. *)
Lemma selected {R} `{Table R} s t (p : R → bool) r rows :
  s_tenant s = Some t → r ∈ List.filter (λ r, visible s r && p r) rows →
  r ∈ rows ∧ row_tenant r = t ∧ p r = true.
Proof.
  intros Hs [E Hin]%elem_of_filter_bool. apply andb_true_iff in E as [Hv Hp].
  unfold visible in Hv. rewrite Hs in Hv. apply eqb_true in Hv. by injection Hv.
Qed.

(** Take a membership in a join of selections apart, down to equations between columns. *)
Ltac join_inv Hs :=
  repeat match goal with
  | H : _ ∈ mbind _ _ |- _ => apply list_elem_of_bind in H as (? & H & ?)
  | H : _ ∈ [_] |- _ => apply list_elem_of_singleton in H as ->
  | H : _ ∈ List.filter (λ r, visible _ r && _) _ |- _ =>
      apply (selected _ _ _ _ _ Hs) in H as (? & ? & ?)
  | H : _ ∈ List.filter _ _ |- _ => apply elem_of_filter_bool in H as [? ?]
  | H : _ ∈ or_none _ |- _ => apply or_none_cases in H
  | H : _ && _ = true |- _ => apply andb_true_iff in H as [? ?]
  | H : eqb _ _ = true |- _ => apply eqb_true in H
  | H : (_ =? _) = true |- _ => apply Z.eqb_eq in H
  end; cbn in *.

Lemma filter_empty {A} (q : A → bool) xs x : List.filter q xs = [] → x ∈ xs → q x = false.
Proof.
  intros E Hx. apply not_true_iff_false. intros Hq.
  assert (x ∈ List.filter q xs) as Hin by by apply elem_of_filter_bool. rewrite E in Hin. by apply elem_of_nil in Hin.
Qed.

Section queries.
Context (t : UUID).

Lemma load_process_ok q definition compatibility release s p s' :
  s_tenant s = Some t → load_process q definition compatibility release s = Ok (p, s') →
  s' = s ∧ p ∈ process_instances (s_db s) ∧ pi_id p = tr_process_instance_id q ∧ pi_tenant_id p = t
  ∧ pi_process_type p = pd_id definition ∧ pi_definition_version p = pd_version definition
  ∧ require_process_pins compatibility p = Ok tt ∧ require_release_pins release p = Ok tt.
Proof.
  intros Hs H. unfold load_process in H. tx_step. tx_step.
  destruct (hd_error _) as [p'|] eqn:E; [|discriminate H]. tx_inv.
  apply hd_filter_Some in E as [Hin Hp]. apply andb_true_iff in Hp as [Hv Hp%eqb_true].
  unfold visible in Hv. rewrite Hs in Hv. apply eqb_true in Hv. injection Hv as Hv.
  match goal with H : _ || _ = false |- _ =>
    apply orb_false_iff in H as [?%negb_false_iff%eqb_true ?%negb_false_iff%eqb_true] end.
  by split_and!.
Qed.

Lemma load_events_ok dump q s es s' :
  s_tenant s = Some t → load_events dump q s = Ok (es, s') →
  s' = s ∧ Forall2 (event_of (s_db s) t (tr_process_instance_id q)) (tr_event_ids q) es.
Proof.
  intros Hs H. unfold load_events in H. tx_inv. split; [done|].
  match goal with H : build_each _ _ _ _ = _ |- _ => apply build_each_ok in H end.
  eapply Forall2_impl; [eassumption|]. cbn. intros i e (row & Hrow & <- & Hok). join_inv Hs.
  unfold turn_event in Hok. bind_inv. subst e. exists row. by split_and!.
Qed.

Lemma load_reviews_ok q s cs s' :
  s_tenant s = Some t → load_reviews q s = Ok (cs, s') →
  s' = s ∧ Forall2 (review_of (s_db s) t (tr_process_instance_id q)) (tr_review_command_ids q) cs.
Proof.
  intros Hs H. unfold load_reviews in H. tx_inv. split; [done|].
  match goal with H : build_each _ _ _ _ = _ |- _ => apply build_each_ok in H end.
  eapply Forall2_impl; [eassumption|]. cbn. intros i c (row & Hrow & <- & Hok). join_inv Hs.
  do 5 eexists. split_and!; try eassumption; try congruence. repeat constructor; congruence.
Qed.

Lemma load_action_results_ok q s xs s' :
  s_tenant s = Some t → load_action_results q s = Ok (xs, s') →
  s' = s ∧ Forall2 (result_of (s_db s) t (tr_process_instance_id q)) (tr_action_attempt_ids q) xs.
Proof.
  intros Hs H. unfold load_action_results in H. tx_inv. split; [done|].
  match goal with H : build_each _ _ _ _ = _ |- _ => apply build_each_ok in H end.
  eapply Forall2_impl; [eassumption|]. cbn. intros i c (row & Hrow & <- & Hok). join_inv Hs.
  do 4 eexists. split_and!; try eassumption; try congruence; [repeat constructor; congruence|].
  match goal with |- match ?o with _ => _ end => destruct o end; join_inv Hs; [by split_and!|].
  apply Forall_forall. intros y Hy Et Ep Ei. rewrite filter_filter_bool in *.
  match goal with H : List.filter _ _ = [] |- _ => apply (filter_empty _ _ y) in H; [|done]; revert H end.
  unfold visible. cbn. rewrite Hs, Et, Ep, Ei.
  repeat match goal with H : aa_tenant_id _ = _ |- _ => rewrite H | H : aa_process_instance_id _ = _ |- _ => rewrite H end.
  by rewrite !eqb_refl.
Qed.
End queries.

Lemma check_sources_ok l q :
  check_sources l q = Ok tt →
  ((tr_event_ids q ++ tr_review_command_ids q ++ tr_action_attempt_ids q)%list ≠ [] ∨ tr_timer_ids q ≠ [])
  ∧ (NoDup (tr_event_ids q) ∧ NoDup (tr_review_command_ids q) ∧ NoDup (tr_action_attempt_ids q)
     ∧ NoDup (tr_timer_ids q))
  ∧ Z.of_nat (length (tr_event_ids q)) <= cl_max_events_per_turn l
  ∧ Z.of_nat (length (tr_review_command_ids q)) <= cl_max_reviews_per_turn l
  ∧ Z.of_nat (length (tr_action_attempt_ids q)) <= cl_max_action_results_per_turn l
  ∧ Z.of_nat (length (tr_timer_ids q)) <= cl_max_timers_per_turn l.
Proof.
  intros H. unfold check_sources, longer, all_unique in H. bind_inv.
  repeat match goal with
  | H : _ || _ = false |- _ => apply orb_false_iff in H as [? ?]
  | H : negb (bool_decide _) = false |- _ => apply negb_false_iff, bool_decide_eq_true in H
  | H : (_ <? _) = false |- _ => apply Z.ltb_ge in H
  end.
  split_and!; try assumption.
  destruct (tr_event_ids q); [|left; discriminate]. destruct (tr_review_command_ids q); [|left; discriminate].
  destruct (tr_action_attempt_ids q); [|left; discriminate]. destruct (tr_timer_ids q); [discriminate|right; discriminate].
Qed.

Lemma build_snapshot_ok q p s :
  build_snapshot q p = Ok s → tr_tenant_id q = pi_tenant_id p → tr_process_instance_id q = pi_id p →
  is_snapshot_of p s.
Proof. intros H Et Ep. unfold build_snapshot in H. bind_inv. subst s. by unfold is_snapshot_of. Qed.

Lemma loaded_turn_lemma dump l q definition compatibility release s i s' :
  load dump l q definition compatibility release s = Ok (i, s') →
  s_db s' = s_db s ∧ s_tenant s' = Some (tr_tenant_id q)
  ∧ LoadedTurn dump l q definition compatibility release (s_db s) i.
Proof.
  unfold load. intros (? & ? & [Hsrc ->]%lift_result_ok & H)%tx_bind_ok.
  apply tx_bind_ok in H as (? & s1 & Hset%set_tenant_context_ok & H).
  assert (s_tenant s1 = Some (tr_tenant_id q)) as Hs by by rewrite Hset.
  assert (s_db s1 = s_db s) as <- by by rewrite Hset.
  apply tx_bind_ok in H as (p & s2 & Hp & H). apply (load_process_ok _ _ _ _ _ _ _ _ Hs) in Hp as (-> & Hp).
  apply tx_bind_ok in H as (es & s2 & He & H). apply (load_events_ok _ _ _ _ _ _ Hs) in He as [-> He].
  apply tx_bind_ok in H as (cs & s2 & Hc & H). apply (load_reviews_ok _ _ _ _ _ Hs) in Hc as [-> Hc].
  apply tx_bind_ok in H as (xs & s2 & Hx & H). apply (load_action_results_ok _ _ _ _ _ Hs) in Hx as [-> Hx].
  apply tx_bind_ok in H as ([] & ? & [Hcontent%rewrap_ok ->]%lift_result_ok & H).
  apply tx_bind_ok in H as ([] & ? & [Hfacts%rewrap_context_ok ->]%lift_result_ok & H).
  apply tx_bind_ok in H as (sn & ? & [Hsn ->]%lift_result_ok & H).
  apply tx_bind_ok in H as (? & ? & [_ ->]%lift_result_ok & H).
  apply tx_bind_ok in H as (n & ? & [Hsize%rewrap_context_ok ->]%lift_result_ok & [-> ->]%mret_ok).
  split; [done|]. split; [done|]. destruct x as []. apply check_sources_ok in Hsrc as (? & ? & ?).
  destruct Hp as (? & ? & ? & ? & ? & ? & ?). apply build_snapshot_ok in Hsn; [|by symmetry..].
  constructor; try done.
  - exists p. split_and!; try done. by eexists.
  - apply succeeds_json_bytes with "agent turn context"%string. by eexists.
Qed.

(** ** The facts a turn is judged on *)

Lemma apply_sources_each {R A} (id : R → UUID) facts st (rows : list R) (f : A → list FactObservation)
    (g : A → UUID) ids xs p :
  Forall2 (λ i x, g x = i ∧ ∃ r, List.find (λ r, eqb (id r) i) rows = Some r ∧ facts r = f x) ids xs →
  apply_sources id facts st rows ids p = fold_left (λ p x, apply_fact_observations (f x) st (g x) p) xs p.
Proof.
  intros H. unfold apply_sources. revert p. induction H as [|i x ids xs (<- & r & Hr & Hf) _ IH]; intros p; [done|].
  cbn [fold_left]. by rewrite Hr, Hf, IH.
Qed.

(** The row of an identity, among the selected rows of a table of unique identities. *)
Lemma find_selected {R} (id : R → UUID) (q : R → bool) rows r :
  NoDup (id <$> rows) → r ∈ rows → q r = true →
  List.find (λ r', eqb (id r') (id r)) (List.filter q rows) = Some r.
Proof.
  intros Hn Hin Hq. destruct (List.find _ _) as [r'|] eqn:E.
  - apply find_some in E as [Hin' Heq%eqb_true]. apply list_elem_of_In, elem_of_filter_bool in Hin' as [_ Hin'].
    f_equal. by eapply same_row.
  - apply (find_none _ _) with (x := r) in E; [by rewrite eqb_refl in E|].
    apply list_elem_of_In, elem_of_filter_bool. done.
Qed.

Lemma all_found_Forall {R} (id : R → UUID) ids rows :
  Forall (λ i, ∃ r, r ∈ rows ∧ id r = i) ids → all_found id ids rows = true.
Proof.
  intros H. apply forallb_forall. intros i Hi%list_elem_of_In. rewrite Forall_forall in H.
  destruct (H i Hi) as (r & Hr & <-). apply existsb_exists. exists r. rewrite <- list_elem_of_In, eqb_refl. done.
Qed.

Definition ids_unique (d : Db) : Prop :=
  NoDup (ei_id <$> event_inbox d) ∧ NoDup (aa_id <$> action_attempts d).
(** Ingestion stores an event under its own identifier. *)
Definition events_under_own_id (d : Db) : Prop :=
  Forall (λ e, ce_event_id (ei_event_data e) = ei_id e) (event_inbox d).

Lemma filter_visible_member {R} `{Table R} s t (q : R → bool) r :
  s_tenant s = Some t → row_tenant r = t → q r = true → visible s r && q r = true.
Proof. intros Hs <- ->. unfold visible. by rewrite Hs, eqb_refl. Qed.

Lemma loaded_events_selected s t p ids es :
  s_tenant s = Some t → ids_unique (s_db s) → events_under_own_id (s_db s) →
  Forall2 (event_of (s_db s) t p) ids es →
  ∃ rows, _load_events p ids s = Ok (rows, s)
    ∧ Forall2 (λ i e, ce_event_id e = i ∧ ∃ r, List.find (λ r, eqb (ei_id r) i) rows = Some r
        ∧ ce_facts (ei_event_data r) = ce_facts e) ids es.
Proof.
  intros Hs [Hn _] Hown H. unfold events_under_own_id in Hown. rewrite Forall_forall in Hown.
  set (q := λ e : EventInbox, bool_decide (ei_id e ∈ ids) && eqb (ei_process_instance_id e) (Some p)
    && eqb (ei_correlation_status e) CS_MATCHED).
  assert (Forall2 (λ i e, ∃ r, r ∈ event_inbox (s_db s) ∧ ei_id r = i ∧ visible s r && q r = true
    ∧ ce_event_id e = i ∧ ce_facts (ei_event_data r) = ce_facts e) ids es) as Hrows.
  { apply Forall2_same_length_lookup. rewrite Forall2_same_length_lookup in H. destruct H as [Hlen H].
    split; [done|]. intros k i e Hi He. destruct (H k i e Hi He) as (r & Hin & <- & Ht & Hp & Hc & Hid & _ & _ & Hf & _).
    exists r. split_and!; [done|done| |by rewrite Hid, Hown|done].
    apply (filter_visible_member s t); [done..|]. unfold q. rewrite Hp, Hc, !eqb_refl, !andb_true_r.
    apply bool_decide_eq_true. by eapply list_elem_of_lookup_2. }
  exists (List.filter (λ r, visible s r && q r) (event_inbox (s_db s))). split.
  - unfold _load_events. rewrite (tx_bind_run _ _ _ _ _ (proj2 (select_ok q s _ s) (conj eq_refl eq_refl))).
    rewrite (tx_bind_run _ _ s tt s); [done|]. apply tx_raise_if_run, negb_false_iff, all_found_Forall.
    apply Forall_forall. intros i [k Hk]%list_elem_of_lookup. destruct (Forall2_lookup_l _ _ _ _ _ Hrows Hk) as (e & _ & r & ? & ? & ? & _).
    exists r. split; [|done]. by apply elem_of_filter_bool.
  - eapply Forall2_impl; [exact Hrows|]. cbn. intros i e (r & Hin & <- & Hq & He & Hf). split; [done|].
    exists r. split; [|done]. by apply find_selected.
Qed.

Lemma action_result_facts row c :
  action_result_context row = Ok c →
  xc_attempt_id c = aa_id (xr_attempt row) ∧ xc_facts c = aa_facts (xr_attempt row)
  ∧ xc_status c = aa_status (xr_attempt row) ∧ xc_action_type c = ar_action_type (xr_request row)
  ∧ xc_parameters c = arv_parameters (xr_revision row).
Proof. unfold action_result_context. intros H. bind_inv. subst c. by split_and!. Qed.

Lemma loaded_attempts_selected s t p ids xs :
  s_tenant s = Some t → ids_unique (s_db s) →
  Forall2 (result_of (s_db s) t p) ids xs →
  ∃ rows, _load_attempts p ids s = Ok (rows, s)
    ∧ Forall2 (λ i x, xc_attempt_id x = i ∧ ∃ r, List.find (λ r, eqb (aa_id r) i) rows = Some r
        ∧ aa_facts r = xc_facts x) ids xs.
Proof.
  intros Hs [_ Hn] H.
  set (q := λ a : ActionAttempt, bool_decide (aa_id a ∈ ids) && eqb (aa_process_instance_id a) p).
  assert (Forall2 (λ i x, ∃ r, r ∈ action_attempts (s_db s) ∧ aa_id r = i ∧ visible s r && q r = true
    ∧ xc_attempt_id x = i ∧ aa_facts r = xc_facts x) ids xs) as Hrows.
  { apply Forall2_same_length_lookup. rewrite Forall2_same_length_lookup in H. destruct H as [Hlen H].
    split; [done|]. intros k i x Hi Hx.
    destruct (H k i x Hi Hx) as (a & r & v & o & Hin & _ & _ & Ht & <- & Hp & _ & _ & _ & _ & Hc).
    apply action_result_facts in Hc as (Hid & Hf & _). exists a. split_and!; [done|done| |done|done].
    apply Forall_cons in Ht as [Ht _]. apply (filter_visible_member s t); [done..|]. unfold q.
    rewrite Hp, eqb_refl, andb_true_r. apply bool_decide_eq_true. by eapply list_elem_of_lookup_2. }
  exists (List.filter (λ r, visible s r && q r) (action_attempts (s_db s))). split.
  - unfold _load_attempts. rewrite (tx_bind_run _ _ _ _ _ (proj2 (select_ok q s _ s) (conj eq_refl eq_refl))).
    rewrite (tx_bind_run _ _ s tt s); [done|]. apply tx_raise_if_run, negb_false_iff, all_found_Forall.
    apply Forall_forall. intros i [k Hk]%list_elem_of_lookup.
    destruct (Forall2_lookup_l _ _ _ _ _ Hrows Hk) as (e & _ & r & ? & ? & ? & _).
    exists r. split; [|done]. by apply elem_of_filter_bool.
  - eapply Forall2_impl; [exact Hrows|]. cbn. intros i e (r & Hin & <- & Hq & He & Hf). split; [done|].
    exists r. split; [|done]. by apply find_selected.
Qed.

(** What [ProcessStateService] projects, in a later transaction over the same rows, for a
    decision that lists the turn's inputs in the turn's order. *)
Lemma loaded_projection_is_persisted dump l q definition compatibility release s i p d :
  LoadedTurn dump l q definition compatibility release (s_db s) i → s_tenant s = Some (tr_tenant_id q) →
  ids_unique (s_db s) → events_under_own_id (s_db s) →
  ad_based_on_event_ids d = tr_event_ids q → ad_based_on_action_attempt_ids d = tr_action_attempt_ids q →
  ∃ events attempts,
    _load_events (tr_process_instance_id q) (ad_based_on_event_ids d) s = Ok (events, s)
    ∧ _load_attempts (tr_process_instance_id q) (ad_based_on_action_attempt_ids d) s = Ok (attempts, s)
    ∧ project_facts p d events attempts = turn_projection p (ti_events i) (ti_action_results i).
Proof.
  intros Hl Hs Hu Hown He Ha. rewrite He, Ha.
  destruct (loaded_events_selected s _ _ _ _ Hs Hu Hown (lt_events _ _ _ _ _ _ _ _ Hl)) as (events & -> & Hes).
  destruct (loaded_attempts_selected s _ _ _ _ Hs Hu (lt_results _ _ _ _ _ _ _ _ Hl)) as (attempts & -> & Has).
  exists events, attempts. split; [done|]. split; [done|].
  unfold project_facts, turn_projection. rewrite He, Ha.
  rewrite (apply_sources_each _ _ _ _ _ _ _ _ _ Hes), (apply_sources_each _ _ _ _ _ _ _ _ _ Has). done.
Qed.

(** ** Properties *)

(** C10: a turn's input is loaded only for a turn that was woken, and then shows exactly the
    requested events, review commands and action results, each of them once, in the order
    of the request and as the tenant's rows of this very process describe them (with the
    proposal revision under review and the operator's decision about an uncertain outcome);
    the process is the tenant's, of the requested definition and pinned to the running
    release; the whole document and the facts the turn would project are within the platform's
    limits; and loading changes no row. *)
Theorem loaded_turn_is_the_requested_one dump l q definition compatibility release s i s' :
  load dump l q definition compatibility release s = Ok (i, s') →
  s_db s' = s_db s ∧ s_tenant s' = Some (tr_tenant_id q)
  ∧ LoadedTurn dump l q definition compatibility release (s_db s) i.
Proof. apply loaded_turn_lemma. Qed.

(** ** Examples *)

Definition ex_turn_db : Db := ex_state_db <| tenants := [mkTenant (uuid 10) "acme" "Acme" TS_ACTIVE "acme"] |>.
Definition ex_turn_session : Session :=
  mkSession ex_turn_db None (days 81) (λ _, days 81) 0 (λ n, uuid (100 + N.of_nat n)) 0.
Definition ex_loader : ContextLoader := mkLoader DEFAULT_PLATFORM_SAFETY_LIMITS 50 20 20 50 65536.
Definition ex_turn_request : TurnRequest :=
  mkTurnRequest (uuid 10) (uuid 20) (uuid 30) (Some (utc (days 81))) [uuid 40] [] [] [].
Definition ex_deployed : DeploymentCompatibility :=
  mkCompatibility "c" "m" [("booking_follow_up", "1", "d")]%string.
Definition ex_running_release : DeploymentRelease := mkRelease "acme" "b" "c" "gpt-4o" "r" "tiramisu.acme.r".
Definition ex_load : result (AgentTurnInput * Session) :=
  load isoformat ex_loader ex_turn_request ex_process_definition ex_deployed ex_running_release ex_turn_session.
Definition ex_input : AgentTurnInput :=
  match ex_load with
  | Ok (i, _) => i
  | Raise _ => mkTurnInput (uuid 0) None (mkProcessSnapshot (uuid 0) (uuid 0) "" "" PS_ACTIVE ∅ ∅ ∅ None [] [] [] [] [] [] 0)
                 [] [] [] [] ""
  end.
Definition ex_loaded_session : Session := ex_turn_session <| s_tenant := Some (uuid 10) |>.
Lemma ex_load_ok : ex_load = Ok (ex_input, ex_loaded_session).
Proof. vm_compute. reflexivity. Qed.

Lemma loaded_turn_is_the_requested_one_witness :
  s_db ex_loaded_session = s_db ex_turn_session ∧ s_tenant ex_loaded_session = Some (uuid 10)
  ∧ LoadedTurn isoformat ex_loader ex_turn_request ex_process_definition ex_deployed ex_running_release
      (s_db ex_turn_session) ex_input.
Proof.
  exact (loaded_turn_is_the_requested_one isoformat ex_loader ex_turn_request ex_process_definition
    ex_deployed ex_running_release ex_turn_session ex_input ex_loaded_session ex_load_ok).
Defined.
