(* ===== verification/AgentTurn.v ===== *)
(** * [temporal/activities/agent_turn.py]: one agent turn

    [run_agent_turn] loads the turn's input once and then asks the model up to three
    times, each time behind a fresh check of the safety controls; every answer is
    charged before it is judged, and a rejected answer goes back with its error.
    Each transaction, and each call of the model, is one step of a phase machine:
    between two steps anything else may happen to the database.  The provider, the
    identifier of the execution and the writing of a decision as JSON are arguments.
    The optional observer of events is a test hook and is left out. *)

From stdpp Require Import base gmap list strings.
From Stdlib Require Import ZArith Lia.
From S2P Require Import Prelude Python Identifiers PyTime Json Limits Contracts DecisionPolicy Transitions Definitions Communications Schema Session State Budgets Deployment Context.

#[local] Open Scope Z_scope.

(** ** [temporalio.exceptions.ApplicationError] *)

(** [type(error).__name__] *)
Definition class_name (c : exn_class) : string :=
  match c with
  | ValueError => "ValueError" | RuntimeError => "RuntimeError" | LookupError => "LookupError"
  | TypeError => "TypeError" | SafetyLimitExceeded => "SafetyLimitExceeded"
  | DecisionRejected => "DecisionRejected" | ProcessTransitionRejected => "ProcessTransitionRejected"
  | ProcessStateConflict => "ProcessStateConflict"
  | CommunicationSafetyBlocked => "CommunicationSafetyBlocked"
  | ModelBudgetExceeded => "ModelBudgetExceeded" | UnknownModelPrice => "UnknownModelPrice"
  | BreakerConflict => "BreakerConflict" | ActionPersistenceConflict => "ActionPersistenceConflict"
  | ActionExecutionRejected => "ActionExecutionRejected"
  | ActionExecutionSuspended => "ActionExecutionSuspended"
  | ActionResolutionConflict => "ActionResolutionConflict" | ReviewConflict => "ReviewConflict"
  | ProcessControlConflict => "ProcessControlConflict" | OutboxRecoveryConflict => "OutboxRecoveryConflict"
  | TriggerReferenceRequired => "TriggerReferenceRequired"
  | ReservedKernelEventType => "ReservedKernelEventType" | TenantNotAuthorized => "TenantNotAuthorized"
  | TenantSuspended => "TenantSuspended" | TenantUnavailable => "TenantUnavailable"
  | TenantNotFound => "TenantNotFound" | TenantDeploymentConflict => "TenantDeploymentConflict"
  | QuarantineNotFound => "QuarantineNotFound" | QuarantineConflict => "QuarantineConflict"
  | DeploymentCompatibilityError => "DeploymentCompatibilityError"
  | SafetyControlConflict => "SafetyControlConflict"
  | DuplicateProcessDefinition => "DuplicateProcessDefinition" | AmbiguousTrigger => "AmbiguousTrigger"
  | IntegrityError => "IntegrityError" | MultipleResultsFound => "MultipleResultsFound"
  | AgentContextError => "AgentContextError" | AgentContextLimitExceeded => "AgentContextLimitExceeded"
  | ProcessLifetimeExceeded => "ProcessLifetimeExceeded"
  | ProjectConfigurationError => "ProjectConfigurationError" | ClientPackError => "ClientPackError"
  | FictionalDeploymentError => "FictionalDeploymentError"
  | TenantProvisioningConflict => "TenantProvisioningConflict"
  | ScenarioRunError => "ScenarioRunError" | KeyError => "KeyError"
  | AssertionError => "AssertionError" | OverflowError => "OverflowError"
  | HTTPException _ => "HTTPException"
  | ApplicationError _ => "ApplicationError"
  end.

(** [except table as error: raise ApplicationError(text, type=type(error).__name__)], where
    [table] gives the text of the errors it names. *)
Definition as_application_error {A} (table : exn → option string) (m : result A) : result A :=
  match m with
  | Ok a => Ok a
  | Raise e => match table e with
               | Some text => raise (ApplicationError (class_name (exn_cls e))) text
               | None => Raise e
               end
  end.

(** ** [agents/runner.py] *)

Record ModelTurnOutcome := mkTurnOutcome { mto_decision : AgentDecision; mto_usage : ModelUsage; mto_model : string }.

Definition turn_outcome_post_init (o : ModelTurnOutcome) : result unit :=
  raise_if (is_blank (mto_model o)) ValueError "a model name is required on a turn outcome".

Record ProposalCorrection := mkCorrection {
  pc_correction_attempt : Z; pc_rejected_decision : AgentDecision; pc_validation_error : string
}.

Definition make_correction (attempt : Z) (rejected : AgentDecision) (error : string)
  : result ProposalCorrection :=
  _ ← raise_if (attempt <? 1) ValueError "correction_attempt must be positive";
  _ ← raise_if (is_empty error) ValueError "validation_error cannot be empty";
  Ok (mkCorrection attempt rejected error).

(** ** The activity *)

Definition _MAX_SEMANTIC_CORRECTIONS : Z := 2.

Record AgentTurnCommand := mkAgentTurnCommand {
  atc_tenant_id : string;
  atc_process_instance_id : string;
  atc_process_definition_id : string;
  atc_process_definition_version : string;
  atc_turn_id : string;
  atc_event_ids : list string;
  atc_workflow_now : datetime;
  atc_review_command_ids : list string;
  atc_action_attempt_ids : list string;
  atc_timer_ids : list string
}.

Record AgentTurnActivityResult := mkActivityResult { atr_decision_json : string; atr_proposal_attempt_count : Z }.

(** What the activities of a worker hold. *)
Record AgentTurnActivities := mkTurnActivities {
  ata_registry : ProcessDefinitionRegistry;
  ata_compatibility : DeploymentCompatibility;
  ata_release : DeploymentRelease;
  ata_loader : ContextLoader;
  ata_authorized_tenant_ids : option (list UUID);
  ata_model_prices : list (string * PriceEntry);
  ata_tenant_spend_caps : TenantSpendCaps;
  ata_platform_model_paused : bool
}.

(** The trusted snapshot one execution of the activity works from. *)
Record Turn := mkTurn {
  tn_tenant_id : UUID;
  tn_process_instance_id : UUID;
  tn_turn_id : UUID;
  tn_definition : ProcessDefinition;
  tn_input : AgentTurnInput;
  tn_expectation : TurnExpectation
}.

(** The facts the decision's completion is judged on. *)
Definition add_authoritative (facts : gmap string json) (f : FactObservation) : gmap string json :=
  match fact_kind f with AUTHORITATIVE => <[fact_key f := fact_value f]> facts | CUSTOMER_CLAIM => facts end.

Definition prospective_facts (i : AgentTurnInput) : gmap string json :=
  fold_left add_authoritative
    (concat (map ce_facts (ti_events i)) ++ concat (map xc_facts (ti_action_results i)))
    (ps_authoritative_facts (ti_process i)).

Definition conflicted_hashes (i : AgentTurnInput) : list string :=
  (λ a, action_payload_identity (xc_action_type a) (xc_parameters a))
    <$> List.filter (λ a, eqb (xc_status a) AT_CONFLICT) (ti_action_results i).

Definition expectation_of (i : AgentTurnInput) (now : datetime) : TurnExpectation :=
  mkExpectation now (Some (ce_event_id <$> ti_events i)) (Some (rc_command_id <$> ti_reviews i))
    (Some (xc_attempt_id <$> ti_action_results i)) (Some (ti_timer_ids i)) (conflicted_hashes i)
    (Some (fact_items (prospective_facts i))) true.

(** The exceptions [run_agent_turn] reports as final. *)
Definition turn_error (e : exn) : option string :=
  match exn_cls e with
  | DeploymentCompatibilityError | AgentContextError | AgentContextLimitExceeded
  | ProcessLifetimeExceeded | ModelBudgetExceeded => Some (exn_msg e)
  | TenantNotAuthorized | TenantUnavailable | TenantSuspended =>
      Some "tenant safety control blocks agent execution"%string
  | _ => None
  end.

Definition authorize_tenant (authorized : option (list UUID)) (tenant_id : UUID) : result unit :=
  as_application_error (λ e, if bool_decide (exn_cls e = TenantNotAuthorized)
                             then Some "worker deployment is not authorized for this tenant"%string else None)
    (require_authorized_tenant tenant_id authorized).

Section activity.
Context (dump_datetime : datetime → string).

(** Up to the loop. *)
Definition begin_turn (w : AgentTurnActivities) (c : AgentTurnCommand) : Tx Turn :=
  tenant_id ← lift_result (parse_uuid (atc_tenant_id c));
  _ ← lift_result (authorize_tenant (ata_authorized_tenant_ids w) tenant_id);
  definition ← lift_result (match get_definition (ata_registry w) (atc_process_definition_id c)
                                    (atc_process_definition_version c) with
                            | Ok d => Ok d
                            | Raise _ => raise (ApplicationError "DeploymentCompatibilityError")
                                "process definition is not present in the deployed client pack"
                            end);
  _ ← require_active_tenant tenant_id (Some (dr_deployment_id (ata_release w)));
  process_instance_id ← lift_result (parse_uuid (atc_process_instance_id c));
  turn_id ← lift_result (parse_uuid (atc_turn_id c));
  event_ids ← lift_result (parse_uuids (atc_event_ids c));
  review_command_ids ← lift_result (parse_uuids (atc_review_command_ids c));
  action_attempt_ids ← lift_result (parse_uuids (atc_action_attempt_ids c));
  input ← load dump_datetime (ata_loader w)
    (mkTurnRequest tenant_id process_instance_id turn_id (Some (atc_workflow_now c)) event_ids
       review_command_ids action_attempt_ids (atc_timer_ids c))
    definition (ata_compatibility w) (ata_release w);
  _ ← lift_result (policy_post_init (decision_policy definition));
  mret (mkTurn tenant_id process_instance_id turn_id definition input
          (expectation_of input (atc_workflow_now c))).

Definition budget_block_raise (b : option ModelBudgetBlock) : Tx unit :=
  match b with Some b => tx_raise ModelBudgetExceeded (mbb_message b) | None => mret tt end.

(** [_require_model_execution_allowed] *)
Definition _require_model_execution_allowed (w : AgentTurnActivities) (tenant_id process_instance_id : UUID)
    (definition : ProcessDefinition) (workflow_now : datetime) : Tx unit :=
  _ ← require_active_tenant tenant_id (Some (dr_deployment_id (ata_release w)));
  process ← scalar (λ p : ProcessInstance, eqb (pi_id p) process_instance_id);
  match process with
  | None => tx_raise DeploymentCompatibilityError "process instance is unavailable"
  | Some p =>
      lifetime_block ← lift_result (evaluate_process_lifetime (utc (pi_created_at p))
        (communication_policy definition) workflow_now);
      _ ← match lifetime_block with
          | Some b => tx_raise ProcessLifetimeExceeded (cb_message b)
          | None => mret tt
          end;
      budget_snapshot ← inspect_budget tenant_id process_instance_id (model_budget definition);
      _ ← lift_result (require_model_allowed budget_snapshot);
      tenant_spend ← tenant_spent tenant_id;
      _ ← budget_block_raise (evaluate_tenant_spend (fst tenant_spend) (snd tenant_spend)
                                (ata_tenant_spend_caps w));
      _ ← tx_raise_if (ata_platform_model_paused w) ModelBudgetExceeded "platform model calls are paused";
      opened ← open_for_model_calls tenant_id;
      _ ← match opened with
          | Some b => tx_raise ModelBudgetExceeded ("circuit breaker open ("
                        +:+ breaker_scope_value (bs_scope b) +:+ "): " +:+ bs_reason b)%string
          | None => mret tt
          end;
      _ ← lift_result (require_process_pins (ata_compatibility w) p);
      lift_result (require_release_pins (ata_release w) p)
  end.

(** [_record_model_usage] *)
Definition _record_model_usage (w : AgentTurnActivities) (t : Turn) (attempt_number : Z)
    (execution_id : UUID) (o : ModelTurnOutcome) : Tx UUID :=
  cost_micros ← lift_result (as_application_error
    (λ e, if bool_decide (exn_cls e = UnknownModelPrice) then Some (exn_msg e) else None)
    (estimate_cost_micros (mto_model o) (mto_usage o) (ata_model_prices w)));
  record (tn_tenant_id t) (tn_process_instance_id t) (tn_turn_id t) attempt_number (mto_model o)
    (mto_usage o) cost_micros PRICE_TABLE_VERSION execution_id.

(** ** The loop, as phases *)

Inductive TurnPhase :=
  | TurnStarting
  | TurnFencing (t : Turn) (n : Z) (c : option ProposalCorrection)
  | TurnAsking (t : Turn) (n : Z) (c : option ProposalCorrection)
  | TurnCharging (t : Turn) (n : Z) (o : ModelTurnOutcome)
  | TurnFinished (r : result AgentTurnActivityResult).

(** What an execution has done: checks passed on a database, calls of the model, and
    charges with the ledger they left. *)
Inductive TurnEvent :=
  | Fenced (n : Z) (d : Db)
  | Asked (n : Z) (c : option ProposalCorrection)
  | Charged (n : Z) (o : ModelTurnOutcome) (d : Db).

Abbreviation ModelRunner := (AgentTurnInput → option ProposalCorrection → result ModelTurnOutcome).

Definition turn_failed (e : exn) : TurnPhase := TurnFinished (as_application_error turn_error (Raise e)).

(** The verdict on the [n]-th answer. *)
Definition judge (dump_decision : AgentDecision → string) (t : Turn) (n : Z) (o : ModelTurnOutcome)
  : TurnPhase :=
  match validate_decision (mto_decision o) (decision_policy (tn_definition t)) (tn_expectation t) with
  | Ok d => TurnFinished (Ok (mkActivityResult (dump_decision d) n))
  | Raise e =>
      if bool_decide (exn_cls e = DecisionRejected) then
        if _MAX_SEMANTIC_CORRECTIONS <? n then
          TurnFinished (raise (ApplicationError "DecisionRejected") (exn_msg e))
        else match make_correction n (mto_decision o) (exn_msg e) with
             | Ok c => TurnFencing t (n + 1) (Some c)
             | Raise e => turn_failed e
             end
      else turn_failed e
  end.

(** One step, in a session [s] on the current database. *)
Definition turn_step (w : AgentTurnActivities) (c : AgentTurnCommand) (execution_id : UUID)
    (dump_decision : AgentDecision → string) (runner : ModelRunner) (s : Session) (p : TurnPhase)
  : TurnPhase * Db * list TurnEvent :=
  let d := s_db s in
  match p with
  | TurnStarting =>
      match begin_turn w c s with
      | Ok (t, s') => (TurnFencing t 1 None, s_db s', [])
      | Raise e => (turn_failed e, d, [])
      end
  | TurnFencing t n k =>
      match _require_model_execution_allowed w (tn_tenant_id t) (tn_process_instance_id t)
              (tn_definition t) (atc_workflow_now c) s with
      | Ok (_, s') => (TurnAsking t n k, s_db s', [Fenced n d])
      | Raise e => (turn_failed e, d, [])
      end
  | TurnAsking t n k =>
      match runner (tn_input t) k with
      | Ok o => (TurnCharging t n o, d, [Asked n k])
      | Raise e => (turn_failed e, d, [Asked n k])
      end
  | TurnCharging t n o =>
      match _record_model_usage w t n execution_id o s with
      | Ok (_, s') => (judge dump_decision t n o, s_db s', [Charged n o (s_db s')])
      | Raise e => (turn_failed e, d, [])
      end
  | TurnFinished r => (TurnFinished r, d, [])
  end.

(** An execution, given at each step the session it finds and the provider's answer. *)
Fixpoint turn_run (w : AgentTurnActivities) (c : AgentTurnCommand) (execution_id : UUID)
    (dump_decision : AgentDecision → string) (steps : list (ModelRunner * Session)) (p : TurnPhase)
  : TurnPhase * list TurnEvent :=
  match steps with
  | [] => (p, [])
  | (runner, s) :: steps =>
      let '(p, _, es) := turn_step w c execution_id dump_decision runner s p in
      let '(p, more) := turn_run w c execution_id dump_decision steps p in (p, es ++ more)
  end.
End activity.
