(* ===== verification/AgentTurnFacts.v ===== *)
(** * What an agent turn guarantees

    The model is called at most three times in a turn, each time after the safety
    controls were found to allow it, and its answer is charged before it is judged;
    a decision that is returned was validated against the loaded turn. *)

From stdpp Require Import base gmap list strings.
From Stdlib Require Import ZArith Lia.
From S2P Require Import Prelude Python Identifiers PyTime Json Limits Contracts DecisionPolicy Transitions Definitions Communications Schema Session State Budgets Deployment Context AgentTurn.

#[local] Open Scope Z_scope.

(** ** The check before a call *)

(** On [d], the tenant is active in this release, the process runs under its pins and within
    its lifetime, its budget and its tenant's caps leave room, and no breaker is open. *)
Record ModelAdmitted (w : AgentTurnActivities) (t p : UUID) (definition : ProcessDefinition) (now : datetime)
    (d : Db) : Prop := {
  ma_tenant : ∃ row, row ∈ tenants d ∧ tn_id row = t ∧ tn_status row = TS_ACTIVE
    ∧ tn_deployment_id row = dr_deployment_id (ata_release w);
  ma_process : ∃ row, row ∈ process_instances d ∧ pi_id row = p ∧ pi_tenant_id row = t
    ∧ instant now < pi_created_at row + cp_maximum_process_lifetime (communication_policy definition)
    ∧ require_process_pins (ata_compatibility w) row = Ok tt ∧ require_release_pins (ata_release w) row = Ok tt;
  ma_budget : fence_open (model_budget definition) (fst (ledger_totals (charged d t p)))
    (snd (ledger_totals (charged d t p)));
  ma_caps : let spent := ledger_totals (List.filter (λ r, eqb (mul_tenant_id r) t) (model_usage_ledger d)) in
    total_tokens (fst spent) < max_tokens (ata_tenant_spend_caps w)
    ∧ snd spent < max_cost_micros (ata_tenant_spend_caps w);
  ma_platform : ata_platform_model_paused w = false;
  ma_breakers : is_open d t ALL "" = false ∧ is_open d t MODEL_CALLS "" = false
}.

Lemma tenant_spent_run t s :
  tenant_spent t s = Ok (ledger_totals (List.filter (λ r, eqb (mul_tenant_id r) t) (model_usage_ledger (s_db s))),
                         s <| s_tenant := Some t |>).
Proof.
  unfold tenant_spent, mbind, Tx_bind. cbn -[select]. by rewrite (select_run _ t) by (done || (intros ? Hx; by apply eqb_true in Hx)).
Qed.

Lemma tenant_spend_none u c caps :
  evaluate_tenant_spend u c caps = None → total_tokens u < max_tokens caps ∧ c < max_cost_micros caps.
Proof.
  unfold evaluate_tenant_spend. destruct (Z.leb_spec (max_tokens caps) (total_tokens u)); [done|].
  destruct (Z.leb_spec (max_cost_micros caps) c); [done|]. auto.
Qed.

Lemma budget_block_raise_ok b s u s' : budget_block_raise b s = Ok (u, s') → b = None ∧ s' = s.
Proof. destruct b; [done|]. by intros [_ ->]%mret_ok. Qed.

Lemma open_for_model_calls_closed t s s' :
  open_for_model_calls t s = Ok (None, s') →
  is_open (s_db s) t ALL "" = false ∧ is_open (s_db s) t MODEL_CALLS "" = false.
Proof.
  intros H%first_open_ok. rewrite !Exists_cons, Exists_nil in H. cbn in H. rewrite <- !not_true_iff_false.
  split; intros E; destruct (proj2 H); try done; eauto.
Qed.

Lemma inspect_budget_ok t p b s sn s' :
  inspect_budget t p b s = Ok (sn, s') →
  s' = s <| s_tenant := Some t |>
  ∧ evaluate_model_budget b (fst (ledger_totals (charged (s_db s) t p))) (snd (ledger_totals (charged (s_db s) t p))) = Ok sn.
Proof.
  unfold inspect_budget. rewrite (tx_bind_run _ _ _ _ _ (spent_run t p s)).
  destruct (ledger_totals _) as [u c]. by intros [? ->]%lift_result_ok.
Qed.

Lemma require_model_allowed_ok b u c sn :
  evaluate_model_budget b u c = Ok sn → require_model_allowed sn = Ok tt → fence_open b u c.
Proof.
  intros [_ Hb]%evaluate_model_budget_ok H. apply Hb. unfold require_model_allowed in H. by destruct (mbs_blocks sn).
Qed.

Lemma lifetime_open created policy now :
  evaluate_process_lifetime (utc created) policy now = Ok None →
  instant now < created + cp_maximum_process_lifetime policy.
Proof.
  unfold evaluate_process_lifetime, _as_utc. intros H. bind_inv.
  destruct (is_naive now); [done|]. destruct (is_naive (utc created)); [done|]. bind_inv. subst.
  destruct (Z.ltb_spec (instant now) (instant (utc created) + cp_maximum_process_lifetime policy)) as [Hlt|]; [|done].
  unfold instant, utc, minutes in *. cbn in *. lia.
Qed.

Lemma model_execution_admitted w t p definition now s u s' :
  _require_model_execution_allowed w t p definition now s = Ok (u, s') →
  ModelAdmitted w t p definition now (s_db s) ∧ s_db s' = s_db s.
Proof.
  intros H. unfold _require_model_execution_allowed in H.
  apply tx_bind_ok in H as ([] & s1 & [-> Ht]%require_active_tenant_ok & H).
  apply tx_bind_ok in H as (row & s2 & [-> Hrow]%scalar_ok & H). symmetry in Hrow.
  destruct row as [row|]; [|done].
  apply hd_filter_Some in Hrow as [Hin [Hv%eqb_true Hid%eqb_true]%andb_true_iff]. injection Hv as Hv.
  apply tx_bind_ok in H as (lb & s2 & [Hl ->]%lift_result_ok & H).
  destruct lb as [|]; [by apply tx_bind_ok in H as (? & ? & ? & _)|].
  apply tx_bind_ok in H as (_ & s2 & [_ ->]%mret_ok & H).
  apply tx_bind_ok in H as (sn & s2 & [-> Hb]%inspect_budget_ok & H).
  apply tx_bind_ok in H as ([] & s2 & [Hallowed ->]%lift_result_ok & H).
  apply tx_bind_ok in H as (spend & s2 & Hspend & H). rewrite tenant_spent_run in Hspend. injection Hspend as <- <-.
  apply tx_bind_ok in H as (_ & s2 & [Hcaps%tenant_spend_none ->]%budget_block_raise_ok & H).
  apply tx_bind_ok in H as (_ & s2 & [Hpaused ->]%tx_raise_if_ok & H).
  apply tx_bind_ok in H as (opened & s2 & Hopen & H).
  pose proof (reads_first_open t _ _ _ _ Hopen) as [Hdb _].
  destruct opened as [b|]; [by apply tx_bind_ok in H as (? & ? & ? & _)|].
  apply tx_bind_ok in H as (_ & s3 & [_ ->]%mret_ok & H).
  apply tx_bind_ok in H as ([] & s3 & [Hpins ->]%lift_result_ok & [Hrel ->]%lift_result_ok).
  destruct u. split; [|by rewrite Hdb]. constructor; try done.
  - exists row. split_and!; try done. by apply lifetime_open.
  - by eapply require_model_allowed_ok.
  - by apply open_for_model_calls_closed in Hopen.
Qed.

(** ** Runs *)

Definition turn_rank (p : TurnPhase) : nat :=
  match p with
  | TurnStarting => 10
  | TurnFencing _ n _ => 3 + 3 * Z.to_nat (3 - n)
  | TurnAsking _ n _ => 2 + 3 * Z.to_nat (3 - n)
  | TurnCharging _ n _ => 1 + 3 * Z.to_nat (3 - n)
  | TurnFinished _ => 0
  end.

(** The kinds of event, with the number of the answer they are about. *)
Inductive TurnMark := CheckPassed | ModelCalled | UsageCharged.
Definition mark (e : TurnEvent) : TurnMark * Z :=
  match e with
  | Fenced n _ => (CheckPassed, n) | Asked n _ => (ModelCalled, n) | Charged n _ _ => (UsageCharged, n)
  end.

(** The marks of [k] complete rounds: check, call, charge. *)
Fixpoint rounds (k : nat) : list (TurnMark * Z) :=
  match k with
  | O => []
  | S k' => rounds k' ++ [(CheckPassed, Z.of_nat k); (ModelCalled, Z.of_nat k); (UsageCharged, Z.of_nat k)]
  end.

Lemma rounds_succ n :
  1 <= n →
  rounds (Z.to_nat n) = rounds (Z.to_nat (n - 1)) ++ [(CheckPassed, n); (ModelCalled, n); (UsageCharged, n)].
Proof.
  intros Hn. replace (Z.to_nat n) with (S (Z.to_nat (n - 1))) by lia. cbn [rounds].
  by replace (Z.of_nat (S (Z.to_nat (n - 1)))) with n by lia.
Qed.

Lemma rounds_prefix m n : (m <= n)%nat → rounds m `prefix_of` rounds n.
Proof. induction 1 as [|n _ IH]; [done|]. cbn [rounds]. by apply prefix_app_r. Qed.

Section run.
Context (dump_datetime : datetime → string) (w : AgentTurnActivities) (c : AgentTurnCommand)
  (execution_id : UUID) (dump_decision : AgentDecision → string).

Abbreviation step_from := (turn_step dump_datetime w c execution_id dump_decision).
Abbreviation run_from := (turn_run dump_datetime w c execution_id dump_decision).

(** The verdict on an answer is the end of the turn, or the next check. *)
Lemma judge_cases t n o :
  (∃ d, validate_decision (mto_decision o) (decision_policy (tn_definition t)) (tn_expectation t) = Ok d
        ∧ judge dump_decision t n o = TurnFinished (Ok (mkActivityResult (dump_decision d) n)))
  ∨ (∃ e, judge dump_decision t n o = TurnFinished (Raise e))
  ∨ (∃ msg, n <= 2 ∧ 1 <= n
        ∧ validate_decision (mto_decision o) (decision_policy (tn_definition t)) (tn_expectation t)
          = raise DecisionRejected msg
        ∧ judge dump_decision t n o = TurnFencing t (n + 1) (Some (mkCorrection n (mto_decision o) msg))).
Proof.
  unfold judge. destruct (validate_decision _ _ _) as [d|[cls msg]]; [left; eauto|right].
  cbn [exn_cls exn_msg]. case_bool_decide as Hc; [|left; unfold turn_failed, as_application_error; case_match; eexists; done].
  unfold _MAX_SEMANTIC_CORRECTIONS. destruct (Z.ltb_spec 2 n); [left; by eexists|].
  unfold make_correction. destruct (Z.ltb_spec n 1); cbn; [left; unfold turn_failed; cbn; by eexists|].
  destruct (is_empty msg); cbn; [left; by eexists|]. right. exists msg. subst cls. done.
Qed.

Lemma failed_is_final e : ∃ e', turn_failed e = TurnFinished (Raise e').
Proof. unfold turn_failed, as_application_error. destruct (turn_error e); by eexists. Qed.

(** The phases a step can lead to. *)
Lemma step_rank runner s p : (turn_rank (step_from runner s p).1.1 < turn_rank p)%nat ∨ ∃ r, p = TurnFinished r.
Proof.
  destruct p as [|t n k|t n k|t n o|r]; [left..|right; by eexists]; cbn [turn_step].
  - destruct (begin_turn _ _ _ _) as [[t s']|e]; cbn [fst]; [cbn; lia|]. destruct (failed_is_final e) as [? ->]. cbn. lia.
  - destruct (_require_model_execution_allowed _ _ _ _ _ _) as [[? s']|e]; cbn [fst]; [cbn; lia|].
    destruct (failed_is_final e) as [? ->]. cbn. lia.
  - destruct (runner _ _) as [o|e]; cbn [fst]; [cbn; lia|]. destruct (failed_is_final e) as [? ->]. cbn. lia.
  - destruct (_record_model_usage _ _ _ _ _ _) as [[? s']|e]; cbn [fst].
    + destruct (judge_cases t n o) as [(d & _ & ->)|[(e & ->)|(msg & ? & ? & _ & ->)]]; cbn; lia.
    + destruct (failed_is_final e) as [? ->]. cbn. lia.
Qed.

Lemma run_rank steps p : (turn_rank p <= length steps)%nat → ∃ r, (run_from steps p).1 = TurnFinished r.
Proof.
  revert p. induction steps as [|[runner s] steps IH]; intros p Hp.
  - destruct p; cbn in Hp; try lia. by eexists.
  - cbn [turn_run]. destruct (step_rank runner s p) as [Hr|[r ->]].
    + destruct (step_from runner s p) as [[p' d] es]. cbn in Hr, Hp.
      destruct (IH p') as [r Hr']; [lia|]. exists r. destruct (run_from steps p'). done.
    + cbn. destruct (IH (TurnFinished r)) as [r' Hr']; [cbn; lia|]. exists r'. by destruct (run_from steps _).
Qed.

(** A property of the phase and of what was done so far that every step keeps. *)
Lemma run_keeps (I : TurnPhase → list TurnEvent → Prop) steps p past :
  (∀ runner s p p' d es past, step_from runner s p = (p', d, es) → I p past → I p' (past ++ es)) →
  I p past → I (run_from steps p).1 (past ++ (run_from steps p).2).
Proof.
  intros Hstep. revert p past. induction steps as [|[runner s] steps IH]; intros p past Hp; cbn [turn_run].
  - by rewrite app_nil_r.
  - destruct (step_from runner s p) as [[p' d] es] eqn:E. pose proof (Hstep _ _ _ _ _ _ _ E Hp) as Hp'.
    specialize (IH p' (past ++ es) Hp'). destruct (run_from steps p') as [q more]. cbn in *. by rewrite app_assoc.
Qed.

(** *** The order of what is done *)

Definition turn_shape (p : TurnPhase) (marks : list (TurnMark * Z)) : Prop :=
  match p with
  | TurnStarting => marks = []
  | TurnFencing _ n _ => 1 <= n <= 3 ∧ marks = rounds (Z.to_nat (n - 1))
  | TurnAsking _ n _ => 1 <= n <= 3 ∧ marks = rounds (Z.to_nat (n - 1)) ++ [(CheckPassed, n)]
  | TurnCharging _ n _ =>
      1 <= n <= 3 ∧ marks = rounds (Z.to_nat (n - 1)) ++ [(CheckPassed, n); (ModelCalled, n)]
  | TurnFinished (Ok r) => 1 <= atr_proposal_attempt_count r <= 3
      ∧ marks = rounds (Z.to_nat (atr_proposal_attempt_count r))
  | TurnFinished (Raise _) => marks `prefix_of` rounds 3
  end.

Lemma round_prefix n marks l :
  1 <= n <= 3 → marks = rounds (Z.to_nat (n - 1)) ++ l →
  l `prefix_of` [(CheckPassed, n); (ModelCalled, n); (UsageCharged, n)] → marks `prefix_of` rounds 3.
Proof.
  intros Hn -> Hl. trans (rounds (Z.to_nat n)); [|apply rounds_prefix; lia].
  rewrite (rounds_succ n) by lia. by apply prefix_app.
Qed.

Lemma shape_failed e marks : marks `prefix_of` rounds 3 → turn_shape (turn_failed e) marks.
Proof. intros H. by destruct (failed_is_final e) as [? ->]. Qed.

Lemma step_shape runner s p p' d es past :
  step_from runner s p = (p', d, es) → turn_shape p (mark <$> past) → turn_shape p' (mark <$> (past ++ es)).
Proof.
  intros H Hp. rewrite fmap_app. destruct p as [|t n k|t n k|t n o|r]; cbn [turn_step] in H.
  - destruct (begin_turn _ _ _ _) as [[t s']|e]; injection H as <- <- <-; rewrite app_nil_r, Hp.
    + unfold turn_shape. split; [lia|done].
    + apply shape_failed, prefix_nil.
  - destruct Hp as [Hn Hp]. destruct (_require_model_execution_allowed _ _ _ _ _ _) as [[? s']|e]; injection H as <- <- <-.
    + cbn. by rewrite Hp.
    + apply shape_failed. cbn. rewrite app_nil_r. rewrite <- (app_nil_r (rounds _)) in Hp.
      eapply round_prefix; [exact Hn|exact Hp|apply prefix_nil].
  - destruct Hp as [Hn Hp]. assert (mark <$> past ++ [Asked n k] = rounds (Z.to_nat (n - 1)) ++ [(CheckPassed, n); (ModelCalled, n)]) as Hp'.
    { rewrite fmap_app, Hp, <- app_assoc. done. } rewrite fmap_app in Hp'.
    destruct (runner _ _) as [o|e]; injection H as <- <- <-; [done|].
    apply shape_failed. eapply round_prefix; [exact Hn|exact Hp'|]. by exists [(UsageCharged, n)].
  - destruct Hp as [Hn Hp]. destruct (_record_model_usage _ _ _ _ _ _) as [[? s']|e]; injection H as <- <- <-.
    + assert (mark <$> [Charged n o (s_db s')] = [(UsageCharged, n)]) as -> by done.
      rewrite Hp, <- app_assoc. change ([(CheckPassed, n); (ModelCalled, n)] ++ [(UsageCharged, n)])
        with [(CheckPassed, n); (ModelCalled, n); (UsageCharged, n)]. rewrite <- (rounds_succ n) by lia.
      destruct (judge_cases t n o) as [(a & _ & ->)|[(e & ->)|(msg & ? & ? & _ & ->)]]; unfold turn_shape; [done| |].
      * apply rounds_prefix. lia.
      * split; [lia|]. do 2 f_equal. lia.
    + apply shape_failed. cbn. rewrite app_nil_r. eapply round_prefix; [exact Hn|exact Hp|]. by exists [(UsageCharged, n)].
  - injection H as <- <- <-. cbn. by rewrite app_nil_r.
Qed.

Lemma run_shape steps : let '(p, es) := run_from steps TurnStarting in turn_shape p (mark <$> es).
Proof.
  pose proof (run_keeps (λ p es, turn_shape p (mark <$> es)) steps TurnStarting []) as H.
  destruct (run_from steps TurnStarting) as [p es]. apply H; [|done]. intros. by eapply step_shape.
Qed.

Lemma shape_prefix p marks : turn_shape p marks → marks `prefix_of` rounds 3.
Proof.
  destruct p as [|t n k|t n k|t n o|[r|e]]; cbn -[rounds].
  - intros ->. apply prefix_nil.
  - intros [Hn Hp]. rewrite <- (app_nil_r (rounds _)) in Hp. eapply round_prefix; [exact Hn|exact Hp|apply prefix_nil].
  - intros [Hn Hp]. eapply round_prefix; [exact Hn|exact Hp|]. by exists [(ModelCalled, n); (UsageCharged, n)].
  - intros [Hn Hp]. eapply round_prefix; [exact Hn|exact Hp|]. by exists [(UsageCharged, n)].
  - intros [Hn ->]. apply rounds_prefix. lia.
  - done.
Qed.

(** *** What is checked, asked and charged *)

(** The turn was loaded from some database the execution found. *)
Definition turn_loaded (t : Turn) : Prop := ∃ s s', begin_turn dump_datetime w c s = Ok (t, s').

Definition rejected_with (t : Turn) (d : AgentDecision) (msg : string) : Prop :=
  validate_decision d (decision_policy (tn_definition t)) (tn_expectation t) = raise DecisionRejected msg.

(** The first call carries no correction; a later one carries the answer before it, and
    the error that answer was rejected with. *)
Definition correction_fits (t : Turn) (n : Z) (k : option ProposalCorrection) : Prop :=
  match k with
  | None => n = 1
  | Some k => pc_correction_attempt k = n - 1 ∧ rejected_with t (pc_rejected_decision k) (pc_validation_error k)
  end.

(** The ledger row of the [n]-th answer, at the configured price of its model. *)
Definition charge_of (t : Turn) (n : Z) (o : ModelTurnOutcome) (r : ModelUsageLedger) : Prop :=
  usage_of (tn_tenant_id t) (tn_process_instance_id t) (tn_turn_id t) execution_id n r = true
  ∧ ∃ cost, estimate_cost_micros (mto_model o) (mto_usage o) (ata_model_prices w) = Ok cost
    ∧ same_charge (mto_model o) (mto_usage o) cost PRICE_TABLE_VERSION r = true.

Definition event_fits (t : Turn) (e : TurnEvent) : Prop :=
  match e with
  | Fenced n d => ModelAdmitted w (tn_tenant_id t) (tn_process_instance_id t) (tn_definition t) (atc_workflow_now c) d
  | Asked n k => correction_fits t n k
  | Charged n o d => ∃ r, r ∈ model_usage_ledger d ∧ charge_of t n o r
  end.

(** The decision a turn returned: the answer charged last, admissible for the turn. *)
Definition returned (t : Turn) (es : list TurnEvent) (r : AgentTurnActivityResult) : Prop :=
  ∃ o d, last es = Some (Charged (atr_proposal_attempt_count r) o d)
    ∧ atr_decision_json r = dump_decision (mto_decision o)
    ∧ Admissible (mto_decision o) (decision_policy (tn_definition t)) (tn_expectation t).

Definition turn_history (p : TurnPhase) (es : list TurnEvent) : Prop :=
  match p with
  | TurnStarting => es = []
  | TurnFencing t n k | TurnAsking t n k => turn_loaded t ∧ Forall (event_fits t) es ∧ correction_fits t n k
  | TurnCharging t n _ => turn_loaded t ∧ Forall (event_fits t) es
  | TurnFinished (Ok r) => ∃ t, turn_loaded t ∧ Forall (event_fits t) es ∧ returned t es r
  | TurnFinished (Raise _) => es = [] ∨ ∃ t, turn_loaded t ∧ Forall (event_fits t) es
  end.

Lemma history_failed e es :
  (es = [] ∨ ∃ t, turn_loaded t ∧ Forall (event_fits t) es) → turn_history (turn_failed e) es.
Proof. intros H. by destruct (failed_is_final e) as [? ->]. Qed.

Lemma record_model_usage_ok t n o s id s' :
  _record_model_usage w t n execution_id o s = Ok (id, s') →
  ∃ r, r ∈ model_usage_ledger (s_db s') ∧ charge_of t n o r.
Proof.
  intros H. unfold _record_model_usage in H. apply tx_bind_ok in H as (cost & s1 & [Hc ->]%lift_result_ok & H).
  apply record_leaves_row in H as (_ & r & Hin & Hu & Hs). exists r. split; [done|]. split; [done|].
  exists cost. split; [|done]. unfold as_application_error in Hc.
  destruct (estimate_cost_micros _ _ _) as [|e]; [done|]. case_bool_decide; discriminate Hc.
Qed.

Lemma step_history runner s p p' d es past :
  step_from runner s p = (p', d, es) → turn_history p past → turn_history p' (past ++ es).
Proof.
  intros H Hp. destruct p as [|t n k|t n k|t n o|r]; cbn [turn_step] in H.
  - cbn in Hp. subst past. destruct (begin_turn _ _ _ _) as [[t s']|e] eqn:E; injection H as <- <- <-.
    + split_and!; [by eexists _, _|constructor|done].
    + apply history_failed. by left.
  - destruct Hp as (Hl & He & Hk). destruct (_require_model_execution_allowed _ _ _ _ _ _) as [[? s']|e] eqn:E; injection H as <- <- <-.
    + apply model_execution_admitted in E as [E _]. split_and!; [done| |done].
      apply Forall_app. split; [done|]. by apply Forall_singleton.
    + apply history_failed. rewrite app_nil_r. eauto.
  - destruct Hp as (Hl & He & Hk).
    assert (Forall (event_fits t) (past ++ [Asked n k])) as He' by (apply Forall_app; split; [done|by apply Forall_singleton]).
    destruct (runner _ _) as [o|e]; injection H as <- <- <-; [done|]. apply history_failed. eauto.
  - destruct Hp as (Hl & He). destruct (_record_model_usage _ _ _ _ _ _) as [[? s']|e] eqn:E; injection H as <- <- <-;
      [|apply history_failed; rewrite app_nil_r; eauto].
    apply record_model_usage_ok in E.
    assert (Forall (event_fits t) (past ++ [Charged n o (s_db s')])) as He' by (apply Forall_app; split; [done|by apply Forall_singleton]).
    destruct (judge_cases t n o) as [(a & Hv & ->)|[(e & ->)|(msg & ? & ? & Hv & ->)]].
    + apply validate_decision_ok in Hv as [-> Ha]. exists t. split_and!; [done..|]. exists o, (s_db s').
      by rewrite last_snoc.
    + right. eauto.
    + split_and!; [done..|]. split; [cbn; lia|done].
  - injection H as <- <- <-. by rewrite app_nil_r.
Qed.

Lemma run_history steps : let '(p, es) := run_from steps TurnStarting in turn_history p es.
Proof.
  pose proof (run_keeps turn_history steps TurnStarting []) as H.
  destruct (run_from steps TurnStarting) as [p es]. apply H; [|done]. intros. by eapply step_history.
Qed.
End run.

(** ** The turn that was loaded *)

(** The worker answers for the tenant and the definition of the turn; its input is the
    loaded one, and so is what a decision is held against. *)
Definition turn_is_loaded_on dump_datetime (w : AgentTurnActivities) (c : AgentTurnCommand) (t : Turn) (d : Db) : Prop :=
  require_authorized_tenant (tn_tenant_id t) (ata_authorized_tenant_ids w) = Ok tt
  ∧ get_definition (ata_registry w) (atc_process_definition_id c) (atc_process_definition_version c)
    = Ok (tn_definition t)
  ∧ tn_expectation t = expectation_of (tn_input t) (atc_workflow_now c)
  ∧ ∃ q, tr_tenant_id q = tn_tenant_id t ∧ tr_process_instance_id q = tn_process_instance_id t
    ∧ tr_turn_id q = tn_turn_id t ∧ parse_uuids (atc_event_ids c) = Ok (tr_event_ids q)
    ∧ parse_uuids (atc_review_command_ids c) = Ok (tr_review_command_ids q)
    ∧ parse_uuids (atc_action_attempt_ids c) = Ok (tr_action_attempt_ids q)
    ∧ tr_timer_ids q = atc_timer_ids c
    ∧ LoadedTurn dump_datetime (ata_loader w) q (tn_definition t) (ata_compatibility w) (ata_release w) d
        (tn_input t).

Definition turn_is_loaded_for dump_datetime (w : AgentTurnActivities) (c : AgentTurnCommand) (t : Turn) : Prop :=
  ∃ d, turn_is_loaded_on dump_datetime w c t d.

Lemma as_application_error_ok {A} table (m : result A) a : as_application_error table m = Ok a → m = Ok a.
Proof. destruct m as [|e]; cbn; [done|]. by destruct (table e). Qed.

Lemma begin_turn_ok dump_datetime w c s t s' :
  begin_turn dump_datetime w c s = Ok (t, s') → turn_is_loaded_on dump_datetime w c t (s_db s).
Proof.
  intros H. unfold begin_turn in H.
  apply tx_bind_ok in H as (tenant & s1 & [Htenant ->]%lift_result_ok & H).
  apply tx_bind_ok in H as ([] & s1 & [Hauth%as_application_error_ok ->]%lift_result_ok & H).
  apply tx_bind_ok in H as (def & s1 & [Hdef ->]%lift_result_ok & H).
  apply tx_bind_ok in H as (? & s1 & [-> _]%require_active_tenant_ok & H).
  apply tx_bind_ok in H as (pid & s1 & [Hpid ->]%lift_result_ok & H).
  apply tx_bind_ok in H as (turn & s1 & [Hturn ->]%lift_result_ok & H).
  apply tx_bind_ok in H as (es & s1 & [Hes ->]%lift_result_ok & H).
  apply tx_bind_ok in H as (cs & s1 & [Hcs ->]%lift_result_ok & H).
  apply tx_bind_ok in H as (xs & s1 & [Hxs ->]%lift_result_ok & H).
  apply tx_bind_ok in H as (i & s1 & (_ & _ & Hl)%loaded_turn_lemma & H).
  apply tx_bind_ok in H as (? & s2 & [_ ->]%lift_result_ok & [-> ->]%mret_ok).
  split; [done|]. split; [|split; [done|]].
  - cbn. destruct (get_definition _ _ _); [by injection Hdef as ->|done].
  - eexists. by split_and!; [..|exact Hl].
Qed.

Lemma turn_loaded_spec dump_datetime w c t :
  turn_loaded dump_datetime w c t → turn_is_loaded_for dump_datetime w c t.
Proof. intros (s & s' & H%begin_turn_ok). by exists (s_db s). Qed.

(** ** Properties *)

(** Whatever else happens to the database between its steps, an execution of
    [run_agent_turn] ends after ten steps at most, with a result or an exception: the
    correction loop cannot go on for ever. *)
Theorem agent_turns_end dump_datetime w c execution_id dump_decision steps :
  (10 <= length steps)%nat →
  ∃ r, (turn_run dump_datetime w c execution_id dump_decision steps TurnStarting).1 = TurnFinished r.
Proof. intros H. by apply run_rank. Qed.


(** C12: a decision that a turn returns is the answer the model gave last, after as many
    rounds as the result counts; it was charged, and it is admissible under the definition's
    policy for exactly the events, review commands, action results and timers of the turn
    that was loaded, its completion being met by the facts of the process with those of the
    turn. *)
Theorem returned_decisions_are_admissible dump_datetime w c execution_id dump_decision steps r es :
  turn_run dump_datetime w c execution_id dump_decision steps TurnStarting = (TurnFinished (Ok r), es) →
  mark <$> es = rounds (Z.to_nat (atr_proposal_attempt_count r)) ∧ 1 <= atr_proposal_attempt_count r <= 3
  ∧ ∃ t, turn_is_loaded_for dump_datetime w c t ∧ Forall (event_fits w c execution_id t) es
    ∧ returned dump_decision t es r.
Proof.
  intros H. pose proof (run_shape dump_datetime w c execution_id dump_decision steps) as Hs.
  pose proof (run_history dump_datetime w c execution_id dump_decision steps) as Hh.
  rewrite H in Hs, Hh. cbn -[rounds] in Hs, Hh. destruct Hs as [? ?].
  destruct Hh as (t & Hl%turn_loaded_spec & ? & ?). split; [done|]. split; [done|]. by exists t.
Qed.

(** ** Examples *)

Definition ex_turn_activities : AgentTurnActivities :=
  mkTurnActivities [("booking_follow_up", "1", ex_process_definition)]%string ex_deployed ex_running_release
    ex_loader (Some [uuid 10]) DEFAULT_MODEL_PRICES DEFAULT_TENANT_SPEND_CAPS false.
Definition ex_turn_command : AgentTurnCommand :=
  mkAgentTurnCommand (str_uuid (uuid 10)) (str_uuid (uuid 20)) "booking_follow_up" "1" (str_uuid (uuid 30))
    [str_uuid (uuid 40)] (utc (days 81)) [] [] [].
Definition ex_bad_answer : AgentDecision := mkDecision (uuid 4) [] [] [] [] DS_COMPLETED [] [] empty_memory.
(** The model forgets the event at first, and cites it when it is corrected. *)
Definition ex_runner (i : AgentTurnInput) (k : option ProposalCorrection) : result ModelTurnOutcome :=
  Ok (mkTurnOutcome (match k with None => ex_bad_answer | Some _ => ex_state_decision end)
        (mkUsage 1000 200) "gpt-4o").
Definition ex_dump_decision (d : AgentDecision) : string := str_uuid (ad_decision_id d).
Definition ex_turn_steps : list ((AgentTurnInput → option ProposalCorrection → result ModelTurnOutcome) * Session) := replicate 10 (ex_runner, ex_turn_session).
Definition ex_turn_run : TurnPhase * list TurnEvent :=
  turn_run isoformat ex_turn_activities ex_turn_command (uuid 7) ex_dump_decision ex_turn_steps TurnStarting.
Definition ex_turn_events : list TurnEvent := snd ex_turn_run.
Definition ex_turn_result : AgentTurnActivityResult := mkActivityResult (str_uuid (uuid 5)) 2.

Lemma ex_turn_run_eq : ex_turn_run = (TurnFinished (Ok ex_turn_result), ex_turn_events).
Proof. vm_compute. reflexivity. Qed.

Lemma agent_turns_end_witness :
  ∃ r, fst (turn_run isoformat ex_turn_activities ex_turn_command (uuid 7) ex_dump_decision ex_turn_steps
              TurnStarting) = TurnFinished r.
Proof.
  apply (agent_turns_end isoformat ex_turn_activities ex_turn_command (uuid 7) ex_dump_decision ex_turn_steps).
  apply Nat.leb_le. reflexivity.
Defined.

Lemma returned_decisions_are_admissible_witness :
  mark <$> ex_turn_events = rounds 2
  ∧ ∃ t, turn_is_loaded_for isoformat ex_turn_activities ex_turn_command t
    ∧ returned ex_dump_decision t ex_turn_events ex_turn_result.
Proof.
  destruct (returned_decisions_are_admissible isoformat ex_turn_activities ex_turn_command (uuid 7) ex_dump_decision
    ex_turn_steps ex_turn_result ex_turn_events ex_turn_run_eq) as (H1 & _ & t & H2 & _ & H3).
  split; [exact H1|]. exists t. exact (conj H2 H3).
Defined.
