(* ===== verification/Outbox.v ===== *)
(** * [temporal/dispatcher.py] and [events/outbox_recovery.py]: delivering the outbox

    A dispatcher claims a message in one transaction, signals the workflow, and
    records the outcome in another; dead-lettered messages are requeued by an
    operator.  [dispatch_one] is the sequential run; [step] interleaves any number
    of dispatchers, crashes, requeues and new messages, transaction by
    transaction. *)

From stdpp Require Import base gmap list strings sets.
From Stdlib Require Import ZArith Lia.
From S2P Require Import Prelude Python PyTime Json Contracts Mailbox Continuation Schema Session Deployment.

#[local] Open Scope Z_scope.

(** ** [events/outbox_recovery.py] *)

Record RequeueOutboxInput := mkRequeueInput {
  rq_command_id : UUID;
  rq_tenant_id : UUID;
  rq_outbox_message_id : UUID;
  rq_actor_id : UUID;
  rq_reason : string
}.

Definition requeue_reason (reason : string) : result string :=
  let reason := strip reason in
  _ ← raise_if (is_empty reason || (10000 <? py_len reason)%nat) OutboxRecoveryConflict
        "reason must contain 1 to 10000 characters";
  Ok reason.

Definition is_requeue (c : RequeueOutboxInput) (r : OutboxRecoveryCommand) : bool :=
  eqb (orc_tenant_id r) (rq_tenant_id c) && eqb (orc_id r) (rq_command_id c).
Definition requeue_differs (c : RequeueOutboxInput) (reason : string) (r : OutboxRecoveryCommand) : bool :=
  negb (eqb (orc_outbox_message_id r) (rq_outbox_message_id c)) || negb (eqb (orc_actor_id r) (rq_actor_id c))
  || negb (eqb (orc_reason r) reason).
Definition is_message (tenant_id id : UUID) (m : OutboxMessage) : bool :=
  eqb (om_tenant_id m) tenant_id && eqb (om_id m) id.

(** The evidence of the exhausted cycle. *)
Definition new_recovery (c : RequeueOutboxInput) (reason : string) (m : OutboxMessage) (dead_lettered_at now : Z)
  : OutboxRecoveryCommand :=
  mkOutboxRecoveryCommand (rq_command_id c) (rq_tenant_id c) (rq_outbox_message_id c) (rq_actor_id c) reason
    (om_attempt_count m) (om_last_error m) dead_lettered_at now.

Definition requeued (now : Z) (m : OutboxMessage) : OutboxMessage :=
  m <| om_status := OB_PENDING |> <| om_available_at := now |> <| om_attempt_count := 0 |>
    <| om_claimed_at := None |> <| om_claim_token := None |> <| om_last_error := None |>
    <| om_published_at := None |> <| om_dead_lettered_at := None |>.

(** [OutboxRecoveryService.requeue] *)
Definition requeue (c : RequeueOutboxInput) : Tx OutboxRecoveryCommand :=
  reason ← lift_result (requeue_reason (rq_reason c));
  _ ← set_tenant_context (rq_tenant_id c);
  existing ← scalar (is_requeue c);
  match existing with
  | Some r =>
      _ ← tx_raise_if (requeue_differs c reason r) OutboxRecoveryConflict "requeue command ID was reused";
      mret r
  | None =>
      message ← scalar (is_message (rq_tenant_id c) (rq_outbox_message_id c));
      match message with
      | None => tx_raise OutboxRecoveryConflict "dead-lettered outbox message not found"
      | Some m =>
          match om_status m, om_dead_lettered_at m with
          | OB_DEAD_LETTER, Some dead =>
              created ← transaction_now;
              let stored := new_recovery c reason m dead created in
              now ← utcnow;
              _ ← update (om_id m) (requeued now);
              _ ← insert stored;
              mret stored
          | _, _ => tx_raise OutboxRecoveryConflict "outbox message is not dead-lettered"
          end
      end
  end.

(** ** [temporal/dispatcher.py] *)

Inductive DispatchStatus := EMPTY | D_PUBLISHED | RETRY_SCHEDULED | DEAD_LETTERED | CLAIM_LOST.

Record ClaimedMessage := mkClaimed {
  cm_id : UUID;
  cm_tenant_id : UUID;
  cm_process_instance_id : UUID;
  cm_message_type : string;
  cm_destination : string;
  cm_payload : list (string * json);
  cm_attempt_count : Z;
  cm_claim_token : UUID;
  cm_process_definition_id : option string;
  cm_process_definition_version : option string
}.

Record DispatchResult := mkDispatch {
  dp_status : DispatchStatus; dp_message_id : option UUID; dp_error : option string
}.

(** Durations in microseconds. *)
Record Dispatcher := mkDispatcher {
  td_release : DeploymentRelease;
  td_authorized_tenant_ids : list UUID;
  td_max_attempts : Z;
  td_stale_claim_after : Z;
  td_retry_base_delay : Z;
  td_orchestrate_agent_turns : bool
}.

Definition MESSAGE_TYPES : list string :=
  ["temporal.process_event"; "temporal.process_review"; "temporal.action_resolution"; "temporal.process_control"]%string.

Inductive StartSignal :=
  | receive_event (e : MailboxEvent)
  | receive_review (r : MailboxReview)
  | receive_action_resolution (r : MailboxActionResolution)
  | receive_control (c : MailboxControl).

Definition payload_str (key : string) (payload : list (string * json)) : option string := get_str key (JObj payload).
Definition payload_strs (key : string) (payload : list (string * json)) : option (list string) :=
  str_tuple (default (JArr []) (assoc key payload)).

(** The signal of a message, for the documents the services write: texts, lists of
    texts and integers.  On others the construction may raise. *)
Definition signal_of (message_type : string) (payload : list (string * json)) : option StartSignal :=
  if eqb message_type "temporal.process_event"%string then
    id ← payload_str "event_id" payload; type ← payload_str "event_type" payload;
    Some (receive_event (mkMailboxEvent id type))
  else if eqb message_type "temporal.process_review"%string then
    id ← payload_str "command_id" payload; type ← payload_str "command_type" payload;
    thread ← payload_str "review_thread_id" payload; request ← payload_str "action_request_id" payload;
    revision ← get_int "proposal_revision" (JObj payload);
    Some (receive_review (mkMailboxReview id type thread request revision))
  else if eqb message_type "temporal.action_resolution"%string then
    id ← payload_str "command_id" payload; request ← payload_str "action_request_id" payload;
    attempt ← payload_str "action_attempt_id" payload; status ← payload_str "status" payload;
    Some (receive_action_resolution (mkMailboxResolution id request attempt status))
  else if eqb message_type "temporal.process_control"%string then
    id ← payload_str "command_id" payload; type ← payload_str "command_type" payload;
    events ← payload_strs "event_ids" payload; reviews ← payload_strs "review_command_ids" payload;
    attempts ← payload_strs "action_attempt_ids" payload; timers ← payload_strs "timer_ids" payload;
    Some (receive_control (mkMailboxControl id type (mkSources events reviews attempts timers)))
  else None.

Section dispatcher.
Context (d : Dispatcher).

Definition pinned (p : ProcessInstance) : bool :=
  eqb (pi_deployment_id p) (dr_deployment_id (td_release d))
  && eqb (pi_deployment_release_fingerprint p) (dr_release_fingerprint (td_release d))
  && eqb (pi_temporal_task_queue p) (dr_temporal_task_queue (td_release d)).

Definition destined (processes : list ProcessInstance) (m : OutboxMessage) : bool :=
  existsb (λ p, eqb (pi_tenant_id p) (om_tenant_id m) && eqb (Some (pi_id p)) (om_process_instance_id m)
                && pinned p) processes.

(** A claim that [SQL] compares as older; a missing time is not. *)
Definition stale (now : Z) (m : OutboxMessage) : bool :=
  match om_claimed_at m with Some t => t <? now - td_stale_claim_after d | None => false end.

Definition deliverable (now : Z) (m : OutboxMessage) : bool :=
  bool_decide (om_message_type m ∈ MESSAGE_TYPES) && (om_available_at m <=? now)
  && (eqb (om_status m) OB_PENDING || (eqb (om_status m) OB_PUBLISHING && stale now m)).

(** [ORDER BY available_at, created_at LIMIT 1]; the order of the table stands for
    the server's order among equal rows. *)
Definition later_than (m m' : OutboxMessage) : bool :=
  (om_available_at m' <? om_available_at m)
  || ((om_available_at m' =? om_available_at m) && (om_created_at m' <? om_created_at m)).
Fixpoint oldest (rows : list OutboxMessage) : option OutboxMessage :=
  match rows with
  | [] => None
  | m :: rows => match oldest rows with
                 | Some m' => Some (if later_than m m' then m' else m)
                 | None => Some m
                 end
  end.

Definition claimed (now : Z) (token : UUID) (m : OutboxMessage) : OutboxMessage :=
  m <| om_status := OB_PUBLISHING |> <| om_claimed_at := Some now |> <| om_claim_token := Some token |>
    <| om_attempt_count ::= Z.succ |>.

Definition claimed_message (token process_id : UUID) (definition : option string * option string)
    (m : OutboxMessage) : ClaimedMessage :=
  mkClaimed (om_id m) (om_tenant_id m) process_id (om_message_type m) (om_destination m) (om_payload m)
    (Z.succ (om_attempt_count m)) token (fst definition) (snd definition).

(** The definition of the process, when the dispatcher orchestrates turns. *)
Definition claimed_definition (process_id : UUID) : Tx (option string * option string) :=
  if td_orchestrate_agent_turns d then
    process ← scalar (λ p : ProcessInstance, eqb (pi_id p) process_id);
    match process with
    | None => tx_raise RuntimeError "Temporal outbox process instance is unavailable"
    | Some p =>
        _ ← lift_result (require_release_pins (td_release d) p);
        mret (Some (pi_process_type p), Some (pi_definition_version p))
    end
  else mret (None, None).

Definition claim_stored (now : Z) (m : OutboxMessage) : Tx ClaimedMessage :=
  match om_process_instance_id m with
  | None => tx_raise RuntimeError "Temporal outbox message has no process instance"
  | Some process_id =>
      definition ← claimed_definition process_id;
      token ← draw_uuid;
      _ ← update (om_id m) (claimed now token);
      mret (claimed_message token process_id definition m)
  end.

Definition _claim (tenant_id : UUID) (now : Z) : Tx (option ClaimedMessage) :=
  _ ← set_tenant_context tenant_id;
  tenants ← select (λ t : Tenant, eqb (tn_id t) tenant_id);
  tenant ← one_or_none tenants;
  match tenant with
  | None => mret None
  | Some t =>
      if negb (eqb (tn_status t) TS_ACTIVE) || negb (eqb (tn_deployment_id t) (dr_deployment_id (td_release d)))
      then mret None
      else
        processes ← select pinned;
        messages ← select (λ m, deliverable now m && destined processes m);
        match oldest messages with
        | None => mret None
        | Some m => c ← claim_stored now m; mret (Some c)
        end
  end.

(** The row of a claim, while the claim holds. *)
Definition holds (c : ClaimedMessage) (m : OutboxMessage) : bool :=
  eqb (om_id m) (cm_id c) && eqb (om_status m) OB_PUBLISHING && eqb (om_claim_token m) (Some (cm_claim_token c)).

(** [update(OutboxMessage).where(...).values(...).returning(OutboxMessage.id)] *)
Definition update_held (c : ClaimedMessage) (f : OutboxMessage → OutboxMessage) : Tx (option UUID) :=
  rows ← select (holds c);
  _ ← update (cm_id c) (λ m, if holds c m then f m else m);
  mret (om_id <$> hd_error rows).

Definition published (now : Z) (m : OutboxMessage) : OutboxMessage :=
  m <| om_status := OB_PUBLISHED |> <| om_published_at := Some now |> <| om_dead_lettered_at := None |>
    <| om_claimed_at := None |> <| om_claim_token := None |> <| om_last_error := None |>.

Definition complete (c : ClaimedMessage) : Tx DispatchResult :=
  _ ← set_tenant_context (cm_tenant_id c);
  now ← utcnow;
  completed_id ← update_held c (published now);
  mret (mkDispatch (if bool_decide (is_Some completed_id) then D_PUBLISHED else CLAIM_LOST) (Some (cm_id c)) None).

Definition exhausted (c : ClaimedMessage) : bool := td_max_attempts d <=? cm_attempt_count c.

Definition failed (c : ClaimedMessage) (error : string) (next_available_at dead_at : Z) (m : OutboxMessage)
  : OutboxMessage :=
  m <| om_status := if exhausted c then OB_DEAD_LETTER else OB_PENDING |>
    <| om_claimed_at := None |> <| om_claim_token := None |> <| om_last_error := Some error |>
    <| om_available_at := next_available_at |>
    <| om_dead_lettered_at := if exhausted c then Some dead_at else None |>.

Definition retry_delay (attempt_count : Z) : Z := td_retry_base_delay d * 2 ^ (attempt_count - 1).

(** [_record_failure]; [error] is the class and the message of the exception. *)
Definition _record_failure (c : ClaimedMessage) (error : string * string) : Tx DispatchResult :=
  let error_text := py_prefix 2000 (fst error +:+ ": " +:+ snd error) in
  now ← utcnow;
  let next_available_at := if exhausted c then now else now + retry_delay (cm_attempt_count c) in
  _ ← set_tenant_context (cm_tenant_id c);
  dead_at ← (if exhausted c then utcnow else mret 0);
  updated_id ← update_held c (failed c error_text next_available_at dead_at);
  mret (mkDispatch (if bool_decide (is_Some updated_id)
                    then (if exhausted c then DEAD_LETTERED else RETRY_SCHEDULED) else CLAIM_LOST)
          (Some (cm_id c)) (Some error_text)).

(** The second half of [dispatch_one]: [failure] is the exception the [try] block
    raised, in building the signal or in starting the workflow. *)
Definition settle (c : ClaimedMessage) (failure : option (string * string)) : Tx DispatchResult :=
  match failure with Some e => _record_failure c e | None => complete c end.

(** The first half of [dispatch_one]. *)
Definition claim_one (tenant_id : UUID) : Tx (option ClaimedMessage) :=
  if negb (bool_decide (tenant_id ∈ td_authorized_tenant_ids d)) then mret None
  else now ← utcnow; _claim tenant_id now.

(** [dispatch_one] without other transactions in between; [temporal] is the outcome of
    the [try] block. *)
Definition dispatch_one (tenant_id : UUID) (temporal : ClaimedMessage → option (string * string))
  : Tx DispatchResult :=
  message ← claim_one tenant_id;
  match message with
  | None => mret (mkDispatch EMPTY None None)
  | Some c => settle c (temporal c)
  end.
End dispatcher.
