(* ===== verification/OutboxFacts.v ===== *)
(** * Facts about the outbox

    What the statements of a dispatcher change; the transition system of concurrent
    dispatchers, crashes, requeues and new messages; and its invariants: claims are
    exclusive, published messages are final, retries are bounded and delayed, and
    dead letters keep their evidence. *)

From stdpp Require Import base gmap list strings sets relations.
From Stdlib Require Import ZArith Lia.
From S2P Require Import Prelude Python PyTime Json Contracts Mailbox Continuation Schema Session Deployment Outbox.

#[local] Open Scope Z_scope.

(** ** The statements *)

Lemma found_exists {A B} (q : A → bool) (f : A → B) xs :
  bool_decide (is_Some (f <$> hd_error (List.filter q xs))) = existsb q xs.
Proof. induction xs as [|x xs IH]; cbn [List.filter existsb]; [done|]. by destruct (q x). Qed.

(** The rows after the holder of a claim wrote them. *)
Definition write_held (c : ClaimedMessage) (f : OutboxMessage → OutboxMessage) (m : OutboxMessage) : OutboxMessage :=
  if eqb (om_tenant_id m) (cm_tenant_id c) && holds c m then f m else m.
Definition with_outbox (f : OutboxMessage → OutboxMessage) (d : Db) : Db :=
  d <| outbox_messages := f <$> outbox_messages d |>.
Definition held (c : ClaimedMessage) (d : Db) : bool :=
  existsb (λ m, eqb (om_tenant_id m) (cm_tenant_id c) && holds c m) (outbox_messages d).

Lemma update_held_run c f s :
  s_tenant s = Some (cm_tenant_id c) →
  ∃ o, update_held c f s = Ok (o, s <| s_db ::= with_outbox (write_held c f) |>)
    ∧ bool_decide (is_Some o) = held c (s_db s).
Proof.
  intros Hs. unfold update_held. rewrite (tx_bind_run _ _ _ _ _ (select_seen s _ _ Hs)).
  rewrite (tx_bind_run _ _ _ _ _ (update_touch s _ (cm_id c) (λ m, if holds c m then f m else m) Hs)).
  eexists. split.
  - unfold mret, Tx_ret. f_equal. f_equal. unfold with_outbox. cbn. destruct s as [d ? ? ? ? ? ?]. cbn. f_equal.
    destruct d. cbn. f_equal. apply map_ext. intros m. unfold touch, write_held, holds. cbn.
    rewrite (eqb_sym (om_tenant_id m)).
    rewrite (eqb_Some (cm_tenant_id c) (om_tenant_id m)). destruct (eqb (cm_tenant_id c) _), (eqb (om_id m) (cm_id c)); cbn; done.
  - rewrite found_exists. unfold held. cbn [table OutboxMessage_table]. clear.
    induction (outbox_messages (s_db s)) as [|m ms IH]; [done|]. cbn [existsb]. rewrite IH.
    unfold seen. cbn. by rewrite (eqb_Some (cm_tenant_id c) (om_tenant_id m)), (eqb_sym (cm_tenant_id c)).
Qed.

Lemma write_unheld c f d : held c d = false → with_outbox (write_held c f) d = d.
Proof.
  intros H. unfold with_outbox. assert (write_held c f <$> outbox_messages d = outbox_messages d) as ->; [|by destruct d].
  unfold held in H. revert H. induction (outbox_messages d) as [|m ms IH]; [done|]. cbn [existsb fmap list_fmap].
  intros [Hm ?]%orb_false_iff. unfold write_held at 1. by rewrite Hm, IH.
Qed.

(** How a claim is settled: the rows it writes, and the answer. *)
Definition settles (d : Dispatcher) (c : ClaimedMessage) (failure : option (string * string)) (now dead_at : Z)
    (m : OutboxMessage) : OutboxMessage :=
  match failure with
  | None => published now m
  | Some e => failed d c (py_prefix 2000 (fst e +:+ ": " +:+ snd e))
                (if exhausted d c then now else now + retry_delay d (cm_attempt_count c)) dead_at m
  end.
Definition settled_status (d : Dispatcher) (c : ClaimedMessage) (failure : option (string * string)) : DispatchStatus :=
  match failure with None => D_PUBLISHED | Some _ => if exhausted d c then DEAD_LETTERED else RETRY_SCHEDULED end.

Lemma settle_run d c failure s :
  ∃ r dead_at s', settle d c failure s = Ok (r, s')
    ∧ s_db s' = with_outbox (write_held c (settles d c failure (s_clock s (s_reads s)) dead_at)) (s_db s)
    ∧ dp_message_id r = Some (cm_id c)
    ∧ dp_status r = if held c (s_db s) then settled_status d c failure else CLAIM_LOST.
Proof.
  destruct failure as [e|]; unfold settle, _record_failure, complete.
  - rewrite (tx_bind_run _ _ s (s_clock s (s_reads s)) (s <| s_reads ::= S |>)) by done. cbv zeta.
    set (s1 := s <| s_reads ::= S |>). rewrite (tx_bind_run _ _ s1 tt (s1 <| s_tenant := Some (cm_tenant_id c) |>)) by done.
    set (s2 := s1 <| s_tenant := Some (cm_tenant_id c) |>).
    assert (∃ dead_at s3, (if exhausted d c then utcnow else mret 0) s2 = Ok (dead_at, s3)
      ∧ s_db s3 = s_db s ∧ s_tenant s3 = Some (cm_tenant_id c)) as (dead_at & s3 & E & Hd & Ht)
      by (destruct (exhausted d c); by eexists _, _).
    rewrite (tx_bind_run _ _ _ _ _ E).
    destruct (update_held_run c (settles d c (Some e) (s_clock s (s_reads s)) dead_at) s3 Ht) as (o & Ho & Hh).
    cbn [settles] in Ho. rewrite (tx_bind_run _ _ _ _ _ Ho). rewrite Hd in Hh.
    eexists _, dead_at, _. split; [reflexivity|]. split; [by cbn; rewrite Hd|]. cbn. by rewrite Hh.
  - rewrite (tx_bind_run _ _ s tt (s <| s_tenant := Some (cm_tenant_id c) |>)) by done.
    set (s1 := s <| s_tenant := Some (cm_tenant_id c) |>).
    rewrite (tx_bind_run _ _ s1 (s_clock s (s_reads s)) (s1 <| s_reads ::= S |>)) by done.
    assert (s_tenant (s1 <| s_reads ::= S |>) = Some (cm_tenant_id c)) as Ht by done.
    destruct (update_held_run c (published (s_clock s (s_reads s))) _ Ht) as (o & Ho & Hh).
    rewrite (tx_bind_run _ _ _ _ _ Ho). eexists _, 0, _. split; [reflexivity|]. split; [done|]. cbn. cbn in Hh. by rewrite Hh.
Qed.

(** ** Claims *)

Lemma oldest_in rows m : oldest rows = Some m → m ∈ rows ∧ Forall (λ m', later_than m m' = false) rows.
Proof.
  revert m. induction rows as [|x rows IH]; intros m; cbn; [done|]. destruct (oldest rows) as [y|] eqn:E.
  - specialize (IH y eq_refl) as [Hy Ha]. destruct (later_than x y) eqn:El; intros [= <-].
    + split; [by right|]. constructor; [|done]. unfold later_than in *. lia.
    + split; [left|]. constructor; [unfold later_than; lia|]. eapply Forall_impl; [exact Ha|].
      intros z Hz. cbn in *. unfold later_than in *. lia.
  - intros [= <-]. destruct rows as [|z rows]; [|cbn in E; by destruct (oldest rows)].
    split; [left|]. repeat constructor. unfold later_than. lia.
Qed.

Lemma oldest_None rows : oldest rows = None ↔ rows = [].
Proof. destruct rows as [|x rows]; [done|]. cbn. by destruct (oldest rows). Qed.

(** The messages that a dispatcher may claim for a tenant. *)
Definition candidates (d : Dispatcher) (t : UUID) (now : Z) (db : Db) : list OutboxMessage :=
  List.filter (λ m, seen t m && (deliverable d now m
                && destined d (List.filter (λ p, seen t p && pinned d p) (process_instances db)) m)) (outbox_messages db).
Definition serves (d : Dispatcher) (t : UUID) (db : Db) : Prop :=
  t ∈ td_authorized_tenant_ids d ∧ ∃ x, List.filter (λ r, seen t r && eqb (tn_id r) t) (tenants db) = [x]
    ∧ tn_status x = TS_ACTIVE ∧ tn_deployment_id x = dr_deployment_id (td_release d).

Definition claim_row (t : UUID) (now : Z) (token : UUID) (m : OutboxMessage) (db : Db) : Db :=
  with_outbox (touch t (om_id m) (claimed now token)) db.

Inductive claim_effect (d : Dispatcher) (t : UUID) (now : Z) (db : Db) : option ClaimedMessage → Db → Prop :=
  | claim_none : (serves d t db → candidates d t now db = []) → claim_effect d t now db None db
  | claim_some token m p definition :
      serves d t db → oldest (candidates d t now db) = Some m → om_process_instance_id m = Some p →
      claim_effect d t now db (Some (claimed_message token p definition m)) (claim_row t now token m db).

Lemma claimed_definition_ok d p s r s' :
  s_tenant s = Some (default (uuid 0) (s_tenant s)) → claimed_definition d p s = Ok (r, s') → s' = s.
Proof.
  intros Hs H. unfold claimed_definition in H. destruct (td_orchestrate_agent_turns d); [|by apply mret_ok in H as [_ ->]].
  rewrite (tx_bind_run _ _ _ _ _ (scalar_seen s _ _ Hs)) in H. destruct (hd_error _); [|done].
  by apply tx_bind_ok in H as ([] & ? & [_ ->]%lift_result_ok & [_ ->]%mret_ok).
Qed.

Lemma claim_one_ok d t s r s' :
  claim_one d t s = Ok (r, s') → claim_effect d t (s_clock s (s_reads s)) (s_db s) r (s_db s').
Proof.
  intros H. unfold claim_one in H. destruct (bool_decide (t ∈ _)) eqn:Ha; cbn [negb] in H.
  2:{ apply bool_decide_eq_false in Ha. apply mret_ok in H as [-> ->]. constructor. by intros []. }
  apply bool_decide_eq_true in Ha. apply tx_bind_ok in H as (now & ? & [-> ->]%utcnow_ok & H). unfold _claim in H.
  revert H. generalize (s_clock s (s_reads s)). intros now H.
  set (s0 := s <| s_reads ::= S |>) in H. rewrite (tx_bind_run _ _ s0 tt (s0 <| s_tenant := Some t |>)) in H by done.
  assert (s_tenant (s0 <| s_tenant := Some t |>) = Some t) as Hs by done.
  change (s_db s) with (s_db (s0 <| s_tenant := Some t |>)). revert H Hs. generalize (s0 <| s_tenant := Some t |>).
  clear s0 s. intros s H Hs. rewrite (tx_bind_run _ _ _ _ _ (select_seen s _ _ Hs)) in H.
  apply tx_bind_ok in H as (tenant & s1 & Ht & H). cbn [table Tenant_table] in Ht.
  destruct (List.filter _ (tenants (s_db s))) as [|x [|]] eqn:Ex; [| |done]; apply mret_ok in Ht as [-> ->].
  { apply mret_ok in H as [-> ->]. constructor. intros (_ & x & Hx & _). congruence. }
  destruct (eqb (tn_status x) TS_ACTIVE && eqb (tn_deployment_id x) (dr_deployment_id (td_release d))) eqn:E.
  2:{ rewrite <- negb_andb, E in H. apply mret_ok in H as [-> ->]. constructor. intros (_ & y & Hy & H1 & H2).
      rewrite Ex in Hy. injection Hy as <-. by rewrite H1, H2, !eqb_refl in E. }
  rewrite <- negb_andb, E in H. cbn [negb] in H. apply andb_true_iff in E as [E1%eqb_true E2%eqb_true].
  rewrite (tx_bind_run _ _ _ _ _ (select_seen s _ _ Hs)), (tx_bind_run _ _ _ _ _ (select_seen s _ _ Hs)) in H.
  cbn [table OutboxMessage_table ProcessInstance_table] in H. fold (candidates d t now (s_db s)) in H.
  destruct (oldest (candidates d t now (s_db s))) as [m|] eqn:Eo.
  2:{ apply mret_ok in H as [-> ->]. constructor. intros _. by apply oldest_None. }
  apply tx_bind_ok in H as (c & s2 & Hc & [-> ->]%mret_ok). unfold claim_stored in Hc.
  destruct (om_process_instance_id m) as [p|] eqn:Ep; [|done].
  apply tx_bind_ok in Hc as (definition & ? & ->%claimed_definition_ok & Hc); [|by rewrite Hs].
  apply tx_bind_ok in Hc as (token & ? & [-> ->]%draw_uuid_ok & Hc).
  apply tx_bind_ok in Hc as ([] & ? & Hu & [-> ->]%mret_ok).
  rewrite (update_touch _ t) in Hu by done. injection Hu as <-.
  eapply claim_some; [|done..]. split; [done|]. by exists x.
Qed.

(** ** Requeues *)

Definition requeue_row (t id : UUID) (now : Z) (db : Db) : Db := with_outbox (touch t id (requeued now)) db.

(** A requeue that its identity already stored, or the reset of a dead letter. *)
Inductive requeue_effect (c : RequeueOutboxInput) (db : Db) : OutboxRecoveryCommand → Db → Prop :=
  | requeue_replayed r reason :
      requeue_reason (rq_reason c) = Ok reason →
      hd_error (List.filter (is_requeue c) (outbox_recovery_commands db)) = Some r →
      requeue_differs c reason r = false → requeue_effect c db r db
  | requeue_applied reason m dead now created db' :
      requeue_reason (rq_reason c) = Ok reason →
      hd_error (List.filter (is_requeue c) (outbox_recovery_commands db)) = None →
      hd_error (List.filter (is_message (rq_tenant_id c) (rq_outbox_message_id c)) (outbox_messages db)) = Some m →
      om_status m = OB_DEAD_LETTER → om_dead_lettered_at m = Some dead →
      db' = requeue_row (rq_tenant_id c) (om_id m) now db
              <| outbox_recovery_commands := outbox_recovery_commands db ++ [new_recovery c reason m dead created] |> →
      requeue_effect c db (new_recovery c reason m dead created) db'.

Lemma requeue_ok c s r s' : requeue c s = Ok (r, s') → requeue_effect c (s_db s) r (s_db s').
Proof.
  intros H. unfold requeue in H.
  apply tx_bind_ok in H as (reason & ? & [Hr ->]%lift_result_ok & H).
  apply tx_bind_ok in H as ([] & ? & ->%set_tenant_context_ok & H).
  apply tx_bind_ok in H as (existing & ? & He & H).
  rewrite (scalar_run _ (rq_tenant_id c)) in He by (done || (unfold is_requeue; tenant_first)). injection He as <- <-.
  destruct (hd_error (List.filter (is_requeue c) _)) as [x|] eqn:Hx.
  { apply tx_bind_ok in H as ([] & ? & [Hd ->]%tx_raise_if_ok & [-> ->]%mret_ok). by eapply requeue_replayed. }
  apply tx_bind_ok in H as (message & ? & Hm & H).
  rewrite (scalar_run _ (rq_tenant_id c)) in Hm by (done || (unfold is_message; tenant_first)). injection Hm as <- <-.
  destruct (hd_error (List.filter (is_message _ _) _)) as [m|] eqn:Hm; [|done].
  destruct (om_status m) eqn:Est; try done. destruct (om_dead_lettered_at m) as [dead|] eqn:Ed; [|done].
  apply tx_bind_ok in H as (created & ? & [_ ->]%transaction_now_ok & H).
  apply tx_bind_ok in H as (now & ? & [_ ->]%utcnow_ok & H).
  apply tx_bind_ok in H as ([] & ? & Hu & H). rewrite (update_touch _ (rq_tenant_id c)) in Hu by done. injection Hu as <-.
  apply tx_bind_ok in H as ([] & ? & [_ ->]%insert_ok & [-> ->]%mret_ok).
  by eapply requeue_applied.
Qed.

(** ** Concurrent dispatchers *)

(** The database, the deliveries that are under way with the dispatcher that claimed
    them, and every token drawn so far. *)
Record World := mkWorld {
  w_db : Db; w_claims : list (Dispatcher * ClaimedMessage); w_tokens : list UUID
}.

(** A message as the services schedule it. *)
Definition scheduled_message (m : OutboxMessage) : Prop :=
  om_status m = OB_PENDING ∧ om_attempt_count m = 0 ∧ om_claim_token m = None.

Section dispatching.
(** The configured number of attempts. *)
Context (max_attempts : Z).

(** One committed transaction, or the loss of a dispatcher.  Other services may do
    anything outside the outbox, and schedule messages of new identity. *)
Inductive step : World → World → Prop :=
  | step_claim d t s c s' w :
      td_max_attempts d = max_attempts → s_db s = w_db w → claim_one d t s = Ok (Some c, s') →
      cm_claim_token c ∉ w_tokens w →
      step w (mkWorld (s_db s') ((d, c) :: w_claims w) (cm_claim_token c :: w_tokens w))
  | step_settle d c failure s r s' before after w :
      w_claims w = before ++ (d, c) :: after → s_db s = w_db w → settle d c failure s = Ok (r, s') →
      step w (mkWorld (s_db s') (before ++ after) (w_tokens w))
  | step_crash before after d c w :
      w_claims w = before ++ (d, c) :: after → step w (mkWorld (w_db w) (before ++ after) (w_tokens w))
  | step_requeue c s r s' w :
      s_db s = w_db w → requeue c s = Ok (r, s') → step w (mkWorld (s_db s') (w_claims w) (w_tokens w))
  | step_schedule db new w :
      outbox_messages db = outbox_messages (w_db w) ++ new → Forall scheduled_message new →
      NoDup (om_id <$> outbox_messages db) → step w (mkWorld db (w_claims w) (w_tokens w)).

(** A claim describes the row it holds. *)
Definition matches (m : OutboxMessage) (c : ClaimedMessage) : Prop :=
  om_id m = cm_id c ∧ om_tenant_id m = cm_tenant_id c ∧ om_attempt_count m = cm_attempt_count c.

Definition row_fine (tokens : list UUID) (m : OutboxMessage) : Prop :=
  (∀ k, om_claim_token m = Some k → k ∈ tokens) ∧
  match om_status m with
  | OB_PENDING => 0 <= om_attempt_count m < max_attempts
  | OB_PUBLISHING | OB_PUBLISHED => 0 < om_attempt_count m
  | OB_DEAD_LETTER => max_attempts <= om_attempt_count m
  end.

Record Consistent (w : World) : Prop := {
  co_ids : NoDup (om_id <$> outbox_messages (w_db w));
  co_rows : Forall (row_fine (w_tokens w)) (outbox_messages (w_db w));
  co_claims : NoDup ((λ dc, cm_claim_token (snd dc)) <$> w_claims w);
  co_limits : Forall (λ dc, td_max_attempts (fst dc) = max_attempts) (w_claims w);
  co_drawn : Forall (λ dc, cm_claim_token (snd dc) ∈ w_tokens w) (w_claims w);
  co_match : ∀ m d c, m ∈ outbox_messages (w_db w) → (d, c) ∈ w_claims w →
    om_claim_token m = Some (cm_claim_token c) → matches m c
}.

Lemma ids_same (f : OutboxMessage → OutboxMessage) (ms : list OutboxMessage) :
  (∀ m, om_id (f m) = om_id m) → om_id <$> (f <$> ms) = om_id <$> ms.
Proof. intros Hf. rewrite <- list_fmap_compose. apply list_fmap_ext. intros ? m _. apply Hf. Qed.

Lemma row_fine_more tokens tokens' m :
  (∀ k, k ∈ tokens → k ∈ tokens') → row_fine tokens m → row_fine tokens' m.
Proof. intros H [Ht Hs]. split; [|done]. intros k Hk. by apply H, Ht. Qed.

(** A step that rewrites the rows and loses claims. *)
Lemma consistent_rewrite w f db claims :
  Consistent w → outbox_messages db = f <$> outbox_messages (w_db w) → (∀ m, om_id (f m) = om_id m) →
  (∀ m, m ∈ outbox_messages (w_db w) → f m = m ∨ row_fine (w_tokens w) (f m) ∧ om_claim_token (f m) = None) →
  claims `sublist_of` w_claims w → Consistent (mkWorld db claims (w_tokens w)).
Proof.
  intros [Hi Hr Hc Hl Hd Hm] E Hid Hf Hs. rewrite Forall_forall in Hr. split; cbn [w_db w_claims w_tokens].
  - by rewrite E, ids_same.
  - rewrite E. apply Forall_fmap, Forall_forall. intros m Hin. cbn. destruct (Hf m Hin) as [->|[? _]]; [by apply Hr|done].
  - eapply sublist_NoDup; [exact Hc|by apply fmap_sublist].
  - rewrite Forall_forall in *. intros x Hx. apply Hl. by eapply elem_of_sublist.
  - rewrite Forall_forall in *. intros x Hx. apply Hd. by eapply elem_of_sublist.
  - intros m' d c. rewrite E. intros (m & -> & Hin)%list_elem_of_fmap Hdc Hk.
    destruct (Hf m Hin) as [Em|[_ En]]; [|congruence]. rewrite Em in Hk |- *. apply (Hm m d c); try done.
    by eapply elem_of_sublist.
Qed.

Lemma candidates_in d t now db m :
  m ∈ candidates d t now db → m ∈ outbox_messages db ∧ om_tenant_id m = t ∧ deliverable d now m = true
  ∧ destined d (List.filter (λ p, seen t p && pinned d p) (process_instances db)) m = true.
Proof. intros [[Ht%eqb_true [? ?]%andb_true_iff]%andb_true_iff ?]%elem_of_filter_bool. by injection Ht as ->. Qed.

Lemma consistent_claim w d t now c db :
  Consistent w → claim_effect d t now (w_db w) (Some c) db → td_max_attempts d = max_attempts →
  cm_claim_token c ∉ w_tokens w →
  Consistent (mkWorld db ((d, c) :: w_claims w) (cm_claim_token c :: w_tokens w)).
Proof.
  intros [Hi Hr Hc Hl Hd Hm] H Hmax Hk. inversion H as [|token m0 p definition _ Ho _]; subst; clear H.
  apply oldest_in in Ho as [(Hm0 & Ht & Hdel & _)%candidates_in _]. cbn [cm_claim_token claimed_message] in *.
  assert (∀ m, m ∈ outbox_messages (w_db w) → touch t (om_id m0) (claimed now token) m = m
    ∨ m = m0 ∧ touch t (om_id m0) (claimed now token) m = claimed now token m0) as Hf.
  { intros m Hin. destruct (touch_cases t (om_id m0) (claimed now token) m) as [E|(E & _ & Eid)]; [by left|right].
    cbn in Eid. assert (m = m0) as -> by by eapply same_row. done. }
  rewrite Forall_forall in Hr. pose proof (Hr m0 Hm0) as [_ Hfine].
  assert (0 <= om_attempt_count m0) as Hpos.
  { unfold deliverable in Hdel. destruct (om_status m0); cbn in Hdel; try lia; by rewrite andb_false_r in Hdel. }
  split; cbn [w_db w_claims w_tokens claim_row with_outbox outbox_messages field_update].
  - rewrite ids_same; [done|]. intros m. unfold touch. by destruct (_ && _).
  - apply Forall_fmap, Forall_forall. intros m Hin. unfold compose. destruct (Hf m Hin) as [->|[-> ->]].
    + eapply row_fine_more; [|by apply Hr]. intros; by right.
    + split; [intros k [= <-]; left|]. cbn. lia.
  - constructor; [|done]. intros (dc & E & Hin)%list_elem_of_fmap. apply Hk. cbn in E. subst token.
    rewrite Forall_forall in Hd. by apply Hd.
  - by constructor.
  - constructor; [left|]. eapply Forall_impl; [exact Hd|]. intros; by right.
  - intros m' d' c'. intros (m & -> & Hin)%list_elem_of_fmap Hdc Htok.
    apply elem_of_cons in Hdc as [[= -> ->]|Hdc]; destruct (Hf m Hin) as [E|[-> E]]; rewrite E in Htok |- *.
    + exfalso. apply Hk. by apply (Hr m Hin).
    + by repeat split.
    + by apply (Hm m d' c').
    + exfalso. injection Htok as ->. apply Hk. rewrite Forall_forall in Hd. by apply (Hd (d', c')).
Qed.

Lemma consistent_settle w d c failure now dead before after :
  Consistent w → w_claims w = before ++ (d, c) :: after →
  Consistent (mkWorld (with_outbox (write_held c (settles d c failure now dead)) (w_db w)) (before ++ after) (w_tokens w)).
Proof.
  intros Hw Hc. eapply consistent_rewrite; [done|reflexivity| | |].
  - intros m. unfold write_held. destruct (_ && _); [|done]. by destruct failure.
  - intros m Hin. unfold write_held. destruct (_ && _) eqn:E; [right|by left].
    apply andb_true_iff in E as [_ [[_ Hst%eqb_true]%andb_true_iff Htok%eqb_true]%andb_true_iff].
    assert ((d, c) ∈ w_claims w) as Hdc by (rewrite Hc; set_solver).
    destruct Hw as [_ Hr _ Hl _ Hm]. destruct (Hm m d c Hin Hdc Htok) as (_ & _ & Hn).
    rewrite Forall_forall in Hr. rewrite Forall_forall in Hl. destruct (Hr m Hin) as [_ Hfine]. rewrite Hst in Hfine.
    specialize (Hl _ Hdc). cbn in Hl. destruct failure as [e|]; cbn; (split; [|done]); (split; [done|]); cbn; [|lia].
    unfold exhausted. rewrite Hl, <- Hn. destruct (Z.leb_spec max_attempts (om_attempt_count m)); lia.
  - rewrite Hc. apply sublist_app; [done|]. by constructor.
Qed.

Lemma step_consistent w w' : 0 < max_attempts → step w w' → Consistent w → Consistent w'.
Proof.
  intros Hpos H Hw. destruct H as [d t s c s' w Hmax Hs Hc%claim_one_ok Hk|d c failure s r s' before after w Hc Hs H
    |before after d c w Hc|c s r s' w Hs H%requeue_ok|db new w E Hnew Hids].
  - rewrite Hs in Hc. by eapply consistent_claim.
  - destruct (settle_run d c failure s) as (r' & dead & s1 & E & Hd & _). rewrite H in E. injection E as <- <-.
    rewrite Hd, Hs. by apply consistent_settle.
  - eapply (consistent_rewrite w id); [done|by rewrite list_fmap_id|done|by left|].
    rewrite Hc. apply sublist_app; [done|]. by constructor.
  - rewrite Hs in H. revert H. generalize (s_db s'). intros db' H.
    destruct H as [|reason m dead now created db' _ _ _ _ _ ->].
    + eapply (consistent_rewrite w id); [done|by rewrite list_fmap_id|done|by left|done].
    + eapply consistent_rewrite; [done|reflexivity| | |done].
      * intros x. unfold touch. by destruct (_ && _).
      * intros x _. destruct (touch_cases (rq_tenant_id c) (om_id m) (requeued now) x) as [->|(-> & _)]; [by left|right].
        split; [|done]. split; [done|]. cbn. lia.
  - destruct Hw as [Hi Hr Hc Hl Hd Hm]. split; cbn [w_db w_claims w_tokens]; try done.
    + rewrite E. apply Forall_app. split; [done|]. eapply Forall_impl; [exact Hnew|]. intros m (Hst & Hn & Ht).
      split; [by rewrite Ht|]. rewrite Hst. lia.
    + intros m d c. rewrite E. intros [Hin|Hin]%elem_of_app Hdc Ht; [by apply (Hm m d c)|].
      rewrite Forall_forall in Hnew. destruct (Hnew m Hin) as (_ & _ & ?). congruence.
Qed.
End dispatching.

(** ** What the outbox promises *)

Section promises.
Context (max_attempts : Z).
Notation step := (step max_attempts).
Notation Consistent := (Consistent max_attempts).

(** Before any delivery: the tables keep identities unique, no message is claimed. *)
Definition initial (w : World) : Prop :=
  w_claims w = [] ∧ NoDup (om_id <$> outbox_messages (w_db w)) ∧ Forall scheduled_message (outbox_messages (w_db w)).

Lemma reachable_consistent w0 w : 0 < max_attempts → initial w0 → rtc step w0 w → Consistent w.
Proof.
  intros Hpos (Hc & Hn & Hs) Hr. assert (Consistent w0) as H0.
  { split; rewrite ?Hc; [done| |constructor|constructor|constructor|].
    - eapply Forall_impl; [exact Hs|]. intros m (Hst & Ha & Ht). split; [by rewrite Ht|]. rewrite Hst. lia.
    - intros m d c _ []%elem_of_nil. }
  clear -Hpos Hr H0. induction Hr as [|w1 w2 w3 H _ IH]; [done|]. apply IH. by eapply step_consistent.
Qed.

Lemma held_row c db : held c db = true ↔ ∃ m, m ∈ outbox_messages db ∧ om_tenant_id m = cm_tenant_id c ∧ om_id m = cm_id c
  ∧ om_status m = OB_PUBLISHING ∧ om_claim_token m = Some (cm_claim_token c).
Proof.
  unfold held, holds. rewrite existsb_exists. setoid_rewrite <- list_elem_of_In.
  setoid_rewrite andb_true_iff. setoid_rewrite andb_true_iff. setoid_rewrite andb_true_iff. setoid_rewrite eqb_eq. naive_solver.
Qed.

(** Of two deliveries of a message only one holds it. *)
Lemma held_once w before d1 c1 d2 c2 :
  Consistent w → NoDup ((λ dc : Dispatcher * ClaimedMessage, cm_claim_token (snd dc)) <$> (d1, c1) :: (d2, c2) :: before) → cm_id c2 = cm_id c1 →
  held c1 (w_db w) = true → held c2 (w_db w) = false.
Proof.
  intros [Hi _ _ _ _ _] Hn E (m1 & Hm1 & _ & Hid1 & _ & Ht1)%held_row. apply not_true_is_false.
  intros (m2 & Hm2 & _ & Hid2 & _ & Ht2)%held_row. cbn in Hn. apply NoDup_cons in Hn as [Hn _]. apply Hn.
  assert (m1 = m2) as <- by (eapply same_row; [exact Hi|done..|congruence]).
  rewrite Ht1 in Ht2. injection Ht2 as ->. left.
Qed.

Lemma held_after c1 c2 f db :
  (∀ m, om_claim_token (f m) = None) → held c2 db = false → held c2 (with_outbox (write_held c1 f) db) = false.
Proof.
  intros Hf H. apply not_true_is_false. intros (m & Hm & Ht & Hid & Hst & Htok)%held_row.
  apply list_elem_of_fmap in Hm as (m' & -> & Hm'). unfold write_held in *.
  destruct (_ && holds c1 m'); [by rewrite Hf in Htok|].
  apply not_true_iff_false in H. apply H, held_row. by exists m'.
Qed.

Lemma settle_lost d c failure s r s' :
  settle d c failure s = Ok (r, s') → held c (s_db s) = false → dp_status r = CLAIM_LOST ∧ s_db s' = s_db s.
Proof.
  intros H Hh. destruct (settle_run d c failure s) as (r1 & dead & s1 & E & Hd & _ & Hst).
  rewrite H in E. injection E as <- <-. rewrite Hst, Hd, write_unheld, Hh by done. done.
Qed.

(** C33: claims are exclusive.  When two dispatchers, the first crashed, slow or
    overtaken, deliver the same message at the same time, only one of them can settle
    it: if the settlement of one takes effect, the other's is lost and writes nothing,
    whether it comes before or after, whatever each delivery came to. *)
Theorem claims_are_exclusive w0 w d1 c1 d2 c2 rest f1 s1 r1 s1' :
  0 < max_attempts → initial w0 → rtc step w0 w → w_claims w ≡ₚ (d1, c1) :: (d2, c2) :: rest → cm_id c2 = cm_id c1 →
  s_db s1 = w_db w → settle d1 c1 f1 s1 = Ok (r1, s1') → dp_status r1 ≠ CLAIM_LOST →
  ∀ f2 s2 r2 s2', settle d2 c2 f2 s2 = Ok (r2, s2') → s_db s2 = s_db s1 ∨ s_db s2 = s_db s1' →
    dp_status r2 = CLAIM_LOST ∧ s_db s2' = s_db s2.
Proof.
  intros Hpos H0 Hr Hperm E Hs1 H1 Hne f2 s2 r2 s2' H2 Hs2.
  pose proof (reachable_consistent w0 w Hpos H0 Hr) as Hw.
  destruct (settle_run d1 c1 f1 s1) as (r & dead & s & E1 & Hd1 & _ & Hst). rewrite H1 in E1. injection E1 as <- <-.
  destruct (held c1 (s_db s1)) eqn:Hh; [|done]. rewrite Hs1 in Hh.
  assert (held c2 (w_db w) = false) as Hh2.
  { eapply (held_once w rest); [done| |done|done]. pose proof (co_claims _ _ Hw) as Hc. by rewrite Hperm in Hc. }
  eapply settle_lost; [exact H2|]. destruct Hs2 as [->| ->]; rewrite ?Hd1, Hs1; [done|].
  apply held_after; [|done]. intros m. by destruct f1.
Qed.

Lemma step_published w w' m :
  NoDup (om_id <$> outbox_messages (w_db w)) → step w w' →
  m ∈ outbox_messages (w_db w) → om_status m = OB_PUBLISHED → m ∈ outbox_messages (w_db w').
Proof.
  intros Hn H Hm Hst.
  assert (∀ f, f m = m → m ∈ outbox_messages (with_outbox f (w_db w))) as Hkeep.
  { intros f E. cbn. rewrite <- E. by apply list_elem_of_fmap_2. }
  destruct H as [d t s c s' w Hmax Hs Hc%claim_one_ok Hk|d c failure s r s' before after w Hc Hs H
    |before after d c w Hc|c s r s' w Hs H%requeue_ok|db new w E Hnew Hids]; cbn [w_db].
  - rewrite Hs in Hc. revert Hc. generalize (s_db s'). intros db' Hc. inversion Hc as [|token m0 p definition _ Ho _]; subst.
    apply oldest_in in Ho as [(Hm0 & _ & Hdel & _)%candidates_in _].
    apply Hkeep. destruct (touch_cases t (om_id m0) (claimed (s_clock s (s_reads s)) token) m) as [->|(_ & _ & Eid)]; [done|].
    assert (m = m0) as -> by by eapply same_row. unfold deliverable in Hdel. rewrite Hst in Hdel.
    cbn in Hdel. by rewrite andb_false_r in Hdel.
  - destruct (settle_run d c failure s) as (r' & dead & s1 & E & Hd & _). rewrite H in E. injection E as <- <-.
    rewrite Hd, Hs. apply Hkeep. unfold write_held, holds. rewrite Hst.
    by destruct (eqb (om_tenant_id m) _), (eqb (om_id m) _).
  - done.
  - rewrite Hs in H. revert H. generalize (s_db s'). intros db' H. destruct H as [|reason m0 dead now created db' _ _ Hm0 Hd _ ->]; [done|].
    apply hd_filter_Some in Hm0 as [Hm0 _]. apply (Hkeep (touch _ _ _)).
    destruct (touch_cases (rq_tenant_id c) (om_id m0) (requeued now) m) as [->|(_ & _ & Eid)]; [done|].
    assert (m = m0) as -> by by eapply same_row. congruence.
  - rewrite E. by apply elem_of_app; left.
Qed.

(** Published messages are final.  Once a delivery is recorded as published, no
    claim, late settlement, crash, requeue or new message changes its row. *)
Theorem published_messages_are_final w0 w w' m :
  0 < max_attempts → initial w0 → rtc step w0 w → rtc step w w' →
  m ∈ outbox_messages (w_db w) → om_status m = OB_PUBLISHED → m ∈ outbox_messages (w_db w').
Proof.
  intros Hpos H0 Hr Hr' Hm Hst. pose proof (reachable_consistent w0 w Hpos H0 Hr) as Hw. clear Hr H0 w0.
  induction Hr' as [w|w1 w2 w3 H _ IH]; [done|]. apply IH; [by eapply step_published; [apply Hw| |..]|].
  by eapply step_consistent.
Qed.

(** Attempts are bounded between crashes.  In every reachable state a message that
    waits has been claimed fewer times than the limit, and only one that was claimed
    at least that often is a dead letter. *)
Theorem dead_letters_are_exhausted w0 w m :
  0 < max_attempts → initial w0 → rtc step w0 w → m ∈ outbox_messages (w_db w) →
  (om_status m = OB_PENDING → 0 <= om_attempt_count m < max_attempts)
  ∧ (om_status m = OB_DEAD_LETTER → max_attempts <= om_attempt_count m).
Proof.
  intros Hpos H0 Hr Hm. pose proof (co_rows _ _ (reachable_consistent w0 w Hpos H0 Hr)) as Hf.
  rewrite Forall_forall in Hf. destruct (Hf m Hm) as [_ Hst]. by split; intros E; rewrite E in Hst.
Qed.

(** Failures back off, then stop.  When the failed delivery of a message is
    recorded, the message keeps its attempt count n; below the limit it waits, and no
    dispatcher may claim it, for the base delay times 2^(n-1); at the limit it is a dead
    letter, which no dispatcher claims at any time. *)
Theorem failures_back_off w0 w d c e s r s' :
  0 < max_attempts → initial w0 → rtc step w0 w → (d, c) ∈ w_claims w → s_db s = w_db w →
  settle d c (Some e) s = Ok (r, s') → dp_status r ≠ CLAIM_LOST →
  ∃ m m', m ∈ outbox_messages (w_db w) ∧ om_id m = cm_id c ∧ m' ∈ outbox_messages (s_db s') ∧ om_id m' = cm_id c
    ∧ om_attempt_count m' = om_attempt_count m
    ∧ let due := s_clock s (s_reads s) + td_retry_base_delay d * 2 ^ (om_attempt_count m - 1) in
      if om_attempt_count m <? max_attempts
      then dp_status r = RETRY_SCHEDULED ∧ om_status m' = OB_PENDING ∧ om_available_at m' = due
        ∧ ∀ d' now, deliverable d' now m' = true → due <= now
      else dp_status r = DEAD_LETTERED ∧ om_status m' = OB_DEAD_LETTER ∧ ∀ d' now, deliverable d' now m' = false.
Proof.
  intros Hpos H0 Hr Hdc Hs H Hne. pose proof (reachable_consistent w0 w Hpos H0 Hr) as [Hi _ _ Hl _ Hm].
  destruct (settle_run d c (Some e) s) as (r1 & dead & s1 & E & Hd & _ & Hst). rewrite H in E. injection E as <- <-.
  destruct (held c (s_db s)) eqn:Hh; [|done]. rewrite Hs in Hh, Hd.
  apply held_row in Hh as (m & Hin & Ht & Hid & Hp & Htok). destruct (Hm m d c Hin Hdc Htok) as (_ & _ & Hn).
  rewrite Forall_forall in Hl. specialize (Hl _ Hdc). cbn in Hl.
  exists m, (settles d c (Some e) (s_clock s (s_reads s)) dead m). rewrite Hd. split_and!; try done.
  - apply list_elem_of_fmap. exists m. split; [|done]. unfold write_held, holds. by rewrite Ht, Hid, Hp, Htok, !eqb_refl.
  - rewrite Hst. unfold settles, failed, settled_status, exhausted, retry_delay. rewrite Hl, <- Hn.
    rewrite Z.ltb_antisym. destruct (max_attempts <=? om_attempt_count m); cbn [negb].
    + split_and!; [done..|]. intros d' now. unfold deliverable. cbn. by rewrite andb_false_r.
    + split_and!; [done..|]. intros d' now. unfold deliverable. cbn. intros Hdel. lia.
Qed.
End promises.

(** Claims take the oldest message that is due.  A claim succeeds only for an active
    tenant of the dispatcher's deployment; it takes a message of a process that is
    pinned to the running release, than which no claimable message of the tenant is
    older, and counts an attempt.  Without a claim nothing changes, and there was no
    claimable message. *)
Theorem claims_take_the_oldest d t s r s' :
  claim_one d t s = Ok (r, s') →
  match r with
  | None => s_db s' = s_db s ∧ (serves d t (s_db s) → candidates d t (s_clock s (s_reads s)) (s_db s) = [])
  | Some c => serves d t (s_db s) ∧ ∃ m, m ∈ candidates d t (s_clock s (s_reads s)) (s_db s) ∧ om_id m = cm_id c
      ∧ Forall (λ m', later_than m m' = false) (candidates d t (s_clock s (s_reads s)) (s_db s))
      ∧ (∃ p, p ∈ process_instances (s_db s) ∧ om_process_instance_id m = Some (pi_id p)
           ∧ cm_process_instance_id c = pi_id p ∧ require_release_pins (td_release d) p = Ok tt)
      ∧ claimed (s_clock s (s_reads s)) (cm_claim_token c) m ∈ outbox_messages (s_db s')
  end.
Proof.
  intros H%claim_one_ok. destruct H as [|token m p definition Hs Ho Hp]; [done|]. split; [done|]. exists m.
  apply oldest_in in Ho as [Hm Ha]. split_and!; try done.
  - apply candidates_in in Hm as (_ & _ & _ & (q & Hq & [[_ Eq%eqb_true]%andb_true_iff _]%andb_true_iff)%existsb_exists).
    apply list_elem_of_In, elem_of_filter_bool in Hq as [[_ Hpin]%andb_true_iff Hq].
    rewrite Hp in Eq. injection Eq as <-. exists q. split_and!; try done.
    unfold pinned in Hpin. rewrite !andb_true_iff, !eqb_eq in Hpin. destruct Hpin as [[E1 E2] E3].
    unfold require_release_pins. by rewrite E1, E2, E3, !eqb_refl.
  - apply candidates_in in Hm as (Hm & Ht & _). apply list_elem_of_fmap. exists m. split; [|done].
    by rewrite touch_self.
Qed.

Lemma requeue_reason_strip reason reason' : requeue_reason reason = Ok reason' → reason' = strip reason.
Proof. unfold requeue_reason. intros H. bind_inv. done. Qed.
Lemma requeue_reason_conflict reason e : requeue_reason reason = Raise e → exn_cls e = OutboxRecoveryConflict.
Proof.
  revert e. change (raises_only (λ c, c = OutboxRecoveryConflict) (requeue_reason reason)).
  unfold requeue_reason. eauto 6 with tiramisu.
Qed.

Lemma requeue_stored c db r db' :
  requeue_effect c db r db' → ∃ reason, requeue_reason (rq_reason c) = Ok reason ∧ requeue_differs c reason r = false
    ∧ hd_error (List.filter (is_requeue c) (outbox_recovery_commands db')) = Some r.
Proof.
  destruct 1 as [r reason Hr Hx Hd|reason m dead now created db' Hr Hno Hm _ _ ->]; exists reason; [done|].
  split; [done|]. split; [unfold requeue_differs; cbn; by rewrite !eqb_refl|].
  cbn [outbox_recovery_commands field_update]. rewrite List.filter_app, filter_nil.
  - cbn. unfold is_requeue. cbn. by rewrite !eqb_refl.
  - apply hd_filter_None in Hno. rewrite Forall_forall in Hno. exact Hno.
Qed.

Lemma requeue_found c reason r later :
  requeue_reason (rq_reason c) = Ok reason →
  hd_error (List.filter (is_requeue c) (outbox_recovery_commands (s_db later))) = Some r →
  requeue c later = if requeue_differs c reason r then raise OutboxRecoveryConflict "requeue command ID was reused"
                    else Ok (r, later <| s_tenant := Some (rq_tenant_id c) |>).
Proof.
  intros Hr Hx. unfold requeue. rewrite (tx_bind_run _ _ later reason later) by by apply lift_result_ok.
  set (s0 := later <| s_tenant := Some (rq_tenant_id c) |>). rewrite (tx_bind_run _ _ later tt s0) by done.
  erewrite tx_bind_run; [|apply (scalar_run s0 (rq_tenant_id c)); [done|unfold is_requeue; tenant_first]].
  cbn [table OutboxRecoveryCommand_table]. change (s_db s0) with (s_db later). rewrite Hx.
  unfold tx_raise_if, mbind, Tx_bind, lift_result. by destruct (requeue_differs c reason r).
Qed.

(** Requeues apply once.  After a requeue, the same command returns the stored
    evidence and changes nothing, whatever happened to the message since; another
    command under its identity, for another message, by another actor or for another
    reason, is refused. *)
Theorem requeues_apply_once c s r s' later more :
  requeue c s = Ok (r, s') →
  outbox_recovery_commands (s_db later) = outbox_recovery_commands (s_db s') ++ more →
  requeue c later = Ok (r, later <| s_tenant := Some (rq_tenant_id c) |>)
  ∧ ∀ c', rq_command_id c' = rq_command_id c → rq_tenant_id c' = rq_tenant_id c →
      rq_outbox_message_id c' ≠ rq_outbox_message_id c ∨ rq_actor_id c' ≠ rq_actor_id c
      ∨ strip (rq_reason c') ≠ strip (rq_reason c) →
      ∃ msg, requeue c' later = raise OutboxRecoveryConflict msg.
Proof.
  intros (reason & Hr & Hd & Hs)%requeue_ok%requeue_stored Hmore.
  assert (hd_error (List.filter (is_requeue c) (outbox_recovery_commands (s_db later))) = Some r) as Hl.
  { rewrite Hmore, List.filter_app. by destruct (List.filter _ (outbox_recovery_commands (s_db s'))). }
  split; [by rewrite (requeue_found c reason r), Hd|].
  intros c' Hid Ht Hne. destruct (requeue_reason (rq_reason c')) as [reason'|e] eqn:Hr'.
  - assert (hd_error (List.filter (is_requeue c') (outbox_recovery_commands (s_db later))) = Some r) as Hl'
      by (unfold is_requeue in *; by rewrite Hid, Ht).
    rewrite (requeue_found c' reason' r) by done.
    apply requeue_reason_strip in Hr as ->. apply requeue_reason_strip in Hr' as ->.
    destruct (requeue_differs c' (strip (rq_reason c')) r) eqn:E; [by eexists|]. exfalso.
    unfold requeue_differs in E, Hd. rewrite !orb_false_iff, !negb_false_iff, !eqb_eq in E, Hd.
    destruct E as [[]], Hd as [[]], Hne as [?|[?|?]]; congruence.
  - exists (exn_msg e). unfold requeue, mbind, Tx_bind, lift_result. cbn. rewrite Hr'.
    apply requeue_reason_conflict in Hr'. unfold raise. destruct e; cbn in *. by subst.
Qed.

(** A requeue starts a fresh cycle and keeps the evidence.  A requeue that was not
    stored before applies to a dead letter only; it records the letter's attempts, last
    error and time, with the actor and the reason, and leaves the message pending, due
    at once, with no attempt counted; no other message changes. *)
Theorem requeues_keep_the_evidence c s r s' :
  requeue c s = Ok (r, s') → List.filter (is_requeue c) (outbox_recovery_commands (s_db s)) = [] →
  NoDup (om_id <$> outbox_messages (s_db s)) →
  ∃ m dead now, m ∈ outbox_messages (s_db s) ∧ om_id m = rq_outbox_message_id c ∧ om_status m = OB_DEAD_LETTER
    ∧ om_dead_lettered_at m = Some dead
    ∧ orc_previous_attempt_count r = om_attempt_count m ∧ orc_previous_error r = om_last_error m
    ∧ orc_previous_dead_lettered_at r = dead ∧ orc_actor_id r = rq_actor_id c ∧ orc_reason r = strip (rq_reason c)
    ∧ outbox_recovery_commands (s_db s') = outbox_recovery_commands (s_db s) ++ [r]
    ∧ requeued now m ∈ outbox_messages (s_db s')
    ∧ (∀ m', m' ∈ outbox_messages (s_db s) → m' ≠ m → m' ∈ outbox_messages (s_db s')).
Proof.
  intros H%requeue_ok Hno Hn. inversion H as [x reason Hr Hx Hd E1 E2|reason m dead now created db' Hr _ Hm Hst Hdead Hdb E1 E2].
  { by rewrite Hno in Hx. }
  apply hd_filter_Some in Hm as [Hm [Ht%eqb_true Hid%eqb_true]%andb_true_iff].
  apply requeue_reason_strip in Hr as ->. exists m, dead, now. rewrite Hdb. split_and!; try done.
  - apply list_elem_of_fmap. exists m. split; [by rewrite touch_self|done].
  - intros m' Hm' Hne. apply list_elem_of_fmap. exists m'. split; [|done].
    destruct (touch_cases (rq_tenant_id c) (om_id m) (requeued now) m') as [->|(_ & _ & Eid)]; [done|].
    destruct Hne. by eapply same_row.
Qed.

(** ** Examples *)

Definition ex_release : DeploymentRelease := mkRelease "acme" "b" "c" "m" "r" "tiramisu.acme.r".
Definition ex_dispatcher : Dispatcher := mkDispatcher ex_release [uuid 10] 2 300000000 5000000 true.
Definition ex_delivery : OutboxMessage := new_outbox_message (uuid 60) (uuid 10) (uuid 20) (Some (uuid 40))
  "temporal.process_event" "process/20" "process-event:40"
  [("event_id", JStr "e-1"); ("event_type", JStr "booking.created")]%string (days 81).
Definition ex_dispatch_process : ProcessInstance := mkProcessInstance (uuid 20) (uuid 10)
  "booking_follow_up" "1" "m" "c" "d" "acme" "r" "tiramisu.acme.r" PS_ACTIVE "process/20" None
  ∅ ∅ ∅ None [] [] [] [] [] [] 0 (days 80).
Definition ex_outbox_db : Db := empty_db
  <| tenants := [mkTenant (uuid 10) "acme" "Acme" TS_ACTIVE "acme"] |>
  <| process_instances := [ex_dispatch_process] |> <| outbox_messages := [ex_delivery] |>.
(** A session of its own for each transaction. *)
Definition ex_outbox_session (base : N) (now : Z) (d : Db) : Session :=
  mkSession d None now (λ _, now) 0 (λ n, uuid (base + N.of_nat n)) 0.
Definition ex_claim (base : N) (now : Z) (d : Db) : ClaimedMessage * Session :=
  match claim_one ex_dispatcher (uuid 10) (ex_outbox_session base now d) with
  | Ok (Some c, s) => (c, s)
  | _ => (claimed_message (uuid 0) (uuid 0) (None, None) ex_delivery, ex_outbox_session 0 0 d) end.
Definition ex_settle (failure : option (string * string)) (c : ClaimedMessage) (now : Z) (d : Db)
  : DispatchResult * Session :=
  match settle ex_dispatcher c failure (ex_outbox_session 0 now d) with
  | Ok r => r | Raise _ => (mkDispatch EMPTY None None, ex_outbox_session 0 now d) end.
Definition ex_refused : option (string * string) := Some ("RPCError", "unavailable")%string.

(** The first dispatcher is slow; the second takes over after its claim is stale. *)
Definition ex_first : ClaimedMessage * Session := ex_claim 100 (days 82) ex_outbox_db.
Definition ex_first_db : Db := s_db (snd ex_first).
Definition ex_second : ClaimedMessage * Session := ex_claim 200 (days 83) ex_first_db.
Definition ex_second_db : Db := s_db (snd ex_second).
Definition ex_published_db : Db := s_db (snd (ex_settle None (fst ex_second) (days 83) ex_second_db)).
Definition ex_dead_db : Db := s_db (snd (ex_settle ex_refused (fst ex_second) (days 83) ex_second_db)).

Definition ex_world0 : World := mkWorld ex_outbox_db [] [].
Definition ex_world1 : World :=
  mkWorld ex_first_db [(ex_dispatcher, fst ex_first)] [cm_claim_token (fst ex_first)].
Definition ex_world2 : World := mkWorld ex_second_db
  [(ex_dispatcher, fst ex_second); (ex_dispatcher, fst ex_first)]
  [cm_claim_token (fst ex_second); cm_claim_token (fst ex_first)].
Definition ex_world3 (d : Db) : World := mkWorld d [(ex_dispatcher, fst ex_first)] (w_tokens ex_world2).

Example outbox_run :
  (dp_status (fst (ex_settle None (fst ex_first) (days 83) ex_published_db)), om_status <$> outbox_messages ex_published_db,
   om_status <$> outbox_messages ex_dead_db)
  = (CLAIM_LOST, [OB_PUBLISHED], [OB_DEAD_LETTER]).
Proof. vm_compute. reflexivity. Qed.

Example signal_of_delivery :
  signal_of (om_message_type ex_delivery) (om_payload ex_delivery)
  = Some (receive_event (mkMailboxEvent "e-1" "booking.created")).
Proof. vm_compute. reflexivity. Qed.

Lemma ex_initial : initial ex_world0.
Proof. split; [done|]. split; [apply NoDup_singleton|]. by repeat constructor. Qed.

Lemma ex_claims : rtc (step 2) ex_world0 ex_world2.
Proof.
  apply (rtc_l _ _ ex_world1); [|apply rtc_once].
  - apply (step_claim 2 ex_dispatcher (uuid 10) (ex_outbox_session 100 (days 82) ex_outbox_db) (fst ex_first)
      (snd ex_first) ex_world0); [done|done| |apply not_elem_of_nil].
    vm_compute. reflexivity.
  - apply (step_claim 2 ex_dispatcher (uuid 10) (ex_outbox_session 200 (days 83) ex_first_db) (fst ex_second)
      (snd ex_second) ex_world1); [done|done|vm_compute; reflexivity|].
    vm_compute. intros [E|E]%elem_of_cons; [discriminate|by apply elem_of_nil in E].
Qed.

(** The second delivery settles. *)
Lemma settle_step w s d c failure before after :
  w_claims w = before ++ (d, c) :: after → s_db s = w_db w →
  step 2 w (mkWorld (s_db (snd (match settle d c failure s with
    Ok r => r | Raise _ => (mkDispatch EMPTY None None, s) end))) (before ++ after) (w_tokens w)).
Proof.
  intros Hc Hs. destruct (settle_run d c failure s) as (r & _ & s' & E & _). rewrite E. by eapply step_settle.
Qed.

Lemma ex_settles failure :
  rtc (step 2) ex_world0 (ex_world3 (s_db (snd (ex_settle failure (fst ex_second) (days 83) ex_second_db)))).
Proof.
  transitivity ex_world2; [exact ex_claims|apply rtc_once].
  unfold ex_world3, ex_settle. refine (settle_step ex_world2 (ex_outbox_session 0 (days 83) ex_second_db) ex_dispatcher (fst ex_second) failure []
    [(ex_dispatcher, fst ex_first)] _ _).
  - cbv [w_claims ex_world2 app]. reflexivity.
  - cbv [s_db w_db ex_outbox_session ex_world2]. reflexivity.
Qed.

Definition ex_late : DispatchResult * Session := ex_settle None (fst ex_first) (days 84) ex_published_db.

Lemma claims_are_exclusive_witness :
  settle ex_dispatcher (fst ex_first) None (ex_outbox_session 0 (days 84) ex_published_db) = Ok (fst ex_late, snd ex_late)
  ∧ dp_status (fst ex_late) = CLAIM_LOST.
Proof.
  assert (settle ex_dispatcher (fst ex_first) None (ex_outbox_session 0 (days 84) ex_published_db)
    = Ok (fst ex_late, snd ex_late)) as E by (vm_compute; reflexivity).
  split; [exact E|].
  refine (proj1 (claims_are_exclusive 2 ex_world0 ex_world2 ex_dispatcher (fst ex_second) ex_dispatcher (fst ex_first) []
    None (ex_outbox_session 0 (days 83) ex_second_db) (fst (ex_settle None (fst ex_second) (days 83) ex_second_db))
    (snd (ex_settle None (fst ex_second) (days 83) ex_second_db)) _ ex_initial ex_claims _ _ _ _ _
    None (ex_outbox_session 0 (days 84) ex_published_db) (fst ex_late) (snd ex_late) E _)).
  - lia.
  - cbv [w_claims ex_world2]. reflexivity.
  - vm_compute. reflexivity.
  - cbv [s_db w_db ex_outbox_session ex_world2]. reflexivity.
  - vm_compute. reflexivity.
  - vm_compute. discriminate.
  - right. cbv [s_db ex_outbox_session ex_published_db]. reflexivity.
Defined.

Lemma published_messages_are_final_witness :
  ∀ w', rtc (step 2) (ex_world3 ex_published_db) w' →
  Forall (λ m, m ∈ outbox_messages (w_db w')) (outbox_messages ex_published_db).
Proof.
  intros w' H. apply Forall_forall. intros m Hm.
  apply (published_messages_are_final 2 ex_world0 (ex_world3 ex_published_db) w' m); [lia|exact ex_initial| |exact H|exact Hm|].
  - exact (ex_settles None).
  - vm_compute in Hm. apply elem_of_cons in Hm as [->|Hm]; [reflexivity|by apply elem_of_nil in Hm].
Defined.

Lemma dead_letters_are_exhausted_witness :
  Forall (λ m, om_status m = OB_DEAD_LETTER ∧ 2 <= om_attempt_count m) (outbox_messages ex_dead_db).
Proof.
  apply Forall_forall. intros m Hm.
  assert (om_status m = OB_DEAD_LETTER) as Hst.
  { vm_compute in Hm. apply elem_of_cons in Hm as [->|Hm]; [reflexivity|by apply elem_of_nil in Hm]. }
  split; [exact Hst|].
  apply (dead_letters_are_exhausted 2 ex_world0 (ex_world3 ex_dead_db) m); [lia|exact ex_initial| |exact Hm|exact Hst].
  exact (ex_settles ex_refused).
Defined.

Lemma failures_back_off_witness :
  ∃ m', m' ∈ outbox_messages (s_db (snd (ex_settle ex_refused (fst ex_second) (days 83) ex_second_db)))
    ∧ ∀ d' now, deliverable d' now m' = false.
Proof.
  destruct (failures_back_off 2 ex_world0 ex_world2 ex_dispatcher (fst ex_second) ("RPCError", "unavailable")%string
    (ex_outbox_session 0 (days 83) ex_second_db) (fst (ex_settle ex_refused (fst ex_second) (days 83) ex_second_db))
    (snd (ex_settle ex_refused (fst ex_second) (days 83) ex_second_db))) as (m & m' & Hm & _ & Hm' & _ & _ & H);
    [lia|exact ex_initial|exact ex_claims|cbv [w_claims ex_world2]; apply list_elem_of_here
    |cbv [s_db w_db ex_outbox_session ex_world2]; reflexivity|vm_compute; reflexivity|vm_compute; discriminate|].
  exists m'. split; [exact Hm'|]. vm_compute in Hm. apply elem_of_cons in Hm as [->|Hm]; [|by apply elem_of_nil in Hm].
  cbn in H. apply H.
Defined.

Lemma claims_take_the_oldest_witness :
  ∃ m, m ∈ candidates ex_dispatcher (uuid 10) (days 82) ex_outbox_db ∧ om_id m = cm_id (fst ex_first).
Proof.
  destruct (claims_take_the_oldest ex_dispatcher (uuid 10) (ex_outbox_session 100 (days 82) ex_outbox_db)
    (Some (fst ex_first)) (snd ex_first) ltac:(vm_compute; reflexivity)) as (_ & m & Hm & Hid & _).
  by exists m.
Defined.

Definition ex_requeue : RequeueOutboxInput := mkRequeueInput (uuid 70) (uuid 10) (uuid 60) (uuid 9) " Temporal is back ".
Definition ex_requeued : OutboxRecoveryCommand * Session :=
  match requeue ex_requeue (ex_outbox_session 0 (days 90) ex_dead_db) with
  | Ok r => r | Raise _ => (new_recovery ex_requeue "" ex_delivery 0 0, ex_outbox_session 0 0 ex_dead_db) end.

Lemma requeues_apply_once_witness :
  requeue ex_requeue (ex_outbox_session 0 (days 90) ex_dead_db) = Ok ex_requeued
  ∧ requeue ex_requeue (snd ex_requeued) = Ok (fst ex_requeued, snd ex_requeued <| s_tenant := Some (uuid 10) |>).
Proof.
  split; [vm_compute; reflexivity|].
  refine (proj1 (requeues_apply_once ex_requeue (ex_outbox_session 0 (days 90) ex_dead_db) (fst ex_requeued)
    (snd ex_requeued) (snd ex_requeued) [] _ _)); [vm_compute; reflexivity|by rewrite app_nil_r].
Defined.

Lemma requeues_keep_the_evidence_witness :
  orc_previous_attempt_count (fst ex_requeued) = 2
  ∧ ∃ m dead now, m ∈ outbox_messages (s_db (ex_outbox_session 0 (days 90) ex_dead_db))
    ∧ om_dead_lettered_at m = Some dead ∧ requeued now m ∈ outbox_messages (s_db (snd ex_requeued)).
Proof.
  split; [vm_compute; reflexivity|].
  assert (NoDup (om_id <$> outbox_messages (s_db (ex_outbox_session 0 (days 90) ex_dead_db)))) as Hn
    by (vm_compute; apply NoDup_singleton).
  destruct (requeues_keep_the_evidence ex_requeue (ex_outbox_session 0 (days 90) ex_dead_db) (fst ex_requeued)
    (snd ex_requeued) ltac:(vm_compute; reflexivity) ltac:(vm_compute; reflexivity) Hn)
    as (m & dead & now & Hm & _ & _ & Hd & _ & _ & _ & _ & _ & _ & Hq & _).
  exists m, dead, now. split; [exact Hm|split; [exact Hd|exact Hq]].
Defined.
