(* ===== verification/Gateway.v ===== *)
(** * [actions/gateway.py]: persisting action proposals

    [ActionGateway.persist_decision] is one transaction over a validated decision:
    it stops at breakers, conflicts and the communication policy, and stores for
    each action its request, its first revision, the policy's outcome and, where
    approval is required, the approval bound to the payload and its review
    thread.  Every insert skips an existing row and reads it back, so that a
    replayed turn finds what it stored. *)

From stdpp Require Import base gmap list strings sets.
From Stdlib Require Import ZArith Lia.
From S2P Require Import Prelude Python PyTime Json Limits Contracts DecisionPolicy Definitions Communications Schema Session Budgets CommunicationSafety State.

#[local] Open Scope Z_scope.

Record PersistedAction := mkPersisted {
  pa_action_request_id : UUID;
  pa_revision : Z;
  pa_payload_hash : string;
  pa_outcome : PermissionOutcome;
  pa_status : ActionRequestStatus;
  pa_approval_request_id : option UUID;
  pa_review_thread_id : option UUID
}.

Definition action_payload_hash (action : ActionProposal) : string :=
  action_payload_identity (ap_action_type action) (ap_parameters action).

(** The tenant, the process and the turn a decision is stored for. *)
Record TurnKey := mkTurnKey {
  tk_tenant_id : UUID; tk_process_instance_id : UUID; tk_agent_turn_id : UUID; tk_definition_version : string
}.

(** ** What a decision refers to *)

(** [_revision_targets]: the requests whose revision the reviews ask for, with
    their action types.  The query has no ORDER BY: [server_order] is the order
    the server returns its rows in. *)
Definition _revision_targets (server_order : list (UUID * string) → list (UUID * string))
    (tenant_id process_instance_id : UUID) (review_command_ids : list UUID) : Tx (list (UUID * string)) :=
  if negb (nonempty review_command_ids) then mret []
  else
    messages ← select (λ m : ReviewMessage, eqb (rm_tenant_id m) tenant_id
      && eqb (rm_process_instance_id m) process_instance_id
      && bool_decide (rm_id m ∈ review_command_ids) && eqb (rm_message_type m) RC_REQUEST_REVISION);
    threads ← select (λ _ : ReviewThread, true);
    approvals ← select (λ _ : ApprovalRequest, true);
    requests ← select (λ _ : ActionRequest, true);
    mret (server_order (
      m ← messages;
      t ← List.filter (λ t, eqb (rt_id t) (rm_review_thread_id m)) threads;
      a ← List.filter (λ a, eqb (apq_id a) (rt_approval_request_id t)) approvals;
      r ← List.filter (λ r, eqb (ar_id r) (apq_action_request_id a)) requests;
      [(ar_id r, ar_action_type r)])).

Definition _conflicted_payload_hashes (tenant_id process_instance_id : UUID)
    (action_attempt_ids : list UUID) : Tx (list string) :=
  if negb (nonempty action_attempt_ids) then mret []
  else
    attempts ← select (λ a : ActionAttempt, eqb (aa_tenant_id a) tenant_id
      && eqb (aa_process_instance_id a) process_instance_id
      && bool_decide (aa_id a ∈ action_attempt_ids) && eqb (aa_status a) AT_CONFLICT);
    requests ← select (λ _ : ActionRequest, true);
    revisions ← select (λ _ : ActionRevision, true);
    mret (
      a ← attempts;
      r ← List.filter (λ r, eqb (ar_id r) (aa_action_request_id a) && eqb (ar_tenant_id r) (aa_tenant_id a)
                            && eqb (ar_process_instance_id r) (aa_process_instance_id a)) requests;
      v ← List.filter (λ v, eqb (arv_action_request_id v) (aa_action_request_id a)
                            && (arv_revision v =? aa_revision a) && eqb (arv_tenant_id v) (aa_tenant_id a)
                            && eqb (arv_process_instance_id v) (aa_process_instance_id a)) revisions;
      [action_payload_identity (ar_action_type r) (arv_parameters v)]).

(** ** Gates *)

(** [f"circuit breaker open ({scope}): {reason}"] *)
Definition breaker_open (b : BreakerState) : string :=
  "circuit breaker open (" +:+ breaker_scope_value (bs_scope b) +:+ "): " +:+ bs_reason b.

Definition raise_if_open (b : option BreakerState) : Tx unit :=
  match b with Some b => tx_raise ActionPersistenceConflict (breaker_open b) | None => mret tt end.

Definition _enforce_capability_breakers (tenant_id : UUID) (action_type : string) : Tx unit :=
  opened ← open_for_capability tenant_id action_type; raise_if_open opened.

(** The pause switch of the gateway, and the policies a call passes to it: the
    communication policy comes with the time of the turn. *)
Record Gateway := mkGateway {
  gw_platform_outbound_paused : bool;
  gw_policy : ConfiguredActionPolicy;
  gw_communication : option (CommunicationPolicy * datetime)
}.

Definition _enforce_outbound_breakers (g : Gateway) (tenant_id : UUID) : Tx unit :=
  _ ← tx_raise_if (gw_platform_outbound_paused g) ActionPersistenceConflict
        "platform outbound messaging is paused";
  opened ← open_for_outbound tenant_id; raise_if_open opened.

Definition _enforce_communication_policy `{Zones} (tenant_id : UUID) (process : ProcessInstance)
    (policy : CommunicationPolicy) (workflow_now : datetime) : Tx unit :=
  translate (λ e, if bool_decide (exn_cls e = CommunicationSafetyBlocked)
                  then Some (ActionPersistenceConflict, exn_msg e) else None)
    (snapshot ← inspect tenant_id process policy workflow_now None;
     lift_result (require_allowed snapshot)).

(** ** One action *)

(** The rows of an action, by their keys. *)
Definition is_turn_action (k : TurnKey) (key : string) (r : ActionRequest) : bool :=
  eqb (ar_tenant_id r) (tk_tenant_id k) && eqb (ar_process_instance_id r) (tk_process_instance_id k)
  && eqb (ar_agent_turn_id r) (tk_agent_turn_id k) && eqb (ar_logical_action_key r) key.
Definition is_first_revision (k : TurnKey) (request_id : UUID) (v : ActionRevision) : bool :=
  eqb (arv_tenant_id v) (tk_tenant_id k) && eqb (arv_process_instance_id v) (tk_process_instance_id k)
  && eqb (arv_action_request_id v) request_id && (arv_revision v =? 1).
Definition is_first_policy (k : TurnKey) (request_id : UUID) (p : ActionPolicyRecord) : bool :=
  eqb (apr_tenant_id p) (tk_tenant_id k) && eqb (apr_process_instance_id p) (tk_process_instance_id k)
  && eqb (apr_action_request_id p) request_id && (apr_revision p =? 1).
Definition is_first_approval (k : TurnKey) (request_id : UUID) (a : ApprovalRequest) : bool :=
  eqb (apq_tenant_id a) (tk_tenant_id k) && eqb (apq_process_instance_id a) (tk_process_instance_id k)
  && eqb (apq_action_request_id a) request_id && (apq_revision a =? 1).
Definition is_thread_of (k : TurnKey) (approval_id : UUID) (t : ReviewThread) : bool :=
  eqb (rt_tenant_id t) (tk_tenant_id k) && eqb (rt_process_instance_id t) (tk_process_instance_id k)
  && eqb (rt_approval_request_id t) approval_id.

(** The rows that are inserted. *)
Definition new_request (k : TurnKey) (a : ActionProposal) (status : ActionRequestStatus)
    (supersedes : option UUID) (now : Z) : ActionRequest :=
  mkActionRequest (ap_action_request_id a) (tk_tenant_id k) (tk_process_instance_id k) (tk_agent_turn_id k)
    (ap_logical_action_key a) (ap_action_type a) (tk_definition_version k) supersedes 1 status now.
Definition new_revision (id : UUID) (k : TurnKey) (d : AgentDecision) (a : ActionProposal)
    (request_id : UUID) (now : Z) : ActionRevision :=
  mkActionRevision id (tk_tenant_id k) (tk_process_instance_id k) request_id 1 (ap_parameters a)
    (action_payload_hash a) (ap_rationale a) (str_uuid <$> ad_based_on_event_ids d)
    (str_uuid <$> ad_based_on_review_command_ids d) (str_uuid <$> ad_based_on_action_attempt_ids d)
    (ad_based_on_timer_ids d) now.
Definition new_policy_record (id : UUID) (k : TurnKey) (p : ActionPolicyDecision) (request_id : UUID)
    (now : Z) : ActionPolicyRecord :=
  mkActionPolicyRecord id (tk_tenant_id k) (tk_process_instance_id k) request_id 1 (apd_outcome p)
    (apd_policy_version p) (apd_reason p) now.
Definition new_approval (id : UUID) (k : TurnKey) (request_id : UUID) (payload_hash : string) (now : Z)
  : ApprovalRequest :=
  mkApprovalRequest id (tk_tenant_id k) (tk_process_instance_id k) request_id 1 payload_hash AP_PENDING
    None None now.
Definition new_thread (id : UUID) (k : TurnKey) (approval_id : UUID) (now : Z) : ReviewThread :=
  mkReviewThread id (tk_tenant_id k) (tk_process_instance_id k) approval_id TH_OPEN now.

(** [session.execute(insert(...).values(...).on_conflict_do_nothing(...))] and the
    [session.scalar(select(...))] that reads the row back. *)
Definition insert_and_read {R} `{Table R} (named : R → R → bool) (r : R) (q : R → bool)
  : Tx (option UUID * option R) :=
  inserted_id ← insert_or_skip named r;
  stored ← scalar q;
  mret (inserted_id, stored).

(** The row that a statement with server-generated id and timestamp inserts. *)
Definition insert_new {R} `{Table R} (named : R → R → bool) (r : UUID → Z → R) (q : R → bool)
  : Tx (option R) :=
  id ← draw_uuid;
  now ← transaction_now;
  '(_, stored) ← insert_and_read named (r id now) q;
  mret stored.

(** The approval bound to the payload, and its review thread. *)
Definition persist_approval (k : TurnKey) (request_id : UUID) (payload_hash : string) : Tx (UUID * UUID) :=
  approval ← insert_new same_approval (λ id now, new_approval id k request_id payload_hash now)
               (is_first_approval k request_id);
  match approval with
  | Some a =>
      _ ← tx_raise_if (negb (eqb (apq_payload_hash a) payload_hash)) ActionPersistenceConflict
            "approval is not bound to the current payload";
      thread ← insert_new same_thread (λ id now, new_thread id k (apq_id a) now) (is_thread_of k (apq_id a));
      match thread with
      | Some t => mret (apq_id a, rt_id t)
      | None => tx_raise ActionPersistenceConflict "approval review thread was not persisted"
      end
  | None => tx_raise ActionPersistenceConflict "approval is not bound to the current payload"
  end.

Definition _persist_action (g : Gateway) (k : TurnKey) (d : AgentDecision) (supersedes : option UUID)
    (a : ActionProposal) : Tx PersistedAction :=
  _ ← lift_result (rewrap_value_error ActionPersistenceConflict
        (require_action_parameters (ap_parameters a) "action parameters" DEFAULT_PLATFORM_SAFETY_LIMITS));
  let policy_decision := evaluate (gw_policy g) a in
  let status := initial_action_request_status (apd_outcome policy_decision) in
  now ← transaction_now;
  '(inserted_id, request) ← insert_and_read same_turn_key (new_request k a status supersedes now)
                              (is_turn_action k (ap_logical_action_key a));
  match request with
  | None => tx_raise ActionPersistenceConflict "action request identity could not be reserved"
  | Some request =>
      _ ← tx_raise_if (negb (eqb (ar_action_type request) (ap_action_type a))) ActionPersistenceConflict
            "logical action key was reused for another action type";
      _ ← tx_raise_if (negb (eqb (ar_supersedes_action_request_id request) supersedes))
            ActionPersistenceConflict "action revision lineage changed during replay";
      let payload_hash := action_payload_hash a in
      revision ← insert_new same_revision (λ id now, new_revision id k d a (ar_id request) now)
                   (is_first_revision k (ar_id request));
      _ ← tx_raise_if (match revision with Some v => negb (eqb (arv_payload_hash v) payload_hash)
                                      | None => true end)
            ActionPersistenceConflict "action revision identity was reused for another payload";
      stored_policy ← insert_new same_policy
                        (λ id now, new_policy_record id k policy_decision (ar_id request) now)
                        (is_first_policy k (ar_id request));
      match stored_policy with
      | None => tx_raise ActionPersistenceConflict "action policy decision was not persisted"
      | Some p =>
          '(approval_id, review_thread_id) ←
            match apr_outcome p with
            | REQUIRE_APPROVAL =>
                '(approval, thread) ← persist_approval k (ar_id request) payload_hash;
                mret (Some approval, Some thread)
            | _ => mret (None, None)
            end;
          _ ← tx_raise_if (bool_decide (is_Some inserted_id) && negb (eqb (ar_status request) status))
                ActionPersistenceConflict "new action request has an unexpected status";
          mret (mkPersisted (ar_id request) 1 payload_hash (apr_outcome p) (ar_status request)
                  approval_id review_thread_id)
      end
  end.

(** ** The decision *)

(** [matching_targets[0] if matching_targets else None] *)
Definition superseded (targets : list (UUID * string)) (used : list UUID) (action_type : string)
  : option UUID :=
  fst <$> List.find (λ rt, eqb (snd rt) action_type && negb (bool_decide (fst rt ∈ used))) targets.

(** The gates a new action passes; a replayed one passed them before. *)
Definition gate_new_action `{Zones} (g : Gateway) (k : TurnKey) (process : ProcessInstance)
    (conflicted : list string) (a : ActionProposal) : Tx unit :=
  _ ← tx_raise_if (member (action_payload_hash a) conflicted) ActionPersistenceConflict
        "decision repeats an action payload that just returned a definitive conflict";
  _ ← _enforce_capability_breakers (tk_tenant_id k) (ap_action_type a);
  match gw_communication g with
  | Some (policy, workflow_now) =>
      if member (ap_action_type a) (cp_outbound_action_types policy) then
        _ ← _enforce_communication_policy (tk_tenant_id k) process policy workflow_now;
        _enforce_outbound_breakers g (tk_tenant_id k)
      else mret tt
  | None => mret tt
  end.

(** [for action in decision.actions] *)
Fixpoint persist_actions `{Zones} (g : Gateway) (k : TurnKey) (process : ProcessInstance) (d : AgentDecision)
    (targets : list (UUID * string)) (conflicted : list string) (used : list UUID)
    (actions : list ActionProposal) : Tx (list PersistedAction) :=
  match actions with
  | [] => mret []
  | a :: actions =>
      existing ← scalar (is_turn_action k (ap_logical_action_key a));
      _ ← match existing with
          | None => gate_new_action g k process conflicted a
          | Some _ => mret tt
          end;
      let supersedes := superseded targets used (ap_action_type a) in
      persisted ← _persist_action g k d supersedes a;
      rest ← persist_actions g k process d targets conflicted (option_list supersedes ++ used) actions;
      mret (persisted :: rest)
  end.

(** [ActionGateway.persist_decision] *)
Definition persist_decision `{Zones} (server_order : list (UUID * string) → list (UUID * string))
    (g : Gateway) (k : TurnKey) (d : AgentDecision) : Tx (list PersistedAction) :=
  let tenant_id := tk_tenant_id k in
  let process_instance_id := tk_process_instance_id k in
  _ ← set_tenant_context tenant_id;
  found ← scalar (is_process tenant_id process_instance_id);
  match found with
  | None => tx_raise ActionPersistenceConflict "process instance not found"
  | Some process =>
      _ ← tx_raise_if (is_halted (pi_status process)) ActionPersistenceConflict
            ("process state does not permit new actions: " +:+ process_status_value (pi_status process));
      _ ← match gw_communication g with
          | Some (policy, workflow_now) =>
              lifetime_block ← lift_result (process_lifetime_block process policy workflow_now);
              match lifetime_block with
              | Some b => tx_raise ActionPersistenceConflict (cb_message b)
              | None => mret tt
              end
          | None => mret tt
          end;
      halted ← latest tenant_id ALL "";
      _ ← match open_state halted with
          | Some b => tx_raise ActionPersistenceConflict ("circuit breaker open (all): " +:+ bs_reason b)
          | None => mret tt
          end;
      targets ← _revision_targets server_order tenant_id process_instance_id
                  (ad_based_on_review_command_ids d);
      conflicted ← _conflicted_payload_hashes tenant_id process_instance_id
                     (ad_based_on_action_attempt_ids d);
      persist_actions g k process d targets conflicted [] (ad_actions d)
  end.
