(* ===== verification/GatewayFacts.v ===== *)
(** * Facts about [actions/gateway.py]

    A replayed decision finds what it stored and changes nothing; a new action
    takes the outcome of the policy and passed the breakers; replays depend on an
    order the query of revision targets does not fix. *)

From stdpp Require Import base gmap list strings sets.
From Stdlib Require Import ZArith Lia.
From S2P Require Import Prelude Python PyTime Json Limits Contracts DecisionPolicy Definitions Communications Schema Session Budgets CommunicationSafety State Gateway.

#[local] Open Scope Z_scope.

(** ** Inserting and reading back *)

Section insert_and_read.
Context {R : Type} `{TableLaws R} (t : UUID) (q : R → bool).
Context (q_tenant : ∀ r, q r = true → row_tenant r = t).

(** The row was there, or it is the one inserted. *)
Inductive read_effect (r : R) (d : Db) : option UUID → R → Db → Prop :=
  | read_found x : hd_error (List.filter q (table d)) = Some x → read_effect r d None x d
  | read_inserted :
      List.filter q (table d) = [] → parents_exist d r = true →
      grows R d (set_table (table d ++ [r]) d) →
      read_effect r d (Some (row_id r)) r (set_table (table d ++ [r]) d).

Lemma read_effect_lookup r d o x d' :
  q r = true → read_effect r d o x d' → hd_error (List.filter q (table d')) = Some x.
Proof.
  intros Hr [y Hy|He _ _]; [done|]. by rewrite table_set, List.filter_app, He; cbn; rewrite Hr.
Qed.

Context (named : R → R → bool).

Lemma existsb_named r xs : (∀ y, named r y = q y) → existsb (named r) xs = negb (bool_decide (List.filter q xs = [])).
Proof.
  intros Hn. induction xs as [|y ys IH]; cbn; [done|]. rewrite Hn. destruct (q y); [done|exact IH].
Qed.

Lemma insert_and_read_ok r s o stored s' :
  s_tenant s = Some t → (∀ y, named r y = q y) → q r = true →
  insert_and_read named r q s = Ok ((o, stored), s') →
  s_tenant s' = Some t ∧ ∃ x, stored = Some x ∧ read_effect r (s_db s) o x (s_db s').
Proof.
  intros Hs Hn Hr H'. unfold insert_and_read in H'.
  apply tx_bind_ok in H' as (o' & s1 & Hi & H'). apply tx_bind_ok in H' as (x & ? & Hx & [[= -> ->] ->]%mret_ok).
  assert (s_tenant s1 = Some t) as Hs1.
  { apply insert_or_skip_ok in Hi as [(_ & _ & ->)|(_ & _ & [_ ->]%insert_ok)]; done. }
  rewrite (scalar_run _ t) in Hx by done. injection Hx as <- ->. split; [done|].
  apply insert_or_skip_ok in Hi as [(He & -> & ->)|(He & -> & [Hv ->]%insert_ok)];
    rewrite (existsb_named r) in He by done.
  - apply negb_true_iff, bool_decide_eq_false in He.
    destruct (List.filter q (table (s_db s))) as [|y ys] eqn:E; [done|]. exists y. split; [done|].
    constructor. by rewrite E.
  - apply negb_false_iff, bool_decide_eq_true in He. exists r. cbn. rewrite table_set, List.filter_app, He.
    cbn. rewrite Hr. split; [done|]. constructor; [done| |by apply grows_insert].
    unfold violates in Hv. apply orb_false_iff in Hv as [[_ Hp]%orb_false_iff _]. by apply negb_false_iff.
Qed.

Lemma insert_and_read_found r s x :
  s_tenant s = Some t → (∀ y, named r y = q y) →
  hd_error (List.filter q (table (s_db s))) = Some x →
  insert_and_read named r q s = Ok ((None, Some x), s).
Proof.
  intros Hs Hn Hx. unfold insert_and_read, mbind, Tx_bind, insert_or_skip. rewrite (existsb_named r) by done.
  rewrite bool_decide_false by (intros E; by rewrite E in Hx). cbn -[scalar].
  by rewrite (scalar_run _ t), Hx by done.
Qed.

Lemma insert_new_ok (r : UUID → Z → R) s stored s' :
  s_tenant s = Some t → (∀ id now y, named (r id now) y = q y) → (∀ id now, q (r id now) = true) →
  insert_new named r q s = Ok (stored, s') →
  s_tenant s' = Some t ∧ ∃ id now x o, stored = Some x ∧ read_effect (r id now) (s_db s) o x (s_db s').
Proof.
  intros Hs Hn Hr H'. unfold insert_new in H'.
  apply tx_bind_ok in H' as (id & ? & [_ ->]%draw_uuid_ok & H').
  apply tx_bind_ok in H' as (now & ? & [_ ->]%transaction_now_ok & H').
  apply tx_bind_ok in H' as ([o st] & ? & Hi & [-> ->]%mret_ok).
  apply insert_and_read_ok in Hi; [|done..]. destruct Hi as [? (y & ? & ?)]. eauto 10.
Qed.

Lemma insert_new_found (r : UUID → Z → R) s x :
  s_tenant s = Some t → (∀ id now y, named (r id now) y = q y) →
  hd_error (List.filter q (table (s_db s))) = Some x →
  ∃ s', insert_new named r q s = Ok (Some x, s') ∧ s_db s' = s_db s ∧ s_tenant s' = Some t.
Proof.
  intros Hs Hn Hx. unfold insert_new, mbind, Tx_bind. cbn -[insert_and_read].
  erewrite insert_and_read_found by done. by eexists.
Qed.
End insert_and_read.

(** ** What the gateway writes *)

(** The tables the gateway appends to, and those it reads only. *)
Record Extends (d d' : Db) : Prop := {
  ext_requests : grows ActionRequest d d';
  ext_revisions : grows ActionRevision d d';
  ext_policies : grows ActionPolicyRecord d d';
  ext_approvals : grows ApprovalRequest d d';
  ext_threads : grows ReviewThread d d';
  ext_processes : process_instances d' = process_instances d;
  ext_messages : review_messages d' = review_messages d;
  ext_attempts : action_attempts d' = action_attempts d;
  ext_breakers : circuit_breakers d' = circuit_breakers d
}.

Lemma extends_refl d : Extends d d.
Proof. split; try done; by apply grows_same. Qed.
Lemma extends_trans d1 d2 d3 : Extends d1 d2 → Extends d2 d3 → Extends d1 d3.
Proof. intros [] []. split; try (by eapply grows_trans); congruence. Qed.

(** Each row type the gateway inserts. *)
Ltac extends_by_read :=
  let E := fresh in intros E; destruct E as [x Hx|He Hp Hg]; [apply extends_refl|];
  split; try exact Hg; try (by apply grows_same); done.

Lemma request_read_extends q r d o x d' : read_effect (R:=ActionRequest) q r d o x d' → Extends d d'.
Proof. extends_by_read. Qed.
Lemma revision_read_extends q r d o x d' : read_effect (R:=ActionRevision) q r d o x d' → Extends d d'.
Proof. extends_by_read. Qed.
Lemma policy_read_extends q r d o x d' : read_effect (R:=ActionPolicyRecord) q r d o x d' → Extends d d'.
Proof. extends_by_read. Qed.
Lemma approval_read_extends q r d o x d' : read_effect (R:=ApprovalRequest) q r d o x d' → Extends d d'.
Proof. extends_by_read. Qed.
Lemma thread_read_extends q r d o x d' : read_effect (R:=ReviewThread) q r d o x d' → Extends d d'.
Proof. extends_by_read. Qed.
Create HintDb gateway.
#[export] Hint Resolve extends_refl extends_trans request_read_extends revision_read_extends
  policy_read_extends approval_read_extends thread_read_extends : gateway.

(** The rows that back a persisted action. *)
Definition stored_request (d : Db) (k : TurnKey) (key : string) : option ActionRequest :=
  hd_error (List.filter (is_turn_action k key) (action_requests d)).
Definition stored_revision (d : Db) (k : TurnKey) (id : UUID) : option ActionRevision :=
  hd_error (List.filter (is_first_revision k id) (action_revisions d)).
Definition stored_policy (d : Db) (k : TurnKey) (id : UUID) : option ActionPolicyRecord :=
  hd_error (List.filter (is_first_policy k id) (action_policy_decisions d)).
Definition stored_approval (d : Db) (k : TurnKey) (id : UUID) : option ApprovalRequest :=
  hd_error (List.filter (is_first_approval k id) (approval_requests d)).
Definition stored_thread (d : Db) (k : TurnKey) (approval : UUID) : option ReviewThread :=
  hd_error (List.filter (is_thread_of k approval) (review_threads d)).

(** The approval of an action, bound to its payload, and its thread. *)
Definition approval_stored (d : Db) (k : TurnKey) (request : UUID) (hash : string) (approval thread : UUID)
  : Prop :=
  ∃ a th, stored_approval d k request = Some a ∧ apq_payload_hash a = hash ∧ apq_id a = approval
    ∧ stored_thread d k approval = Some th ∧ rt_id th = thread.

(** A result describes stored rows. *)
Record Stored (k : TurnKey) (a : ActionProposal) (supersedes : option UUID) (d : Db) (pa : PersistedAction)
  : Prop := {
  st_parameters : succeeds (require_action_parameters (ap_parameters a) "action parameters"
                              DEFAULT_PLATFORM_SAFETY_LIMITS);
  st_hash : pa_payload_hash pa = action_payload_hash a;
  st_revision_number : pa_revision pa = 1;
  st_request : ∃ r, stored_request d k (ap_logical_action_key a) = Some r
    ∧ ar_action_type r = ap_action_type a ∧ ar_supersedes_action_request_id r = supersedes
    ∧ ar_id r = pa_action_request_id pa ∧ ar_status r = pa_status pa;
  st_revision : ∃ v, stored_revision d k (pa_action_request_id pa) = Some v
    ∧ arv_payload_hash v = action_payload_hash a;
  st_policy : ∃ p, stored_policy d k (pa_action_request_id pa) = Some p ∧ apr_outcome p = pa_outcome pa;
  st_approval :
    match pa_outcome pa with
    | REQUIRE_APPROVAL => ∃ approval thread,
        pa_approval_request_id pa = Some approval ∧ pa_review_thread_id pa = Some thread
        ∧ approval_stored d k (pa_action_request_id pa) (pa_payload_hash pa) approval thread
    | _ => pa_approval_request_id pa = None ∧ pa_review_thread_id pa = None
    end
}.

Lemma approval_stored_extends d d' k request hash approval thread :
  Extends d d' → approval_stored d k request hash approval thread →
  approval_stored d' k request hash approval thread.
Proof.
  intros E (a & th & Ha & Hh & Hid & Ht & Htid). exists a, th. split_and!; try done.
  - exact (grows_head d d' _ _ (ext_approvals _ _ E) Ha).
  - exact (grows_head d d' _ _ (ext_threads _ _ E) Ht).
Qed.

Lemma stored_extends k a sup d d' pa : Extends d d' → Stored k a sup d pa → Stored k a sup d' pa.
Proof.
  intros E [Hp Hh Hn (r & Hr & ?) (v & Hv & ?) (p & Hpp & ?) Ha]. split; try done.
  - exists r. split; [|done]. exact (grows_head d d' _ _ (ext_requests _ _ E) Hr).
  - exists v. split; [|done]. exact (grows_head d d' _ _ (ext_revisions _ _ E) Hv).
  - exists p. split; [|done]. exact (grows_head d d' _ _ (ext_policies _ _ E) Hpp).
  - destruct (pa_outcome pa); [done|done|]. destruct Ha as (ap & th & ? & ? & ?). exists ap, th.
    split_and!; try done. by eapply approval_stored_extends.
Qed.

(** ** The keys of the rows *)

Section keys.
Context (k : TurnKey).

Lemma turn_action_tenant key r : is_turn_action k key r = true → row_tenant r = tk_tenant_id k.
Proof. revert r. unfold is_turn_action. tenant_first. Qed.
Lemma first_revision_tenant id r : is_first_revision k id r = true → row_tenant r = tk_tenant_id k.
Proof. revert r. unfold is_first_revision. tenant_first. Qed.
Lemma first_policy_tenant id r : is_first_policy k id r = true → row_tenant r = tk_tenant_id k.
Proof. revert r. unfold is_first_policy. tenant_first. Qed.
Lemma first_approval_tenant id r : is_first_approval k id r = true → row_tenant r = tk_tenant_id k.
Proof. revert r. unfold is_first_approval. tenant_first. Qed.
Lemma thread_of_tenant id r : is_thread_of k id r = true → row_tenant r = tk_tenant_id k.
Proof. revert r. unfold is_thread_of. tenant_first. Qed.

Ltac key_eq := intros; cbn -[eqb Z.eqb]; repeat match goal with |- _ && _ = _ && _ => apply f_equal2 end;
  first [apply eqb_sym|apply Z.eqb_sym].

Lemma new_request_key a st sup now y :
  same_turn_key (new_request k a st sup now) y = is_turn_action k (ap_logical_action_key a) y.
Proof. unfold same_turn_key, is_turn_action. key_eq. Qed.
Lemma new_revision_key id d a rid now y :
  same_revision (new_revision id k d a rid now) y = is_first_revision k rid y.
Proof. unfold same_revision, is_first_revision. key_eq. Qed.
Lemma new_policy_key id p rid now y :
  same_policy (new_policy_record id k p rid now) y = is_first_policy k rid y.
Proof. unfold same_policy, is_first_policy. key_eq. Qed.
Lemma new_approval_key id rid h now y :
  same_approval (new_approval id k rid h now) y = is_first_approval k rid y.
Proof. unfold same_approval, is_first_approval. key_eq. Qed.
Lemma new_thread_key id ap now y : same_thread (new_thread id k ap now) y = is_thread_of k ap y.
Proof. unfold same_thread, is_thread_of. key_eq. Qed.

Lemma new_request_is a st sup now : is_turn_action k (ap_logical_action_key a) (new_request k a st sup now) = true.
Proof. unfold is_turn_action. cbn. by rewrite !eqb_refl. Qed.
Lemma new_revision_is id d a rid now : is_first_revision k rid (new_revision id k d a rid now) = true.
Proof. unfold is_first_revision. cbn. by rewrite !eqb_refl. Qed.
Lemma new_policy_is id p rid now : is_first_policy k rid (new_policy_record id k p rid now) = true.
Proof. unfold is_first_policy. cbn. by rewrite !eqb_refl. Qed.
Lemma new_approval_is id rid h now : is_first_approval k rid (new_approval id k rid h now) = true.
Proof. unfold is_first_approval. cbn. by rewrite !eqb_refl. Qed.
Lemma new_thread_is id ap now : is_thread_of k ap (new_thread id k ap now) = true.
Proof. unfold is_thread_of. cbn. by rewrite !eqb_refl. Qed.
End keys.

(** ** Persisting an approval and an action *)

(** An approval and its thread leave the other rows of the action. *)
Definition same_actions (d d' : Db) : Prop :=
  action_requests d' = action_requests d ∧ action_revisions d' = action_revisions d
  ∧ action_policy_decisions d' = action_policy_decisions d.
Lemma approval_read_actions q r d o x d' : read_effect (R:=ApprovalRequest) q r d o x d' → same_actions d d'.
Proof. by destruct 1. Qed.
Lemma thread_read_actions q r d o x d' : read_effect (R:=ReviewThread) q r d o x d' → same_actions d d'.
Proof. by destruct 1. Qed.

Lemma persist_approval_ok k rid hash s ap th s' :
  s_tenant s = Some (tk_tenant_id k) → persist_approval k rid hash s = Ok ((ap, th), s') →
  s_tenant s' = Some (tk_tenant_id k) ∧ Extends (s_db s) (s_db s') ∧ same_actions (s_db s) (s_db s')
  ∧ approval_stored (s_db s') k rid hash ap th.
Proof.
  intros Hs H. unfold persist_approval in H. apply tx_bind_ok in H as (a & s1 & Ha & H).
  apply (insert_new_ok (tk_tenant_id k) _ (first_approval_tenant k rid)) in Ha as [Hs1 (id & now & a' & o & -> & Ha)];
    [|done|intros; apply new_approval_key|intros; apply new_approval_is].
  apply tx_bind_ok in H as ([] & ? & [Hh%negb_false_iff%eqb_true ->]%tx_raise_if_ok & H).
  apply tx_bind_ok in H as (b & s2 & Hb & H).
  apply (insert_new_ok (tk_tenant_id k) _ (thread_of_tenant k (apq_id a'))) in Hb
    as [Hs2 (id2 & now2 & b' & o2 & -> & Hb)]; [|done|intros; apply new_thread_key|intros; apply new_thread_is].
  apply mret_ok in H as [[= -> ->] ->].
  apply read_effect_lookup in Ha as Hla; [|apply new_approval_is].
  apply read_effect_lookup in Hb as Hlb; [|apply new_thread_is].
  apply approval_read_actions in Ha as Hra. apply thread_read_actions in Hb as Hrb.
  apply approval_read_extends in Ha. apply thread_read_extends in Hb.
  split; [done|]. split; [by eapply extends_trans|].
  split; [unfold same_actions in *; destruct_and!; split_and!; congruence|]. exists a', b'. split_and!; try done.
  exact (grows_head _ _ _ _ (ext_approvals _ _ Hb) Hla).
Qed.

Lemma persist_approval_found k rid hash s ap th :
  s_tenant s = Some (tk_tenant_id k) → approval_stored (s_db s) k rid hash ap th →
  ∃ s', persist_approval k rid hash s = Ok ((ap, th), s') ∧ s_db s' = s_db s
    ∧ s_tenant s' = Some (tk_tenant_id k).
Proof.
  intros Hs (a & b & Ha & Hh & <- & Hb & <-). unfold persist_approval, mbind at 1, Tx_bind at 1.
  destruct (insert_new_found (tk_tenant_id k) _ (first_approval_tenant k rid) same_approval
    (λ id now, new_approval id k rid hash now) s a) as (s1 & -> & Hd1 & Hs1);
    [done|intros; apply new_approval_key|done|].
  unfold mbind at 1, Tx_bind at 1. rewrite Hh, eqb_refl. cbn -[insert_new].
  unfold mbind at 1, Tx_bind at 1.
  destruct (insert_new_found (tk_tenant_id k) _ (thread_of_tenant k (apq_id a)) same_thread
    (λ id now, new_thread id k (apq_id a) now) s1 b) as (s2 & -> & Hd2 & Hs2);
    [done|intros; apply new_thread_key|by rewrite Hd1|].
  eexists. split; [reflexivity|]. by rewrite Hd2, Hd1.
Qed.

(** What a successful call did: the rows it describes are stored, and a request
    that it inserted has the status of the policy's outcome. *)
Record ActionEffect (g : Gateway) (k : TurnKey) (a : ActionProposal) (sup : option UUID)
    (d d' : Db) (pa : PersistedAction) : Prop := {
  ae_extends : Extends d d';
  ae_stored : Stored k a sup d' pa;
  ae_requests : action_requests d' = action_requests d
    ∨ stored_request d k (ap_logical_action_key a) = None
      ∧ ∃ now, action_requests d' = action_requests d
          ++ [new_request k a (initial_action_request_status (apd_outcome (evaluate (gw_policy g) a))) sup now];
  ae_revisions : integral ActionRevision d → integral ActionRevision d';
  ae_policies : integral ActionPolicyRecord d → integral ActionPolicyRecord d';
  ae_fresh : stored_request d k (ap_logical_action_key a) = None →
    integral ActionRevision d → integral ActionPolicyRecord d →
    pa_outcome pa = apd_outcome (evaluate (gw_policy g) a)
    ∧ pa_status pa = initial_action_request_status (pa_outcome pa)
}.

Lemma existsb_grows {R} `{Table R} d d' (q : R → bool) :
  grows R d d' → existsb q (table d) = true → existsb q (table d') = true.
Proof. intros (new & -> & _) E. by rewrite existsb_app, E. Qed.

(** A step keeps the rows of [R] in order if it keeps their table and their parents,
    or appends a row whose parents are there. *)
Lemma integral_kept {R} `{TableLaws R} d d' :
  table (R:=R) d' = table d → (∀ r : R, parents_exist d r = true → parents_exist d' r = true) →
  integral R d → integral R d'.
Proof. unfold integral. intros -> Hp Hi. eapply Forall_impl; [exact Hi|]. done. Qed.
Lemma integral_read {R} `{TableLaws R} q (r : R) d o x d' :
  (∀ rs y, parents_exist (set_table (R:=R) rs d) y = parents_exist d y) →
  read_effect q r d o x d' → integral R d → integral R d'.
Proof.
  intros Hp [y _|_ Hr _]; [done|]. unfold integral. rewrite table_set, Forall_app. intros Hi.
  split; [|constructor; [|constructor]]; [|by rewrite Hp].
  eapply Forall_impl; [exact Hi|]. intros y. by rewrite Hp.
Qed.

Lemma revision_parents d d' (v : ActionRevision) :
  Extends d d' → parents_exist d v = true → parents_exist d' v = true.
Proof. intros E. exact (existsb_grows d d' _ (ext_requests _ _ E)). Qed.
Lemma policy_parents d d' (p : ActionPolicyRecord) :
  Extends d d' → parents_exist d p = true → parents_exist d' p = true.
Proof. intros E. exact (existsb_grows d d' _ (ext_revisions _ _ E)). Qed.

(** No policy record refers to a request that is not stored. *)
Lemma no_policy_without_request d k id :
  integral ActionRevision d → integral ActionPolicyRecord d →
  Forall (λ r, ar_id r ≠ id) (action_requests d) →
  List.filter (is_first_policy k id) (action_policy_decisions d) = [].
Proof.
  intros Hv Hp Hr. apply filter_nil. intros p Hin. apply not_true_iff_false. intros Hp'.
  unfold is_first_policy in Hp'. rewrite !andb_true_iff in Hp'. destruct Hp' as [[_ E%eqb_true] _].
  unfold integral in *. rewrite Forall_forall in Hv. rewrite Forall_forall in Hp. rewrite Forall_forall in Hr. specialize (Hp p Hin). cbn in Hp.
  unfold revision_exists in Hp. apply existsb_exists in Hp as (v & Hvin & Hv').
  rewrite !andb_true_iff in Hv'. destruct Hv' as [[_ E2%eqb_true] _].
  apply list_elem_of_In in Hvin. specialize (Hv v Hvin). cbn in Hv. unfold request_exists in Hv.
  apply existsb_exists in Hv as (r & Hrin & Hr'). rewrite !andb_true_iff in Hr'. destruct Hr' as [_ E3%eqb_true].
  apply list_elem_of_In in Hrin. apply (Hr r Hrin). congruence.
Qed.

(** The statuses and the approval that the last part of [_persist_action] returns. *)
Definition approval_part (k : TurnKey) (p : ActionPolicyRecord) (rid : UUID) (hash : string)
  : Tx (option UUID * option UUID) :=
  match apr_outcome p with
  | REQUIRE_APPROVAL => '(approval, thread) ← persist_approval k rid hash; mret (Some approval, Some thread)
  | _ => mret (None, None)
  end.

Lemma approval_part_ok k p rid hash s ap th s' :
  s_tenant s = Some (tk_tenant_id k) → approval_part k p rid hash s = Ok ((ap, th), s') →
  s_tenant s' = Some (tk_tenant_id k) ∧ Extends (s_db s) (s_db s') ∧ same_actions (s_db s) (s_db s')
  ∧ match apr_outcome p with
    | REQUIRE_APPROVAL => ∃ a t, ap = Some a ∧ th = Some t ∧ approval_stored (s_db s') k rid hash a t
    | _ => ap = None ∧ th = None
    end.
Proof.
  intros Hs H. unfold approval_part in H. destruct (apr_outcome p) eqn:Ep.
  1,2: apply mret_ok in H as [[= -> ->] ->]; split_and!; try done; apply extends_refl.
  apply tx_bind_ok in H as ([a t] & s1 & Ha & [[= -> ->] ->]%mret_ok).
  apply persist_approval_ok in Ha as (? & ? & ? & ?); [|done]. eauto 10.
Qed.

Lemma approval_part_found k p rid hash s ap th :
  s_tenant s = Some (tk_tenant_id k) →
  match apr_outcome p with
  | REQUIRE_APPROVAL => ∃ a t, ap = Some a ∧ th = Some t ∧ approval_stored (s_db s) k rid hash a t
  | _ => ap = None ∧ th = None
  end →
  ∃ s', approval_part k p rid hash s = Ok ((ap, th), s') ∧ s_db s' = s_db s
    ∧ s_tenant s' = Some (tk_tenant_id k).
Proof.
  intros Hs H. unfold approval_part. destruct (apr_outcome p).
  1,2: destruct H as [-> ->]; by eexists.
  destruct H as (a & t & -> & -> & H). apply persist_approval_found in H as (s' & H & ? & ?); [|done].
  exists s'. unfold mbind, Tx_bind. by rewrite H.
Qed.

(** The rows each read leaves, beside its own table. *)
Lemma request_read_actions q r d o x d' : read_effect (R:=ActionRequest) q r d o x d' →
  action_revisions d' = action_revisions d ∧ action_policy_decisions d' = action_policy_decisions d.
Proof. by destruct 1. Qed.
Lemma revision_read_actions q r d o x d' : read_effect (R:=ActionRevision) q r d o x d' →
  action_requests d' = action_requests d ∧ action_policy_decisions d' = action_policy_decisions d.
Proof. by destruct 1. Qed.
Lemma policy_read_actions q r d o x d' : read_effect (R:=ActionPolicyRecord) q r d o x d' →
  action_requests d' = action_requests d ∧ action_revisions d' = action_revisions d.
Proof. by destruct 1. Qed.

(** The steps of [_persist_action]: the request, its revision, its policy record and
    the approval. *)
Section steps.
Context {k : TurnKey} {d d1 d2 d3 d4 : Db} {q1 : ActionRequest → bool} {q2 : ActionRevision → bool}
  {q3 : ActionPolicyRecord → bool} {rq r : ActionRequest} {rv v : ActionRevision}
  {po p : ActionPolicyRecord} {o1 o2 o3 : option UUID}.
Context (R1 : read_effect q1 rq d o1 r d1) (R2 : read_effect q2 rv d1 o2 v d2)
  (R3 : read_effect q3 po d2 o3 p d3) (E4 : Extends d3 d4) (A4 : same_actions d3 d4).

Let E1 : Extends d d1 := request_read_extends _ _ _ _ _ _ R1.
Let E2 : Extends d1 d2 := revision_read_extends _ _ _ _ _ _ R2.
Let E3 : Extends d2 d3 := policy_read_extends _ _ _ _ _ _ R3.

Lemma steps_extend : Extends d1 d4 ∧ Extends d2 d4 ∧ Extends d d4.
Proof.
  assert (Extends d2 d4) as E24 by exact (extends_trans _ _ _ E3 E4).
  assert (Extends d1 d4) as E14 by exact (extends_trans _ _ _ E2 E24).
  split_and!; [done..|]. exact (extends_trans _ _ _ E1 E14).
Qed.

Lemma steps_requests : action_requests d4 = action_requests d1.
Proof.
  destruct A4 as (-> & _), (policy_read_actions _ _ _ _ _ _ R3) as [-> _].
  apply (revision_read_actions _ _ _ _ _ _ R2).
Qed.

Lemma steps_integral_revisions : integral ActionRevision d → integral ActionRevision d4.
Proof.
  intros H. apply (integral_kept d3); [apply A4|intros x; by apply revision_parents|].
  apply (integral_kept d2); [apply (policy_read_actions _ _ _ _ _ _ R3)|intros x; by apply revision_parents|].
  apply (integral_read (R:=ActionRevision) _ _ _ _ _ _ ltac:(done) R2).
  apply (integral_kept d); [apply (request_read_actions _ _ _ _ _ _ R1)|intros x; by apply revision_parents|done].
Qed.

Lemma steps_integral_policies : integral ActionPolicyRecord d → integral ActionPolicyRecord d4.
Proof.
  intros H. apply (integral_kept d3); [apply A4|intros x; by apply policy_parents|].
  apply (integral_read (R:=ActionPolicyRecord) _ _ _ _ _ _ ltac:(done) R3).
  apply (integral_kept d1); [apply (revision_read_actions _ _ _ _ _ _ R2)|intros x; by apply policy_parents|].
  apply (integral_kept d); [apply (request_read_actions _ _ _ _ _ _ R1)|intros x; by apply policy_parents|done].
Qed.

(** A policy record found for a new request would have had no parents. *)
Lemma steps_fresh_policy :
  q3 = is_first_policy k (ar_id r) → List.filter q1 (action_requests d) = [] →
  integral ActionRevision d → integral ActionPolicyRecord d → r = rq ∧ p = po.
Proof.
  clear E1 E2 E3 E4 A4. intros -> Hno Hv Hp. destruct R1 as [x Hx|_ _ (new & Hnew & Hids)].
  { cbn in Hx. by rewrite Hno in Hx. }
  split; [done|]. destruct R3 as [x Hx|]; [|done]. exfalso.
  assert (table (R:=ActionPolicyRecord) d2 = action_policy_decisions d) as Hd.
  { cbn. by destruct (revision_read_actions _ _ _ _ _ _ R2) as [_ ->]. }
  rewrite Hd in Hx. cbn in Hnew. apply app_inv_head in Hnew as <-. inversion_clear Hids as [|? ? Hall _].
  by rewrite (no_policy_without_request d k (ar_id rq)) in Hx.
Qed.
End steps.

Lemma persist_action_ok g k d sup a s pa s' :
  s_tenant s = Some (tk_tenant_id k) → _persist_action g k d sup a s = Ok (pa, s') →
  s_tenant s' = Some (tk_tenant_id k) ∧ ActionEffect g k a sup (s_db s) (s_db s') pa.
Proof.
  intros Hs H. unfold _persist_action in H. cbn zeta in H.
  apply tx_bind_ok in H as ([] & ? & [Hpar%rewrap_ok ->]%lift_result_ok & H).
  apply tx_bind_ok in H as (now & ? & [_ ->]%transaction_now_ok & H).
  apply tx_bind_ok in H as ([ins rq] & s1 & Hrq & H).
  apply (insert_and_read_ok (tk_tenant_id k) _ (turn_action_tenant k (ap_logical_action_key a))) in Hrq
    as [Hs1 (r & -> & Hrq)]; [|done|intros; apply new_request_key|apply new_request_is].
  apply tx_bind_ok in H as ([] & ? & [Hty%negb_false_iff%eqb_true ->]%tx_raise_if_ok & H).
  apply tx_bind_ok in H as ([] & ? & [Hsup%negb_false_iff%eqb_true ->]%tx_raise_if_ok & H).
  apply tx_bind_ok in H as (rv & s2 & Hrv & H).
  apply (insert_new_ok (tk_tenant_id k) _ (first_revision_tenant k (ar_id r))) in Hrv
    as [Hs2 (id2 & now2 & v & o2 & -> & Hrv)]; [|done|intros; apply new_revision_key|intros; apply new_revision_is].
  apply tx_bind_ok in H as ([] & ? & [Hhash%negb_false_iff%eqb_true ->]%tx_raise_if_ok & H).
  apply tx_bind_ok in H as (po & s3 & Hpo & H).
  apply (insert_new_ok (tk_tenant_id k) _ (first_policy_tenant k (ar_id r))) in Hpo
    as [Hs3 (id3 & now3 & p & o3 & -> & Hpo)]; [|done|intros; apply new_policy_key|intros; apply new_policy_is].
  apply tx_bind_ok in H as ([ap th] & s4 & Hap & H). apply (approval_part_ok k p) in Hap as (Hs4 & He4 & Ha4 & Hap);
    [|done].
  apply tx_bind_ok in H as ([] & ? & [Hst ->]%tx_raise_if_ok & [-> ->]%mret_ok).
  split; [done|]. destruct (steps_extend Hrq Hrv Hpo He4) as (E1 & E2 & E).
  split.
  - done.
  - split; cbn; try done.
    + by exists tt.
    + exists r. split_and!; try done. apply (grows_head _ _ _ _ (ext_requests _ _ E1)).
      by apply read_effect_lookup in Hrq; [|apply new_request_is].
    + exists v. split; [|done]. apply (grows_head _ _ _ _ (ext_revisions _ _ E2)).
      by apply read_effect_lookup in Hrv; [|apply new_revision_is].
    + exists p. split; [|done]. apply (grows_head _ _ _ _ (ext_policies _ _ He4)).
      by apply read_effect_lookup in Hpo; [|apply new_policy_is].
  - rewrite (steps_requests Hrv Hpo Ha4).
    unfold stored_request. destruct Hrq as [|Hno _ _]; [by left|right]. cbn in *. rewrite Hno. eauto.
  - apply (steps_integral_revisions Hrq Hrv Hpo He4 Ha4).
  - apply (steps_integral_policies Hrq Hrv Hpo He4 Ha4).
  - unfold stored_request. intros Hno%hd_filter_None Hv Hp. cbn.
    rewrite Forall_forall in Hno. apply filter_nil in Hno.
    destruct (steps_fresh_policy Hrq Hrv Hpo eq_refl Hno Hv Hp) as [-> ->].
    done.
Qed.

(** A stored action is found again, under any policy. *)
Lemma persist_action_replays g k d sup a s pa :
  s_tenant s = Some (tk_tenant_id k) → Stored k a sup (s_db s) pa →
  ∃ s', _persist_action g k d sup a s = Ok (pa, s') ∧ s_db s' = s_db s
    ∧ s_tenant s' = Some (tk_tenant_id k).
Proof.
  intros Hs [([] & Hpar) Hh Hn (r & Hr & Hty & <- & Hid & Hst) (v & Hv & Hvh) (p & Hp & Ho) Hap].
  unfold _persist_action. cbv zeta.
  rewrite (tx_bind_run _ _ s tt s); [|by apply lift_result_ok; rewrite rewrap_ok].
  rewrite (tx_bind_run _ _ s (s_now s) s); [|done].
  rewrite (tx_bind_run _ _ _ _ _ (insert_and_read_found (tk_tenant_id k) _
    (turn_action_tenant k (ap_logical_action_key a)) same_turn_key _ s r Hs (new_request_key k _ _ _ _) Hr)).
  rewrite (tx_bind_run _ _ s tt s) by (apply tx_raise_if_run; by rewrite Hty, eqb_refl).
  rewrite (tx_bind_run _ _ s tt s) by (apply tx_raise_if_run; by rewrite eqb_refl).
  rewrite <- Hid in Hv, Hp, Hap.
  destruct (insert_new_found (tk_tenant_id k) _ (first_revision_tenant k (ar_id r)) same_revision
    (λ id now, new_revision id k d a (ar_id r) now) s v) as (s2 & H2 & Hd2 & Hs2);
    [done|intros; apply new_revision_key|done|]. rewrite (tx_bind_run _ _ _ _ _ H2).
  rewrite (tx_bind_run _ _ s2 tt s2) by (apply tx_raise_if_run; by rewrite Hvh, eqb_refl).
  destruct (insert_new_found (tk_tenant_id k) _ (first_policy_tenant k (ar_id r)) same_policy
    (λ id now, new_policy_record id k (evaluate (gw_policy g) a) (ar_id r) now) s2 p) as (s3 & H3 & Hd3 & Hs3);
    [done|intros; apply new_policy_key|by rewrite Hd2|]. rewrite (tx_bind_run _ _ _ _ _ H3).
  destruct (approval_part_found k p (ar_id r) (action_payload_hash a) s3 (pa_approval_request_id pa)
    (pa_review_thread_id pa)) as (s4 & H4 & Hd4 & ?); [done| |].
  { rewrite Ho, Hd3, Hd2, <- Hh. destruct (pa_outcome pa); [done|done|]. naive_solver. }
  rewrite (tx_bind_run (approval_part k p (ar_id r) (action_payload_hash a)) _ _ _ _ H4).
  exists s4. rewrite Hd4, Hd3, Hd2. split; [|done].
  rewrite (tx_bind_run _ _ s4 tt s4) by by apply tx_raise_if_run.
  unfold mret, Tx_ret. rewrite Ho, Hst, Hid, <- Hn, <- Hh. by destruct pa.
Qed.

(** ** The loop over the actions *)

Section gates.
Context `{Zones}.

Lemma reads_raise_if_open t b : reads_only t (raise_if_open b).
Proof. unfold raise_if_open. reads. Qed.
#[local] Hint Resolve reads_raise_if_open : reads.
Lemma reads_gate g k process conflicted a :
  reads_only (tk_tenant_id k) (gate_new_action g k process conflicted a).
Proof.
  unfold gate_new_action, _enforce_capability_breakers, _enforce_communication_policy,
    _enforce_outbound_breakers. reads.
Qed.

(** One action of the loop: the gates of a new one, then its rows. *)
Lemma persist_actions_cons g k process d targets conflicted used a actions s res s' :
  s_tenant s = Some (tk_tenant_id k) →
  persist_actions g k process d targets conflicted used (a :: actions) s = Ok (res, s') →
  ∃ s0 s1 pa rest, let sup := superseded targets used (ap_action_type a) in
    (stored_request (s_db s) k (ap_logical_action_key a) = None →
       gate_new_action g k process conflicted a s = Ok (tt, s0)) ∧
    s_tenant s0 = Some (tk_tenant_id k) ∧ s_db s0 = s_db s
    ∧ s_tenant s1 = Some (tk_tenant_id k) ∧ ActionEffect g k a sup (s_db s) (s_db s1) pa
    ∧ persist_actions g k process d targets conflicted (option_list sup ++ used) actions s1 = Ok (rest, s')
    ∧ res = pa :: rest.
Proof.
  intros Hs Hrun. cbn [persist_actions] in Hrun. apply tx_bind_ok in Hrun as (existing & ? & He & Hrun).
  rewrite (scalar_run _ (tk_tenant_id k)) in He by (done || apply turn_action_tenant). injection He as <- <-.
  apply tx_bind_ok in Hrun as ([] & s0 & Hg & Hrun).
  assert (s_db s0 = s_db s ∧ s_tenant s0 = Some (tk_tenant_id k)) as [Hd0 Hs0].
  { destruct (hd_error _); [apply mret_ok in Hg as [_ ->]; done|].
    apply reads_gate in Hg as [? Ht]. auto. }
  apply tx_bind_ok in Hrun as (pa & s1 & Ha & Hrun). apply persist_action_ok in Ha as [Hs1 Ha]; [|done].
  apply tx_bind_ok in Hrun as (rest & s2 & Hrest & [-> ->]%mret_ok). exists s0, s1, pa, rest.
  rewrite <- Hd0. split_and!; try done. rewrite Hd0. unfold stored_request. cbn in Hg.
  intros E. by rewrite E in Hg.
Qed.

Lemma persist_actions_replays g k process d targets conflicted used actions s res s' :
  s_tenant s = Some (tk_tenant_id k) →
  persist_actions g k process d targets conflicted used actions s = Ok (res, s') →
  s_tenant s' = Some (tk_tenant_id k) ∧ Extends (s_db s) (s_db s') ∧
  ∀ g' process' d' conflicted' later,
    s_tenant later = Some (tk_tenant_id k) → Extends (s_db s') (s_db later) →
    ∃ s'', persist_actions g' k process' d' targets conflicted' used actions later = Ok (res, s'')
      ∧ s_db s'' = s_db later ∧ s_tenant s'' = Some (tk_tenant_id k).
Proof.
  revert used s res. induction actions as [|a actions IH]; intros used s res Hs Hrun.
  { apply mret_ok in Hrun as [-> ->]. split_and!; [done|apply extends_refl|]. intros. by eexists. }
  apply persist_actions_cons in Hrun as (s0 & s1 & pa & rest & _ & _ & _ & Hs1 & [He Hst _ _ _ _] & Hrest & ->);
    [|done].
  apply IH in Hrest as (Hs' & He' & Hlater); [|done].
  split; [done|]. split; [by eapply extends_trans|]. intros g' process' d' conflicted' later Hsl Hel.
  cbn [persist_actions].
  pose proof (stored_extends _ _ _ _ _ _ (extends_trans _ _ _ He' Hel) Hst) as Hst'.
  destruct (st_request _ _ _ _ _ Hst') as (r & Hr & _). unfold stored_request in Hr.
  rewrite (tx_bind_run _ _ later (Some r) later).
  2:{ rewrite (scalar_run _ (tk_tenant_id k)) by (done || apply turn_action_tenant). cbn. by rewrite Hr. }
  rewrite (tx_bind_run _ _ later tt later) by done. cbv zeta.
  destruct (persist_action_replays g' k d' _ a later pa Hsl Hst') as (l1 & Hl1 & Hd1 & Ht1).
  rewrite (tx_bind_run _ _ _ _ _ Hl1).
  destruct (Hlater g' process' d' conflicted' l1 Ht1) as (l2 & Hl2 & Hd2 & Ht2); [by rewrite Hd1|].
  rewrite (tx_bind_run _ _ _ _ _ Hl2). exists l2. rewrite Hd2, Hd1. done.
Qed.
End gates.

(** ** The revision targets *)

(** What the query returns, before the server orders it. *)
Definition targets_of (d : Db) (t p : UUID) (ids : list UUID) : list (UUID * string) :=
  m ← List.filter (λ m : ReviewMessage, eqb (rm_tenant_id m) t && eqb (rm_process_instance_id m) p
        && bool_decide (rm_id m ∈ ids) && eqb (rm_message_type m) RC_REQUEST_REVISION) (review_messages d);
  th ← List.filter (λ th : ReviewThread, (eqb (Some t) (Some (rt_tenant_id th)) && true)
        && eqb (rt_id th) (rm_review_thread_id m)) (review_threads d);
  a ← List.filter (λ a : ApprovalRequest, (eqb (Some t) (Some (apq_tenant_id a)) && true)
        && eqb (apq_id a) (rt_approval_request_id th)) (approval_requests d);
  r ← List.filter (λ r : ActionRequest, (eqb (Some t) (Some (ar_tenant_id r)) && true)
        && eqb (ar_id r) (apq_action_request_id a)) (action_requests d);
  [(ar_id r, ar_action_type r)].

Lemma revision_targets_run order t p ids s :
  s_tenant s = Some t →
  _revision_targets order t p ids s
  = Ok (if nonempty ids then order (targets_of (s_db s) t p ids) else [], s).
Proof.
  intros Hs. unfold _revision_targets. destruct ids as [|i ids]; [done|]. cbn [nonempty negb].
  erewrite tx_bind_run; [|apply (select_run s t); [done|tenant_first]].
  unfold mbind at 1 2 3, Tx_bind, select, visible. rewrite Hs. unfold mret, Tx_ret, targets_of.
  do 3 f_equal. apply list_bind_ext_in. intros m _. rewrite filter_filter_bool. cbn.
  apply list_bind_ext_in. intros th _. rewrite filter_filter_bool.
  apply list_bind_ext_in. intros a _. by rewrite filter_filter_bool.
Qed.

(** Every row of these tables has its parents. *)
Record Integral (d : Db) : Prop := {
  in_messages : integral ReviewMessage d;
  in_threads : integral ReviewThread d;
  in_approvals : integral ApprovalRequest d;
  in_revisions : integral ActionRevision d
}.

Lemma integral_parent {R} `{Table R} {P} d (r : R) (q : P → bool) xs :
  integral R d → r ∈ table d → (parents_exist d r = existsb q xs) → ∃ x, x ∈ xs ∧ q x = true.
Proof.
  unfold integral. intros Hi Hr E. rewrite Forall_forall in Hi. specialize (Hi r Hr). rewrite E in Hi.
  apply existsb_exists in Hi as (x & Hx & ?). exists x. by rewrite list_elem_of_In.
Qed.

(** A join on the identity of an old parent reads the old rows. *)
Lemma join_old {R} `{TableLaws R} d d' (f : R → bool) x id :
  grows R d d' → x ∈ table d → row_id x = id →
  List.filter (λ y, f y && eqb (row_id y) id) (table d') = List.filter (λ y, f y && eqb (row_id y) id) (table d).
Proof.
  intros Hg Hx <-. apply (grows_by_id d d' _ x); [done|done|]. intros y [_ ?%eqb_true]%andb_true_iff. done.
Qed.

Lemma targets_extends d d' t p ids :
  Extends d d' → Integral d → targets_of d' t p ids = targets_of d t p ids.
Proof.
  intros E [Im It Ia Iv]. unfold targets_of. rewrite (ext_messages _ _ E).
  apply list_bind_ext_in. intros m [_ Hm]%elem_of_filter_bool.
  destruct (integral_parent d m _ _ Im Hm eq_refl) as (th0 & Hth0 & [_ Hid]%andb_true_iff).
  apply eqb_true in Hid.
  rewrite (join_old d d' (λ th, eqb (Some t) (Some (rt_tenant_id th)) && true) th0 _ (ext_threads _ _ E) Hth0 Hid).
  apply list_bind_ext_in. intros th [_ Hth]%elem_of_filter_bool.
  destruct (integral_parent d th _ _ It Hth eq_refl) as (a0 & Ha0 & [_ Hid2]%andb_true_iff).
  apply eqb_true in Hid2.
  rewrite (join_old d d' (λ a, eqb (Some t) (Some (apq_tenant_id a)) && true) a0 _ (ext_approvals _ _ E) Ha0 Hid2).
  apply list_bind_ext_in. intros a [_ Ha]%elem_of_filter_bool.
  destruct (integral_parent d a _ _ Ia Ha eq_refl) as (v0 & Hv0 & Hv).
  rewrite !andb_true_iff in Hv. destruct Hv as [[[_ Hvr%eqb_true] _] _].
  destruct (integral_parent d v0 _ _ Iv Hv0 eq_refl) as (r0 & Hr0 & [_ Hid3]%andb_true_iff).
  apply eqb_true in Hid3. rewrite Hvr in Hid3.
  by rewrite (join_old d d' (λ r, eqb (Some t) (Some (ar_tenant_id r)) && true) r0 _ (ext_requests _ _ E) Hr0 Hid3).
Qed.

(** ** The decision *)

Section decisions.
Context `{Zones}.

(** What [persist_decision] checks before the loop. *)
Record Accepts (g : Gateway) (k : TurnKey) (d : Db) (process : ProcessInstance) : Prop := {
  ac_process : hd_error (List.filter (is_process (tk_tenant_id k) (tk_process_instance_id k))
                 (process_instances d)) = Some process;
  ac_running : is_halted (pi_status process) = false;
  ac_lifetime : ∀ policy now, gw_communication g = Some (policy, now) →
    process_lifetime_block process policy now = Ok None;
  ac_breaker : is_open d (tk_tenant_id k) ALL "" = false
}.

Lemma latest_all_run t s :
  latest t ALL "" s = Ok (breaker_state ALL <$> newest (breaker_rows (s_db s) t ALL ""), s <| s_tenant := Some t |>).
Proof. by rewrite latest_run. Qed.
Lemma all_open d t :
  open_state (breaker_state ALL <$> newest (breaker_rows d t ALL "")) = None ↔ is_open d t ALL "" = false.
Proof. rewrite is_open_state. destruct (_ <$> _) as [b|]; cbn; [|done]. by destruct (bs_tripped b). Qed.

Lemma process_tenant t p r : is_process t p r = true → row_tenant r = t.
Proof. by intros []%is_process_ids. Qed.

Lemma decision_accepted order g k d s res s' :
  persist_decision order g k d s = Ok (res, s') → ∃ process, Accepts g k (s_db s) process.
Proof.
  intros Hrun. unfold persist_decision in Hrun. cbv zeta in Hrun.
  apply tx_bind_ok in Hrun as ([] & ? & ->%set_tenant_context_ok & Hrun).
  apply tx_bind_ok in Hrun as (found & ? & Hf & Hrun).
  rewrite (scalar_run _ (tk_tenant_id k)) in Hf by (done || apply process_tenant). injection Hf as <- <-.
  destruct (hd_error _) as [process|] eqn:Hp; [|done].
  apply tx_bind_ok in Hrun as ([] & ? & [Hh ->]%tx_raise_if_ok & Hrun).
  apply tx_bind_ok in Hrun as ([] & s1 & Hl & Hrun).
  assert (s_db s1 = s_db s ∧ ∀ policy now, gw_communication g = Some (policy, now) →
    process_lifetime_block process policy now = Ok None) as [Hd1 Hlife].
  { destruct (gw_communication g) as [[policy now]|]; [|by apply mret_ok in Hl as [_ ->]].
    apply tx_bind_ok in Hl as ([b|] & ? & [Hb ->]%lift_result_ok & Hl); [done|].
    apply mret_ok in Hl as [_ ->]. split; [done|]. by intros ? ? [= <- <-]. }
  apply tx_bind_ok in Hrun as (halted & s2 & Hb & Hrun). rewrite latest_all_run in Hb. injection Hb as <- <-.
  apply tx_bind_ok in Hrun as ([] & s3 & Ho & Hrun).
  exists process. split; try done. apply all_open. rewrite <- Hd1. by destruct (open_state _).
Qed.

(** An accepted decision runs the loop on the same rows. *)
Lemma decision_runs order g k d s process :
  Accepts g k (s_db s) process →
  ∃ conflicted s1, s_db s1 = s_db s ∧ s_tenant s1 = Some (tk_tenant_id k) ∧
    persist_decision order g k d s
    = persist_actions g k process d
        (if nonempty (ad_based_on_review_command_ids d) then
           order (targets_of (s_db s) (tk_tenant_id k) (tk_process_instance_id k) (ad_based_on_review_command_ids d))
         else []) conflicted [] (ad_actions d) s1.
Proof.
  intros [Hp Hh Hl Hb]. set (s0 := s <| s_tenant := Some (tk_tenant_id k) |>).
  assert (∃ c, _conflicted_payload_hashes (tk_tenant_id k) (tk_process_instance_id k)
    (ad_based_on_action_attempt_ids d) s0 = Ok (c, s0)) as [c Hc].
  { unfold _conflicted_payload_hashes. destruct (negb _); by eexists. }
  exists c, s0. split_and!; try done. unfold persist_decision. cbv zeta.
  rewrite (tx_bind_run _ _ s tt s0) by done.
  erewrite tx_bind_run; [|apply (scalar_run _ (tk_tenant_id k)); [done|apply process_tenant]].
  cbn [table ProcessInstance_table]. change (s_db s0) with (s_db s). rewrite Hp.
  rewrite (tx_bind_run _ _ s0 tt s0) by by apply tx_raise_if_run.
  rewrite (tx_bind_run _ _ s0 tt s0).
  2:{ destruct (gw_communication g) as [[policy now]|]; [|done].
      rewrite (tx_bind_run _ _ s0 None s0); [done|]. apply lift_result_ok. auto. }
  rewrite (tx_bind_run _ _ _ _ _ (latest_all_run (tk_tenant_id k) s0)).
  change (s0 <| s_tenant := Some (tk_tenant_id k) |>) with s0. apply all_open in Hb.
  change (s_db s0) with (s_db s). rewrite Hb. rewrite (tx_bind_run _ _ s0 tt s0) by done.
  rewrite (tx_bind_run _ _ _ _ _ (revision_targets_run order _ _ _ s0 eq_refl)).
  by rewrite (tx_bind_run _ _ _ _ _ Hc).
Qed.

(** C31: a turn can be replayed.  Once [persist_decision] has stored a decision, calling
    it again for that turn, in any later session, also after the gateway stored the
    actions of other turns, under any permissions and with outbound messaging paused or
    not, stores nothing and returns the same actions, statuses, approvals and review
    threads, if the server returns the revision targets in the same order. *)
Theorem persisted_decisions_replay order g k d s res s' :
  persist_decision order g k d s = Ok (res, s') → Integral (s_db s) →
  ∀ permissions paused later, Extends (s_db s') (s_db later) →
  ∃ s'', persist_decision order (mkGateway paused permissions (gw_communication g)) k d later = Ok (res, s'')
    ∧ s_db s'' = s_db later.
Proof.
  intros Hrun Hi permissions paused later He.
  destruct (decision_accepted order g k d s res s' Hrun) as [process Ha].
  destruct (decision_runs order g k d s process Ha) as (c & s1 & Hd1 & Hs1 & Hrun'). rewrite Hrun' in Hrun.
  apply persist_actions_replays in Hrun as (_ & He1 & Hreplay); [|done]. rewrite Hd1 in He1.
  pose proof (extends_trans _ _ _ He1 He) as He2.
  set (g' := mkGateway paused permissions (gw_communication g)).
  assert (Accepts g' k (s_db later) process) as Ha'.
  { destruct Ha as [Hp Hh Hl Hb]. split; [by rewrite (ext_processes _ _ He2)|done|done|].
    unfold is_open, breaker_rows. by rewrite (ext_breakers _ _ He2). }
  destruct (decision_runs order g' k d later process Ha') as (c' & l1 & Hd' & Ht' & ->).
  rewrite (targets_extends _ _ _ _ _ He2 Hi).
  destruct (Hreplay g' process d c' l1 Ht') as (s'' & -> & Hd'' & _); [by rewrite Hd'|].
  exists s''. by rewrite Hd'', Hd'.
Qed.

(** ** What a new action passed *)

(** The gates, on the rows [d] they were evaluated on. *)
Record Gated (g : Gateway) (k : TurnKey) (process : ProcessInstance) (d : Db) (a : ActionProposal) : Prop := {
  gt_all : is_open d (tk_tenant_id k) ALL "" = false;
  gt_capability : is_open d (tk_tenant_id k) CAPABILITY (strip (ap_action_type a)) = false;
  gt_outbound : ∀ policy now, gw_communication g = Some (policy, now) →
    member (ap_action_type a) (cp_outbound_action_types policy) = true →
    gw_platform_outbound_paused g = false ∧ is_open d (tk_tenant_id k) OUTBOUND_MESSAGES "" = false
    ∧ ContactAllowed policy (durable_facts d (tk_tenant_id k) process policy None) (instant now)
}.

Lemma raise_if_open_ok b s u s' : raise_if_open b s = Ok (u, s') → b = None ∧ s' = s.
Proof. destruct b; [done|]. by intros [_ ->]%mret_ok. Qed.

Lemma capability_closed t a s s' :
  open_for_capability t a s = Ok (None, s') →
  is_open (s_db s) t ALL "" = false ∧ is_open (s_db s) t CAPABILITY (strip a) = false.
Proof.
  intros Hc. pose proof Hc as Hn%first_open_ok. rewrite !Exists_cons, Exists_nil in Hn. cbn [fst snd] in Hn.
  unfold open_for_capability in Hc. cbn [first_open] in Hc.
  apply tx_bind_ok in Hc as (st & s1 & Hl & Hc). rewrite latest_all_run in Hl. injection Hl as <- <-.
  destruct (open_state _) as [b|]; [done|].
  apply tx_bind_ok in Hc as (st & s1 & Hl & _). rewrite latest_run in Hl.
  destruct (normalize_breaker_target CAPABILITY a) as [n|] eqn:En; [|done].
  assert (n = strip a) as ->.
  { unfold normalize_breaker_target in En. destruct (is_blank a), (200 <? _)%nat; cbn in En; congruence. }
  split; apply not_true_iff_false; intros Ho; apply (is_Some_None (A:=BreakerState)), Hn;
    [left; by exists ""%string|right; left; by exists (strip a)].
Qed.

Lemma outbound_closed t s s' :
  open_for_outbound t s = Ok (None, s') →
  is_open (s_db s) t ALL "" = false ∧ is_open (s_db s) t OUTBOUND_MESSAGES "" = false.
Proof.
  intros Hn%first_open_ok. rewrite !Exists_cons, Exists_nil in Hn. cbn [fst snd] in Hn.
  split; apply not_true_iff_false; intros Ho; apply (is_Some_None (A:=BreakerState)), Hn;
    [left; by exists ""%string|right; left; by exists ""%string].
Qed.

Lemma communication_allowed t process policy now s u s' :
  s_tenant s = Some t → _enforce_communication_policy t process policy now s = Ok (u, s') →
  s' = s ∧ ContactAllowed policy (durable_facts (s_db s) t process policy None) (instant now).
Proof.
  intros Hs Hc%translate_ok. apply tx_bind_ok in Hc as (snap & s1 & Hi & Hr).
  destruct (is_naive now) eqn:Hn.
  { unfold inspect in Hi. rewrite Hn in Hi. done. }
  destruct (inspect_run t process policy now None s Hs Hn ltac:(done)) as (snap' & Hi' & Hb & Hal).
  rewrite Hi' in Hi. injection Hi as -> ->. apply lift_result_ok in Hr as [Hr ->]. split; [done|].
  apply Hal, Hb. unfold require_allowed in Hr. by destruct (css_blocks snap).
Qed.

Lemma gate_ok g k process conflicted a s u s' :
  s_tenant s = Some (tk_tenant_id k) → gate_new_action g k process conflicted a s = Ok (u, s') →
  Gated g k process (s_db s) a.
Proof.
  intros Hs Hg. unfold gate_new_action in Hg. apply tx_bind_ok in Hg as ([] & ? & [_ ->]%tx_raise_if_ok & Hg).
  apply tx_bind_ok in Hg as ([] & s1 & Hc & Hg). unfold _enforce_capability_breakers in Hc.
  apply tx_bind_ok in Hc as (o & s2 & Hc & [-> ->]%raise_if_open_ok).
  pose proof (reads_capability _ _ _ _ _ Hc) as [Hd2 Hs2]. apply capability_closed in Hc as [Hall Hcap].
  split; [done..|]. intros policy now Hp Hm. rewrite Hp, Hm in Hg.
  apply tx_bind_ok in Hg as ([] & s3 & Hpol & Hg).
  apply communication_allowed in Hpol as [-> Hallow]; [|auto].
  unfold _enforce_outbound_breakers in Hg. apply tx_bind_ok in Hg as ([] & ? & [Hpause ->]%tx_raise_if_ok & Hg).
  apply tx_bind_ok in Hg as (o & s4 & Ho & [-> _]%raise_if_open_ok). apply outbound_closed in Ho as [_ Ho].
  rewrite Hd2 in Ho, Hallow. done.
Qed.

(** The action and its stored result, of a call that began on [d] and ended on [d']. *)
Definition NewAction (g : Gateway) (k : TurnKey) (process : ProcessInstance) (d d' : Db)
    (a : ActionProposal) (pa : PersistedAction) : Prop :=
  (∃ sup, Stored k a sup d' pa) ∧
  (stored_request d k (ap_logical_action_key a) = None →
   pa_outcome pa = apd_outcome (evaluate (gw_policy g) a)
   ∧ pa_status pa = initial_action_request_status (pa_outcome pa)
   ∧ ∃ d1, Extends d d1 ∧ Extends d1 d' ∧ Gated g k process d1 a).

Lemma other_key_absent g k a sup d d' pa key :
  ActionEffect g k a sup d d' pa → key ≠ ap_logical_action_key a →
  stored_request d k key = None → stored_request d' k key = None.
Proof.
  unfold stored_request. intros [_ _ [->|[_ [now Hr]]] _ _ _] Hk; [done|]. rewrite Hr, List.filter_app.
  intros E. destruct (List.filter _ (action_requests d)); [|done]. cbn. unfold is_turn_action at 1. cbn.
  rewrite (proj2 (eqb_neq (ap_logical_action_key a) key)) by congruence. by rewrite andb_false_r.
Qed.

Lemma persist_actions_new g k process d targets conflicted used actions s res s' :
  s_tenant s = Some (tk_tenant_id k) →
  persist_actions g k process d targets conflicted used actions s = Ok (res, s') →
  integral ActionRevision (s_db s) → integral ActionPolicyRecord (s_db s) →
  NoDup (ap_logical_action_key <$> actions) →
  Forall2 (NewAction g k process (s_db s) (s_db s')) actions res.
Proof.
  revert used s res. induction actions as [|a actions IH]; intros used s res Hs Hrun Hv Hp Hnd.
  { apply mret_ok in Hrun as [-> ->]. constructor. }
  apply persist_actions_cons in Hrun as (s0 & s1 & pa & rest & Hgate & _ & _ & Hs1 & Ha & Hrest & ->); [|done].
  pose proof Hrest as Hrest'. apply persist_actions_replays in Hrest' as (_ & He' & _); [|done].
  apply NoDup_cons in Hnd as [Hkey Hnd].
  pose proof Ha as [He Hst _ Hv1 Hp1 Hfresh]. constructor.
  - split; [exists (superseded targets used (ap_action_type a)); by eapply stored_extends|]. intros Hno.
    destruct (Hfresh Hno Hv Hp) as [-> ->]. split; [done|]. split; [done|]. exists (s_db s).
    split; [apply extends_refl|]. split; [by eapply extends_trans|]. by eapply gate_ok; [|apply Hgate].
  - apply IH in Hrest; [|done|auto|auto|done]. clear - Ha Hrest Hkey He.
    induction Hrest as [|b pb bs pbs [Hst Hnew] _ IH]; [constructor|]. cbn in Hkey.
    apply not_elem_of_cons in Hkey as [Hkb Hkey]. constructor; [|by apply IH]. split; [done|].
    intros Hno. destruct (Hnew (other_key_absent _ _ _ _ _ _ _ _ Ha (not_eq_sym Hkb) Hno)) as (? & ? & d1 & ? & ? & ?).
    split; [done|]. split; [done|]. exists d1. split; [by eapply extends_trans|done].
Qed.

(** What the gateway stores is exact and gated.  Every result of [persist_decision]
    describes stored rows: the request of the action's key and type, its revision with
    the hash of the proposed parameters, the policy record with the outcome and, where
    that requires approval, an approval bound to the same hash with its review thread,
    and none otherwise.  An action that was not stored before has the outcome of the
    configured policy and the status that goes with it, and passed, on the rows of
    that moment, closed breakers and, for an outbound message, the communication
    policy. *)
Theorem new_actions_are_exact_and_gated order g k d s res s' :
  persist_decision order g k d s = Ok (res, s') →
  integral ActionRevision (s_db s) → integral ActionPolicyRecord (s_db s) →
  NoDup (ap_logical_action_key <$> ad_actions d) →
  ∃ process, process ∈ process_instances (s_db s) ∧ is_halted (pi_status process) = false
    ∧ is_process (tk_tenant_id k) (tk_process_instance_id k) process = true
    ∧ Forall2 (NewAction g k process (s_db s) (s_db s')) (ad_actions d) res.
Proof.
  intros Hrun Hv Hp Hnd. destruct (decision_accepted order g k d s res s' Hrun) as [process Ha].
  destruct (decision_runs order g k d s process Ha) as (c & s1 & Hd1 & Hs1 & Hrun'). rewrite Hrun' in Hrun.
  destruct Ha as [[Hin Hk]%hd_filter_Some Hh _ _]. exists process. split_and!; try done.
  rewrite <- Hd1 in *. by eapply persist_actions_new.
Qed.
End decisions.

(** ** Examples *)

Definition ex_turn_key : TurnKey := mkTurnKey (uuid 10) (uuid 20) (uuid 30) "1".
Definition ex_gateway : Gateway := mkGateway false
  (mkActionPolicy [("send_message", ALLOW); ("change_booking", REQUIRE_APPROVAL)]%string "p1")
  (Some (ex_send_policy, utc (days 87 + hours 14))).
Definition ex_proposal (n : N) (key type : string) : ActionProposal :=
  mkProposal (uuid n) key type [("to"%string, JStr "a@b.c")] "because".
Definition ex_two_actions : AgentDecision := mkDecision (uuid 5) [] [] [] [] DS_WAITING
  [ex_proposal 60 "greet" "send_message"; ex_proposal 61 "move" "change_booking"]
  [HumanWakeCondition APPROVAL] empty_memory.
Definition ex_gateway_db : Db := ex_contact_db <| tenants := [mkTenant (uuid 10) "acme" "Acme" TS_ACTIVE "acme"] |>.

Definition ex_persisted : result (list PersistedAction * Session) :=
  persist_decision id ex_gateway ex_turn_key ex_two_actions (ex_contact_session ex_gateway_db).
Definition ex_persisted_session : Session :=
  match ex_persisted with Ok (_, s) => s | Raise _ => ex_contact_session ex_gateway_db end.
Definition ex_persisted_db : Db := s_db ex_persisted_session.
Definition ex_persisted_actions : list PersistedAction :=
  match ex_persisted with Ok (l, _) => l | Raise _ => [] end.

Example two_actions_persist :
  (λ p, (pa_outcome p, pa_status p, bool_decide (is_Some (pa_approval_request_id p)))) <$> ex_persisted_actions
  = [(ALLOW, ALLOWED, false); (REQUIRE_APPROVAL, PENDING_APPROVAL, true)].
Proof. vm_compute. reflexivity. Qed.

Lemma persisted_decisions_replay_witness :
  ∃ s'', persist_decision id (mkGateway true (mkActionPolicy [] "p2") (gw_communication ex_gateway))
      ex_turn_key ex_two_actions (ex_contact_session ex_persisted_db) = Ok (ex_persisted_actions, s'')
    ∧ s_db s'' = s_db (ex_contact_session ex_persisted_db).
Proof.
  refine (persisted_decisions_replay id ex_gateway ex_turn_key ex_two_actions (ex_contact_session ex_gateway_db)
    ex_persisted_actions ex_persisted_session _ _ (mkActionPolicy [] "p2") true (ex_contact_session ex_persisted_db) _).
  - vm_compute. reflexivity.
  - split; constructor.
  - exact (extends_refl (s_db ex_persisted_session)).
Defined.

Lemma new_actions_are_exact_and_gated_witness :
  ∃ process, process ∈ process_instances (s_db (ex_contact_session ex_gateway_db))
    ∧ is_halted (pi_status process) = false
    ∧ is_process (tk_tenant_id ex_turn_key) (tk_process_instance_id ex_turn_key) process = true
    ∧ Forall2 (NewAction ex_gateway ex_turn_key process (s_db (ex_contact_session ex_gateway_db))
        (s_db ex_persisted_session)) (ad_actions ex_two_actions) ex_persisted_actions.
Proof.
  refine (new_actions_are_exact_and_gated id ex_gateway ex_turn_key ex_two_actions
    (ex_contact_session ex_gateway_db) ex_persisted_actions ex_persisted_session _ _ _ _).
  - vm_compute. reflexivity.
  - constructor.
  - constructor.
  - by apply (bool_decide_unpack _).
Defined.

(** *** Revision requests for two proposals of one type *)

Definition ex_revised (n : N) : ActionRequest :=
  mkActionRequest (uuid n) (uuid 10) (uuid 20) (uuid 29) (str_uuid (uuid n)) "change_booking" "1" None 1
    SUPERSEDED (days 86).
Definition ex_revised_revision (n : N) : ActionRevision :=
  mkActionRevision (uuid (n + 1)) (uuid 10) (uuid 20) (uuid n) 1 [] "h" "r" [] [] [] [] (days 86).
Definition ex_revised_approval (n : N) : ApprovalRequest :=
  mkApprovalRequest (uuid (n + 2)) (uuid 10) (uuid 20) (uuid n) 1 "h" AP_SUPERSEDED None None (days 86).
Definition ex_revised_thread (n : N) : ReviewThread :=
  mkReviewThread (uuid (n + 3)) (uuid 10) (uuid 20) (uuid (n + 2)) TH_REVISION_REQUESTED (days 86).
Definition ex_revised_message (n : N) : ReviewMessage :=
  mkReviewMessage (uuid (n + 4)) (uuid 10) (uuid 20) (uuid (n + 3)) (uuid 9) RC_REQUEST_REVISION
    (Some "later"%string) 1 (days 86).
Definition ex_revised_db : Db := ex_gateway_db
  <| action_requests := [ex_revised 200; ex_revised 210] |>
  <| action_revisions := [ex_revised_revision 200; ex_revised_revision 210] |>
  <| approval_requests := [ex_revised_approval 200; ex_revised_approval 210] |>
  <| review_threads := [ex_revised_thread 200; ex_revised_thread 210] |>
  <| review_messages := [ex_revised_message 200; ex_revised_message 210] |>.
Definition ex_revision_turn : AgentDecision := mkDecision (uuid 5) [] [uuid 204; uuid 214] [] [] DS_WAITING
  [ex_proposal 61 "move" "change_booking"] [HumanWakeCondition APPROVAL] empty_memory.

Definition ex_revision : list PersistedAction * Session :=
  match persist_decision id ex_gateway ex_turn_key ex_revision_turn (ex_contact_session ex_revised_db) with
  | Ok r => r
  | Raise _ => ([], ex_contact_session ex_revised_db)
  end.

(** The lineage of a revision depends on the order of an unordered query.  Two
    reviewers asked for revisions of two proposals of one action type; the turn's new
    action supersedes the one the server returned first.  If the server returns the
    two rows the other way round when the turn is retried, the retry is refused, although
    nothing changed. *)
Theorem revision_lineage_depends_on_row_order :
  Integral ex_revised_db ∧ ∃ res s',
    persist_decision id ex_gateway ex_turn_key ex_revision_turn (ex_contact_session ex_revised_db) = Ok (res, s')
    ∧ persist_decision (@rev (UUID * string)) ex_gateway ex_turn_key ex_revision_turn s'
      = raise ActionPersistenceConflict "action revision lineage changed during replay".
Proof.
  split; [split; repeat constructor|]. exists (fst ex_revision), (snd ex_revision).
  split; vm_compute; reflexivity.
Qed.
