(* ===== verification/Execution.v ===== *)
(** * [actions/execution.py]: approval-aware, idempotent provider execution

    [ActionExecutor.execute] is three transactions around two provider calls:
    [claim] reserves the attempt, [lookup] recovers an unresolved one, [fence]
    authorises again and calls the provider while it holds the row locks, and
    [_record_terminal] stores the outcome.  A call of [execute] or [reconcile] is
    a [Job] that advances through these phases ([advance]); provider answers are
    inputs, so that calls can be interleaved ([step]). *)

From stdpp Require Import base gmap list strings pretty sets.
From Stdlib Require Import ZArith Lia.
From S2P Require Import Prelude Python PyTime Json Limits Contracts DecisionPolicy Definitions Communications Schema Session Budgets CommunicationSafety Deployment.

#[local] Open Scope Z_scope.

(** ** [core/ports/actions.py] *)

Record ProviderActionRequest := mkProviderRequest {
  pr_action_type : string;
  pr_parameters : list (string * json);
  pr_idempotency_key : string;
  pr_tenant_id : UUID;
  pr_process_instance_id : UUID;
  pr_authoritative_facts : gmap string json
}.

Record ProviderActionResult := mkProviderResult {
  pres_provider_reference : string;
  pres_result : list (string * json);
  pres_facts : list FactObservation
}.

(** How [adapter.execute] ends: a result, [DefinitiveActionConflict],
    [DefinitiveActionFailure], [AmbiguousActionOutcome], or another exception by
    the name of its type. *)
Inductive ProviderResponse :=
  | Performed (r : ProviderActionResult)
  | ConflictRaised (c : ActionConflict)
  | FailureRaised (message : string)
  | AmbiguousRaised (message : string)
  | OtherRaised (type_name message : string).

(** How [adapter.lookup] ends. *)
Inductive LookupResponse :=
  | FoundResult (r : ProviderActionResult)
  | FoundConflict (c : ActionConflict)
  | NotFound
  | LookupRaised (type_name message : string).

(** ** Results *)

Record ActionExecutionResult := mkExecutionResult {
  axr_action_request_id : UUID;
  axr_attempt_id : UUID;
  axr_status : ActionAttemptStatus;
  axr_idempotency_key : string;
  axr_provider_reference : option string;
  axr_result : option (list (string * json));
  axr_facts : list FactObservation;
  axr_error : option string;
  axr_conflict : option ActionConflict
}.

(** [_result] *)
Definition execution_result (a : ActionAttempt) : ActionExecutionResult :=
  mkExecutionResult (aa_action_request_id a) (aa_id a) (aa_status a) (aa_idempotency_key a)
    (aa_provider_reference a) (aa_result a) (aa_facts a) (aa_error a) (aa_conflict a).

(** [status in {SUCCEEDED, FAILED, CONFLICT}] *)
Definition is_settled_attempt (s : ActionAttemptStatus) : bool :=
  match s with AT_SUCCEEDED | AT_FAILED | AT_CONFLICT => true | _ => false end.

(** ** Authorisation *)

Definition retryable (s : ActionRequestStatus) : bool :=
  match s with
  | EXECUTING | UNKNOWN | RECONCILING | SUCCEEDED | FAILED | CONFLICT => true
  | _ => false
  end.

Record AuthorizedAction := mkAuthorized {
  au_request : ActionRequest; au_revision : ActionRevision;
  au_policy : ActionPolicyRecord; au_process : ProcessInstance
}.

(** The identity of the action a call is about. *)
Record ActionTarget := mkTarget {
  tg_tenant_id : UUID; tg_process_instance_id : UUID; tg_action_request_id : UUID; tg_revision : Z
}.

Definition is_target_request (t : ActionTarget) (r : ActionRequest) : bool :=
  eqb (ar_tenant_id r) (tg_tenant_id t) && eqb (ar_process_instance_id r) (tg_process_instance_id t)
  && eqb (ar_id r) (tg_action_request_id t).

(** The joined row: the request with its revision, its policy record and its
    process.  Row-level security scopes each side of the join. *)
Definition joined_row (t : ActionTarget) : Tx (option AuthorizedAction) :=
  requests ← select (is_target_request t);
  revisions ← select (λ v : ActionRevision, arv_revision v =? tg_revision t);
  policies ← select (λ p : ActionPolicyRecord, apr_revision p =? tg_revision t);
  processes ← select (λ p : ProcessInstance, true);
  one_or_none (
    r ← requests;
    v ← List.filter (λ v, eqb (arv_action_request_id v) (ar_id r)) revisions;
    p ← List.filter (λ p, eqb (apr_action_request_id p) (ar_id r)) policies;
    q ← List.filter (λ q, eqb (pi_tenant_id q) (ar_tenant_id r)
                          && eqb (pi_id q) (ar_process_instance_id r)) processes;
    [mkAuthorized r v p q]).

Definition is_target_approval (t : ActionTarget) (payload_hash : string) (a : ApprovalRequest) : bool :=
  eqb (apq_tenant_id a) (tg_tenant_id t) && eqb (apq_process_instance_id a) (tg_process_instance_id t)
  && eqb (apq_action_request_id a) (tg_action_request_id t) && (apq_revision a =? tg_revision t)
  && eqb (apq_payload_hash a) payload_hash.

Definition is_granting_decision (t : ActionTarget) (approval_id : UUID) (payload_hash : string)
    (d : ApprovalDecision) : bool :=
  eqb (apd_row_tenant_id d) (tg_tenant_id t)
  && eqb (apd_row_process_instance_id d) (tg_process_instance_id t)
  && eqb (apd_row_approval_request_id d) approval_id
  && eqb (apd_row_decision d) OUTCOME_APPROVED && eqb (apd_row_payload_hash d) payload_hash.

(** The [REQUIRE_APPROVAL] branch. *)
Definition require_exact_approval (t : ActionTarget) (r : ActionRequest) (v : ActionRevision) : Tx unit :=
  approval ← scalar (is_target_approval t (arv_payload_hash v));
  match approval with
  | Some a =>
      _ ← tx_raise_if (negb (eqb (apq_status a) AP_APPROVED)) ActionExecutionRejected
            "exact action payload has not been approved";
      expired ← match apq_expires_at a with
                | Some e => now ← utcnow; mret (e <=? now)
                | None => mret false
                end;
      _ ← tx_raise_if expired ActionExecutionRejected "exact action approval has expired";
      decision ← scalar (is_granting_decision t (apq_id a) (arv_payload_hash v));
      _ ← tx_raise_if (negb (bool_decide (is_Some decision))) ActionExecutionRejected
            "immutable approval decision is missing";
      tx_raise_if (negb (eqb (ar_status r) APPROVED || retryable (ar_status r)))
        ActionExecutionRejected "approved action is no longer executable"
  | None => tx_raise ActionExecutionRejected "exact action payload has not been approved"
  end.

Definition _load_authorized_action (t : ActionTarget) : Tx AuthorizedAction :=
  row ← joined_row t;
  match row with
  | None => tx_raise ActionExecutionRejected "action revision not found"
  | Some au =>
      let process := au_process au in
      let request := au_request au in
      _ ← tx_raise_if (is_halted (pi_status process)) ActionExecutionRejected
            ("process state does not permit action execution: "
             +:+ process_status_value (pi_status process));
      _ ← tx_raise_if (negb (ar_current_revision request =? tg_revision t)) ActionExecutionRejected
            "action revision is no longer current";
      _ ← match apr_outcome (au_policy au) with
          | ALLOW => tx_raise_if (negb (eqb (ar_status request) ALLOWED || retryable (ar_status request)))
                       ActionExecutionRejected "action is not currently allowed to execute"
          | REQUIRE_APPROVAL => require_exact_approval t request (au_revision au)
          | DENY => tx_raise ActionExecutionRejected "policy denied action execution"
          end;
      mret au
  end.

(** The executor's collaborators. *)
Record Executor := mkExecutor {
  ex_adapters : ActionAdapterRegistry;
  ex_compatibility : DeploymentCompatibility;
  ex_release : DeploymentRelease;
  ex_registry : ProcessDefinitionRegistry;
  ex_platform_outbound_paused : bool
}.

Definition _require_execution_enabled (x : Executor) (tenant_id : UUID) : Tx unit :=
  translate (λ e, match exn_cls e with
    | TenantSuspended => Some (ActionExecutionSuspended, "tenant safety control blocks action execution"%string)
    | TenantUnavailable => Some (ActionExecutionRejected, "action execution tenant is unavailable"%string)
    | TenantNotAuthorized => Some (ActionExecutionRejected,
        "tenant is not assigned to this action-execution deployment"%string)
    | _ => None
    end) (require_active_tenant tenant_id (Some (dr_deployment_id (ex_release x)))).

Definition _require_reconciliation_enabled (x : Executor) (tenant_id : UUID) : Tx unit :=
  translate (λ e, match exn_cls e with
    | TenantUnavailable => Some (ActionExecutionRejected, "reconciliation tenant is unavailable"%string)
    | TenantNotAuthorized => Some (ActionExecutionRejected,
        "tenant is not assigned to this reconciliation deployment"%string)
    | _ => None
    end) (require_tenant_deployment tenant_id (dr_deployment_id (ex_release x))).

Definition _require_compatible_process (x : Executor) (p : ProcessInstance) : result unit :=
  require_process_pins (ex_compatibility x) p ≫= λ _, require_release_pins (ex_release x) p.

Definition _breaker_message (x : Executor) (tenant_id : UUID) (action_type : string)
    (policy : CommunicationPolicy) : Tx (option string) :=
  let message (b : BreakerState) := (breaker_scope_value (bs_scope b) +:+ ": " +:+ bs_reason b)%string in
  opened ← open_for_capability tenant_id action_type;
  match opened with
  | Some b => mret (Some (message b))
  | None =>
      if member action_type (cp_outbound_action_types policy) then
        if ex_platform_outbound_paused x then mret (Some "platform outbound messaging is paused"%string)
        else (opened ← open_for_outbound tenant_id; mret (message <$> opened))
      else mret None
  end.

(** ** The claim *)

Definition attempt_key (t : ActionTarget) (v : ActionRevision) : string :=
  execution_idempotency_key (tg_tenant_id t) (tg_process_instance_id t) (tg_action_request_id t)
    (tg_revision t) (arv_payload_hash v).

(** What [execute] carries out of its first transaction. *)
Record Claimed := mkClaimed {
  cl_key : string; cl_adapter : ActionAdapter; cl_policy : CommunicationPolicy; cl_is_new : bool
}.

Definition is_attempt (tenant_id : UUID) (key : string) (a : ActionAttempt) : bool :=
  eqb (aa_tenant_id a) tenant_id && eqb (aa_idempotency_key a) key.

Definition new_attempt (id : UUID) (t : ActionTarget) (key adapter_id : string) (started_at now : Z)
  : ActionAttempt :=
  mkActionAttempt id (tg_tenant_id t) (tg_process_instance_id t) (tg_action_request_id t)
    (tg_revision t) 1 key adapter_id AT_EXECUTING None None None [] None started_at None now.

Definition set_request_status (id : UUID) (s : ActionRequestStatus) : Tx unit :=
  update id (λ r : ActionRequest, r <| ar_status := s |>).

(** The first transaction of [execute]: the stored result of a settled attempt, or
    the claim of an open one. *)
Definition claim (x : Executor) (t : ActionTarget) : Tx (ActionExecutionResult + Claimed) :=
  _ ← _require_execution_enabled x (tg_tenant_id t);
  au ← _load_authorized_action t;
  let process := au_process au in
  let request := au_request au in
  _ ← lift_result (_require_compatible_process x process);
  definition ← lift_result (get_definition (ex_registry x) (pi_process_type process)
                              (pi_definition_version process));
  adapter ← lift_result (resolve_adapter (ex_adapters x) (ar_action_type request));
  let key := attempt_key t (au_revision au) in
  started_at ← utcnow;
  id ← draw_uuid;
  now ← transaction_now;
  inserted_id ← insert_or_skip same_idempotency (new_attempt id t key (ad_id adapter) started_at now);
  attempt ← scalar (is_attempt (tg_tenant_id t) key);
  match attempt with
  | None => tx_raise RuntimeError "action attempt was not persisted"
  | Some a =>
      _ ← tx_raise_if (negb (eqb (aa_adapter_id a) (ad_id adapter))) ActionExecutionRejected
            "action adapter binding changed for this attempt";
      if is_settled_attempt (aa_status a) then mret (inl (execution_result a))
      else
        _ ← set_request_status (ar_id request) EXECUTING;
        mret (inr (mkClaimed key adapter (communication_policy definition)
                     (bool_decide (is_Some inserted_id))))
  end.

(** ** Outcomes *)

(** The arguments of [_record_terminal]. *)
Record Outcome := mkOutcome {
  oc_status : ActionAttemptStatus;
  oc_provider_reference : option string;
  oc_result : option (list (string * json));
  oc_facts : list FactObservation;
  oc_error : option string;
  oc_conflict : option ActionConflict
}.

(** [_record_success], [_record_failure], [_record_conflict], [_record_unknown]. *)
Definition success (r : ProviderActionResult) : Outcome :=
  mkOutcome AT_SUCCEEDED (Some (pres_provider_reference r)) (Some (pres_result r)) (pres_facts r) None None.
Definition failure (error : string) : Outcome := mkOutcome AT_FAILED None None [] (Some error) None.
Definition conflict (c : ActionConflict) : Outcome :=
  mkOutcome AT_CONFLICT None None (conflict_facts c) (Some (conflict_message c)) (Some c).
Definition unknown (error : string) : Outcome := mkOutcome AT_UNKNOWN None None [] (Some error) None.

(** [error[:2000] if error else None] *)
Definition stored_error (error : option string) : option string :=
  match error with
  | Some e => if is_empty e then None else Some (py_prefix 2000 e)
  | None => None
  end.

Definition with_outcome (o : Outcome) (completed_at : Z) (a : ActionAttempt) : ActionAttempt :=
  a <| aa_status := oc_status o |> <| aa_provider_reference := oc_provider_reference o |>
    <| aa_result := oc_result o |> <| aa_conflict := oc_conflict o |> <| aa_facts := oc_facts o |>
    <| aa_error := stored_error (oc_error o) |> <| aa_completed_at := Some completed_at |>.

Definition _record_terminal (t : ActionTarget) (key : string) (o : Outcome) : Tx ActionExecutionResult :=
  _ ← set_tenant_context (tg_tenant_id t);
  attempt ← scalar (λ a : ActionAttempt, eqb (aa_idempotency_key a) key);
  request ← scalar (λ r : ActionRequest, eqb (ar_id r) (tg_action_request_id t));
  match attempt, request with
  | Some a, Some r =>
      if is_settled_attempt (aa_status a) then mret (execution_result a)
      else
        completed_at ← utcnow;
        _ ← update (aa_id a) (with_outcome o completed_at);
        _ ← set_request_status (ar_id r) (request_status_of_attempt (oc_status o));
        mret (execution_result (with_outcome o completed_at a))
  | _, _ => tx_raise RuntimeError "action execution state disappeared"
  end.

(** ** Recovery and the fence *)

(** After the lookup of an attempt that was already there: the outcome to record,
    or [None] when the provider may be called again. *)
Definition recover (c : Claimed) (l : LookupResponse) : option Outcome :=
  match l with
  | LookupRaised ty m => Some (unknown ("lookup failed: " +:+ ty +:+ ": " +:+ m))
  | FoundConflict k => Some (conflict k)
  | FoundResult r => Some (success r)
  | NotFound => if ad_guarantees_idempotency (cl_adapter c) then None
                else Some (unknown "provider cannot safely retry an unresolved execution")
  end.

Inductive FenceOutcome :=
  | Blocked (message : string)
  | BreakerOpen (message : string)
  | Called (request : ProviderActionRequest) (response : ProviderResponse).

Section fence.
Context `{Zones}.

(** [snapshot.require_allowed()] caught: the first block. *)
Definition communication_block (x : Executor) (t : ActionTarget) (au : AuthorizedAction)
    (policy : CommunicationPolicy) (execution_now : datetime) : Tx (option string) :=
  lifetime ← lift_result (process_lifetime_block (au_process au) policy execution_now);
  match lifetime with
  | Some b => mret (Some (cb_message b))
  | None =>
      if member (ar_action_type (au_request au)) (cp_outbound_action_types policy) then
        snapshot ← inspect (tg_tenant_id t) (au_process au) policy execution_now
                     (Some (tg_action_request_id t));
        mret (cb_message <$> hd_error (css_blocks snapshot))
      else mret None
  end.

Definition provider_request (t : ActionTarget) (au : AuthorizedAction) (key : string)
  : ProviderActionRequest :=
  mkProviderRequest (ar_action_type (au_request au)) (arv_parameters (au_revision au)) key
    (tg_tenant_id t) (tg_process_instance_id t) (pi_authoritative_facts (au_process au)).

(** The second transaction of [execute]; the provider answers inside it. *)
Definition fence (x : Executor) (t : ActionTarget) (c : Claimed)
    (provider : ProviderActionRequest → ProviderResponse) : Tx FenceOutcome :=
  _ ← _require_execution_enabled x (tg_tenant_id t);
  au ← _load_authorized_action t;
  _ ← lift_result (_require_compatible_process x (au_process au));
  execution_now ← utcnow;
  block ← communication_block x t au (cl_policy c) (utc execution_now);
  match block with
  | Some m => mret (Blocked m)
  | None =>
      breaker ← _breaker_message x (tg_tenant_id t) (ar_action_type (au_request au)) (cl_policy c);
      match breaker with
      | Some m => mret (BreakerOpen m)
      | None => let r := provider_request t au (cl_key c) in mret (Called r (provider r))
      end
  end.

Definition fence_outcome (f : FenceOutcome) : Outcome :=
  match f with
  | Blocked m => failure ("communication safety blocked execution: " +:+ m)
  | BreakerOpen m => failure ("circuit breaker open: " +:+ m)
  | Called _ (ConflictRaised c) => conflict c
  | Called _ (FailureRaised m) => failure m
  | Called _ (AmbiguousRaised m) => unknown m
  | Called _ (OtherRaised ty m) => unknown (ty +:+ ": " +:+ m)
  | Called _ (Performed r) => success r
  end.

(** ** [reconcile] *)

(** Its first transaction: a stored result, or the key to look up. *)
Definition claim_reconciliation (x : Executor) (t : ActionTarget) : Tx (ActionExecutionResult + string) :=
  _ ← _require_reconciliation_enabled x (tg_tenant_id t);
  au ← _load_authorized_action t;
  _ ← lift_result (_require_compatible_process x (au_process au));
  _ ← lift_result (resolve_adapter (ex_adapters x) (ar_action_type (au_request au)));
  let key := attempt_key t (au_revision au) in
  attempt ← scalar (is_attempt (tg_tenant_id t) key);
  match attempt with
  | None => tx_raise ActionExecutionRejected "action has no execution attempt to reconcile"
  | Some a =>
      if is_settled_attempt (aa_status a) then mret (inl (execution_result a))
      else
        _ ← update (aa_id a) (λ a : ActionAttempt, a <| aa_status := AT_RECONCILING |>);
        _ ← set_request_status (ar_id (au_request au)) RECONCILING;
        mret (inr key)
  end.

Definition reconciled (l : LookupResponse) : Outcome :=
  match l with
  | LookupRaised ty m => unknown ("reconciliation lookup failed: " +:+ ty +:+ ": " +:+ m)
  | NotFound => unknown "provider lookup could not establish the execution outcome"
  | FoundConflict c => conflict c
  | FoundResult r => success r
  end.

(** ** Calls as jobs *)

Inductive Phase :=
  | Claiming
  | LookingUp (c : Claimed)
  | Fencing (c : Claimed)
  | ClaimingReconciliation
  | LookingUpReconciliation (key : string)
  | Recording (key : string) (o : Outcome)
  | Finished (r : result ActionExecutionResult).

(** A provider execution: the tenant, the request, and whether the adapter
    guarantees idempotency. *)
Record ProviderCall := mkCall {
  pc_tenant : UUID; pc_request : ProviderActionRequest; pc_idempotent : bool
}.

Definition calls_of (t : ActionTarget) (c : Claimed) (f : FenceOutcome) : list ProviderCall :=
  match f with
  | Called r _ => [mkCall (tg_tenant_id t) r (ad_guarantees_idempotency (cl_adapter c))]
  | _ => []
  end.

(** Continue with the value of a transaction, or finish with its exception. *)
Definition commit {A} (d : Db) (m : result (A * Session)) (k : A → Phase * list ProviderCall)
  : Phase * Db * list ProviderCall :=
  match m with
  | Ok (a, s) => let '(p, calls) := k a in (p, s_db s, calls)
  | Raise e => (Finished (Raise e), d, [])
  end.

(** One phase of a call, in a session [s] on the current database. *)
Definition advance (x : Executor) (t : ActionTarget) (lookup : string → LookupResponse)
    (provider : ProviderActionRequest → ProviderResponse) (s : Session) (p : Phase)
  : Phase * Db * list ProviderCall :=
  let d := s_db s in
  match p with
  | Claiming => commit d (claim x t s) (λ r, match r with
      | inl result => (Finished (Ok result), [])
      | inr c => (if cl_is_new c then Fencing c else LookingUp c, [])
      end)
  | LookingUp c =>
      (match recover c (lookup (cl_key c)) with
       | Some o => Recording (cl_key c) o | None => Fencing c end, d, [])
  | Fencing c => commit d (fence x t c provider s)
      (λ f, (Recording (cl_key c) (fence_outcome f), calls_of t c f))
  | ClaimingReconciliation => commit d (claim_reconciliation x t s) (λ r, match r with
      | inl result => (Finished (Ok result), [])
      | inr key => (LookingUpReconciliation key, [])
      end)
  | LookingUpReconciliation key => (Recording key (reconciled (lookup key)), d, [])
  | Recording key o => commit d (_record_terminal t key o s) (λ r, (Finished (Ok r), []))
  | Finished r => (Finished r, d, [])
  end.
End fence.

(** ** Example: a small deployment

    One tenant, one process with one allowed message, and an executor; calls run
    alone on it, phase after phase. *)

Definition ex_attempt_target : ActionTarget := mkTarget (uuid 10) (uuid 20) (uuid 60) 1.
Definition ex_adapter : ActionAdapter := mkAdapter "smtp" true.
Definition ex_once_adapter : ActionAdapter := mkAdapter "smtp" false.
Definition ex_executor (adapter : ActionAdapter) : Executor :=
  mkExecutor [("send_message"%string, adapter)]
    (mkCompatibility "c" "m" [("booking_follow_up", "1", "d")]%string)
    (mkRelease "acme" "b" "c" "gpt-4o" "r" "tiramisu.acme.r")
    [("booking_follow_up", "1", ex_process_definition)]%string false.

Definition ex_executing : ActionRequest := ex_contact_request <| ar_status := EXECUTING |>.
Definition ex_revision : ActionRevision := mkActionRevision (uuid 63) (uuid 10) (uuid 20) (uuid 60) 1
  [("to"%string, JStr "a@b.c")] "hash" "greet the customer" [] [] [] [] (days 87).
Definition ex_policy_row : ActionPolicyRecord :=
  mkActionPolicyRecord (uuid 64) (uuid 10) (uuid 20) (uuid 60) 1 ALLOW "1" "allowed" (days 87).
Definition ex_key : string := attempt_key ex_attempt_target ex_revision.
Definition ex_attempt (s : ActionAttemptStatus) : ActionAttempt :=
  (new_attempt (uuid 65) ex_attempt_target ex_key "smtp" (days 87) (days 87)) <| aa_status := s |>.
Definition ex_execution_db : Db := empty_db
  <| tenants := [mkTenant (uuid 10) "acme" "Acme" TS_ACTIVE "acme"] |>
  <| process_instances := [ex_contact_process] |> <| action_requests := [ex_contact_request] |>
  <| action_revisions := [ex_revision] |> <| action_policy_decisions := [ex_policy_row] |>.
(** At two in the afternoon, UTC. *)
Definition ex_at (d : Db) : Session :=
  mkSession d None (days 87 + hours 14) (λ _, days 87 + hours 14) 0 (λ n, uuid (100 + N.of_nat n)) 0.
Definition ex_sent (r : ProviderActionRequest) : ProviderResponse := Performed (mkProviderResult "p-1" [] []).
Definition ex_nothing (key : string) : LookupResponse := NotFound.

(** A call that runs alone on [d], phase after phase. *)
Fixpoint run_call (fuel : nat) (x : Executor) (d : Db) (p : Phase) (calls : list ProviderCall)
  : Phase * Db * list ProviderCall :=
  match fuel with
  | O => (p, d, calls)
  | S fuel => let '(p, d, more) := advance x ex_attempt_target ex_nothing ex_sent (ex_at d) p in
              run_call fuel x d p (calls ++ more)
  end.

Example execute_sends :
  match run_call 4 (ex_executor ex_once_adapter) ex_execution_db Claiming [] with
  | (Finished (Ok r), d, [c]) => eqb (axr_status r) AT_SUCCEEDED && eqb (pr_idempotency_key (pc_request c)) ex_key
  | _ => false
  end = true.
Proof. vm_compute. reflexivity. Qed.

Example execute_after_crash_does_not_send :
  match run_call 4 (ex_executor ex_once_adapter)
    (ex_execution_db <| action_attempts := [ex_attempt AT_EXECUTING] |>) Claiming [] with
  | (Finished (Ok r), d, []) => eqb (axr_status r) AT_UNKNOWN
  | _ => false
  end = true.
Proof. vm_compute. reflexivity. Qed.
