(* ===== verification/Reconciliation.v ===== *)
(** * [actions/reconciliation.py]: an operator settles an unknown outcome

    [resolve_unknown] is one transaction: it records the operator's evidence, settles
    the attempt and its request, and schedules the resolution's delivery to the
    workflow.  The row locks order concurrent calls; transactions are atomic in the
    model. *)

From stdpp Require Import base gmap list strings sets.
From Stdlib Require Import ZArith Lia.
From S2P Require Import Prelude Python PyTime Json Limits Contracts DecisionPolicy Definitions Communications Schema Session State Control Budgets CommunicationSafety Deployment Execution.

#[local] Open Scope Z_scope.

Definition is_decision_of (c : OperatorActionResolution) (r : ActionReconciliationDecision) : bool :=
  eqb (rd_tenant_id r) (oar_tenant_id c) && eqb (rd_process_instance_id r) (oar_process_instance_id c)
  && eqb (rd_action_attempt_id r) (oar_action_attempt_id c).

(** [==] on two dictionaries or [None]. *)
Definition same_result (r r' : option (list (string * json))) : bool :=
  match r, r' with
  | None, None => true
  | Some r, Some r' => json_eqb (JObj r) (JObj r')
  | _, _ => false
  end.

Definition decision_differs (stored : ActionReconciliationDecision) (c : OperatorActionResolution) : bool :=
  negb (eqb (rd_id stored) (oar_decision_id c)) || negb (eqb (rd_actor_id stored) (oar_actor_id c))
  || negb (eqb (rd_resolution stored) (oar_resolution c)) || negb (eqb (rd_evidence stored) (oar_evidence c))
  || negb (eqb (rd_provider_reference stored) (oar_provider_reference c))
  || negb (same_result (rd_result stored) (oar_result c)).

Definition _require_same_decision (stored : ActionReconciliationDecision) (c : OperatorActionResolution) : result unit :=
  raise_if (decision_differs stored c) ActionResolutionConflict
    "action attempt already has a different reconciliation decision".

(** [_result] leaves the conflict at its default. *)
Definition resolution_result (a : ActionAttempt) : ActionExecutionResult :=
  mkExecutionResult (aa_action_request_id a) (aa_id a) (aa_status a) (aa_idempotency_key a)
    (aa_provider_reference a) (aa_result a) (aa_facts a) (aa_error a) None.

Definition is_unknown_attempt (s : ActionAttemptStatus) : bool :=
  match s with AT_UNKNOWN | AT_RECONCILING => true | _ => false end.

Definition is_resolved_attempt (c : OperatorActionResolution) (a : ActionAttempt) : bool :=
  eqb (aa_tenant_id a) (oar_tenant_id c) && eqb (aa_process_instance_id a) (oar_process_instance_id c)
  && eqb (aa_id a) (oar_action_attempt_id c).

(** The join of the attempt with its request. *)
Definition attempt_and_request (c : OperatorActionResolution) : Tx (option (ActionAttempt * ActionRequest)) :=
  attempts ← select (is_resolved_attempt c);
  requests ← select (λ _ : ActionRequest, true);
  one_or_none (a ← attempts; r ← List.filter (λ r, eqb (ar_id r) (aa_action_request_id a)) requests; [(a, r)]).

Definition new_decision (c : OperatorActionResolution) (a : ActionAttempt) (now : Z) : ActionReconciliationDecision :=
  mkActionReconciliationDecision (oar_decision_id c) (oar_tenant_id c) (oar_process_instance_id c)
    (aa_action_request_id a) (aa_id a) (oar_actor_id c) (aa_status a) (oar_resolution c) (oar_evidence c)
    (oar_provider_reference c) (oar_result c) now.

Definition resolved_attempt (c : OperatorActionResolution) (completed_at : Z) (a : ActionAttempt) : ActionAttempt :=
  a <| aa_status := attempt_status_of_resolution (oar_resolution c) |>
    <| aa_provider_reference ::= (λ p, match oar_provider_reference c with Some q => Some q | None => p end) |>
    <| aa_result ::= (λ r, match oar_result c with Some q => Some q | None => r end) |>
    <| aa_completed_at := Some completed_at |>.

Definition resolution_key (c : OperatorActionResolution) : string :=
  "action-resolution:" +:+ str_uuid (oar_decision_id c).
Definition resolution_message (id : UUID) (c : OperatorActionResolution) (a : ActionAttempt) (workflow_id : string)
    (now : Z) : OutboxMessage :=
  new_outbox_message id (oar_tenant_id c) (oar_process_instance_id c) None "temporal.action_resolution" workflow_id
    (resolution_key c)
    [("command_id", JStr (str_uuid (oar_decision_id c)));
     ("action_request_id", JStr (str_uuid (aa_action_request_id a)));
     ("action_attempt_id", JStr (str_uuid (aa_id a))); ("status", JStr (resolution_value (oar_resolution c)))]%string
    now.

Definition settle_attempt (c : OperatorActionResolution) (a : ActionAttempt) (r : ActionRequest)
  : Tx ActionExecutionResult :=
  now ← transaction_now;
  completed_at ← utcnow;
  _ ← insert (new_decision c a now);
  _ ← update (aa_id a) (resolved_attempt c completed_at);
  _ ← set_request_status (ar_id r) (request_status_of_attempt (attempt_status_of_resolution (oar_resolution c)));
  process ← scalar (λ p : ProcessInstance, eqb (pi_id p) (oar_process_instance_id c));
  match process with
  | None => tx_raise ActionResolutionConflict "action process has no workflow identity"
  | Some p =>
      id ← draw_uuid;
      _ ← insert_or_skip same_dedup (resolution_message id c a (pi_workflow_id p) now);
      mret (resolution_result (resolved_attempt c completed_at a))
  end.

(** [ActionReconciliationService.resolve_unknown] *)
Definition resolve_unknown (c : OperatorActionResolution) : Tx ActionExecutionResult :=
  _ ← set_tenant_context (oar_tenant_id c);
  existing ← scalar (is_decision_of c);
  match existing with
  | Some stored =>
      _ ← lift_result (_require_same_decision stored c);
      attempt ← scalar (λ a : ActionAttempt, eqb (aa_id a) (oar_action_attempt_id c));
      match attempt with
      | None => tx_raise ActionResolutionConflict "resolved action attempt is unavailable"
      | Some a => mret (resolution_result a)
      end
  | None =>
      row ← attempt_and_request c;
      match row with
      | None => tx_raise ActionResolutionConflict "action attempt not found"
      | Some (a, r) =>
          if is_unknown_attempt (aa_status a) then settle_attempt c a r
          else
            concurrently_stored ← scalar (is_decision_of c);
            match concurrently_stored with
            | Some stored => _ ← lift_result (_require_same_decision stored c); mret (resolution_result a)
            | None => tx_raise ActionResolutionConflict "only an unknown action outcome can be resolved"
            end
      end
  end.

(** ** What it does *)

(** A repeated decision, or the settlement of an unknown outcome. *)
Inductive resolution_effect (c : OperatorActionResolution) (d : Db) : ActionExecutionResult → Db → Prop :=
  | resolution_replayed stored a :
      hd_error (List.filter (is_decision_of c) (action_reconciliation_decisions d)) = Some stored →
      decision_differs stored c = false →
      hd_error (List.filter (λ a, seen (oar_tenant_id c) a && eqb (aa_id a) (oar_action_attempt_id c)) (action_attempts d))
        = Some a →
      resolution_effect c d (resolution_result a) d
  | resolution_applied a r now completed_at d' :
      List.filter (is_decision_of c) (action_reconciliation_decisions d) = [] →
      a ∈ action_attempts d → is_resolved_attempt c a = true → is_unknown_attempt (aa_status a) = true →
      r ∈ action_requests d → ar_id r = aa_action_request_id a →
      action_reconciliation_decisions d' = action_reconciliation_decisions d ++ [new_decision c a now] →
      action_attempts d' = touch (oar_tenant_id c) (aa_id a) (resolved_attempt c completed_at) <$> action_attempts d →
      action_requests d' = touch (oar_tenant_id c) (ar_id r)
        (λ r, r <| ar_status := request_status_of_attempt (attempt_status_of_resolution (oar_resolution c)) |>)
        <$> action_requests d →
      scheduled d' (oar_tenant_id c) (resolution_key c) →
      process_instances d' = process_instances d →
      resolution_effect c d (resolution_result (resolved_attempt c completed_at a)) d'.

Lemma attempt_and_request_ok c s a r s' :
  s_tenant s = Some (oar_tenant_id c) → attempt_and_request c s = Ok (Some (a, r), s') →
  s' = s ∧ a ∈ action_attempts (s_db s) ∧ is_resolved_attempt c a = true ∧ r ∈ action_requests (s_db s)
  ∧ ar_id r = aa_action_request_id a.
Proof.
  intros Hs H. unfold attempt_and_request in H.
  rewrite (tx_bind_run _ _ _ _ _ (select_seen s _ _ Hs)), (tx_bind_run _ _ _ _ _ (select_seen s _ _ Hs)) in H.
  match type of H with one_or_none ?rows _ = _ => assert (s' = s ∧ (a, r) ∈ rows) as [-> Hin] end.
  { destruct (_ ≫= _) as [|x [|]]; [|apply mret_ok in H as [[= ->] ->]; split; [done|left]|done].
    by apply mret_ok in H as [? _]. }
  apply list_elem_of_bind in Hin as (a' & Hin & [Ha Hina]%elem_of_filter_bool). apply andb_true_iff in Ha as [_ Ha].
  apply list_elem_of_bind in Hin as (r' & Hin & [Er%eqb_true [_ Hinr]%elem_of_filter_bool]%elem_of_filter_bool).
  apply list_elem_of_singleton in Hin as [= -> ->]. done.
Qed.

Lemma settle_attempt_ok c a r s res s' :
  s_tenant s = Some (oar_tenant_id c) → settle_attempt c a r s = Ok (res, s') →
  ∃ now completed_at, res = resolution_result (resolved_attempt c completed_at a)
  ∧ action_reconciliation_decisions (s_db s') = action_reconciliation_decisions (s_db s) ++ [new_decision c a now]
  ∧ action_attempts (s_db s') = touch (oar_tenant_id c) (aa_id a) (resolved_attempt c completed_at) <$> action_attempts (s_db s)
  ∧ action_requests (s_db s') = touch (oar_tenant_id c) (ar_id r)
      (λ r, r <| ar_status := request_status_of_attempt (attempt_status_of_resolution (oar_resolution c)) |>)
      <$> action_requests (s_db s)
  ∧ scheduled (s_db s') (oar_tenant_id c) (resolution_key c) ∧ process_instances (s_db s') = process_instances (s_db s).
Proof.
  intros Hs H. unfold settle_attempt, set_request_status in H.
  apply tx_bind_ok in H as (now & ? & [_ ->]%transaction_now_ok & H).
  apply tx_bind_ok in H as (completed_at & ? & [_ ->]%utcnow_ok & H).
  apply tx_bind_ok in H as ([] & ? & [_ ->]%insert_ok & H).
  apply tx_bind_ok in H as ([] & ? & Hu & H). rewrite (update_touch _ (oar_tenant_id c)) in Hu by done. injection Hu as <-.
  apply tx_bind_ok in H as ([] & ? & Hu & H). rewrite (update_touch _ (oar_tenant_id c)) in Hu by done. injection Hu as <-.
  apply tx_bind_ok in H as (process & ? & [-> _]%scalar_ok & H). destruct process as [p|]; [|done].
  apply tx_bind_ok in H as (id & ? & [_ ->]%draw_uuid_ok & H).
  apply tx_bind_ok in H as (o & s1 & Hi & [-> ->]%mret_ok).
  assert (action_reconciliation_decisions (s_db s1) = action_reconciliation_decisions (s_db s) ++ [new_decision c a now]
    ∧ action_attempts (s_db s1) = touch (oar_tenant_id c) (aa_id a) (resolved_attempt c completed_at) <$> action_attempts (s_db s)
    ∧ action_requests (s_db s1) = touch (oar_tenant_id c) (ar_id r)
      (λ r, r <| ar_status := request_status_of_attempt (attempt_status_of_resolution (oar_resolution c)) |>)
      <$> action_requests (s_db s)
    ∧ process_instances (s_db s1) = process_instances (s_db s)) as (E1 & E2 & E3 & E4).
  { apply insert_or_skip_ok in Hi as [(_ & _ & ->)|(_ & _ & [_ ->]%insert_ok)]; done. }
  apply (insert_or_skip_scheduled _ (oar_tenant_id c)) in Hi as (_ & Hsch & _); [|done|done].
  exists now, completed_at. done.
Qed.

Lemma resolve_unknown_ok c s res s' :
  resolve_unknown c s = Ok (res, s') → resolution_effect c (s_db s) res (s_db s').
Proof.
  intros H. unfold resolve_unknown in H. apply tx_bind_ok in H as ([] & ? & ->%set_tenant_context_ok & H).
  set (s0 := s <| s_tenant := Some (oar_tenant_id c) |>) in H.
  assert (s_tenant s0 = Some (oar_tenant_id c)) as Hs0 by done. change (s_db s) with (s_db s0). clearbody s0. clear s.
  assert (∀ r, is_decision_of c r = true → row_tenant r = oar_tenant_id c) as Htd by (unfold is_decision_of; tenant_first).
  rewrite (tx_bind_run _ _ _ _ _ (scalar_run s0 _ _ Hs0 Htd)) in H.
  cbn [table ActionReconciliationDecision_table] in H.
  destruct (hd_error (List.filter (is_decision_of c) _)) as [stored|] eqn:Hd.
  - apply tx_bind_ok in H as ([] & ? & [Hsame%raise_if_ok ->]%lift_result_ok & H).
    rewrite (tx_bind_run _ _ _ _ _ (scalar_seen s0 _ _ Hs0)) in H. cbn [table ActionAttempt_table] in H.
    destruct (hd_error (List.filter _ (action_attempts _))) as [a|] eqn:Ha; [|done]. apply mret_ok in H as [-> ->].
    by eapply resolution_replayed.
  - apply tx_bind_ok in H as (row & s1 & Hrow & H). destruct row as [[a r]|]; [|done].
    apply attempt_and_request_ok in Hrow as (-> & Hin & Ha & Hinr & Er); [|done].
    destruct (is_unknown_attempt (aa_status a)) eqn:Eu.
    + apply settle_attempt_ok in H as (now & completed_at & -> & ? & ? & ? & ? & ?); [|done].
      eapply resolution_applied; eauto. by destruct (List.filter (is_decision_of c) _).
    + rewrite (tx_bind_run _ _ _ _ _ (scalar_run s0 _ _ Hs0 Htd)) in H.
      cbn [table ActionReconciliationDecision_table] in H. by rewrite Hd in H.
Qed.

Lemma resolution_stored c d res d' :
  resolution_effect c d res d' → NoDup (aa_id <$> action_attempts d) → same_result (oar_result c) (oar_result c) = true →
  ∃ stored a, hd_error (List.filter (is_decision_of c) (action_reconciliation_decisions d')) = Some stored
    ∧ decision_differs stored c = false ∧ res = resolution_result a
    ∧ hd_error (List.filter (λ a, seen (oar_tenant_id c) a && eqb (aa_id a) (oar_action_attempt_id c)) (action_attempts d')) = Some a.
Proof.
  intros H Hn Hj. destruct H as [stored a Hd Hdiff Ha|a r now completed_at d' Hno Hin Ha Hu _ _ Hd Hatt _ _ _].
  { by exists stored, a. }
  unfold is_resolved_attempt in Ha. rewrite !andb_true_iff, !eqb_eq in Ha. destruct Ha as [[Ht Hp] Hid].
  exists (new_decision c a now), (resolved_attempt c completed_at a). split_and!.
  - rewrite Hd, List.filter_app, Hno. cbn. unfold is_decision_of. cbn. by rewrite Hid, !eqb_refl.
  - unfold decision_differs. cbn. by rewrite Hj, !eqb_refl.
  - done.
  - rewrite Hatt. erewrite (head_touch _ _ (resolved_attempt c completed_at)); [by rewrite touch_self|done|].
    destruct (hd_error _) as [x|] eqn:Hx.
    + apply hd_filter_Some in Hx as [Hx [_ Hxid%eqb_true]%andb_true_iff]. f_equal.
      eapply (same_row aa_id); [exact Hn|done..|congruence].
    + apply hd_filter_None in Hx. rewrite Forall_forall in Hx. specialize (Hx a Hin).
      unfold seen in Hx. cbn in Hx. by rewrite Ht, Hid, !eqb_refl in Hx.
Qed.

Lemma resolve_unknown_found c stored later :
  hd_error (List.filter (is_decision_of c) (action_reconciliation_decisions (s_db later))) = Some stored →
  resolve_unknown c later =
  if decision_differs stored c
  then raise ActionResolutionConflict "action attempt already has a different reconciliation decision"
  else match hd_error (List.filter (λ a, seen (oar_tenant_id c) a && eqb (aa_id a) (oar_action_attempt_id c))
                         (action_attempts (s_db later))) with
       | Some a => Ok (resolution_result a, later <| s_tenant := Some (oar_tenant_id c) |>)
       | None => raise ActionResolutionConflict "resolved action attempt is unavailable"
       end.
Proof.
  intros Hx. unfold resolve_unknown. set (s0 := later <| s_tenant := Some (oar_tenant_id c) |>).
  assert (s_tenant s0 = Some (oar_tenant_id c)) as Hs0 by done.
  rewrite (tx_bind_run _ _ later tt s0) by done.
  erewrite tx_bind_run; [|apply (scalar_run s0 (oar_tenant_id c)); [done|unfold is_decision_of; tenant_first]].
  cbn [table ActionReconciliationDecision_table]. change (s_db s0) with (s_db later). rewrite Hx.
  unfold _require_same_decision. destruct (decision_differs stored c); [done|].
  rewrite (tx_bind_run _ _ s0 tt s0) by done. rewrite (tx_bind_run _ _ _ _ _ (scalar_seen s0 _ _ Hs0)).
  change (table (s_db s0)) with (action_attempts (s_db later)).
  by destruct (hd_error (List.filter _ (action_attempts _))).
Qed.

(** An operator's decision on an outcome stands.  After a resolution, the same
    command returns the same result and changes nothing, whatever other attempts and
    decisions followed; another decision on the attempt, under another identity, by
    another actor, with another outcome, evidence or provider reference, is refused. *)
Theorem operator_decisions_stand c s res s' later more more_attempts :
  resolve_unknown c s = Ok (res, s') → NoDup (aa_id <$> action_attempts (s_db s)) →
  same_result (oar_result c) (oar_result c) = true →
  action_reconciliation_decisions (s_db later) = action_reconciliation_decisions (s_db s') ++ more →
  action_attempts (s_db later) = action_attempts (s_db s') ++ more_attempts →
  resolve_unknown c later = Ok (res, later <| s_tenant := Some (oar_tenant_id c) |>)
  ∧ ∀ c', oar_tenant_id c' = oar_tenant_id c → oar_process_instance_id c' = oar_process_instance_id c →
      oar_action_attempt_id c' = oar_action_attempt_id c →
      oar_decision_id c' ≠ oar_decision_id c ∨ oar_actor_id c' ≠ oar_actor_id c
      ∨ oar_resolution c' ≠ oar_resolution c ∨ oar_evidence c' ≠ oar_evidence c
      ∨ oar_provider_reference c' ≠ oar_provider_reference c →
      ∃ msg, resolve_unknown c' later = raise ActionResolutionConflict msg.
Proof.
  intros H%resolve_unknown_ok Hn Hj Hmore Hatt. apply resolution_stored in H as (stored & a & Hs & Hd & -> & Ha); [|done..].
  assert (hd_error (List.filter (is_decision_of c) (action_reconciliation_decisions (s_db later))) = Some stored) as Hl.
  { rewrite Hmore, List.filter_app. by destruct (List.filter _ (action_reconciliation_decisions (s_db s'))). }
  split.
  - rewrite (resolve_unknown_found c stored), Hd by done. rewrite Hatt, List.filter_app.
    by destruct (List.filter _ (action_attempts (s_db s'))); [|injection Ha as ->].
  - intros c' Ht Hp Hid Hne.
    assert (is_decision_of c' = is_decision_of c) as E by (unfold is_decision_of; by rewrite Ht, Hp, Hid).
    rewrite (resolve_unknown_found c' stored) by (by rewrite E).
    destruct (decision_differs stored c') eqn:E'; [by eexists|]. exfalso. unfold decision_differs in E', Hd.
    rewrite !orb_false_iff, !negb_false_iff, !eqb_eq in E', Hd.
    destruct E' as [[[[[]]]]], Hd as [[[[[]]]]], Hne as [?|[?|[?|[?|?]]]]; congruence.
Qed.

(** Only unknown outcomes are decided.  A new decision applies to an attempt of
    unknown outcome of the process; it settles that attempt as the operator says, keeps
    the provider's reference unless the operator supplies one, sets the request to the
    same outcome, stores the evidence with the status it replaces, and schedules the
    delivery of the resolution; every other attempt stays. *)
Theorem unknown_outcomes_are_decided c s res s' :
  resolve_unknown c s = Ok (res, s') →
  List.filter (is_decision_of c) (action_reconciliation_decisions (s_db s)) = [] →
  NoDup (aa_id <$> action_attempts (s_db s)) →
  ∃ a a' d, a ∈ action_attempts (s_db s) ∧ aa_id a = oar_action_attempt_id c
    ∧ aa_process_instance_id a = oar_process_instance_id c ∧ is_unknown_attempt (aa_status a) = true
    ∧ a' ∈ action_attempts (s_db s') ∧ aa_id a' = aa_id a ∧ aa_idempotency_key a' = aa_idempotency_key a
    ∧ aa_status a' = attempt_status_of_resolution (oar_resolution c) ∧ is_settled_attempt (aa_status a') = true
    ∧ aa_provider_reference a' = match oar_provider_reference c with Some p => Some p | None => aa_provider_reference a end
    ∧ res = resolution_result a'
    ∧ (∀ x, x ∈ action_attempts (s_db s) → x ≠ a → x ∈ action_attempts (s_db s'))
    ∧ action_reconciliation_decisions (s_db s') = action_reconciliation_decisions (s_db s) ++ [d]
    ∧ rd_previous_status d = aa_status a ∧ rd_evidence d = oar_evidence c ∧ rd_actor_id d = oar_actor_id c
    ∧ (∃ r, r ∈ action_requests (s_db s') ∧ ar_id r = aa_action_request_id a ∧ (ar_tenant_id r = oar_tenant_id c →
         ar_status r = request_status_of_attempt (aa_status a')))
    ∧ scheduled (s_db s') (oar_tenant_id c) (resolution_key c).
Proof.
  intros H%resolve_unknown_ok Hno Hn.
  destruct H as [stored a Hd Hdiff Ha|a r now completed_at d' _ Hin Ha Hu Hr Er Hd Hatt Hreq Hsch _]; [by rewrite Hno in Hd|].
  unfold is_resolved_attempt in Ha. rewrite !andb_true_iff, !eqb_eq in Ha. destruct Ha as [[Ht Hp] Hid].
  exists a, (resolved_attempt c completed_at a), (new_decision c a now). rewrite Hatt, Hreq. split_and!; try done.
  - apply list_elem_of_fmap. exists a. split; [by rewrite touch_self|done].
  - cbn. by destruct (oar_resolution c).
  - intros x Hx Hne. apply list_elem_of_fmap. exists x. split; [|done].
    destruct (touch_cases (oar_tenant_id c) (aa_id a) (resolved_attempt c completed_at) x) as [->|(_ & _ & E)]; [done|].
    destruct Hne. by eapply (same_row aa_id).
  - eexists. split; [by apply list_elem_of_fmap_2, Hr|].
    set (f := λ r, _). destruct (touch_cases (oar_tenant_id c) (ar_id r) f r) as [E|(-> & _)]; [|done].
    split; [by rewrite E|]. intros Hrt. rewrite touch_self; [done|done|]. by rewrite E in Hrt.
Qed.

(** ** Examples *)

(** An action that sends no message. *)
Definition ex_unknown_db : Db := ex_execution_db <| action_attempts := [ex_attempt AT_UNKNOWN] |>
  <| action_requests := [ex_contact_request <| ar_status := UNKNOWN |> <| ar_action_type := "update_booking"%string |>] |>.
Definition ex_booking_executor : Executor :=
  let x := ex_executor ex_adapter in
  mkExecutor [("update_booking"%string, ex_adapter)] (ex_compatibility x) (ex_release x) (ex_registry x) false.
Definition ex_decision (r : ActionResolution) : OperatorActionResolution :=
  mkOperatorResolution (uuid 90) (uuid 10) (uuid 20) (uuid 65) (uuid 9) r "the provider lost it" None None.
Definition ex_retry (d : Db) (p : Phase) : Phase * Db * list ProviderCall :=
  advance ex_booking_executor ex_attempt_target ex_nothing ex_sent (ex_at d) p.

Definition ex_db_after (r : Phase * Db * list ProviderCall) : Db := snd (fst r).
Definition ex_lookup : Phase * Db * list ProviderCall := ex_retry ex_unknown_db Claiming.
Definition ex_claimed : Claimed :=
  match fst (fst ex_lookup) with
  | LookingUp c => c
  | _ => mkClaimed "" ex_adapter (communication_policy ex_process_definition) true end.
Definition ex_overruled : ActionExecutionResult * Session :=
  match resolve_unknown (ex_decision RES_FAILED) (ex_at (ex_db_after ex_lookup)) with
  | Ok r => r | Raise _ => (resolution_result (ex_attempt AT_UNKNOWN), ex_at ex_unknown_db) end.
Definition ex_fenced : Phase * Db * list ProviderCall := ex_retry (s_db (snd ex_overruled)) (Fencing ex_claimed).
Definition ex_outcome : Outcome := match fst (fst ex_fenced) with Recording _ o => o | _ => failure "" end.
Definition ex_recorded : Phase * Db * list ProviderCall :=
  ex_retry (ex_db_after ex_fenced) (Recording (cl_key ex_claimed) ex_outcome).

(** A decision does not stop a retry under way.  A retry of an attempt of unknown
    outcome finds nothing at the provider; before it reaches the fence an operator
    decides that the attempt failed; the fence still calls the provider, which performs
    the action, and the call ends with the failure that the operator decided, the
    provider's result lost. *)
Theorem decision_does_not_stop_a_retry :
  ∃ c d1 o s2 d3 outcome call r d4,
    ex_retry ex_unknown_db Claiming = (LookingUp c, d1, [])
    ∧ ex_retry d1 (LookingUp c) = (Fencing c, d1, [])
    ∧ resolve_unknown (ex_decision RES_FAILED) (ex_at d1) = Ok (o, s2) ∧ axr_status o = AT_FAILED
    ∧ ex_retry (s_db s2) (Fencing c) = (Recording (cl_key c) outcome, d3, [call]) ∧ oc_status outcome = AT_SUCCEEDED
    ∧ ex_retry d3 (Recording (cl_key c) outcome) = (Finished (Ok r), d4, []) ∧ axr_status r = AT_FAILED
    ∧ aa_status <$> action_attempts d4 = [AT_FAILED].
Proof.
  exists ex_claimed, (ex_db_after ex_lookup), (fst ex_overruled), (snd ex_overruled), (ex_db_after ex_fenced), ex_outcome,
    (hd (mkCall (uuid 0) (provider_request ex_attempt_target (mkAuthorized ex_contact_request ex_revision ex_policy_row
       ex_contact_process) "") true) (snd ex_fenced)),
    (match fst (fst ex_recorded) with Finished (Ok r) => r | _ => fst ex_overruled end), (ex_db_after ex_recorded).
  split_and!; vm_compute; reflexivity.
Qed.

Definition ex_decided : ActionExecutionResult * Session :=
  match resolve_unknown (ex_decision RES_SUCCEEDED) (ex_at ex_unknown_db) with
  | Ok r => r | Raise _ => (resolution_result (ex_attempt AT_UNKNOWN), ex_at ex_unknown_db) end.

Lemma operator_decisions_stand_witness :
  axr_status (fst ex_decided) = AT_SUCCEEDED
  ∧ resolve_unknown (ex_decision RES_SUCCEEDED) (snd ex_decided)
    = Ok (fst ex_decided, snd ex_decided <| s_tenant := Some (uuid 10) |>).
Proof.
  split; [vm_compute; reflexivity|].
  refine (proj1 (operator_decisions_stand (ex_decision RES_SUCCEEDED) (ex_at ex_unknown_db) (fst ex_decided)
    (snd ex_decided) (snd ex_decided) [] [] _ _ _ _ _)); [vm_compute; reflexivity|apply NoDup_singleton
    |reflexivity|by rewrite app_nil_r|by rewrite app_nil_r].
Defined.

Lemma unknown_outcomes_are_decided_witness :
  ∃ a', a' ∈ action_attempts (s_db (snd ex_decided)) ∧ aa_status a' = AT_SUCCEEDED.
Proof.
  destruct (unknown_outcomes_are_decided (ex_decision RES_SUCCEEDED) (ex_at ex_unknown_db) (fst ex_decided)
    (snd ex_decided)) as (_ & a' & _ & _ & _ & _ & _ & Ha & _ & _ & Hst & _);
    [vm_compute; reflexivity|vm_compute; reflexivity|apply NoDup_singleton|].
  exists a'. split; [exact Ha|exact Hst].
Defined.
