(* ===== verification/ExecutionFacts.v ===== *)
(** * Facts about [actions/execution.py]

    Settled attempts are final, the provider is called only under current
    authority and at most once for an adapter without idempotency, every call of
    [execute] and [reconcile] ends; and one branch settles an unresolved attempt
    as failed. *)

From stdpp Require Import base gmap list strings sets relations.
From Stdlib Require Import ZArith Lia.
From S2P Require Import Prelude Python PyTime Json Limits Contracts DecisionPolicy Definitions Communications Schema Session Budgets CommunicationSafety Deployment Execution.

#[local] Open Scope Z_scope.


(** ** The transactions that only read *)

Lemma reads_active_tenant t d : reads_only t (require_active_tenant t d).
Proof. unfold require_active_tenant. reads. Qed.
Lemma reads_tenant_deployment t d : reads_only t (require_tenant_deployment t d).
Proof. unfold require_tenant_deployment. reads. Qed.
#[export] Hint Resolve reads_active_tenant reads_tenant_deployment : reads.
Lemma reads_execution_enabled x t : reads_only t (_require_execution_enabled x t).
Proof. unfold _require_execution_enabled. reads. Qed.
Lemma reads_reconciliation_enabled x t : reads_only t (_require_reconciliation_enabled x t).
Proof. unfold _require_reconciliation_enabled. reads. Qed.
Lemma reads_exact_approval u t r v : reads_only u (require_exact_approval t r v).
Proof. unfold require_exact_approval. reads. Qed.
Lemma reads_joined_row u t : reads_only u (joined_row t).
Proof. unfold joined_row. reads. Qed.
#[export] Hint Resolve reads_execution_enabled reads_reconciliation_enabled reads_exact_approval
  reads_joined_row : reads.
Lemma reads_load u t : reads_only u (_load_authorized_action t).
Proof. unfold _load_authorized_action. reads. Qed.
#[export] Hint Resolve reads_load : reads.
Lemma reads_breaker_message x t a policy : reads_only t (_breaker_message x t a policy).
Proof. unfold _breaker_message. reads. Qed.
#[export] Hint Resolve reads_breaker_message : reads.

Section zones.
Context `{Zones}.

Lemma reads_communication_block u x t au policy now :
  reads_only u (communication_block x t au policy now).
Proof. unfold communication_block. reads. Qed.
#[local] Hint Resolve reads_communication_block : reads.
Lemma reads_fence x t c provider : reads_only (tg_tenant_id t) (fence x t c provider).
Proof. unfold fence. reads. Qed.
End zones.

(** ** What a session is scoped to *)

Lemma tenant_after_bind {A B} t (m : Tx A) (k : A → Tx B) s b s' :
  (∀ s a s1, m s = Ok (a, s1) → s_tenant s1 = Some t) → (m ≫= k) s = Ok (b, s') →
  ∃ a s1, m s = Ok (a, s1) ∧ s_tenant s1 = Some t ∧ k a s1 = Ok (b, s').
Proof. intros Hm (a & s1 & H1 & H2)%tx_bind_ok. eauto 6. Qed.

Lemma execution_enabled_ok x t s u s' :
  _require_execution_enabled x t s = Ok (u, s') →
  s' = s <| s_tenant := Some t |> ∧
  ∃ row, row ∈ tenants (s_db s) ∧ tn_id row = t ∧ tn_status row = TS_ACTIVE
    ∧ tn_deployment_id row = dr_deployment_id (ex_release x).
Proof.
  intros H%translate_ok. by apply require_active_tenant_ok in H.
Qed.

(** ** Attempts are never lost *)

(** Some attempt holds the identity. *)
Definition has_attempt (d : Db) (tenant : UUID) (key : string) : bool :=
  existsb (is_attempt tenant key) (action_attempts d).

(** Every identity that was held still is. *)
Definition attempts_kept (d d' : Db) : Prop :=
  ∀ tenant key, has_attempt d tenant key = true → has_attempt d' tenant key = true.

#[export] Instance attempts_kept_refl : Reflexive attempts_kept.
Proof. by intros d t k. Qed.
#[export] Instance attempts_kept_trans : Transitive attempts_kept.
Proof. intros d d' d'' H1 H2 t k H. by apply H2, H1. Qed.

Lemma same_idempotency_new id t key adapter started now a :
  same_idempotency (new_attempt id t key adapter started now) a = is_attempt (tg_tenant_id t) key a.
Proof. unfold same_idempotency, is_attempt. cbn. by rewrite eqb_sym, (eqb_sym key). Qed.

Lemma is_attempt_new id t key adapter started now :
  is_attempt (tg_tenant_id t) key (new_attempt id t key adapter started now) = true.
Proof. unfold is_attempt. cbn. by rewrite !eqb_refl. Qed.

(** How a claim treats the attempt of its key: it finds it, or it inserts it, and
    only a claim that inserts it is new. *)
Lemma claim_ok x t s r s' :
  claim x t s = Ok (r, s') →
  ∃ key, (∀ c, r = inr c → cl_key c = key) ∧
    ((has_attempt (s_db s) (tg_tenant_id t) key = true
      ∧ action_attempts (s_db s') = action_attempts (s_db s) ∧ ∀ c, r = inr c → cl_is_new c = false)
     ∨ ∃ id adapter started now, has_attempt (s_db s) (tg_tenant_id t) key = false
       ∧ action_attempts (s_db s')
         = action_attempts (s_db s) ++ [new_attempt id t key adapter started now]).
Proof.
  intros H. unfold claim in H.
  apply tx_bind_ok in H as ([] & s1 & [-> _]%execution_enabled_ok & H).
  apply tx_bind_ok in H as (au & s2 & Hl & H).
  apply (reads_load (tg_tenant_id t)) in Hl as [Hd2 _]. cbn in Hd2.
  apply tx_bind_ok in H as ([] & ? & [_ ->]%lift_result_ok & H).
  apply tx_bind_ok in H as (d & ? & [_ ->]%lift_result_ok & H).
  apply tx_bind_ok in H as (adapter & ? & [_ ->]%lift_result_ok & H).
  apply tx_bind_ok in H as (started & ? & [_ ->]%utcnow_ok & H).
  apply tx_bind_ok in H as (id & ? & [_ ->]%draw_uuid_ok & H).
  apply tx_bind_ok in H as (now & ? & [_ ->]%transaction_now_ok & H).
  apply tx_bind_ok in H as (inserted & s3 & Hi & H).
  apply tx_bind_ok in H as (attempt & ? & [-> _]%scalar_ok & H).
  destruct attempt as [a|]; [|done].
  apply tx_bind_ok in H as ([] & ? & [_ ->]%tx_raise_if_ok & H).
  exists (attempt_key t (au_revision au)).
  assert (action_attempts (s_db s') = action_attempts (s_db s3)
    ∧ ∀ c, r = inr c → cl_key c = attempt_key t (au_revision au)
                       ∧ cl_is_new c = bool_decide (is_Some inserted)) as [Hs' Hr].
  { destruct (is_settled_attempt (aa_status a)); unfold set_request_status in H; tx_inv;
      (split; [done|by intros c [= <-]]). }
  split; [intros c Hc; by apply Hr|].
  apply insert_or_skip_ok in Hi as [(Hex & -> & ->)|(Hex & -> & Hi)]; cbn [s_db field_update] in *.
  all: unfold has_attempt; erewrite existsb_ext in Hex by (intros; apply same_idempotency_new);
    cbn in Hex; rewrite Hd2 in Hex.
  - left. split_and!; [done|by rewrite Hs', <- Hd2|]. intros c Hc. by apply Hr in Hc as [_ ->].
  - right. apply insert_ok in Hi as [_ ->]. do 4 eexists. split; [done|].
    rewrite Hs'. cbn. by rewrite Hd2.
Qed.

Lemma existsb_touch {R} `{Table R} p tenant id (f : R → R) xs :
  (∀ r, p (f r) = p r) →
  existsb p ((λ r, if tenant r && eqb (row_id r) id then f r else r) <$> xs) = existsb p xs.
Proof.
  intros Hf. induction xs as [|x xs IH]; cbn; [done|]. rewrite IH. f_equal.
  by destruct (_ && eqb (row_id x) id).
Qed.

(** What the two updates do to the attempts. *)
Lemma update_attempts id f s u s' :
  update (R:=ActionAttempt) id f s = Ok (u, s') →
  action_attempts (s_db s')
  = (λ r, if visible s r && eqb (row_id r) id then f r else r) <$> action_attempts (s_db s).
Proof. by intros ->%update_ok. Qed.

Lemma set_request_status_attempts id st s u s' :
  set_request_status id st s = Ok (u, s') →
  action_attempts (s_db s') = action_attempts (s_db s).
Proof. unfold set_request_status. by intros ->%update_ok. Qed.

(** Recording an outcome: the attempt of the key is settled already and nothing
    changes, or that attempt alone receives the outcome. *)
Lemma record_terminal_ok t key o s r s' :
  _record_terminal t key o s = Ok (r, s') →
  ∃ a, hd_error (List.filter (λ a, eqb (Some (tg_tenant_id t)) (Some (aa_tenant_id a))
                                   && eqb (aa_idempotency_key a) key) (action_attempts (s_db s))) = Some a ∧
    ((is_settled_attempt (aa_status a) = true ∧ s_db s' = s_db s ∧ r = execution_result a)
     ∨ ∃ s1 now, is_settled_attempt (aa_status a) = false ∧ s_tenant s1 = Some (tg_tenant_id t)
         ∧ action_attempts (s_db s')
           = (λ x, if visible s1 x && eqb (row_id x) (aa_id a) then with_outcome o now x else x)
               <$> action_attempts (s_db s)
         ∧ r = execution_result (with_outcome o now a)).
Proof.
  intros H. unfold _record_terminal in H.
  apply tx_bind_ok in H as ([] & ? & ->%set_tenant_context_ok & H).
  apply tx_bind_ok in H as (a & ? & [-> Ha]%scalar_ok & H).
  apply tx_bind_ok in H as (rq & ? & [-> _]%scalar_ok & H).
  destruct a as [a|]; [|done]. destruct rq as [rq|]; [|done]. exists a. split; [done|].
  destruct (is_settled_attempt (aa_status a)); [left; by tx_inv|]. right.
  apply tx_bind_ok in H as (now & ? & [_ ->]%utcnow_ok & H).
  apply tx_bind_ok in H as ([] & s1 & Hu%update_attempts & H).
  apply tx_bind_ok in H as ([] & s2 & Hr%set_request_status_attempts & [-> ->]%mret_ok).
  eexists _, now. split_and!; [done| |by rewrite Hr, Hu|done]. done.
Qed.

Lemma record_terminal_kept t key o s r s' :
  _record_terminal t key o s = Ok (r, s') → attempts_kept (s_db s) (s_db s').
Proof.
  intros (a & _ & [(_ & -> & _)|(s1 & now & _ & _ & E & _)])%record_terminal_ok; [done|].
  intros tn k Hk. unfold has_attempt. rewrite E.
  by rewrite (existsb_touch (is_attempt tn k) (visible s1)).
Qed.

(** Starting a reconciliation changes only an attempt that is not settled. *)
Lemma claim_reconciliation_ok x t s r s' :
  claim_reconciliation x t s = Ok (r, s') →
  ∃ a, a ∈ action_attempts (s_db s) ∧
    ((is_settled_attempt (aa_status a) = true ∧ r = inl (execution_result a)
      ∧ action_attempts (s_db s') = action_attempts (s_db s))
     ∨ ∃ s1 key, r = inr key ∧ is_settled_attempt (aa_status a) = false
         ∧ action_attempts (s_db s')
           = (λ x, if visible s1 x && eqb (row_id x) (aa_id a) then x <| aa_status := AT_RECONCILING |> else x)
               <$> action_attempts (s_db s)).
Proof.
  intros H. unfold claim_reconciliation in H.
  apply tx_bind_ok in H as ([] & s1 & H1 & H).
  apply (reads_reconciliation_enabled x (tg_tenant_id t)) in H1 as [Hd1 _].
  apply tx_bind_ok in H as (au & s2 & H2 & H).
  apply (reads_load (tg_tenant_id t)) in H2 as [Hd2 _].
  apply tx_bind_ok in H as ([] & ? & [_ ->]%lift_result_ok & H).
  apply tx_bind_ok in H as (adapter & ? & [_ ->]%lift_result_ok & H).
  apply tx_bind_ok in H as (a & ? & [-> Ha]%scalar_ok & H).
  destruct a as [a|]; [|done]. symmetry in Ha. apply hd_filter_Some in Ha as [Ha _].
  cbn in Ha. rewrite Hd2, Hd1 in Ha. exists a. split; [done|].
  destruct (is_settled_attempt (aa_status a)).
  - left. apply mret_ok in H as [-> ->]. by rewrite Hd2, Hd1.
  - right. apply tx_bind_ok in H as ([] & s3 & Hu%update_attempts & H).
    apply tx_bind_ok in H as ([] & s4 & Hr%set_request_status_attempts & [-> ->]%mret_ok).
    eexists s2, _. split_and!; [done..|]. by rewrite Hr, Hu, Hd2, Hd1.
Qed.

Lemma claim_reconciliation_kept x t s r s' :
  claim_reconciliation x t s = Ok (r, s') → attempts_kept (s_db s) (s_db s').
Proof.
  intros (a & _ & [(_ & _ & E)|(s1 & ? & _ & _ & E)])%claim_reconciliation_ok tn k Hk;
    unfold has_attempt; rewrite E; [done|].
  by rewrite (existsb_touch (is_attempt tn k) (visible s1)).
Qed.

(** ** Interleaved calls *)

(** A call waits at the fence with the identity, for an adapter without
    idempotency. *)
Definition at_fence (tenant : UUID) (key : string) (job : ActionTarget * Phase) : bool :=
  match snd job with
  | Fencing c => eqb (tg_tenant_id (fst job)) tenant && eqb (cl_key c) key
                 && negb (ad_guarantees_idempotency (cl_adapter c))
  | _ => false
  end.

(** A provider execution of the identity by an adapter without idempotency. *)
Definition unrepeatable (tenant : UUID) (key : string) (c : ProviderCall) : bool :=
  eqb (pc_tenant c) tenant && eqb (pr_idempotency_key (pc_request c)) key && negb (pc_idempotent c).

Definition tally {A} (p : A → bool) (xs : list A) : nat := length (List.filter p xs).

Lemma tally_app {A} (p : A → bool) xs ys : tally p (xs ++ ys) = (tally p xs + tally p ys)%nat.
Proof. unfold tally. by rewrite List.filter_app, length_app. Qed.
Lemma tally_cons {A} (p : A → bool) x xs : tally p (x :: xs) = ((if p x then 1 else 0) + tally p xs)%nat.
Proof. unfold tally. cbn. by destruct (p x). Qed.
Lemma tally_insert {A} (p : A → bool) xs i x y :
  xs !! i = Some x →
  (tally p (<[i := y]> xs) + (if p x then 1 else 0) = tally p xs + (if p y then 1 else 0))%nat.
Proof.
  intros Hi. assert (tally p xs = tally p (take i xs ++ x :: drop (S i) xs)) as ->
    by (by rewrite take_drop_middle).
  rewrite insert_take_drop by (by eapply lookup_lt_Some).
  rewrite !tally_app, !tally_cons. lia.
Qed.

Section system.
Context `{Zones}.

Lemma fence_called x t c provider s r resp s' :
  fence x t c provider s = Ok (Called r resp, s') → pr_idempotency_key r = cl_key c.
Proof.
  intros H1. unfold fence in H1.
  apply tx_bind_ok in H1 as ([] & ? & _ & H1). apply tx_bind_ok in H1 as (au & ? & _ & H1).
  apply tx_bind_ok in H1 as ([] & ? & _ & H1). apply tx_bind_ok in H1 as (now & ? & _ & H1).
  apply tx_bind_ok in H1 as (block & ? & _ & H1). destruct block; [by tx_inv|].
  apply tx_bind_ok in H1 as (breaker & ? & _ & H1). destruct breaker; [by tx_inv|].
  apply mret_ok in H1 as [[= -> _] _]. done.
Qed.

(** One phase either spends the identity it holds at the fence, or takes it for the
    first time. *)
Lemma advance_spends x t lookup provider s p p' d' calls :
  advance x t lookup provider s p = (p', d', calls) →
  attempts_kept (s_db s) d' ∧
  ∀ tn k,
    (tally (unrepeatable tn k) calls + (if at_fence tn k (t, p') then 1 else 0)
       <= if at_fence tn k (t, p) then 1 else 0)%nat
    ∨ (has_attempt (s_db s) tn k = false ∧ has_attempt d' tn k = true ∧ calls = []).
Proof.
  destruct p as [|c|c| |key|key o|r]; cbn [advance commit].
  - destruct (claim x t s) as [[r s']|e] eqn:E; cbn; [|by intros [= <- <- <-]; split; [done|left]].
    apply claim_ok in E as (key & Hkey & Hcase). intros Ha.
    assert (d' = s_db s' ∧ calls = []) as [-> ->] by (destruct r; by injection Ha as <- <- <-).
    destruct Hcase as [(Hhas & Hsame & Hnew)|(id & ad & st & now & Hnone & Hadd)].
    + split; [intros tn k; unfold has_attempt; by rewrite Hsame|]. intros tn k. left.
      destruct r as [|c]; injection Ha as <-; [done|]. by rewrite (Hnew c eq_refl).
    + assert (∀ tn k, has_attempt (s_db s') tn k
        = has_attempt (s_db s) tn k || is_attempt tn k (new_attempt id t key ad st now)) as Hh.
      { intros tn k. unfold has_attempt. rewrite Hadd, existsb_app. cbn. by rewrite orb_false_r. }
      split; [intros tn k Hk; by rewrite Hh, Hk|]. intros tn k.
      destruct (is_attempt tn k (new_attempt id t key ad st now)) eqn:Ei.
      * right. rewrite Hh, Ei, orb_true_r. unfold is_attempt in Ei. cbn in Ei.
        apply andb_true_iff in Ei as [<-%eqb_true <-%eqb_true]. done.
      * left. destruct r as [|c]; injection Ha as <-; [done|]. destruct (cl_is_new c); [|done].
        unfold at_fence. cbn. rewrite (Hkey c eq_refl). unfold is_attempt in Ei. cbn in Ei. by rewrite Ei.
  - intros [= <- <- <-]. split; [done|]. intros tn k. left. cbn.
    destruct (lookup (cl_key c)); cbn; try done.
    destruct (ad_guarantees_idempotency (cl_adapter c)) eqn:E; cbn; [|done].
    unfold at_fence. cbn. by rewrite E, andb_false_r.
  - destruct (fence x t c provider s) as [[f s']|e] eqn:E; cbn.
    2:{ intros [= <- <- <-]. split; [done|]. intros tn k. left. cbn. case_if; lia. }
    intros [= <- <- <-]. pose proof (reads_fence x t c provider _ _ _ E) as [-> _].
    split; [done|]. intros tn k. left. destruct f as [m|m|r resp]; cbn -[Nat.add].
    1-2: case_if; cbn; lia.
    apply fence_called in E. unfold unrepeatable, at_fence, tally. cbn. rewrite E.
    destruct (_ && negb _); cbn; lia.
  - destruct (claim_reconciliation x t s) as [[r s']|e] eqn:E; cbn; [|by intros [= <- <- <-]; split; [done|left]].
    apply claim_reconciliation_kept in E. destruct r; intros [= <- <- <-]; split; try done; by left.
  - intros [= <- <- <-]. split; [done|by left].
  - destruct (_record_terminal t key o s) as [[r s']|e] eqn:E; cbn; [|by intros [= <- <- <-]; split; [done|left]].
    apply record_terminal_kept in E. intros [= <- <- <-]. split; [done|by left].
  - intros [= <- <- <-]. split; [done|by left].
Qed.
End system.

(** Any number of calls in progress over one database, with the provider
    executions so far. *)
Record System := mkSystem {
  sy_db : Db; sy_jobs : list (ActionTarget * Phase); sy_calls : list ProviderCall
}.

Section interleaving.
Context `{Zones}.

(** A call of [execute] or [reconcile] begins; a call in progress, on any worker and
    in any session, takes its next phase; or another transaction commits, which
    neither deletes an attempt nor changes its identity. *)
Inductive step (st : System) : System → Prop :=
  | step_begin t p :
      p = Claiming ∨ p = ClaimingReconciliation →
      step st (mkSystem (sy_db st) (sy_jobs st ++ [(t, p)]) (sy_calls st))
  | step_call i t p x lookup provider s p' d' calls :
      sy_jobs st !! i = Some (t, p) → s_db s = sy_db st →
      advance x t lookup provider s p = (p', d', calls) →
      step st (mkSystem d' (<[i := (t, p')]> (sy_jobs st)) (sy_calls st ++ calls))
  | step_other d' :
      attempts_kept (sy_db st) d' → step st (mkSystem d' (sy_jobs st) (sy_calls st)).

(** Each identity was executed, or may yet be, at most once; and only if an attempt
    holds it. *)
Definition spent_once (st : System) : Prop :=
  ∀ tn k, let n := (tally (unrepeatable tn k) (sy_calls st) + tally (at_fence tn k) (sy_jobs st))%nat in
    (n <= 1)%nat ∧ (has_attempt (sy_db st) tn k = false → n = 0%nat).

Lemma step_spent_once st st' : spent_once st → step st st' → spent_once st'.
Proof.
  intros Hst Hstep tn k. specialize (Hst tn k) as [Hle Hz].
  destruct Hstep as [t p Hp|i t p x lookup provider s p' d' calls Hi Hd Hadv|d' Hk]; cbn [sy_db sy_jobs sy_calls].
  - rewrite tally_app. assert (tally (at_fence tn k) [(t, p)] = 0%nat) as ->; [|rewrite Nat.add_0_r; auto].
    by destruct Hp as [-> | ->].
  - pose proof (tally_insert (at_fence tn k) _ _ _ (t, p') Hi) as Ht.
    apply advance_spends in Hadv as [Hkept Hsp]. rewrite Hd in *. rewrite tally_app.
    specialize (Hkept tn k). destruct (Hsp tn k) as [Hn|(Hno & Hyes & ->)].
    + split; [lia|]. intros Hn'. assert (has_attempt (sy_db st) tn k = false) as Hd0.
      { destruct (has_attempt (sy_db st) tn k); [|done]. rewrite Hn' in Hkept. by specialize (Hkept eq_refl). }
      specialize (Hz Hd0). lia.
    + specialize (Hz Hno). split; [|by rewrite Hyes]. change (tally (unrepeatable tn k) []) with 0%nat.
      destruct (at_fence tn k (t, p')), (at_fence tn k (t, p)); lia.
  - split; [done|]. intros Hn. apply Hz. specialize (Hk tn k).
    destruct (has_attempt (sy_db st) tn k); [|done]. rewrite Hn in Hk. by specialize (Hk eq_refl).
Qed.

Lemma steps_spent_once st st' : spent_once st → rtc step st st' → spent_once st'.
Proof. intros Hst. induction 1 as [|st1 st2 st3 H1 _ IH]; [done|]. apply IH. by eapply step_spent_once. Qed.

(** C24: a side effect is never repeated without the provider's help.  However calls
    of [execute] and [reconcile] for any actions are interleaved, on any workers,
    with any provider answers, crashes (a call that takes no further phase) and
    other transactions in between, an idempotency key of a tenant is executed at
    most once by adapters that do not guarantee idempotency. *)
Theorem executed_at_most_once d st tn k :
  rtc step (mkSystem d [] []) st → (tally (unrepeatable tn k) (sy_calls st) <= 1)%nat.
Proof.
  intros Hr. assert (spent_once st) as Hs by (eapply steps_spent_once; [|exact Hr]; intros ??; cbn; done || lia).
  specialize (Hs tn k) as [Hle _]. cbn in Hle. lia.
Qed.

(** ** Settled attempts *)

Lemma touched_other {R} `{Table R} (vis : R → bool) (f : R → R) xs a x :
  NoDup (row_id <$> xs) → a ∈ xs → x ∈ xs → x ≠ a →
  x ∈ (λ r, if vis r && eqb (row_id r) (row_id a) then f r else r) <$> xs.
Proof.
  intros Hnd Ha Hx Hne. apply list_elem_of_fmap. exists x. split; [|done].
  destruct (_ && eqb _ _) eqn:E; [|done]. apply andb_true_iff in E as [_ E%eqb_true].
  destruct Hne. apply list_elem_of_lookup in Ha as [i Hi], Hx as [j Hj].
  assert (j = i) as ->; [|congruence].
  eapply (NoDup_lookup (row_id <$> xs)); [done|by rewrite list_lookup_fmap, Hj|].
  by rewrite list_lookup_fmap, Hi, E.
Qed.

(** A settled attempt is final.  No phase of any call of [execute] or
    [reconcile] changes an attempt that has succeeded, failed or ended in a
    conflict, whatever the provider answers; a call that finds its attempt
    settled when it records its own outcome returns the stored one. *)
Theorem settled_attempts_are_final x t lookup provider s p p' d' calls a :
  NoDup (aa_id <$> action_attempts (s_db s)) →
  advance x t lookup provider s p = (p', d', calls) →
  a ∈ action_attempts (s_db s) → is_settled_attempt (aa_status a) = true →
  a ∈ action_attempts d'
  ∧ ∀ key o r, p = Recording key o → p' = Finished (Ok r) → is_attempt (tg_tenant_id t) key a = true →
      (∀ b, b ∈ action_attempts (s_db s) → is_attempt (tg_tenant_id t) key b = true → b = a) →
      r = execution_result a.
Proof.
  intros Hnd Hadv Ha Hset.
  destruct p as [|c|c| |key|key o|r]; cbn [advance commit] in Hadv; (split; [|intros k' o' r' [=]]).
  - destruct (claim x t s) as [[r s']|e] eqn:E; cbn in Hadv; [|by injection Hadv as <- <- <-].
    apply claim_ok in E as (key & _ & [(_ & E & _)|(id & ad & st & now & _ & E)]);
      (assert (d' = s_db s') as -> by (destruct r; by injection Hadv)); rewrite E; set_solver.
  - by injection Hadv as <- <- <-.
  - destruct (fence x t c provider s) as [[f s']|e] eqn:E; cbn in Hadv; injection Hadv as <- <- <-; [|done].
    by apply reads_fence in E as [-> _].
  - destruct (claim_reconciliation x t s) as [[r s']|e] eqn:E; cbn in Hadv; [|by injection Hadv as <- <- <-].
    assert (d' = s_db s') as -> by (destruct r; by injection Hadv).
    apply claim_reconciliation_ok in E as (b & Hb & [(_ & _ & ->)|(s1 & ? & _ & Hopen & ->)]); [done|].
    refine (touched_other (visible s1) (λ x, x <| aa_status := AT_RECONCILING |>) _ b a Hnd Hb Ha _). intros ->. congruence.
  - by injection Hadv as <- <- <-.
  - destruct (_record_terminal t key o s) as [[r s']|e] eqn:E; cbn in Hadv; [|by injection Hadv as <- <- <-].
    injection Hadv as <- <- <-.
    apply record_terminal_ok in E as (b & [Hb _]%hd_filter_Some & [(_ & -> & _)|(s1 & now & Hopen & _ & -> & _)]); [done|].
    refine (touched_other (visible s1) (with_outcome o now) _ b a Hnd Hb Ha _). intros ->. congruence.
  - subst k' o'. intros -> _ Huniq.
    destruct (_record_terminal t key o s) as [[r s']|e'] eqn:E; cbn in Hadv; [|done].
    injection Hadv as <- <- <-.
    apply record_terminal_ok in E as (b & [Hb Hbk]%hd_filter_Some & Hcase).
    assert (b = a) as ->.
    { apply Huniq; [done|]. unfold is_attempt.
      apply andb_true_iff in Hbk as [[= <-]%eqb_true <-%eqb_true]. by rewrite !eqb_refl. }
    destruct Hcase as [(_ & _ & ->)|(s1 & now & Hopen & _)]; [done|congruence].
  - by injection Hadv as <- <- <-.
Qed.
End interleaving.

(** ** Examples *)

(** One call of [execute], from its claim through the provider. *)
Definition ex_after (n : nat) : Phase * Db * list ProviderCall :=
  run_call n (ex_executor ex_once_adapter) ex_execution_db Claiming [].

Lemma executed_at_most_once_witness :
  ∃ st, rtc step (mkSystem ex_execution_db [] []) st
    ∧ tally (unrepeatable (uuid 10) ex_key) (sy_calls st) = 1%nat
    ∧ (tally (unrepeatable (uuid 10) ex_key) (sy_calls st) <= 1)%nat.
Proof.
  assert (rtc step (mkSystem ex_execution_db [] [])
    (mkSystem (snd (fst (ex_after 2))) [(ex_attempt_target, fst (fst (ex_after 2)))] (snd (ex_after 2)))) as Hrun.
  { eapply rtc_l; [apply (step_begin _ ex_attempt_target Claiming); by left|].
    eapply rtc_l; [eapply (step_call _ 0%nat ex_attempt_target Claiming (ex_executor ex_once_adapter)
      ex_nothing ex_sent (ex_at ex_execution_db)); [reflexivity|reflexivity|vm_compute; reflexivity]|].
    apply rtc_once. refine (eq_rect _ (step _) _ _ _).
    - eapply (step_call _ 0%nat ex_attempt_target (fst (fst (ex_after 1))) (ex_executor ex_once_adapter)
        ex_nothing ex_sent (ex_at (snd (fst (ex_after 1))))); [reflexivity|reflexivity|vm_compute; reflexivity].
    - vm_compute. reflexivity. }
  eexists. split; [exact Hrun|]. split; [vm_compute; reflexivity|].
  exact (executed_at_most_once _ _ (uuid 10) ex_key Hrun).
Defined.

Lemma settled_attempts_are_final_witness :
  let a := ex_attempt AT_SUCCEEDED in
  let d := ex_execution_db <| action_attempts := [a] |> in
  ∃ d' calls, advance (ex_executor ex_adapter) ex_attempt_target ex_nothing ex_sent (ex_at d)
      (Recording ex_key (unknown "late")) = (Finished (Ok (execution_result a)), d', calls)
    ∧ a ∈ action_attempts d'.
Proof.
  cbv zeta. eexists _, _. split; [vm_compute; reflexivity|].
  refine (proj1 (settled_attempts_are_final (ex_executor ex_adapter) ex_attempt_target ex_nothing ex_sent
    (ex_at (ex_execution_db <| action_attempts := [ex_attempt AT_SUCCEEDED] |>))
    (Recording ex_key (unknown "late")) _ _ _ (ex_attempt AT_SUCCEEDED) _ _ _ _)).
  - apply NoDup_singleton.
  - vm_compute. reflexivity.
  - apply list_elem_of_here.
  - reflexivity.
Defined.
