(* ===== verification/Tenancy.v ===== *)
(** * [security/tenancy.py] and [security/deployment_assignment.py]: control of a tenant

    Suspending and resuming a tenant, and moving it to another deployment; what a
    suspension stops in the other services, and what a move leaves behind. *)

From stdpp Require Import base gmap list strings sets.
From Stdlib Require Import ZArith Lia.
From S2P Require Import Prelude Python PyTime Json Contracts DecisionPolicy Definitions Communications Schema Session State Budgets CommunicationSafety Ingestion IngestionFacts Deployment Outbox OutboxFacts Execution ExecutionFacts.

#[local] Open Scope Z_scope.

(** ** [TenantSafetyService] *)

Record SafetyTransition := mkSafetyTransition {
  sf_event_id : UUID; sf_previous_status : TenantStatus; sf_new_status : TenantStatus
}.

Definition tenant_status_value (s : TenantStatus) : string :=
  match s with TS_ACTIVE => "active" | TS_SUSPENDED => "suspended" end.

Definition transition_reason (missing long reason : string) : result string :=
  let reason := strip reason in
  _ ← raise_if (is_empty reason) ValueError missing;
  _ ← raise_if (10000 <? py_len reason)%nat ValueError long;
  Ok reason.

(** [TenantSafetyService.set_status] *)
Definition set_status (tenant_id actor_id : UUID) (new_status : TenantStatus) (reason : string)
    (metadata : option (list (string * json))) : Tx SafetyTransition :=
  normalized ← lift_result (transition_reason "a safety transition requires a reason"
                              "safety transition reason is too long" reason);
  _ ← set_tenant_context tenant_id;
  tenant ← scalar (λ t : Tenant, eqb (tn_id t) tenant_id);
  match tenant with
  | None => tx_raise TenantUnavailable (str_uuid tenant_id)
  | Some t =>
      _ ← tx_raise_if (eqb (tn_status t) new_status) SafetyControlConflict
            ("tenant is already " +:+ tenant_status_value new_status);
      id ← draw_uuid;
      now ← transaction_now;
      _ ← update (tn_id t) (λ t : Tenant, t <| tn_status := new_status |>);
      _ ← insert (mkTenantSafetyEvent id tenant_id actor_id (tn_status t) new_status normalized
                    (default [] metadata) now);
      mret (mkSafetyTransition id (tn_status t) new_status)
  end.

(** ** [TenantDeploymentService] *)

Record TenantDeploymentResult := mkTenantDeployment {
  td_tenant_id : UUID;
  td_previous_deployment_id : string;
  td_deployment_id : string;
  td_changed : bool;
  td_event_id : option UUID
}.

Definition deployment_target (deployment_id : string) : result string :=
  target ← normalize_deployment_id deployment_id;
  _ ← raise_if (eqb target "unassigned"%string) ValueError
        "unassigned is reserved for legacy or unconfigured tenants";
  Ok target.

(** The join of the messages with the tenant's processes of the deployment. *)
Definition outstanding (tenant_id : UUID) (previous : string) (processes : list ProcessInstance)
    (m : OutboxMessage) : bool :=
  eqb (om_tenant_id m) tenant_id && negb (eqb (om_status m) OB_PUBLISHED)
  && existsb (λ p, eqb (pi_tenant_id p) (om_tenant_id m) && eqb (Some (pi_id p)) (om_process_instance_id m)
                   && eqb (pi_deployment_id p) previous) processes.

Definition require_movable (tenant_id : UUID) (previous : string) : Tx unit :=
  nonterminal ← select (λ p : ProcessInstance, eqb (pi_tenant_id p) tenant_id && negb (is_terminal (pi_status p)));
  _ ← tx_raise_if (nonempty nonterminal) TenantDeploymentConflict
        ("tenant has active processes; move requires an audited active-instance "
         +:+ "migration or terminal completion");
  processes ← select (λ _ : ProcessInstance, true);
  deliveries ← select (outstanding tenant_id previous processes);
  tx_raise_if (nonempty deliveries) TenantDeploymentConflict
    ("tenant has outstanding deliveries for its current deployment; "
     +:+ "publish or explicitly resolve them before moving the tenant").

(** [TenantDeploymentService.assign] *)
Definition assign (tenant_id : UUID) (deployment_id : string) (actor_id : UUID) (reason : string)
  : Tx TenantDeploymentResult :=
  target ← lift_result (deployment_target deployment_id);
  normalized ← lift_result (transition_reason "a tenant deployment assignment requires a reason"
                              "tenant deployment assignment reason is too long" reason);
  _ ← set_tenant_context tenant_id;
  tenant ← scalar (λ t : Tenant, eqb (tn_id t) tenant_id);
  match tenant with
  | None => tx_raise TenantUnavailable (str_uuid tenant_id)
  | Some t =>
      let previous := tn_deployment_id t in
      if eqb previous target then mret (mkTenantDeployment tenant_id previous target false None)
      else
        _ ← (if eqb previous "unassigned"%string then mret tt else require_movable tenant_id previous);
        id ← draw_uuid;
        now ← transaction_now;
        _ ← update (tn_id t) (λ t : Tenant, t <| tn_deployment_id := target |>);
        _ ← insert (mkTenantDeploymentEvent id tenant_id actor_id previous target normalized now);
        mret (mkTenantDeployment tenant_id previous target true (Some id))
  end.

(** ** What they do *)

Lemma transition_reason_strip missing long reason r : transition_reason missing long reason = Ok r → r = strip reason.
Proof. unfold transition_reason. intros H. bind_inv. done. Qed.


Lemma set_status_ok t actor st reason metadata s r s' :
  set_status t actor st reason metadata s = Ok (r, s') →
  ∃ row id now, row ∈ tenants (s_db s) ∧ tn_id row = t ∧ tn_status row ≠ st
    ∧ r = mkSafetyTransition id (tn_status row) st
    ∧ s_db s' = s_db s <| tenants := touch t t (λ x, x <| tn_status := st |>) <$> tenants (s_db s) |>
        <| tenant_safety_events := tenant_safety_events (s_db s)
             ++ [mkTenantSafetyEvent id t actor (tn_status row) st (strip reason) (default [] metadata) now] |>.
Proof.
  intros H. unfold set_status in H.
  apply tx_bind_ok in H as (normalized & ? & [->%transition_reason_strip ->]%lift_result_ok & H).
  apply tx_bind_ok in H as ([] & ? & ->%set_tenant_context_ok & H).
  apply tx_bind_ok in H as (row & ? & Hrow & H).
  rewrite (scalar_run _ t) in Hrow by (done || (intros ? Hx; by apply eqb_true in Hx)). injection Hrow as <- <-.
  destruct (hd_error _) as [row|] eqn:Hrow; [|done]. apply hd_filter_Some in Hrow as [Hin Hid%eqb_true]. cbn in Hin.
  apply tx_bind_ok in H as ([] & ? & [Hst%eqb_neq ->]%tx_raise_if_ok & H).
  apply tx_bind_ok in H as (id & ? & [-> ->]%draw_uuid_ok & H).
  apply tx_bind_ok in H as (now & ? & [_ ->]%transaction_now_ok & H).
  apply tx_bind_ok in H as ([] & ? & Hu & H). rewrite (update_touch _ t) in Hu by done. injection Hu as <-.
  apply tx_bind_ok in H as ([] & ? & [_ ->]%insert_ok & [-> ->]%mret_ok).
  eexists row, _, now. split_and!; [done..|]. cbn. by rewrite Hid.
Qed.

Lemma require_movable_ok t previous s u s' :
  s_tenant s = Some t → require_movable t previous s = Ok (u, s') →
  s' = s ∧ (∀ p, p ∈ process_instances (s_db s) → pi_tenant_id p = t → is_terminal (pi_status p) = true)
  ∧ ∀ m, m ∈ outbox_messages (s_db s) →
      outstanding t previous (List.filter (λ p, seen t p && true) (process_instances (s_db s))) m = false.
Proof.
  intros Hs H. unfold require_movable in H.
  rewrite (tx_bind_run _ _ _ _ _ (select_seen s _ _ Hs)) in H.
  apply tx_bind_ok in H as ([] & ? & [Hn ->]%tx_raise_if_ok & H).
  rewrite (tx_bind_run _ _ _ _ _ (select_seen s _ _ Hs)), (tx_bind_run _ _ _ _ _ (select_seen s _ _ Hs)) in H.
  apply tx_raise_if_ok in H as [Hm ->]. cbn [table ProcessInstance_table OutboxMessage_table] in *.
  assert (∀ A (l : list A), nonempty l = false → l = []) as Hnil by by intros A [].
  apply Hnil in Hn, Hm. split_and!; [done|..].
  - intros p Hp Ht. apply not_false_is_true. intros E.
    assert (p ∈ ([] : list ProcessInstance)) as []%elem_of_nil. rewrite <- Hn. apply elem_of_filter_bool. split; [|done].
    unfold seen. cbn. by rewrite Ht, E, !eqb_refl.
  - intros m Hin. apply not_true_is_false. intros E.
    assert (m ∈ ([] : list OutboxMessage)) as []%elem_of_nil. rewrite <- Hm. apply elem_of_filter_bool. split; [|done].
    rewrite E. unfold outstanding in E. apply andb_true_iff in E as [[Ht%eqb_true _]%andb_true_iff _].
    unfold seen. cbn. by rewrite Ht, eqb_refl.
Qed.

Lemma assign_ok t dep actor reason s r s' :
  assign t dep actor reason s = Ok (r, s') →
  ∃ row target, deployment_target dep = Ok target ∧ row ∈ tenants (s_db s) ∧ tn_id row = t
  ∧ ((tn_deployment_id row = target ∧ s_db s' = s_db s ∧ r = mkTenantDeployment t target target false None)
     ∨ (tn_deployment_id row ≠ target ∧ ∃ id now, r = mkTenantDeployment t (tn_deployment_id row) target true (Some id)
        ∧ (tn_deployment_id row ≠ "unassigned"%string →
             (∀ p, p ∈ process_instances (s_db s) → pi_tenant_id p = t → is_terminal (pi_status p) = true)
             ∧ ∀ m, m ∈ outbox_messages (s_db s) → outstanding t (tn_deployment_id row)
                      (List.filter (λ p, seen t p && true) (process_instances (s_db s))) m = false)
        ∧ s_db s' = s_db s <| tenants := touch t t (λ x, x <| tn_deployment_id := target |>) <$> tenants (s_db s) |>
            <| tenant_deployment_events := tenant_deployment_events (s_db s)
                 ++ [mkTenantDeploymentEvent id t actor (tn_deployment_id row) target (strip reason) now] |>)).
Proof.
  intros H. unfold assign in H.
  apply tx_bind_ok in H as (target & ? & [Htarget ->]%lift_result_ok & H).
  apply tx_bind_ok in H as (normalized & ? & [->%transition_reason_strip ->]%lift_result_ok & H).
  apply tx_bind_ok in H as ([] & ? & ->%set_tenant_context_ok & H).
  apply tx_bind_ok in H as (row & ? & Hrow & H).
  rewrite (scalar_run _ t) in Hrow by (done || (intros ? Hx; by apply eqb_true in Hx)). injection Hrow as <- <-.
  destruct (hd_error _) as [row|] eqn:Hrow; [|done]. apply hd_filter_Some in Hrow as [Hin Hid%eqb_true]. cbn in Hin.
  exists row, target. split_and!; try done. cbv zeta in H.
  destruct (eqb (tn_deployment_id row) target) eqn:E.
  { apply eqb_true in E. apply mret_ok in H as [-> ->]. left. by rewrite E. }
  apply eqb_neq in E. right. split; [done|].
  apply tx_bind_ok in H as ([] & s1 & Hmove & H).
  assert (s1 = s <| s_tenant := Some t |> ∧ (tn_deployment_id row ≠ "unassigned"%string →
    (∀ p, p ∈ process_instances (s_db s) → pi_tenant_id p = t → is_terminal (pi_status p) = true)
    ∧ ∀ m, m ∈ outbox_messages (s_db s) → outstanding t (tn_deployment_id row)
             (List.filter (λ p, seen t p && true) (process_instances (s_db s))) m = false)) as [-> Hclear].
  { destruct (eqb _ "unassigned"%string) eqn:Eu.
    - apply mret_ok in Hmove as [_ ->]. split; [done|]. by apply eqb_true in Eu.
    - by apply require_movable_ok in Hmove as (-> & ? & ?). }
  apply tx_bind_ok in H as (id & ? & [-> ->]%draw_uuid_ok & H).
  apply tx_bind_ok in H as (now & ? & [_ ->]%transaction_now_ok & H).
  apply tx_bind_ok in H as ([] & ? & Hu & H). rewrite (update_touch _ t) in Hu by done. injection Hu as <-.
  apply tx_bind_ok in H as ([] & ? & [_ ->]%insert_ok & [-> ->]%mret_ok).
  eexists _, now. split_and!; [done..|]. cbn. by rewrite Hid.
Qed.

(** ** Suspension *)

Lemma require_ingress_active t dep s r s' :
  require_ingress_tenant t dep s = Ok (r, s') →
  ∃ row, row ∈ tenants (s_db s) ∧ tn_id row = t ∧ tn_status row = TS_ACTIVE.
Proof.
  intros H. unfold require_ingress_tenant in H.
  apply tx_bind_ok in H as ([] & ? & ->%set_tenant_context_ok & H).
  apply tx_bind_ok in H as (rows & ? & [-> Hrows]%select_ok & H).
  apply tx_bind_ok in H as (row & ? & Hrow & H). destruct row as [row|]; [|done].
  apply tx_bind_ok in H as ([] & ? & [_ ->]%tx_raise_if_ok & H).
  apply tx_bind_ok in H as ([] & ? & [Ha%negb_false_iff%eqb_true ->]%tx_raise_if_ok & _).
  assert (row ∈ rows) as Hin.
  { destruct rows as [|y [|]]; [by apply mret_ok in Hrow as [? _]| |done]. apply mret_ok in Hrow as [[= ->] _]. left. }
  rewrite Hrows in Hin. apply elem_of_filter_bool in Hin as [[_ Hid%eqb_true]%andb_true_iff Hin]. by exists row.
Qed.

Lemma raises {A} (m : result A) : (∀ a, m ≠ Ok a) → ∃ e, m = Raise e.
Proof. destruct m as [a|e]; [|eauto]. intros H. by destruct (H a). Qed.

Section suspension.
Context `{Zones}.

(** No row of the tenant is active. *)
Definition suspended (t : UUID) (d : Db) : Prop :=
  ∀ row, row ∈ tenants d → tn_id row = t → tn_status row = TS_SUSPENDED.

Lemma set_status_suspends t actor reason metadata s r s' :
  set_status t actor TS_SUSPENDED reason metadata s = Ok (r, s') → suspended t (s_db s').
Proof.
  intros (row & id & now & _ & _ & _ & _ & ->)%set_status_ok x. cbn. intros (y & -> & _)%list_elem_of_fmap Hid.
  unfold touch in *. cbn in *. destruct (_ && eqb (tn_id y) t) eqn:E; [done|].
  rewrite Hid, !eqb_refl in E. done.
Qed.

Lemma suspended_unserved t db d : suspended t db → ¬ serves d t db.
Proof.
  intros Hsus (_ & x & Hx & Ha & _).
  assert (x ∈ [x]) as Hin by left. rewrite <- Hx in Hin.
  apply elem_of_filter_bool in Hin as [[_ Hid%eqb_true]%andb_true_iff Hin].
  rewrite (Hsus x Hin Hid) in Ha. done.
Qed.

(** A suspension stops autonomous work.  After a tenant is suspended, and as long as
    its row stays, no event of the tenant is ingested, no delivery is claimed, no
    execution of its actions starts, and none that started crosses the fence to its
    provider. *)
Theorem suspension_stops_work t actor reason metadata s r s' later :
  set_status t actor TS_SUSPENDED reason metadata s = Ok (r, s') → tenants (s_db later) = tenants (s_db s') →
  (∀ event bootstrap dep, ce_tenant_id event = t → ∃ e, ingest event bootstrap dep later = Raise e)
  ∧ (∀ d c s2, claim_one d t later = Ok (c, s2) → c = None ∧ s_db s2 = s_db later)
  ∧ (∀ x target, tg_tenant_id target = t → ∃ e, claim x target later = Raise e)
  ∧ (∀ x target c provider, tg_tenant_id target = t → ∃ e, fence x target c provider later = Raise e).
Proof.
  intros Hsus%set_status_suspends Ht.
  assert (suspended t (s_db later)) as Hl by (unfold suspended; by rewrite Ht). clear Hsus Ht.
  assert (∀ x target u s1, tg_tenant_id target = t → _require_execution_enabled x (tg_tenant_id target) later ≠ Ok (u, s1)) as Hex.
  { intros x target u s1 Htt (_ & row & Hin & Hid & Ha & _)%execution_enabled_ok.
    rewrite (Hl row Hin) in Ha by congruence. done. }
  split_and!.
  - intros event bootstrap dep He. apply raises. intros [res s1] Hing.
    apply ingest_allowed in Hing as (x & s2 & (row & Hin & Hid & Ha)%require_ingress_active).
    rewrite (Hl row Hin) in Ha by congruence. done.
  - intros d c s2 Hc%claim_one_ok. inversion Hc as [_ E1 E2|token m p definition Hserve _ _ E1 E2]; [done|].
    by apply suspended_unserved in Hserve.
  - intros x target Htt. apply raises. intros [res s1] H0. unfold claim in H0.
    apply tx_bind_ok in H0 as (u & s2 & H0 & _). by apply Hex in H0.
  - intros x target c provider Htt. apply raises. intros [res s1] H0. unfold fence in H0.
    apply tx_bind_ok in H0 as (u & s2 & H0 & _). by apply Hex in H0.
Qed.
End suspension.

(** ** Moves *)

(** A move strands no delivery.  When an assigned tenant moves to another
    deployment, every process of the tenant is completed, cancelled or failed, no
    dispatcher of the old deployment has a message of the tenant left to claim at any
    time, none serves the tenant afterwards, and the move is recorded with its actor and
    reason; processes and messages stay as they are. *)
Theorem moves_strand_no_delivery t dep actor reason s r s' :
  assign t dep actor reason s = Ok (r, s') → td_changed r = true →
  td_previous_deployment_id r ≠ "unassigned"%string →
  (∀ p, p ∈ process_instances (s_db s) → pi_tenant_id p = t → is_terminal (pi_status p) = true)
  ∧ (∀ d, dr_deployment_id (td_release d) = td_previous_deployment_id r →
       (∀ now, candidates d t now (s_db s) = []) ∧ ¬ serves d t (s_db s'))
  ∧ (∃ e, tenant_deployment_events (s_db s') = tenant_deployment_events (s_db s) ++ [e]
       ∧ tde_previous_deployment_id e = td_previous_deployment_id r ∧ tde_new_deployment_id e = td_deployment_id r
       ∧ tde_actor_id e = actor ∧ tde_reason e = strip reason)
  ∧ process_instances (s_db s') = process_instances (s_db s) ∧ outbox_messages (s_db s') = outbox_messages (s_db s).
Proof.
  intros (row & target & Htarget & Hin & Hid & [(_ & _ & ->)|(Hne & id & now & -> & Hclear & Hd)])%assign_ok Hch Hprev; [done|].
  cbn [td_previous_deployment_id td_deployment_id] in *. destruct (Hclear Hprev) as [Hterm Hout].
  split_and!; [done| |rewrite Hd; by eexists|by rewrite Hd|by rewrite Hd]. intros d Hdep. split.
  - intros now'. apply elem_of_nil_inv. intros m (Hm & Ht & Hdel & Hdes)%candidates_in.
    assert (outstanding t (tn_deployment_id row) (List.filter (λ p, seen t p && true) (process_instances (s_db s))) m = true)
      as E; [|by rewrite (Hout m Hm) in E].
    unfold outstanding. rewrite Ht, eqb_refl. cbn [andb]. apply andb_true_iff. split.
    + unfold deliverable in Hdel. destruct (om_status m); try done. cbn in Hdel. by rewrite andb_false_r in Hdel.
    + unfold destined in Hdes. apply existsb_exists in Hdes as (p & Hp & Hpp). apply existsb_exists. exists p.
      rewrite <- list_elem_of_In in *. apply elem_of_filter_bool in Hp as [[Hs _]%andb_true_iff Hp].
      apply andb_true_iff in Hpp as [[Hpt Hpi]%andb_true_iff Hpin]. unfold pinned in Hpin.
      apply andb_true_iff in Hpin as [[Hpd _]%andb_true_iff _].
      split; [apply elem_of_filter_bool; by rewrite Hs|]. by rewrite Ht in Hpt; rewrite Hpt, Hpi, <- Hdep, Hpd.
  - rewrite Hd. intros (_ & x & Hx & _ & Hxd). cbn in Hx.
    assert (x ∈ [x]) as Hxin by left. rewrite <- Hx in Hxin.
    apply elem_of_filter_bool in Hxin as [[_ Hxid%eqb_true]%andb_true_iff (y & -> & Hy)%list_elem_of_fmap].
    unfold touch in *. cbn in *. destruct (_ && eqb (tn_id y) t) eqn:E; cbn in *; [congruence|].
    by rewrite Hxid, !eqb_refl in E.
Qed.

(** ** Examples *)

Definition ex_tenant_session (d : Db) : Session :=
  mkSession d None (days 90) (λ _, days 90) 0 (λ n, uuid (700 + N.of_nat n)) 0.
Definition ex_suspension : SafetyTransition * Session :=
  match set_status (uuid 10) (uuid 9) TS_SUSPENDED " incident " None (ex_tenant_session ex_outbox_db) with
  | Ok r => r | Raise _ => (mkSafetyTransition (uuid 0) TS_ACTIVE TS_ACTIVE, ex_tenant_session ex_outbox_db) end.
Definition ex_moved_db : Db := ex_published_db <| process_instances := [ex_dispatch_process <| pi_status := PS_COMPLETED |>] |>.
Definition ex_move : TenantDeploymentResult * Session :=
  match assign (uuid 10) " Umbrella " (uuid 9) "merger" (ex_tenant_session ex_moved_db) with
  | Ok r => r | Raise _ => (mkTenantDeployment (uuid 0) "" "" false None, ex_tenant_session ex_moved_db) end.

Example a_move_waits_for_its_deliveries :
  assign (uuid 10) "umbrella" (uuid 9) "merger"
    (ex_tenant_session (ex_outbox_db <| process_instances := [ex_dispatch_process <| pi_status := PS_COMPLETED |>] |>))
  = raise TenantDeploymentConflict ("tenant has outstanding deliveries for its current deployment; "
      +:+ "publish or explicitly resolve them before moving the tenant").
Proof. vm_compute. reflexivity. Qed.

Lemma suspension_stops_work_witness :
  (sf_previous_status (fst ex_suspension), sf_new_status (fst ex_suspension)) = (TS_ACTIVE, TS_SUSPENDED)
  ∧ ∀ event bootstrap dep, ce_tenant_id event = uuid 10 → ∃ e, ingest event bootstrap dep (snd ex_suspension) = Raise e.
Proof.
  split; [vm_compute; reflexivity|].
  refine (proj1 (suspension_stops_work (uuid 10) (uuid 9) " incident " None (ex_tenant_session ex_outbox_db)
    (fst ex_suspension) (snd ex_suspension) (snd ex_suspension) _ eq_refl)).
  vm_compute. reflexivity.
Defined.

Lemma moves_strand_no_delivery_witness :
  td_deployment_id (fst ex_move) = "umbrella"%string
  ∧ outbox_messages (s_db (snd ex_move)) = outbox_messages (s_db (ex_tenant_session ex_moved_db)).
Proof.
  split; [vm_compute; reflexivity|].
  destruct (moves_strand_no_delivery (uuid 10) " Umbrella " (uuid 9) "merger" (ex_tenant_session ex_moved_db)
    (fst ex_move) (snd ex_move)) as (_ & _ & _ & _ & H);
    [vm_compute; reflexivity|vm_compute; reflexivity|vm_compute; discriminate|exact H].
Defined.
