(* ===== verification/ExecutionSafety.v ===== *)
(** * [actions/execution.py]: authority, termination, and a settled ambiguity

    The provider is called only under current authority; every call of [execute]
    and [reconcile] ends; and a retry that a control blocks records an attempt of
    unknown outcome as failed. *)

From stdpp Require Import base gmap list strings sets relations.
From Stdlib Require Import ZArith Lia.
From S2P Require Import Prelude Python PyTime Json Limits Contracts DecisionPolicy Definitions Communications Schema Session Budgets CommunicationSafety Deployment Execution ExecutionFacts.

#[local] Open Scope Z_scope.

(** ** Authority *)

(** An approval of exactly the stored payload, not expired at [now], with the
    reviewer's decision. *)
Definition ApprovedExactly (d : Db) (t : ActionTarget) (payload_hash : string) (now : Z) : Prop :=
  ∃ a dec, a ∈ approval_requests d ∧ is_target_approval t payload_hash a = true
    ∧ apq_status a = AP_APPROVED ∧ (∀ e, apq_expires_at a = Some e → now < e)
    ∧ dec ∈ approval_decisions d ∧ is_granting_decision t (apq_id a) payload_hash dec = true.

(** What the rows of an action must say for it to be executed at [now]. *)
Record Executable (d : Db) (t : ActionTarget) (now : Z) (au : AuthorizedAction) : Prop := {
  xe_request : au_request au ∈ action_requests d ∧ is_target_request t (au_request au) = true;
  xe_current : ar_current_revision (au_request au) = tg_revision t;
  xe_revision : au_revision au ∈ action_revisions d
    ∧ arv_action_request_id (au_revision au) = tg_action_request_id t
    ∧ arv_revision (au_revision au) = tg_revision t;
  xe_policy : au_policy au ∈ action_policy_decisions d
    ∧ apr_action_request_id (au_policy au) = tg_action_request_id t
    ∧ apr_revision (au_policy au) = tg_revision t;
  xe_process : au_process au ∈ process_instances d ∧ pi_id (au_process au) = tg_process_instance_id t
    ∧ pi_tenant_id (au_process au) = tg_tenant_id t;
  xe_running : is_halted (pi_status (au_process au)) = false;
  xe_permitted :
    (apr_outcome (au_policy au) = ALLOW
     ∧ (ar_status (au_request au) = ALLOWED ∨ retryable (ar_status (au_request au)) = true))
    ∨ (apr_outcome (au_policy au) = REQUIRE_APPROVAL
       ∧ ApprovedExactly d t (arv_payload_hash (au_revision au)) now
       ∧ (ar_status (au_request au) = APPROVED ∨ retryable (ar_status (au_request au)) = true))
}.

Lemma elem_of_visible {R} `{Table R} s (p : R → bool) r :
  r ∈ List.filter (λ r, visible s r && p r) (table (s_db s)) → r ∈ table (s_db s) ∧ p r = true.
Proof. intros [Hp Hr]%elem_of_filter_bool. by apply andb_true_iff in Hp as [_ Hp]. Qed.

Lemma one_or_none_ok {A} (rows : list A) s o s' :
  one_or_none rows s = Ok (o, s') → s' = s ∧ ∀ a, o = Some a → rows = [a].
Proof.
  destruct rows as [|r [|? ?]]; [intros [-> ->]%mret_ok; done| |done].
  intros [-> ->]%mret_ok. split; [done|]. by intros a [= ->].
Qed.

(** The joined row is made of rows of the database that name each other. *)
Lemma joined_row_ok t s au s' :
  joined_row t s = Ok (Some au, s') →
  (au_request au ∈ action_requests (s_db s) ∧ is_target_request t (au_request au) = true)
  ∧ (au_revision au ∈ action_revisions (s_db s)
     ∧ arv_action_request_id (au_revision au) = ar_id (au_request au)
     ∧ arv_revision (au_revision au) = tg_revision t)
  ∧ (au_policy au ∈ action_policy_decisions (s_db s)
     ∧ apr_action_request_id (au_policy au) = ar_id (au_request au)
     ∧ apr_revision (au_policy au) = tg_revision t)
  ∧ (au_process au ∈ process_instances (s_db s)
     ∧ pi_tenant_id (au_process au) = ar_tenant_id (au_request au)
     ∧ pi_id (au_process au) = ar_process_instance_id (au_request au)).
Proof.
  intros H. unfold joined_row in H. repeat apply tx_bind_ok in H as (? & ? & [-> ->]%select_ok & H).
  apply one_or_none_ok in H as [-> H]. specialize (H _ eq_refl).
  match type of H with ?rows = _ => assert (au ∈ rows) as Hin by (rewrite H; apply list_elem_of_here) end.
  clear H.
  apply list_elem_of_bind in Hin as (r & Hin & Hr%elem_of_visible).
  apply list_elem_of_bind in Hin as (v & Hin & [Hv2 [Hv Hvt]%elem_of_visible]%elem_of_filter_bool).
  apply list_elem_of_bind in Hin as (p & Hin & [Hp2 [Hp Hpt]%elem_of_visible]%elem_of_filter_bool).
  apply list_elem_of_bind in Hin as (q & Hin & [Hq2 [Hq _]%elem_of_visible]%elem_of_filter_bool).
  apply list_elem_of_singleton in Hin as ->. cbn.
  apply eqb_true in Hv2, Hp2. apply andb_true_iff in Hq2 as [Hq1%eqb_true Hq2%eqb_true].
  apply Z.eqb_eq in Hvt, Hpt. done.
Qed.

Lemma scalar_found {R} `{Table R} p s (r : R) s' :
  scalar p s = Ok (Some r, s') → s' = s ∧ r ∈ table (s_db s) ∧ p r = true.
Proof.
  intros [-> Hr]%scalar_ok. symmetry in Hr. apply hd_filter_Some in Hr as [? Hr].
  by apply andb_true_iff in Hr as [_ ?].
Qed.

(** The transaction read the clock, and did nothing else. *)
Definition Read (s s' : Session) : Prop := ∃ n, (s_reads s <= n)%nat ∧ s' = s <| s_reads := n |>.

Lemma read_none s : Read s s.
Proof. exists (s_reads s). split; [done|]. by destruct s. Qed.
Lemma read_once s : Read s (s <| s_reads ::= S |>).
Proof. exists (S (s_reads s)). split; [lia|]. by destruct s. Qed.

Lemma exact_approval_ok t r v s u s' :
  require_exact_approval t r v s = Ok (u, s') →
  Read s s' ∧ ApprovedExactly (s_db s) t (arv_payload_hash v) (s_clock s (s_reads s))
  ∧ (ar_status r = APPROVED ∨ retryable (ar_status r) = true).
Proof.
  intros H. unfold require_exact_approval in H.
  apply tx_bind_ok in H as ([a|] & s1 & Ha & H); [|done]. apply scalar_found in Ha as (-> & Ha & Hat).
  apply tx_bind_ok in H as ([] & ? & [Hst%negb_false_iff%eqb_true ->]%tx_raise_if_ok & H).
  apply tx_bind_ok in H as (expired & s1 & He & H).
  apply tx_bind_ok in H as ([] & s2 & [-> ->]%tx_raise_if_ok & H).
  assert (Read s s1 ∧ ∀ e, apq_expires_at a = Some e → s_clock s (s_reads s) < e) as [Hread Hexp].
  { destruct (apq_expires_at a) as [e|]; [|apply mret_ok in He as [_ ->]; split; [apply read_none|done]].
    apply tx_bind_ok in He as (now & ? & [-> ->]%utcnow_ok & [Hnow ->]%mret_ok).
    split; [apply read_once|]. intros ? [= <-]. symmetry in Hnow. by apply Z.leb_gt in Hnow. }
  apply tx_bind_ok in H as ([dec|] & ? & Hdec & H).
  - apply scalar_found in Hdec as (-> & Hdec & Hgr).
    apply tx_bind_ok in H as ([] & ? & [_ ->]%tx_raise_if_ok & [Hs%negb_false_iff ->]%tx_raise_if_ok).
    apply orb_true_iff in Hs. split; [done|]. split; [|destruct Hs as [?%eqb_true|]; auto].
    exists a, dec. destruct Hread as (n & _ & ->). done.
  - by apply tx_bind_ok in H as ([] & ? & [? _]%tx_raise_if_ok & _).
Qed.

Lemma load_ok t s au s' :
  _load_authorized_action t s = Ok (au, s') →
  Read s s' ∧ Executable (s_db s) t (s_clock s (s_reads s)) au.
Proof.
  intros H. unfold _load_authorized_action in H.
  apply tx_bind_ok in H as ([row|] & s1 & Hrow & H); [|done].
  assert (s1 = s) as ->.
  { unfold joined_row in Hrow. repeat apply tx_bind_ok in Hrow as (? & ? & [-> ->]%select_ok & Hrow).
    by apply one_or_none_ok in Hrow as [-> _]. }
  apply joined_row_ok in Hrow as ([Hr Hrt] & (Hv & Hv1 & Hv2) & (Hp & Hp1 & Hp2) & Hq & Hq1 & Hq2).
  apply tx_bind_ok in H as ([] & ? & [Hrun ->]%tx_raise_if_ok & H).
  apply tx_bind_ok in H as ([] & ? & [Hcur%negb_false_iff%Z.eqb_eq ->]%tx_raise_if_ok & H).
  apply tx_bind_ok in H as ([] & s2 & Hout & [-> ->]%mret_ok).
  pose proof Hrt as Hids. unfold is_target_request in Hids.
  apply andb_true_iff in Hids as [[H1%eqb_true H2%eqb_true]%andb_true_iff H3%eqb_true].
  assert (Read s s2 ∧ ((apr_outcome (au_policy row) = ALLOW
     ∧ (ar_status (au_request row) = ALLOWED ∨ retryable (ar_status (au_request row)) = true))
    ∨ (apr_outcome (au_policy row) = REQUIRE_APPROVAL
       ∧ ApprovedExactly (s_db s) t (arv_payload_hash (au_revision row)) (s_clock s (s_reads s))
       ∧ (ar_status (au_request row) = APPROVED ∨ retryable (ar_status (au_request row)) = true))))
    as [Hread Hperm].
  { destruct (apr_outcome (au_policy row)); [|done|].
    - apply tx_raise_if_ok in Hout as [[?%eqb_true|]%negb_false_iff%orb_true_iff ->];
        (split; [apply read_none|auto]).
    - apply exact_approval_ok in Hout as (? & ? & ?). auto. }
  split; [done|]. split; try done; split_and!; congruence.
Qed.

(** ** Controls *)

(** The tenant's breakers let an action of this type through. *)
Definition BreakersClosed (x : Executor) (d : Db) (t : UUID) (action_type : string)
    (policy : CommunicationPolicy) : Prop :=
  is_open d t ALL "" = false
  ∧ (∀ n, normalize_breaker_target CAPABILITY action_type = Ok n → is_open d t CAPABILITY n = false)
  ∧ (action_type ∈ cp_outbound_action_types policy →
       ex_platform_outbound_paused x = false ∧ is_open d t OUTBOUND_MESSAGES "" = false).

Lemma first_open_closed t breakers s s' :
  first_open t breakers s = Ok (None, s') →
  Forall (λ b, ∀ n, normalize_breaker_target (fst b) (snd b) = Ok n →
                    is_open (s_db s) t (fst b) n = false) breakers.
Proof.
  intros H%first_open_ok. apply Forall_forall. intros b Hb n Hn. apply not_true_iff_false. intros Ho.
  assert (is_Some (None : option BreakerState)) as [? [=]].
  apply H. apply Exists_exists. eauto.
Qed.

Lemma breaker_message_closed x t a policy s s' :
  _breaker_message x t a policy s = Ok (None, s') → BreakersClosed x (s_db s) t a policy.
Proof.
  intros H. unfold _breaker_message in H.
  apply tx_bind_ok in H as (opened & s1 & Hc & H). destruct opened; [by tx_inv|].
  pose proof (reads_capability t a _ _ _ Hc) as [Hd _].
  apply first_open_closed in Hc. rewrite !Forall_cons in Hc. destruct Hc as (Hall & Hcap & _).
  split_and!; [by apply Hall|exact Hcap|].
  intros Hin. unfold member in H. rewrite bool_decide_true in H by done.
  destruct (ex_platform_outbound_paused x); [by tx_inv|]. split; [done|].
  apply tx_bind_ok in H as (opened & s2 & Ho & [Hn _]%mret_ok).
  destruct opened; [done|]. apply first_open_closed in Ho.
  rewrite !Forall_cons in Ho. destruct Ho as (_ & Ho & _). rewrite <- Hd. by apply Ho.
Qed.

Section zones.
Context `{Zones}.

(** An inspection for a reserved action that finds no block found contact allowed. *)
Lemma inspect_no_block t process policy now id s snap s' :
  s_tenant s = Some t → inspect t process policy (utc now) (Some id) s = Ok (snap, s') →
  css_blocks snap = [] →
  ContactAllowed policy (durable_facts (s_db s) t process policy (Some id)) now.
Proof.
  intros Hs Hi Hb.
  assert (existsb (λ r, eqb (Some (ar_id r)) (Some id)) (reservations (s_db s) t (pi_id process) policy)
    = true) as Hc.
  { pose proof Hi as H1. unfold inspect in H1.
    apply tx_bind_ok in H1 as ([] & ? & [_ ->]%tx_raise_if_ok & H1).
    apply tx_bind_ok in H1 as (found & ? & Hf & H1).
    rewrite (select_run s t) in Hf by (done || apply reservation_tenant). injection Hf as <- <-.
    apply tx_bind_ok in H1 as ([] & ? & [Hc _]%tx_raise_if_ok & _).
    rewrite bool_decide_true in Hc by done. by apply negb_false_iff in Hc. }
  destruct (inspect_run t process policy (utc now) (Some id) s Hs eq_refl) as (snap' & Hi' & Hal & Hca).
  { intros ? [= <-]. exact Hc. }
  rewrite Hi in Hi'. injection Hi' as <- _. apply Hal, Hca in Hb.
  unfold instant in Hb. cbn in Hb. by rewrite Z.sub_0_r in Hb.
Qed.

Lemma communication_block_none x t au policy now s s' :
  s_tenant s = Some (tg_tenant_id t) → communication_block x t au policy (utc now) s = Ok (None, s') →
  now < pi_created_at (au_process au) + cp_maximum_process_lifetime policy
  ∧ (ar_action_type (au_request au) ∈ cp_outbound_action_types policy →
     ContactAllowed policy (durable_facts (s_db s) (tg_tenant_id t) (au_process au) policy
       (Some (tg_action_request_id t))) now).
Proof.
  intros Hs H1. unfold communication_block, process_lifetime_block in H1. rewrite lifetime_ok in H1.
  apply tx_bind_ok in H1 as (lifetime & ? & [Hl ->]%lift_result_ok & H1). injection Hl as <-.
  destruct (Z.ltb_spec now (pi_created_at (au_process au) + cp_maximum_process_lifetime policy));
    [|by tx_inv].
  split; [done|]. intros Hin. unfold member in H1. rewrite bool_decide_true in H1 by done.
  apply tx_bind_ok in H1 as (snap & s1 & Hi & [Hb _]%mret_ok).
  apply inspect_no_block in Hi; [done..|]. by destruct (css_blocks snap).
Qed.

(** C25: a provider is called only under current authority.  Whenever the fence calls
    the provider, the database at that moment says: the tenant is active and
    assigned to this deployment; the process is not halted and its pins match;
    the request is at the revision being executed; policy allows it, or a
    reviewer approved exactly this payload and the approval has not expired; no
    breaker stops it; the process is within its lifetime and, for an outbound
    action, contact is allowed at the clock's reading.  The provider receives the stored parameters of
    that revision and the attempt's key, and the database is unchanged. *)
Theorem provider_call_is_authorized x t c provider s r response s' :
  fence x t c provider s = Ok (Called r response, s') →
  s_db s' = s_db s ∧ response = provider r
  ∧ ∃ au reading, let now := s_clock s reading in (s_reads s <= reading)%nat ∧
      (∃ row, row ∈ tenants (s_db s) ∧ tn_id row = tg_tenant_id t ∧ tn_status row = TS_ACTIVE
              ∧ tn_deployment_id row = dr_deployment_id (ex_release x))
      ∧ Executable (s_db s) t (s_clock s (s_reads s)) au
      ∧ _require_compatible_process x (au_process au) = Ok tt
      ∧ BreakersClosed x (s_db s) (tg_tenant_id t) (ar_action_type (au_request au)) (cl_policy c)
      ∧ now < pi_created_at (au_process au) + cp_maximum_process_lifetime (cl_policy c)
      ∧ (ar_action_type (au_request au) ∈ cp_outbound_action_types (cl_policy c) →
         ContactAllowed (cl_policy c) (durable_facts (s_db s) (tg_tenant_id t) (au_process au)
           (cl_policy c) (Some (tg_action_request_id t))) now)
      ∧ r = mkProviderRequest (ar_action_type (au_request au)) (arv_parameters (au_revision au))
              (cl_key c) (tg_tenant_id t) (tg_process_instance_id t)
              (pi_authoritative_facts (au_process au)).
Proof.
  intros H1. split; [by apply reads_fence in H1 as [-> _]|]. unfold fence in H1.
  apply tx_bind_ok in H1 as ([] & ? & [-> Htenant]%execution_enabled_ok & H1).
  apply tx_bind_ok in H1 as (au & s1 & Hl & H1).
  apply load_ok in Hl as [(n & Hn & ->) Hl].
  apply tx_bind_ok in H1 as ([] & ? & [Hpins ->]%lift_result_ok & H1).
  apply tx_bind_ok in H1 as (now & ? & [-> ->]%utcnow_ok & H1).
  apply tx_bind_ok in H1 as (block & s2 & Hb & H1). destruct block; [by tx_inv|].
  pose proof (reads_communication_block (tg_tenant_id t) x t au (cl_policy c) _ _ _ _ Hb) as [Hd2 _].
  apply communication_block_none in Hb as [Hlife Hcontact]; [|done].
  apply tx_bind_ok in H1 as (breaker & s3 & Hbr & H1). destruct breaker; [by tx_inv|].
  apply breaker_message_closed in Hbr. apply mret_ok in H1 as [[= -> ->] ->].
  cbn in Hd2, Hcontact. rewrite Hd2 in Hbr.
  split; [done|]. exists au, n. done.
Qed.
End zones.

(** ** Calls end *)

(** The phases a call still has to take. *)
Definition remaining (p : Phase) : nat :=
  match p with
  | Claiming => 4 | LookingUp _ => 3 | Fencing _ => 2
  | ClaimingReconciliation => 3 | LookingUpReconciliation _ => 2
  | Recording _ _ => 1 | Finished _ => 0
  end.

(** The statuses a call reports. *)
Definition is_reported (s : ActionAttemptStatus) : bool := is_settled_attempt s || eqb s AT_UNKNOWN.

(** What a phase records or returns is reported. *)
Definition reports (p : Phase) : bool :=
  match p with
  | Recording _ o => is_reported (oc_status o)
  | Finished (Ok r) => is_reported (axr_status r)
  | _ => true
  end.

Lemma claim_result x t s r s' :
  claim x t s = Ok (inl r, s') → is_reported (axr_status r) = true.
Proof.
  intros H. unfold claim in H.
  do 10 apply tx_bind_ok in H as (? & ? & _ & H). case_match; [|done].
  apply tx_bind_ok in H as (? & ? & _ & H). destruct (is_settled_attempt _) eqn:E; [|by tx_inv].
  apply mret_ok in H as [[= ->] _]. unfold is_reported. cbn. by rewrite E.
Qed.

Lemma recover_reports c l o : recover c l = Some o → is_reported (oc_status o) = true.
Proof.
  destruct l; cbn; [by intros [= <-]..| |by intros [= <-]]. destruct (ad_guarantees_idempotency _); [done|].
  by intros [= <-].
Qed.

Section calls.
Context `{Zones}.

(** What a phase of a call meets: a session on whatever the database has become,
    and the provider's answers. *)
Record Encounter := mkEncounter {
  en_session : Session; en_lookup : string → LookupResponse;
  en_provider : ProviderActionRequest → ProviderResponse
}.

Definition advanced (x : Executor) (t : ActionTarget) (p : Phase) (e : Encounter) : Phase :=
  fst (fst (advance x t (en_lookup e) (en_provider e) (en_session e) p)).

Lemma advanced_reports x t p e : reports p = true → reports (advanced x t p e) = true.
Proof.
  unfold advanced. destruct e as [s lookup provider], p as [|c|c| |key|key o|r]; cbn; intros Hp.
  - destruct (claim x t s) as [[[r|c] s']|e] eqn:E; cbn; [by apply claim_result in E| |done].
    by destruct (cl_is_new c).
  - destruct (recover c _) eqn:E; [by apply recover_reports in E|done].
  - destruct (fence x t c provider s) as [[f s']|e]; cbn; [|done].
    by destruct f as [| |r []].
  - destruct (claim_reconciliation x t s) as [[[r|k] s']|e] eqn:E; cbn; [|done..].
    apply claim_reconciliation_ok in E as (a & _ & [(Ha & [= ->] & _)|(s1 & ? & [=] & _)]).
    unfold is_reported. cbn. by rewrite Ha.
  - by destruct (lookup key).
  - destruct (_record_terminal t key o s) as [[r s']|e] eqn:E; cbn; [|done].
    apply record_terminal_ok in E as (a & _ & [(Ha & _ & ->)|(s1 & now & _ & _ & _ & ->)]); [|done].
    unfold is_reported. cbn. by rewrite Ha.
  - done.
Qed.

Lemma advanced_remaining x t p e : (remaining (advanced x t p e) <= pred (remaining p))%nat.
Proof.
  unfold advanced. destruct e as [s lookup provider], p as [|c|c| |key|key o|r]; cbn; try lia.
  - destruct (claim x t s) as [[[r|c] s']|e]; cbn; [lia| |lia]. destruct (cl_is_new c); cbn; lia.
  - destruct (recover c _); cbn; lia.
  - destruct (fence x t c provider s) as [[f s']|e]; cbn; lia.
  - destruct (claim_reconciliation x t s) as [[[r|k] s']|e]; cbn; lia.
  - destruct (_record_terminal t key o s) as [[r s']|e]; cbn; lia.
Qed.

Lemma advanced_all x t encounters p :
  reports p = true →
  reports (foldl (advanced x t) p encounters) = true
  ∧ (remaining (foldl (advanced x t) p encounters) <= remaining p - length encounters)%nat.
Proof.
  revert p. induction encounters as [|e encounters IH]; intros p Hp; cbn [foldl length]; [split; [done|lia]|].
  destruct (IH _ (advanced_reports x t p e Hp)) as [H1 H2]. split; [done|].
  pose proof (advanced_remaining x t p e). lia.
Qed.

(** Every call ends: [execute] within four phases and [reconcile] within three,
    whatever the database has become at each phase and whatever the provider
    answers, with an exception or with a result whose status is settled or
    unknown, never still executing or reconciling. *)
Theorem calls_end x t encounters p :
  (p = Claiming ∧ 4 <= length encounters)%nat ∨ (p = ClaimingReconciliation ∧ 3 <= length encounters)%nat →
  ∃ r, foldl (advanced x t) p encounters = Finished r
    ∧ ∀ result, r = Ok result → axr_status result ∈ [AT_SUCCEEDED; AT_FAILED; AT_CONFLICT; AT_UNKNOWN].
Proof.
  intros Hp. destruct (advanced_all x t encounters p) as [Hrep Hrem]; [by destruct Hp as [[-> _]|[-> _]]|].
  assert (remaining (foldl (advanced x t) p encounters) = 0%nat) as Hz
    by (destruct Hp as [[-> ?]|[-> ?]]; cbn in Hrem; lia).
  destruct (foldl _ p encounters) as [| | | | | |r]; try done.
  exists r. split; [done|]. intros result ->. cbn in Hrep.
  destruct (axr_status result); cbn in Hrep; try done; repeat constructor.
Qed.
End calls.

(** ** A blocked retry *)

(** Recording the outcome of an attempt that is still open. *)
Lemma record_open t key o s r s' :
  _record_terminal t key o s = Ok (r, s') →
  (∀ a, a ∈ action_attempts (s_db s) → is_attempt (tg_tenant_id t) key a = true →
        is_settled_attempt (aa_status a) = false) →
  axr_status r = oc_status o
  ∧ ∀ rq, rq ∈ action_requests (s_db s') → ar_tenant_id rq = tg_tenant_id t →
      ar_id rq = tg_action_request_id t → ar_status rq = request_status_of_attempt (oc_status o).
Proof.
  intros H Hopen. unfold _record_terminal in H.
  apply tx_bind_ok in H as ([] & ? & ->%set_tenant_context_ok & H).
  apply tx_bind_ok in H as (a & ? & [-> Ha]%scalar_ok & H).
  apply tx_bind_ok in H as (rq & ? & Hrq & H).
  destruct a as [a|], rq as [rq|]; try done.
  apply scalar_found in Hrq as (-> & _ & Hid%eqb_true).
  symmetry in Ha. apply hd_filter_Some in Ha as [Hin Hmatch].
  rewrite (Hopen a) in H; [|done|].
  2:{ apply andb_true_iff in Hmatch as [[= Ht]%eqb_true Hk]. unfold is_attempt. by rewrite Ht, Hk, eqb_refl. }
  apply tx_bind_ok in H as (now & ? & [_ ->]%utcnow_ok & H).
  apply tx_bind_ok in H as ([] & s1 & Hu & H). unfold set_request_status in H.
  apply tx_bind_ok in H as ([] & s2 & Hr & [-> ->]%mret_ok). split; [done|].
  apply update_ok in Hu as ->, Hr as ->. intros x Hx Htx Hidx.
  apply list_elem_of_fmap in Hx as (y & -> & _).
  assert (ar_tenant_id y = tg_tenant_id t ∧ ar_id y = tg_action_request_id t) as [Hy1 Hy2].
  { revert Htx Hidx. by case_match. }
  unfold visible. cbn [row_id row_tenant ActionRequest_table s_tenant field_update].
  rewrite Hy1, Hy2, Hid. by rewrite !eqb_refl.
Qed.

Section blocked.
Context `{Zones}.

(** C26: a retry that a control blocks settles an attempt of unknown outcome as
    failed.  An attempt left [UNKNOWN] is executed again through an idempotent
    adapter; the lookup finds nothing, which [reconcile] treats as inconclusive;
    a breaker or the communication policy then stops the fence before the
    provider is called.  The call records the attempt as [FAILED], and the
    request no longer reserves send capacity, although the first execution may
    have reached the provider. *)
Theorem blocked_retry_settles_unknown_as_failed x t c lookup provider s0 s1 f s1' s2 p d calls :
  ad_guarantees_idempotency (cl_adapter c) = true → lookup (cl_key c) = NotFound →
  fence x t c provider s1 = Ok (f, s1') → calls_of t c f = [] →
  (∀ a, a ∈ action_attempts (s_db s2) → is_attempt (tg_tenant_id t) (cl_key c) a = true →
        aa_status a = AT_UNKNOWN) →
  advance x t lookup provider s2 (Recording (cl_key c) (fence_outcome f)) = (p, d, calls) →
  fst (fst (advance x t lookup provider s0 (LookingUp c))) = Fencing c
  ∧ fst (fst (advance x t lookup provider s1 (Fencing c))) = Recording (cl_key c) (fence_outcome f)
  ∧ oc_status (reconciled (lookup (cl_key c))) = AT_UNKNOWN
  ∧ ∀ r, p = Finished (Ok r) →
      axr_status r = AT_FAILED ∧ calls = []
      ∧ ∀ rq, rq ∈ action_requests d → ar_tenant_id rq = tg_tenant_id t →
          ar_id rq = tg_action_request_id t → ar_status rq = FAILED ∧ reserved_outbound (ar_status rq) = false.
Proof.
  intros Hid Hl Hf Hcalls Hopen Hadv. rewrite Hl. cbn in Hadv |- *. rewrite Hl, Hf. cbn. rewrite Hid.
  split_and!; [done..|]. intros r ->.
  destruct (_record_terminal t (cl_key c) (fence_outcome f) s2) as [[r' s']|e] eqn:E; cbn in Hadv; [|done].
  injection Hadv as <- <- <-.
  apply record_open in E as [Hr Hrq]; [|intros a Ha Hk; by rewrite (Hopen a Ha Hk)].
  assert (oc_status (fence_outcome f) = AT_FAILED) as Ho by (by destruct f).
  rewrite Ho in *. split_and!; [done..|]. intros rq H1 H2 H3. by rewrite (Hrq rq H1 H2 H3).
Qed.
End blocked.

(** ** Examples *)

Definition ex_claimed (adapter : ActionAdapter) (is_new : bool) : Claimed :=
  mkClaimed ex_key adapter ex_send_policy is_new.

Lemma provider_call_is_authorized_witness :
  let s := ex_at (ex_execution_db <| action_attempts := [ex_attempt AT_EXECUTING] |>) in
  ∃ r response s', fence (ex_executor ex_adapter) ex_attempt_target (ex_claimed ex_adapter true) ex_sent s
      = Ok (Called r response, s')
    ∧ ∃ au reading, Executable (s_db s) ex_attempt_target (s_clock s (s_reads s)) au
        ∧ s_clock s reading < pi_created_at (au_process au) + cp_maximum_process_lifetime ex_send_policy.
Proof.
  cbv zeta. eexists _, _, _. split; [vm_compute; reflexivity|].
  edestruct (provider_call_is_authorized (ex_executor ex_adapter) ex_attempt_target
    (ex_claimed ex_adapter true) ex_sent
    (ex_at (ex_execution_db <| action_attempts := [ex_attempt AT_EXECUTING] |>)))
    as (_ & _ & au & reading & _ & _ & Hx & _ & _ & Hlife & _); [vm_compute; reflexivity|].
  exists au, reading. split; [exact Hx|exact Hlife].
Defined.

Lemma calls_end_witness :
  let e := mkEncounter (ex_at ex_execution_db) ex_nothing ex_sent in
  ∃ r, foldl (advanced (ex_executor ex_adapter) ex_attempt_target) Claiming [e; e; e; e] = Finished r
    ∧ ∀ result, r = Ok result → axr_status result ∈ [AT_SUCCEEDED; AT_FAILED; AT_CONFLICT; AT_UNKNOWN].
Proof. apply calls_end. left. split; [reflexivity|cbn; lia]. Defined.

(** The attempt is unknown, and an operator trips the tenant's breaker. *)
Definition ex_tripped_db : Db := ex_execution_db
  <| action_requests := [ex_contact_request <| ar_status := EXECUTING |>] |>
  <| action_attempts := [ex_attempt AT_UNKNOWN] |>
  <| circuit_breakers := [mkCircuitBreaker (uuid 66) (uuid 10) ALL "" true "incident" (uuid 50) (days 87)] |>.

Lemma blocked_retry_settles_unknown_as_failed_witness :
  ∃ f s', fence (ex_executor ex_adapter) ex_attempt_target (ex_claimed ex_adapter false) ex_sent (ex_at ex_tripped_db)
      = Ok (f, s')
    ∧ ∃ r d calls, advance (ex_executor ex_adapter) ex_attempt_target ex_nothing ex_sent (ex_at ex_tripped_db)
          (Recording ex_key (fence_outcome f)) = (Finished (Ok r), d, calls)
      ∧ axr_status r = AT_FAILED.
Proof.
  eexists _, _. split; [vm_compute; reflexivity|]. eexists _, _, _. split; [vm_compute; reflexivity|].
  refine (proj1 (proj2 (proj2 (proj2 (blocked_retry_settles_unknown_as_failed (ex_executor ex_adapter) ex_attempt_target
    (ex_claimed ex_adapter false) ex_nothing ex_sent (ex_at ex_tripped_db) (ex_at ex_tripped_db) _ _
    (ex_at ex_tripped_db) _ _ _ eq_refl eq_refl _ _ _ _))) _ eq_refl)).
  - vm_compute. reflexivity.
  - vm_compute. reflexivity.
  - intros a Ha _. cbn in Ha. apply list_elem_of_singleton in Ha as ->. reflexivity.
  - vm_compute. reflexivity.
Defined.
