(* ===== verification/Activities.v ===== *)
(** * [temporal/activities/]: the boundary between the workflow and the services

    [process_state.py], [action_gateway.py] and [action_execution.py]: an activity
    reads the identifiers of its command, checks that the worker answers for the
    tenant, runs one transaction of a service and reports what can not be retried as
    a final [ApplicationError].  Reading a decision from its JSON is an argument. *)

From stdpp Require Import base gmap list strings.
From Stdlib Require Import ZArith Lia.
From S2P Require Import Prelude Python Identifiers PyTime Json Limits Contracts DecisionPolicy Transitions Definitions Communications Schema Session State Budgets CommunicationSafety Control Deployment Gateway Context AgentTurn Execution.

#[local] Open Scope Z_scope.

(** [try: m except table as error: raise ApplicationError(...)] around a transaction. *)
Definition final_errors {A} (table : exn_class → bool) (m : Tx A) : Tx A := λ s,
  as_application_error (λ e, if table (exn_cls e) then Some (exn_msg e) else None) (m s).

Lemma final_errors_ok {A} table (m : Tx A) s r : final_errors table m s = Ok r → m s = Ok r.
Proof. unfold final_errors, as_application_error. destruct (m s) as [|e]; [done|]. by destruct (table _). Qed.

(** The lineage checks every activity repeats on the decision it is handed. *)
Definition lineage_expectation (now : datetime) (events reviews attempts : list UUID) (timers : list string)
    (facts : option (list (string * json))) (enforce : bool) : TurnExpectation :=
  mkExpectation now (Some events) (Some reviews) (Some attempts) (Some timers) [] facts enforce.

(** A command that carries a decision and its lineage: [PersistProcessStateCommand] and
    [PersistActionsCommand]. *)
Record PersistCommand := mkPersistCommand {
  psc_tenant_id : string;
  psc_process_instance_id : string;
  psc_process_definition_id : string;
  psc_process_definition_version : string;
  psc_agent_turn_id : string;
  psc_event_ids : list string;
  psc_workflow_now : datetime;
  psc_decision_json : string;
  psc_review_command_ids : list string;
  psc_action_attempt_ids : list string;
  psc_timer_ids : list string
}.

Record PersistProcessStateResult := mkPersistStateResult {
  psr_result_version : Z;
  psr_result_status : string;
  psr_result_wake_conditions_json : string;
  psr_result_pending_action_request_ids : list string;
  psr_result_terminal : bool
}.

Record RecordProcessInterventionCommand := mkRecordIntervention {
  ric_intervention_id : string;
  ric_tenant_id : string;
  ric_process_instance_id : string;
  ric_agent_turn_id : string;
  ric_kind : InterventionKind;
  ric_error_type : string;
  ric_error : string;
  ric_event_ids : list string;
  ric_review_command_ids : list string;
  ric_action_attempt_ids : list string;
  ric_timer_ids : list string
}.

(** What the activities of one worker hold; the release is optional. *)
Record ActivityWorker := mkActivityWorker {
  wk_registry : ProcessDefinitionRegistry;
  wk_release : option DeploymentRelease;
  wk_authorized_tenant_ids : option (list UUID)
}.

(** [if self._deployment_release is not None: await check(...)] *)
Definition with_release (w : ActivityWorker) (check : string → Tx unit) : Tx unit :=
  match wk_release w with Some r => check (dr_deployment_id r) | None => mret tt end.

(** ** [process_state.py] *)

Definition record_process_intervention (w : ActivityWorker) (c : RecordProcessInterventionCommand) : Tx unit :=
  tenant_id ← lift_result (parse_uuid (ric_tenant_id c));
  final_errors (λ e, match e with TenantNotAuthorized | TenantUnavailable | ProcessControlConflict => true | _ => false end) (
    _ ← lift_result (require_authorized_tenant tenant_id (wk_authorized_tenant_ids w));
    _ ← with_release w (require_tenant_deployment tenant_id);
    intervention_id ← lift_result (parse_uuid (ric_intervention_id c));
    process_instance_id ← lift_result (parse_uuid (ric_process_instance_id c));
    agent_turn_id ← lift_result (parse_uuid (ric_agent_turn_id c));
    event_ids ← lift_result (parse_uuids (ric_event_ids c));
    review_command_ids ← lift_result (parse_uuids (ric_review_command_ids c));
    action_attempt_ids ← lift_result (parse_uuids (ric_action_attempt_ids c));
    _ ← record_intervention (mkInterventionInput intervention_id tenant_id process_instance_id agent_turn_id
          (ric_kind c) (ric_error_type c) (ric_error c) event_ids review_command_ids action_attempt_ids
          (ric_timer_ids c));
    mret tt).

Section decisions.
Context (dump_datetime : datetime → string) (read_decision : string → result AgentDecision).

Definition persisted_state_result (a : AppliedProcessState) : PersistProcessStateResult :=
  mkPersistStateResult (aps_version a) (process_status_value (aps_status a))
    (dumps true (JArr (wake_dump dump_datetime <$> aps_wake_conditions a)))
    (str_uuid <$> aps_pending_action_request_ids a) (aps_terminal a).

Definition is_decision_error (e : exn_class) : bool :=
  match e with
  | DecisionRejected | ProcessStateConflict | TenantNotAuthorized | TenantSuspended | TenantUnavailable => true
  | _ => false
  end.

Definition persist_process_state (w : ActivityWorker) (c : PersistCommand) : Tx PersistProcessStateResult :=
  tenant_id ← lift_result (parse_uuid (psc_tenant_id c));
  _ ← lift_result (authorize_tenant (wk_authorized_tenant_ids w) tenant_id);
  definition ← lift_result (get_definition (wk_registry w) (psc_process_definition_id c)
                              (psc_process_definition_version c));
  decision ← lift_result (read_decision (psc_decision_json c));
  applied ← final_errors is_decision_error (
    _ ← lift_result (policy_post_init (decision_policy definition));
    event_ids ← lift_result (parse_uuids (psc_event_ids c));
    review_command_ids ← lift_result (parse_uuids (psc_review_command_ids c));
    action_attempt_ids ← lift_result (parse_uuids (psc_action_attempt_ids c));
    _ ← lift_result (validate_decision decision (decision_policy definition)
          (lineage_expectation (psc_workflow_now c) event_ids review_command_ids action_attempt_ids
             (psc_timer_ids c) None false));
    _ ← with_release w (λ d, require_active_tenant tenant_id (Some d));
    process_instance_id ← lift_result (parse_uuid (psc_process_instance_id c));
    agent_turn_id ← lift_result (parse_uuid (psc_agent_turn_id c));
    apply_decision tenant_id process_instance_id agent_turn_id decision
      (Some (pd_terminal_states definition)) (pd_completion_requirements definition));
  mret (persisted_state_result applied).

(** ** [action_gateway.py] *)

(** [_completion_facts]: the stored facts of the process with those of the turn's rows, in
    the order the database returns the rows. *)
Definition _completion_facts (tenant_id process_instance_id : UUID) (event_ids action_attempt_ids : list UUID)
  : Tx (gmap string json) :=
  stored ← scalar (is_process tenant_id process_instance_id);
  match stored with
  | None => tx_raise ActionPersistenceConflict "process instance not found"
  | Some process =>
      events ← (if nonempty event_ids then
                  select (λ e : EventInbox, eqb (ei_tenant_id e) tenant_id
                    && eqb (ei_process_instance_id e) (Some process_instance_id)
                    && bool_decide (ei_id e ∈ event_ids) && eqb (ei_correlation_status e) CS_MATCHED)
                else mret []);
      events ← lift_result (mapM (turn_event dump_datetime process_instance_id) events);
      attempts ← (if nonempty action_attempt_ids then
                    select (λ a : ActionAttempt, eqb (aa_tenant_id a) tenant_id
                      && eqb (aa_process_instance_id a) process_instance_id
                      && bool_decide (aa_id a ∈ action_attempt_ids))
                  else mret []);
      _ ← lift_result (for_each (λ a, for_each fact_validate (aa_facts a)) attempts);
      mret (fold_left add_authoritative
              (concat (map ce_facts events) ++ concat (map aa_facts attempts)) (pi_authoritative_facts process))
  end.

Definition is_action_error (e : exn_class) : bool :=
  match e with
  | ActionPersistenceConflict | DecisionRejected | TenantNotAuthorized | TenantSuspended | TenantUnavailable => true
  | _ => false
  end.

Definition permission_name (p : PermissionOutcome) : json := JStr (permission_value p).

Definition persisted_action_json (a : PersistedAction) : json :=
  JObj [("action_request_id", uuid_json (pa_action_request_id a)); ("revision", JInt (pa_revision a));
        ("payload_hash", JStr (pa_payload_hash a)); ("outcome", permission_name (pa_outcome a));
        ("status", JStr (request_status_value (pa_status a)));
        ("approval_request_id", opt_json uuid_json (pa_approval_request_id a));
        ("review_thread_id", opt_json uuid_json (pa_review_thread_id a))]%string.

(** [persist_agent_actions] gives the JSON of the persisted actions. *)
Definition persist_agent_actions `{Zones} (dump_time : time → string)
    (server_order : list (UUID * string) → list (UUID * string))
    (platform_outbound_paused : bool) (w : ActivityWorker) (c : PersistCommand) : Tx string :=
  tenant_id ← lift_result (parse_uuid (psc_tenant_id c));
  _ ← lift_result (authorize_tenant (wk_authorized_tenant_ids w) tenant_id);
  definition ← lift_result (get_definition (wk_registry w) (psc_process_definition_id c)
                              (psc_process_definition_version c));
  decision ← lift_result (read_decision (psc_decision_json c));
  persisted ← final_errors is_action_error (
    _ ← set_tenant_context tenant_id;
    _ ← with_release w (λ d, require_active_tenant tenant_id (Some d));
    facts ← (if eqb (ad_status decision) DS_COMPLETED then
               process_instance_id ← lift_result (parse_uuid (psc_process_instance_id c));
               event_ids ← lift_result (parse_uuids (psc_event_ids c));
               action_attempt_ids ← lift_result (parse_uuids (psc_action_attempt_ids c));
               _completion_facts tenant_id process_instance_id event_ids action_attempt_ids
             else mret ∅);
    _ ← lift_result (policy_post_init (decision_policy definition));
    event_ids ← lift_result (parse_uuids (psc_event_ids c));
    review_command_ids ← lift_result (parse_uuids (psc_review_command_ids c));
    action_attempt_ids ← lift_result (parse_uuids (psc_action_attempt_ids c));
    _ ← lift_result (validate_decision decision (decision_policy definition)
          (lineage_expectation (psc_workflow_now c) event_ids review_command_ids action_attempt_ids
             (psc_timer_ids c) (Some (fact_items facts)) true));
    process_instance_id ← lift_result (parse_uuid (psc_process_instance_id c));
    agent_turn_id ← lift_result (parse_uuid (psc_agent_turn_id c));
    persist_decision server_order
      (mkGateway platform_outbound_paused (action_policy dump_time definition)
         (Some (communication_policy definition, psc_workflow_now c)))
      (mkTurnKey tenant_id process_instance_id agent_turn_id (pd_version definition)) decision);
  mret (dumps true (JArr (persisted_action_json <$> persisted))).
End decisions.

(** ** [action_execution.py] *)

Record ExecuteActionCommand := mkExecuteCommand {
  eac_tenant_id : string;
  eac_process_instance_id : string;
  eac_action_request_id : string;
  eac_revision : Z
}.

(** [LookupError] has [KeyError] and the not-found errors of the services below it. *)
Definition is_execution_error (e : exn_class) : bool :=
  match e with
  | ActionExecutionRejected | DeploymentCompatibilityError | TenantNotAuthorized
  | LookupError | KeyError | TenantUnavailable | TenantNotFound | QuarantineNotFound => true
  | _ => false
  end.

Definition execution_final {A} (m : result A) : result A :=
  as_application_error (λ e, if is_execution_error (exn_cls e) then Some (exn_msg e) else None) m.

(** Up to the call of the executor. *)
Definition begin_execution (authorized : option (list UUID)) (c : ExecuteActionCommand) : result ActionTarget :=
  tenant_id ← parse_uuid (eac_tenant_id c);
  execution_final (
    _ ← require_authorized_tenant tenant_id authorized;
    process_instance_id ← parse_uuid (eac_process_instance_id c);
    action_request_id ← parse_uuid (eac_action_request_id c);
    Ok (mkTarget tenant_id process_instance_id action_request_id (eac_revision c))).

Definition execution_payload (r : ActionExecutionResult) : json :=
  JObj [("action_request_id", uuid_json (axr_action_request_id r));
        ("attempt_id", uuid_json (axr_attempt_id r)); ("status", JStr (attempt_status_value (axr_status r)));
        ("idempotency_key", JStr (axr_idempotency_key r));
        ("provider_reference", opt_json JStr (axr_provider_reference r));
        ("result", opt_json JObj (axr_result r)); ("facts", JArr (fact_json <$> axr_facts r));
        ("error", opt_json JStr (axr_error r)); ("conflict", opt_json conflict_json (axr_conflict r))]%string.

(** After the executor has returned or raised. *)
Definition end_execution (r : result ActionExecutionResult) : result string :=
  a ← execution_final r; Ok (dumps true (execution_payload a)).

(** [_run], as the phases of the executor between its two ends; [advance] gives the phase
    that follows one. *)
Inductive ActivityPhase :=
  | Executing (t : ActionTarget) (p : Phase)
  | Answered (r : result string).

Definition answer (t : ActionTarget) (p : Phase) : ActivityPhase :=
  match p with Finished r => Answered (end_execution r) | _ => Executing t p end.

Definition _run (authorized : option (list UUID)) (c : ExecuteActionCommand) (reconcile : bool) : ActivityPhase :=
  match begin_execution authorized c with
  | Ok t => Executing t (if reconcile then ClaimingReconciliation else Claiming)
  | Raise e => Answered (Raise e)
  end.

Definition activity_step (advance : ActionTarget → Phase → Phase) (p : ActivityPhase) : ActivityPhase :=
  match p with Executing t p => answer t (advance t p) | Answered r => Answered r end.
