(* ===== verification/ActivityFacts.v ===== *)
(** * What the activities agree on

    A turn, the gateway and the state service each judge a decision, in three
    transactions, from their own reading of the turn.  When the decision lists its
    lineage in the turn's order the three readings agree; when it does not, they need
    not. *)

From stdpp Require Import base gmap list strings.
From Stdlib Require Import ZArith Lia.
From S2P Require Import Prelude Python Identifiers PyTime Json Limits Contracts DecisionPolicy Transitions Definitions Communications Schema Session State Budgets CommunicationSafety Control Deployment Gateway Context AgentTurn AgentTurnFacts Execution ExecutionFacts ExecutionSafety Activities.

#[local] Open Scope Z_scope.

(** ** Facts *)

Lemma authoritative_observation st i p f :
  fp_authoritative (apply_fact_observation st i p f) = add_authoritative (fp_authoritative p) f.
Proof. unfold apply_fact_observation, add_authoritative. by destruct (fact_kind f). Qed.

Lemma authoritative_observations fs st i p :
  fp_authoritative (apply_fact_observations fs st i p) = fold_left add_authoritative fs (fp_authoritative p).
Proof.
  unfold apply_fact_observations. revert p. induction fs as [|f fs IH]; intros p; [done|].
  cbn [fold_left]. by rewrite IH, authoritative_observation.
Qed.

Lemma authoritative_sources {A} (f : A → list FactObservation) st (g : A → UUID) xs p :
  fp_authoritative (fold_left (λ p x, apply_fact_observations (f x) st (g x) p) xs p)
  = fold_left add_authoritative (concat (map f xs)) (fp_authoritative p).
Proof.
  revert p. induction xs as [|x xs IH]; intros p; [done|].
  cbn [fold_left map concat]. by rewrite IH, authoritative_observations, fold_left_app.
Qed.

(** What the turn holds a completion against is what the loader projected. *)
Lemma prospective_projection p i :
  ps_authoritative_facts (ti_process i) = pi_authoritative_facts p →
  prospective_facts i = fp_authoritative (turn_projection p (ti_events i) (ti_action_results i)).
Proof.
  intros E. unfold prospective_facts, turn_projection. rewrite !authoritative_sources, fold_left_app. cbn. by rewrite E.
Qed.

(** ** Lineage *)

Lemma event_ids_of d t p ids es :
  events_under_own_id d → Forall2 (event_of d t p) ids es → ce_event_id <$> es = ids.
Proof.
  intros Hown H. unfold events_under_own_id in Hown. rewrite Forall_forall in Hown.
  induction H as [|i e ids es (r & Hin & <- & _ & _ & _ & E & _) _ IH]; [done|]. cbn. by rewrite E, Hown, IH.
Qed.

Lemma review_ids_of d t p ids cs : Forall2 (review_of d t p) ids cs → rc_command_id <$> cs = ids.
Proof.
  induction 1 as [|i c ids cs Hc _ IH]; [done|]. destruct Hc as (m & th & a & r & v & H).
  destruct H as (_ & _ & _ & _ & _ & _ & <- & _ & _ & _ & _ & _ & _ & Hc).
  unfold review_turn_context in Hc. bind_inv. subst c. cbn. by rewrite IH.
Qed.

Lemma result_ids_of d t p ids xs : Forall2 (result_of d t p) ids xs → xc_attempt_id <$> xs = ids.
Proof.
  induction 1 as [|i c ids xs Hc _ IH]; [done|]. destruct Hc as (a & r & v & o & H).
  destruct H as (_ & _ & _ & _ & <- & _ & _ & _ & _ & _ & Hc). apply action_result_facts in Hc as [Hc _].
  cbn in Hc |- *. by rewrite Hc, IH.
Qed.

(** The checks a later activity repeats, without the facts, are among the turn's. *)
Lemma admissible_lineage d p i now es cs xs ts :
  Admissible d p (expectation_of i now) →
  ce_event_id <$> ti_events i = es → rc_command_id <$> ti_reviews i = cs →
  xc_attempt_id <$> ti_action_results i = xs → ti_timer_ids i = ts →
  Admissible d p (lineage_expectation now es cs xs ts None false).
Proof.
  intros [] <- <- <- <-. constructor; try done. apply Forall_true. intros a. cbn. apply not_elem_of_nil.
Qed.

(** ** The order a decision lists its lineage in *)

(** The decision with its events listed otherwise. *)
Definition relisted (events : list UUID) (d : AgentDecision) : AgentDecision :=
  mkDecision (ad_decision_id d) events (ad_based_on_review_command_ids d) (ad_based_on_action_attempt_ids d)
    (ad_based_on_timer_ids d) (ad_status d) (ad_actions d) (ad_wake_conditions d) (ad_memory_update d).

Lemma relisted_admissible events d p t :
  events ≡ₚ ad_based_on_event_ids d → Admissible d p t → Admissible (relisted events d) p t.
Proof.
  intros Hp []. constructor; cbn [relisted ad_based_on_event_ids ad_based_on_review_command_ids
    ad_based_on_action_attempt_ids ad_based_on_timer_ids ad_status ad_actions ad_wake_conditions ad_memory_update]; try done.
  - unfold lineage_is in *. destruct (te_expected_event_ids t); [|done]. intros x. by rewrite Hp.
  - by rewrite Hp.
Qed.

(** ** Properties *)

(** A decision that a turn may return also passes the boundary of the state service,
    when the command hands on the turn's identifiers; and if it lists its events and action
    results in the turn's order, the facts the service projects, in a later transaction over
    the same rows, are those the turn judged its completion on, and are within the limits the
    turn was loaded under. *)
Theorem turn_decisions_pass_the_state_boundary dump w c s t s' d :
  begin_turn dump w c s = Ok (t, s') → ids_unique (s_db s) → events_under_own_id (s_db s) →
  Admissible d (decision_policy (tn_definition t)) (tn_expectation t) →
  ∃ es cs xs, parse_uuids (atc_event_ids c) = Ok es ∧ parse_uuids (atc_review_command_ids c) = Ok cs
    ∧ parse_uuids (atc_action_attempt_ids c) = Ok xs
    ∧ validate_decision d (decision_policy (tn_definition t))
        (lineage_expectation (atc_workflow_now c) es cs xs (atc_timer_ids c) None false) = Ok d
    ∧ (ad_based_on_event_ids d = es → ad_based_on_action_attempt_ids d = xs →
       ∀ s2, s_db s2 = s_db s → s_tenant s2 = Some (tn_tenant_id t) →
       ∃ p events attempts, p ∈ process_instances (s_db s) ∧ pi_id p = tn_process_instance_id t
         ∧ _load_events (pi_id p) (ad_based_on_event_ids d) s2 = Ok (events, s2)
         ∧ _load_attempts (pi_id p) (ad_based_on_action_attempt_ids d) s2 = Ok (attempts, s2)
         ∧ let f := project_facts p d events attempts in
           te_current_authoritative_facts (tn_expectation t) = Some (fact_items (fp_authoritative f))
           ∧ require_process_fact_projection (fact_items (fp_authoritative f)) (fact_items (fp_claims f))
               (fact_items (fp_provenance f)) (cl_limits (ata_loader w)) = Ok tt).
Proof.
  intros (_ & _ & Hexp & q & Ht & Hp & _ & He & Hc & Hx & Htm & Hl)%begin_turn_ok Hu Hown Ha.
  pose proof (event_ids_of _ _ _ _ _ Hown (lt_events _ _ _ _ _ _ _ _ Hl)) as Ee.
  pose proof (review_ids_of _ _ _ _ _ (lt_reviews _ _ _ _ _ _ _ _ Hl)) as Ec.
  pose proof (result_ids_of _ _ _ _ _ (lt_results _ _ _ _ _ _ _ _ Hl)) as Ex.
  destruct (lt_turn _ _ _ _ _ _ _ _ Hl) as (_ & _ & Etm & _).
  exists (tr_event_ids q), (tr_review_command_ids q), (tr_action_attempt_ids q). split_and!; try done.
  - apply validate_decision_ok. split; [done|]. rewrite Hexp in Ha.
    eapply admissible_lineage; [exact Ha|done..|by rewrite Etm].
  - intros Hde Hdx s2 Hdb Hs2. rewrite <- Hdb in Hl, Hu, Hown |- *. rewrite <- Ht in Hs2.
    destruct (lt_process _ _ _ _ _ _ _ _ Hl) as (p & Hin & Hid & _ & _ & _ & _ & _ & Hsn & _ & [[] Hf]).
    destruct (loaded_projection_is_persisted _ _ _ _ _ _ _ _ p d Hl Hs2 Hu Hown Hde Hdx) as (es & xs & Hes & Hxs & Heq).
    exists p, es, xs. rewrite Hid, Heq. split_and!; try done.
    rewrite Hexp. unfold expectation_of, te_current_authoritative_facts.
    rewrite (prospective_projection p); [done|]. by destruct Hsn as (_ & _ & _ & _ & _ & -> & _).
Qed.

(** The order in which the model lists the events of its turn is not checked, and decides
    the durable facts: when two events of a turn report the same fact with different values,
    the decision and the decision with the two listed the other way round are accepted by the
    very same checks, and the state service projects the value of whichever event is listed
    last, be it the older one.  The turn itself judged completion on the value of the later
    event. *)
Theorem lineage_order_decides_facts d p te process key ea eb va vb attempts :
  ad_based_on_event_ids d = [ei_id ea; ei_id eb] → ei_id ea ≠ ei_id eb → ad_based_on_action_attempt_ids d = [] →
  ce_facts (ei_event_data ea) = [mkFact key AUTHORITATIVE va] →
  ce_facts (ei_event_data eb) = [mkFact key AUTHORITATIVE vb] →
  validate_decision d p te = Ok d →
  let d' := relisted [ei_id eb; ei_id ea] d in
  validate_decision d' p te = Ok d'
  ∧ fp_authoritative (project_facts process d [ea; eb] attempts) !! key = Some vb
  ∧ fp_authoritative (project_facts process d' [ea; eb] attempts) !! key = Some va.
Proof.
  intros He Hne Hx Ha Hb [_ Hadm]%validate_decision_ok d'. split.
  - apply validate_decision_ok. split; [done|]. apply relisted_admissible; [|done]. rewrite He. constructor.
  - unfold project_facts. subst d'. cbn [relisted ad_based_on_event_ids ad_based_on_action_attempt_ids].
    rewrite He, Hx. unfold apply_sources. cbn [fold_left List.find].
    rewrite !eqb_refl, (proj2 (eqb_neq (ei_id ea) (ei_id eb)) Hne), Ha, Hb. cbn. by rewrite !lookup_insert_eq.
Qed.

(** ** Examples *)

Definition ex_begun : result (Turn * Session) :=
  begin_turn isoformat ex_turn_activities ex_turn_command ex_turn_session.
Definition ex_turn_state : Turn :=
  match ex_begun with
  | Ok (t, _) => t
  | Raise _ => mkTurn (uuid 0) (uuid 0) (uuid 0) ex_process_definition ex_input (expectation_of ex_input (utc 0))
  end.
Lemma ex_begun_eq : ex_begun = Ok (ex_turn_state, ex_loaded_session).
Proof. vm_compute. reflexivity. Qed.

Lemma turn_decisions_pass_the_state_boundary_witness :
  ∃ es cs xs, parse_uuids [str_uuid (uuid 40)] = Ok es ∧ parse_uuids [] = Ok cs ∧ parse_uuids [] = Ok xs
    ∧ validate_decision ex_state_decision (decision_policy (tn_definition ex_turn_state))
        (lineage_expectation (utc (days 81)) es cs xs [] None false) = Ok ex_state_decision.
Proof.
  destruct (turn_decisions_pass_the_state_boundary isoformat ex_turn_activities ex_turn_command ex_turn_session
    ex_turn_state ex_loaded_session ex_state_decision ex_begun_eq) as (es & cs & xs & H1 & H2 & H3 & H4 & _).
  - split; [apply NoDup_singleton|constructor].
  - by repeat constructor.
  - eapply validate_decision_ok. vm_compute. reflexivity.
  - exists es, cs, xs. exact (conj H1 (conj H2 (conj H3 H4))).
Defined.

(** The booking was cancelled and, later, confirmed. *)
Definition ex_status_event (n : N) (status : string) (at_ : Z) : EventInbox :=
  mkEventInbox (uuid n) (uuid 10) (Some (uuid 20)) "email" (str_uuid (uuid n)) "booking.created"
    (mkEvent (uuid n) (uuid 10) None "booking.created" "email" (str_uuid (uuid n)) (utc at_) (utc at_) 1 INTERNAL []
       [mkFact "booking.status" AUTHORITATIVE (JStr status)] []) CS_MATCHED None at_ at_.
Definition ex_cancelled : EventInbox := ex_status_event 40 "cancelled" (days 81).
Definition ex_confirmed : EventInbox := ex_status_event 41 "confirmed" (days 81 + hours 1).
Definition ex_two_events : list UUID := [uuid 40; uuid 41].
Definition ex_listed : AgentDecision := mkDecision (uuid 5) ex_two_events [] [] [] DS_COMPLETED [] [] empty_memory.
Definition ex_expectation : TurnExpectation :=
  mkExpectation (utc (days 82)) (Some ex_two_events) (Some []) (Some []) (Some []) []
    (Some [("booking.status"%string, JStr "confirmed")]) true.

Lemma lineage_order_decides_facts_witness :
  let d' := relisted [uuid 41; uuid 40] ex_listed in
  validate_decision d' (decision_policy ex_process_definition) ex_expectation = Ok d'
  ∧ fp_authoritative (project_facts ex_state_process d' [ex_cancelled; ex_confirmed] []) !! "booking.status"%string
    = Some (JStr "cancelled").
Proof.
  destruct (lineage_order_decides_facts ex_listed (decision_policy ex_process_definition) ex_expectation
    ex_state_process "booking.status" ex_cancelled ex_confirmed (JStr "cancelled") (JStr "confirmed") [])
    as (H1 & _ & H2); [reflexivity|discriminate|reflexivity..|vm_compute; reflexivity|].
  exact (conj H1 H2).
Defined.

(** The two orders through the activities: the turn accepts the decision that lists the newer
    event first, the state service then refuses it for good; the gateway, which reads the rows
    in the order of the table, accepts both. *)
Definition ex_order_db : Db := ex_turn_db <| event_inbox := [ex_cancelled; ex_confirmed] |>.
Definition ex_order_session : Session :=
  mkSession ex_order_db None (days 82) (λ _, days 82) 0 (λ n, uuid (100 + N.of_nat n)) 0.
Definition ex_worker : ActivityWorker :=
  mkActivityWorker [("booking_follow_up", "1", ex_process_definition)]%string (Some ex_running_release) None.
Definition ex_persist : PersistCommand :=
  mkPersistCommand (str_uuid (uuid 10)) (str_uuid (uuid 20)) "booking_follow_up" "1" (str_uuid (uuid 30))
    (str_uuid <$> ex_two_events) (utc (days 82)) "" [] [] [].
Definition ex_persisted (d : AgentDecision) : result (PersistProcessStateResult * Session) :=
  persist_process_state isoformat (λ _, Ok d) ex_worker ex_persist ex_order_session.

Example turn_order_persists :
  match ex_persisted ex_listed with Ok (r, _) => psr_result_terminal r | Raise _ => false end = true.
Proof. vm_compute. reflexivity. Qed.
Example other_order_is_refused :
  match ex_persisted (relisted [uuid 41; uuid 40] ex_listed) with
  | Raise e => eqb (exn_cls e) (ApplicationError "ProcessStateConflict") | Ok _ => false end = true.
Proof. vm_compute. reflexivity. Qed.
