(* ===== verification/Projects.v ===== *)
(** * [projects/contracts.py]: what the author of a client project declares

    Facts, capabilities, routes, scenarios, communications, journeys and projects,
    with the checks their constructors run.  pydantic types and adapters are objects
    of the author's: a [ValueType], a [ParametersModel] and an [AdapterObject] hold
    what the source reads of them, functions where it calls them.  A fact whose type
    has no JSON schema cannot be built and is not modelled; a plain value a step
    carries is JSON data. *)

From stdpp Require Import base list strings pretty.
From Stdlib Require Import ZArith Lia.
From S2P Require Import Prelude Python Identifiers PyTime Json Limits Contracts DecisionPolicy Transitions Definitions Schema Session Deployment State Context.

#[local] Open Scope Z_scope.
#[local] Open Scope string_scope.

(** ** Values an author writes *)

Record ScenarioValue := mkScenarioValue { sv_fact_key : string; sv_path : list (string + Z) }.

(** Python data that may hold references to facts ([ScenarioValue] objects) and other
    models.  A model shows whether it can be hashed and what it dumps to; dictionary keys
    are strings. *)
Inductive pydata :=
  | PNone
  | PBool (b : bool)
  | PInt (n : Z)
  | PFloat (f : pyfloat)
  | PStr (s : string)
  | PList (xs : list pydata)
  | PTuple (xs : list pydata)
  | PDict (items : list (string * pydata))
  | PFact (v : ScenarioValue)
  | PModel (hashable : bool) (dump : pydata).

Definition scenario_value_json (v : ScenarioValue) : json :=
  JObj [("type", JStr "fact"); ("fact_key", JStr (sv_fact_key v));
        ("path", JArr ((λ p, match p with inl s => JStr s | inr n => JInt n end) <$> sv_path v))].

(** [model_dump(mode="json")] of a field that holds it. *)
Fixpoint data_json (v : pydata) : json :=
  match v with
  | PNone => JNull
  | PBool b => JBool b
  | PInt n => JInt n
  | PFloat f => JFloat f
  | PStr s => JStr s
  | PList xs | PTuple xs => JArr (map data_json xs)
  | PDict items => JObj (map (λ kv, (fst kv, data_json (snd kv))) items)
  | PFact v => scenario_value_json v
  | PModel _ dump => data_json dump
  end.

(** JSON data as Python data. *)
Fixpoint json_data (v : json) : pydata :=
  match v with
  | JNull => PNone
  | JBool b => PBool b
  | JInt n => PInt n
  | JFloat f => PFloat f
  | JStr s => PStr s
  | JArr xs => PList (map json_data xs)
  | JObj items => PDict (map (λ kv, (fst kv, json_data (snd kv))) items)
  end.

Definition items_json (items : list (string * pydata)) : list (string * json) :=
  (λ kv, (fst kv, data_json (snd kv))) <$> items.

(** What the source asks of [TypeAdapter(value_type)]. *)
Record ValueType := mkValueType {
  vt_json_schema : list (string * json);
  vt_validate_dump : pydata → result json
}.

(** What the source asks of a pydantic model class. *)
Record ParametersModel := mkParametersModel {
  pm_json_schema : list (string * json);
  pm_model_validate : list (string * pydata) → result unit
}.

(** An adapter as [getattr], [isinstance] and [callable] see it: [None] is an
    attribute that is missing or of another type. *)
Record AdapterObject := mkAdapterObject {
  ao_id : option string;
  ao_guarantees_idempotency : option bool;
  ao_has_execute : bool;
  ao_has_lookup : bool;
  ao_is_simulation_adapter : bool
}.

(** ** Checks *)

Definition _require_identifier (value label : string) : result unit :=
  raise_if (negb (is_identifier value)) ProjectConfigurationError (label +:+ " must be a snake_case identifier").

Definition _require_nonblank (value label : string) : result unit :=
  raise_if (is_blank value) ProjectConfigurationError (label +:+ " cannot be blank").

Definition DecisionTransformer : Type := AgentDecision → AgentTurnInput → result AgentDecision.

(** ** Facts *)

Record FactRequirement := mkFactRequirement { fr_fact_key : string; fr_expected_value : json }.

Definition fact_requirement_post_init (r : FactRequirement) : result unit :=
  _ ← canonical_json_bytes (fr_expected_value r) ("completion value for " +:+ fr_fact_key r);
  Ok tt.

Record Fact := mkProjectFact {
  pf_key : string;
  pf_title : string;
  pf_description : string;
  pf_value_type : ValueType;
  pf_kinds : list FactKind;
  pf_operator_editable : bool
}.

Definition fact_post_init (f : Fact) : result unit :=
  _ ← raise_if (negb (is_dotted_identifier (pf_key f))) ProjectConfigurationError
        "fact key must be a dotted lowercase identifier";
  _ ← _require_nonblank (pf_title f) ("fact " +:+ pf_key f +:+ " title");
  _ ← _require_nonblank (pf_description f) ("fact " +:+ pf_key f +:+ " description");
  _ ← raise_if (negb (nonempty (pf_kinds f)) || negb (all_unique (pf_kinds f))) ProjectConfigurationError
        ("fact " +:+ pf_key f +:+ " kinds must be unique and nonempty");
  raise_if (pf_operator_editable f && negb (bool_decide (AUTHORITATIVE ∈ pf_kinds f)))
    ProjectConfigurationError
    ("operator-editable fact " +:+ pf_key f +:+ " must permit authoritative observations").

Definition value_schema (f : Fact) : list (string * json) := vt_json_schema (pf_value_type f).

(** [Fact.equals] *)
Definition fact_equals (f : Fact) (value : pydata) : result FactRequirement :=
  encoded ← vt_validate_dump (pf_value_type f) value;
  let r := mkFactRequirement (pf_key f) encoded in
  _ ← fact_requirement_post_init r;
  Ok r.

Record ScenarioFact := mkScenarioFact { sf_key : string; sf_kind : FactKind; sf_value : pydata }.

(** [Fact.observed] *)
Definition fact_observed (f : Fact) (value : pydata) (kind : FactKind) : result ScenarioFact :=
  _ ← raise_if (negb (bool_decide (kind ∈ pf_kinds f))) ProjectConfigurationError
        ("fact " +:+ pf_key f +:+ " does not permit " +:+ fact_kind_value kind +:+ " observations");
  encoded ← match value with
            | PFact v => Ok (json_data (scenario_value_json v))
            | _ => e ← vt_validate_dump (pf_value_type f) value; Ok (json_data e)
            end;
  _ ← raise_if (negb (is_dotted_identifier (pf_key f))) ValueError "key";
  Ok (mkScenarioFact (pf_key f) kind encoded).

(** ** Capabilities *)

Record Capability := mkCapability {
  ca_action_type : string;
  ca_title : string;
  ca_description : string;
  ca_parameters_model : option ParametersModel;   (* [None]: no pydantic model *)
  ca_adapter : AdapterObject;
  ca_guidance : string;
  ca_default_permission : PermissionOutcome;
  ca_produces : list Fact;
  ca_simulation_adapter : option AdapterObject
}.

Definition _require_parameter_model (value : option ParametersModel) (action_type : string)
  : result ParametersModel :=
  match value with
  | Some m => Ok m
  | None => raise ProjectConfigurationError
              ("capability " +:+ action_type +:+ " parameters_model must be a Pydantic model")
  end.

(** [not isinstance(id, str) or not id.strip()] *)
Definition no_id (a : AdapterObject) : bool :=
  match ao_id a with Some i => is_blank i | None => true end.

(** [schema.get("additionalProperties") is not False] *)
Definition allows_unknown_fields (m : ParametersModel) : bool :=
  match assoc "additionalProperties" (pm_json_schema m) with Some (JBool false) => false | _ => true end.

Definition simulation_adapter_check (action_type : string) (a : AdapterObject) : result unit :=
  let label := "capability " +:+ action_type +:+ " simulation adapter " in
  _ ← raise_if (no_id a) ProjectConfigurationError (label +:+ "must expose a nonblank id");
  _ ← raise_if (negb (ao_is_simulation_adapter a)) ProjectConfigurationError
        (label +:+ "must be explicitly marked safe");
  raise_if (negb (ao_has_execute a) || negb (ao_has_lookup a)) ProjectConfigurationError
    (label +:+ "must implement execute and lookup").

Definition capability_post_init (c : Capability) : result unit :=
  let label := "capability " +:+ ca_action_type c in
  _ ← _require_identifier (ca_action_type c) "capability action type";
  _ ← _require_nonblank (ca_title c) (label +:+ " title");
  _ ← _require_nonblank (ca_description c) (label +:+ " description");
  _ ← _require_nonblank (ca_guidance c) (label +:+ " guidance");
  m ← _require_parameter_model (ca_parameters_model c) (ca_action_type c);
  _ ← raise_if (allows_unknown_fields m) ProjectConfigurationError
        (label +:+ " parameters must forbid unknown fields");
  _ ← raise_if (no_id (ca_adapter c)) ProjectConfigurationError
        (label +:+ " adapter must expose a nonblank id");
  _ ← raise_if (negb (bool_decide (is_Some (ao_guarantees_idempotency (ca_adapter c)))))
        ProjectConfigurationError (label +:+ " adapter must declare idempotency behavior");
  _ ← raise_if (negb (ao_has_execute (ca_adapter c)) || negb (ao_has_lookup (ca_adapter c)))
        ProjectConfigurationError (label +:+ " adapter must implement execute and lookup");
  _ ← match ca_simulation_adapter c with
      | Some a => simulation_adapter_check (ca_action_type c) a
      | None => Ok tt
      end;
  raise_if (negb (all_unique (pf_key <$> ca_produces c))) ProjectConfigurationError
    (label +:+ " declares a fact more than once").

(** ** Routes *)

Inductive RouteKind := START | WAKE.
Definition route_kind_value (k : RouteKind) : string := match k with START => "start" | WAKE => "wake" end.
#[export] Instance RouteKind_eq_dec : EqDecision RouteKind.
Proof. solve_decision. Defined.

Record Route := mkRoute {
  rt_kind : RouteKind;
  rt_event_type : string;
  rt_journey_id : string;
  rt_title : string;
  rt_description : string;
  rt_provides : list Fact
}.

Definition route_post_init (r : Route) : result unit :=
  _ ← raise_if (negb (is_dotted_identifier (rt_event_type r))) ProjectConfigurationError
        "route event type must be a dotted lowercase identifier";
  _ ← _require_identifier (rt_journey_id r) "route journey ID";
  _ ← _require_nonblank (rt_title r) ("route " +:+ rt_event_type r +:+ " title");
  _ ← _require_nonblank (rt_description r) ("route " +:+ rt_event_type r +:+ " description");
  raise_if (negb (all_unique (pf_key <$> rt_provides r))) ProjectConfigurationError
    ("route " +:+ rt_event_type r +:+ " declares a fact twice").

(** ** Scenario steps *)

Record ScenarioEvent := mkScenarioEvent {
  se_source : string;
  se_external_references : list ExternalReference;
  se_facts : list ScenarioFact;
  se_payload : list (string * pydata)
}.

Record ScenarioAction := mkScenarioAction {
  sa_logical_action_key : string;
  sa_parameters : list (string * pydata);
  sa_rationale : string;
  sa_approve : bool
}.

Inductive ScenarioWait :=
  | ScenarioEventWait (event_type : string)
  | ScenarioTimerWait (timer_id : string) (delay_seconds : Z).

(** Lengths between two bounds, in characters. *)
Definition length_within (lo hi : nat) (s : string) : bool := (lo <=? py_len s)%nat && (py_len s <=? hi)%nat.

Definition scenario_event_validate (e : ScenarioEvent) : result unit :=
  raise_if (negb (length_within 1 100 (se_source e))) ValueError "source".

Definition scenario_action_validate (a : ScenarioAction) : result unit :=
  raise_if (negb (length_within 1 200 (sa_logical_action_key a) && length_within 1 1000 (sa_rationale a)))
    ValueError "scenario action".

Definition wait_validate (w : ScenarioWait) : result unit :=
  match w with
  | ScenarioEventWait t => raise_if (negb (is_dotted_identifier t)) ValueError "event_type"
  | ScenarioTimerWait i d => raise_if (negb (length_within 1 200 i) || (d <? 1)%Z) ValueError "timer"
  end.

Inductive ScenarioStepKind := SK_EVENT | SK_ACTION | SK_WAIT | SK_FACT | SK_COMPLETE.
Definition step_kind_value (k : ScenarioStepKind) : string :=
  match k with
  | SK_EVENT => "event" | SK_ACTION => "action" | SK_WAIT => "wait" | SK_FACT => "fact"
  | SK_COMPLETE => "complete"
  end.
#[export] Instance ScenarioStepKind_eq_dec : EqDecision ScenarioStepKind.
Proof. solve_decision. Defined.

Inductive StepValue :=
  | NoValue
  | EventValue (e : ScenarioEvent)
  | ActionValue (a : ScenarioAction)
  | WaitValue (w : ScenarioWait)
  | PlainValue (v : json).

Record ScenarioStep := mkScenarioStep {
  st_kind : ScenarioStepKind;
  st_description : string;
  st_reference : option string;
  st_value : StepValue
}.

Definition scenario_fact_json (f : ScenarioFact) : json :=
  JObj [("key", JStr (sf_key f)); ("kind", JStr (fact_kind_value (sf_kind f)));
        ("value", data_json (sf_value f))].

Definition wait_json (w : ScenarioWait) : json :=
  match w with
  | ScenarioEventWait t => JObj [("type", JStr "event"); ("event_type", JStr t)]
  | ScenarioTimerWait i d => JObj [("type", JStr "timer"); ("timer_id", JStr i); ("delay_seconds", JInt d)]
  end.

(** The value, dumped if it is a model. *)
Definition step_value_json (v : StepValue) : json :=
  match v with
  | NoValue => JNull
  | EventValue e =>
      JObj [("source", JStr (se_source e));
            ("external_references", JArr (reference_json <$> se_external_references e));
            ("facts", JArr (scenario_fact_json <$> se_facts e));
            ("payload", JObj (items_json (se_payload e)))]
  | ActionValue a =>
      JObj [("logical_action_key", JStr (sa_logical_action_key a));
            ("parameters", JObj (items_json (sa_parameters a)));
            ("rationale", JStr (sa_rationale a)); ("approve", JBool (sa_approve a))]
  | WaitValue w => wait_json w
  | PlainValue v => v
  end.

(** A step's value is of the type its kind asks for. *)
Definition step_value_check (k : ScenarioStepKind) (v : StepValue) : result unit :=
  match k, v with
  | SK_EVENT, EventValue _ | SK_ACTION, ActionValue _ | SK_WAIT, WaitValue _ => Ok tt
  | SK_EVENT, _ => raise ProjectConfigurationError
                     "scenario event step requires executable ScenarioEvent data"
  | SK_ACTION, _ => raise ProjectConfigurationError
                      "scenario action step requires executable ScenarioAction data"
  | SK_WAIT, _ => raise ProjectConfigurationError "scenario wait step requires an event or timer wait"
  | _, _ => Ok tt
  end.

Definition step_reference_check (reference : option string) (v : StepValue) : result unit :=
  match v with
  | WaitValue (ScenarioEventWait t) =>
      raise_if (negb (bool_decide (reference = Some t))) ProjectConfigurationError
        "scenario event wait reference does not match its data"
  | WaitValue (ScenarioTimerWait i _) =>
      raise_if (negb (bool_decide (reference = Some i))) ProjectConfigurationError
        "scenario timer wait reference does not match its data"
  | _ => Ok tt
  end.

Definition step_post_init (s : ScenarioStep) : result unit :=
  _ ← _require_nonblank (st_description s) "scenario step description";
  _ ← raise_if (negb (bool_decide (st_kind s = SK_COMPLETE)) && falsy (st_reference s))
        ProjectConfigurationError ("scenario " +:+ step_kind_value (st_kind s) +:+ " step requires a reference");
  _ ← step_value_check (st_kind s) (st_value s);
  _ ← step_reference_check (st_reference s) (st_value s);
  _ ← raise_if (bool_decide (st_kind s = SK_COMPLETE)
                && match st_value s with NoValue => false | _ => true end) ProjectConfigurationError
        "scenario complete step cannot carry a value";
  _ ← canonical_json_bytes (step_value_json (st_value s)) "scenario step value";
  Ok tt.

Definition make_step (kind : ScenarioStepKind) (description : string) (reference : option string)
    (value : StepValue) : result ScenarioStep :=
  let s := mkScenarioStep kind description reference value in
  _ ← step_post_init s;
  Ok s.

(** [ScenarioStep.event] *)
Definition step_event (event_type description : string) (facts : list ScenarioFact)
    (payload : list (string * pydata)) (source : string) (references : list ExternalReference)
  : result ScenarioStep :=
  let e := mkScenarioEvent source references facts payload in
  _ ← scenario_event_validate e;
  make_step SK_EVENT description (Some event_type) (EventValue e).

(** [value or alternative] for an optional string. *)
Definition or_else (value : option string) (alternative : string) : string :=
  match value with Some s => str_or s alternative | None => alternative end.

(** [ScenarioStep.action] *)
Definition step_action (action_type description : string) (parameters : list (string * pydata))
    (logical_action_key rationale : option string) (approve : bool) : result ScenarioStep :=
  let a := mkScenarioAction (or_else logical_action_key action_type) parameters
             (or_else rationale description) approve in
  _ ← scenario_action_validate a;
  make_step SK_ACTION description (Some action_type) (ActionValue a).

(** [ScenarioStep.wait_for_event] *)
Definition step_wait_for_event (event_type description : string) : result ScenarioStep :=
  _ ← wait_validate (ScenarioEventWait event_type);
  make_step SK_WAIT description (Some event_type) (WaitValue (ScenarioEventWait event_type)).

(** [ScenarioStep.wait_for_timer]: a delay in microseconds.  A delay that is not whole
    seconds is refused, so how the seconds of such a delay are rounded is not seen. *)
Definition step_wait_for_timer (timer_id : string) (after : Z) (description : string) : result ScenarioStep :=
  let seconds := Z.quot after sec in
  _ ← raise_if (negb (after =? seconds * sec)%Z || (seconds <? 1)%Z) ProjectConfigurationError
        "scenario timer delay must be whole positive seconds";
  _ ← wait_validate (ScenarioTimerWait timer_id seconds);
  make_step SK_WAIT description (Some timer_id) (WaitValue (ScenarioTimerWait timer_id seconds)).

(** [ScenarioStep.fact] *)
Definition step_fact (f : Fact) (value : pydata) (description : string) : result ScenarioStep :=
  r ← fact_equals f value;
  make_step SK_FACT description (Some (pf_key f)) (PlainValue (fr_expected_value r)).

(** [ScenarioStep.complete] *)
Definition step_complete (description : string) : result ScenarioStep :=
  make_step SK_COMPLETE description None NoValue.

(** ** Scenarios, communications, journeys and projects *)

Record Scenario := mkScenario {
  sc_id : string;
  sc_journey_id : string;
  sc_title : string;
  sc_description : string;
  sc_steps : list ScenarioStep;
  sc_started_at : datetime
}.

Definition scenario_post_init (s : Scenario) : result unit :=
  _ ← _require_identifier (sc_id s) "scenario ID";
  _ ← _require_identifier (sc_journey_id s) "scenario journey ID";
  _ ← _require_nonblank (sc_title s) ("scenario " +:+ sc_id s +:+ " title");
  _ ← _require_nonblank (sc_description s) ("scenario " +:+ sc_id s +:+ " description");
  _ ← raise_if (negb (nonempty (sc_steps s))) ProjectConfigurationError
        ("scenario " +:+ sc_id s +:+ " requires at least one step");
  raise_if (is_naive (sc_started_at s)) ProjectConfigurationError
    ("scenario " +:+ sc_id s +:+ " start time must be timezone-aware").

Record Communications := mkProjectCommunications {
  co_outbound_actions : list string;
  co_customer_reply_events : list string;
  co_opt_out_events : list string;
  co_automated_response_events : list string;
  co_quiet_hours : option DailyQuietHours
}.

Definition communications_post_init (c : Communications) : result unit :=
  let replies := co_customer_reply_events c in
  let opt_outs := co_opt_out_events c in
  let automated := co_automated_response_events c in
  _ ← for_each (λ '(label, values, pattern),
        _ ← raise_if (negb (all_unique values)) ProjectConfigurationError
              ("communication " +:+ label +:+ " must be unique");
        raise_if (existsb (λ v, negb (pattern v)) values) ProjectConfigurationError
          ("communication " +:+ label +:+ " contains an invalid ID"))
        [("outbound actions", co_outbound_actions c, is_identifier);
         ("customer reply events", replies, is_dotted_identifier);
         ("opt-out events", opt_outs, is_dotted_identifier);
         ("automated-response events", automated, is_dotted_identifier)];
  _ ← raise_if (negb (disjoint_sets replies opt_outs && disjoint_sets replies automated
                      && disjoint_sets opt_outs automated)) ProjectConfigurationError
        ("communication events must be classified as exactly one of customer reply, "
         +:+ "opt-out, or automated response");
  raise_if (negb (nonempty (co_outbound_actions c))
            && (nonempty replies || nonempty opt_outs || nonempty automated
                || bool_decide (is_Some (co_quiet_hours c)))) ProjectConfigurationError
    "communication controls require at least one outbound action".

(** Mappings are their items in order; keys are distinct. *)
Record Journey := mkJourney {
  jo_id : string;
  jo_version : string;
  jo_title : string;
  jo_description : string;
  jo_goals : list string;
  jo_capabilities : list string;
  jo_complete_when : list FactRequirement;
  jo_status : DefinitionStatus;
  jo_permission_overrides : list (string * PermissionOutcome);
  jo_action_guidance : list (string * string);
  jo_decision_guidance : list string;
  jo_terminal_states : list ProcessStatus;
  jo_limits : ProcessLimits;
  jo_review_commands : list ReviewCommandType;
  jo_communications : Communications;
  jo_decision_transformer : option DecisionTransformer
}.

Definition journey_post_init (j : Journey) : result unit :=
  let label := "journey " +:+ jo_id j in
  _ ← _require_identifier (jo_id j) "journey ID";
  _ ← _require_nonblank (jo_version j) (label +:+ " version");
  _ ← _require_nonblank (jo_title j) (label +:+ " title");
  _ ← _require_nonblank (jo_description j) (label +:+ " description");
  _ ← raise_if (negb (nonempty (jo_goals j)) || existsb is_blank (jo_goals j)) ProjectConfigurationError
        (label +:+ " requires nonblank goals");
  _ ← raise_if (negb (all_unique (jo_capabilities j))) ProjectConfigurationError
        (label +:+ " capabilities must be unique");
  _ ← raise_if (negb (nonempty (jo_complete_when j))) ProjectConfigurationError
        (label +:+ " must declare authoritative completion requirements");
  raise_if (negb (all_unique (fr_fact_key <$> jo_complete_when j))) ProjectConfigurationError
    (label +:+ " completion facts must be unique").

Record Project := mkProject {
  pr_id : string;
  pr_version : string;
  pr_title : string;
  pr_description : string;
  pr_journeys : list Journey;
  pr_routes : list Route;
  pr_capabilities : list Capability;
  pr_facts : list Fact;
  pr_scenarios : list Scenario;
  pr_tiramisu_compatibility : string
}.

Definition project_post_init (p : Project) : result unit :=
  _ ← _require_identifier (pr_id p) "project ID";
  _ ← _require_nonblank (pr_version p) "project version";
  _ ← _require_nonblank (pr_title p) "project title";
  _ ← _require_nonblank (pr_description p) "project description";
  raise_if (negb (nonempty (pr_journeys p))) ProjectConfigurationError
    "a project requires at least one journey".

(** Everything a project holds was built by its constructor. *)
Definition project_constructed (p : Project) : result unit :=
  let facts := (pr_facts p ++ concat (ca_produces <$> pr_capabilities p) ++ concat (rt_provides <$> pr_routes p))%list in
  _ ← for_each fact_post_init facts;
  _ ← for_each capability_post_init (pr_capabilities p);
  _ ← for_each route_post_init (pr_routes p);
  _ ← for_each (λ s, _ ← for_each step_post_init (sc_steps s); scenario_post_init s) (pr_scenarios p);
  _ ← for_each (λ j, _ ← for_each fact_requirement_post_init (jo_complete_when j);
                     _ ← communications_post_init (jo_communications j);
                     journey_post_init j) (pr_journeys p);
  project_post_init p.
