(* ===== verification/Packs.v ===== *)
(** * [extensions/]: the client pack an API and a worker are started with

    [project_metadata.py], [manifest.py] and [deployment.py]: the declarative
    description of a project, the manifest, and the [ClientPack] whose constructor
    checks that manifest, definitions, bindings and description agree before it
    computes the fingerprints every process is pinned to.  [loader.py] imports a
    module and is left out.

    Where the source compares sets or loops over one, the order of the elements
    decides only which of several errors of the same class is reported. *)

From stdpp Require Import base gmap list strings sorting pretty.
From Stdlib Require Import ZArith Lia.
From S2P Require Import Prelude Python Identifiers PyTime Json Digests Limits Contracts DecisionPolicy Transitions Definitions Schema Session Deployment State Context Ingestion Projects.

#[local] Open Scope Z_scope.
#[local] Open Scope string_scope.

(** A dictionary filled with these items in order: the last of a key stays. *)
Definition py_dict {A} (items : list (string * A)) : gmap string A := list_to_map (rev items).

#[export] Instance DefinitionStatus_eq_dec : EqDecision DefinitionStatus.
Proof. solve_decision. Defined.

(** ** [project_metadata.py] *)

Record CapabilityDescription := mkCapabilityDescription {
  cd_action_type : string;
  cd_title : string;
  cd_description : string;
  cd_adapter_id : string;
  cd_default_permission : PermissionOutcome;
  cd_parameters_schema : list (string * json);
  cd_produces_fact_keys : list string
}.

Record RouteDescription := mkRouteDescription {
  rd_kind : RouteKind;
  rd_event_type : string;
  rd_title : string;
  rd_description : string;
  rd_provides_fact_keys : list string
}.

Record ScenarioStepDescription := mkStepDescription {
  sd_kind : ScenarioStepKind;
  sd_description : string;
  sd_reference : option string;
  sd_value : json
}.

Record ScenarioDescription := mkScenarioDescription {
  sn_id : string;
  sn_title : string;
  sn_description : string;
  sn_steps : list ScenarioStepDescription;
  sn_started_at : datetime
}.

(** [FactDescription] has the fields and the dump of [FactDefinition], and none of its
    validators. *)
Abbreviation FactDescription := FactDefinition.

Record JourneyDescription := mkJourneyDescription {
  jd_id : string;
  jd_version : string;
  jd_title : string;
  jd_description : string;
  jd_status : string;
  jd_goals : list string;
  jd_routes : list RouteDescription;
  jd_capabilities : list CapabilityDescription;
  jd_facts : list FactDescription;
  jd_permissions : list (string * PermissionOutcome);
  jd_limits : ProcessLimits;
  jd_communications : CommunicationConfiguration;
  jd_completion_requirements : list (string * json);
  jd_scenarios : list ScenarioDescription
}.

Record ProjectDescription := mkProjectDescription {
  pj_id : string;
  pj_version : string;
  pj_title : string;
  pj_description : string;
  pj_journeys : list JourneyDescription
}.

Definition project_description_validate (p : ProjectDescription) : result unit :=
  raise_if (negb (nonempty (pj_journeys p))) ValueError "journeys".

Section metadata_json.
Context (dump_datetime : datetime → string) (dump_time : time → string).

Definition capability_description_json (c : CapabilityDescription) : json :=
  JObj [("action_type", JStr (cd_action_type c)); ("title", JStr (cd_title c));
        ("description", JStr (cd_description c)); ("adapter_id", JStr (cd_adapter_id c));
        ("default_permission", JStr (permission_value (cd_default_permission c)));
        ("parameters_schema", JObj (cd_parameters_schema c));
        ("produces_fact_keys", strings_json (cd_produces_fact_keys c))].

Definition route_description_json (r : RouteDescription) : json :=
  JObj [("kind", JStr (route_kind_value (rd_kind r))); ("event_type", JStr (rd_event_type r));
        ("title", JStr (rd_title r)); ("description", JStr (rd_description r));
        ("provides_fact_keys", strings_json (rd_provides_fact_keys r))].

Definition step_description_json (s : ScenarioStepDescription) : json :=
  JObj [("kind", JStr (step_kind_value (sd_kind s))); ("description", JStr (sd_description s));
        ("reference", opt_json JStr (sd_reference s)); ("value", sd_value s)].

Definition scenario_description_json (s : ScenarioDescription) : json :=
  JObj [("id", JStr (sn_id s)); ("title", JStr (sn_title s)); ("description", JStr (sn_description s));
        ("steps", JArr (step_description_json <$> sn_steps s));
        ("started_at", JStr (dump_datetime (sn_started_at s)))].

Definition permissions_json (permissions : list (string * PermissionOutcome)) : json :=
  JObj ((λ kv, (fst kv, JStr (permission_value (snd kv)))) <$> permissions).

Definition journey_description_json (j : JourneyDescription) : json :=
  JObj [("id", JStr (jd_id j)); ("version", JStr (jd_version j)); ("title", JStr (jd_title j));
        ("description", JStr (jd_description j)); ("status", JStr (jd_status j));
        ("goals", strings_json (jd_goals j));
        ("routes", JArr (route_description_json <$> jd_routes j));
        ("capabilities", JArr (capability_description_json <$> jd_capabilities j));
        ("facts", JArr (fact_definition_json <$> jd_facts j));
        ("permissions", permissions_json (jd_permissions j));
        ("limits", limits_json (jd_limits j));
        ("communications", communications_json dump_time (jd_communications j));
        ("completion_requirements", JObj (jd_completion_requirements j));
        ("scenarios", JArr (scenario_description_json <$> jd_scenarios j))].

Definition project_description_json (p : ProjectDescription) : json :=
  JObj [("id", JStr (pj_id p)); ("version", JStr (pj_version p)); ("title", JStr (pj_title p));
        ("description", JStr (pj_description p));
        ("journeys", JArr (journey_description_json <$> pj_journeys p))].
End metadata_json.

(** ** [manifest.py] *)

Record ExtensionManifest := mkManifest {
  em_extension_id : string;
  em_extension_version : string;
  em_tiramisu_compatibility : string;
  em_process_definitions : list string;
  em_adapters : list string;
  em_policies : list string;
  em_activities : list string
}.

Definition require_unique_nonblank_identifiers (values : list string) : result unit :=
  _ ← raise_if (existsb is_blank values) ValueError "extension identifiers cannot be blank";
  raise_if (negb (all_unique values)) ValueError "extension identifiers must be unique within a category".

(** The identifiers of every category, in the order of [require_globally_unique_identifiers]. *)
Definition manifest_identifiers (m : ExtensionManifest) : list string :=
  (em_process_definitions m ++ em_adapters m ++ em_policies m ++ em_activities m)%list.

Definition manifest_validate (m : ExtensionManifest) : result unit :=
  _ ← raise_if (negb (is_identifier (em_extension_id m))) ValueError "extension_id";
  _ ← raise_if (negb (length_within 1 100 (em_extension_version m))) ValueError "extension_version";
  _ ← raise_if (negb (length_within 1 100 (em_tiramisu_compatibility m))) ValueError
        "tiramisu_compatibility";
  _ ← for_each require_unique_nonblank_identifiers
        [em_process_definitions m; em_adapters m; em_policies m; em_activities m];
  raise_if (negb (all_unique (manifest_identifiers m))) ValueError
    "extension identifiers must be unique across categories".

(** [ExtensionManifest.registered_identifiers] *)
Definition registered_identifiers (m : ExtensionManifest) : gset string :=
  list_to_set (manifest_identifiers m).

Definition manifest_json (m : ExtensionManifest) : json :=
  JObj [("extension_id", JStr (em_extension_id m));
        ("extension_version", JStr (em_extension_version m));
        ("tiramisu_compatibility", JStr (em_tiramisu_compatibility m));
        ("process_definitions", strings_json (em_process_definitions m));
        ("adapters", strings_json (em_adapters m)); ("policies", strings_json (em_policies m));
        ("activities", strings_json (em_activities m))].

(** [ExtensionManifest.fingerprint] *)
Definition manifest_fingerprint (m : ExtensionManifest) : string :=
  sha256_hex (dumps true (manifest_json m)).

(** ** [deployment.py] *)

(** The output type of the agent's decisions: its qualified name, pydantic's schema for it
    and whether it has a callable [to_agent_decision]. *)
Record OutputType := mkOutputType {
  ot_qualified_name : string;
  ot_json_schema : json;
  ot_has_to_agent_decision : bool
}.

Record ClientPack := mkClientPack {
  cp_manifest : ExtensionManifest;
  cp_definitions : list ProcessDefinition;
  cp_bindings : list (string * AdapterObject);
  cp_agent_decision_output_type : OutputType;
  cp_policy_ids : list string;
  cp_project : option ProjectDescription;
  cp_simulation_bindings : list (string * AdapterObject);
  cp_registry : ProcessDefinitionRegistry;
  cp_compatibility : DeploymentCompatibility;
  cp_fingerprint : string
}.

(** [f"{definition.id}.v{definition.version}"] *)
Definition versioned_id (d : ProcessDefinition) : string := pd_id d +:+ ".v" +:+ pd_version d.

(** [adapter.id] and [adapter.guarantees_idempotency] of an adapter that has both. *)
Definition adapter_id (a : AdapterObject) : string := default "" (ao_id a).
Definition adapter_idempotent (a : AdapterObject) : bool := default false (ao_guarantees_idempotency a).

Definition journey_identity (j : JourneyDescription) : string * string := (jd_id j, jd_version j).

(** [project_journeys[key]]: the dictionary keeps the last journey of an identity. *)
Definition project_journey (p : ProjectDescription) (key : string * string) : option JourneyDescription :=
  List.find (λ j, bool_decide (journey_identity j = key)) (rev (pj_journeys p)).

Definition routed_events (kind : RouteKind) (j : JourneyDescription) : list string :=
  rd_event_type <$> List.filter (λ r, bool_decide (rd_kind r = kind)) (jd_routes j).

(** One definition against its journey. *)
Definition check_journey_agrees (d : ProcessDefinition) (j : JourneyDescription) : result unit :=
  _ ← raise_if (negb (same_set (routed_events START j) (pd_trigger_events d))
                || negb (same_set (routed_events WAKE j) (pd_allowed_wake_events d))) ClientPackError
        "project route metadata and process definitions disagree";
  _ ← raise_if (negb (bool_decide (jd_status j = definition_status_value (pd_status d)))
                || negb (bool_decide (jd_goals j = pd_goals d))) ClientPackError
        "project journey metadata and definitions disagree";
  _ ← raise_if (negb (same_set (cd_action_type <$> jd_capabilities j) (pd_allowed_actions d)))
        ClientPackError "project capability metadata and process definitions disagree";
  _ ← raise_if (negb (bool_decide
        (py_dict ((λ c, (cd_action_type c, cd_adapter_id c)) <$> jd_capabilities j)
         = py_dict (pd_integrations d)))) ClientPackError
        "project adapter metadata and process definitions disagree";
  _ ← raise_if (negb (bool_decide (py_dict (jd_permissions j) = py_dict (pd_action_permissions d))))
        ClientPackError "project permission metadata and process definitions disagree";
  _ ← raise_if (negb (json_eqb (JObj (jd_completion_requirements j)) (JObj (pd_completion_requirements d))))
        ClientPackError "project completion metadata and process definitions disagree";
  raise_if (negb (json_eqb (JArr (fact_definition_json <$> jd_facts j))
                           (JArr (fact_definition_json <$> pd_facts d)))) ClientPackError
    "project fact metadata and process definitions disagree".

(** The action types some scenario of the project proposes. *)
Definition described_scenario_actions (p : ProjectDescription) : list (option string) :=
  sd_reference <$> List.filter (λ s, bool_decide (sd_kind s = SK_ACTION))
    (concat (sn_steps <$> concat (jd_scenarios <$> pj_journeys p))).

(** Not usable through the action adapter port. *)
Definition not_an_adapter (a : AdapterObject) : bool :=
  negb (bool_decide (is_Some (ao_id a))) || negb (bool_decide (is_Some (ao_guarantees_idempotency a)))
  || negb (ao_has_execute a) || negb (ao_has_lookup a).

Definition check_project_agrees (p : ProjectDescription) (m : ExtensionManifest)
    (definitions : list ProcessDefinition) (simulation_bindings : list (string * AdapterObject))
  : result unit :=
  _ ← raise_if (negb (bool_decide (pj_id p = em_extension_id m))
                || negb (bool_decide (pj_version p = em_extension_version m))) ClientPackError
        "project and manifest identities disagree";
  _ ← raise_if (negb (same_set (journey_identity <$> pj_journeys p) (identity_of <$> definitions)))
        ClientPackError "project metadata and process definitions disagree";
  _ ← for_each (λ d, match project_journey p (identity_of d) with
                     | Some j => check_journey_agrees d j
                     | None => raise KeyError (repr_pair (identity_of d))
                     end) definitions;
  _ ← raise_if (negb (same_set (Some <$> (fst <$> simulation_bindings)) (described_scenario_actions p)))
        ClientPackError "simulation bindings do not cover the executable scenario actions";
  _ ← raise_if (existsb (λ a, negb (ao_is_simulation_adapter a)) (snd <$> simulation_bindings))
        ClientPackError "simulation bindings must be explicitly marked safe";
  raise_if (existsb not_an_adapter (snd <$> simulation_bindings)) ClientPackError
    "simulation bindings must implement the action adapter port".

Definition bindings_json (bindings : list (string * AdapterObject)) : json :=
  JObj ((λ kv, (fst kv, JObj [("adapter_id", JStr (adapter_id (snd kv)));
                              ("guarantees_idempotency", JBool (adapter_idempotent (snd kv)))]))
        <$> sort_by fst bindings).

(** [sorted(definitions, key=lambda item: (item.id, item.version))] *)
Definition identity_le (d e : ProcessDefinition) : Prop := pair_le (identity_of d) (identity_of e).
#[export] Instance identity_le_dec : RelDecision identity_le.
Proof. intros d e. unfold identity_le. apply _. Defined.

Section pack.
Context (dump_datetime : datetime → string) (dump_time : time → string).
(** The package's [__version__], and [Version(version) in SpecifierSet(specifier)] of the
    packaging library; [None] when the specifier is invalid. *)
Context (tiramisu_version : string) (specifier_contains : string → string → option bool).

Definition canonical_composition (m : ExtensionManifest) (definitions : list ProcessDefinition)
    (bindings : list (string * AdapterObject)) (output : OutputType) (policy_ids : list string)
    (project : option ProjectDescription) (simulation_bindings : list (string * AdapterObject)) : json :=
  JObj [("schema_version", JInt 3); ("manifest", manifest_json m);
        ("definitions", JArr (definition_json dump_time <$> merge_sort identity_le definitions));
        ("agent_decision_output", JObj [("type", JStr (ot_qualified_name output));
                                        ("json_schema", ot_json_schema output)]);
        ("policy_ids", strings_json (sorted policy_ids));
        ("action_bindings", bindings_json bindings);
        ("simulation_bindings", bindings_json simulation_bindings);
        ("project", opt_json (project_description_json dump_datetime dump_time) project)].

Definition check_compatible (m : ExtensionManifest) : result unit :=
  match specifier_contains (em_tiramisu_compatibility m) tiramisu_version with
  | None => raise ClientPackError "client pack has invalid Tiramisu compatibility metadata"
  | Some compatible =>
      raise_if (negb compatible) ClientPackError
        ("client pack " +:+ em_extension_id m +:+ " does not support Tiramisu " +:+ tiramisu_version)
  end.

(** The identities the manifest, the bindings and the policies declare. *)
Definition check_manifest_agrees (m : ExtensionManifest) (definitions : list ProcessDefinition)
    (bindings : list (string * AdapterObject)) (output : OutputType) (policy_ids : list string)
  : result unit :=
  _ ← raise_if (negb (same_set (em_adapters m) (concat ((λ d, snd <$> pd_integrations d) <$> definitions))))
        ClientPackError "manifest and process integration identities disagree";
  _ ← raise_if (negb (same_set (adapter_id <$> (snd <$> bindings)) (em_adapters m))) ClientPackError
        "adapter bindings do not cover the manifest";
  _ ← raise_if (negb (same_set (fst <$> bindings) (concat (pd_allowed_actions <$> definitions))))
        ClientPackError "action bindings do not cover the process definitions";
  _ ← raise_if (negb (same_set policy_ids (em_policies m))) ClientPackError
        "policy registrations do not cover the manifest";
  raise_if (negb (ot_has_to_agent_decision output)) ClientPackError
    "agent decision output type must implement to_agent_decision".

(** The events that start a process under some published definition. *)
Definition published_events (definitions : list ProcessDefinition) : list string :=
  concat (pd_trigger_events <$> List.filter (λ d, bool_decide (pd_status d = PUBLISHED)) definitions).

(** [ClientPack.__post_init__] *)
Definition make_client_pack (m : ExtensionManifest) (definitions : list ProcessDefinition)
    (bindings : list (string * AdapterObject)) (output : OutputType) (policy_ids : list string)
    (project : option ProjectDescription) (simulation_bindings : list (string * AdapterObject))
  : result ClientPack :=
  _ ← raise_if (negb (nonempty definitions)) ClientPackError
        "a client pack must register at least one process definition";
  _ ← check_compatible m;
  _ ← raise_if (nonempty (em_activities m)) ClientPackError
        "custom Temporal activities are not supported by the client-pack contract yet";
  _ ← raise_if (negb (same_set (em_process_definitions m) (versioned_id <$> definitions)))
        ClientPackError "manifest and process definition identities disagree";
  _ ← match project with
      | Some p => check_project_agrees p m definitions simulation_bindings
      | None => Ok tt
      end;
  _ ← check_manifest_agrees m definitions bindings output policy_ids;
  let pack_fingerprint := sha256_hex (dumps true
    (canonical_composition m definitions bindings output policy_ids project simulation_bindings)) in
  let compatibility := mkCompatibility pack_fingerprint (manifest_fingerprint m)
    ((λ d, (identity_of d, fingerprint dump_time d)) <$> definitions) in
  _ ← compatibility_post_init compatibility;
  registry ← register definitions [];
  _ ← for_each (λ e, _ ← resolve_trigger registry e false; Ok tt) (published_events definitions);
  Ok (mkClientPack m definitions bindings output policy_ids project simulation_bindings registry
        compatibility pack_fingerprint).

(** [ClientPack.definition] *)
Definition single_definition (p : ClientPack) : result ProcessDefinition :=
  match cp_definitions p with
  | [d] => Ok d
  | _ => raise ClientPackError "client pack contains more than one process definition"
  end.

(** The processes a pack starts under a release. *)
Definition bootstrap_of (p : ClientPack) (r : DeploymentRelease) (d : ProcessDefinition) : ProcessBootstrap :=
  mkBootstrap (pd_id d) (pd_version d) (manifest_fingerprint (cp_manifest p)) (cp_fingerprint p)
    (fingerprint dump_time d) (dr_deployment_id r) (dr_release_fingerprint r) (dr_temporal_task_queue r).

Fixpoint add_rules (events : list string) (b : ProcessBootstrap) (rules : gmap string ProcessBootstrap)
  : result (gmap string ProcessBootstrap) :=
  match events with
  | [] => Ok rules
  | e :: events =>
      _ ← raise_if (bool_decide (is_Some (rules !! e))) ClientPackError ("ambiguous client-pack trigger: " +:+ e);
      add_rules events b (<[e := b]> rules)
  end.

Fixpoint rules_of (p : ClientPack) (r : DeploymentRelease) (definitions : list ProcessDefinition)
    (rules : gmap string ProcessBootstrap) : result (gmap string ProcessBootstrap) :=
  match definitions with
  | [] => Ok rules
  | d :: definitions =>
      rules ← (if bool_decide (pd_status d = PUBLISHED)
               then add_rules (pd_trigger_events d) (bootstrap_of p r d) rules else Ok rules);
      rules_of p r definitions rules
  end.

(** [ClientPack.trigger_rules] *)
Definition trigger_rules (p : ClientPack) (r : DeploymentRelease) : result (gmap string ProcessBootstrap) :=
  _ ← require_client_pack r (cp_fingerprint p);
  rules_of p r (cp_definitions p) ∅.
End pack.
