(* ===== verification/PackFacts.v ===== *)
(** * What a client pack starts, it runs

    The registry of a pack holds its definitions, no trigger is ambiguous, and a
    process started from the pack's trigger rules carries pins that the pack's
    compatibility and its release accept. *)

From stdpp Require Import base gmap list strings sorting pretty.
From Stdlib Require Import ZArith Lia.
From S2P Require Import Prelude Python Identifiers PyTime Json Digests Limits Contracts DecisionPolicy Transitions Definitions Schema Session Deployment State Context Ingestion Projects Packs.

#[local] Open Scope Z_scope.

(** ** The registry *)

Lemma registered_is_Some r key : is_Some (registered r key) ↔ key ∈ fst <$> r.
Proof.
  unfold registered. induction r as [|[k d] r IH]; cbn; [split; [by intros []|set_solver]|].
  rewrite elem_of_cons. destruct (eqb k key) eqn:E.
  - apply eqb_true in E as ->. split; [auto|]. intros _. by eexists.
  - rewrite IH. split; [auto|]. intros [->|?]; [|done]. by rewrite eqb_refl in E.
Qed.

Definition entries (definitions : list ProcessDefinition) : ProcessDefinitionRegistry :=
  (λ d, (identity_of d, d)) <$> definitions.

Lemma fst_entries definitions : fst <$> entries definitions = identity_of <$> definitions.
Proof. induction definitions as [|d ds IH]; [done|]. cbn. f_equal. exact IH. Qed.
Lemma snd_entries definitions : snd <$> entries definitions = definitions.
Proof. induction definitions as [|d ds IH]; [done|]. cbn. f_equal. exact IH. Qed.

Lemma register_ok definitions r registry :
  NoDup (fst <$> r) → register definitions r = Ok registry →
  registry = (r ++ entries definitions)%list ∧ NoDup (fst <$> registry).
Proof.
  revert r. induction definitions as [|d ds IH]; intros r Hnd H; cbn [register] in H.
  { injection H as <-. by rewrite app_nil_r. }
  apply bind_ok in H as ([] & Hd%raise_if_ok%bool_decide_eq_false & H). rewrite registered_is_Some in Hd.
  apply IH in H as [-> Hnd']; [split; [by rewrite <- app_assoc|done]|].
  rewrite fmap_app. apply NoDup_app. split_and!; [done| |apply NoDup_singleton].
  intros k Hk ->%list_elem_of_singleton. done.
Qed.

Lemma register_succeeds definitions r :
  NoDup ((fst <$> r) ++ (identity_of <$> definitions))%list →
  register definitions r = Ok (r ++ entries definitions)%list.
Proof.
  revert r. induction definitions as [|d ds IH]; intros r Hnd; cbn [register]; [by rewrite app_nil_r|].
  apply NoDup_app in Hnd as Hnd'. destruct Hnd' as (_ & Hdis & _).
  rewrite bool_decide_false.
  2: { rewrite registered_is_Some. intros Hd. apply (Hdis _ Hd). by left. }
  cbn [raise_if mbind result_bind]. rewrite IH.
  - by rewrite <- app_assoc.
  - by rewrite fmap_app, <- app_assoc.
Qed.

(** An entry is found under its identity. *)
Lemma registered_entry definitions d :
  NoDup (identity_of <$> definitions) → d ∈ definitions →
  registered (entries definitions) (identity_of d) = Some d.
Proof.
  intros Hnd Hd. unfold registered. induction definitions as [|d' ds IH]; [by apply not_elem_of_nil in Hd|].
  cbn. apply NoDup_cons in Hnd as [Hn Hnd]. apply elem_of_cons in Hd as [->|Hd]; [by rewrite eqb_refl|].
  destruct (eqb (identity_of d') (identity_of d)) eqn:E; [|by apply IH].
  apply eqb_true in E. destruct Hn. rewrite E. by apply list_elem_of_fmap_2.
Qed.

(** ** Triggers *)

(** The published definitions an event starts. *)
Definition triggered (e : string) (definitions : list ProcessDefinition) : list ProcessDefinition :=
  List.filter (λ d, bool_decide (pd_status d = PUBLISHED) && bool_decide (e ∈ pd_trigger_events d)) definitions.

Definition unambiguous (definitions : list ProcessDefinition) : Prop :=
  ∀ e, e ∈ published_events definitions → (length (triggered e definitions) ≤ 1)%nat.

Lemma elem_of_triggered e d definitions :
  d ∈ triggered e definitions ↔ d ∈ definitions ∧ pd_status d = PUBLISHED ∧ e ∈ pd_trigger_events d.
Proof.
  unfold triggered. rewrite elem_of_filter_bool, andb_true_iff, !bool_decide_eq_true. tauto.
Qed.

Lemma elem_of_concat {A} (x : A) xss : x ∈ concat xss ↔ ∃ xs, xs ∈ xss ∧ x ∈ xs.
Proof. rewrite list_elem_of_In, in_concat. setoid_rewrite <- list_elem_of_In. naive_solver. Qed.

Lemma elem_of_published e definitions :
  e ∈ published_events definitions ↔ ∃ d, d ∈ definitions ∧ pd_status d = PUBLISHED ∧ e ∈ pd_trigger_events d.
Proof.
  unfold published_events. rewrite elem_of_concat. setoid_rewrite list_elem_of_fmap.
  setoid_rewrite elem_of_filter_bool. setoid_rewrite bool_decide_eq_true. naive_solver.
Qed.

Lemma triggered_resolves e definitions :
  resolve_trigger (entries definitions) e false
  = match triggered e definitions with
    | [] => Ok None
    | [d] => Ok (Some d)
    | ds => raise AmbiguousTrigger ("ambiguous trigger " +:+ e +:+ ": ["
              +:+ join_with ", " (repr_pair <$> merge_sort pair_le (identity_of <$> ds)) +:+ "]")
    end.
Proof.
  unfold resolve_trigger. rewrite snd_entries.
  replace (List.filter _ definitions) with (triggered e definitions);
    [by destruct (triggered e definitions) as [|? [|? ?]]|].
  unfold triggered. apply filter_ext. intros d. by destruct (pd_status d).
Qed.

Lemma resolves_iff definitions :
  for_each (λ e, _ ← resolve_trigger (entries definitions) e false; Ok tt) (published_events definitions) = Ok tt
  ↔ unambiguous definitions.
Proof.
  rewrite for_each_ok, Forall_forall. unfold unambiguous. apply forall_proper. intros e.
  rewrite triggered_resolves. destruct (triggered e definitions) as [|d [|d' ds]]; cbn.
  - split; [intros; lia|done].
  - split; [intros; lia|done].
  - split; [intros H He; by specialize (H He)|intros H He; specialize (H He); lia].
Qed.

Lemma unambiguous_unique definitions e d :
  unambiguous definitions → d ∈ definitions → pd_status d = PUBLISHED → e ∈ pd_trigger_events d →
  triggered e definitions = [d].
Proof.
  intros Hu Hd Hs He. assert (d ∈ triggered e definitions) as Hin by (by apply elem_of_triggered).
  specialize (Hu e). rewrite elem_of_published in Hu. specialize (Hu (ex_intro _ d (conj Hd (conj Hs He)))).
  destruct (triggered e definitions) as [|d' [|d'' ds]]; cbn in Hu.
  - by apply not_elem_of_nil in Hin.
  - by apply list_elem_of_singleton in Hin as ->.
  - lia.
Qed.

(** Dropping a definition keeps the others unambiguous. *)
Lemma unambiguous_tail d definitions : unambiguous (d :: definitions) → unambiguous definitions.
Proof.
  intros H e He. specialize (H e). unfold triggered in *. cbn in H.
  assert (e ∈ published_events (d :: definitions)) as He'.
  { rewrite elem_of_published in *. destruct He as (d' & ? & ?). exists d'. split; [by right|done]. }
  specialize (H He'). destruct (_ && _); cbn in H; lia.
Qed.

Lemma published_events_NoDup definitions :
  unambiguous definitions → Forall (λ d, NoDup (pd_trigger_events d)) definitions →
  NoDup (published_events definitions).
Proof.
  induction definitions as [|d ds IH]; intros Hu Hnd; [constructor|].
  apply Forall_cons in Hnd as [Hd Hds]. unfold published_events. cbn.
  specialize (IH (unambiguous_tail _ _ Hu) Hds). case_bool_decide as Hs; [|done]. cbn.
  apply NoDup_app. split_and!; [done| |done]. intros e He Hin.
  pose proof (unambiguous_unique _ e d Hu (list_elem_of_here _ _) Hs He) as H1.
  apply elem_of_published in Hin as (d' & Hd' & Hs' & He').
  assert (d' ∈ triggered e ds) as Hin by (by apply elem_of_triggered).
  unfold triggered in H1, Hin. cbn in H1. rewrite !bool_decide_true in H1 by done. cbn in H1.
  injection H1 as H1. rewrite H1 in Hin. by apply not_elem_of_nil in Hin.
Qed.

(** ** Trigger rules *)

Lemma add_rules_ok events b rules :
  NoDup events → (∀ e, e ∈ events → rules !! e = None) →
  ∃ rules', add_rules events b rules = Ok rules'
    ∧ ∀ e b', rules' !! e = Some b' ↔ (e ∈ events ∧ b' = b) ∨ rules !! e = Some b'.
Proof.
  revert rules. induction events as [|e events IH]; intros rules Hnd Hnew; cbn [add_rules].
  { eexists. split; [done|]. set_solver. }
  apply NoDup_cons in Hnd as [Hn Hnd]. rewrite (Hnew e) by by left. rewrite bool_decide_false by by intros [].
  destruct (IH (<[e := b]> rules)) as (rules' & Hr & Hl); [done| |].
  { intros e' He'. rewrite lookup_insert_ne by (by intros ->). apply Hnew. by right. }
  exists rules'. split; [exact Hr|]. intros e' b'. rewrite Hl, lookup_insert_Some, elem_of_cons.
  specialize (Hnew e (list_elem_of_here _ _)). split.
  - naive_solver.
  - destruct (decide (e = e')) as [<-|Hne]; [|naive_solver]. rewrite Hnew. naive_solver.
Qed.

Section pack.
Context (dump_datetime : datetime → string) (dump_time : time → string).
Context (tiramisu_version : string) (specifier_contains : string → string → option bool).
#[local] Abbreviation rules_of := (rules_of dump_time).
#[local] Abbreviation bootstrap_of := (bootstrap_of dump_time).
#[local] Abbreviation make_client_pack :=
  (make_client_pack dump_datetime dump_time tiramisu_version specifier_contains).

(** The rule an event has under some published definition. *)
Definition rule_for (p : ClientPack) (r : DeploymentRelease) (definitions : list ProcessDefinition)
    (e : string) (b : ProcessBootstrap) : Prop :=
  ∃ d, d ∈ definitions ∧ pd_status d = PUBLISHED ∧ e ∈ pd_trigger_events d ∧ b = bootstrap_of p r d.

Lemma rules_of_ok p r definitions rules :
  NoDup (published_events definitions) → (∀ e, e ∈ published_events definitions → rules !! e = None) →
  ∃ rules', rules_of p r definitions rules = Ok rules'
    ∧ ∀ e b, rules' !! e = Some b ↔ rule_for p r definitions e b ∨ rules !! e = Some b.
Proof.
  revert rules. induction definitions as [|d ds IH]; intros rules Hnd Hnew.
  { exists rules. split; [done|]. intros e b. unfold rule_for. set_solver. }
  cbn [Packs.rules_of]. unfold published_events in Hnd, Hnew. cbn in Hnd, Hnew.
  fold (published_events ds) in Hnd. case_bool_decide as Hs.
  - cbn in Hnd, Hnew. fold (published_events ds) in Hnd, Hnew.
    apply NoDup_app in Hnd as (Hd & Hdis & Hds).
    destruct (add_rules_ok (pd_trigger_events d) (bootstrap_of p r d) rules Hd) as (rules1 & -> & H1).
    { intros e He. apply Hnew, elem_of_app. by left. }
    cbn [mbind result_bind]. destruct (IH rules1 Hds) as (rules2 & H2 & Hl).
    { intros e He. apply eq_None_not_Some. intros [b' Hb]. apply H1 in Hb as [[He' _]|Hb].
      - by apply (Hdis e).
      - rewrite Hnew in Hb; [done|]. apply elem_of_app. by right. }
    exists rules2. split; [exact H2|]. intros e b. rewrite Hl, H1. unfold rule_for.
    setoid_rewrite elem_of_cons. naive_solver.
  - fold (published_events ds) in Hnew. cbn [mbind result_bind].
    destruct (IH rules Hnd Hnew) as (rules2 & H2 & Hl). exists rules2. split; [exact H2|].
    intros e b. rewrite Hl. unfold rule_for. setoid_rewrite elem_of_cons. naive_solver.
Qed.

(** What the constructor leaves true of a pack. *)
Record ValidPack (p : ClientPack) : Prop := {
  vp_registry : cp_registry p = entries (cp_definitions p);
  vp_unique : NoDup (identity_of <$> cp_definitions p);
  vp_unambiguous : unambiguous (cp_definitions p);
  vp_compatibility : cp_compatibility p = mkCompatibility (cp_fingerprint p)
    (manifest_fingerprint (cp_manifest p))
    ((λ d, (identity_of d, fingerprint dump_time d)) <$> cp_definitions p);
  vp_hex : is_sha256_hex (cp_fingerprint p) = true
}.

Lemma make_client_pack_ok m definitions bindings output policy_ids project simulations p :
  make_client_pack m definitions bindings output policy_ids project simulations = Ok p →
  ValidPack p ∧ cp_definitions p = definitions ∧ cp_manifest p = m.
Proof.
  intros H. unfold Packs.make_client_pack in H. do 6 (apply bind_ok in H as ([] & _ & H)).
  apply bind_ok in H as ([] & Hc & H). apply bind_ok in H as (registry & Hr & H).
  apply bind_ok in H as ([] & Ht & [= <-]).
  apply register_ok in Hr as [-> Hnd]; [|by constructor]. cbn [app] in Ht, Hnd.
  split; [|done]. split; cbn; try done.
  - by rewrite fst_entries in Hnd.
  - by apply resolves_iff.
  - unfold compatibility_post_init in Hc. apply raise_if_ok in Hc. cbn in Hc.
    by apply orb_false_iff in Hc as [Hc%negb_false_iff _].
Qed.

(** The pins of a process a rule starts. *)
Lemma started_pins p r d id tenant now :
  ValidPack p → d ∈ cp_definitions p →
  let row := new_process id tenant (bootstrap_of p r d) now in
  require_process_pins (cp_compatibility p) row = Ok tt ∧ require_release_pins r row = Ok tt.
Proof.
  intros V Hd. cbn zeta. split.
  - unfold require_process_pins. rewrite (vp_compatibility p V).
    cbn [pi_process_type pi_definition_version new_process bt_process_type bt_definition_version Packs.bootstrap_of
         pi_client_pack_fingerprint pi_extension_manifest_hash pi_process_definition_fingerprint
         bt_client_pack_fingerprint bt_extension_manifest_hash bt_process_definition_fingerprint
         dc_definition_fingerprints dc_client_pack_fingerprint dc_extension_manifest_hash].
    assert (List.find (λ entry : string * string * string, eqb (fst entry) (pd_id d, pd_version d))
      ((λ d, (identity_of d, fingerprint dump_time d)) <$> cp_definitions p)
      = Some (identity_of d, fingerprint dump_time d)) as ->.
    { pose proof (vp_unique p V) as Hnd. induction (cp_definitions p) as [|d' ds IH].
      { by apply not_elem_of_nil in Hd. }
      apply NoDup_cons in Hnd as [Hn Hnd]. cbn [fmap list_fmap List.find fst].
      destruct (eqb (identity_of d') (pd_id d, pd_version d)) eqn:E.
      - apply eqb_true in E. apply elem_of_cons in Hd as [->|Hd]; [done|].
        destruct Hn. rewrite E. change (pd_id d, pd_version d) with (identity_of d).
        by apply list_elem_of_fmap_2.
      - apply IH; [|done]. apply elem_of_cons in Hd as [->|Hd]; [|done].
        unfold identity_of in E. by rewrite eqb_refl in E. }
    by rewrite !eqb_refl.
  - unfold require_release_pins.
    cbn [pi_deployment_id pi_deployment_release_fingerprint pi_temporal_task_queue new_process
         bt_deployment_id bt_deployment_release_fingerprint bt_temporal_task_queue Packs.bootstrap_of].
    by rewrite !eqb_refl.
Qed.

Lemma validated_triggers known_zone d :
  definition_validate known_zone d = Ok tt → NoDup (pd_trigger_events d).
Proof.
  rewrite <- succeeds_unit. unfold definition_validate. rewrite !succeeds_seq.
  intros (_ & _ & H & _). unfold validate_event_types in H. autorewrite with tiramisu in H.
  destruct H as (_ & H & _). by apply negb_false_iff, bool_decide_eq_true in H.
Qed.

(** ** Properties *)

(** A client pack that could be built, running under a release of its own fingerprint,
    gives one rule to exactly the trigger events of its published definitions - no
    rule is ambiguous and none is missing.  The event of a rule resolves in the pack's
    registry to the definition the rule starts, which the registry also finds under
    the type and version written on the process, and a process started by the rule,
    whatever its tenant, identifier and time, passes the two checks every activity of
    the worker makes: its pins are those of the pack and of the release. *)
Theorem pack_runs_what_it_starts known_zone m definitions bindings output policy_ids project simulations p r :
  make_client_pack m definitions bindings output policy_ids project simulations = Ok p →
  Forall (λ d, definition_validate known_zone d = Ok tt) definitions →
  dr_client_pack_fingerprint r = cp_fingerprint p →
  ∃ rules, trigger_rules dump_time p r = Ok rules
    ∧ (∀ e, is_Some (rules !! e) ↔ e ∈ published_events definitions)
    ∧ ∀ e b, rules !! e = Some b → ∃ d,
        resolve_trigger (cp_registry p) e false = Ok (Some d)
        ∧ get_definition (cp_registry p) (bt_process_type b) (bt_definition_version b) = Ok d
        ∧ ∀ id tenant now, let row := new_process id tenant b now in
            require_process_pins (cp_compatibility p) row = Ok tt ∧ require_release_pins r row = Ok tt.
Proof.
  intros (V & <- & <-)%make_client_pack_ok Hv Hr. unfold trigger_rules, require_client_pack.
  rewrite Hr, eqb_refl. cbn [raise_if negb mbind result_bind].
  destruct (rules_of_ok p r (cp_definitions p) ∅) as (rules & -> & Hl).
  { apply published_events_NoDup; [by apply vp_unambiguous|].
    eapply Forall_impl; [exact Hv|]. apply validated_triggers. }
  { intros e _. apply lookup_empty. }
  exists rules. split; [done|]. split.
  - intros e. rewrite elem_of_published. split.
    + intros [b [(d & ? & ? & ? & _)|He]%Hl]; [by exists d|]. by rewrite lookup_empty in He.
    + intros (d & Hd & Hs & He). exists (bootstrap_of p r d). apply Hl. left. by exists d.
  - intros e b [(d & Hd & Hs & He & ->)|Hb]%Hl; [|by rewrite lookup_empty in Hb]. exists d. split_and!.
    + rewrite (vp_registry p V), triggered_resolves.
      by rewrite (unambiguous_unique _ e d (vp_unambiguous p V) Hd Hs He).
    + unfold get_definition. cbn [bt_process_type bt_definition_version Packs.bootstrap_of].
      rewrite (vp_registry p V). change (pd_id d, pd_version d) with (identity_of d).
      by rewrite registered_entry by (done || apply (vp_unique p V)).
    + intros id tenant now. by apply started_pins.
Qed.
End pack.

(** ** Example *)

#[local] Open Scope string_scope.

Definition ex_pack_manifest : ExtensionManifest :=
  mkManifest "booking" "1" ">=0.1" ["booking_follow_up.v1"] ["smtp"] [] [].
Definition ex_smtp_binding : AdapterObject := mkAdapterObject (Some "smtp") (Some true) true true false.
Definition ex_supports (specifier version : string) : option bool := Some (bool_decide (specifier = ">=0.1")).
Abbreviation ex_built_pack :=
  (make_client_pack isoformat ex_dump_time "0.1.0" ex_supports
    ex_pack_manifest [ex_process_definition] [("send_message", ex_smtp_binding); ("refund", ex_smtp_binding)]
    (mkOutputType "booking.Decision" (JObj []) true) [] None []).
Definition release_of (p : ClientPack) : DeploymentRelease :=
  mkRelease "acme" "b" (cp_fingerprint p) "gpt-4o" "r" "tiramisu.acme.r".

Lemma pack_runs_what_it_starts_witness :
  match ex_built_pack with
  | Ok p => ∃ rules, trigger_rules ex_dump_time p (release_of p) = Ok rules ∧ is_Some (rules !! "booking.created")
  | Raise _ => False
  end.
Proof.
  destruct ex_built_pack as [p|e] eqn:E.
  - destruct (pack_runs_what_it_starts isoformat ex_dump_time "0.1.0" ex_supports ex_known_zone
      ex_pack_manifest [ex_process_definition]
      [("send_message", ex_smtp_binding); ("refund", ex_smtp_binding)]
      (mkOutputType "booking.Decision" (JObj []) true) [] None [] p (release_of p)) as (rules & Hr & Hall & _).
    + exact E.
    + apply Forall_singleton. vm_compute. reflexivity.
    + reflexivity.
    + exists rules. split; [exact Hr|]. apply Hall. vm_compute. by left.
  - assert (is_ok ex_built_pack = true) as H by (vm_compute; reflexivity). rewrite E in H. discriminate H.
Defined.
