(* ===== verification/Outputs.v ===== *)
(** * [projects/output.py]: the strict output type of a project's agent

    The type is generated from the project's capabilities and wake events; a value
    of it becomes an [AgentDecision] that quotes the turn it answers, and keeps a
    memory summary only with provenance the turn itself gave.  The identifiers the
    models draw by default are arguments of the conversion. *)

From stdpp Require Import base list strings pretty.
From Stdlib Require Import ZArith Lia.
From S2P Require Import Prelude Python Identifiers PyTime Json Limits Contracts DecisionPolicy Transitions Definitions Schema Session Deployment State Context AgentTurn Projects.

#[local] Open Scope Z_scope.
#[local] Open Scope string_scope.

(** ** Generation *)

Definition is_upper (c : Ascii.ascii) : bool := ((65 <=? byte_val c) && (byte_val c <=? 90))%N.
Definition is_alphanumeric (c : Ascii.ascii) : bool :=
  is_lower c || is_upper c || ((48 <=? byte_val c) && (byte_val c <=? 57))%N.
Definition upper_char (c : Ascii.ascii) : Ascii.ascii :=
  if is_lower c then Ascii.ascii_of_N (byte_val c - 32) else c.

(** [_model_name]: every part capitalised, separators dropped; [first] says that the next
    letter starts a part. *)
Fixpoint model_name_from (first : bool) (s : string) : string :=
  match s with
  | EmptyString => EmptyString
  | String c s =>
      if is_alphanumeric c then
        String (if first then upper_char c else lower_char c) (model_name_from false s)
      else model_name_from true s
  end.
Definition _model_name (value : string) : string := model_name_from true value.

Example model_name_ex : _model_name "send_customer-SMS2.1é" = "SendCustomerSms21".
Proof. vm_compute. reflexivity. Qed.

(** A generated [...ProposalOutput] class: its name, its literal action type and the model
    of its parameters. *)
Record ProposalType := mkProposalType {
  pt_name : string; pt_action_type : string; pt_parameters : option ParametersModel
}.

(** A generated output class: the union of proposals, the literal event types of its event
    wake (timers are always allowed) and the transformers of the journeys. *)
Record GeneratedOutputType := mkGeneratedOutputType {
  gt_name : string;
  gt_proposals : list ProposalType;
  gt_wake_event_types : list string;
  gt_transformers : list (string * DecisionTransformer)
}.

Definition generate_agent_decision_output_type (project_id project_version : string)
    (capabilities : list Capability) (wake_event_types : list string)
    (decision_transformers : list (string * DecisionTransformer)) : GeneratedOutputType :=
  mkGeneratedOutputType
    (_model_name project_id +:+ "AgentDecisionOutputV" +:+ _model_name project_version)
    ((λ c, mkProposalType (_model_name (ca_action_type c) +:+ "ProposalOutput") (ca_action_type c)
             (ca_parameters_model c)) <$> capabilities)
    wake_event_types decision_transformers.

(** ** Values *)

(** A proposal whose parameters are a validated model, with what it dumps to. *)
Record ActionProposalOutput := mkProposalOutput {
  go_logical_action_key : string;
  go_rationale : string;
  go_action_type : string;
  go_parameters : list (string * json)
}.

Record AgentDecisionOutput := mkDecisionOutput {
  gd_status : DecisionStatus;
  gd_actions : list ActionProposalOutput;
  gd_wake_conditions : list WakeCondition;
  gd_memory_update : MemoryUpdate
}.

Definition proposal_fields_ok (key rationale : string) : bool :=
  length_within 1 200 key && length_within 1 1000 rationale.

(** The wakes of the generated union. *)
Definition wake_in_output (t : GeneratedOutputType) (w : WakeCondition) : bool :=
  match w with
  | EventWakeCondition e => bool_decide (e ∈ gt_wake_event_types t)
  | TimerWakeCondition _ => true
  | HumanWakeCondition _ => false
  end.

(** The fields, then [waiting_requires_a_wake]. *)
Definition output_validate (t : GeneratedOutputType) (o : AgentDecisionOutput) : result unit :=
  _ ← for_each (λ a,
        _ ← raise_if (negb (proposal_fields_ok (go_logical_action_key a) (go_rationale a))) ValueError "action";
        raise_if (negb (bool_decide (go_action_type a ∈ pt_action_type <$> gt_proposals t))) ValueError
          "action_type") (gd_actions o);
  _ ← for_each (λ w, _ ← raise_if (negb (wake_in_output t w)) ValueError "wake_conditions";
                     wake_validate w) (gd_wake_conditions o);
  _ ← raise_if (negb (memory_fields_ok (gd_memory_update o))) ValueError "memory_update";
  _ ← memory_validate (gd_memory_update o);
  raise_if (bool_decide (gd_status o = DS_WAITING) && negb (nonempty (gd_wake_conditions o))) ValueError
    "a waiting decision requires at least one wake condition".

(** [to_action_proposal] *)
Definition to_action_proposal (a : ActionProposalOutput) (action_request_id : UUID) : result ActionProposal :=
  _ ← raise_if (negb (proposal_fields_ok (go_logical_action_key a) (go_rationale a)
                      && is_identifier (go_action_type a))) ValueError "action proposal";
  Ok (mkProposal action_request_id (go_logical_action_key a) (go_action_type a) (go_parameters a)
        (go_rationale a)).

(** [value for value in values if value in known] *)
Definition known_only {A} `{EqDecision A} (known values : list A) : list A :=
  List.filter (λ v, bool_decide (v ∈ known)) values.

(** The update with the provenance the turn knows. *)
Definition known_memory (i : AgentTurnInput) (m : MemoryUpdate) : MemoryUpdate :=
  mkMemory (mu_summary m)
    (known_only (ce_event_id <$> ti_events i) (mu_summary_source_event_ids m))
    (known_only (rc_command_id <$> ti_reviews i) (mu_summary_source_review_command_ids m))
    (known_only (xc_attempt_id <$> ti_action_results i) (mu_summary_source_action_attempt_ids m))
    (known_only (ti_timer_ids i) (mu_summary_source_timer_ids m))
    (mu_open_commitments m).

Definition provenance_rewritten (m known : MemoryUpdate) : bool :=
  negb (bool_decide (mu_summary_source_event_ids known = mu_summary_source_event_ids m))
  || negb (bool_decide (mu_summary_source_review_command_ids known = mu_summary_source_review_command_ids m))
  || negb (bool_decide (mu_summary_source_action_attempt_ids known = mu_summary_source_action_attempt_ids m))
  || negb (bool_decide (mu_summary_source_timer_ids known = mu_summary_source_timer_ids m)).

Definition any_source (m : MemoryUpdate) : bool :=
  nonempty (mu_summary_source_event_ids m) || nonempty (mu_summary_source_review_command_ids m)
  || nonempty (mu_summary_source_action_attempt_ids m) || nonempty (mu_summary_source_timer_ids m).

(** [_trusted_memory_update] *)
Definition _trusted_memory_update (i : AgentTurnInput) (m : MemoryUpdate) : result MemoryUpdate :=
  let known := known_memory i m in
  let trusted :=
    if bool_decide (is_Some (mu_summary m)) && (provenance_rewritten m known || negb (any_source known))
    then mkMemory None [] [] [] [] (mu_open_commitments m)
    else known in
  _ ← memory_validate trusted;
  Ok trusted.

(** [action.to_action_proposal() for action in self.actions], each with its identifier. *)
Fixpoint to_action_proposals (actions : list ActionProposalOutput) (ids : nat → UUID) : result (list ActionProposal) :=
  match actions with
  | [] => Ok []
  | a :: actions =>
      p ← to_action_proposal a (ids 0%nat);
      ps ← to_action_proposals actions (λ n, ids (S n));
      Ok (p :: ps)
  end.

(** [to_agent_decision] *)
Definition to_agent_decision (t : GeneratedOutputType) (o : AgentDecisionOutput) (i : AgentTurnInput)
    (decision_id : UUID) (action_ids : nat → UUID) : result AgentDecision :=
  actions ← to_action_proposals (gd_actions o) action_ids;
  memory ← _trusted_memory_update i (gd_memory_update o);
  let d := mkDecision decision_id (ce_event_id <$> ti_events i) (rc_command_id <$> ti_reviews i)
             (xc_attempt_id <$> ti_action_results i) (ti_timer_ids i) (gd_status o) actions
             (gd_wake_conditions o) memory in
  _ ← decision_validate d;
  match assoc (ps_process_type (ti_process i)) (gt_transformers t) with
  | Some transformer => transformer d i
  | None => Ok d
  end.

(** ** The trusted memory *)

Lemma known_only_subset {A} `{EqDecision A} (known values : list A) : known_only known values ⊆ known.
Proof. intros x [Hx _]%elem_of_filter_bool. by apply bool_decide_eq_true in Hx. Qed.

(** What may come of a memory update that was accepted: nothing but its commitments, or all
    of it, every source being one of the turn's. *)
Inductive Trusted (i : AgentTurnInput) (m : MemoryUpdate) : MemoryUpdate → Prop :=
  | trusted_dropped : Trusted i m (mkMemory None [] [] [] [] (mu_open_commitments m))
  | trusted_kept :
      mu_summary_source_event_ids m ⊆ ce_event_id <$> ti_events i →
      mu_summary_source_review_command_ids m ⊆ rc_command_id <$> ti_reviews i →
      mu_summary_source_action_attempt_ids m ⊆ xc_attempt_id <$> ti_action_results i →
      mu_summary_source_timer_ids m ⊆ ti_timer_ids i →
      Trusted i m m.

Lemma not_rewritten i m :
  provenance_rewritten m (known_memory i m) = false → known_memory i m = m ∧ Trusted i m m.
Proof.
  unfold provenance_rewritten. rewrite !orb_false_iff, !negb_false_iff, !bool_decide_eq_true.
  cbn. intros [[[He Hr] Ha] Ht]. split.
  - unfold known_memory. rewrite He, Hr, Ha, Ht. by destruct m.
  - apply trusted_kept; [rewrite <- He|rewrite <- Hr|rewrite <- Ha|rewrite <- Ht]; apply known_only_subset.
Qed.

(** Without a summary an accepted update has no sources. *)
Lemma no_summary_no_sources m :
  memory_validate m = Ok tt → mu_summary m = None → any_source m = false.
Proof.
  intros H Hs. unfold memory_validate in H. rewrite Hs in H. fold (any_source m) in H.
  by destruct (any_source m).
Qed.

Lemma any_source_false m : any_source m = false →
  mu_summary_source_event_ids m = [] ∧ mu_summary_source_review_command_ids m = []
  ∧ mu_summary_source_action_attempt_ids m = [] ∧ mu_summary_source_timer_ids m = [].
Proof.
  unfold any_source. rewrite !orb_false_iff. intros [[[He Hr] Ha] Ht].
  by destruct m as [? [] [] [] []].
Qed.

Lemma commitments_only m :
  memory_validate m = Ok tt → memory_validate (mkMemory None [] [] [] [] (mu_open_commitments m)) = Ok tt.
Proof.
  rewrite <- !succeeds_unit. unfold memory_validate. autorewrite with tiramisu. cbn.
  intros (_ & _ & _ & ? & ?). auto.
Qed.

(** The update of an accepted output is always trusted in one of the two ways. *)
Lemma trusted_memory i m :
  memory_validate m = Ok tt → ∃ m', _trusted_memory_update i m = Ok m' ∧ Trusted i m m'.
Proof.
  intros Hm. unfold _trusted_memory_update. destruct (bool_decide (is_Some (mu_summary m))) eqn:Hs.
  - destruct (provenance_rewritten m (known_memory i m)) eqn:Hr; cbn [andb orb].
    { rewrite (commitments_only m Hm). eexists. split; [reflexivity|constructor]. }
    destruct (not_rewritten i m Hr) as [-> HT]. destruct (any_source m); cbn [negb].
    + rewrite Hm. eexists. by split.
    + rewrite (commitments_only m Hm). eexists. split; [reflexivity|constructor].
  - apply bool_decide_eq_false in Hs. cbn [andb]. rewrite <- eq_None_not_Some in Hs.
    destruct (any_source_false m (no_summary_no_sources m Hm Hs)) as (He & Hr & Ha & Ht).
    destruct (not_rewritten i m) as [-> HT].
    { unfold provenance_rewritten. cbn. by rewrite He, Hr, Ha, Ht. }
    rewrite Hm. eexists. by split.
Qed.

Lemma to_action_proposals_ok actions ids ps :
  to_action_proposals actions ids = Ok ps →
  ap_action_type <$> ps = go_action_type <$> actions.
Proof.
  revert ids ps. induction actions as [|a actions IH]; intros ids ps H; cbn [to_action_proposals] in H.
  { by injection H as <-. }
  apply bind_ok in H as (p & Hp & H). apply bind_ok in H as (qs & Hq & [= <-]).
  unfold to_action_proposal in Hp. apply bind_ok in Hp as (? & _ & [= <-]).
  cbn. f_equal. eauto.
Qed.

Lemma same_set_refl {A} `{EqDecision A} (xs : list A) : same_set xs xs = true.
Proof. by apply same_set_spec. Qed.

Lemma wrong_lineage_refl {A} `{EqDecision A} (xs : list A) : wrong_lineage (Some xs) xs = false.
Proof. cbn. by rewrite same_set_refl. Qed.

(** What the boundary asks of a decision's lineage and of its memory's. *)
Record QuotesTurn (d : AgentDecision) (t : TurnExpectation) : Prop := {
  qt_events : wrong_lineage (te_expected_event_ids t) (ad_based_on_event_ids d) = false;
  qt_reviews : wrong_lineage (te_expected_review_command_ids t) (ad_based_on_review_command_ids d) = false;
  qt_results : wrong_lineage (te_expected_action_attempt_ids t) (ad_based_on_action_attempt_ids d) = false;
  qt_timers : wrong_lineage (te_expected_timer_ids t) (ad_based_on_timer_ids d) = false;
  qt_memory_events : mu_summary_source_event_ids (ad_memory_update d) ⊆ ad_based_on_event_ids d;
  qt_memory_reviews :
    mu_summary_source_review_command_ids (ad_memory_update d) ⊆ ad_based_on_review_command_ids d;
  qt_memory_results :
    mu_summary_source_action_attempt_ids (ad_memory_update d) ⊆ ad_based_on_action_attempt_ids d;
  qt_memory_timers : mu_summary_source_timer_ids (ad_memory_update d) ⊆ ad_based_on_timer_ids d
}.

Lemma trusted_quotes id i actions status wakes m m' now :
  Trusted i m m' →
  QuotesTurn (mkDecision id (ce_event_id <$> ti_events i) (rc_command_id <$> ti_reviews i)
    (xc_attempt_id <$> ti_action_results i) (ti_timer_ids i) status actions wakes m')
    (expectation_of i now).
Proof.
  intros HT. unfold expectation_of. split; try apply wrong_lineage_refl; cbn;
    destruct HT; cbn; first [done|apply list_subseteq_nil].
Qed.

Lemma to_action_proposals_total t actions ids :
  Forall (λ a, is_identifier a = true) (pt_action_type <$> gt_proposals t) →
  Forall (λ a, proposal_fields_ok (go_logical_action_key a) (go_rationale a) = true
               ∧ go_action_type a ∈ pt_action_type <$> gt_proposals t) actions →
  ∃ ps, to_action_proposals actions ids = Ok ps.
Proof.
  intros Ht. rewrite Forall_forall in Ht. intros H. revert ids.
  induction H as [|a actions [Hf Ha] _ IH]; intros ids; cbn [to_action_proposals]; [by eexists|].
  unfold to_action_proposal. rewrite Hf, (Ht _ Ha). destruct (IH (λ n, ids (S n))) as [ps Hps].
  cbn. rewrite Hps. by eexists.
Qed.

Lemma capability_identifier c : capability_post_init c = Ok tt → is_identifier (ca_action_type c) = true.
Proof.
  intros H. unfold capability_post_init in H. apply bind_ok in H as ([] & H & _).
  unfold _require_identifier in H. by apply raise_if_ok, negb_false_iff in H.
Qed.

Lemma output_validate_ok t o :
  output_validate t o = Ok tt →
  Forall (λ a, proposal_fields_ok (go_logical_action_key a) (go_rationale a) = true
               ∧ go_action_type a ∈ pt_action_type <$> gt_proposals t) (gd_actions o)
  ∧ memory_validate (gd_memory_update o) = Ok tt
  ∧ (bool_decide (gd_status o = DS_WAITING) && negb (nonempty (gd_wake_conditions o))) = false.
Proof.
  intros H. unfold output_validate in H. apply bind_ok in H as ([] & Ha & H).
  do 2 (apply bind_ok in H as ([] & _ & H)). apply bind_ok in H as ([] & Hm & Hw%raise_if_ok).
  split_and!; [|done..]. apply for_each_ok in Ha. eapply Forall_impl; [exact Ha|].
  intros a H. apply bind_ok in H as ([] & H1%raise_if_ok & H2%raise_if_ok).
  apply negb_false_iff in H1, H2. by apply bool_decide_eq_true in H2.
Qed.

(** ** Properties *)

(** A model's answer that fits the output type generated for a project always becomes
    a decision, whatever it claims about its sources: the decision quotes exactly the
    events, reviews, action results and timers of the turn it answers, as the decision
    boundary demands, it proposes the actions of the answer in order, and its memory
    is the answer's own when the turn holds every source the answer cites, and only
    the answer's open commitments otherwise.  (No transformer is registered for the
    process type.) *)
Theorem generated_decisions_quote_the_turn project_id version capabilities wakes transformers o i id ids now :
  Forall (λ c, capability_post_init c = Ok tt) capabilities →
  let t := generate_agent_decision_output_type project_id version capabilities wakes transformers in
  output_validate t o = Ok tt → assoc (ps_process_type (ti_process i)) transformers = None →
  ∃ d, to_agent_decision t o i id ids = Ok d
    ∧ QuotesTurn d (expectation_of i now)
    ∧ ap_action_type <$> ad_actions d = go_action_type <$> gd_actions o
    ∧ Trusted i (gd_memory_update o) (ad_memory_update d).
Proof.
  intros Hc t Ho Ht. destruct (output_validate_ok t o Ho) as (Ha & Hm & Hw).
  destruct (to_action_proposals_total t (gd_actions o) ids) as [ps Hps]; [|done|].
  { apply Forall_fmap. cbn. apply Forall_fmap. eapply Forall_impl; [exact Hc|].
    apply capability_identifier. }
  destruct (trusted_memory i (gd_memory_update o) Hm) as (m & Htm & HT).
  unfold to_agent_decision. rewrite Hps. cbn [mbind result_bind]. rewrite Htm.
  unfold decision_validate. cbn [ad_status ad_wake_conditions mbind result_bind]. rewrite Hw.
  cbn [raise_if gt_transformers]. subst t. cbn [gt_transformers generate_agent_decision_output_type].
  rewrite Ht. eexists. split_and!; [reflexivity|by eapply trusted_quotes| |done].
  by eapply to_action_proposals_ok.
Qed.

(** ** Examples *)

Definition ex_adapter_object : AdapterObject := mkAdapterObject (Some "crm") (Some true) true true true.
Definition ex_sms_model : ParametersModel :=
  mkParametersModel [("type", JStr "object"); ("additionalProperties", JBool false)] (λ _, Ok tt).
Definition ex_any_type : ValueType := mkValueType [] (λ v, Ok (data_json v)).
Definition ex_sent_fact : Fact := mkProjectFact "sms.sent" "Sent" "A message was sent" ex_any_type [AUTHORITATIVE] false.
Definition ex_send_sms : Capability := mkCapability "send_sms" "Send" "Send a message" (Some ex_sms_model)
  ex_adapter_object "Be brief" ALLOW [ex_sent_fact] None.

Definition ex_answered_turn : AgentTurnInput := mkTurnInput (uuid 1) None
  (mkProcessSnapshot (uuid 2) (uuid 3) "follow_up" "1" PS_ACTIVE ∅ ∅ ∅ None [] [] [] [] [] [] 0)
  [] [] [] ["daily"] "instructions".

(** The summary cites a timer that did not wake this turn: only the commitment is kept. *)
Definition ex_answer : AgentDecisionOutput := mkDecisionOutput DS_ACTIVE
  [mkProposalOutput "greet" "the customer waits" "send_sms" []] []
  (mkMemory (Some "the customer is waiting") [] [] [] ["daily"; "weekly"] ["call back"]).

Lemma generated_decisions_quote_the_turn_witness :
  let t := generate_agent_decision_output_type "clinic" "1" [ex_send_sms] ["sms.received"] [] in
  ∃ d, to_agent_decision t ex_answer ex_answered_turn (uuid 7) (λ n, uuid (N.of_nat n)) = Ok d
    ∧ QuotesTurn d (expectation_of ex_answered_turn (utc 0))
    ∧ ap_action_type <$> ad_actions d = ["send_sms"]
    ∧ Trusted ex_answered_turn (gd_memory_update ex_answer) (ad_memory_update d).
Proof.
  exact (generated_decisions_quote_the_turn "clinic" "1" [ex_send_sms] ["sms.received"] [] ex_answer
    ex_answered_turn (uuid 7) (λ n, uuid (N.of_nat n)) (utc 0)
    ltac:(apply Forall_singleton; vm_compute; reflexivity) ltac:(vm_compute; reflexivity) eq_refl).
Defined.

Example ex_answer_keeps_commitments :
  _trusted_memory_update ex_answered_turn (gd_memory_update ex_answer)
  = Ok (mkMemory None [] [] [] [] ["call back"]).
Proof. vm_compute. reflexivity. Qed.
