(* ===== verification/Compiler.v ===== *)
(** * [projects/compiler.py]: from a project to a client pack

    [compile_project] checks a whole project and builds the [ClientPack] that runs it.
    Dictionaries are finite maps where the source only looks keys up, and lists of
    items where their order is used; sets are lists. *)

From stdpp Require Import base gmap list strings sorting pretty.
From Stdlib Require Import ZArith Lia.
From S2P Require Import Prelude Python Identifiers PyTime Json Limits Contracts DecisionPolicy Transitions Definitions Schema Session Deployment State Context Projects Packs Outputs.

#[local] Open Scope Z_scope.
#[local] Open Scope string_scope.

(** ** Descriptions *)

(** [_unique_by], the index filled so far being [indexed]. *)
Fixpoint unique_from {A} (key : A → string) (label : string) (items : list A) (indexed : list (string * A))
  : result (list (string * A)) :=
  match items with
  | [] => Ok indexed
  | x :: items =>
      _ ← raise_if (bool_decide (is_Some (assoc (key x) indexed))) ProjectConfigurationError
            ("duplicate " +:+ label +:+ ": " +:+ key x);
      unique_from key label items (indexed ++ [(key x, x)])%list
  end.
Definition _unique_by {A} (items : list A) (key : A → string) (label : string) : result (list (string * A)) :=
  unique_from key label items [].

Definition _fact_description (f : Fact) : FactDescription :=
  mkFactDefinition (pf_key f) (pf_title f) (pf_description f) (pf_kinds f) (value_schema f)
    (pf_operator_editable f).

(** The dump of a description read back as a definition. *)
Definition _fact_definition (f : Fact) : result FactDefinition :=
  _ ← fact_definition_validate (_fact_description f);
  Ok (_fact_description f).

(** [==] of two descriptions. *)
Definition same_description (f g : FactDescription) : bool :=
  bool_decide (fd_key f = fd_key g) && bool_decide (fd_title f = fd_title g)
  && bool_decide (fd_description f = fd_description g) && bool_decide (fd_kinds f = fd_kinds g)
  && json_eqb (JObj (fd_value_schema f)) (JObj (fd_value_schema g))
  && Bool.eqb (fd_operator_editable f) (fd_operator_editable g).

(** [capability.parameters_model.model_json_schema()] *)
Definition parameters_schema (c : Capability) : list (string * json) :=
  match ca_parameters_model c with Some m => pm_json_schema m | None => [] end.

Definition _capability_description (c : Capability) : CapabilityDescription :=
  mkCapabilityDescription (ca_action_type c) (ca_title c) (ca_description c) (adapter_id (ca_adapter c))
    (ca_default_permission c) (parameters_schema c) (pf_key <$> ca_produces c).

Definition _route_description (r : Route) : RouteDescription :=
  mkRouteDescription (rt_kind r) (rt_event_type r) (rt_title r) (rt_description r) (pf_key <$> rt_provides r).

Definition _scenario_description (s : Scenario) : ScenarioDescription :=
  mkScenarioDescription (sc_id s) (sc_title s) (sc_description s)
    ((λ st, mkStepDescription (st_kind st) (st_description st) (st_reference st)
              (step_value_json (st_value st))) <$> sc_steps s)
    (sc_started_at s).

(** ** The catalogue of facts *)

Fixpoint collect_facts (declared : list Fact) (facts : gmap string Fact) : result (gmap string Fact) :=
  match declared with
  | [] => Ok facts
  | f :: declared =>
      _ ← raise_if (match facts !! pf_key f with
                    | Some existing => negb (same_description (_fact_description existing) (_fact_description f))
                    | None => false
                    end) ProjectConfigurationError
            ("fact " +:+ pf_key f +:+ " has inconsistent definitions across the project");
      collect_facts declared (<[pf_key f := f]> facts)
  end.

Definition declared_facts (p : Project) : list Fact :=
  (pr_facts p ++ concat (ca_produces <$> pr_capabilities p) ++ concat (rt_provides <$> pr_routes p))%list.

Definition _collect_fact_catalog (p : Project) : result (gmap string Fact) :=
  collect_facts (declared_facts p) ∅.

(** ** [_validate_scenario_value_references] *)

(** [hash(value)] succeeds. *)
Fixpoint hashable (v : pydata) : bool :=
  match v with
  | PList _ | PDict _ => false
  | PTuple xs => forallb hashable xs
  | PModel h _ => h
  | _ => true
  end.

(** [set(document).issubset({"type", "fact_key", "path"})] for a document of type [fact]. *)
Definition is_reference (items : list (string * pydata)) : bool :=
  match assoc "type" items with
  | Some (PStr t) => bool_decide (t = "fact")
                     && forallb (λ k, bool_decide (k ∈ ["type"; "fact_key"; "path"])) (fst <$> items)
  | _ => false
  end.

Section references.
(** [str] of an object that is no string. *)
Context (str_of : pydata → string).
Context (facts : gmap string Fact) (scenario_id : string).

Definition unknown_fact (text : string) : result bool :=
  raise ProjectConfigurationError ("scenario " +:+ scenario_id +:+ " reads an unknown fact: " +:+ text).

(** [fact_key not in facts] for the key a reference gives. *)
Definition known_fact_key (key : option pydata) : result bool :=
  match key with
  | Some (PStr k) => if bool_decide (is_Some (facts !! k)) then Ok true else unknown_fact k
  | Some v => if hashable v then unknown_fact (str_of v) else raise TypeError "unhashable type"
  | None => unknown_fact "None"
  end.

Fixpoint references (v : pydata) : result bool :=
  match v with
  | PFact r => known_fact_key (Some (PStr (sv_fact_key r)))
  | PModel _ dump => references dump
  | PDict items =>
      if is_reference items then known_fact_key (assoc "fact_key" items)
      else (fix go items found :=
              match items with
              | [] => Ok found
              | kv :: items => r ← references (snd kv); go items (r || found)
              end) items false
  | PList xs | PTuple xs =>
      (fix go xs found :=
         match xs with
         | [] => Ok found
         | x :: xs => r ← references x; go xs (r || found)
         end) xs false
  | _ => Ok false
  end.
End references.

(** ** [_validate_scenario] *)

(** [f"{reference}"] of an optional string. *)
Definition ref_text (r : option string) : string := default "None" r.

(** What the loop carries from one step to the next. *)
Record ScriptState := mkScript { ss_expected_event : option string; ss_turn_ready : bool }.
#[export] Instance script_rebuild : Rebuild ScriptState := λ s, mkScript (ss_expected_event s) (ss_turn_ready s).

Section scenario.
Context (str_of : pydata → string).
Context (journey : Journey) (routes : list Route) (facts : gmap string Fact)
  (capabilities : list (string * Capability)) (scenario : Scenario).

Definition refuse {A} (text : string) : result A :=
  raise ProjectConfigurationError ("scenario " +:+ sc_id scenario +:+ text).
Definition refuse_if (b : bool) (text : string) : result unit :=
  raise_if b ProjectConfigurationError ("scenario " +:+ sc_id scenario +:+ text).

Definition events_of (kind : RouteKind) : list string :=
  rt_event_type <$> List.filter (λ r, bool_decide (rt_kind r = kind)) routes.

(** [routes_by_event.get(event_type)]: the last route of an event. *)
Definition route_by_event (event_type : string) : option Route :=
  List.find (λ r, bool_decide (rt_event_type r = event_type)) (rev routes).

(** One fact an event supplies. *)
Definition check_observation (reference : string) (provided : list string) (o : ScenarioFact) : result unit :=
  let label := " event " +:+ reference +:+ " supplies " in
  match facts !! sf_key o with
  | Some f =>
      _ ← refuse_if (negb (bool_decide (sf_key o ∈ provided)))
            (label +:+ "an undeclared fact: " +:+ sf_key o);
      _ ← refuse_if (negb (bool_decide (sf_kind o ∈ pf_kinds f)))
            (label +:+ sf_key o +:+ " with an unsupported authority kind");
      _ ← references str_of facts (sc_id scenario) (sf_value o);
      Ok tt
  | None => refuse (label +:+ "an undeclared fact: " +:+ sf_key o)
  end.

Definition event_step (index : nat) (s : ScriptState) (st : ScenarioStep) : result ScriptState :=
  let outside := " references an event outside journey " +:+ jo_id journey +:+ ": "
                 +:+ ref_text (st_reference st) in
  match st_reference st with
  | None => refuse outside
  | Some e =>
      match route_by_event e with
      | None => refuse outside
      | Some route =>
          match st_value st with
          | EventValue event =>
              _ ← refuse_if ((0 <? index)%nat && negb (bool_decide (ss_expected_event s = Some e)))
                    (" event " +:+ e +:+ " must follow a matching wait");
              _ ← refuse_if (negb (all_unique (sf_key <$> se_facts event)))
                    (" event " +:+ e +:+ " repeats a fact");
              _ ← for_each (check_observation e (pf_key <$> rt_provides route)) (se_facts event);
              _ ← references str_of facts (sc_id scenario) (PDict (se_payload event));
              Ok (mkScript None true)
          | _ => raise ValueError "ScenarioEvent"
          end
      end
  end.

(** The permission of an action type the journey offers. *)
Definition permission_of (c : Capability) : PermissionOutcome :=
  default (ca_default_permission c) (assoc (ca_action_type c) (jo_permission_overrides journey)).

(** [capability.parameters_model.model_validate(parameters)] *)
Definition validate_parameters (c : Capability) (parameters : list (string * pydata)) : result unit :=
  match ca_parameters_model c with
  | Some m => pm_model_validate m parameters
  | None => Ok tt
  end.

(** Parameters without references to facts are validated at once. *)
Definition check_parameters (c : Capability) (parameters : list (string * pydata)) (text : string)
    (has_references : bool) : result unit :=
  if has_references then Ok tt
  else match validate_parameters c parameters with
       | Raise e => if is_value_error (exn_cls e)
                    then refuse (" has invalid " +:+ text +:+ " parameters: " +:+ exn_msg e)
                    else Raise e
       | Ok _ => Ok tt
       end.

Definition action_step (s : ScriptState) (st : ScenarioStep) : result ScriptState :=
  let text := ref_text (st_reference st) in
  _ ← refuse_if (negb (ss_turn_ready s)) (" action " +:+ text +:+ " has no wake source");
  match st_reference st with
  | Some t =>
      _ ← refuse_if (negb (bool_decide (t ∈ jo_capabilities journey)))
            (" references an unavailable action: " +:+ text);
      match st_value st with
      | ActionValue action =>
          match assoc t capabilities with
          | None => raise KeyError t
          | Some c =>
              has_references ← references str_of facts (sc_id scenario) (PDict (sa_parameters action));
              _ ← check_parameters c (sa_parameters action) text has_references;
              let permission := default (ca_default_permission c) (assoc t (jo_permission_overrides journey)) in
              _ ← refuse_if (sa_approve action && negb (bool_decide (permission = REQUIRE_APPROVAL)))
                    (" approves " +:+ text +:+ ", but policy does not require approval");
              _ ← refuse_if (bool_decide (permission = REQUIRE_APPROVAL) && negb (sa_approve action))
                    (" must explicitly approve " +:+ text);
              _ ← refuse_if (bool_decide (permission = DENY)) (" cannot execute denied action " +:+ text);
              Ok (s <| ss_turn_ready := true |>)
          end
      | _ => raise ValueError "ScenarioAction"
      end
  | None => refuse (" references an unavailable action: " +:+ text)
  end.

Definition wait_step (s : ScriptState) (st : ScenarioStep) : result ScriptState :=
  _ ← refuse_if (negb (ss_turn_ready s)) " wait has no wake source";
  match st_value st with
  | WaitValue (ScenarioEventWait e) =>
      _ ← refuse_if (negb (bool_decide (e ∈ events_of WAKE))) (" waits for an unavailable event: " +:+ e);
      Ok (mkScript (Some e) false)
  | WaitValue (ScenarioTimerWait _ _) => Ok (s <| ss_turn_ready := true |>)
  | _ => refuse " has an invalid wait"
  end.

Definition fact_step (s : ScriptState) (st : ScenarioStep) : result ScriptState :=
  _ ← refuse_if (negb (ss_turn_ready s)) " fact assertion has no pending wake source";
  _ ← refuse_if (negb (match st_reference st with
                       | Some k => bool_decide (is_Some (facts !! k))
                       | None => false
                       end)) (" references an unknown fact: " +:+ ref_text (st_reference st));
  Ok s.

Definition complete_step (index : nat) (s : ScriptState) : result ScriptState :=
  _ ← refuse_if (negb (ss_turn_ready s)) " completion has no wake source";
  _ ← refuse_if (negb (index =? length (sc_steps scenario) - 1)%nat) " completion must be the final step";
  Ok (s <| ss_turn_ready := false |>).

Definition scenario_step (index : nat) (s : ScriptState) (st : ScenarioStep) : result ScriptState :=
  match st_kind st with
  | SK_EVENT => event_step index s st
  | SK_ACTION => action_step s st
  | SK_WAIT => wait_step s st
  | SK_FACT => fact_step s st
  | SK_COMPLETE => complete_step index s
  end.

Fixpoint scenario_steps (index : nat) (s : ScriptState) (steps : list ScenarioStep) : result ScriptState :=
  match steps with
  | [] => Ok s
  | st :: steps => s ← scenario_step index s st; scenario_steps (S index) s steps
  end.

Definition begins_with_start (st : ScenarioStep) : bool :=
  bool_decide (st_kind st = SK_EVENT)
  && match st_reference st with Some e => bool_decide (e ∈ events_of START) | None => false end.

Definition _validate_scenario : result unit :=
  match sc_steps scenario, list.last (sc_steps scenario) with
  | first :: _, Some final =>
      _ ← refuse_if (negb (begins_with_start first))
            (" must begin with a start event for journey " +:+ jo_id journey);
      _ ← refuse_if (negb (bool_decide (st_kind final = SK_COMPLETE))) " must end with completion";
      s ← scenario_steps 0 (mkScript None false) (sc_steps scenario);
      match ss_expected_event s with
      | Some e => refuse (" never supplies awaited event " +:+ e)
      | None => Ok tt
      end
  | _, _ => raise LookupError "tuple index out of range"
  end.
End scenario.

(** ** [compile_project] *)

(** The loop that files every route under its journey. *)
Fixpoint collect_routes (journeys : list string) (routes : list Route)
    (identities : list (string * RouteKind * string)) (by_journey : gmap string (list Route))
  : result (gmap string (list Route)) :=
  match routes with
  | [] => Ok by_journey
  | r :: routes =>
      let j := rt_journey_id r in
      let identity := (j, rt_kind r, rt_event_type r) in
      _ ← raise_if (negb (bool_decide (j ∈ journeys))) ProjectConfigurationError
            ("route " +:+ rt_event_type r +:+ " references unknown journey " +:+ j);
      _ ← raise_if (bool_decide (identity ∈ identities)) ProjectConfigurationError
            ("journey " +:+ j +:+ " declares duplicate " +:+ route_kind_value (rt_kind r)
             +:+ " route " +:+ rt_event_type r);
      collect_routes journeys routes (identity :: identities)
        (<[j := (default [] (by_journey !! j) ++ [r])%list]> by_journey)
  end.

Definition is_published (j : Journey) : bool := bool_decide (jo_status j = PUBLISHED).

(** A start route of a published journey. *)
Definition published_start (published : list string) (r : Route) : bool :=
  bool_decide (rt_kind r = START) && bool_decide (rt_journey_id r ∈ published).

Fixpoint check_published_starts (published : list string) (routes : list Route) (seen : list string)
  : result unit :=
  match routes with
  | [] => Ok tt
  | r :: routes =>
      if published_start published r then
        _ ← raise_if (bool_decide (rt_event_type r ∈ seen)) ProjectConfigurationError
              ("published start event is routed to more than one journey: " +:+ rt_event_type r);
        check_published_starts published routes (rt_event_type r :: seen)
      else check_published_starts published routes seen
  end.

Fixpoint collect_scenarios (journeys : list string) (scenarios : list Scenario)
    (by_journey : gmap string (list Scenario)) : result (gmap string (list Scenario)) :=
  match scenarios with
  | [] => Ok by_journey
  | s :: scenarios =>
      let j := sc_journey_id s in
      _ ← raise_if (negb (bool_decide (j ∈ journeys))) ProjectConfigurationError
            ("scenario " +:+ sc_id s +:+ " references unknown journey " +:+ j);
      collect_scenarios journeys scenarios (<[j := (default [] (by_journey !! j) ++ [s])%list]> by_journey)
  end.

(** [catalogue[key]] *)
Definition fact_at (facts : gmap string Fact) (key : string) : result Fact :=
  match facts !! key with Some f => Ok f | None => raise KeyError key end.
Definition capability_at (capabilities : list (string * Capability)) (t : string) : result Capability :=
  match assoc t capabilities with Some c => Ok c | None => raise KeyError t end.

(** [set(xs) - set(ys)] *)
Definition set_difference (xs ys : list string) : list string :=
  List.filter (λ x, negb (bool_decide (x ∈ ys))) xs.
(** [sorted(set(xs))] *)
Definition sorted_set (xs : list string) : list string := sorted (remove_dups xs).

Definition of_kind (kind : RouteKind) (routes : list Route) : list Route :=
  List.filter (λ r, bool_decide (rt_kind r = kind)) routes.

Definition requirements_of (j : Journey) : list (string * json) :=
  (λ r, (fr_fact_key r, fr_expected_value r)) <$> jo_complete_when j.

Definition communication_events (j : Journey) : list string :=
  let c := jo_communications j in
  (co_customer_reply_events c ++ co_opt_out_events c ++ co_automated_response_events c)%list.

(** The checks of a journey against the project, up to the choice of its capabilities. *)
Definition check_journey (capabilities : list (string * Capability)) (facts : gmap string Fact)
    (routes : list Route) (j : Journey) : result unit :=
  let label := "journey " +:+ jo_id j in
  let unknown_capabilities := set_difference (jo_capabilities j) (fst <$> capabilities) in
  let requirement_keys := fst <$> requirements_of j in
  let unknown_facts := List.filter (λ k, negb (bool_decide (is_Some (facts !! k)))) requirement_keys in
  _ ← raise_if (is_published j && negb (nonempty (of_kind START routes))) ProjectConfigurationError
        ("published journey " +:+ jo_id j +:+ " requires at least one start route");
  _ ← raise_if (nonempty unknown_capabilities) ProjectConfigurationError
        (label +:+ " uses unknown capabilities: " +:+ join_with ", " (sorted_set unknown_capabilities));
  _ ← raise_if (negb (subset_of (fst <$> jo_permission_overrides j) (jo_capabilities j)))
        ProjectConfigurationError (label +:+ " has permission overrides for unavailable capabilities");
  _ ← raise_if (negb (subset_of (fst <$> jo_action_guidance j) (jo_capabilities j)))
        ProjectConfigurationError (label +:+ " has guidance for unavailable capabilities");
  _ ← raise_if (negb (subset_of (co_outbound_actions (jo_communications j)) (jo_capabilities j)))
        ProjectConfigurationError (label +:+ " marks an unavailable capability as outbound");
  _ ← raise_if (negb (subset_of (communication_events j) (rt_event_type <$> of_kind WAKE routes)))
        ProjectConfigurationError (label +:+ " communication events must have wake routes");
  _ ← raise_if (nonempty unknown_facts) ProjectConfigurationError
        (label +:+ " completes on unknown facts: " +:+ join_with ", " (sorted_set unknown_facts));
  raise_if (existsb (λ k, match facts !! k with
                          | Some f => negb (bool_decide (AUTHORITATIVE ∈ pf_kinds f))
                          | None => false
                          end) requirement_keys) ProjectConfigurationError
    (label +:+ " completion must use authoritative facts").

Definition relevant_fact_keys (selected : list Capability) (routes : list Route) (j : Journey) : list string :=
  sorted_set ((fst <$> requirements_of j)
    ++ (pf_key <$> concat (ca_produces <$> selected)) ++ (pf_key <$> concat (rt_provides <$> routes)))%list.

Definition permissions_of (selected : list Capability) (j : Journey) : list (string * PermissionOutcome) :=
  (λ c, (ca_action_type c, permission_of j c)) <$> selected.
Definition guidance_of (selected : list Capability) (j : Journey) : list (string * string) :=
  (λ c, (ca_action_type c, default (ca_guidance c) (assoc (ca_action_type c) (jo_action_guidance j)))) <$> selected.
Definition integrations_of (selected : list Capability) : list (string * string) :=
  (λ c, (ca_action_type c, adapter_id (ca_adapter c))) <$> selected.

Definition communications_of (j : Journey) : CommunicationConfiguration :=
  let c := jo_communications j in
  mkCommunications (co_outbound_actions c) (co_customer_reply_events c) (co_opt_out_events c)
    (co_automated_response_events c) (co_quiet_hours c).

Definition journey_definition (selected : list Capability) (routes : list Route)
    (definitions : list FactDefinition) (j : Journey) : ProcessDefinition :=
  mkDefinition (jo_id j) (jo_version j) (jo_status j) (rt_event_type <$> of_kind START routes) (jo_goals j)
    (jo_terminal_states j) (jo_capabilities j) (permissions_of selected j) (guidance_of selected j)
    (jo_decision_guidance j) (rt_event_type <$> of_kind WAKE routes) (jo_limits j) (jo_review_commands j)
    (communications_of j) (integrations_of selected) definitions (requirements_of j).

Definition journey_description (selected : list Capability) (routes : list Route) (relevant : list Fact)
    (scenarios : list Scenario) (j : Journey) : JourneyDescription :=
  mkJourneyDescription (jo_id j) (jo_version j) (jo_title j) (jo_description j)
    (definition_status_value (jo_status j)) (jo_goals j) (_route_description <$> routes)
    (_capability_description <$> selected) (_fact_description <$> relevant) (permissions_of selected j)
    (jo_limits j) (communications_of j) (requirements_of j) (_scenario_description <$> scenarios).

Section compile.
Context (dump_datetime : datetime → string) (dump_time : time → string) (known_zone : string → bool)
  (str_of : pydata → string) (tiramisu_version : string) (specifier_contains : string → string → option bool).
(** pydantic's JSON schema of a generated output type. *)
Context (output_json_schema : GeneratedOutputType → json).

(** One journey of the loop. *)
Definition compile_journey (capabilities : list (string * Capability)) (facts : gmap string Fact)
    (routes : list Route) (scenarios : list Scenario) (j : Journey)
  : result (ProcessDefinition * JourneyDescription) :=
  _ ← check_journey capabilities facts routes j;
  selected ← mapM (capability_at capabilities) (jo_capabilities j);
  relevant ← mapM (fact_at facts) (relevant_fact_keys selected routes j);
  _ ← review_configuration_validate (jo_review_commands j);
  _ ← communications_validate known_zone (communications_of j);
  fact_definitions ← mapM _fact_definition relevant;
  let definition := journey_definition selected routes fact_definitions j in
  _ ← definition_validate known_zone definition;
  _ ← for_each (_validate_scenario str_of j routes
                  (list_to_map ((λ f, (pf_key f, f)) <$> relevant)) capabilities) scenarios;
  Ok (definition, journey_description selected routes relevant scenarios j).

(** The action types some scenario of the project proposes. *)
Definition scenario_action_types (p : Project) : list (option string) :=
  st_reference <$> List.filter (λ s, bool_decide (st_kind s = SK_ACTION)) (concat (sc_steps <$> pr_scenarios p)).

(** The adapter that stands in for a capability's in a simulation. *)
Definition simulation_of (c : Capability) : option AdapterObject :=
  match ca_simulation_adapter c with
  | Some a => Some a
  | None => if ao_is_simulation_adapter (ca_adapter c) then Some (ca_adapter c) else None
  end.

Fixpoint bind_simulations (proposed : list (option string)) (used : list Capability)
  : result (list (string * AdapterObject)) :=
  match used with
  | [] => Ok []
  | c :: used =>
      if bool_decide (Some (ca_action_type c) ∈ proposed) then
        match simulation_of c with
        | None => raise ProjectConfigurationError
                    ("scenario action " +:+ ca_action_type c
                     +:+ " requires an explicitly safe simulation adapter")
        | Some a => rest ← bind_simulations proposed used; Ok ((ca_action_type c, a) :: rest)
        end
      else bind_simulations proposed used
  end.

Definition output_type_of (t : GeneratedOutputType) : OutputType :=
  mkOutputType ("tiramisu_agents.projects.generated." +:+ gt_name t) (output_json_schema t) true.

Definition policy_id (p : Project) (j : Journey) : string :=
  pr_id p +:+ "." +:+ jo_id j +:+ ".policy.v" +:+ jo_version j.

(** The pack of a project whose journeys compiled. *)
Definition assemble_pack (p : Project) (definitions : list ProcessDefinition)
    (descriptions : list JourneyDescription) (used : list Capability)
    (simulations : list (string * AdapterObject)) : result ClientPack :=
  let policy_ids := policy_id p <$> pr_journeys p in
  let wake_event_types := sorted_set (rt_event_type <$> of_kind WAKE (pr_routes p)) in
  let transformers := omap (λ j, (λ t, (jo_id j, t)) <$> jo_decision_transformer j) (pr_journeys p) in
  let output_type := output_type_of
    (generate_agent_decision_output_type (pr_id p) (pr_version p) used wake_event_types transformers) in
  let description := mkProjectDescription (pr_id p) (pr_version p) (pr_title p) (pr_description p) descriptions in
  let manifest := mkManifest (pr_id p) (pr_version p) (pr_tiramisu_compatibility p)
    (versioned_id <$> definitions) (sorted_set ((λ c, adapter_id (ca_adapter c)) <$> used)) policy_ids [] in
  _ ← project_description_validate description;
  _ ← manifest_validate manifest;
  make_client_pack dump_datetime dump_time tiramisu_version specifier_contains manifest definitions
    ((λ c, (ca_action_type c, ca_adapter c)) <$> used) output_type policy_ids (Some description) simulations.

Definition compile_project (p : Project) : result ClientPack :=
  journeys ← _unique_by (pr_journeys p) jo_id "journey ID";
  capabilities ← _unique_by (pr_capabilities p) ca_action_type "capability action type";
  scenarios ← _unique_by (pr_scenarios p) sc_id "scenario ID";
  _ ← _unique_by (pr_facts p) pf_key "project fact key";
  facts ← _collect_fact_catalog p;
  let ids := fst <$> journeys in
  routes_by_journey ← collect_routes ids (pr_routes p) [] ∅;
  _ ← check_published_starts (jo_id <$> List.filter is_published (pr_journeys p)) (pr_routes p) [];
  scenarios_by_journey ← collect_scenarios ids (snd <$> scenarios) ∅;
  compiled ← mapM (λ j, compile_journey capabilities facts (default [] (routes_by_journey !! jo_id j))
                          (default [] (scenarios_by_journey !! jo_id j)) j) (pr_journeys p);
  let used_action_types := concat (jo_capabilities <$> pr_journeys p) in
  let unused := set_difference (fst <$> capabilities) used_action_types in
  _ ← raise_if (nonempty unused) ProjectConfigurationError
        ("project registers capabilities unused by any journey: " +:+ join_with ", " (sorted_set unused));
  let used := List.filter (λ c, bool_decide (ca_action_type c ∈ used_action_types)) (pr_capabilities p) in
  simulations ← bind_simulations (scenario_action_types p) used;
  assemble_pack p (fst <$> compiled) (snd <$> compiled) used simulations.
End compile.

(** ** Example: one journey that sends a message and waits for the reply *)

Definition ex_missed : Route :=
  mkRoute START "appointment.missed" "follow_up" "Missed" "An appointment was missed" [].
Definition ex_replied : Route := mkRoute WAKE "sms.received" "follow_up" "Reply" "The patient replied" [].
Definition ex_happening (e : string) : ScenarioStep :=
  mkScenarioStep SK_EVENT "it happens" (Some e) (EventValue (mkScenarioEvent "scenario" [] [] [])).
Definition ex_sending : ScenarioStep :=
  mkScenarioStep SK_ACTION "it writes" (Some "send_sms")
    (ActionValue (mkScenarioAction "greet" [("text", PStr "hello")] "it writes" false)).
Definition ex_waiting : ScenarioStep :=
  mkScenarioStep SK_WAIT "it waits" (Some "sms.received") (WaitValue (ScenarioEventWait "sms.received")).
Definition ex_finishing : ScenarioStep := mkScenarioStep SK_COMPLETE "done" None NoValue.
Definition ex_scenario : Scenario := mkScenario "happy_path" "follow_up" "Happy" "The patient answers"
  [ex_happening "appointment.missed"; ex_sending; ex_waiting; ex_happening "sms.received"; ex_finishing] (utc 0).
Definition ex_journey : Journey := mkJourney "follow_up" "1" "Follow up" "Follow a missed appointment up"
  ["hear from the patient"] ["send_sms"] [mkFactRequirement "sms.sent" (JBool true)] PUBLISHED [] []
  [] [PS_COMPLETED] default_process_limits [RC_APPROVE] (mkProjectCommunications ["send_sms"] ["sms.received"] [] [] None)
  None.
Definition ex_project : Project := mkProject "clinic" "1" "Clinic" "A clinic" [ex_journey] [ex_missed; ex_replied]
  [ex_send_sms] [] [ex_scenario] ">=0.1,<0.2".

Definition ex_specifier (specifier version : string) : option bool := Some (bool_decide (specifier = ">=0.1,<0.2")).
Definition ex_compiled : result ClientPack :=
  compile_project isoformat ex_dump_time ex_known_zone (λ _, "object") "0.1.0" ex_specifier
    (λ t, strings_json (pt_name <$> gt_proposals t)) ex_project.

Example ex_project_constructed : project_constructed ex_project = Ok tt.
Proof. vm_compute. reflexivity. Qed.
Example ex_project_compiles : is_ok ex_compiled = true.
Proof. vm_compute. reflexivity. Qed.
Example ex_pack_starts : (p ← ex_compiled; Ok (published_events (cp_definitions p))) = Ok ["appointment.missed"].
Proof. vm_compute. reflexivity. Qed.
(** The last step may not be dropped. *)
Example ex_unfinished :
  _validate_scenario (λ _, "object") ex_journey [ex_missed; ex_replied] ∅ []
    (mkScenario "bad" "follow_up" "Bad" "It never ends" [ex_happening "appointment.missed"] (utc 0))
  = raise ProjectConfigurationError "scenario bad must end with completion".
Proof. vm_compute. reflexivity. Qed.
