(* ===== verification/CompilerFacts.v ===== *)
(** * What the compiler guarantees

    The pack a project compiles to agrees with itself: the consistency checks that
    guard a hand-written [ClientPack] never refuse a compiled one.  The lemmas follow
    the compiler: the indexes, the catalogue of facts, the loops over routes and
    scenarios, one journey, the pack. *)

From stdpp Require Import base gmap list strings sorting pretty.
From Stdlib Require Import ZArith Lia.
From S2P Require Import Prelude Python Identifiers PyTime Json Limits Contracts DecisionPolicy Transitions Definitions Schema Session Deployment State Context Ingestion Projects Packs PackFacts Outputs Compiler.

#[local] Open Scope Z_scope.
#[local] Open Scope string_scope.

(** ** Values are equal to themselves *)

Lemma num_eqb_refl v : is_number v = true → has_nan v = false → num_eqb v v = true.
Proof.
  intros Hn Hf. unfold num_eqb. destruct v as [|b|n|f|s|xs|items]; try done; cbn in *.
  - apply Z.eqb_refl.
  - apply Z.eqb_refl.
  - destruct (fl_value f) as [[a p]|]; [apply Z.eqb_refl|done].
Qed.

Lemma json_eqb_refl v : json_wf v = true → has_nan v = false → json_eqb v v = true.
Proof.
  induction v as [|b|n|f|s|xs IH|items IH] using json_induction; intros Hwf Hnan.
  - done.
  - destruct b; done.
  - exact (num_eqb_refl (JInt n) eq_refl eq_refl).
  - exact (num_eqb_refl (JFloat f) eq_refl Hnan).
  - cbn. by rewrite bool_decide_true.
  - cbn in Hwf, Hnan |- *. apply forallb_Forall in Hwf. apply existsb_false in Hnan.
    induction IH as [|x xs Hx _ IHxs]; [done|].
    apply Forall_cons in Hwf as [Hw Hws], Hnan as [Hf Hfs]. by rewrite Hx, IHxs.
  - cbn in Hwf, Hnan |- *. apply andb_true_iff in Hwf as [Hu Hwf%forallb_Forall].
    apply bool_decide_eq_true in Hu. apply existsb_false in Hnan.
    rewrite Nat.eqb_refl. cbn. apply forallb_Forall, Forall_forall. intros [k v] Hin.
    rewrite Forall_forall in IH, Hwf, Hnan. cbn.
    rewrite (proj2 (assoc_in k items v Hu) Hin). exact (IH _ Hin (Hwf _ Hin) (Hnan _ Hin)).
Qed.

(** ** Indexes *)

Lemma assoc_app {A} key (xs ys : list (string * A)) :
  assoc key (xs ++ ys)%list = match assoc key xs with Some v => Some v | None => assoc key ys end.
Proof. induction xs as [|[k v] xs IH]; cbn; [done|]. by case_bool_decide. Qed.

Lemma unique_from_ok {A} (key : A → string) label items indexed index :
  NoDup (fst <$> indexed) →
  unique_from key label items indexed = Ok index →
  index = (indexed ++ ((λ x, (key x, x)) <$> items))%list ∧ NoDup (fst <$> index).
Proof.
  revert indexed. induction items as [|x items IH]; intros indexed Hnd H; cbn [unique_from] in H.
  { injection H as <-. by rewrite app_nil_r. }
  apply bind_ok in H as ([] & Hx%raise_if_ok%bool_decide_eq_false & H).
  rewrite assoc_is_Some in Hx. apply IH in H as [-> Hnd'].
  - split; [by rewrite <- app_assoc|done].
  - rewrite fmap_app. apply NoDup_app. split_and!; [done| |apply NoDup_singleton].
    intros k Hk ->%list_elem_of_singleton. done.
Qed.

Lemma unique_by_ok {A} (items : list A) key label index :
  _unique_by items key label = Ok index →
  index = (λ x, (key x, x)) <$> items ∧ NoDup (key <$> items).
Proof.
  intros H. apply unique_from_ok in H as [-> Hnd]; [|by constructor]. split; [done|].
  by rewrite app_nil_l, <- list_fmap_compose in Hnd.
Qed.

Lemma snd_indexed {A} (key : A → string) (xs : list A) : snd <$> ((λ x, (key x, x)) <$> xs) = xs.
Proof. induction xs as [|x xs IH]; [done|]. cbn. f_equal. exact IH. Qed.
Lemma fst_indexed {A} (key : A → string) (xs : list A) : fst <$> ((λ x, (key x, x)) <$> xs) = key <$> xs.
Proof. induction xs as [|x xs IH]; [done|]. cbn. f_equal. exact IH. Qed.

(** An item is found under its key. *)
Lemma assoc_indexed {A} (key : A → string) (items : list A) k x :
  assoc k ((λ x, (key x, x)) <$> items) = Some x → x ∈ items ∧ key x = k.
Proof.
  induction items as [|y items IH]; cbn; [done|]. case_bool_decide as E.
  - intros [= ->]. split; [apply list_elem_of_here|done].
  - intros [Hin Hk]%IH. split; [by apply list_elem_of_further|done].
Qed.

(** ** The catalogue of facts *)

Lemma collect_facts_ok declared facts catalogue :
  collect_facts declared facts = Ok catalogue →
  (∀ k f, catalogue !! k = Some f → (f ∈ declared ∧ pf_key f = k) ∨ facts !! k = Some f)
  ∧ (∀ f, f ∈ declared → is_Some (catalogue !! pf_key f))
  ∧ (∀ k, is_Some (facts !! k) → is_Some (catalogue !! k)).
Proof.
  revert facts. induction declared as [|f declared IH]; intros facts H; cbn [collect_facts] in H.
  { injection H as <-. split_and!; [auto|set_solver|auto]. }
  apply bind_ok in H as (? & _ & H). apply IH in H as (Hfrom & Hin & Hkeep). split_and!.
  - intros k g [[Hg Hk]|Hg]%Hfrom; [left; split; [by right|done]|].
    destruct (decide (pf_key f = k)) as [<-|Hne].
    + rewrite lookup_insert_eq in Hg. injection Hg as <-. left. split; [by left|done].
    + rewrite lookup_insert_ne in Hg by done. by right.
  - intros g [->|Hg]%elem_of_cons; [|by apply Hin]. apply Hkeep. rewrite lookup_insert_eq. by eexists.
  - intros k Hk. apply Hkeep. destruct (decide (pf_key f = k)) as [<-|Hne].
    + rewrite lookup_insert_eq. by eexists.
    + by rewrite lookup_insert_ne.
Qed.

Lemma fact_catalog_ok p catalogue :
  _collect_fact_catalog p = Ok catalogue →
  (∀ k f, catalogue !! k = Some f → f ∈ declared_facts p ∧ pf_key f = k)
  ∧ (∀ f, f ∈ declared_facts p → is_Some (catalogue !! pf_key f)).
Proof.
  intros (Hfrom & Hin & _)%collect_facts_ok. split; [|done].
  intros k f [?|Hf]%Hfrom; [done|]. by rewrite lookup_empty in Hf.
Qed.

(** ** The loops over routes and scenarios *)

Definition route_identity (r : Route) : string * RouteKind * string :=
  (rt_journey_id r, rt_kind r, rt_event_type r).

Definition routes_for (routes : list Route) (j : string) : list Route :=
  List.filter (λ r, bool_decide (rt_journey_id r = j)) routes.
Definition scenarios_for (scenarios : list Scenario) (j : string) : list Scenario :=
  List.filter (λ s, bool_decide (sc_journey_id s = j)) scenarios.

Lemma filed_under {A} (m : gmap string (list A)) j k x :
  default [] (<[j := (default [] (m !! j) ++ [x])%list]> m !! k)
  = (default [] (m !! k) ++ (if bool_decide (j = k) then [x] else []))%list.
Proof.
  case_bool_decide as E.
  - subst k. by rewrite lookup_insert_eq.
  - by rewrite lookup_insert_ne, app_nil_r.
Qed.

Lemma collect_routes_ok ids routes identities by_journey filed :
  NoDup identities →
  collect_routes ids routes identities by_journey = Ok filed →
  (∀ j, default [] (filed !! j) = (default [] (by_journey !! j) ++ routes_for routes j)%list)
  ∧ Forall (λ r, rt_journey_id r ∈ ids) routes
  ∧ NoDup ((route_identity <$> routes) ++ identities)%list.
Proof.
  revert identities by_journey. induction routes as [|r routes IH]; intros identities by_journey Hnd H;
    cbn [collect_routes] in H.
  { injection H as <-. split_and!; [intros j; by rewrite app_nil_r|constructor|done]. }
  apply bind_ok in H as ([] & Hj%raise_if_ok%negb_false_iff%bool_decide_eq_true & H).
  apply bind_ok in H as ([] & Hn%raise_if_ok%bool_decide_eq_false & H).
  apply IH in H as (Hfiled & Hall & Hnd'); [|by constructor]. split_and!.
  - intros j. rewrite Hfiled, filed_under, <- app_assoc. f_equal. unfold routes_for. cbn.
    by case_bool_decide.
  - by constructor.
  - cbn. eapply NoDup_Permutation_proper; [|exact Hnd'].
    etransitivity; [apply Permutation_cons_append|]. rewrite <- app_assoc.
    apply Permutation_app_head. symmetry. apply Permutation_cons_append.
Qed.

Lemma collect_scenarios_ok ids scenarios by_journey filed :
  collect_scenarios ids scenarios by_journey = Ok filed →
  (∀ j, default [] (filed !! j) = (default [] (by_journey !! j) ++ scenarios_for scenarios j)%list)
  ∧ Forall (λ s, sc_journey_id s ∈ ids) scenarios.
Proof.
  revert by_journey. induction scenarios as [|s scenarios IH]; intros by_journey H; cbn [collect_scenarios] in H.
  { injection H as <-. split; [intros j; by rewrite app_nil_r|constructor]. }
  apply bind_ok in H as ([] & Hj%raise_if_ok%negb_false_iff%bool_decide_eq_true & H).
  apply IH in H as (Hfiled & Hall). split; [|by constructor].
  intros j. rewrite Hfiled, filed_under, <- app_assoc. f_equal. unfold scenarios_for. cbn.
  by case_bool_decide.
Qed.

Lemma published_starts_ok published routes seen :
  NoDup seen →
  check_published_starts published routes seen = Ok tt →
  NoDup ((rt_event_type <$> List.filter (published_start published) routes) ++ seen)%list.
Proof.
  revert seen. induction routes as [|r routes IH]; intros seen Hnd H; cbn [check_published_starts] in H; [done|].
  cbn. destruct (published_start published r); [|by apply IH].
  apply bind_ok in H as ([] & Hn%raise_if_ok%bool_decide_eq_false & H).
  apply IH in H; [|by constructor]. cbn. eapply NoDup_Permutation_proper; [|exact H].
  apply Permutation_middle.
Qed.

(** ** What the compiler may raise before it assembles the pack *)

(** Not one of the errors that say a pack disagrees with itself. *)
Definition benign (c : exn_class) : bool :=
  match c with
  | ClientPackError | KeyError | DuplicateProcessDefinition | AmbiguousTrigger => false
  | _ => true
  end.
Abbreviation raises_benign := (raises_only (λ c, benign c = true)).

Lemma raises_only_after {A B} P (m : result A) (k : A → result B) :
  raises_only P m → (∀ a, m = Ok a → raises_only P (k a)) → raises_only P (m ≫= k).
Proof. destruct m as [a|e0]; intros Hm Hk e; [by apply Hk|intros [= <-]; by apply Hm]. Qed.

Lemma raises_only_for_each_in {A} P (f : A → result unit) xs :
  (∀ x, x ∈ xs → raises_only P (f x)) → raises_only P (for_each f xs).
Proof.
  induction xs as [|x xs IH]; intros H; cbn; [apply raises_only_ok|].
  apply raises_only_bind; [apply H; by left|]. intros _. apply IH. intros y Hy. apply H. by right.
Qed.

Lemma raises_only_mapM {A B} P (f : A → result B) xs :
  (∀ x, x ∈ xs → raises_only P (f x)) → raises_only P (mapM f xs).
Proof.
  induction xs as [|x xs IH]; intros H; cbn; [apply raises_only_ok|].
  apply raises_only_bind; [apply H; by left|]. intros y.
  apply raises_only_bind; [|intros; apply raises_only_ok]. apply IH. intros z Hz. apply H. by right.
Qed.

(** Calls that raise only named, benign errors. *)
Ltac raises :=
  repeat first
    [ apply raises_only_ok | by apply raises_only_raise | by apply raises_only_raise_if
    | apply raises_only_bind; [|intros ?] | apply raises_only_for_each; intros ?
    | progress case_match ].

Lemma canonical_json_benign v label : raises_benign (canonical_json_bytes v label).
Proof. unfold canonical_json_bytes. raises. Qed.

Lemma unique_by_benign {A} (items : list A) key label : raises_benign (_unique_by items key label).
Proof.
  unfold _unique_by. generalize (@nil (string * A)). induction items as [|x items IH]; intros idx; cbn; raises. apply IH.
Qed.

Lemma collect_facts_benign declared facts : raises_benign (collect_facts declared facts).
Proof. revert facts. induction declared as [|f declared IH]; intros facts; cbn; raises; apply IH. Qed.

Lemma collect_routes_benign ids routes identities m : raises_benign (collect_routes ids routes identities m).
Proof. revert identities m. induction routes as [|r routes IH]; intros seen m; cbn; raises. apply IH. Qed.

Lemma published_starts_benign published routes seen : raises_benign (check_published_starts published routes seen).
Proof. revert seen. induction routes as [|r routes IH]; intros seen; cbn; raises; apply IH. Qed.

Lemma collect_scenarios_benign ids scenarios m : raises_benign (collect_scenarios ids scenarios m).
Proof. revert m. induction scenarios as [|r scenarios IH]; intros m; cbn; raises. apply IH. Qed.

Lemma bind_simulations_benign proposed used : raises_benign (bind_simulations proposed used).
Proof. induction used as [|c used IH]; cbn; raises; apply IH. Qed.

Lemma review_configuration_benign commands : raises_benign (review_configuration_validate commands).
Proof. unfold review_configuration_validate. raises. Qed.

Lemma communications_benign known_zone c : raises_benign (communications_validate known_zone c).
Proof. unfold communications_validate, quiet_hours_validate. raises. Qed.

Lemma fact_definition_benign f : raises_benign (_fact_definition f).
Proof. unfold _fact_definition, fact_definition_validate. raises. Qed.

Lemma definition_validate_benign known_zone d : raises_benign (definition_validate known_zone d).
Proof.
  unfold definition_validate, validate_event_types, validate_goals, validate_terminal_states,
    validate_action_types, validate_permission_action_types, validate_action_guidance,
    validate_decision_guidance, process_limits_validate, validate_completion_values,
    require_explicit_action_permissions, fact_definition_validate.
  cbv zeta. raises;
    first [apply review_configuration_benign|apply communications_benign|apply canonical_json_benign].
Qed.

(** Python data by induction. *)
Section pydata_induction.
Variable P : pydata → Prop.
Hypothesis Hnone : P PNone.
Hypothesis Hbool : ∀ b, P (PBool b).
Hypothesis Hint : ∀ n, P (PInt n).
Hypothesis Hfloat : ∀ f, P (PFloat f).
Hypothesis Hstr : ∀ s, P (PStr s).
Hypothesis Hlist : ∀ xs, Forall P xs → P (PList xs).
Hypothesis Htuple : ∀ xs, Forall P xs → P (PTuple xs).
Hypothesis Hdict : ∀ items, Forall (λ kv, P (snd kv)) items → P (PDict items).
Hypothesis Hfact : ∀ v, P (PFact v).
Hypothesis Hmodel : ∀ h dump, P dump → P (PModel h dump).

Fixpoint pydata_induction (v : pydata) : P v :=
  let go := fix go xs : Forall P xs :=
    match xs with
    | [] => @List.Forall_nil _ _
    | x :: xs => @List.Forall_cons _ _ x xs (pydata_induction x) (go xs) end in
  match v with
  | PNone => Hnone | PBool b => Hbool b | PInt n => Hint n | PFloat f => Hfloat f | PStr s => Hstr s
  | PList xs => Hlist xs (go xs)
  | PTuple xs => Htuple xs (go xs)
  | PDict items => Hdict items ((fix go xs : Forall (λ kv, P (snd kv)) xs :=
      match xs with
      | [] => @List.Forall_nil _ _
      | kv :: xs => @List.Forall_cons _ _ kv xs (pydata_induction (snd kv)) (go xs) end) items)
  | PFact v => Hfact v
  | PModel h dump => Hmodel h dump (pydata_induction dump)
  end.
End pydata_induction.

Lemma known_fact_key_benign str_of facts sid key : raises_benign (known_fact_key str_of facts sid key).
Proof. unfold known_fact_key, unknown_fact. raises. Qed.

Lemma references_benign str_of facts sid v : raises_benign (references str_of facts sid v).
Proof.
  induction v as [|b|n|f|s|xs IH|xs IH|items IH|r|h dump IH] using pydata_induction; cbn [references];
    try apply raises_only_ok; try apply known_fact_key_benign; try exact IH.
  1, 2: generalize false; induction IH as [|x xs Hx _ IHxs]; intros found; [apply raises_only_ok|];
    apply raises_only_bind; [exact Hx|intros ?; apply IHxs].
  destruct (is_reference items); [apply known_fact_key_benign|].
  generalize false. induction IH as [|x xs Hx _ IHxs]; intros found; [apply raises_only_ok|].
  apply raises_only_bind; [exact Hx|intros ?; apply IHxs].
Qed.

(** pydantic reports invalid parameters as [ValueError]s. *)
Definition parameters_raise_value_errors (capabilities : list Capability) : Prop :=
  ∀ c m parameters, c ∈ capabilities → ca_parameters_model c = Some m →
    raises_only (λ e, is_value_error e = true) (pm_model_validate m parameters).

Section scenario_raises.
Context (str_of : pydata → string) (j : Journey) (routes : list Route) (facts : gmap string Fact)
  (known : list Capability) (s : Scenario).
Context (Hparameters : parameters_raise_value_errors known).
Context (Hknown : ∀ t, t ∈ jo_capabilities j → is_Some (assoc t ((λ c, (ca_action_type c, c)) <$> known))).
#[local] Abbreviation capabilities := ((λ c, (ca_action_type c, c)) <$> known).

Lemma check_parameters_benign c ps text b : c ∈ known → raises_benign (check_parameters s c ps text b).
Proof.
  intros Hc. unfold check_parameters, validate_parameters, refuse. destruct b; [apply raises_only_ok|].
  destruct (ca_parameters_model c) as [m|] eqn:Em; [|apply raises_only_ok].
  pose proof (Hparameters c m ps Hc Em) as Hm. destruct (pm_model_validate m ps) as [?|e]; [apply raises_only_ok|].
  rewrite (Hm e eq_refl). by apply raises_only_raise.
Qed.

Lemma action_step_benign state st : raises_benign (action_step str_of j facts capabilities s state st).
Proof.
  unfold action_step, refuse, refuse_if. apply raises_only_bind; [by apply raises_only_raise_if|intros _].
  destruct (st_reference st) as [t|]; [|by apply raises_only_raise].
  apply raises_only_after; [by apply raises_only_raise_if|].
  intros _ Ht%raise_if_ok%negb_false_iff%bool_decide_eq_true.
  destruct (st_value st); try by apply raises_only_raise.
  destruct (Hknown t Ht) as [c Hc]. rewrite Hc. apply assoc_indexed in Hc as [Hc _].
  apply raises_only_bind; [apply references_benign|intros b].
  apply raises_only_bind; [by apply check_parameters_benign|intros _]. raises.
Qed.

Lemma scenario_step_benign index state st :
  raises_benign (scenario_step str_of j routes facts capabilities s index state st).
Proof.
  unfold scenario_step. destruct (st_kind st); [|apply action_step_benign| | |].
  - unfold event_step, refuse, refuse_if, check_observation. raises; apply references_benign.
  - unfold wait_step, refuse, refuse_if. raises.
  - unfold fact_step, refuse_if. raises.
  - unfold complete_step, refuse_if. raises.
Qed.

Lemma scenario_steps_benign index state steps :
  raises_benign (scenario_steps str_of j routes facts capabilities s index state steps).
Proof.
  revert index state. induction steps as [|st steps IH]; intros index state; [apply raises_only_ok|].
  cbn [scenario_steps]. apply raises_only_bind; [apply scenario_step_benign|intros ?; apply IH].
Qed.

Lemma validate_scenario_benign : raises_benign (_validate_scenario str_of j routes facts capabilities s).
Proof.
  unfold _validate_scenario, refuse, refuse_if.
  destruct (sc_steps s) as [|first rest]; [by apply raises_only_raise|].
  destruct (list.last (first :: rest)) as [final|]; [|by apply raises_only_raise].
  do 2 (apply raises_only_bind; [by apply raises_only_raise_if|intros _]).
  apply raises_only_bind; [apply scenario_steps_benign|intros state]. raises.
Qed.
End scenario_raises.

(** ** One journey *)

(** What [check_journey] leaves known. *)
Lemma check_journey_ok capabilities facts routes j :
  check_journey capabilities facts routes j = Ok tt →
  (is_published j = true → of_kind START routes ≠ [])
  ∧ jo_capabilities j ⊆ fst <$> capabilities
  ∧ Forall (λ k, is_Some (facts !! k)) (fst <$> requirements_of j).
Proof.
  unfold check_journey. cbv zeta. rewrite <- succeeds_unit, !succeeds_seq, !succeeds_raise_if.
  intros (Hs & Hu & _ & _ & _ & _ & Hf & _). split_and!.
  - intros Hp. rewrite Hp in Hs. by destruct (of_kind START routes).
  - apply nonempty_filter in Hu. rewrite Forall_forall in Hu. intros t Ht.
    by apply Hu, negb_false_iff, bool_decide_eq_true in Ht.
  - apply nonempty_filter in Hf. eapply Forall_impl; [exact Hf|].
    intros k Hk. by apply negb_false_iff, bool_decide_eq_true in Hk.
Qed.

Lemma sorted_set_elem k xs : k ∈ sorted_set xs ↔ k ∈ xs.
Proof. unfold sorted_set. by rewrite (sorted_Permutation _), elem_of_remove_dups. Qed.

Lemma sorted_set_NoDup xs : NoDup (sorted_set xs).
Proof. unfold sorted_set. rewrite (sorted_Permutation _). apply NoDup_remove_dups. Qed.

Lemma capability_at_ok capabilities t c : capability_at capabilities t = Ok c → assoc t capabilities = Some c.
Proof. unfold capability_at. by destruct (assoc t capabilities) as [?|]; [intros [= ->]|]. Qed.

Lemma fact_at_ok facts k f : fact_at facts k = Ok f → facts !! k = Some f.
Proof. unfold fact_at. by destruct (facts !! k) as [?|]; [intros [= ->]|]. Qed.

Lemma fact_definitions_ok relevant definitions :
  mapM _fact_definition relevant = Ok definitions → definitions = _fact_description <$> relevant.
Proof.
  rewrite mapM_ok. induction 1 as [|f d fs ds Hd _ IH]; cbn; [done|].
  unfold _fact_definition in Hd. apply bind_ok in Hd as (? & _ & [= <-]). by rewrite IH.
Qed.


(** A journey that compiled: what was built of the capabilities and facts chosen for it. *)
Record CompiledJourney (str_of : pydata → string) (known : list Capability) (declared : list Fact)
    (routes : list Route) (scenarios : list Scenario) (j : Journey) (selected : list Capability)
    (relevant : list Fact) (d : ProcessDefinition) (description : JourneyDescription) : Prop := {
  cj_definition : d = journey_definition selected routes (_fact_description <$> relevant) j;
  cj_description : description = journey_description selected routes relevant scenarios j;
  cj_types : ca_action_type <$> selected = jo_capabilities j;
  cj_known : Forall (λ c, c ∈ known) selected;
  cj_declared : Forall (λ f, f ∈ declared) relevant;
  cj_scenarios : Forall (λ s, ∃ facts capabilities,
    _validate_scenario str_of j routes facts capabilities s = Ok tt) scenarios
}.

Section journey.
Context (known_zone : string → bool) (str_of : pydata → string).
Context (p : Project) (catalogue : gmap string Fact).
Context (Hcatalogue : _collect_fact_catalog p = Ok catalogue).
#[local] Abbreviation capabilities := ((λ c, (ca_action_type c, c)) <$> pr_capabilities p).

Lemma selected_ok ts selected :
  mapM (capability_at capabilities) ts = Ok selected →
  ca_action_type <$> selected = ts ∧ Forall (λ c, c ∈ pr_capabilities p) selected.
Proof.
  rewrite mapM_ok. induction 1 as [|t c ts cs Hc _ [IH1 IH2]]; [by split; constructor|].
  apply capability_at_ok, assoc_indexed in Hc as [Hin <-]. cbn. rewrite IH1. split; [done|by constructor].
Qed.

Lemma relevant_ok keys relevant :
  mapM (fact_at catalogue) keys = Ok relevant → Forall (λ f, f ∈ declared_facts p) relevant.
Proof.
  rewrite mapM_ok. induction 1 as [|k f ks fs Hf _ IH]; constructor; [|done].
  by apply fact_at_ok, (proj1 (fact_catalog_ok p catalogue Hcatalogue)) in Hf as [? _].
Qed.

Lemma compile_journey_ok routes scenarios j d description :
  compile_journey known_zone str_of capabilities catalogue routes scenarios j = Ok (d, description) →
  ∃ selected relevant, CompiledJourney str_of (pr_capabilities p) (declared_facts p) routes scenarios j
    selected relevant d description.
Proof.
  intros H. unfold compile_journey in H. apply bind_ok in H as ([] & _ & H).
  apply bind_ok in H as (selected & Hs & H). apply bind_ok in H as (relevant & Hr & H).
  apply bind_ok in H as ([] & _ & H). apply bind_ok in H as ([] & _ & H).
  apply bind_ok in H as (defs & Hd & H). apply bind_ok in H as ([] & _ & H).
  apply bind_ok in H as ([] & Hsc & [= <- <-]). apply fact_definitions_ok in Hd as ->.
  exists selected, relevant. destruct (selected_ok _ _ Hs) as [Ht Hk]. split; try done.
  - by eapply relevant_ok.
  - apply for_each_ok in Hsc. eapply Forall_impl; [exact Hsc|]. intros s Hv. do 2 eexists. exact Hv.
Qed.

(** Every fact a journey needs is in the catalogue. *)
Lemma relevant_known j routes selected k :
  Forall (λ c, c ∈ pr_capabilities p) selected → Forall (λ r, r ∈ pr_routes p) routes →
  Forall (λ k, is_Some (catalogue !! k)) (fst <$> requirements_of j) →
  k ∈ relevant_fact_keys selected routes j → is_Some (catalogue !! k).
Proof.
  intros Hs Hr Hq. unfold relevant_fact_keys. rewrite sorted_set_elem, !elem_of_app, !list_elem_of_fmap.
  rewrite Forall_forall in Hs. rewrite Forall_forall in Hr. rewrite Forall_forall in Hq.
  assert (∀ f, f ∈ declared_facts p → is_Some (catalogue !! pf_key f)) as Hin
    by apply (proj2 (fact_catalog_ok p catalogue Hcatalogue)).
  unfold declared_facts in Hin. intros [Hk|[(f & -> & Hf)|(f & -> & Hf)]].
  - apply Hq. by apply list_elem_of_fmap.
  - apply elem_of_concat in Hf as (fs & (c & -> & Hc)%list_elem_of_fmap & Hf). apply Hin.
    rewrite !elem_of_app. right. left. apply elem_of_concat. exists (ca_produces c).
    split; [by apply list_elem_of_fmap_2, Hs|done].
  - apply elem_of_concat in Hf as (fs & (r & -> & Hc)%list_elem_of_fmap & Hf). apply Hin.
    rewrite !elem_of_app. right. right. apply elem_of_concat. exists (rt_provides r).
    split; [by apply list_elem_of_fmap_2, Hr|done].
Qed.

Lemma mapM_capability_at_benign ts :
  Forall (λ t, is_Some (assoc t capabilities)) ts → raises_benign (mapM (capability_at capabilities) ts).
Proof.
  intros H. apply raises_only_mapM. intros t Ht. rewrite Forall_forall in H.
  unfold capability_at. destruct (H t Ht) as [c ->]. apply raises_only_ok.
Qed.

Lemma compile_journey_benign routes scenarios j :
  parameters_raise_value_errors (pr_capabilities p) → Forall (λ r, r ∈ pr_routes p) routes →
  raises_benign (compile_journey known_zone str_of capabilities catalogue routes scenarios j).
Proof.
  intros Hp Hr. unfold compile_journey. apply raises_only_after.
  { unfold check_journey. raises. }
  intros [] (_ & Hc & Hq)%check_journey_ok.
  assert (∀ t, t ∈ jo_capabilities j → is_Some (assoc t capabilities)) as Hk.
  { intros t Ht. by apply assoc_is_Some, Hc. }
  apply raises_only_after; [apply mapM_capability_at_benign; by apply Forall_forall|].
  intros selected [_ Hs]%selected_ok. apply raises_only_bind.
  { apply raises_only_mapM. intros k Hin. unfold fact_at.
    destruct (relevant_known j routes selected k Hs Hr Hq Hin) as [f ->]. apply raises_only_ok. }
  intros relevant. apply raises_only_bind; [apply review_configuration_benign|intros _].
  apply raises_only_bind; [apply communications_benign|intros _].
  apply raises_only_bind; [apply raises_only_mapM; intros; apply fact_definition_benign|intros defs].
  apply raises_only_bind; [apply definition_validate_benign|intros _].
  apply raises_only_bind; [|intros _; apply raises_only_ok].
  apply raises_only_for_each. intros s. by apply validate_scenario_benign.
Qed.
End journey.

(** ** A journey's description agrees with its definition *)

(** Dictionaries of the project have distinct keys, and the numbers of a fact's schema are
    finite. *)
Record Representable (p : Project) : Prop := {
  rp_schemas : Forall (λ f, json_wf (JObj (value_schema f)) = true
                            ∧ has_nan (JObj (value_schema f)) = false) (declared_facts p);
  rp_values : Forall (λ j, Forall (λ r, json_wf (fr_expected_value r) = true) (jo_complete_when j))
    (pr_journeys p)
}.

(** What the constructors checked, as far as the pack depends on it. *)
Record Constructed (p : Project) : Prop := {
  cn_capabilities : Forall (λ c, capability_post_init c = Ok tt) (pr_capabilities p);
  cn_journeys : pr_journeys p ≠ [];
  cn_requirements : Forall (λ j, Forall (λ r, has_nan (fr_expected_value r) = false) (jo_complete_when j)
                                 ∧ NoDup (fr_fact_key <$> jo_complete_when j)) (pr_journeys p)
}.

Lemma fact_requirement_ok r : fact_requirement_post_init r = Ok tt → has_nan (fr_expected_value r) = false.
Proof.
  intros H. unfold fact_requirement_post_init, canonical_json_bytes in H.
  by destruct (has_nan (fr_expected_value r)).
Qed.

Lemma project_constructed_ok p : project_constructed p = Ok tt → Constructed p.
Proof.
  intros H. unfold project_constructed in H. apply bind_ok in H as ([] & _ & H).
  apply bind_ok in H as ([] & Hc%for_each_ok & H). apply bind_ok in H as ([] & _ & H).
  apply bind_ok in H as ([] & _ & H). apply bind_ok in H as ([] & Hj%for_each_ok & H). split; [done| |].
  - unfold project_post_init in H. do 4 (apply bind_ok in H as ([] & _ & H)).
    apply raise_if_ok, negb_false_iff in H. by destruct (pr_journeys p).
  - eapply Forall_impl; [exact Hj|]. intros j Hx. apply bind_ok in Hx as ([] & Hr%for_each_ok & Hx).
    apply bind_ok in Hx as ([] & _ & Hx). split.
    + eapply Forall_impl; [exact Hr|]. apply fact_requirement_ok.
    + unfold journey_post_init in Hx. do 7 (apply bind_ok in Hx as ([] & _ & Hx)).
      by apply raise_if_ok, negb_false_iff, bool_decide_eq_true in Hx.
Qed.

Lemma described_events kind routes :
  rd_event_type <$> List.filter (λ r, bool_decide (rd_kind r = kind)) (_route_description <$> routes)
  = rt_event_type <$> of_kind kind routes.
Proof.
  unfold of_kind. induction routes as [|r routes IH]; cbn; [done|].
  case_bool_decide; cbn; by rewrite <- ?IH.
Qed.

(** The JSON of a list of facts equals itself. *)
Lemma facts_json_refl relevant :
  Forall (λ f, json_wf (JObj (value_schema f)) = true ∧ has_nan (JObj (value_schema f)) = false) relevant →
  let facts := JArr (fact_definition_json <$> (_fact_description <$> relevant)) in
  json_eqb facts facts = true.
Proof.
  intros H. assert (∀ f, f ∈ relevant → let v := fact_definition_json (_fact_description f) in
    json_wf v = true ∧ has_nan v = false) as Hf.
  { rewrite Forall_forall in H. intros f [Hw Hn]%H.
    assert (∀ ks, json_wf (strings_json ks) = true ∧ has_nan (strings_json ks) = false) as Hstrings.
    { intros ks. induction ks as [|k ks [IH1 IH2]]; [done|]. by split. }
    destruct (Hstrings (fact_kind_value <$> pf_kinds f)) as [Hk1 Hk2].
    cbn [fact_definition_json _fact_description fd_key fd_title fd_description fd_kinds fd_value_schema
         fd_operator_editable json_wf has_nan existsb snd forallb] in *.
    rewrite Hk1, Hk2, Hw, Hn. split; [|done]. vm_compute. reflexivity. }
  apply json_eqb_refl; cbn.
  - apply forallb_Forall. rewrite !Forall_fmap. apply Forall_forall. intros f Hin. by apply Hf.
  - apply existsb_false. rewrite !Forall_fmap. apply Forall_forall. intros f Hin. by apply Hf.
Qed.

Lemma requirements_refl j :
  Forall (λ r, json_wf (fr_expected_value r) = true) (jo_complete_when j) →
  Forall (λ r, has_nan (fr_expected_value r) = false) (jo_complete_when j) →
  NoDup (fr_fact_key <$> jo_complete_when j) →
  json_eqb (JObj (requirements_of j)) (JObj (requirements_of j)) = true.
Proof.
  intros Hw Hn Hnd. apply json_eqb_refl; cbn.
  - rewrite andb_true_iff. split.
    + apply bool_decide_eq_true. change (NoDup (fst <$> requirements_of j)). unfold requirements_of.
      by rewrite <- list_fmap_compose.
    + apply forallb_Forall. unfold requirements_of. by rewrite Forall_fmap.
  - apply existsb_false. unfold requirements_of. by rewrite Forall_fmap.
Qed.

Lemma journey_agrees str_of known declared routes scenarios j selected relevant d description :
  Forall (λ f, json_wf (JObj (value_schema f)) = true ∧ has_nan (JObj (value_schema f)) = false) declared →
  Forall (λ r, json_wf (fr_expected_value r) = true) (jo_complete_when j) →
  Forall (λ r, has_nan (fr_expected_value r) = false) (jo_complete_when j)
    ∧ NoDup (fr_fact_key <$> jo_complete_when j) →
  CompiledJourney str_of known declared routes scenarios j selected relevant d description →
  check_journey_agrees d description = Ok tt.
Proof.
  intros Hs Hw [Hn Hnd] [-> -> Ht _ Hd _]. rewrite <- succeeds_unit. unfold check_journey_agrees.
  rewrite !succeeds_seq, !succeeds_raise_if. unfold routed_events.
  cbn [jd_routes jd_status jd_goals jd_capabilities jd_permissions jd_completion_requirements jd_facts
       journey_description journey_definition pd_trigger_events pd_allowed_wake_events pd_status pd_goals
       pd_allowed_actions pd_integrations pd_action_permissions pd_completion_requirements pd_facts].
  rewrite !described_events, !same_set_refl, !bool_decide_true by done.
  split_and!; try done.
  - apply negb_false_iff. rewrite <- Ht, <- list_fmap_compose. apply same_set_refl.
  - apply negb_false_iff, bool_decide_eq_true. f_equal. unfold integrations_of. by rewrite <- list_fmap_compose.
  - by apply negb_false_iff, bool_decide_eq_true.
  - apply negb_false_iff. by apply requirements_refl.
  - apply negb_false_iff, facts_json_refl. rewrite Forall_forall in Hs. rewrite Forall_forall in Hd.
    apply Forall_forall. auto.
Qed.

(** ** Finding a journey, and an event's only start *)

Lemma find_by_key {A K} `{EqDecision K} (key : A → K) (xs : list A) x :
  NoDup (key <$> xs) → x ∈ xs → List.find (λ y, bool_decide (key y = key x)) xs = Some x.
Proof.
  intros Hnd Hx. induction xs as [|y xs IH]; [by apply not_elem_of_nil in Hx|].
  apply NoDup_cons in Hnd as [Hn Hnd]. cbn. case_bool_decide as E.
  - apply elem_of_cons in Hx as [->|Hx]; [done|]. destruct Hn. rewrite E. by apply list_elem_of_fmap_2.
  - apply IH; [done|]. by apply elem_of_cons in Hx as [->|Hx].
Qed.

Lemma NoDup_key_inj {A K} (key : A → K) (xs : list A) x y :
  NoDup (key <$> xs) → x ∈ xs → y ∈ xs → key x = key y → x = y.
Proof.
  induction xs as [|z xs IH]; cbn; [set_solver|]. intros [Hn Hnd]%NoDup_cons.
  rewrite !elem_of_cons. intros [->|Hx] [->|Hy] E; [done| | |by apply IH]; destruct Hn.
  - rewrite E. by apply list_elem_of_fmap_2.
  - rewrite <- E. by apply list_elem_of_fmap_2.
Qed.

(** A list of one value, however often it may be asked for. *)
Lemma at_most_one {A K} (key : A → K) (xs : list A) :
  NoDup (key <$> xs) → (∀ x y, x ∈ xs → y ∈ xs → key x = key y) → (length xs ≤ 1)%nat.
Proof.
  destruct xs as [|x [|y xs]]; cbn; [lia|lia|]. intros [Hn _]%NoDup_cons H. destruct Hn.
  rewrite (H x y) by set_solver. by left.
Qed.

Lemma filter_NoDup_key {A K} (key : A → K) (q : A → bool) (xs : list A) :
  NoDup (key <$> xs) → NoDup (key <$> List.filter q xs).
Proof.
  induction xs as [|x xs IH]; cbn; [done|]. intros [Hn Hnd]%NoDup_cons. destruct (q x); cbn; [|by apply IH].
  apply NoDup_cons. split; [|by apply IH]. rewrite list_elem_of_fmap in Hn |- *.
  intros (y & E & Hy). apply elem_of_filter_bool in Hy as [_ Hy]. by apply Hn; exists y.
Qed.

Lemma Forall2_elem_r {A B} (P : A → B → Prop) xs ys y :
  Forall2 P xs ys → y ∈ ys → ∃ x, x ∈ xs ∧ P x y.
Proof.
  induction 1 as [|x y' xs ys Hxy _ IH]; [by intros ?%not_elem_of_nil|].
  intros [->|Hy]%elem_of_cons; [exists x; split; [by left|done]|].
  destruct (IH Hy) as (x' & ? & ?). exists x'. split; [by right|done].
Qed.

Lemma Forall2_fmap_eq {A B C} (P : A → B → Prop) (f : A → C) (g : B → C) xs ys :
  Forall2 P xs ys → (∀ x y, P x y → f x = g y) → f <$> xs = g <$> ys.
Proof.
  intros H Hfg. induction H as [|x y xs ys Hxy _ IH]; [done|]. cbn. by rewrite (Hfg _ _ Hxy), IH.
Qed.

(** ** The journeys of a project *)

Section journeys.
Context (str_of : pydata → string) (p : Project).
Context (Hids : NoDup (jo_id <$> pr_journeys p)).
Context (Hstarts : NoDup (rt_event_type <$>
  List.filter (published_start (jo_id <$> List.filter is_published (pr_journeys p))) (pr_routes p))).

(** The results of the loop over the journeys. *)
Definition compiled_as (j : Journey) (r : ProcessDefinition * JourneyDescription) : Prop :=
  ∃ selected relevant,
    CompiledJourney str_of (pr_capabilities p) (declared_facts p) (routes_for (pr_routes p) (jo_id j))
      (scenarios_for (pr_scenarios p) (jo_id j)) j selected relevant (fst r) (snd r).

Context (compiled : list (ProcessDefinition * JourneyDescription)).
Context (Hcompiled : Forall2 compiled_as (pr_journeys p) compiled).

Lemma compiled_from r : r ∈ compiled → ∃ j, j ∈ pr_journeys p ∧ compiled_as j r.
Proof. by apply Forall2_elem_r. Qed.

Lemma compiled_identity j r : compiled_as j r →
  identity_of (fst r) = (jo_id j, jo_version j) ∧ journey_identity (snd r) = (jo_id j, jo_version j).
Proof. by intros (? & ? & [-> -> _ _ _ _]). Qed.

Lemma compiled_identities : identity_of <$> (fst <$> compiled) = (λ j, (jo_id j, jo_version j)) <$> pr_journeys p
  ∧ journey_identity <$> (snd <$> compiled) = (λ j, (jo_id j, jo_version j)) <$> pr_journeys p.
Proof.
  rewrite <- !list_fmap_compose. split; symmetry; apply (Forall2_fmap_eq _ _ _ _ _ Hcompiled);
    intros j r Hj; symmetry; apply (compiled_identity _ _ Hj).
Qed.

Lemma identities_NoDup : NoDup ((λ j, (jo_id j, jo_version j)) <$> pr_journeys p).
Proof.
  apply (NoDup_fmap_1 fst). rewrite <- list_fmap_compose. exact Hids.
Qed.

(** No published event starts two of the definitions. *)
Lemma compiled_unambiguous : unambiguous (fst <$> compiled).
Proof.
  intros e _. apply (at_most_one identity_of).
  { apply filter_NoDup_key. rewrite (proj1 compiled_identities). apply identities_NoDup. }
  assert (∀ d, d ∈ triggered e (fst <$> compiled) → ∃ j route, j ∈ pr_journeys p ∧
    identity_of d = (jo_id j, jo_version j) ∧ rt_journey_id route = jo_id j ∧ rt_event_type route = e ∧
    route ∈ List.filter (published_start (jo_id <$> List.filter is_published (pr_journeys p))) (pr_routes p)) as H.
  { intros d (Hd & Hs & He)%elem_of_triggered. apply list_elem_of_fmap in Hd as (r & -> & Hr).
    apply compiled_from in Hr as (j & Hj & Hc). destruct (compiled_identity _ _ Hc) as [Hi _].
    destruct Hc as (selected & relevant & [Hdef _ _ _ _ _]). rewrite Hdef in Hs, He. cbn in Hs, He.
    apply list_elem_of_fmap in He as (route & -> & Hroute).
    unfold of_kind in Hroute. apply elem_of_filter_bool in Hroute as [Hk%bool_decide_eq_true Hroute].
    unfold routes_for in Hroute. apply elem_of_filter_bool in Hroute as [Hjr%bool_decide_eq_true Hroute].
    exists j, route. split_and!; try done. apply elem_of_filter_bool. split; [|done].
    unfold published_start. rewrite Hk, Hjr, !bool_decide_true; [done| |done].
    apply list_elem_of_fmap_2, elem_of_filter_bool. split; [|done]. unfold is_published. by rewrite bool_decide_true. }
  intros d1 d2 Hd1 Hd2. apply H in Hd1 as (j1 & r1 & Hj1 & -> & E1 & Ee1 & Hr1).
  apply H in Hd2 as (j2 & r2 & Hj2 & -> & E2 & Ee2 & Hr2).
  assert (r1 = r2) as -> by (eapply (NoDup_key_inj rt_event_type); [exact Hstarts|done..|congruence]).
  assert (j1 = j2) as -> by (eapply (NoDup_key_inj jo_id); [exact Hids|done..|congruence]). done.
Qed.

(** ** The description and the definitions *)

Context (Hconstructed : Constructed p) (Hrep : Representable p).
#[local] Abbreviation description :=
  (mkProjectDescription (pr_id p) (pr_version p) (pr_title p) (pr_description p) (snd <$> compiled)).

Lemma description_finds r :
  r ∈ compiled → project_journey description (identity_of (fst r)) = Some (snd r).
Proof.
  intros Hr. destruct (compiled_from r Hr) as (j & Hj & Hc). destruct (compiled_identity _ _ Hc) as [Hi Hd].
  unfold project_journey. rewrite Hi, <- Hd. cbn [pj_journeys]. apply find_by_key.
  - rewrite <- (Permutation_rev _), (proj2 compiled_identities). apply identities_NoDup.
  - rewrite <- (Permutation_rev _). by apply list_elem_of_fmap_2.
Qed.

Lemma definitions_agree :
  for_each (λ d, match project_journey description (identity_of d) with
                 | Some j => check_journey_agrees d j
                 | None => raise KeyError (repr_pair (identity_of d))
                 end) (fst <$> compiled) = Ok tt.
Proof.
  apply for_each_ok, Forall_forall. intros d (r & -> & Hr)%list_elem_of_fmap.
  rewrite (description_finds r Hr). destruct (compiled_from r Hr) as (j & Hj & selected & relevant & Hc).
  destruct Hrep as [Hs Hv]. rewrite Forall_forall in Hv. pose proof (cn_requirements p Hconstructed) as Hq.
  rewrite Forall_forall in Hq. by eapply (journey_agrees _ _ _ _ _ _ _ _ _ _ Hs (Hv j Hj) (Hq j Hj)).
Qed.

(** ** The capabilities in use *)

Definition used_types : list string := concat (jo_capabilities <$> pr_journeys p).
Definition used : list Capability :=
  List.filter (λ c, bool_decide (ca_action_type c ∈ used_types)) (pr_capabilities p).
#[local] Abbreviation bindings := ((λ c, (ca_action_type c, ca_adapter c)) <$> used).

Lemma elem_of_used c : c ∈ used ↔ c ∈ pr_capabilities p ∧ ca_action_type c ∈ used_types.
Proof. unfold used. rewrite elem_of_filter_bool, bool_decide_eq_true. tauto. Qed.

Lemma selected_in_use r j selected relevant c :
  j ∈ pr_journeys p →
  CompiledJourney str_of (pr_capabilities p) (declared_facts p) (routes_for (pr_routes p) (jo_id j))
    (scenarios_for (pr_scenarios p) (jo_id j)) j selected relevant (fst r) (snd r) →
  c ∈ selected → c ∈ used.
Proof.
  intros Hj Hc Hin. apply elem_of_used. split.
  - pose proof (cj_known _ _ _ _ _ _ _ _ _ _ Hc) as Hk. rewrite Forall_forall in Hk. by apply Hk.
  - apply elem_of_concat. exists (jo_capabilities j). split; [by apply list_elem_of_fmap_2|].
    rewrite <- (cj_types _ _ _ _ _ _ _ _ _ _ Hc). by apply list_elem_of_fmap_2.
Qed.

(** A used capability is chosen by some journey: its type identifies it. *)
Lemma used_selected c :
  NoDup (ca_action_type <$> pr_capabilities p) → c ∈ used →
  ∃ j r selected relevant, j ∈ pr_journeys p ∧ r ∈ compiled ∧ c ∈ selected ∧
    CompiledJourney str_of (pr_capabilities p) (declared_facts p) (routes_for (pr_routes p) (jo_id j))
      (scenarios_for (pr_scenarios p) (jo_id j)) j selected relevant (fst r) (snd r).
Proof.
  intros Hnd [Hc Ht]%elem_of_used. apply elem_of_concat in Ht as (ts & (j & -> & Hj)%list_elem_of_fmap & Ht).
  destruct (Forall2_elem_r _ _ _ j (proj1 (Forall2_flip _ _ _) Hcompiled) Hj) as (r & Hr & selected & relevant & Hcj).
  exists j, r, selected, relevant. split_and!; try done.
  rewrite <- (cj_types _ _ _ _ _ _ _ _ _ _ Hcj) in Ht. apply list_elem_of_fmap in Ht as (c' & E & Hc').
  pose proof (cj_known _ _ _ _ _ _ _ _ _ _ Hcj) as Hk. rewrite Forall_forall in Hk.
  by rewrite (NoDup_key_inj ca_action_type _ c c' Hnd Hc (Hk _ Hc') E).
Qed.

Context (Htypes : NoDup (ca_action_type <$> pr_capabilities p)).

Lemma elem_of_integrations i :
  i ∈ concat ((λ d, snd <$> pd_integrations d) <$> (fst <$> compiled))
  ↔ ∃ c, c ∈ used ∧ i = adapter_id (ca_adapter c).
Proof.
  rewrite elem_of_concat. split.
  - intros (xs & (d & -> & (r & -> & Hr)%list_elem_of_fmap)%list_elem_of_fmap & Hi).
    destruct (compiled_from r Hr) as (j & Hj & selected & relevant & Hc).
    rewrite (cj_definition _ _ _ _ _ _ _ _ _ _ Hc) in Hi. cbn [pd_integrations journey_definition] in Hi.
    unfold integrations_of in Hi. rewrite <- list_fmap_compose in Hi.
    apply list_elem_of_fmap in Hi as (c & -> & Hin). exists c. split; [|done]. by eapply selected_in_use.
  - intros (c & Hu & ->). destruct (used_selected c Htypes Hu) as (j & r & selected & relevant & Hj & Hr & Hin & Hc).
    eexists. split; [by do 2 apply list_elem_of_fmap_2|].
    rewrite (cj_definition _ _ _ _ _ _ _ _ _ _ Hc). cbn [pd_integrations journey_definition].
    unfold integrations_of. rewrite <- list_fmap_compose.
    by apply (list_elem_of_fmap_2 (snd ∘ λ c, (ca_action_type c, adapter_id (ca_adapter c)))).
Qed.

Lemma elem_of_allowed t :
  t ∈ concat (pd_allowed_actions <$> (fst <$> compiled)) ↔ ∃ c, c ∈ used ∧ t = ca_action_type c.
Proof.
  rewrite elem_of_concat. split.
  - intros (xs & (d & -> & (r & -> & Hr)%list_elem_of_fmap)%list_elem_of_fmap & Ht).
    destruct (compiled_from r Hr) as (j & Hj & selected & relevant & Hc).
    rewrite (cj_definition _ _ _ _ _ _ _ _ _ _ Hc) in Ht. cbn [pd_allowed_actions journey_definition] in Ht.
    rewrite <- (cj_types _ _ _ _ _ _ _ _ _ _ Hc) in Ht. apply list_elem_of_fmap in Ht as (c & -> & Hin).
    exists c. split; [|done]. by eapply selected_in_use.
  - intros (c & Hu & ->). destruct (used_selected c Htypes Hu) as (j & r & selected & relevant & Hj & Hr & Hin & Hc).
    eexists. split; [by do 2 apply list_elem_of_fmap_2|].
    rewrite (cj_definition _ _ _ _ _ _ _ _ _ _ Hc). cbn [pd_allowed_actions journey_definition].
    rewrite <- (cj_types _ _ _ _ _ _ _ _ _ _ Hc). by apply list_elem_of_fmap_2.
Qed.

Lemma manifest_agrees m output policy_ids :
  em_adapters m = sorted_set ((λ c, adapter_id (ca_adapter c)) <$> used) → em_policies m = policy_ids →
  ot_has_to_agent_decision output = true →
  check_manifest_agrees m (fst <$> compiled) bindings output policy_ids = Ok tt.
Proof.
  intros Ha Hp Ho. rewrite <- succeeds_unit. unfold check_manifest_agrees.
  rewrite !succeeds_seq, !succeeds_raise_if, !negb_false_iff, !same_set_spec, Ha, Hp, Ho.
  split_and!; try done.
  - intros i. rewrite sorted_set_elem, elem_of_integrations, list_elem_of_fmap. naive_solver.
  - intros i. rewrite sorted_set_elem, <- !list_fmap_compose. done.
  - intros t. rewrite elem_of_allowed, <- list_fmap_compose, list_elem_of_fmap. naive_solver.
Qed.

(** ** Simulations *)

Lemma bind_simulations_ok proposed cs simulations :
  bind_simulations proposed cs = Ok simulations →
  (∀ t, t ∈ fst <$> simulations ↔ ∃ c, c ∈ cs ∧ t = ca_action_type c ∧ Some t ∈ proposed)
  ∧ (∀ a, a ∈ snd <$> simulations → ∃ c, c ∈ cs ∧ simulation_of c = Some a).
Proof.
  revert simulations. induction cs as [|c cs IH]; intros simulations H; cbn [bind_simulations] in H.
  { injection H as <-. cbn. split; [set_solver|set_solver]. }
  case_bool_decide as Hp.
  - destruct (simulation_of c) as [a|] eqn:Ea; [|done]. apply bind_ok in H as (rest & Hr & [= <-]).
    destruct (IH rest Hr) as [H1 H2]. cbn. split.
    + intros t. rewrite elem_of_cons, H1. setoid_rewrite elem_of_cons. naive_solver.
    + intros a' [->|Ha]%elem_of_cons; [exists c; split; [by left|done]|].
      destruct (H2 a' Ha) as (c' & ? & ?). exists c'. split; [by right|done].
  - destruct (IH simulations H) as [H1 H2]. split.
    + intros t. rewrite H1. setoid_rewrite elem_of_cons. naive_solver.
    + intros a Ha. destruct (H2 a Ha) as (c' & ? & ?). exists c'. split; [by right|done].
Qed.

(** Every action a validated scenario proposes is one of its journey's. *)
Lemma scenario_steps_actions j routes facts capabilities s index state steps state' :
  scenario_steps str_of j routes facts capabilities s index state steps = Ok state' →
  Forall (λ st, st_kind st = SK_ACTION → ∃ t, st_reference st = Some t ∧ t ∈ jo_capabilities j) steps.
Proof.
  revert index state. induction steps as [|st steps IH]; intros index state H; [constructor|].
  cbn [scenario_steps] in H. apply bind_ok in H as (state1 & Hst & H). constructor; [|by eapply IH].
  intros Hk. unfold scenario_step in Hst. rewrite Hk in Hst. unfold action_step in Hst.
  apply bind_ok in Hst as ([] & _ & Hst). destruct (st_reference st) as [t|]; [|done].
  apply bind_ok in Hst as ([] & Ht%raise_if_ok%negb_false_iff%bool_decide_eq_true & _). by exists t.
Qed.

Lemma validated_actions j routes facts capabilities s st :
  _validate_scenario str_of j routes facts capabilities s = Ok tt → st ∈ sc_steps s → st_kind st = SK_ACTION →
  ∃ t, st_reference st = Some t ∧ t ∈ jo_capabilities j.
Proof.
  unfold _validate_scenario. destruct (sc_steps s) as [|first rest]; [done|].
  destruct (list.last (first :: rest)); [|done]. intros H Hst Hk.
  do 2 (apply bind_ok in H as ([] & _ & H)). apply bind_ok in H as (state & Hs & _).
  apply scenario_steps_actions in Hs. rewrite Forall_forall in Hs. by apply Hs.
Qed.

Context (Hfiled : Forall (λ s, sc_journey_id s ∈ jo_id <$> pr_journeys p) (pr_scenarios p)).

Lemma elem_of_proposed x :
  x ∈ scenario_action_types p ↔ ∃ s st, s ∈ pr_scenarios p ∧ st ∈ sc_steps s ∧ st_kind st = SK_ACTION ∧ x = st_reference st.
Proof.
  unfold scenario_action_types. rewrite list_elem_of_fmap. setoid_rewrite elem_of_filter_bool.
  setoid_rewrite bool_decide_eq_true. setoid_rewrite elem_of_concat. setoid_rewrite list_elem_of_fmap. naive_solver.
Qed.

(** The journey of a scenario compiled with it. *)
Lemma scenario_journey s :
  s ∈ pr_scenarios p → ∃ j r selected relevant, j ∈ pr_journeys p ∧ r ∈ compiled
    ∧ s ∈ scenarios_for (pr_scenarios p) (jo_id j)
    ∧ CompiledJourney str_of (pr_capabilities p) (declared_facts p) (routes_for (pr_routes p) (jo_id j))
        (scenarios_for (pr_scenarios p) (jo_id j)) j selected relevant (fst r) (snd r).
Proof.
  intros Hs. rewrite Forall_forall in Hfiled. specialize (Hfiled s Hs).
  apply list_elem_of_fmap in Hfiled as (j & E & Hj).
  destruct (Forall2_elem_r _ _ _ j (proj1 (Forall2_flip _ _ _) Hcompiled) Hj) as (r & Hr & selected & relevant & Hc).
  exists j, r, selected, relevant. split_and!; try done. unfold scenarios_for.
  apply elem_of_filter_bool. by rewrite bool_decide_true.
Qed.

Lemma elem_of_described x : x ∈ described_scenario_actions description ↔ x ∈ scenario_action_types p.
Proof.
  rewrite elem_of_proposed. unfold described_scenario_actions. cbn [pj_journeys]. rewrite list_elem_of_fmap. split.
  - intros (sd & -> & Hsd). apply elem_of_filter_bool in Hsd as [Hk%bool_decide_eq_true Hsd].
    apply elem_of_concat in Hsd as (steps & (sn & -> & Hsn)%list_elem_of_fmap & Hsd).
    apply elem_of_concat in Hsn as (sns & (jd & -> & (r & -> & Hr)%list_elem_of_fmap)%list_elem_of_fmap & Hsn).
    destruct (compiled_from r Hr) as (j & Hj & selected & relevant & Hc).
    rewrite (cj_description _ _ _ _ _ _ _ _ _ _ Hc) in Hsn. cbn [jd_scenarios journey_description] in Hsn.
    apply list_elem_of_fmap in Hsn as (s & -> & Hs). unfold scenarios_for in Hs.
    apply elem_of_filter_bool in Hs as [_ Hs]. cbn [sn_steps _scenario_description] in Hsd.
    apply list_elem_of_fmap in Hsd as (st & -> & Hst). by exists s, st.
  - intros (s & st & Hs & Hst & Hk & ->).
    destruct (scenario_journey s Hs) as (j & r & selected & relevant & Hj & Hr & Hsj & Hc).
    exists (mkStepDescription (st_kind st) (st_description st) (st_reference st) (step_value_json (st_value st))).
    split; [done|]. apply elem_of_filter_bool. split; [by apply bool_decide_eq_true|].
    apply elem_of_concat. exists (sn_steps (_scenario_description s)). split.
    + apply list_elem_of_fmap_2, elem_of_concat. exists (jd_scenarios (snd r)).
      split; [by do 2 apply list_elem_of_fmap_2|].
      rewrite (cj_description _ _ _ _ _ _ _ _ _ _ Hc). by apply list_elem_of_fmap_2.
    + by apply (list_elem_of_fmap_2 (λ st, mkStepDescription (st_kind st) (st_description st)
        (st_reference st) (step_value_json (st_value st)))).
Qed.

(** A proposed action type is that of a capability in use. *)
Lemma proposed_in_use x : x ∈ scenario_action_types p → ∃ c, c ∈ used ∧ x = Some (ca_action_type c).
Proof.
  rewrite elem_of_proposed. intros (s & st & Hs & Hst & Hk & ->).
  destruct (scenario_journey s Hs) as (j & r & selected & relevant & Hj & Hr & Hsj & Hc).
  pose proof (cj_scenarios _ _ _ _ _ _ _ _ _ _ Hc) as Hv. rewrite Forall_forall in Hv.
  destruct (Hv s Hsj) as (facts & capabilities & Hval).
  destruct (validated_actions _ _ _ _ _ _ Hval Hst Hk) as (t & -> & Ht).
  rewrite <- (cj_types _ _ _ _ _ _ _ _ _ _ Hc) in Ht. apply list_elem_of_fmap in Ht as (c & -> & Hin).
  exists c. split; [by eapply selected_in_use|done].
Qed.

Lemma simulation_keys simulations :
  bind_simulations (scenario_action_types p) used = Ok simulations →
  same_set (Some <$> (fst <$> simulations)) (described_scenario_actions description) = true.
Proof.
  intros [Hk _]%bind_simulations_ok. apply same_set_spec. intros x. rewrite elem_of_described, list_elem_of_fmap.
  split.
  - intros (t & -> & Ht). apply Hk in Ht as (c & _ & _ & Hp). exact Hp.
  - intros Hx. destruct (proposed_in_use x Hx) as (c & Hu & ->). eexists. split; [done|]. apply Hk. by exists c.
Qed.

(** The adapters of the simulations are marked safe, and lack nothing of the port but the
    declaration of idempotency a simulation adapter need not make. *)
Lemma simulations_safe simulations a :
  bind_simulations (scenario_action_types p) used = Ok simulations → a ∈ snd <$> simulations →
  ao_is_simulation_adapter a = true ∧
  (not_an_adapter a = true → ∃ c, c ∈ pr_capabilities p ∧ ca_simulation_adapter c = Some a
                                  ∧ ao_guarantees_idempotency a = None).
Proof.
  intros [_ Hs]%bind_simulations_ok Ha. destruct (Hs a Ha) as (c & [Hc _]%elem_of_used & E).
  pose proof (cn_capabilities p Hconstructed) as Hok. rewrite Forall_forall in Hok. specialize (Hok c Hc).
  rewrite <- succeeds_unit in Hok. unfold capability_post_init in Hok. cbv zeta in Hok.
  apply succeeds_unit in Hok. do 4 (apply bind_ok in Hok as ([] & _ & Hok)). apply bind_ok in Hok as (m & _ & Hok).
  rewrite <- succeeds_unit, !succeeds_seq, !succeeds_raise_if in Hok.
  destruct Hok as (_ & Hid & Hidem & Hcalls & Hsim & _). unfold simulation_of in E.
  destruct (ca_simulation_adapter c) as [a'|] eqn:Ea.
  - injection E as ->. unfold simulation_adapter_check in Hsim. cbv zeta in Hsim.
    rewrite !succeeds_seq, !succeeds_raise_if in Hsim. destruct Hsim as (Hi & Hf%negb_false_iff & Hx).
    split; [done|]. intros Hn. exists c. split_and!; try done.
    unfold not_an_adapter in Hn. unfold no_id in Hi. destruct (ao_id a); [|done].
    apply orb_false_iff in Hx as [He Hl]. rewrite He, Hl in Hn. by destruct (ao_guarantees_idempotency a).
  - destruct (ao_is_simulation_adapter (ca_adapter c)) eqn:Ef; [|done]. injection E as <-. split; [done|].
    unfold not_an_adapter. unfold no_id in Hid. destruct (ao_id (ca_adapter c)); [|done].
    apply orb_false_iff in Hcalls as [He Hl]. rewrite He, Hl. apply negb_false_iff in Hidem.
    rewrite Hidem. done.
Qed.

(** ** The pack *)

Lemma compiled_nonempty : nonempty (fst <$> compiled) = true.
Proof.
  destruct compiled as [|r rs]; [|done]. apply Forall2_nil_inv_r in Hcompiled.
  by destruct (cn_journeys p Hconstructed).
Qed.

(** Why the constructor of a pack may refuse what the compiler gives it. *)
Definition refused_for_cause (tiramisu_version : string) (specifier_contains : string → string → option bool) : Prop :=
  specifier_contains (pr_tiramisu_compatibility p) tiramisu_version ≠ Some true
  ∨ ∃ c a, c ∈ pr_capabilities p ∧ ca_simulation_adapter c = Some a ∧ ao_guarantees_idempotency a = None.

Lemma project_agrees m simulations e :
  em_extension_id m = pr_id p → em_extension_version m = pr_version p →
  bind_simulations (scenario_action_types p) used = Ok simulations →
  check_project_agrees description m (fst <$> compiled) simulations = Raise e →
  exn_cls e = ClientPackError ∧
  ∃ c a, c ∈ pr_capabilities p ∧ ca_simulation_adapter c = Some a ∧ ao_guarantees_idempotency a = None.
Proof.
  intros Hi Hv Hsim H. unfold check_project_agrees in H. cbn [pj_id pj_version] in H.
  rewrite Hi, Hv, !bool_decide_true in H by done. cbn [negb orb raise_if mbind result_bind] in H.
  cbn [pj_journeys] in H. rewrite (proj1 compiled_identities), (proj2 compiled_identities), same_set_refl in H.
  cbn [negb raise_if mbind result_bind] in H. rewrite definitions_agree in H. cbn [mbind result_bind] in H.
  rewrite simulation_keys in H by done. cbn [negb raise_if mbind result_bind] in H.
  rewrite (proj2 (existsb_false (λ a, negb (ao_is_simulation_adapter a)) (snd <$> simulations))) in H.
  2: { apply Forall_forall. intros a Ha. apply negb_false_iff.
       exact (proj1 (simulations_safe simulations a Hsim Ha)). }
  cbn [raise_if mbind result_bind] in H.
  destruct (existsb not_an_adapter (snd <$> simulations)) eqn:En; [|done]. injection H as <-. split; [done|].
  apply existsb_exists in En as (a & Ha%list_elem_of_In & Hn).
  destruct (proj2 (simulations_safe simulations a Hsim Ha) Hn) as (c & ? & ? & ?). by exists c, a.
Qed.

Section assemble.
Context (dump_datetime : datetime → string) (dump_time : time → string) (tiramisu_version : string)
  (specifier_contains : string → string → option bool) (output_json_schema : GeneratedOutputType → json).

Lemma assemble_pack_raises simulations e :
  bind_simulations (scenario_action_types p) used = Ok simulations →
  assemble_pack dump_datetime dump_time tiramisu_version specifier_contains output_json_schema p
    (fst <$> compiled) (snd <$> compiled) used simulations = Raise e →
  benign (exn_cls e) = true
  ∨ exn_cls e = ClientPackError ∧ refused_for_cause tiramisu_version specifier_contains.
Proof.
  intros Hsim. unfold assemble_pack. cbv zeta. set (m := mkManifest _ _ _ _ _ _ _). set (output := output_type_of _ _).
  destruct (project_description_validate _) as [[]|e1] eqn:E1; cbn [mbind result_bind].
  2: { intros [= <-]. left. revert E1. apply (raises_only_raise_if (λ c, benign c = true)). done. }
  destruct (manifest_validate m) as [[]|e2] eqn:E2; cbn [mbind result_bind].
  2: { intros [= <-]. left. revert e2 E2. change (raises_benign (manifest_validate m)).
       unfold manifest_validate, require_unique_nonblank_identifiers. raises. }
  unfold make_client_pack.
  rewrite compiled_nonempty. cbn [negb raise_if mbind result_bind].
  destruct (check_compatible tiramisu_version specifier_contains m) as [[]|e3] eqn:E3; cbn [mbind result_bind].
  2: { intros [= <-]. right. revert E3. unfold check_compatible. cbn [em_tiramisu_compatibility m].
       destruct (specifier_contains (pr_tiramisu_compatibility p) tiramisu_version) as [[]|] eqn:Es; [done| |];
         intros [= <-]; (split; [done|]); left; by rewrite Es. }
  change (em_activities m) with (@nil string). cbn [nonempty raise_if mbind result_bind].
  change (em_process_definitions m) with (versioned_id <$> (fst <$> compiled)). rewrite same_set_refl. cbn [negb raise_if mbind result_bind].
  destruct (check_project_agrees _ m (fst <$> compiled) simulations) as [[]|e4] eqn:E4; cbn [mbind result_bind].
  2: { intros [= <-]. right. apply project_agrees in E4 as [? ?]; [|done..]. split; [done|by right]. }
  rewrite manifest_agrees by done. cbn [mbind result_bind].
  destruct (compatibility_post_init _) as [[]|e5] eqn:E5; cbn [mbind result_bind].
  2: { intros [= <-]. left. revert E5. by apply (raises_only_raise_if (λ c, benign c = true)). }
  rewrite (register_succeeds (fst <$> compiled) []).
  2: { cbn [fmap list_fmap app]. rewrite (proj1 compiled_identities). apply identities_NoDup. }
  cbn [app mbind result_bind]. rewrite (proj2 (resolves_iff _) compiled_unambiguous). done.
Qed.
End assemble.
End journeys.

(** ** Properties *)

Section compile.
Context (dump_datetime : datetime → string) (dump_time : time → string) (known_zone : string → bool)
  (str_of : pydata → string) (tiramisu_version : string) (specifier_contains : string → string → option bool)
  (output_json_schema : GeneratedOutputType → json).

(** C13: The compiler never hands the pack's constructor a composition it rejects.  Take a
    project whose parts were built by their constructors, that supports the running
    version and whose simulation adapters declare their idempotency.  Compiling it
    either returns a pack or raises for a fault of the project itself: none of the
    cross-checks between manifest, definitions, descriptions, bindings and simulations
    can fail ([ClientPackError]), no lookup in an index the compiler built fails
    ([KeyError]), no definition is registered twice and no trigger of a published
    definition is ambiguous.  (pydantic reports bad parameters as [ValueError]s;
    dictionaries have distinct keys.) *)
Theorem compiled_packs_agree p :
  project_constructed p = Ok tt → Representable p → parameters_raise_value_errors (pr_capabilities p) →
  specifier_contains (pr_tiramisu_compatibility p) tiramisu_version = Some true →
  Forall (λ c, ∀ a, ca_simulation_adapter c = Some a → is_Some (ao_guarantees_idempotency a)) (pr_capabilities p) →
  raises_only (λ c, benign c = true)
    (compile_project dump_datetime dump_time known_zone str_of tiramisu_version specifier_contains
       output_json_schema p).
Proof.
  intros Hc%project_constructed_ok Hrep Hparams Hversion Hsims. unfold compile_project. cbv zeta.
  apply raises_only_after; [apply unique_by_benign|]. intros journeys [-> Hids]%unique_by_ok.
  apply raises_only_after; [apply unique_by_benign|]. intros caps [-> Htypes]%unique_by_ok.
  apply raises_only_after; [apply unique_by_benign|]. intros scenarios [-> _]%unique_by_ok.
  apply raises_only_bind; [apply unique_by_benign|intros _].
  apply raises_only_after; [apply collect_facts_benign|]. intros catalogue Hcat.
  apply raises_only_after; [apply collect_routes_benign|].
  intros filed (Hroutes & _ & _)%collect_routes_ok; [|constructor].
  apply raises_only_after; [apply published_starts_benign|].
  intros [] Hstarts%published_starts_ok; [|constructor]. rewrite app_nil_r in Hstarts.
  rewrite snd_indexed. apply raises_only_after; [apply collect_scenarios_benign|].
  intros filed_scenarios [Hscenarios Hjourneys]%collect_scenarios_ok.
  rewrite fst_indexed in Hjourneys.
  assert (∀ j, default [] (filed !! j) = routes_for (pr_routes p) j) as Hr by (intros j; by rewrite Hroutes, lookup_empty).
  assert (∀ j, default [] (filed_scenarios !! j) = scenarios_for (pr_scenarios p) j) as Hs
    by (intros j; by rewrite Hscenarios, lookup_empty).
  apply raises_only_after.
  { apply raises_only_mapM. intros j Hj. rewrite Hr, Hs. apply compile_journey_benign; try done.
    unfold routes_for. apply Forall_forall. intros r [_ Hin]%elem_of_filter_bool. exact Hin. }
  intros compiled Hcompiled%mapM_ok. apply raises_only_bind; [by apply raises_only_raise_if|intros _].
  apply raises_only_after; [apply bind_simulations_benign|]. intros simulations Hsim.
  assert (Forall2 (compiled_as str_of p) (pr_journeys p) compiled) as Hall.
  { eapply Forall2_impl; [exact Hcompiled|]. intros j [d description] Hj. rewrite Hr, Hs in Hj.
    by eapply compile_journey_ok. }
  intros e He. destruct (assemble_pack_raises str_of p Hids Hstarts compiled Hall Hc Hrep Htypes Hjourneys
    _ _ _ _ _ simulations e Hsim He) as [?|[_ [Hv|(c & a & Hin & Ha & Hn)]]]; [done|done|].
  rewrite Forall_forall in Hsims. specialize (Hsims c Hin a Ha). rewrite Hn in Hsims. by destruct Hsims.
Qed.
End compile.

Lemma compiled_packs_agree_witness :
  raises_only (λ c, benign c = true)
    (compile_project isoformat ex_dump_time ex_known_zone (λ _, "object") "0.1.0" ex_specifier
       (λ t, strings_json (pt_name <$> gt_proposals t)) ex_project).
Proof.
  apply (compiled_packs_agree isoformat ex_dump_time ex_known_zone (λ _, "object") "0.1.0" ex_specifier
    (λ t, strings_json (pt_name <$> gt_proposals t)) ex_project).
  - vm_compute. reflexivity.
  - split.
    + apply Forall_singleton. split; vm_compute; reflexivity.
    + apply Forall_singleton, Forall_singleton. vm_compute. reflexivity.
  - intros c m parameters ->%list_elem_of_singleton [= <-]. apply raises_only_ok.
  - vm_compute. reflexivity.
  - apply Forall_singleton. intros a [=].
Defined.
