(* ===== verification/ScenarioFacts.v ===== *)
(** * What an executable scenario is

    [_validate_scenario] runs a small machine over the steps of a scenario.  [Script]
    says what it accepts without a machine: a start event, then turns - actions,
    timers, fact assertions, or a wait with the very event it waits for - and a
    completion at the end, nothing after it. *)

From stdpp Require Import base gmap list strings.
From Stdlib Require Import ZArith Lia.
From S2P Require Import Prelude Python Identifiers PyTime Json Limits Contracts DecisionPolicy Transitions Definitions Schema Session Deployment State Context Projects Packs Outputs Compiler.

#[local] Open Scope string_scope.

Section script.
Context (str_of : pydata → string) (journey : Journey) (routes : list Route) (facts : gmap string Fact)
  (capabilities : list (string * Capability)) (s : Scenario).
#[local] Abbreviation references := (references str_of facts (sc_id s)).
#[local] Abbreviation scenario_steps := (scenario_steps str_of journey routes facts capabilities s).
#[local] Abbreviation scenario_step := (scenario_step str_of journey routes facts capabilities s).

(** ** The steps *)

(** The step is event [e], with content the route of [e] provides. *)
Definition supplies (st : ScenarioStep) (e : string) : Prop :=
  st_kind st = SK_EVENT ∧ st_reference st = Some e ∧ ∃ route event,
    route_by_event routes e = Some route ∧ st_value st = EventValue event
    ∧ NoDup (sf_key <$> se_facts event)
    ∧ Forall (λ o, check_observation str_of facts s e (pf_key <$> rt_provides route) o = Ok tt) (se_facts event)
    ∧ succeeds (references (PDict (se_payload event))).

(** The step proposes an action of the journey with parameters that refer to facts or are
    valid, one that policy does not deny, approved exactly when policy asks for it. *)
Definition proposes (st : ScenarioStep) : Prop :=
  st_kind st = SK_ACTION ∧ ∃ t action c refs,
    st_reference st = Some t ∧ t ∈ jo_capabilities journey ∧ st_value st = ActionValue action
    ∧ assoc t capabilities = Some c ∧ references (PDict (sa_parameters action)) = Ok refs
    ∧ (refs = false → validate_parameters c (sa_parameters action) = Ok tt)
    ∧ let permission := default (ca_default_permission c) (assoc t (jo_permission_overrides journey)) in
      permission ≠ DENY ∧ (sa_approve action = true ↔ permission = REQUIRE_APPROVAL).

Definition awaits_event (st : ScenarioStep) (e : string) : Prop :=
  st_kind st = SK_WAIT ∧ st_value st = WaitValue (ScenarioEventWait e) ∧ e ∈ events_of routes WAKE.

Definition awaits_timer (st : ScenarioStep) : Prop :=
  st_kind st = SK_WAIT ∧ ∃ i d, st_value st = WaitValue (ScenarioTimerWait i d).

Definition asserts_fact (st : ScenarioStep) : Prop :=
  st_kind st = SK_FACT ∧ ∃ k, st_reference st = Some k ∧ is_Some (facts !! k).

(** ** Scripts *)

(** What may follow once a turn has been woken. *)
Inductive Script : list ScenarioStep → Prop :=
  | script_complete st : st_kind st = SK_COMPLETE → Script [st]
  | script_action st rest : proposes st → Script rest → Script (st :: rest)
  | script_timer st rest : awaits_timer st → Script rest → Script (st :: rest)
  | script_fact st rest : asserts_fact st → Script rest → Script (st :: rest)
  | script_event st st' e rest :
      awaits_event st e → supplies st' e → Script rest → Script (st :: st' :: rest).

Definition Playable (steps : list ScenarioStep) : Prop :=
  ∃ first rest e, steps = first :: rest ∧ supplies first e ∧ e ∈ events_of routes START ∧ Script rest.

(** ** One step of the machine *)

Abbreviation woken := (mkScript None true).

Lemma refuse_if_ok b text u : refuse_if s b text = Ok u ↔ b = false.
Proof. unfold refuse_if. apply raise_if_ok. Qed.

Lemma event_step_ok index state st state' :
  st_kind st = SK_EVENT →
  scenario_step index state st = Ok state' ↔
  state' = woken ∧ ∃ e, supplies st e ∧ (index = 0 ∨ ss_expected_event state = Some e).
Proof.
  intros Hk. unfold Compiler.scenario_step. rewrite Hk. unfold event_step, supplies.
  destruct (st_reference st) as [e|]; [|split; [done|naive_solver]].
  destruct (route_by_event routes e) as [route|] eqn:Er; [|split; [done|naive_solver]].
  destruct (st_value st) as [|event| | |] eqn:Ev; try (split; [done|naive_solver]).
  rewrite !bind_ok. setoid_rewrite refuse_if_ok. setoid_rewrite bind_ok. setoid_rewrite refuse_if_ok.
  setoid_rewrite bind_ok. setoid_rewrite bind_ok. split.
  - intros ([] & Hi & [] & Hu & [] & Hf%for_each_ok & b & Hp & [= <-]). split; [done|]. exists e.
    apply negb_false_iff, bool_decide_eq_true in Hu. split.
    + split_and!; try done. exists route, event. split_and!; try done. by exists b.
    + apply andb_false_iff in Hi as [Hi|Hi%negb_false_iff%bool_decide_eq_true]; [left|by right].
      apply Nat.ltb_ge in Hi. lia.
  - intros (-> & e' & (_ & [= <-] & route' & event' & Hroute & [= <-] & Hu & Hf & b & Hp) & Hi).
    rewrite Er in Hroute. injection Hroute as <-.
    exists tt. split.
    { apply andb_false_iff. destruct Hi as [->|Hi]; [by left|right]. rewrite Hi. by rewrite bool_decide_true. }
    exists tt. split; [apply negb_false_iff; by apply bool_decide_eq_true|].
    exists tt. split; [by apply for_each_ok|]. by exists b.
Qed.

Lemma check_parameters_ok c ps text refs u :
  check_parameters s c ps text refs = Ok u ↔ (refs = false → validate_parameters c ps = Ok tt).
Proof.
  unfold check_parameters, refuse. destruct u, refs; [done|].
  destruct (validate_parameters c ps) as [[]|e]; [naive_solver|].
  destruct (is_value_error (exn_cls e)); split; [done|naive_solver|done|naive_solver].
Qed.

(** The three permission checks together. *)
Lemma permission_checks approve permission :
  (approve && negb (bool_decide (permission = REQUIRE_APPROVAL))) = false ∧
  (bool_decide (permission = REQUIRE_APPROVAL) && negb approve) = false ∧
  bool_decide (permission = DENY) = false
  ↔ permission ≠ DENY ∧ (approve = true ↔ permission = REQUIRE_APPROVAL).
Proof. destruct approve, permission; vm_compute; intuition congruence. Qed.

Lemma action_step_ok index state st state' :
  st_kind st = SK_ACTION →
  scenario_step index state st = Ok state' ↔
  state' = mkScript (ss_expected_event state) true ∧ proposes st ∧ ss_turn_ready state = true.
Proof.
  intros Hk. unfold Compiler.scenario_step. rewrite Hk. unfold action_step, proposes.
  rewrite bind_ok. setoid_rewrite refuse_if_ok.
  destruct (st_reference st) as [t|]; [|unfold refuse; split; [naive_solver|naive_solver]].
  setoid_rewrite bind_ok. setoid_rewrite refuse_if_ok.
  destruct (st_value st) as [| |action| |] eqn:Ev; try (split; naive_solver).
  destruct (assoc t capabilities) as [c|] eqn:Ec; [|split; naive_solver].
  repeat first [setoid_rewrite bind_ok|setoid_rewrite refuse_if_ok|setoid_rewrite check_parameters_ok].
  setoid_rewrite negb_false_iff.
  setoid_rewrite bool_decide_eq_true. split.
  - intros ([] & Hr & [] & Ht & refs & Hrefs & [] & Hp & [] & H1 & [] & H2 & [] & H3 & [= <-]).
    split; [done|]. split; [|done]. split; [done|]. exists t, action, c, refs. split_and!; try done.
    + by apply (permission_checks (sa_approve action)).
    + by apply (permission_checks (sa_approve action)).
  - intros (-> & (_ & t' & action' & c' & refs & [= <-] & Ht & [= <-] & Hc & Hrefs & Hp & Hperm) & Hr).
    rewrite Ec in Hc. injection Hc as <-. apply permission_checks in Hperm as (H1 & H2 & H3). exists tt. split; [done|]. exists tt. split; [done|].
    exists refs. split; [done|]. exists tt. split; [done|]. exists tt. split; [done|]. exists tt. split; [done|].
    exists tt. split; [done|]. by destruct state.
Qed.

Lemma wait_step_ok index state st state' :
  st_kind st = SK_WAIT →
  scenario_step index state st = Ok state' ↔
  ss_turn_ready state = true ∧
  ((∃ e, awaits_event st e ∧ state' = mkScript (Some e) false)
   ∨ awaits_timer st ∧ state' = mkScript (ss_expected_event state) true).
Proof.
  intros Hk. unfold Compiler.scenario_step. rewrite Hk. unfold wait_step, awaits_event, awaits_timer, refuse.
  rewrite bind_ok. setoid_rewrite refuse_if_ok. setoid_rewrite negb_false_iff.
  destruct (st_value st) as [| | |[e|i d]|]; try (split; naive_solver).
  - repeat first [setoid_rewrite bind_ok|setoid_rewrite refuse_if_ok]. setoid_rewrite negb_false_iff.
    setoid_rewrite bool_decide_eq_true. split.
    + intros ([] & Hr & [] & He & [= <-]). split; [done|]. left. by exists e.
    + intros [Hr [(e' & (_ & [= <-] & He) & ->)|[(_ & i & d & [=]) _]]]. exists tt. split; [done|]. by exists tt.
Qed.

Lemma fact_step_ok index state st state' :
  st_kind st = SK_FACT →
  scenario_step index state st = Ok state' ↔ state' = state ∧ asserts_fact st ∧ ss_turn_ready state = true.
Proof.
  intros Hk. unfold Compiler.scenario_step. rewrite Hk. unfold fact_step, asserts_fact.
  repeat first [setoid_rewrite bind_ok|setoid_rewrite refuse_if_ok]. setoid_rewrite negb_false_iff. split.
  - intros ([] & Hr & [] & Hf & [= <-]). split; [done|]. split; [|done]. split; [done|].
    destruct (st_reference st) as [k|]; [|done]. exists k. split; [done|]. by apply bool_decide_eq_true in Hf.
  - intros (-> & (_ & k & Hk' & Hf) & Hr). exists tt. split; [done|]. exists tt. rewrite Hk'. split; [|done].
    by apply bool_decide_eq_true.
Qed.

Lemma complete_step_ok index state st state' :
  st_kind st = SK_COMPLETE →
  scenario_step index state st = Ok state' ↔
  state' = mkScript (ss_expected_event state) false ∧ ss_turn_ready state = true
  ∧ index = length (sc_steps s) - 1.
Proof.
  intros Hk. unfold Compiler.scenario_step. rewrite Hk. unfold complete_step.
  repeat first [setoid_rewrite bind_ok|setoid_rewrite refuse_if_ok]. setoid_rewrite negb_false_iff.
  setoid_rewrite Nat.eqb_eq. split.
  - intros ([] & Hr & [] & Hi & [= <-]). by destruct state.
  - intros (-> & Hr & Hi). exists tt. split; [done|]. exists tt. split; [done|]. by destruct state.
Qed.

(** ** The whole run *)

(** A turn awaits event [e]: the next step is that event or the run fails. *)
Lemma awaited index e st state' :
  0 < index → scenario_step index (mkScript (Some e) false) st = Ok state' → supplies st e ∧ state' = woken.
Proof.
  intros Hi H. destruct (st_kind st) eqn:Hk.
  - apply (event_step_ok _ _ _ _ Hk) in H as (-> & e' & Hs & [->|[= ->]]); [lia|done].
  - by apply (action_step_ok _ _ _ _ Hk) in H as (_ & _ & [=]).
  - by apply (wait_step_ok _ _ _ _ Hk) in H as ([=] & _).
  - by apply (fact_step_ok _ _ _ _ Hk) in H as (_ & _ & [=]).
  - by apply (complete_step_ok _ _ _ _ Hk) in H as (_ & [=] & _).
Qed.

Lemma runs_script n index steps state' :
  length steps <= n → 0 < index → index + length steps = length (sc_steps s) →
  (∃ final, list.last steps = Some final ∧ st_kind final = SK_COMPLETE) →
  scenario_steps index woken steps = Ok state' → Script steps.
Proof.
  revert index steps. induction n as [|n IH]; intros index steps Hn Hi Hlen (final & Hlast & Hfinal) H.
  { by destruct steps; [|cbn in Hn; lia]. }
  destruct steps as [|st rest]; [done|]. cbn [Compiler.scenario_steps] in H.
  apply bind_ok in H as (state & Hst & H). cbn [length] in Hn, Hlen.
  assert (rest = [] → st_kind st = SK_COMPLETE) as Hend by (intros ->; by injection Hlast as ->).
  assert (rest ≠ [] → ∃ final, list.last rest = Some final ∧ st_kind final = SK_COMPLETE) as Hrest.
  { intros Hne. exists final. split; [|done]. by destruct rest. }
  assert (st_kind st ≠ SK_COMPLETE → state = woken → Script rest) as Hnext.
  { intros Hk ->. apply (IH (S index)); [lia|lia|lia| |exact H]. apply Hrest. intros E. by apply Hk, Hend. }
  destruct (st_kind st) eqn:Hk.
  - apply (event_step_ok _ _ _ _ Hk) in Hst as (_ & e & _ & [->|[=]]). lia.
  - apply (action_step_ok _ _ _ _ Hk) in Hst as (-> & Hp & _). apply script_action; [done|by apply Hnext].
  - apply (wait_step_ok _ _ _ _ Hk) in Hst as (_ & [(e & Hw & ->)|[Hw ->]]).
    + destruct rest as [|st' rest]; [by specialize (Hend eq_refl)|]. cbn [Compiler.scenario_steps] in H.
      apply bind_ok in H as (state & Hst & H). apply awaited in Hst as [Hs ->]; [|lia].
      eapply script_event; [done..|]. apply (IH (S (S index))); cbn [length] in *; [lia|lia|lia| |exact H].
      destruct Hrest as (final' & Hl & Hf); [done|]. exists final'. split; [|done].
      destruct rest as [|st'' rest]; [|done]. injection Hl as <-.
      destruct Hs as [Hs _]. by rewrite Hs in Hf.
    + apply script_timer; [done|by apply Hnext].
  - apply (fact_step_ok _ _ _ _ Hk) in Hst as (-> & Hf & _). apply script_fact; [done|by apply Hnext].
  - apply (complete_step_ok _ _ _ _ Hk) in Hst as (_ & _ & ->).
    destruct rest as [|? ?]; [by constructor|]. cbn [length] in Hlen. lia.
Qed.

Lemma script_runs index steps :
  Script steps → 0 < index → index + length steps = length (sc_steps s) →
  scenario_steps index woken steps = Ok (mkScript None false)
  ∧ ∃ final, list.last steps = Some final ∧ st_kind final = SK_COMPLETE.
Proof.
  intros H. revert index. induction H as [st Hk|st rest Hp H IH|st rest Hp H IH|st rest Hp H IH|st st' e rest Hw Hs H IH];
    intros index Hi Hlen; cbn [length] in Hlen; cbn [Compiler.scenario_steps].
  - rewrite (proj2 (complete_step_ok index woken st (mkScript None false) Hk)); [|split_and!; [done..|lia]].
    split; [done|by exists st].
  - rewrite (proj2 (action_step_ok index woken st woken (proj1 Hp))) by done. cbn [mbind result_bind].
    destruct (IH (S index)) as [-> (final & Hl & Hf)]; [lia|lia|]. split; [done|]. exists final.
    split; [|done]. by destruct rest.
  - rewrite (proj2 (wait_step_ok index woken st woken (proj1 Hp))) by (split; [done|by right]).
    cbn [mbind result_bind]. destruct (IH (S index)) as [-> (final & Hl & Hf)]; [lia|lia|]. split; [done|].
    exists final. split; [|done]. by destruct rest.
  - rewrite (proj2 (fact_step_ok index woken st woken (proj1 Hp))) by done. cbn [mbind result_bind].
    destruct (IH (S index)) as [-> (final & Hl & Hf)]; [lia|lia|]. split; [done|]. exists final.
    split; [|done]. by destruct rest.
  - rewrite (proj2 (wait_step_ok index woken st (mkScript (Some e) false) (proj1 Hw)))
      by (split; [done|left; by exists e]). cbn [mbind result_bind].
    rewrite (proj2 (event_step_ok (S index) (mkScript (Some e) false) st' woken (proj1 Hs)))
      by (split; [done|]; exists e; split; [done|by right]). cbn [mbind result_bind].
    destruct (IH (S (S index))) as [-> (final & Hl & Hf)]; [lia|lia|]. split; [done|]. exists final.
    split; [|done]. by destruct rest.
Qed.

(** ** Properties *)

(** C14: The validator accepts exactly the playable scenarios.  A scenario passes
    [_validate_scenario] if and only if its first step supplies a start event of the
    journey and the others form a script: every event comes right after the wait for
    that same event, which is a wake event of the journey; every action is one of the
    journey's, with valid parameters, not denied, and approved exactly when policy
    requires approval; facts are known; and the last step, and no other, is the
    completion.  The content of every event is what its route provides. *)
Theorem validated_scenarios_are_playable :
  _validate_scenario str_of journey routes facts capabilities s = Ok tt ↔ Playable (sc_steps s).
Proof.
  unfold _validate_scenario, Playable. destruct (sc_steps s) as [|first rest] eqn:Es.
  { split; [done|]. by intros (? & ? & ? & [=] & _). }
  destruct (list.last (first :: rest)) as [final|] eqn:El; [|by apply list.last_None in El].
  unfold begins_with_start. split.
  - intros H. apply bind_ok in H as ([] & [Hk%bool_decide_eq_true Hstart]%refuse_if_ok%negb_false_iff%andb_true_iff & H).
    apply bind_ok in H as ([] & Hf%refuse_if_ok%negb_false_iff%bool_decide_eq_true & H).
    apply bind_ok in H as (state & H & _). cbn [Compiler.scenario_steps] in H.
    apply bind_ok in H as (state1 & Hst & H). apply (event_step_ok _ _ _ _ Hk) in Hst as (-> & e & Hs & _).
    exists first, rest, e. split; [done|]. split; [done|]. split.
    { destruct Hs as (_ & Hr & _). rewrite Hr in Hstart. by apply bool_decide_eq_true in Hstart. }
    apply (runs_script (length rest) 1 rest state); [done|lia|by rewrite Es| |done]. exists final.
    split; [|done]. destruct rest as [|st rest]; [|done]. injection El as <-. by rewrite Hk in Hf.
  - intros (first' & rest' & e & [= <- <-] & Hs & He & HS).
    destruct (script_runs 1 rest HS) as (Hrun & final' & Hl & Hf); [lia|by rewrite Es|].
    assert (final = final') as -> by (destruct rest; [done|]; cbn in El, Hl; congruence).
    destruct Hs as (Hk & Hr & Hsupply). rewrite Hk, Hr, Hf, !bool_decide_true by done.
    cbn [andb negb refuse_if raise_if mbind result_bind Compiler.scenario_steps].
    rewrite (proj2 (event_step_ok 0 (mkScript None false) first woken Hk)).
    + cbn [mbind result_bind]. by rewrite Hrun.
    + split; [done|]. exists e. split; [done|by left].
Qed.
End script.
