(* ===== verification/Credentials.v ===== *)
(** * [security/credentials.py], [credential_service.py] and [tenant_provisioning.py]

    Bearer credentials: how a token is written and read, and how its row is issued
    and revoked; and how tenants are created.  The random text of a secret, 43
    characters of the URL-safe alphabet, is an argument of the operations that draw
    one.  The reservation of a slug by another tenant shows only as the broken
    constraint of the insert, as row-level security hides the row. *)

From stdpp Require Import base list strings.
From Stdlib Require Import ZArith Lia Ascii String.
From S2P Require Import Prelude Python Identifiers PyTime Json Digests Contracts Schema Session Deployment.

#[local] Open Scope Z_scope.
#[local] Open Scope string_scope.

(** ** Tokens *)

Definition _TOKEN_PREFIX : string := "tiramisu_v1".

(** The pattern [[A-Za-z0-9_-]{43,128}]. *)
Definition is_secret_char (c : ascii) : bool :=
  let n := byte_val c in
  (((65 <=? n) && (n <=? 90)) || ((97 <=? n) && (n <=? 122)) || ((48 <=? n) && (n <=? 57))
   || (n =? 95) || (n =? 45))%N.
Definition is_secret (s : string) : bool :=
  ((43 <=? String.length s) && (String.length s <=? 128))%nat && all_chars is_secret_char s.

Inductive CredentialScope :=
  | EVENTS_INGEST | QUARANTINE_READ | QUARANTINE_RESOLVE | PROCESSES_READ | REVIEWS_READ
  | REVIEWS_COMMENT | REVIEWS_DECIDE | PROCESSES_CONTROL | OUTBOX_READ | OUTBOX_REQUEUE.
Definition scope_value (s : CredentialScope) : string :=
  match s with
  | EVENTS_INGEST => "events:ingest" | QUARANTINE_READ => "quarantine:read"
  | QUARANTINE_RESOLVE => "quarantine:resolve" | PROCESSES_READ => "processes:read"
  | REVIEWS_READ => "reviews:read" | REVIEWS_COMMENT => "reviews:comment"
  | REVIEWS_DECIDE => "reviews:decide" | PROCESSES_CONTROL => "processes:control"
  | OUTBOX_READ => "outbox:read" | OUTBOX_REQUEUE => "outbox:requeue"
  end.
#[export] Instance CredentialScope_eq_dec : EqDecision CredentialScope.
Proof. solve_decision. Defined.

Record ParsedCredential := mkParsedCredential {
  pcr_tenant_id : UUID; pcr_credential_id : UUID; pcr_secret : string
}.

Record IssuedCredential := mkIssuedCredential {
  ic_tenant_id : UUID;
  ic_credential_id : UUID;
  ic_actor_id : UUID;
  ic_token : string;
  ic_secret_hash : string
}.

Definition _hash_secret (secret : string) : string := sha256_hex secret.

Definition token_text (tenant_id credential_id : UUID) (secret : string) : string :=
  _TOKEN_PREFIX +:+ "." +:+ str_uuid tenant_id +:+ "." +:+ str_uuid credential_id +:+ "." +:+ secret.

(** [issue_credential] *)
Definition issue_credential (tenant_id actor_id credential_id : UUID) (secret : string) : IssuedCredential :=
  mkIssuedCredential tenant_id credential_id actor_id (token_text tenant_id credential_id secret)
    (_hash_secret secret).

Definition malformed {A} : result A := raise ValueError "credential is malformed".

Definition parse_credential (token : string) : result ParsedCredential :=
  if (512 <? py_len token)%nat then malformed
  else match split_dots token with
       | [prefix; tenant; credential; secret] =>
           if negb (bool_decide (prefix = _TOKEN_PREFIX)) then malformed
           else match parse_uuid tenant, parse_uuid credential with
                | Ok tenant_id, Ok credential_id =>
                    if negb (is_secret secret) then malformed
                    else Ok (mkParsedCredential tenant_id credential_id secret)
                | _, _ => malformed
                end
       | _ => malformed
       end.

(** [credential_secret_matches]: both sides are hexadecimal text. *)
Definition credential_secret_matches (secret expected_hash : string) : bool :=
  eqb (_hash_secret secret) expected_hash.

(** ** [TenantCredentialService] *)

(** The pattern [[a-z][a-z0-9_.:-]{0,99}]. *)
Definition is_role (s : string) : bool :=
  match s with
  | EmptyString => false
  | String c s => is_lower c && (String.length s <=? 99)%nat
      && all_chars (λ c, is_ident_char c || ((byte_val c =? 46) || (byte_val c =? 58) || (byte_val c =? 45))%N) s
  end.

(** The checks before anything is read; [expires_at] is read against the clock. *)
Definition credential_name (name : string) : result string :=
  let normalized := strip name in
  _ ← raise_if (is_empty normalized || (255 <? py_len normalized)%nat) ValueError
        "credential name must contain 1 to 255 characters";
  Ok normalized.

Definition check_scopes (scopes : list CredentialScope) : result unit :=
  _ ← raise_if (negb (nonempty scopes)) ValueError "credential requires at least one scope";
  raise_if (negb (all_unique scopes)) ValueError "credential scopes must be unique".

Definition credential_roles (roles : list string) : result (list string) :=
  let normalized := strip <$> roles in
  _ ← raise_if (negb (all_unique normalized)) ValueError "credential roles must be unique";
  _ ← raise_if (existsb (λ r, negb (is_role r)) normalized) ValueError
        "credential role has an invalid identifier";
  Ok normalized.

Definition check_expiry (expires_at : option datetime) : Tx unit :=
  match expires_at with
  | None => mret tt
  | Some d =>
      _ ← tx_raise_if (is_naive d) ValueError "credential expiry must be timezone-aware";
      now ← utcnow;
      tx_raise_if (instant d <=? now)%Z ValueError "credential expiry must be in the future"
  end.

(** [TenantCredentialService.issue] *)
Definition issue (secret : string) (tenant_id actor_id : UUID) (name : string) (scopes : list CredentialScope)
    (roles : list string) (expires_at : option datetime) : Tx IssuedCredential :=
  normalized_name ← lift_result (credential_name name);
  _ ← lift_result (check_scopes scopes);
  normalized_roles ← lift_result (credential_roles roles);
  _ ← check_expiry expires_at;
  _ ← set_tenant_context tenant_id;
  tenant ← scalar (λ t : Tenant, eqb (tn_id t) tenant_id);
  match tenant with
  | None => tx_raise TenantUnavailable (str_uuid tenant_id)
  | Some _ =>
      id ← draw_uuid;
      let issued := issue_credential tenant_id actor_id id secret in
      _ ← insert (mkTenantCredential id tenant_id actor_id normalized_name (ic_secret_hash issued)
                    (scope_value <$> scopes) normalized_roles CR_ACTIVE (instant <$> expires_at) None None);
      mret issued
  end.

Record RevokedCredential := mkRevoked { rv_credential_id : UUID; rv_revoked_at : Z }.

(** The row a revocation leaves. *)
Definition revoke_row (actor_id : UUID) (now : Z) (c : TenantCredential) : TenantCredential :=
  c <| tcr_status := CR_REVOKED |> <| tcr_revoked_at := Some now |> <| tcr_revoked_by_actor_id := Some actor_id |>.

(** [TenantCredentialService.revoke] *)
Definition revoke (tenant_id credential_id actor_id : UUID) : Tx RevokedCredential :=
  _ ← set_tenant_context tenant_id;
  credential ← scalar (λ c : TenantCredential, eqb (tcr_id c) credential_id);
  match credential with
  | None => tx_raise TenantUnavailable (str_uuid credential_id)
  | Some c =>
      if eqb (tcr_status c) CR_REVOKED then
        match tcr_revoked_at c with
        | None => tx_raise RuntimeError "revoked credential is missing its audit timestamp"
        | Some t => mret (mkRevoked (tcr_id c) t)
        end
      else
        now ← utcnow;
        _ ← update (tcr_id c) (revoke_row actor_id now);
        mret (mkRevoked (tcr_id c) now)
  end.

(** ** [TenantProvisioningService] *)

Definition LOCAL_DEVELOPMENT_TENANT_ID : UUID := uuid 1.
Definition LOCAL_DEVELOPMENT_ACTOR_ID : UUID := uuid 2.
Definition LOCAL_DEVELOPMENT_TENANT_SLUG : string := "local-fictional".
Definition LOCAL_DEVELOPMENT_TENANT_NAME : string := "Local Fictional Tenant".

Record ProvisionedTenant := mkProvisioned {
  pt_tenant_id : UUID; pt_slug : string; pt_tenant_name : string; pt_created : bool
}.

(** [_normalize_tenant_values]; the slug has the pattern of a deployment identifier. *)
Definition _normalize_tenant_values (slug name : string) : result (string * string) :=
  let normalized_slug := lower (strip slug) in
  let normalized_name := strip name in
  _ ← raise_if (negb (is_deployment_id normalized_slug)) ValueError
        ("tenant slug must contain 1 to 63 lowercase letters, digits, or hyphens, starting with a letter");
  _ ← raise_if (is_empty normalized_name || (255 <? py_len normalized_name)%nat) ValueError
        "tenant name must contain 1 to 255 characters";
  Ok (normalized_slug, normalized_name).

(** [_find_existing]: of the rows the policy shows. *)
Definition _find_existing (tenant_id : UUID) (slug : string) : Tx (option Tenant) :=
  scalar (λ t : Tenant, eqb (tn_slug t) slug || eqb (tn_id t) tenant_id).

(** [TenantProvisioningService.create]; a stored slug has no character [repr] would escape. *)
Definition create_tenant (slug name : string) (tenant_id : option UUID) : Tx ProvisionedTenant :=
  '(slug, name) ← lift_result (_normalize_tenant_values slug name);
  tenant_id ← match tenant_id with Some t => mret t | None => draw_uuid end;
  _ ← set_tenant_context tenant_id;
  existing ← _find_existing tenant_id slug;
  match existing with
  | Some e => tx_raise TenantProvisioningConflict
                ("tenant already exists with ID " +:+ str_uuid (tn_id e) +:+ " or slug '" +:+ tn_slug e +:+ "'")
  | None =>
      _ ← translate (λ e, if bool_decide (exn_cls e = IntegrityError)
                          then Some (TenantProvisioningConflict, "tenant already exists with this ID or slug")
                          else None)
            (insert (mkTenant tenant_id slug name TS_ACTIVE "unassigned"));
      mret (mkProvisioned tenant_id slug name true)
  end.

(** [TenantProvisioningService.ensure_local_development_tenant] *)
Definition ensure_local_development_tenant (tenant_id : UUID) : Tx ProvisionedTenant :=
  _ ← set_tenant_context tenant_id;
  existing ← _find_existing tenant_id LOCAL_DEVELOPMENT_TENANT_SLUG;
  match existing with
  | Some e =>
      _ ← tx_raise_if (negb (eqb (tn_id e) tenant_id) || negb (eqb (tn_slug e) LOCAL_DEVELOPMENT_TENANT_SLUG)
                       || negb (eqb (tn_name e) LOCAL_DEVELOPMENT_TENANT_NAME)) TenantProvisioningConflict
            ("the local-development tenant ID or slug is already assigned to a different "
             +:+ "tenant; choose a separate database or resolve the conflict explicitly");
      mret (mkProvisioned (tn_id e) (tn_slug e) (tn_name e) false)
  | None => create_tenant LOCAL_DEVELOPMENT_TENANT_SLUG LOCAL_DEVELOPMENT_TENANT_NAME (Some tenant_id)
  end.
