(* ===== verification/Authentication.v ===== *)
(** * [api/operator_auth.py]: who a request speaks for

    A bearer token is read, its credential looked up under the tenant it names, and
    the identity checked against the deployment; development headers are the
    explicit fallback.  The check of the credential and the check of the
    deployment run in two transactions, each of which gets its own session, as the
    database may change between them.  The credential read at a request is modelled with
    the tenants it is issued to in [Credentials.v]. *)

From stdpp Require Import base gmap list strings sets.
From Stdlib Require Import ZArith Lia Ascii String.
From S2P Require Import Prelude Python Identifiers PyTime Json Digests Contracts Schema Session Deployment Credentials.

#[local] Open Scope Z_scope.
#[local] Open Scope string_scope.

Definition _DUMMY_SECRET_HASH : string := "0000000000000000000000000000000000000000000000000000000000000000".

Record OperatorIdentity := mkIdentity {
  oi_tenant_id : UUID;
  oi_actor_id : UUID;
  oi_scopes : gset string;
  oi_roles : gset string;
  oi_credential_id : option UUID;
  oi_authentication_method : string
}.

(** [OperatorIdentity.require_scope] *)
Definition require_scope (i : OperatorIdentity) (scope : CredentialScope) : result unit :=
  raise_if (negb (bool_decide ("*" ∈ oi_scopes i)) && negb (bool_decide (scope_value scope ∈ oi_scopes i)))
    (HTTPException 403) ("credential lacks required scope: " +:+ scope_value scope).

(** [OperatorIdentity.has_role] *)
Definition has_role (i : OperatorIdentity) (role : string) : bool :=
  bool_decide ("*" ∈ oi_roles i) || bool_decide (role ∈ oi_roles i).

(** What the application was started with. *)
Inductive Environment := DEVELOPMENT | TEST | STAGING | PRODUCTION.
#[export] Instance Environment_eq_dec : EqDecision Environment.
Proof. solve_decision. Defined.
Record AppState := mkAppState {
  app_environment : Environment;
  app_allow_unsafe_development_tenant_header : bool;
  app_deployment_release : option DeploymentRelease;
  app_deployment_tenant_ids : list UUID
}.

Definition _unauthorized {A} (detail : string) : result A := raise (HTTPException 401) detail.

(** [s.partition(" ")] *)
Fixpoint partition_space (s : string) : string * bool * string :=
  match s with
  | EmptyString => (EmptyString, false, EmptyString)
  | String c s =>
      if (byte_val c =? 32)%N then (EmptyString, true, s)
      else let '(head, found, tail) := partition_space s in (String c head, found, tail)
  end.
Definition has_space (s : string) : bool := negb (all_chars (λ c, negb (byte_val c =? 32)%N) s).

(** The token of an [Authorization] header. *)
Definition bearer_token (authorization : string) : result string :=
  let '(scheme, separator, token) := partition_space authorization in
  if negb separator || negb (bool_decide (lower scheme = "bearer")) || is_empty token || has_space token
  then _unauthorized "bearer credential is malformed" else Ok token.

(** [except ValueError as error: raise _unauthorized(...) from error] *)
Definition parsed_token (token : string) : result ParsedCredential :=
  match parse_credential token with
  | Ok p => Ok p
  | Raise e => if is_value_error (exn_cls e) then _unauthorized "bearer credential is invalid" else Raise e
  end.

(** The credential of the token joined with its tenant. *)
Definition credential_rows (p : ParsedCredential) : Tx (list (TenantCredential * Tenant)) :=
  credentials ← select (λ c : TenantCredential, eqb (tcr_id c) (pcr_credential_id p)
                                                 && eqb (tcr_tenant_id c) (pcr_tenant_id p));
  tenants ← select (λ _ : Tenant, true);
  mret (c ← credentials; t ← List.filter (λ t, eqb (tn_id t) (tcr_tenant_id c)) tenants; [(c, t)]).

Definition credential_identity (c : TenantCredential) : OperatorIdentity :=
  mkIdentity (tcr_tenant_id c) (tcr_actor_id c) (list_to_set (tcr_scopes c)) (list_to_set (tcr_roles c))
    (Some (tcr_id c)) "tenant_bearer".

(** [credential.expires_at <= datetime.now(UTC)] *)
Definition credential_expired (c : TenantCredential) : Tx bool :=
  match tcr_expires_at c with
  | None => mret false
  | Some at_ => now ← utcnow; mret (at_ <=? now)%Z
  end.

(** The transaction of [_authenticate_bearer]. *)
Definition authenticate_credential (p : ParsedCredential) : Tx OperatorIdentity :=
  _ ← set_tenant_context (pcr_tenant_id p);
  rows ← credential_rows p;
  row ← one_or_none rows;
  let expected_hash := match row with Some (c, _) => tcr_secret_hash c | None => _DUMMY_SECRET_HASH end in
  let secret_valid := credential_secret_matches (pcr_secret p) expected_hash in
  match row with
  | None => tx_raise (HTTPException 401) "bearer credential is invalid"
  | Some (c, t) =>
      _ ← tx_raise_if (negb secret_valid) (HTTPException 401) "bearer credential is invalid";
      _ ← tx_raise_if (negb (eqb (tcr_status c) CR_ACTIVE)) (HTTPException 401) "bearer credential is inactive";
      expired ← credential_expired c;
      _ ← tx_raise_if expired (HTTPException 401) "bearer credential has expired";
      _ ← tx_raise_if (negb (eqb (tn_status t) TS_ACTIVE)) (HTTPException 403) "tenant is suspended";
      mret (credential_identity c)
  end.

Definition _authenticate_bearer (authorization : string) : Tx OperatorIdentity :=
  token ← lift_result (bearer_token authorization);
  parsed ← lift_result (parsed_token token);
  authenticate_credential parsed.

(** [except (TenantUnavailable, TenantNotAuthorized) as error] *)
Definition not_assigned (e : exn) : option (exn_class * string) :=
  match exn_cls e with
  | TenantUnavailable | TenantNotAuthorized =>
      Some (HTTPException 403, "tenant is not assigned to this deployment")
  | _ => None
  end.

Definition _require_deployment_assignment (app : AppState) (i : OperatorIdentity) : Tx OperatorIdentity :=
  match app_deployment_release app with
  | None => mret i
  | Some release =>
      _ ← tx_raise_if (negb (bool_decide (oi_tenant_id i ∈ app_deployment_tenant_ids app))) (HTTPException 403)
            "tenant is not in this deployment's allow-list";
      _ ← translate not_assigned (require_tenant_deployment (oi_tenant_id i) (dr_deployment_id release));
      mret i
  end.

(** [async with session_factory.begin()]: the value of a transaction in a session. *)
Definition within {A} (s : Session) (m : Tx A) : result A := '(a, _) ← m s; Ok a.

Definition unsafe_headers_enabled (app : AppState) : bool :=
  bool_decide (app_environment app = DEVELOPMENT) && app_allow_unsafe_development_tenant_header app.

(** [UUID(header)], and the response to a text that is none. *)
Definition header_uuid (detail header : string) : result UUID :=
  match parse_uuid header with
  | Ok u => Ok u
  | Raise e => if is_value_error (exn_cls e) then raise (HTTPException 400) detail else Raise e
  end.

Definition operator_from_headers (app : AppState) (tenant_header actor_header : option string)
  : result OperatorIdentity :=
  if unsafe_headers_enabled app then
    match tenant_header, actor_header with
    | Some tenant, Some actor =>
        tenant_id ← header_uuid "operator identity headers must be UUIDs" tenant;
        actor_id ← header_uuid "operator identity headers must be UUIDs" actor;
        Ok (mkIdentity tenant_id actor_id {["*"]} {["*"]} None "unsafe_development_headers")
    | _, _ => raise (HTTPException 400) "X-Tiramisu-Tenant-ID and X-Tiramisu-Actor-ID are required"
    end
  else if bool_decide (is_Some tenant_header) || bool_decide (is_Some actor_header)
  then raise (HTTPException 403) "development identity headers are disabled"
  else _unauthorized "bearer credential is required".

Section requests.
(** The sessions of the two transactions of a request. *)
Context (app : AppState) (s1 s2 : Session).

Definition require_operator_identity (authorization tenant_header actor_header : option string)
  : result OperatorIdentity :=
  i ← match authorization with
      | Some a => within s1 (_authenticate_bearer a)
      | None => operator_from_headers app tenant_header actor_header
      end;
  within s2 (_require_deployment_assignment app i).

Definition ingress_from_headers (tenant_header : option string) : result OperatorIdentity :=
  if unsafe_headers_enabled app then
    match tenant_header with
    | Some tenant =>
        tenant_id ← header_uuid "X-Tiramisu-Tenant-ID must be a UUID" tenant;
        Ok (mkIdentity tenant_id (uuid 0) {["*"]} ∅ None "unsafe_development_headers")
    | None => raise (HTTPException 400) "X-Tiramisu-Tenant-ID is required"
    end
  else if bool_decide (is_Some tenant_header)
  then raise (HTTPException 403) "development identity headers are disabled"
  else _unauthorized "bearer credential is required".

Definition require_event_ingress_identity (authorization tenant_header : option string)
  : result OperatorIdentity :=
  i ← match authorization with
      | Some a => within s1 (_authenticate_bearer a)
      | None => ingress_from_headers tenant_header
      end;
  _ ← require_scope i EVENTS_INGEST;
  within s2 (_require_deployment_assignment app i).

Definition require_process_reader (authorization tenant_header actor_header : option string)
  : result OperatorIdentity :=
  i ← require_operator_identity authorization tenant_header actor_header;
  _ ← require_scope i PROCESSES_READ;
  Ok i.
Definition require_review_reader (authorization tenant_header actor_header : option string)
  : result OperatorIdentity :=
  i ← require_operator_identity authorization tenant_header actor_header;
  _ ← require_scope i REVIEWS_READ;
  Ok i.
End requests.
