(* ===== verification/AuthenticationFacts.v ===== *)
(** * Bearer credentials authenticate whom they were issued to

    Tokens are read back as they were written; a request speaks for a tenant only
    through an active, unexpired credential of that active tenant, or through the
    development headers where they are enabled. *)

From stdpp Require Import base gmap list strings sets.
From Stdlib Require Import ZArith Lia Ascii String.
From S2P Require Import Prelude Python Identifiers PyTime Json Digests Contracts Schema Session Deployment Credentials Authentication.

#[local] Open Scope Z_scope.
#[local] Open Scope string_scope.

(** ** Tokens *)

Definition no_dot (c : ascii) : bool := negb (byte_val c =? 46)%N.

Lemma split_dots_plain s : all_chars no_dot s = true → split_dots s = [s].
Proof.
  induction s as [|c s IH]; cbn [all_chars split_dots]; [done|]. intros [Hc Hs]%andb_true_iff.
  unfold no_dot in Hc. apply negb_true_iff in Hc. by rewrite Hc, IH.
Qed.
Lemma split_dots_app s t : all_chars no_dot s = true → split_dots (s +:+ "." +:+ t) = s :: split_dots t.
Proof.
  induction s as [|c s IH]; [done|]. cbn [all_chars]. intros [Hc Hs]%andb_true_iff.
  change (String c s +:+ "." +:+ t) with (String c (s +:+ "." +:+ t)). cbn [split_dots].
  unfold no_dot in Hc. apply negb_true_iff in Hc. by rewrite Hc, IH.
Qed.

Lemma split_dots_join s : split_dots s ≠ [] ∧ join_with "." (split_dots s) = s.
Proof.
  induction s as [|c s [Hne IH]]; [done|]. cbn [split_dots]. destruct (byte_val c =? 46)%N eqn:E.
  - split; [done|]. destruct (split_dots s) as [|x xs] eqn:El; [done|].
    change (join_with "." ("" :: x :: xs)) with (String "." (join_with "." (x :: xs))). rewrite IH. f_equal.
    apply N.eqb_eq in E. unfold byte_val in E. by rewrite <- (ascii_N_embedding c), E.
  - destruct (split_dots s) as [|x xs]; [done|]. split; [done|]. transitivity (String c (join_with "." (x :: xs))); [by destruct xs|by rewrite IH].
Qed.

Lemma str_uuid_all (p : ascii → bool) u :
  (∀ m, (m < 16)%N → p (hex_digit m) = true) → p "-"%char = true → all_chars p (str_uuid u) = true.
Proof.
  intros Hp Hd. unfold str_uuid. cbv zeta. rewrite !all_chars_app, !hex_digits_all by done. cbn. by rewrite Hd.
Qed.
Lemma str_uuid_no_dot u : all_chars no_dot (str_uuid u) = true.
Proof. apply str_uuid_all; [by apply below_16|done]. Qed.

Lemma secret_chars (p : ascii → bool) s :
  (∀ c, is_secret_char c = true → p c = true) → is_secret s = true → all_chars p s = true.
Proof. intros Hp [_ Hs]%andb_true_iff. by eapply all_chars_mono. Qed.
Lemma secret_char_not c n :
  is_secret_char c = true → (n < 45 ∨ n = 46)%N → negb (byte_val c =? n)%N = true.
Proof.
  unfold is_secret_char. cbv zeta. intros H Hn. apply negb_true_iff, N.eqb_neq. intros E.
  rewrite !orb_true_iff, !andb_true_iff, !N.leb_le, !N.eqb_eq in H. lia.
Qed.

Lemma length_app_string s t : String.length (s +:+ t) = (String.length s + String.length t)%nat.
Proof. induction s as [|c s IH]; [done|]. change (String c s +:+ t) with (String c (s +:+ t)). cbn. by rewrite IH. Qed.
Lemma hex_digits_length k n acc : String.length (hex_digits k n acc) = (k + String.length acc)%nat.
Proof. revert n acc. induction k as [|k IH]; intros n acc; cbn [hex_digits]; [done|]. rewrite IH. cbn. lia. Qed.
Lemma str_uuid_length u : String.length (str_uuid u) = 36%nat.
Proof. unfold str_uuid. cbv zeta. rewrite !length_app_string, !hex_digits_length. done. Qed.

(** ** Reading a token *)

(** A token is read back as it was issued, exactly when its secret has the shape the
    program draws. *)
Lemma tokens_are_read_back tenant credential secret :
  (uuid_int tenant < 2 ^ 128)%N → (uuid_int credential < 2 ^ 128)%N →
  parse_credential (token_text tenant credential secret)
  = if is_secret secret then Ok (mkParsedCredential tenant credential secret)
    else raise ValueError "credential is malformed".
Proof.
  intros Ht Hc. unfold parse_credential. fold (malformed (A:=ParsedCredential)).
  assert (split_dots (token_text tenant credential secret)
          = _TOKEN_PREFIX :: str_uuid tenant :: str_uuid credential :: split_dots secret) as ->.
  { unfold token_text. rewrite split_dots_app by done. rewrite !split_dots_app by apply str_uuid_no_dot. done. }
  destruct (is_secret secret) eqn:Es.
  - rewrite (proj2 (Nat.ltb_ge _ _)).
    2: { etrans; [apply py_len_le_utf8|]. unfold utf8_len, token_text.
      rewrite !length_app_string, !str_uuid_length. apply andb_true_iff in Es as [[_ Hl%Nat.leb_le]%andb_true_iff _].
      cbn. lia. }
    rewrite (split_dots_plain secret) by (eapply secret_chars; [|done]; intros c Hch; apply secret_char_not; [done|lia]).
    rewrite bool_decide_true by done. cbn [negb]. by rewrite !parse_str_uuid, Es.
  - destruct (512 <? _)%nat; [done|]. destruct (split_dots_join secret) as [Hne Hj].
    destruct (split_dots secret) as [|x [|y l]]; [done| |done]. cbn in Hj. subst x.
    rewrite bool_decide_true by done. cbn [negb]. by rewrite !parse_str_uuid, Es.
Qed.

Definition no_space (c : ascii) : bool := negb (byte_val c =? 32)%N.
Lemma str_uuid_no_space u : all_chars no_space (str_uuid u) = true.
Proof. apply str_uuid_all; [by apply below_16|done]. Qed.
Lemma token_has_no_space tenant credential secret :
  is_secret secret = true → all_chars no_space (token_text tenant credential secret) = true.
Proof.
  intros Hs. unfold token_text. rewrite !all_chars_app, !str_uuid_no_space.
  rewrite (secret_chars no_space secret); [done|intros c Hc; apply secret_char_not; [done|lia]|done].
Qed.
Lemma bearer_token_of token :
  token ≠ "" → all_chars no_space token = true → bearer_token ("Bearer " +:+ token) = Ok token.
Proof.
  intros Hne Hs. unfold bearer_token, has_space. cbn [partition_space append].
  change (partition_space ("Bearer " +:+ token)) with ("Bearer", true, token). cbv iota beta.
  change (λ c, negb (byte_val c =? 32)%N) with no_space. rewrite Hs.
  unfold is_empty. rewrite (bool_decide_false (token = "")) by done. reflexivity.
Qed.

(** ** Looking a credential up *)

(** The credential [c] of the tenant [t] is the one the token proves. *)
Record Authenticates (p : ParsedCredential) (now : Z) (d : Db) (c : TenantCredential) (t : Tenant) : Prop := {
  au_stored : c ∈ tenant_credentials d;
  au_id : tcr_id c = pcr_credential_id p;
  au_tenant : tcr_tenant_id c = pcr_tenant_id p;
  au_secret : tcr_secret_hash c = sha256_hex (pcr_secret p);
  au_active : tcr_status c = CR_ACTIVE;
  au_unexpired : ∀ e, tcr_expires_at c = Some e → now < e;
  au_owner : t ∈ tenants d;
  au_owner_id : tn_id t = pcr_tenant_id p;
  au_owner_active : tn_status t = TS_ACTIVE
}.

(** The primary keys of the two tables. *)
Definition keyed (d : Db) : Prop := NoDup (tcr_id <$> tenant_credentials d) ∧ NoDup (tn_id <$> tenants d).

Lemma filter_by_key {R K} `{EqDecision K} (key : R → K) (p : R → bool) (k : K) rows :
  NoDup (key <$> rows) → (∀ r, p r = true → key r = k) →
  (List.filter p rows = [] ∧ ∀ r, r ∈ rows → p r = false)
  ∨ ∃ r, List.filter p rows = [r] ∧ r ∈ rows ∧ p r = true.
Proof.
  intros Hnd Hp. induction rows as [|r rows IH]; cbn [List.filter].
  { left. split; [done|]. intros r Hr. by apply elem_of_nil in Hr. }
  cbn in Hnd. apply NoDup_cons in Hnd as [Hn Hnd]. destruct (p r) eqn:E.
  - right. exists r. split_and!; [|left|done]. f_equal. destruct (IH Hnd) as [[? _]|(r' & _ & Hin & Hr')]; [done|].
    destruct Hn. rewrite (Hp _ E), <- (Hp _ Hr'). by apply list_elem_of_fmap_2.
  - destruct (IH Hnd) as [[-> Hf]|(r' & -> & Hin & Hr')].
    + left. split; [done|]. intros x [->|Hx]%elem_of_cons; auto.
    + right. exists r'. split_and!; [done|by right|done].
Qed.

Definition named (p : ParsedCredential) (c : TenantCredential) : bool :=
  eqb (tcr_id c) (pcr_credential_id p) && eqb (tcr_tenant_id c) (pcr_tenant_id p).

Lemma credential_rows_found p s :
  keyed (s_db s) → s_tenant s = Some (pcr_tenant_id p) →
  (credential_rows p s = Ok ([], s) ∧ ∀ now c t, ¬ Authenticates p now (s_db s) c t)
  ∨ ∃ c t, credential_rows p s = Ok ([(c, t)], s) ∧ c ∈ tenant_credentials (s_db s) ∧ t ∈ tenants (s_db s)
      ∧ tcr_id c = pcr_credential_id p ∧ tcr_tenant_id c = pcr_tenant_id p ∧ tn_id t = pcr_tenant_id p
      ∧ ∀ now c' t', Authenticates p now (s_db s) c' t' → c' = c ∧ t' = t.
Proof.
  intros [Hc Ht] Hs. unfold credential_rows.
  rewrite (tx_bind_run _ _ _ _ _ (select_run s (pcr_tenant_id p) (named p) Hs
    ltac:(intros c H; by apply andb_true_iff in H as [_ H%eqb_true]))).
  rewrite (tx_bind_run _ _ _ _ _ (select_seen s (pcr_tenant_id p) (λ _ : Tenant, true) Hs)).
  cbn [table TenantCredential_table Tenant_table].
  destruct (filter_by_key tcr_id (named p) (pcr_credential_id p) _ Hc) as [[-> Hno]|(c & -> & Hin & Hpc)].
  { intros c H. by apply andb_true_iff in H as [H%eqb_true _]. }
  { left. split; [done|]. intros now c t A.  pose proof (Hno c (au_stored _ _ _ _ _ A)) as E. unfold named in E.
    by rewrite (au_id _ _ _ _ _ A), (au_tenant _ _ _ _ _ A), !eqb_refl in E. }
  apply andb_true_iff in Hpc as [Hid%eqb_true Hten%eqb_true].
  destruct (filter_by_key tn_id (λ r, seen (pcr_tenant_id p) r && true) (pcr_tenant_id p) _ Ht)
    as [[-> Hno]|(t & -> & Htin & Hptt)].
  { intros t H. apply andb_true_iff in H as [[= E]%eqb_true _]. done. }
  { left. split; [done|]. intros now c' t A. pose proof (Hno t (au_owner _ _ _ _ _ A)) as E. unfold seen in E.
    cbn [row_tenant Tenant_table] in E. by rewrite (au_owner_id _ _ _ _ _ A), eqb_refl in E. }
  apply andb_true_iff in Hptt as [[= Htid]%eqb_true _].
  right. exists c, t. split_and!; try done.
  - cbn [mbind list_bind List.filter app]. rewrite Hten, Htid, eqb_refl. done.
  - intros now c' t' A. split.
    + refine (same_row tcr_id _ _ _ Hc _ Hin _); [apply A|]. by rewrite (au_id _ _ _ _ _ A).
    + refine (same_row tn_id _ _ _ Ht _ Htin _); [apply A|]. by rewrite (au_owner_id _ _ _ _ _ A), Htid.
Qed.

(** ** Checking it *)

Lemma credential_expired_run c s :
  ∃ s', credential_expired c s
        = Ok (match tcr_expires_at c with Some e => (e <=? s_clock s (s_reads s))%Z | None => false end, s').
Proof. unfold credential_expired. destruct (tcr_expires_at c); eexists; reflexivity. Qed.

(** The outcome [m] is the identity of the proven credential, or a refusal where there
    is none. *)
Definition decided (p : ParsedCredential) (now : Z) (d : Db) (m : result (OperatorIdentity * Session)) : Prop :=
  (∃ c t s', Authenticates p now d c t ∧ m = Ok (credential_identity c, s'))
  ∨ (∀ c t, ¬ Authenticates p now d c t)
    ∧ ∃ code detail, m = Raise (Exn (HTTPException code) detail) ∧ (code = 401 ∨ code = 403).

Lemma authenticate_credential_run p s :
  keyed (s_db s) → decided p (s_clock s (s_reads s)) (s_db s) (authenticate_credential p s).
Proof.
  intros Hk. set (now := s_clock s (s_reads s)). unfold authenticate_credential.
  set (s0 := s <| s_tenant := Some (pcr_tenant_id p) |>).
  rewrite (tx_bind_run _ _ _ _ s0) by done.
  destruct (credential_rows_found p s0 Hk eq_refl)
    as [[Hr Hno]|(c & t & Hr & Hin & Htin & Hid & Hten & Htid & Huniq)];
    rewrite (tx_bind_run _ _ _ _ _ Hr); cbn [one_or_none].
  { right. split; [by intros c t; apply Hno|]. exists 401, "bearer credential is invalid".
    split; [reflexivity|by left]. }
  rewrite (tx_bind_run _ _ _ _ s0) by done. cbv zeta.
  assert (∀ code detail m, (code = 401 ∨ code = 403) → m = Raise (Exn (HTTPException code) detail) →
    ¬ Authenticates p now (s_db s) c t → decided p now (s_db s) m) as Hrefuse.
  { intros code detail m Hcode -> Hn. right. split; [|by exists code, detail].
    intros c' t' A. by destruct (Huniq _ _ _ A) as [-> ->]. }
  destruct (credential_secret_matches (pcr_secret p) (tcr_secret_hash c)) eqn:Hsec.
  2: { apply (Hrefuse 401 "bearer credential is invalid"); [auto|done|]. intros A.
    unfold credential_secret_matches, _hash_secret in Hsec. by rewrite (au_secret _ _ _ _ _ A), eqb_refl in Hsec. }
  rewrite (tx_bind_run _ _ _ _ s0) by done.
  destruct (eqb (tcr_status c) CR_ACTIVE) eqn:Hact.
  2: { apply (Hrefuse 401 "bearer credential is inactive"); [auto|done|]. intros A.
    by rewrite (au_active _ _ _ _ _ A) in Hact. }
  rewrite (tx_bind_run _ _ _ _ s0) by done.
  destruct (credential_expired_run c s0) as [s1 Hexp]. rewrite (tx_bind_run _ _ _ _ _ Hexp).
  change (s_clock s0 (s_reads s0)) with now.
  destruct (match tcr_expires_at c with Some e => (e <=? now)%Z | None => false end) eqn:He.
  { apply (Hrefuse 401 "bearer credential has expired"); [auto|done|]. intros A.
    destruct (tcr_expires_at c) as [e|] eqn:E; [|done]. apply (au_unexpired _ _ _ _ _ A) in E.
    apply Z.leb_le in He. lia. }
  rewrite (tx_bind_run _ _ _ _ s1) by done.
  destruct (eqb (tn_status t) TS_ACTIVE) eqn:Hta.
  2: { apply (Hrefuse 403 "tenant is suspended"); [auto|done|]. intros A.
    by rewrite (au_owner_active _ _ _ _ _ A) in Hta. }
  rewrite (tx_bind_run _ _ _ _ s1) by done. left. exists c, t, s1. split; [|done].
  apply eqb_true in Hact, Hta, Hsec. split; try done.
  intros e E. rewrite E in He. apply Z.leb_gt in He. done.
Qed.

(** ** The request *)

(** The identity a request proves, before its deployment is looked at. *)
Inductive Proves (app : AppState) (now : Z) (d : Db)
  : option string → option string → option string → OperatorIdentity → Prop :=
  | proves_credential authorization token p c t tenant_header actor_header :
      bearer_token authorization = Ok token → parse_credential token = Ok p → Authenticates p now d c t →
      Proves app now d (Some authorization) tenant_header actor_header (credential_identity c)
  | proves_headers tenant actor tenant_id actor_id :
      app_environment app = DEVELOPMENT → app_allow_unsafe_development_tenant_header app = true →
      parse_uuid tenant = Ok tenant_id → parse_uuid actor = Ok actor_id →
      Proves app now d None (Some tenant) (Some actor)
        (mkIdentity tenant_id actor_id {["*"]} {["*"]} None "unsafe_development_headers").

Definition assigned_to (d : Db) (tenant_id : UUID) (deployment_id : string) : Prop :=
  ∃ t, t ∈ tenants d ∧ tn_id t = tenant_id ∧ tn_deployment_id t = deployment_id.

(** The tenant is one of the deployment's, in its settings and in the database. *)
Definition deployed_here (app : AppState) (d : Db) (tenant_id : UUID) : Prop :=
  ∀ release, app_deployment_release app = Some release →
    tenant_id ∈ app_deployment_tenant_ids app ∧ assigned_to d tenant_id (dr_deployment_id release).

Definition http_refusal (c : exn_class) : Prop :=
  ∃ code, c = HTTPException code ∧ (code = 400 ∨ code = 401 ∨ code = 403).

Lemma refuses {A} code detail : code = 400 ∨ code = 401 ∨ code = 403 → raises_only http_refusal (raise (A:=A) (HTTPException code) detail).
Proof. intros H. apply raises_only_raise. by exists code. Qed.

Lemma within_ok {A} s (m : Tx A) a : within s m = Ok a ↔ ∃ s', m s = Ok (a, s').
Proof. unfold within. destruct (m s) as [[b s']|e]; cbn; naive_solver. Qed.
Lemma within_raises {A} P s (m : Tx A) : (∀ e, m s = Raise e → P (exn_cls e)) → raises_only P (within s m).
Proof. intros H e. unfold within. destruct (m s) as [[b s']|e']; cbn; [done|]. intros [= <-]. by apply H. Qed.

Lemma bearer_token_refuses a : raises_only http_refusal (bearer_token a).
Proof.
  unfold bearer_token. destruct (partition_space a) as [[scheme sep] token].
  destruct (_ || _); [|apply raises_only_ok]. apply refuses. auto.
Qed.
Lemma parsed_token_spec t :
  (∀ p, parsed_token t = Ok p ↔ parse_credential t = Ok p) ∧ raises_only http_refusal (parsed_token t).
Proof.
  unfold parsed_token. destruct (parse_credential t) as [p|e] eqn:E.
  - split; [done|apply raises_only_ok].
  - assert (exn_cls e = ValueError) as ->.
    { unfold parse_credential, malformed in E. repeat case_match; by inversion E. }
    cbn. split; [done|]. apply refuses. auto.
Qed.
Lemma parse_uuid_raises t e : parse_uuid t = Raise e → exn_cls e = ValueError.
Proof.
  unfold parse_uuid. cbv zeta. destruct (negb _); cbn; [by intros [= <-]|]. destruct (read_hex _ _); by intros [= <-].
Qed.
Lemma header_uuid_spec detail h :
  (∀ u, header_uuid detail h = Ok u ↔ parse_uuid h = Ok u) ∧ raises_only http_refusal (header_uuid detail h).
Proof.
  unfold header_uuid. destruct (parse_uuid h) as [u|e] eqn:E; [split; [done|apply raises_only_ok]|].
  apply parse_uuid_raises in E as ->. cbn. split; [done|]. apply refuses. auto.
Qed.

Lemma bearer_spec authorization s :
  keyed (s_db s) →
  (∀ i, within s (_authenticate_bearer authorization) = Ok i ↔ ∃ token p c t,
     bearer_token authorization = Ok token ∧ parse_credential token = Ok p
     ∧ Authenticates p (s_clock s (s_reads s)) (s_db s) c t ∧ i = credential_identity c)
  ∧ raises_only http_refusal (within s (_authenticate_bearer authorization)).
Proof.
  intros Hk. unfold _authenticate_bearer, within.
  assert (∀ A (m : result A) (B : Type) (k : A → Tx B), (lift_result m ≫= k) s = a ← m; k a s) as Hl
    by by intros A [].
  rewrite !Hl. destruct (bearer_token authorization) as [token|e] eqn:Eb; cbn.
  2: { split; [intros i; split; [done|by intros (? & ? & ? & ? & ? & _)]|].
    intros e' [= <-]. by apply (bearer_token_refuses authorization). }
  rewrite Hl. destruct (parsed_token_spec token) as [Hp Href].
  destruct (parsed_token token) as [p|e] eqn:Ep; cbn.
  2: { split; [|intros e' [= <-]; by apply Href]. intros i. split; [done|].
    intros (token' & p & _ & _ & [= <-] & Hpc & _). by apply Hp in Hpc. }
  destruct (authenticate_credential_run p s Hk) as [(c & t & s' & A & ->)|(Hno & code & detail & -> & Hcode)]; cbn.
  - split; [|apply raises_only_ok]. intros i. split.
    + intros [= <-]. exists token, p, c, t. split_and!; try done. by apply Hp.
    + intros (token' & p' & c' & t' & [= <-] & Hpc & A' & ->). apply Hp in Hpc as [= <-]. f_equal. f_equal.
      refine (same_row tcr_id _ _ _ (proj1 Hk) _ _ _); [apply A|apply A'|].
      by rewrite (au_id _ _ _ _ _ A), (au_id _ _ _ _ _ A').
  - split; [|intros e' [= <-]; exists code; split; [done|tauto]]. intros i. split; [done|].
    intros (token' & p' & c' & t' & [= <-] & Hpc & A' & ->). apply Hp in Hpc as [= <-]. by destruct (Hno c' t').
Qed.

Lemma headers_spec app now d tenant_header actor_header :
  (∀ i, operator_from_headers app tenant_header actor_header = Ok i ↔ Proves app now d None tenant_header actor_header i)
  ∧ raises_only http_refusal (operator_from_headers app tenant_header actor_header).
Proof.
  unfold operator_from_headers, unsafe_headers_enabled.
  assert (∀ i, Proves app now d None tenant_header actor_header i →
    app_environment app = DEVELOPMENT ∧ app_allow_unsafe_development_tenant_header app = true
    ∧ ∃ tenant actor t a, tenant_header = Some tenant ∧ actor_header = Some actor ∧ parse_uuid tenant = Ok t
      ∧ parse_uuid actor = Ok a ∧ i = mkIdentity t a {["*"]} {["*"]} None "unsafe_development_headers") as Hinv.
  { intros i H. inversion H; subst. split_and!; [done..|]. by eexists _, _, _, _. }
  destruct (bool_decide _ && _) eqn:E.
  2: { split.
    - intros i. split; [by destruct (_ || _)|]. intros (Hd & Ha & _)%Hinv.
      by rewrite (bool_decide_true _ Hd), Ha in E.
    - destruct (_ || _); apply refuses; auto. }
  apply andb_true_iff in E as [Hd%bool_decide_eq_true Ha].
  destruct tenant_header as [tenant|]; [destruct actor_header as [actor|]|].
  2, 3: split; [intros i; split; [done|]; by intros (_ & _ & ? & ? & ? & ? & ? & ? & _)%Hinv|apply refuses; auto].
  destruct (header_uuid_spec "operator identity headers must be UUIDs" tenant) as [Ht Hrt].
  destruct (header_uuid_spec "operator identity headers must be UUIDs" actor) as [Hac Hra].
  split; [|repeat (apply raises_only_bind; [done|intros ?]); apply raises_only_ok].
  intros i. split.
  - intros (t & Hht & H)%bind_ok. apply bind_ok in H as (a & Hha & [= <-]).
    apply Ht in Hht. apply Hac in Hha. by constructor.
  - intros (_ & _ & ? & ? & t & a & [= <-] & [= <-] & Hpt & Hpa & ->)%Hinv.
    apply Ht in Hpt. apply Hac in Hpa. by rewrite Hpt, Hpa.
Qed.

Lemma tenant_deployment_run tenant deployment s :
  keyed (s_db s) →
  let m := translate not_assigned (require_tenant_deployment tenant deployment) in
  (assigned_to (s_db s) tenant deployment ∧ ∃ s', m s = Ok (tt, s'))
  ∨ (¬ assigned_to (s_db s) tenant deployment ∧ ∃ detail, m s = Raise (Exn (HTTPException 403) detail)).
Proof.
  intros [_ Hk]. cbv zeta. unfold translate, require_tenant_deployment.
  set (s0 := s <| s_tenant := Some tenant |>). rewrite (tx_bind_run _ _ s tt s0) by done.
  rewrite (tx_bind_run _ _ _ _ _ (scalar_run s0 tenant (λ t : Tenant, eqb (tn_id t) tenant) eq_refl
    ltac:(intros t H; by apply eqb_true in H))).
  cbn [table Tenant_table]. change (tenants (s_db s0)) with (tenants (s_db s)).
  destruct (filter_by_key tn_id (λ t, eqb (tn_id t) tenant) tenant _ Hk) as [[-> Hno]|(t & -> & Htin & Ht)].
  - intros t H. by apply eqb_true in H.
  - right. split; [|by eexists]. intros (t & Htin & Hid & _). specialize (Hno t Htin). cbn in Hno.
    by rewrite Hid, eqb_refl in Hno.
  - apply eqb_true in Ht. cbn [hd_error]. destruct (eqb (tn_deployment_id t) deployment) eqn:E.
    + left. apply eqb_true in E. split; [by exists t|]. eexists. by rewrite tx_raise_if_run.
    + right. split; [|by eexists]. intros (t' & Htin' & Hid & Hdep).
      assert (t' = t) as -> by (refine (same_row tn_id _ _ _ Hk Htin' Htin _); congruence).
      by rewrite Hdep, eqb_refl in E.
Qed.

Lemma assignment_spec app i s :
  keyed (s_db s) →
  (∀ j, within s (_require_deployment_assignment app i) = Ok j ↔ j = i ∧ deployed_here app (s_db s) (oi_tenant_id i))
  ∧ raises_only http_refusal (within s (_require_deployment_assignment app i)).
Proof.
  intros Hk. unfold _require_deployment_assignment, deployed_here, within.
  destruct (app_deployment_release app) as [release|].
  2: { split; [|apply raises_only_ok]. intros j. split; [intros [= <-]; done|by intros [-> _]]. }
  set (tenant := oi_tenant_id i). destruct (bool_decide (tenant ∈ _)) eqn:Hin; cbn [negb].
  2: { apply bool_decide_eq_false in Hin. split; [|apply refuses; auto]. intros j. split; [done|].
    intros [_ H]. by destruct (H release eq_refl) as [? _]. }
  apply bool_decide_eq_true in Hin. rewrite (tx_bind_run _ _ s tt s) by done.
  destruct (tenant_deployment_run tenant (dr_deployment_id release) s Hk) as [[Ha [s' E]]|[Hn [detail E]]].
  - rewrite (tx_bind_run _ _ _ _ _ E). split; [|apply raises_only_ok]. intros j. cbn.
    split; [intros [= <-]|by intros [-> _]]. split; [done|]. by intros r [= <-].
  - unfold mbind, Tx_bind. rewrite E. cbn. split; [|intros e [= <-]; exists 403; auto].
    intros j. split; [done|]. intros [_ H]. by destruct (H release eq_refl) as [_ ?].
Qed.

(** ** Properties *)

(** C6: The API speaks to a tenant for nobody else.  A request is answered with an
    identity exactly when it proves it - by a bearer token that names an active,
    unexpired credential stored with the hash of the token's secret under an active
    tenant, in which case the identity is the credential's tenant, actor, scopes and
    roles; or by two well-formed development headers, with no authorization header, in a
    development environment that enables them - and when the tenant is, at the second
    transaction, assigned to the deployment the API runs under and on its allow-list.
    Every other request, malformed or not, is refused with status 400, 401 or 403: no
    other error leaves the check. *)
Theorem operators_are_whom_they_prove app s1 s2 authorization tenant_header actor_header :
  keyed (s_db s1) → keyed (s_db s2) →
  (∀ i, require_operator_identity app s1 s2 authorization tenant_header actor_header = Ok i ↔
     Proves app (s_clock s1 (s_reads s1)) (s_db s1) authorization tenant_header actor_header i
     ∧ deployed_here app (s_db s2) (oi_tenant_id i))
  ∧ raises_only http_refusal (require_operator_identity app s1 s2 authorization tenant_header actor_header).
Proof.
  intros H1 H2. unfold require_operator_identity.
  assert (∃ m, (match authorization with Some a => within s1 (_authenticate_bearer a)
                | None => operator_from_headers app tenant_header actor_header end) = m
    ∧ (∀ i, m = Ok i ↔ Proves app (s_clock s1 (s_reads s1)) (s_db s1) authorization tenant_header actor_header i)
    ∧ raises_only http_refusal m) as (m & -> & Hm & Hr).
  { eexists. split; [reflexivity|]. destruct authorization as [a|]; [|apply headers_spec].
    destruct (bearer_spec a s1 H1) as [Hb Hr]. split; [|exact Hr]. intros i. rewrite Hb. split.
    - intros (token & p & c & t & ? & ? & ? & ->). by econstructor.
    - intros P. inversion P; subst. by eexists _, _, _, _. }
  split.
  - intros i. rewrite bind_ok. setoid_rewrite Hm. split.
    + intros (i' & P & Ha). apply (assignment_spec app i' s2 H2) in Ha as [-> Ha]. done.
    + intros [P Ha]. exists i. split; [done|]. by apply (assignment_spec app i s2 H2).
  - apply raises_only_bind; [exact Hr|]. intros i. apply (assignment_spec app i s2 H2).
Qed.

(** ** Examples *)

Definition ex_secret : string := "0123456789abcdefghijklmnopqrstuvwxyzABCDEFG".
Definition ex_credential : TenantCredential := mkTenantCredential (uuid 3) (uuid 1) (uuid 2) "ci" (sha256_hex ex_secret)
  ["processes:read"] ["reviewer"] CR_ACTIVE (Some (days 30)) None None.
Definition ex_security_db : Db := empty_db
  <| tenants := [mkTenant (uuid 1) "acme" "Acme" TS_ACTIVE "acme"] |> <| tenant_credentials := [ex_credential] |>.
Definition ex_security_session (now : Z) (d : Db) : Session := mkSession d None now (λ _, now) 0 (λ n, uuid (N.of_nat n + 50)) 0.
Definition ex_app : AppState := mkAppState PRODUCTION false
  (Some (mkRelease "acme" "b" "c" "gpt-4o" "r" "tiramisu.acme.r")) [uuid 1].
Definition ex_authorization : string := "bearer " +:+ token_text (uuid 1) (uuid 3) ex_secret.

Example ex_authenticates :
  within (ex_security_session (days 10) ex_security_db) (_authenticate_bearer ex_authorization)
  = Ok (mkIdentity (uuid 1) (uuid 2) {["processes:read"]} {["reviewer"]} (Some (uuid 3)) "tenant_bearer").
Proof. vm_compute. reflexivity. Qed.
Example ex_expired :
  within (ex_security_session (days 30) ex_security_db) (_authenticate_bearer ex_authorization)
  = raise (HTTPException 401) "bearer credential has expired".
Proof. vm_compute. reflexivity. Qed.

Lemma ex_security_keyed : keyed ex_security_db.
Proof. split; apply NoDup_singleton. Qed.

Lemma operators_are_whom_they_prove_witness :
  let s := ex_security_session (days 10) ex_security_db in
  ∃ i, Proves ex_app (days 10) ex_security_db (Some ex_authorization) None None i ∧ deployed_here ex_app ex_security_db (uuid 1).
Proof.
  intros s. destruct (operators_are_whom_they_prove ex_app s s (Some ex_authorization) None None
    ex_security_keyed ex_security_keyed) as [H _].
  exists (mkIdentity (uuid 1) (uuid 2) {["processes:read"]} {["reviewer"]} (Some (uuid 3)) "tenant_bearer").
  apply (H (mkIdentity (uuid 1) (uuid 2) {["processes:read"]} {["reviewer"]} (Some (uuid 3)) "tenant_bearer")).
  vm_compute. reflexivity.
Defined.
