(* ===== verification/System.v ===== *)
(** * The services together

    Every transaction of the modelled services, as one transition system over the
    database, and the law each of them keeps for every table: which columns no service
    rewrites, and which rows are final.  A row is never deleted, an append-only table only
    grows, a process keeps its identity and its pins and is final once terminal, and an
    event, an outbox message, an approval, an attempt and an intervention are final once
    they are matched, published, decided, settled and resolved. *)

From stdpp Require Import base gmap list strings sets relations.
From Stdlib Require Import ZArith Lia.
From S2P Require Import Prelude Python PyTime Json Limits Contracts DecisionPolicy Transitions Definitions Communications Schema Session State Budgets CommunicationSafety Reviews Control Ingestion IngestionFacts Quarantine Deployment Outbox OutboxFacts Gateway GatewayFacts Execution Reconciliation ExecutionFacts Tenancy Credentials.

#[local] Open Scope Z_scope.

(** ** The law of a row *)

(** [law r r']: a service may leave [r'] in place of [r]. *)
Class Lawful (R : Type) `{TableLaws R} := {
  law : R → R → Prop;
  law_preorder :: PreOrder law;
  law_id : ∀ r r', law r r' → row_id r' = row_id r;
  law_key : ∀ r r' s s', law r r' → law s s' → same_key s' r' = same_key s r
}.

(** The row [r'] has the columns of [r] and, once [final] holds of it, is [r]. *)
Definition settles {R C} (columns : R → C) (final : R → bool) (r r' : R) : Prop :=
  columns r' = columns r ∧ (final r = true → r' = r).

Lemma settles_preorder {R C} (columns : R → C) final : PreOrder (settles columns final).
Proof.
  split; [by intros r|]. intros r1 r2 r3 [C1 F1] [C2 F2]. split; [congruence|]. intros F.
  pose proof (F1 F) as ->. by apply F2.
Qed.

Definition never {R} (_ : R) : bool := false.

#[export] Instance ActionRevision_lawful : Lawful ActionRevision.
Proof. apply (Build_Lawful _ _ _ eq); [apply _|congruence|by intros r ? s ? -> ->]. Defined.
#[export] Instance ActionPolicyRecord_lawful : Lawful ActionPolicyRecord.
Proof. apply (Build_Lawful _ _ _ eq); [apply _|congruence|by intros r ? s ? -> ->]. Defined.
#[export] Instance ActionReconciliationDecision_lawful : Lawful ActionReconciliationDecision.
Proof. apply (Build_Lawful _ _ _ eq); [apply _|congruence|by intros r ? s ? -> ->]. Defined.
#[export] Instance ReviewMessage_lawful : Lawful ReviewMessage.
Proof. apply (Build_Lawful _ _ _ eq); [apply _|congruence|by intros r ? s ? -> ->]. Defined.
#[export] Instance ApprovalDecision_lawful : Lawful ApprovalDecision.
Proof. apply (Build_Lawful _ _ _ eq); [apply _|congruence|by intros r ? s ? -> ->]. Defined.
#[export] Instance ModelUsageLedger_lawful : Lawful ModelUsageLedger.
Proof. apply (Build_Lawful _ _ _ eq); [apply _|congruence|by intros r ? s ? -> ->]. Defined.
#[export] Instance CircuitBreaker_lawful : Lawful CircuitBreaker.
Proof. apply (Build_Lawful _ _ _ eq); [apply _|congruence|by intros r ? s ? -> ->]. Defined.
#[export] Instance ProcessStateRevision_lawful : Lawful ProcessStateRevision.
Proof. apply (Build_Lawful _ _ _ eq); [apply _|congruence|by intros r ? s ? -> ->]. Defined.
#[export] Instance ProcessControlCommand_lawful : Lawful ProcessControlCommand.
Proof. apply (Build_Lawful _ _ _ eq); [apply _|congruence|by intros r ? s ? -> ->]. Defined.
#[export] Instance ExternalCorrelation_lawful : Lawful ExternalCorrelation.
Proof. apply (Build_Lawful _ _ _ eq); [apply _|congruence|by intros r ? s ? -> ->]. Defined.
#[export] Instance OutboxRecoveryCommand_lawful : Lawful OutboxRecoveryCommand.
Proof. apply (Build_Lawful _ _ _ eq); [apply _|congruence|by intros r ? s ? -> ->]. Defined.
#[export] Instance EventResolutionCommand_lawful : Lawful EventResolutionCommand.
Proof. apply (Build_Lawful _ _ _ eq); [apply _|congruence|by intros r ? s ? -> ->]. Defined.
#[export] Instance TenantSafetyEvent_lawful : Lawful TenantSafetyEvent.
Proof. apply (Build_Lawful _ _ _ eq); [apply _|congruence|by intros r ? s ? -> ->]. Defined.
#[export] Instance TenantDeploymentEvent_lawful : Lawful TenantDeploymentEvent.
Proof. apply (Build_Lawful _ _ _ eq); [apply _|congruence|by intros r ? s ? -> ->]. Defined.

Ltac settled_key :=
  intros r r' s s' [[=] _] [[=] _]; cbn; unfold same_source_event, same_dedup, same_turn_key, same_approval, same_idempotency, same_attempt_number, same_thread,
    same_intervention; congruence.

Definition tenant_columns (r : Tenant) :=
  (tn_id r, tn_slug r, tn_name r).
#[export] Instance Tenant_lawful : Lawful Tenant.
Proof.
  apply (Build_Lawful _ _ _ (settles tenant_columns never));
    [apply settles_preorder|by intros r r' [[=] _]|settled_key].
Defined.

Definition credential_columns (r : TenantCredential) :=
  (tcr_id r, tcr_tenant_id r, tcr_actor_id r, tcr_name r, tcr_secret_hash r, tcr_scopes r, tcr_roles r,
   tcr_expires_at r).
#[export] Instance TenantCredential_lawful : Lawful TenantCredential.
Proof.
  apply (Build_Lawful _ _ _ (settles credential_columns (λ c, eqb (tcr_status c) CR_REVOKED)));
    [apply settles_preorder|by intros r r' [[=] _]|settled_key].
Defined.

Definition event_columns (r : EventInbox) :=
  (ei_id r, ei_tenant_id r, ei_source r, ei_source_event_id r, ei_event_type r, ei_event_data r,
   ei_received_at r, ei_created_at r).
#[export] Instance EventInbox_lawful : Lawful EventInbox.
Proof.
  apply (Build_Lawful _ _ _ (settles event_columns (λ e, eqb (ei_correlation_status e) CS_MATCHED)));
    [apply settles_preorder|by intros r r' [[=] _]|settled_key].
Defined.

Definition message_columns (r : OutboxMessage) :=
  (om_id r, om_tenant_id r, om_process_instance_id r, om_causation_event_id r, om_message_type
   r, om_destination r, om_deduplication_key r, om_payload r, om_created_at r).
#[export] Instance OutboxMessage_lawful : Lawful OutboxMessage.
Proof.
  apply (Build_Lawful _ _ _ (settles message_columns (λ m, eqb (om_status m) OB_PUBLISHED)));
    [apply settles_preorder|by intros r r' [[=] _]|settled_key].
Defined.

Definition request_columns (r : ActionRequest) :=
  (ar_id r, ar_tenant_id r, ar_process_instance_id r, ar_agent_turn_id r, ar_logical_action_key
   r, ar_action_type r, ar_process_definition_version r, ar_supersedes_action_request_id r,
   ar_current_revision r, ar_created_at r).
#[export] Instance ActionRequest_lawful : Lawful ActionRequest.
Proof.
  apply (Build_Lawful _ _ _ (settles request_columns never));
    [apply settles_preorder|by intros r r' [[=] _]|settled_key].
Defined.

Definition approval_columns (r : ApprovalRequest) :=
  (apq_id r, apq_tenant_id r, apq_process_instance_id r, apq_action_request_id r, apq_revision
   r, apq_payload_hash r, apq_required_role r, apq_expires_at r, apq_created_at r).
#[export] Instance ApprovalRequest_lawful : Lawful ApprovalRequest.
Proof.
  apply (Build_Lawful _ _ _ (settles approval_columns (λ a, negb (eqb (apq_status a) AP_PENDING))));
    [apply settles_preorder|by intros r r' [[=] _]|settled_key].
Defined.

Definition attempt_columns (r : ActionAttempt) :=
  (aa_id r, aa_tenant_id r, aa_process_instance_id r, aa_action_request_id r, aa_revision r,
   aa_attempt_number r, aa_idempotency_key r, aa_adapter_id r, aa_started_at r, aa_created_at r).
#[export] Instance ActionAttempt_lawful : Lawful ActionAttempt.
Proof.
  apply (Build_Lawful _ _ _ (settles attempt_columns (λ a, is_settled_attempt (aa_status a))));
    [apply settles_preorder|by intros r r' [[=] _]|settled_key].
Defined.

Definition thread_columns (r : ReviewThread) :=
  (rt_id r, rt_tenant_id r, rt_process_instance_id r, rt_approval_request_id r, rt_created_at r).
#[export] Instance ReviewThread_lawful : Lawful ReviewThread.
Proof.
  apply (Build_Lawful _ _ _ (settles thread_columns (λ t, negb (eqb (rt_status t) TH_OPEN))));
    [apply settles_preorder|by intros r r' [[=] _]|settled_key].
Defined.

Definition intervention_columns (r : ProcessIntervention) :=
  (pv_id r, pv_tenant_id r, pv_process_instance_id r, pv_agent_turn_id r, pv_kind r,
   pv_error_type r, pv_error r, pv_source_event_ids r, pv_source_review_command_ids r,
   pv_source_action_attempt_ids r, pv_source_timer_ids r, pv_created_at r).
#[export] Instance ProcessIntervention_lawful : Lawful ProcessIntervention.
Proof.
  apply (Build_Lawful _ _ _ (settles intervention_columns (λ v, eqb (pv_status v) IS_RESOLVED)));
    [apply settles_preorder|by intros r r' [[=] _]|settled_key].
Defined.

(** A process keeps its identity and the release it was created under, and its version
    never goes back. *)
Definition process_columns (r : ProcessInstance) :=
  (pi_id r, pi_tenant_id r, pi_process_type r, pi_definition_version r,
   pi_extension_manifest_hash r, pi_client_pack_fingerprint r, pi_process_definition_fingerprint
   r, pi_deployment_id r, pi_deployment_release_fingerprint r, pi_temporal_task_queue r,
   pi_workflow_id r, pi_current_run_id r, pi_created_at r).
Definition process_law (p p' : ProcessInstance) : Prop :=
  settles process_columns (λ p, is_terminal (pi_status p)) p p' ∧ pi_state_version p <= pi_state_version p'.
#[export] Instance ProcessInstance_lawful : Lawful ProcessInstance.
Proof.
  apply (Build_Lawful _ _ _ process_law); [|by intros r r' [[[=] _] _]|intros r r' s s' [Hr _] [Hs _]; revert Hr Hs; revert r r' s s'; settled_key].
  pose proof (settles_preorder process_columns (λ p, is_terminal (pi_status p))) as [Hr Ht].
  split; [intros p; split; [apply Hr|lia]|]. intros p1 p2 p3 [S1 V1] [S2 V2]. split; [by eapply Ht|lia].
Defined.

(** ** The law of the database *)

(** Every row of [d] is in [d'], in its place, with what the law lets a service change. *)
Definition evolves (R : Type) `{Lawful R} (d d' : Db) : Prop :=
  ∃ old new, table d' = old ++ new ∧ Forall2 law (table d) old.

(** The primary key, the unique keys and the foreign keys of a table. *)
Definition distinct {R} `{Table R} (r s : R) : Prop := row_id r ≠ row_id s ∧ same_key s r = false.
Record well_formed (R : Type) `{Table R} (d : Db) : Prop := {
  keys_unique : ForallOrdPairs distinct (table (R:=R) d);
  parents_present : integral R d
}.

(** What holds of every table. *)
Definition all_tables (P : ∀ R `{Lawful R}, Prop) : Prop :=
  P Tenant
  ∧ P ProcessInstance
  ∧ P EventInbox
  ∧ P OutboxMessage
  ∧ P ActionRequest
  ∧ P ActionRevision
  ∧ P ActionPolicyRecord
  ∧ P ApprovalRequest
  ∧ P ActionAttempt
  ∧ P ActionReconciliationDecision
  ∧ P ReviewThread
  ∧ P ReviewMessage
  ∧ P ApprovalDecision
  ∧ P ModelUsageLedger
  ∧ P CircuitBreaker
  ∧ P ProcessStateRevision
  ∧ P ProcessIntervention
  ∧ P ProcessControlCommand
  ∧ P ExternalCorrelation
  ∧ P OutboxRecoveryCommand
  ∧ P EventResolutionCommand
  ∧ P TenantSafetyEvent
  ∧ P TenantDeploymentEvent
  ∧ P TenantCredential.

Definition sound (d : Db) : Prop := all_tables (λ R _ _ _, well_formed R d).
Definition evolved (d d' : Db) : Prop := all_tables (λ R _ _ _, evolves R d d').
(** The constraints of the tables are kept, and every table evolves by its law. *)
Definition lawful (d d' : Db) : Prop := sound d → evolved d d' ∧ sound d'.

Section pairs.
Context {A : Type} (P : A → A → Prop).

Lemma ordered_snoc xs x : ForallOrdPairs P xs → Forall (λ y, P y x) xs → ForallOrdPairs P (xs ++ [x]).
Proof.
  induction 1 as [|y ys Hy _ IH]; cbn; intros Hx; [repeat constructor|]. apply Forall_cons in Hx as [Hyx Hx].
  constructor; [|by apply IH]. apply Forall_app. split; [done|by constructor].
Qed.
Lemma ordered_map (g : A → A) xs :
  (∀ x y, x ∈ xs → y ∈ xs → P x y → P (g x) (g y)) → ForallOrdPairs P xs → ForallOrdPairs P (g <$> xs).
Proof.
  intros Hg H. induction H as [|y ys Hy _ IH]; cbn; constructor.
  - apply Forall_fmap, Forall_forall. intros z Hz. rewrite Forall_forall in Hy.
    apply Hg; [apply list_elem_of_here|by apply list_elem_of_further|by apply Hy].
  - apply IH. intros a b Ha Hb. by apply Hg; apply list_elem_of_further.
Qed.
End pairs.

Section table.
Context (R : Type) `{Lawful R}.

Lemma evolves_same d d' : table (R:=R) d' = table d → evolves R d d'.
Proof.
  intros E. exists (table d), []. rewrite app_nil_r. split; [done|].
  apply Forall_Forall2_diag, Forall_forall. reflexivity.
Qed.
Lemma evolves_trans d1 d2 d3 : evolves R d1 d2 → evolves R d2 d3 → evolves R d1 d3.
Proof.
  intros (o1 & n1 & E1 & F1) (o2 & n2 & E2 & F2). rewrite E1 in F2.
  apply Forall2_app_inv_l in F2 as (o2' & n1' & F2 & _ & ->). exists o2', (n1' ++ n2). rewrite app_assoc.
  split; [done|]. by transitivity o1.
Qed.
Lemma evolves_snoc d r : evolves R d (set_table (table d ++ [r]) d).
Proof.
  exists (table d), [r]. rewrite table_set. split; [done|]. apply Forall_Forall2_diag, Forall_forall. reflexivity.
Qed.
Lemma evolves_map d (g : R → R) : (∀ r, r ∈ table d → law r (g r)) → evolves R d (set_table (g <$> table d) d).
Proof.
  intros Hg. exists (g <$> table d), []. rewrite table_set, app_nil_r. split; [done|].
  apply Forall2_fmap_r, Forall_Forall2_diag, Forall_forall. apply Hg.
Qed.

(** A row has a successor. *)
Lemma evolves_row d d' r : evolves R d d' → r ∈ table d → ∃ r', r' ∈ table d' ∧ law r r'.
Proof.
  intros (old & new & E & F) [i Hi]%list_elem_of_lookup. destruct (Forall2_lookup_l _ _ _ _ _ F Hi) as (r' & Hr' & Hl).
  exists r'. split; [|done]. rewrite E. apply elem_of_app. left. by eapply list_elem_of_lookup_2.
Qed.
Lemma evolves_exists d d' (q : R → bool) :
  evolves R d d' → (∀ r r', law r r' → q r = true → q r' = true) →
  existsb q (table d) = true → existsb q (table d') = true.
Proof.
  intros He Hq (r & Hin & Hr)%existsb_exists. apply list_elem_of_In in Hin.
  destruct (evolves_row _ _ _ He Hin) as (r' & Hin' & Hl). apply existsb_exists. exists r'.
  rewrite <- list_elem_of_In. split; [done|by eapply Hq].
Qed.

Lemma unique_ids d : ForallOrdPairs distinct (table (R:=R) d) → NoDup (row_id <$> table (R:=R) d).
Proof.
  induction 1 as [|r rs Hr _ IH]; cbn; constructor; [|done]. rewrite list_elem_of_fmap. intros (s & E & Hs).
  rewrite Forall_forall in Hr. by destruct (Hr s Hs).
Qed.
Lemma unique_snoc s r :
  violates s r = false → ForallOrdPairs distinct (table (R:=R) (s_db s)) →
  ForallOrdPairs distinct (table (R:=R) (s_db s) ++ [r]).
Proof.
  intros Hv Hu. apply ordered_snoc; [done|]. unfold violates in Hv.
  apply orb_false_iff in Hv as [[[_ Hk]%orb_false_iff _]%orb_false_iff _].
  apply Forall_forall. intros r' Hr'. rewrite <- not_true_iff_false, existsb_exists in Hk. split.
  - intros E. apply Hk. exists r'. rewrite <- list_elem_of_In, E, eqb_refl. done.
  - apply not_true_iff_false. intros E. apply Hk. exists r'. rewrite <- list_elem_of_In, E, orb_true_r. done.
Qed.
Lemma unique_map d (g : R → R) :
  (∀ r, r ∈ table d → law r (g r)) → ForallOrdPairs distinct (table (R:=R) d) →
  ForallOrdPairs distinct (g <$> table (R:=R) d).
Proof.
  intros Hg. apply ordered_map. intros r s Hr Hs [Hid Hkey]. specialize (Hg r Hr) as Lr. specialize (Hg s Hs) as Ls.
  split; [by rewrite (law_id _ _ Lr), (law_id _ _ Ls)|by rewrite (law_key _ _ _ _ Lr Ls)].
Qed.
End table.

Ltac every_table :=
  unfold lawful, evolved, sound, all_tables in *;
  repeat match goal with H : _ ∧ _ |- _ => destruct H end;
  repeat match goal with |- _ ∧ _ => split end.

(** ** Foreign keys stay *)

(** What the foreign keys of a row name stays where it is. *)
Class Rooted (R : Type) `{Table R} :=
  parents_stay : ∀ d d' (r : R), evolved d d' → parents_exist d r = true → parents_exist d' r = true.

Lemma andb_mono a b a' b' : (a = true → a' = true) → (b = true → b' = true) → a && b = true → a' && b' = true.
Proof. intros Ha Hb [A B]%andb_true_iff. by rewrite Ha, Hb. Qed.

Ltac found_again := match goal with
  | |- existsb (A:=?R) _ _ = true → _ => refine (evolves_exists R _ _ _ _ _); [assumption|];
      first [intros ? ? <-; done|intros ? ? [[=] _] ?; congruence|intros ? ? [[[=] _] _] ?; congruence]
  end.
Ltac root_table :=
  intros d d' r He; every_table; cbn; unfold process_exists, tenant_exists, request_exists, revision_exists;
  repeat match goal with
  | |- context [match ?o with Some _ => _ | None => _ end] => destruct o
  | |- _ && _ = true → _ => apply andb_mono
  end; try done; try found_again.
#[export] Instance Tenant_rooted : Rooted Tenant.
Proof. root_table. Qed.
#[export] Instance ProcessInstance_rooted : Rooted ProcessInstance.
Proof. root_table. Qed.
#[export] Instance EventInbox_rooted : Rooted EventInbox.
Proof. root_table. Qed.
#[export] Instance OutboxMessage_rooted : Rooted OutboxMessage.
Proof. root_table. Qed.
#[export] Instance ActionRequest_rooted : Rooted ActionRequest.
Proof. root_table. Qed.
#[export] Instance ActionRevision_rooted : Rooted ActionRevision.
Proof. root_table. Qed.
#[export] Instance ActionPolicyRecord_rooted : Rooted ActionPolicyRecord.
Proof. root_table. Qed.
#[export] Instance ApprovalRequest_rooted : Rooted ApprovalRequest.
Proof. root_table. Qed.
#[export] Instance ActionAttempt_rooted : Rooted ActionAttempt.
Proof. root_table. Qed.
#[export] Instance ActionReconciliationDecision_rooted : Rooted ActionReconciliationDecision.
Proof. root_table. Qed.
#[export] Instance ReviewThread_rooted : Rooted ReviewThread.
Proof. root_table. Qed.
#[export] Instance ReviewMessage_rooted : Rooted ReviewMessage.
Proof. root_table. Qed.
#[export] Instance ApprovalDecision_rooted : Rooted ApprovalDecision.
Proof. root_table. Qed.
#[export] Instance ModelUsageLedger_rooted : Rooted ModelUsageLedger.
Proof. root_table. Qed.
#[export] Instance CircuitBreaker_rooted : Rooted CircuitBreaker.
Proof. root_table. Qed.
#[export] Instance ProcessStateRevision_rooted : Rooted ProcessStateRevision.
Proof. root_table. Qed.
#[export] Instance ProcessIntervention_rooted : Rooted ProcessIntervention.
Proof. root_table. Qed.
#[export] Instance ProcessControlCommand_rooted : Rooted ProcessControlCommand.
Proof. root_table. Qed.
#[export] Instance ExternalCorrelation_rooted : Rooted ExternalCorrelation.
Proof. root_table. Qed.
#[export] Instance OutboxRecoveryCommand_rooted : Rooted OutboxRecoveryCommand.
Proof. root_table. Qed.
#[export] Instance EventResolutionCommand_rooted : Rooted EventResolutionCommand.
Proof. root_table. Qed.
#[export] Instance TenantSafetyEvent_rooted : Rooted TenantSafetyEvent.
Proof. root_table. Qed.
#[export] Instance TenantDeploymentEvent_rooted : Rooted TenantDeploymentEvent.
Proof. root_table. Qed.
#[export] Instance TenantCredential_rooted : Rooted TenantCredential.
Proof. root_table. Qed.

Lemma evolved_trans d1 d2 d3 : evolved d1 d2 → evolved d2 d3 → evolved d1 d3.
Proof. intros H1 H2. every_table; by eapply evolves_trans. Qed.

#[export] Instance lawful_preorder : PreOrder lawful.
Proof.
  split.
  - intros d Hs. split; [|done]. every_table; by apply evolves_same.
  - intros d1 d2 d3 H1 H2 Hs. destruct (H1 Hs) as [E1 S1]. destruct (H2 S1) as [E2 S2].
    split; [by eapply evolved_trans|done].
Qed.

(** ** Writing one table *)

(** The table [R] is written by its law, with its keys, and the others stay. *)
Class Listed (R : Type) `{Lawful R} := {
  listed_sound : ∀ d, sound d → well_formed R d;
  listed_evolved : ∀ d rs, evolves R d (set_table rs d) → evolved d (set_table rs d);
  listed_rooted :: Rooted R;
  listed : ∀ d rs, evolves R d (set_table rs d) →
    (sound d → ForallOrdPairs distinct rs ∧ Forall (λ r, parents_exist d r = true) rs) → lawful d (set_table rs d)
}.

Lemma parents_kept R `{Table R} `{!Rooted R} d d' :
  evolved d d' → integral R d → table (R:=R) d' = table d → integral R d'.
Proof. intros He Hi E. unfold integral in *. rewrite E. eapply Forall_impl; [exact Hi|]. intros r. by apply parents_stay. Qed.

Lemma listed_by R `{Lawful R} `{!Rooted R} d rs :
  evolved d (set_table rs d) → ForallOrdPairs distinct rs → Forall (λ r, parents_exist d r = true) rs →
  well_formed R (set_table rs d).
Proof.
  intros He Hk Hp. split; unfold integral; rewrite table_set; [done|]. eapply Forall_impl; [exact Hp|].
  intros r. by apply parents_stay.
Qed.
Lemma other_table R `{Table R} `{!Rooted R} d d' :
  evolved d d' → table (R:=R) d' = table d → well_formed R d → well_formed R d'.
Proof. intros He E [Hk Hp]. split; [by rewrite E|by eapply parents_kept]. Qed.

Ltac list_table :=
  split; [intros d Hs; every_table; assumption
         |intros d rs Hev; every_table; first [exact Hev|apply evolves_same; reflexivity]
         |apply _
         |intros d rs Hev Hok Hs; assert (evolved d (set_table rs d)) as He
            by (every_table; first [exact Hev|apply evolves_same; reflexivity]);
          split; [exact He|]; destruct (Hok Hs) as [Hk Hp]; unfold sound, all_tables in Hs |- *;
          repeat match goal with H : _ ∧ _ |- _ => destruct H end; repeat match goal with |- _ ∧ _ => split end;
          first [exact (listed_by _ d _ He Hk Hp)|refine (other_table _ d _ He _ _); [reflexivity|assumption]]].
#[export] Instance Tenant_listed : Listed Tenant.
Proof. list_table. Qed.
#[export] Instance ProcessInstance_listed : Listed ProcessInstance.
Proof. list_table. Qed.
#[export] Instance EventInbox_listed : Listed EventInbox.
Proof. list_table. Qed.
#[export] Instance OutboxMessage_listed : Listed OutboxMessage.
Proof. list_table. Qed.
#[export] Instance ActionRequest_listed : Listed ActionRequest.
Proof. list_table. Qed.
#[export] Instance ActionRevision_listed : Listed ActionRevision.
Proof. list_table. Qed.
#[export] Instance ActionPolicyRecord_listed : Listed ActionPolicyRecord.
Proof. list_table. Qed.
#[export] Instance ApprovalRequest_listed : Listed ApprovalRequest.
Proof. list_table. Qed.
#[export] Instance ActionAttempt_listed : Listed ActionAttempt.
Proof. list_table. Qed.
#[export] Instance ActionReconciliationDecision_listed : Listed ActionReconciliationDecision.
Proof. list_table. Qed.
#[export] Instance ReviewThread_listed : Listed ReviewThread.
Proof. list_table. Qed.
#[export] Instance ReviewMessage_listed : Listed ReviewMessage.
Proof. list_table. Qed.
#[export] Instance ApprovalDecision_listed : Listed ApprovalDecision.
Proof. list_table. Qed.
#[export] Instance ModelUsageLedger_listed : Listed ModelUsageLedger.
Proof. list_table. Qed.
#[export] Instance CircuitBreaker_listed : Listed CircuitBreaker.
Proof. list_table. Qed.
#[export] Instance ProcessStateRevision_listed : Listed ProcessStateRevision.
Proof. list_table. Qed.
#[export] Instance ProcessIntervention_listed : Listed ProcessIntervention.
Proof. list_table. Qed.
#[export] Instance ProcessControlCommand_listed : Listed ProcessControlCommand.
Proof. list_table. Qed.
#[export] Instance ExternalCorrelation_listed : Listed ExternalCorrelation.
Proof. list_table. Qed.
#[export] Instance OutboxRecoveryCommand_listed : Listed OutboxRecoveryCommand.
Proof. list_table. Qed.
#[export] Instance EventResolutionCommand_listed : Listed EventResolutionCommand.
Proof. list_table. Qed.
#[export] Instance TenantSafetyEvent_listed : Listed TenantSafetyEvent.
Proof. list_table. Qed.
#[export] Instance TenantDeploymentEvent_listed : Listed TenantDeploymentEvent.
Proof. list_table. Qed.
#[export] Instance TenantCredential_listed : Listed TenantCredential.
Proof. list_table. Qed.

(** ** Transactions that keep a relation *)

(** What the transaction leaves is related to what it found. *)
Definition preserves {A} (r : relation Db) (m : Tx A) : Prop := ∀ s a s', m s = Ok (a, s') → r (s_db s) (s_db s').

(** What a statement does to its table. *)
Definition inserts {R} `{Table R} (rel : relation Db) (r : R) : Prop :=
  ∀ s, violates s r = false → rel (s_db s) (set_table (table (s_db s) ++ [r]) (s_db s)).
Definition updates {R} `{Table R} (rel : relation Db) (f : R → R) : Prop :=
  ∀ d (q : R → bool), rel d (set_table ((λ r, if q r then f r else r) <$> table d) d).

Section preserving.
Context (rel : relation Db) `{!PreOrder rel}.

Lemma preserves_reads {A} t (m : Tx A) : reads_only t m → preserves rel m.
Proof. intros Hm s a s' E. apply Hm in E as [-> _]. reflexivity. Qed.
Lemma preserves_bind {A B} (m : Tx A) (k : A → Tx B) : preserves rel m → (∀ a, preserves rel (k a)) → preserves rel (m ≫= k).
Proof. intros Hm Hk s b s' (a & s1 & H1 & H2)%tx_bind_ok. etrans; [by eapply Hm|by eapply Hk]. Qed.
Lemma preserves_draw : preserves rel draw_uuid.
Proof. intros s a s' [_ ->]%draw_uuid_ok. cbn. reflexivity. Qed.
Lemma preserves_now : preserves rel transaction_now.
Proof. intros s a s' [_ ->]%transaction_now_ok. reflexivity. Qed.
Lemma preserves_translate {A} tbl (m : Tx A) : preserves rel m → preserves rel (translate tbl m).
Proof. intros Hm s a s' E%translate_ok. exact (Hm s a s' E). Qed.
Lemma preserves_insert {R} `{TableLaws R} (r : R) : inserts rel r → preserves rel (insert r).
Proof. intros Hi s u s' [Hv ->]%insert_ok. exact (Hi s Hv). Qed.
Lemma preserves_insert_or_skip {R} `{TableLaws R} named (r : R) : inserts rel r → preserves rel (insert_or_skip named r).
Proof.
  intros Hi s o s' [(_ & _ & ->)|(_ & _ & [Hv ->]%insert_ok)]%insert_or_skip_ok; [reflexivity|exact (Hi s Hv)].
Qed.
Lemma preserves_update {R} `{TableLaws R} id (f : R → R) : updates rel f → preserves rel (update id f).
Proof. intros Hu s u s' ->%update_ok. apply Hu. Qed.
End preserving.


(** [P] holds of what the transaction leaves if it held of what it found. *)
Definition holds_on (P : Db → Prop) (d d' : Db) : Prop := P d → P d'.
#[export] Instance holds_on_preorder P : PreOrder (holds_on P).
Proof. split; unfold holds_on; intros d; auto. Qed.

Lemma lawful_insert {R} `{Listed R} (r : R) : inserts lawful r.
Proof.
  intros s Hv. apply listed; [apply evolves_snoc|]. intros Hs. destruct (listed_sound _ Hs) as [Hk Hp].
  split; [by apply unique_snoc|]. apply Forall_app. split; [exact Hp|]. constructor; [|constructor].
  unfold violates in Hv. apply orb_false_iff in Hv as [[_ Hv%negb_false_iff]%orb_false_iff _]. done.
Qed.

Lemma lawful_map {R} `{Listed R} (g : R → R) d :
  (sound d → ∀ r, r ∈ table d → law r (g r)) →
  (sound d → ∀ r, r ∈ table d → parents_exist d r = true → parents_exist d (g r) = true) →
  lawful d (set_table (g <$> table d) d).
Proof.
  intros Hg Hp Hs. specialize (Hg Hs). specialize (Hp Hs). revert Hs. apply listed; [by apply evolves_map|]. intros Hs.
  destruct (listed_sound _ Hs) as [Hk Hi]. split; [by apply (unique_map R d g)|].
  apply Forall_fmap, Forall_forall. intros r Hr. unfold integral in Hi. rewrite Forall_forall in Hi. auto.
Qed.

Lemma lawful_update {R} `{Listed R} (f : R → R) :
  (∀ r, law r (f r)) → (∀ d r, parents_exist d (f r) = parents_exist d r) → updates lawful f.
Proof.
  intros Hf Hp d q. apply lawful_map; intros _ r _; destruct (q r); [done|reflexivity|by rewrite Hp|done].
Qed.

(** ** Updates of a row that was checked *)

(** The transaction is lawful where [P] holds: what a query has found, and nothing
    removes. *)
Definition preserves_with {A} (P : Db → Prop) (m : Tx A) : Prop :=
  ∀ s a s', P (s_db s) → m s = Ok (a, s') → lawful (s_db s) (s_db s').
(** The row is in its table. *)
Definition has {R} `{Table R} (x : R) (d : Db) : Prop := x ∈ table d.

Section checked.
Context (P : Db → Prop).

Lemma with_done {A} (m : Tx A) : preserves lawful m → preserves_with P m.
Proof. intros Hm s a s' _. apply Hm. Qed.
Lemma with_bind {A B} (m : Tx A) (k : A → Tx B) :
  preserves (holds_on P) m → preserves lawful m → (∀ a, preserves_with P (k a)) → preserves_with P (m ≫= k).
Proof.
  intros Hs Hm Hk s b s' Hx (a & s1 & E1 & E2)%tx_bind_ok. etrans; [by eapply Hm|]. eapply Hk; [|exact E2].
  exact (Hs _ _ _ E1 Hx).
Qed.
Lemma with_raise_if {A} b c msg (k : unit → Tx A) :
  (b = false → preserves_with P (k tt)) → preserves_with P (tx_raise_if b c msg ≫= k).
Proof. intros Hk s a s' Hx ([] & ? & [Hb ->]%tx_raise_if_ok & E)%tx_bind_ok. by eapply Hk. Qed.
Lemma with_lift {A B} (m : result A) (k : A → Tx B) :
  (∀ a, m = Ok a → preserves_with P (k a)) → preserves_with P (lift_result m ≫= k).
Proof. intros Hk s b s' Hx (a & ? & [Ha ->]%lift_result_ok & E)%tx_bind_ok. by eapply Hk. Qed.
Lemma with_then {A B} (m : Tx A) (k : A → Tx B) :
  preserves_with P m → (∀ a, preserves lawful (k a)) → preserves_with P (m ≫= k).
Proof. intros Hm Hk s b s' Hx (a & s1 & E1 & E2)%tx_bind_ok. etrans; [by eapply Hm|by eapply Hk]. Qed.

Context {R : Type} `{Listed R}.

(** The checked row is updated by its law. *)
Lemma with_updated (x : R) id (f : R → R) :
  id = row_id x → (∀ d, P d → has x d) → law x (f x) →
  (∀ d, P d → parents_exist d x = true → parents_exist d (f x) = true) → preserves_with P (update id f).
Proof.
  intros -> Hx Hf Hp s u s' HP ->%update_ok. cbn.
  assert (sound (s_db s) → ∀ r, r ∈ table (s_db s) → row_id r = row_id x → r = x) as Huniq.
  { intros Hs r Hr E. destruct (listed_sound _ Hs) as [Hk%unique_ids _].
    exact (same_row row_id _ _ _ Hk Hr (Hx _ HP) E). }
  apply lawful_map; intros Hs r Hr; destruct (visible s r && _) eqn:Eq; try done;
    apply andb_true_iff in Eq as [_ Eq%eqb_true]; rewrite (Huniq Hs r Hr Eq); [done|by apply Hp].
Qed.
Lemma with_update {A} (x : R) id (f : R → R) (k : unit → Tx A) :
  id = row_id x → (∀ d, P d → has x d) → law x (f x) →
  (∀ d, P d → parents_exist d x = true → parents_exist d (f x) = true) →
  (∀ u, preserves lawful (k u)) → preserves_with P (update id f ≫= k).
Proof. intros Hid Hx Hf Hp. apply with_then. by apply (with_updated x). Qed.

(** A query finds a row, and the rest runs with it. *)
Lemma with_found {A} (p : R → bool) (k : option R → Tx A) :
  (∀ x, p x = true → preserves_with (λ d, P d ∧ has x d) (k (Some x))) → preserves_with P (k None) →
  preserves_with P (scalar p ≫= k).
Proof.
  intros Hk Hn s a s' HP (o & ? & [-> ->]%scalar_ok & E)%tx_bind_ok. destruct (hd_error _) as [x|] eqn:Hx.
  - apply hd_filter_Some in Hx as [Hin [_ Hp]%andb_true_iff]. by eapply Hk.
  - by eapply Hn.
Qed.

(** [m] returns a row that it has checked. *)
Lemma with_row {A B} (row : B → R) (Q : R → Prop) (m : Tx (option B)) (k : option B → Tx A) :
  preserves_with P m → (∀ s b s', m s = Ok (Some b, s') → has (row b) (s_db s') ∧ Q (row b)) →
  (∀ b, Q (row b) → preserves_with (has (row b)) (k (Some b))) → preserves lawful (k None) →
  preserves_with P (m ≫= k).
Proof.
  intros Hm Hr Hk Hn s a s' HP (o & s1 & E1 & E2)%tx_bind_ok. etrans; [by eapply Hm|]. destruct o as [b|].
  - apply Hr in E1 as [Hin HQ]. by eapply Hk.
  - by eapply Hn.
Qed.
End checked.

Section found.
Context {R : Type} `{Listed R}.

Lemma preserves_found {A} (p : R → bool) (k : option R → Tx A) :
  (∀ x, p x = true → preserves_with (has x) (k (Some x))) → preserves lawful (k None) → preserves lawful (scalar p ≫= k).
Proof.
  intros Hk Hn s a s' E. refine (with_found (λ _, True) p k _ _ s a s' I E); [|by apply with_done].
  intros x Hx s1 a1 s2 [_ Hin]. by apply Hk.
Qed.
Lemma preserves_row {A B} (row : B → R) (Q : R → Prop) (m : Tx (option B)) (k : option B → Tx A) :
  preserves lawful m → (∀ s b s', m s = Ok (Some b, s') → has (row b) (s_db s') ∧ Q (row b)) →
  (∀ b, Q (row b) → preserves_with (has (row b)) (k (Some b))) → preserves lawful (k None) → preserves lawful (m ≫= k).
Proof.
  intros Hm Hr Hk Hn s a s' E. by refine (with_row (λ _, True) row Q m k _ Hr Hk Hn s a s' I E); apply with_done.
Qed.
Lemma preserves_selected {A} (pick : list R → option R) (p : R → bool) (k : option R → Tx A) :
  (∀ rows x, pick rows = Some x → x ∈ rows) →
  (∀ x, p x = true → preserves_with (has x) (k (Some x))) → preserves lawful (k None) →
  preserves lawful (rows ← select p; k (pick rows)).
Proof.
  intros Hpick Hk Hn s a s' (rows & ? & [-> ->]%select_ok & E)%tx_bind_ok. destruct (pick _) as [x|] eqn:Hx.
  - apply Hpick, elem_of_filter_bool in Hx as [[_ Hp]%andb_true_iff Hin]. by eapply Hk.
  - by eapply Hn.
Qed.
End found.

(** Discharge what a statement does to the tables. *)
Ltac statement := first
  [ apply lawful_insert
  | apply lawful_update; [intros ?; by repeat split|intros ? ?; reflexivity]
  | intros ? ? HP; exact HP | intros ? ? ? HP; exact HP ].

(** Show that a transaction preserves a relation, by its statements. *)
Ltac preserve := repeat (intros; match goal with
  | |- PreOrder _ => apply _
  | |- preserves _ (match ?x with _ => _ end) => destruct x
  | |- preserves _ (if ?x then _ else _) => destruct x
  | |- preserves _ _ => solve [eauto 2 with preserves]
  | |- preserves _ (insert _) => apply preserves_insert; first [apply _|statement]
  | |- preserves _ (insert_or_skip _ _) => apply preserves_insert_or_skip; first [apply _|statement]
  | |- preserves _ (update _ _) => apply preserves_update; first [apply _|statement]
  | |- preserves _ draw_uuid => apply preserves_draw
  | |- preserves _ transaction_now => apply preserves_now
  | |- preserves _ (translate _ _) => apply preserves_translate
  | |- preserves _ _ => apply (preserves_reads _ (uuid 0)); solve [eauto 3 with reads]
  | |- preserves _ _ => eapply (preserves_reads _); solve [eauto 3 with reads]
  | |- preserves _ (_ ≫= _) => apply preserves_bind
  | |- preserves _ (let '_ := _ in _) => cbv zeta
  end).
Create HintDb preserves.

(** Update the checked row [x]; what remains is its law. *)
Ltac update_checked x :=
  first [apply (with_update _ x)|apply (with_updated _ x)];
  [reflexivity|by intros ? ?; try destruct_and!|split; [reflexivity|]|by intros ? ? ?|..].

(** ** The services *)

Section services.
Context `{Zones}.

Lemma keeps_usage t p turn n model u c v e : preserves lawful (record t p turn n model u c v e).
Proof. unfold record. preserve. Qed.
Lemma keeps_transition t scope target actor reason tripped :
  preserves lawful (_transition t scope target actor reason tripped).
Proof. unfold _transition. preserve. Qed.
Lemma keeps_set_status t actor st reason metadata : preserves lawful (set_status t actor st reason metadata).
Proof. unfold set_status. preserve. Qed.
Lemma keeps_assign t dep actor reason : preserves lawful (assign t dep actor reason).
Proof. unfold assign, require_movable. preserve. Qed.

(** Credentials and tenants *)
Lemma keeps_issue secret t actor name scopes roles expires_at :
  preserves lawful (issue secret t actor name scopes roles expires_at).
Proof. unfold issue, check_expiry. preserve. Qed.
Lemma keeps_revoke t id actor : preserves lawful (revoke t id actor).
Proof.
  unfold revoke. apply preserves_bind; [apply _|preserve|]. intros _.
  apply preserves_found; [|preserve]. intros c Hc%eqb_true.
  destruct (eqb (tcr_status c) CR_REVOKED) eqn:E; [apply with_done; preserve|].
  apply with_bind; [preserve..|]. intros now. update_checked c; [by rewrite E|preserve].
Qed.
Lemma keeps_create_tenant slug name t : preserves lawful (create_tenant slug name t).
Proof. unfold create_tenant, _find_existing. preserve. Qed.
#[local] Hint Resolve keeps_create_tenant : preserves.
Lemma keeps_development_tenant t : preserves lawful (ensure_local_development_tenant t).
Proof. unfold ensure_local_development_tenant, _find_existing. preserve. Qed.

Lemma preserves_request_status rel id st :
  updates rel (λ r : ActionRequest, r <| ar_status := st |>) → preserves rel (set_request_status id st).
Proof. intros Hu. unfold set_request_status. apply preserves_update; [apply _|done]. Qed.

(** [apply_decision] *)
Lemma keeps_decision t p turn d ts reqs : preserves lawful (apply_decision t p turn d ts reqs).
Proof.
  unfold apply_decision. apply preserves_bind; [apply _|preserve|]. intros _.
  apply preserves_found; [|preserve]. intros process Hp. apply with_bind; [preserve..|]. intros [r|].
  { apply with_done. preserve. }
  do 2 (apply with_bind; [preserve..|]; intros _ || intros ?).
  apply with_raise_if. intros Hterm. apply with_bind; [preserve..|]. intros _.
  apply with_bind; [apply (preserves_reads _ t), reads_decide_transition..|]. intros [[facts oa] tr].
  apply (with_update _ process); [done..| | |preserve].
  - split; [split|].
    + unfold with_decision, with_memory. by destruct (mu_summary _).
    + rewrite Hterm. done.
    + unfold with_decision, with_memory. destruct (mu_summary _); cbn; lia.
  - intros d' _. unfold with_decision, with_memory. by destruct (mu_summary _).
Qed.

Lemma keeps_intervention v : preserves lawful (record_intervention v).
Proof.
  unfold record_intervention. apply preserves_bind; [apply _|preserve|]. intros _.
  apply preserves_bind; [apply _|preserve|]. intros [r|]; [preserve|].
  apply preserves_found; [|preserve]. intros process _. do 2 (apply with_bind; [preserve..|]; intros ?).
  destruct (is_halted (pi_status process)) eqn:Eh; [apply with_done; preserve|].
  apply (with_update _ process); [done..| |by intros ? ?|preserve]. split; [split; [done|]|cbn; lia].
  by destruct (pi_status process).
Qed.

(** [apply_control] *)
Lemma keeps_steer c process :
  is_terminal (pi_status process) = false → preserves_with (has process) (steer c process).
Proof.
  intros Hterm. assert (∀ st w, law process (steered st w process)) as Hlaw.
  { intros st w. split; [split; [done|]|cbn; lia]. by rewrite Hterm. }
  unfold steer. destruct (pc_command_type c).
  - apply with_bind; [apply (preserves_reads _ (uuid 0)), reads_retried..|]. intros r.
    apply (with_update _ process); [done..|apply Hlaw|by intros ? ?|preserve].
  - apply with_done. preserve.
  - apply with_raise_if. intros _. apply (with_update _ process); [done..|apply Hlaw|by intros ? ?|preserve].
  - apply with_raise_if. intros _. apply (with_update _ process); [done..|apply Hlaw|by intros ? ?|preserve].
Qed.

Lemma steer_row c process s r s' :
  steer c process s = Ok (Some r, s') → has r (s_db s') ∧ pv_status r = IS_OPEN.
Proof.
  unfold steer. intros E. destruct (pc_command_type c); [|tx_inv; done..].
  apply tx_bind_ok in E as (r0 & s1 & E1 & E). unfold retried_intervention in E1.
  destruct (pc_intervention_id c) as [id|]; [|done].
  apply tx_bind_ok in E1 as (o & ? & [-> ->]%scalar_ok & E1).
  destruct (hd_error _) as [x|] eqn:Hx; [|done]. apply hd_filter_Some in Hx as [Hin _].
  apply tx_bind_ok in E1 as ([] & ? & [Ho%negb_false_iff%eqb_true ->]%tx_raise_if_ok & [-> ->]%mret_ok).
  apply tx_bind_ok in E as ([] & ? & ->%update_ok & [[= ->] ->]%mret_ok). done.
Qed.

Lemma keeps_control c : preserves lawful (apply_control c).
Proof.
  unfold apply_control. do 2 (apply preserves_bind; [apply _|preserve|]; intros ?).
  apply preserves_bind; [apply _|preserve|]. intros [r|]; [preserve|].
  apply preserves_found; [|preserve]. intros process _. apply with_raise_if. intros Hterm.
  apply (with_row _ id (λ r, pv_status r = IS_OPEN)); [by apply keeps_steer|apply steer_row| |].
  - intros r Hr. cbv zeta. do 2 (apply with_bind; [preserve..|]; intros ?).
    apply with_then; [|intros _; unfold _enqueue_manual_wake, _enqueue_control; preserve].
    unfold resolve_intervention. apply with_bind; [preserve..|]. intros at_.
    update_checked r. cbn in Hr. by rewrite Hr.
  - cbv zeta. unfold resolve_intervention, _enqueue_manual_wake, _enqueue_control. preserve.
Qed.

(** [ingest] and [resolve] *)
Lemma preserves_references rel t p refs `{!PreOrder rel} :
  (∀ c : ExternalCorrelation, inserts rel c) → preserves rel (persist_references t p refs).
Proof.
  intros Hi. assert (∀ rs, preserves rel (add_correlations t p rs)) as Hadd.
  { induction rs as [|r rs IH]; cbn [add_correlations]; [preserve|].
    do 2 (apply preserves_bind; [apply _|preserve|]; intros ?).
    apply preserves_bind; [apply _|apply preserves_insert; [apply _|apply Hi]|intros _; exact IH]. }
  unfold persist_references. preserve.
Qed.
Lemma preserves_delivery rel event p `{!PreOrder rel} :
  (∀ m : OutboxMessage, inserts rel m) → preserves rel (schedule_delivery event p).
Proof.
  intros Hi. unfold schedule_delivery. preserve. apply preserves_insert_or_skip; [apply _..|apply Hi].
Qed.
Lemma keeps_references t p refs : preserves lawful (persist_references t p refs).
Proof. apply preserves_references; [apply _|]. intros c. apply lawful_insert. Qed.
Lemma keeps_delivery event p : preserves lawful (schedule_delivery event p).
Proof. apply preserves_delivery; [apply _|]. intros c. apply lawful_insert. Qed.
#[local] Hint Resolve keeps_references keeps_delivery : preserves.

Lemma keeps_ingest event bootstrap deployment : preserves lawful (ingest event bootstrap deployment).
Proof.
  unfold ingest, require_ingress_tenant, _existing_result, correlate, _resolve_process, correlated, _create_process,
    bind_matched, bind_process, schedule_matched. preserve.
Qed.

Lemma keeps_resolve c deployment : preserves lawful (resolve c deployment).
Proof.
  unfold resolve, require_ingress_tenant. do 2 (apply preserves_bind; [apply _|preserve|]; intros ?).
  apply preserves_bind; [apply _|preserve|]. intros [r|]; [preserve|].
  apply preserves_found; [|preserve]. intros e [He _]%andb_true_iff. apply eqb_true in He. unfold resolve_event.
  apply with_bind; [preserve..|]. intros _. apply with_lift. intros [] Hun.
  unfold require_unmatched in Hun. apply raise_if_ok, orb_false_iff in Hun as [Hun _].
  apply with_found; [|apply with_done; preserve]. intros p [Hpt Hpi]%is_process_ids.
  apply with_bind; [preserve..|]. intros _.
  apply with_bind; [apply preserves_translate, preserves_references; [apply _|intros ? ? ? HP; exact HP]
                   |apply preserves_translate, keeps_references|]. intros _.
  cbv zeta. do 2 (apply with_bind; [preserve..|]; intros ?).
  apply (with_update _ e); [done|by intros ? [? _]|split; [done|by rewrite Hun]| |preserve].
  intros d' [_ Hin] _. apply existsb_exists. exists p. split; [by apply list_elem_of_In|].
  apply andb_true_iff. split; [apply bool_decide_eq_true; cbn; congruence|apply eqb_refl].
Qed.

(** The outbox *)
Lemma keeps_requeue c : preserves lawful (requeue c).
Proof.
  unfold requeue. do 2 (apply preserves_bind; [apply _|preserve|]; intros ?).
  apply preserves_bind; [apply _|preserve|]. intros [r|]; [preserve|].
  apply preserves_found; [|preserve]. intros m _.
  destruct (om_status m) eqn:Em; try solve [apply with_done; preserve].
  destruct (om_dead_lettered_at m) as [dead|]; [|apply with_done; preserve].
  cbv zeta. do 2 (apply with_bind; [preserve..|]; intros ?).
  update_checked m; [by rewrite Em|preserve].
Qed.

Lemma keeps_claim_one d t : preserves lawful (claim_one d t).
Proof.
  unfold claim_one. destruct (negb _); [preserve|]. apply preserves_bind; [apply _|preserve|]. intros now.
  unfold _claim. do 2 (apply preserves_bind; [apply _|preserve|]; intros ?).
  apply preserves_bind; [apply _|preserve|]. intros [tn|]; [|preserve]. destruct (_ || _); [preserve|].
  apply preserves_bind; [apply _|preserve|]. intros processes.
  apply (preserves_selected oldest _ (λ o, match o with None => mret None | Some m => c ← claim_stored d now m; mret (Some c) end));
    [intros rows m [Hm _]%oldest_in; exact Hm| |preserve].
  intros m [Hm _]%andb_true_iff. apply with_then; [|preserve]. unfold claim_stored.
  destruct (om_process_instance_id m) as [p|]; [|apply with_done; preserve].
  do 2 (apply with_bind; [unfold claimed_definition; preserve..|]; intros ?).
  update_checked m; [|preserve]. unfold deliverable in Hm.
  intros Hp%eqb_true. rewrite Hp, andb_false_r in Hm. done.
Qed.

Lemma keeps_settle d c failure : preserves lawful (settle d c failure).
Proof.
  assert (∀ f, (∀ m : OutboxMessage, message_columns (f m) = message_columns m) → preserves lawful (update_held c f)) as Hheld.
  { intros f Hf. unfold update_held. apply preserves_bind; [apply _|preserve|]. intros rows.
    apply preserves_bind; [apply _| |preserve]. apply preserves_update; [apply _|]. apply lawful_update; [intros m|intros d' m; destruct (holds c m); [|done]; injection (Hf m) as _ Et Ep Ec _ _ _ _ _; cbn; by rewrite Et, Ep, Ec].
    destruct (holds c m) eqn:Eh; [|reflexivity]. split; [apply Hf|]. intros Hp%eqb_true.
    unfold holds in Eh. rewrite Hp, andb_false_r in Eh. done. }
  unfold settle, _record_failure, complete. preserve; by apply Hheld.
Qed.

(** Reviews *)
Lemma keeps_set_statuses thread approval request t a r s u s' :
  thread ∈ review_threads (s_db s) → approval ∈ approval_requests (s_db s) →
  rt_status thread = TH_OPEN → apq_status approval = AP_PENDING →
  set_statuses thread approval request t a r s = Ok (u, s') → lawful (s_db s) (s_db s').
Proof.
  intros Ht Ha Hopen Hpending E. unfold set_statuses in E. apply tx_bind_ok in E as ([] & s1 & E1 & E).
  transitivity (s_db s1).
  { refine ((_ : preserves_with (has approval) _) _ _ _ Ha E1). update_checked approval. by rewrite Hpending. }
  apply update_ok in E1 as ->. 
  match type of E with ?m _ = _ => enough (preserves_with (has thread) m) as Hm by (eapply Hm; [|exact E]; exact Ht) end.
  apply with_bind; [preserve..|]. intros _. update_checked thread. by rewrite Hopen.
Qed.

Lemma load_target_rows c s v s' :
  load_target c s = Ok (v, s') →
  s' = s ∧ rv_thread v ∈ review_threads (s_db s) ∧ rv_approval v ∈ approval_requests (s_db s).
Proof.
  intros E. unfold load_target in E.
  apply tx_bind_ok in E as (o & ? & [-> ->]%scalar_ok & E). destruct (hd_error _) as [th|] eqn:Hth; [|done].
  apply tx_bind_ok in E as (o & ? & [-> ->]%scalar_ok & E). destruct (hd_error _) as [p|] in E; [|done].
  apply tx_bind_ok in E as ([] & ? & [_ ->]%tx_raise_if_ok & E).
  apply tx_bind_ok in E as (o & ? & [-> ->]%scalar_ok & E).
  apply tx_bind_ok in E as (o & ? & [-> ->]%scalar_ok & E).
  destruct (hd_error (List.filter _ (table (R:=ApprovalRequest) _))) as [ap|] eqn:Hap; [|done].
  destruct (hd_error _) as [rq|] in E; [|done].
  apply tx_bind_ok in E as ([] & ? & [_ ->]%tx_raise_if_ok & [-> ->]%mret_ok).
  split; [done|]. apply hd_filter_Some in Hth as [? _], Hap as [? _]. done.
Qed.

Lemma keeps_review c : preserves lawful (apply_review c).
Proof.
  intros s res s' E. unfold apply_review in E.
  apply tx_bind_ok in E as ([] & ? & ->%set_tenant_context_ok & E).
  apply tx_bind_ok in E as (existing & ? & [-> _]%scalar_ok & E).
  apply tx_bind_ok in E as (v & ? & (-> & Hth & Hap)%load_target_rows & E). cbv zeta in E.
  change (lawful (s_db (s <| s_tenant := Some (rc_tenant_id c) |>)) (s_db s')).
  set (s1 := s <| s_tenant := Some (rc_tenant_id c) |>) in *. clearbody s1. destruct existing as [m|]; [tx_inv; reflexivity|].
  apply tx_bind_ok in E as ([] & ? & [[Hp%negb_false_iff%eqb_true Ht%negb_false_iff%eqb_true]%orb_false_iff ->]%tx_raise_if_ok & E).
  apply tx_bind_ok in E as (expired & s2 & He & E).
  assert (s_db s2 = s_db s1) as Hd.
  { unfold approval_expired in He. destruct (apq_expires_at _); tx_inv; done. }
  apply tx_bind_ok in E as ([] & ? & [_ ->]%tx_raise_if_ok & E).
  apply tx_bind_ok in E as ([[t a] r] & s3 & Hc & E).
  rewrite <- Hd in Hth, Hap |- *. transitivity (s_db s3).
  - unfold apply_command in Hc. apply tx_bind_ok in Hc as (now & ? & [_ ->]%transaction_now_ok & Hc).
    destruct (rc_command_type c); [| | |apply mret_ok in Hc as [_ ->]; reflexivity|discriminate Hc..].
    + apply tx_bind_ok in Hc as ([] & ? & [_ ->]%tx_raise_if_ok & Hc).
      apply tx_bind_ok in Hc as ([] & s4 & Hset & Hc). etrans; [by eapply keeps_set_statuses|].
      revert Hc. match goal with |- ?m _ = _ → _ => enough (preserves lawful m) as Hm by apply Hm end. preserve.
    + apply tx_bind_ok in Hc as ([] & s4 & Hset & Hc). etrans; [by eapply keeps_set_statuses|].
      revert Hc. match goal with |- ?m _ = _ → _ => enough (preserves lawful m) as Hm by apply Hm end. preserve.
    + apply tx_bind_ok in Hc as ([] & s4 & Hset & Hc). etrans; [by eapply keeps_set_statuses|].
      apply mret_ok in Hc as [_ ->]. reflexivity.
  - revert E. match goal with |- ?m _ = _ → _ => enough (preserves lawful m) as Hm by apply Hm end.
    unfold record_command. preserve.
Qed.

(** Execution *)
Lemma keeps_request_status id st : preserves lawful (set_request_status id st).
Proof. apply preserves_request_status. statement. Qed.
#[local] Hint Resolve keeps_request_status : preserves.

Lemma keeps_execution_claim x t : preserves lawful (claim x t).
Proof. unfold claim. preserve. Qed.
Lemma keeps_fence x t c provider : preserves lawful (fence x t c provider).
Proof. apply (preserves_reads _ (tg_tenant_id t)), reads_fence. Qed.

Lemma keeps_record_terminal t key o : preserves lawful (_record_terminal t key o).
Proof.
  unfold _record_terminal. apply preserves_bind; [apply _|preserve|]. intros _.
  apply preserves_found; [|preserve]. intros a _. apply with_bind; [preserve..|]. intros [r|]; [|apply with_done; preserve].
  destruct (is_settled_attempt (aa_status a)) eqn:Es; [apply with_done; preserve|].
  apply with_bind; [preserve..|]. intros at_. update_checked a; [by rewrite Es|preserve].
Qed.

Lemma keeps_claim_reconciliation x t : preserves lawful (claim_reconciliation x t).
Proof.
  unfold claim_reconciliation. do 4 (apply preserves_bind; [apply _|preserve|]; intros ?). cbv zeta.
  apply preserves_found; [|preserve]. intros att _.
  destruct (is_settled_attempt (aa_status att)) eqn:Es; [apply with_done; preserve|].
  update_checked att; [by rewrite Es|preserve].
Qed.

Lemma keeps_resolve_unknown c : preserves lawful (resolve_unknown c).
Proof.
  unfold resolve_unknown. apply preserves_bind; [apply _|preserve|]. intros _.
  apply preserves_bind; [apply _|preserve|]. intros [r|]; [preserve|].
  apply (preserves_row fst (λ _, True)); [unfold attempt_and_request; preserve| | |preserve].
  - intros s [a r] s' E. split; [|done]. unfold attempt_and_request in E.
    apply tx_bind_ok in E as (attempts & ? & [-> ->]%select_ok & E).
    apply tx_bind_ok in E as (requests & ? & [-> ->]%select_ok & E).
    match type of E with one_or_none ?rows _ = _ => set (l := rows) in E; assert ((a, r) ∈ l ∧ s' = s) as [Hin ->] end.
    { destruct l as [|p [|? ?]]; [done| |done]. apply mret_ok in E as [[= ->] ->]. split; [|done]. apply list_elem_of_here. }
    unfold l in Hin. apply list_elem_of_bind in Hin as (a' & Hin & [_ Ha]%elem_of_filter_bool).
    apply list_elem_of_bind in Hin as (r' & [= <- <-]%list_elem_of_singleton & _). exact Ha.
  - intros [a r] _. cbn [fst]. destruct (is_unknown_attempt (aa_status a)) eqn:Eu; [|apply with_done; preserve].
    unfold settle_attempt. do 3 (apply with_bind; [preserve..|]; intros ?).
    update_checked a; [by destruct (aa_status a)|preserve].
Qed.

(** The gateway *)
Lemma keeps_persist_action g k d supersedes a : preserves lawful (_persist_action g k d supersedes a).
Proof. unfold _persist_action, persist_approval, insert_new, insert_and_read. preserve. Qed.
#[local] Hint Resolve keeps_persist_action : preserves.

Lemma keeps_persist_decision order g k d : preserves lawful (persist_decision order g k d).
Proof.
  assert (∀ process d targets conflicted used actions,
    preserves lawful (persist_actions g k process d targets conflicted used actions)) as Hactions.
  { intros process d' targets conflicted used actions. revert used.
    induction actions as [|a actions IH]; intros used; cbn [persist_actions]; [preserve|].
    unfold gate_new_action, _enforce_capability_breakers, _enforce_communication_policy, _enforce_outbound_breakers,
      raise_if_open. preserve. }
  unfold persist_decision, _revision_targets, _conflicted_payload_hashes. preserve.
Qed.
End services.

(** ** Operations *)

(** The transactions, with what they are called with. *)
Inductive Operation :=
  | RecordUsage (tenant process turn : UUID) (attempt : Z) (model : string) (usage : ModelUsage)
      (cost_micros price_table_version : Z) (execution : UUID)
  | TurnBreaker (tenant : UUID) (scope : BreakerScope) (target : string) (actor : UUID) (reason : string) (tripped : bool)
  | SetStatus (tenant actor : UUID) (status : TenantStatus) (reason : string) (metadata : option (list (string * json)))
  | Assign (tenant : UUID) (deployment : string) (actor : UUID) (reason : string)
  | IssueCredential (secret : string) (tenant actor : UUID) (name : string) (scopes : list CredentialScope)
      (roles : list string) (expires_at : option datetime)
  | RevokeCredential (tenant credential actor : UUID)
  | CreateTenant (slug name : string) (tenant : option UUID)
  | EnsureDevelopmentTenant (tenant : UUID)
  | Ingest (event : CanonicalEvent) (bootstrap : option ProcessBootstrap) (deployment : option string)
  | Resolve (c : ResolveQuarantineInput) (deployment : option string)
  | ClaimMessage (d : Dispatcher) (tenant : UUID)
  | SettleMessage (d : Dispatcher) (c : ClaimedMessage) (failure : option (string * string))
  | Requeue (c : RequeueOutboxInput)
  | PersistActions (server_order : list (UUID * string) → list (UUID * string)) (g : Gateway) (k : TurnKey) (d : AgentDecision)
  | ApplyDecision (tenant process turn : UUID) (d : AgentDecision) (terminal : option (list ProcessStatus))
      (requirements : list (string * json))
  | RecordIntervention (v : InterventionInput)
  | ApplyControl (c : ProcessControlInput)
  | ApplyReview (c : ReviewCommand)
  | ClaimAttempt (x : Executor) (t : ActionTarget)
  | CallProvider (x : Executor) (t : ActionTarget) (c : Claimed) (provider : ProviderActionRequest → ProviderResponse)
  | RecordOutcome (t : ActionTarget) (key : string) (o : Outcome)
  | ClaimReconciliation (x : Executor) (t : ActionTarget)
  | ResolveUnknown (c : OperatorActionResolution).

Section system.
Context `{Zones}.

Definition discard {A} (m : Tx A) : Tx unit := _ ← m; mret tt.

Definition perform (o : Operation) : Tx unit :=
  match o with
  | RecordUsage t p turn n model u c v e => discard (record t p turn n model u c v e)
  | TurnBreaker t scope target actor reason tripped => discard (_transition t scope target actor reason tripped)
  | SetStatus t actor st reason metadata => discard (set_status t actor st reason metadata)
  | Assign t dep actor reason => discard (assign t dep actor reason)
  | IssueCredential secret t actor name scopes roles expires_at =>
      discard (issue secret t actor name scopes roles expires_at)
  | RevokeCredential t id actor => discard (revoke t id actor)
  | CreateTenant slug name t => discard (create_tenant slug name t)
  | EnsureDevelopmentTenant t => discard (ensure_local_development_tenant t)
  | Ingest event bootstrap dep => discard (ingest event bootstrap dep)
  | Resolve c dep => discard (resolve c dep)
  | ClaimMessage d t => discard (claim_one d t)
  | SettleMessage d c failure => discard (settle d c failure)
  | Requeue c => discard (requeue c)
  | PersistActions order g k d => discard (persist_decision order g k d)
  | ApplyDecision t p turn d ts reqs => discard (apply_decision t p turn d ts reqs)
  | RecordIntervention v => discard (record_intervention v)
  | ApplyControl c => discard (apply_control c)
  | ApplyReview c => discard (apply_review c)
  | ClaimAttempt x t => discard (claim x t)
  | CallProvider x t c provider => discard (fence x t c provider)
  | RecordOutcome t key o => discard (_record_terminal t key o)
  | ClaimReconciliation x t => discard (claim_reconciliation x t)
  | ResolveUnknown c => discard (resolve_unknown c)
  end.

(** A transaction on the database, in any session: it commits or leaves it. *)
Definition next (o : Operation) (s : Session) : Db := committed (s_db s) (perform o s).
Inductive step : Db → Db → Prop :=
  | step_next o s : step (s_db s) (next o s).

Lemma perform_lawful o : preserves lawful (perform o).
Proof.
  assert (∀ A (m : Tx A), preserves lawful m → preserves lawful (discard m)) as Hdiscard.
  { intros A m Hm. unfold discard. preserve. }
  destruct o; cbn [perform]; apply Hdiscard.
  - apply keeps_usage.
  - apply keeps_transition.
  - apply keeps_set_status.
  - apply keeps_assign.
  - apply keeps_issue.
  - apply keeps_revoke.
  - apply keeps_create_tenant.
  - apply keeps_development_tenant.
  - apply keeps_ingest.
  - apply keeps_resolve.
  - apply keeps_claim_one.
  - apply keeps_settle.
  - apply keeps_requeue.
  - apply keeps_persist_decision.
  - apply keeps_decision.
  - apply keeps_intervention.
  - apply keeps_control.
  - apply keeps_review.
  - apply keeps_execution_claim.
  - apply keeps_fence.
  - apply keeps_record_terminal.
  - apply keeps_claim_reconciliation.
  - apply keeps_resolve_unknown.
Qed.

Lemma steps_lawful d d' : rtc step d d' → lawful d d'.
Proof.
  induction 1 as [d|d d1 d2 Hstep _ IH]; [reflexivity|]. etrans; [|exact IH]. destruct Hstep as [o s].
  unfold next, committed. destruct (perform o s) as [[[] s']|e] eqn:E; [exact (perform_lawful o _ _ _ E)|reflexivity].
Qed.

Lemma steps_evolve R `{Lawful R} d d' :
  (evolved d d' → evolves R d d') → sound d → rtc step d d' → evolves R d d'.
Proof. intros HR Hs Hsteps. by destruct (steps_lawful _ _ Hsteps Hs) as [He%HR _]. Qed.

(** ** What holds of the system *)


(** C3: a process keeps its identity and its pins, and a terminal process is final.
    Whatever the services do, a process row stays in its table with its identity, its
    type, its definition version and fingerprint, its client pack, its deployment and
    release and its task queue; its state version never decreases; and once it is
    completed, cancelled or failed the row never changes again. *)
Theorem processes_keep_their_pins d d' p :
  sound d → rtc step d d' → p ∈ process_instances d →
  ∃ p', p' ∈ process_instances d' ∧ process_columns p' = process_columns p
    ∧ pi_state_version p <= pi_state_version p' ∧ (is_terminal (pi_status p) = true → p' = p).
Proof.
  intros Hs Hsteps Hp. destruct (evolves_row ProcessInstance d d' p) as (p' & Hp' & [[Hc Hf] Hv]); [|exact Hp|].
  - by apply steps_evolve; [intros He; every_table|..].
  - by exists p'.
Qed.

(** Every row of [R] with [final] is still in its table. *)
Definition retains (R : Type) `{Table R} (final : R → Prop) (d d' : Db) : Prop :=
  ∀ r : R, r ∈ table d → final r → r ∈ table d'.

Lemma evolves_retains R `{Lawful R} (final : R → Prop) d d' :
  (∀ r r', law r r' → final r → r' = r) → evolves R d d' → retains R final d d'.
Proof. intros Hf He r Hr Hfin. destruct (evolves_row R d d' r He Hr) as (r' & Hr' & Hl). by rewrite <- (Hf r r' Hl Hfin). Qed.

(** C2: the evidence is permanent.  Whatever the services do, a stored proposal revision,
    policy decision, approval decision, review message, state revision, usage entry,
    breaker transition, control, resolution, recovery, reconciliation, safety or
    deployment record and the owner of an external reference stay exactly as they were
    written; and so do a matched event, a published message, a decided approval and its
    closed review thread, a settled attempt, a resolved intervention and a revoked
    credential, by every path and not only by the service that wrote them. *)
Theorem evidence_is_permanent d d' :
  sound d → rtc step d d' →
  retains ActionRevision (λ _, True) d d' ∧ retains ActionPolicyRecord (λ _, True) d d'
  ∧ retains ApprovalDecision (λ _, True) d d' ∧ retains ReviewMessage (λ _, True) d d'
  ∧ retains ProcessStateRevision (λ _, True) d d' ∧ retains ModelUsageLedger (λ _, True) d d'
  ∧ retains CircuitBreaker (λ _, True) d d' ∧ retains ProcessControlCommand (λ _, True) d d'
  ∧ retains EventResolutionCommand (λ _, True) d d' ∧ retains OutboxRecoveryCommand (λ _, True) d d'
  ∧ retains ActionReconciliationDecision (λ _, True) d d' ∧ retains TenantSafetyEvent (λ _, True) d d'
  ∧ retains TenantDeploymentEvent (λ _, True) d d' ∧ retains ExternalCorrelation (λ _, True) d d'
  ∧ retains EventInbox (λ e, ei_correlation_status e = CS_MATCHED) d d'
  ∧ retains OutboxMessage (λ m, om_status m = OB_PUBLISHED) d d'
  ∧ retains ApprovalRequest (λ a, apq_status a ≠ AP_PENDING) d d'
  ∧ retains ReviewThread (λ t, rt_status t ≠ TH_OPEN) d d'
  ∧ retains ActionAttempt (λ a, is_settled_attempt (aa_status a) = true) d d'
  ∧ retains ProcessIntervention (λ v, pv_status v = IS_RESOLVED) d d'
  ∧ retains TenantCredential (λ c, tcr_status c = CR_REVOKED) d d'.
Proof.
  intros Hs Hsteps. destruct (steps_lawful _ _ Hsteps Hs) as [He _]. every_table;
    (eapply evolves_retains; [|eassumption]); try (by intros r r' Hl _).
  - intros r r' [_ Hf] E. apply Hf. by rewrite E, eqb_refl.
  - intros r r' [_ Hf] E. apply Hf. by rewrite E, eqb_refl.
  - intros r r' [_ Hf] E. apply Hf. by apply negb_true_iff, eqb_neq.
  - intros r r' [_ Hf] E. apply Hf. by apply negb_true_iff, eqb_neq.
  - intros r r' [_ Hf] E. by apply Hf.
  - intros r r' [_ Hf] E. apply Hf. by rewrite E, eqb_refl.
  - intros r r' [_ Hf] E. apply Hf. by rewrite E, eqb_refl.
Qed.
End system.

(** ** Examples *)

(** A process with a proposal; an operator takes it over, and an event finds it. *)
Lemma ex_sound : sound ex_execution_db.
Proof. every_table; split; repeat constructor. Qed.

Definition ex_late_event : CanonicalEvent := mkEvent (uuid 40) (uuid 10) (Some (uuid 20))
  "booking.created" "crm" "e-1" (utc (days 81)) (utc (days 81)) 1 INTERNAL [] [] [].
Definition ex_paused_db : Db := next (ApplyControl (ex_control 51 PC_TAKEOVER)) (ex_control_session 100 ex_execution_db).
Definition ex_last_db : Db := next (Ingest ex_late_event None (Some "acme"%string)) (ex_control_session 200 ex_paused_db).

Lemma ex_step o n d : step d (next o (ex_control_session n d)).
Proof. exact (step_next o (ex_control_session n d)). Qed.
Lemma ex_run : rtc step ex_execution_db ex_last_db.
Proof. apply (rtc_l _ _ ex_paused_db); [apply ex_step|apply rtc_once, ex_step]. Qed.

Example the_system_moves :
  (pi_status <$> process_instances ex_last_db, ei_correlation_reason <$> event_inbox ex_last_db,
   length (process_control_commands ex_last_db), length (outbox_messages ex_last_db))
  = ([PS_PAUSED], [Some "single_process_match"%string], 1%nat, 2%nat).
Proof. vm_compute. reflexivity. Qed.


Lemma processes_keep_their_pins_witness :
  ∃ p', p' ∈ process_instances ex_last_db ∧ process_columns p' = process_columns ex_contact_process.
Proof.
  destruct (processes_keep_their_pins ex_execution_db ex_last_db ex_contact_process ex_sound ex_run
    (list_elem_of_here _ _)) as (p' & Hp & Hc & _).
  exists p'. split; [exact Hp|exact Hc].
Defined.

Lemma evidence_is_permanent_witness :
  ex_revision ∈ action_revisions ex_last_db ∧ ex_policy_row ∈ action_policy_decisions ex_last_db.
Proof.
  destruct (evidence_is_permanent ex_execution_db ex_last_db ex_sound ex_run) as (H1 & H2 & _).
  split; [exact (H1 ex_revision (list_elem_of_here _ _) I)|exact (H2 ex_policy_row (list_elem_of_here _ _) I)].
Defined.
