(* ===== verification/CredentialSafety.v ===== *)
(** * What a credential proves over the life of the system

    From the moment a credential is issued, and whatever the services do afterwards, its
    token authenticates exactly while its row is active, it has not expired and its
    tenant is active; once it is revoked no token of it does again. *)

From stdpp Require Import base gmap list strings sets relations.
From Stdlib Require Import ZArith Lia Ascii String.
From S2P Require Import Prelude Python Identifiers PyTime Json Digests Contracts Communications Schema Session Deployment Credentials Authentication AuthenticationFacts System.

#[local] Open Scope Z_scope.
#[local] Open Scope string_scope.

Lemma sound_keyed d : sound d → keyed d.
Proof.
  intros Hs. split.
  - exact (unique_ids TenantCredential d (keys_unique _ _ (listed_sound (R:=TenantCredential) d Hs))).
  - exact (unique_ids Tenant d (keys_unique _ _ (listed_sound (R:=Tenant) d Hs))).
Qed.

(** ** The operations *)

Lemma issue_ok secret t actor name scopes roles expires_at s issued s' :
  issue secret t actor name scopes roles expires_at s = Ok (issued, s') →
  ∃ id, issued = issue_credential t actor id secret
    ∧ mkTenantCredential id t actor (strip name) (sha256_hex secret) (scope_value <$> scopes) (strip <$> roles)
        CR_ACTIVE (instant <$> expires_at) None None ∈ tenant_credentials (s_db s').
Proof.
  intros H. unfold issue in H.
  apply tx_bind_ok in H as (nm & ? & [Hname ->]%lift_result_ok & H).
  apply tx_bind_ok in H as ([] & ? & [_ ->]%lift_result_ok & H).
  apply tx_bind_ok in H as (rs & ? & [Hroles ->]%lift_result_ok & H).
  apply tx_bind_ok in H as ([] & s1 & _ & H).
  apply tx_bind_ok in H as ([] & ? & ->%set_tenant_context_ok & H).
  apply tx_bind_ok in H as (o & ? & [-> _]%scalar_ok & H). destruct o as [tn|]; [|done].
  apply tx_bind_ok in H as (id & ? & [_ ->]%draw_uuid_ok & H). cbv zeta in H.
  apply tx_bind_ok in H as ([] & ? & [_ ->]%insert_ok & [-> ->]%mret_ok).
  exists id. split; [done|]. unfold credential_name in Hname. cbv zeta in Hname.
  apply bind_ok in Hname as ([] & _ & [= <-]). unfold credential_roles in Hroles. cbv zeta in Hroles.
  apply bind_ok in Hroles as ([] & _ & Hroles). apply bind_ok in Hroles as ([] & _ & [= <-]).
  cbn. apply elem_of_app. right. apply list_elem_of_here.
Qed.

Lemma revoke_ok t id actor s r s' :
  revoke t id actor s = Ok (r, s') →
  ∃ c, c ∈ tenant_credentials (s_db s') ∧ tcr_id c = id ∧ tcr_status c = CR_REVOKED.
Proof.
  intros H. unfold revoke in H.
  apply tx_bind_ok in H as ([] & ? & ->%set_tenant_context_ok & H).
  apply tx_bind_ok in H as (o & ? & [-> Ho]%scalar_ok & H). destruct o as [c|]; [|done].
  symmetry in Ho. apply hd_filter_Some in Ho as [Hin [Hv Hid%eqb_true]%andb_true_iff].
  unfold visible in Hv. apply eqb_true in Hv. injection Hv as Hv. cbn [row_tenant TenantCredential_table] in Hv.
  destruct (eqb (tcr_status c) CR_REVOKED) eqn:E.
  - apply eqb_true in E. destruct (tcr_revoked_at c); [|done]. apply mret_ok in H as [_ ->]. by exists c.
  - apply tx_bind_ok in H as (now & ? & [_ ->]%utcnow_ok & H).
    apply tx_bind_ok in H as ([] & ? & ->%update_ok & [_ ->]%mret_ok).
    exists (revoke_row actor now c). split_and!; [|done..]. cbn. apply list_elem_of_fmap. exists c.
    split; [|exact Hin]. unfold visible. cbn. by rewrite Hv, !eqb_refl.
Qed.

Section safety.
Context `{Zones}.

(** A row of a credential has one successor. *)
Lemma credential_later d d' c :
  sound d → rtc step d d' → c ∈ tenant_credentials d →
  ∃ c', c' ∈ tenant_credentials d' ∧ law c c' ∧ ∀ x, x ∈ tenant_credentials d' → tcr_id x = tcr_id c → x = c'.
Proof.
  intros Hs Hsteps Hc. destruct (steps_lawful _ _ Hsteps Hs) as [He Hs'].
  assert (evolves TenantCredential d d') as Hev by (every_table; assumption).
  destruct (evolves_row _ _ _ _ Hev Hc) as (c' & Hc' & Hl). exists c'. split_and!; [done..|].
  intros x Hx E. refine (same_row tcr_id _ _ _ (proj1 (sound_keyed _ Hs')) Hx Hc' _).
  apply (law_id (R:=TenantCredential)) in Hl. cbn in Hl. congruence.
Qed.

(** ** Properties *)

(** A credential proves whom it was issued for, while it lasts.  After a credential is
    issued to a tenant and an actor, and whatever the services do next, its token
    authenticates exactly when its row is still active, its expiry has not come and its
    tenant is stored and active; and then it authenticates that tenant and that actor
    with the scopes and roles it was issued with, no others. *)
Theorem issued_credentials_authenticate secret tenant actor name scopes roles expires_at s issued s1 later i :
  sound (s_db s) → issue secret tenant actor name scopes roles expires_at s = Ok (issued, s1) →
  is_secret secret = true → (uuid_int tenant < 2 ^ 128)%N → (uuid_int (ic_credential_id issued) < 2 ^ 128)%N →
  rtc step (s_db s1) (s_db later) →
  within later (_authenticate_bearer ("Bearer " +:+ ic_token issued)) = Ok i ↔
  i = mkIdentity tenant actor (list_to_set (scope_value <$> scopes)) (list_to_set (strip <$> roles))
        (Some (ic_credential_id issued)) "tenant_bearer"
  ∧ (∃ c, c ∈ tenant_credentials (s_db later) ∧ tcr_id c = ic_credential_id issued ∧ tcr_status c = CR_ACTIVE)
  ∧ (∀ e, expires_at = Some e → s_clock later (s_reads later) < instant e)
  ∧ ∃ t, t ∈ tenants (s_db later) ∧ tn_id t = tenant ∧ tn_status t = TS_ACTIVE.
Proof.
  intros Hs0 Hi Hsec Ht Hid Hsteps. destruct (keeps_issue _ _ _ _ _ _ _ _ _ _ Hi Hs0) as [_ Hs]. destruct (issue_ok _ _ _ _ _ _ _ _ _ _ Hi) as (id & -> & Hin).
  cbn [ic_credential_id ic_token issue_credential] in *.
  destruct (steps_lawful _ _ Hsteps Hs) as [_ Hs'].
  destruct (credential_later _ _ _ Hs Hsteps Hin) as (c & Hc & [Hcol _] & Huniq).
  cbn in Hcol. injection Hcol as E1 E2 E3 E4 E5 E6 E7 E8. cbn [tcr_id] in Huniq.
  destruct (bearer_spec ("Bearer " +:+ token_text tenant id secret) later (sound_keyed _ Hs')) as [Hb _].
  rewrite Hb. clear Hb.
  assert (bearer_token ("Bearer " +:+ token_text tenant id secret) = Ok (token_text tenant id secret)) as Htok.
  { apply bearer_token_of; [done|]. by apply token_has_no_space. }
  assert (parse_credential (token_text tenant id secret) = Ok (mkParsedCredential tenant id secret)) as Hparse.
  { rewrite tokens_are_read_back by done. by rewrite Hsec. }
  split.
  - intros (token & p & x & t & Htk & Hp & A & ->). rewrite Htok in Htk. injection Htk as <-.
    rewrite Hparse in Hp. injection Hp as <-. destruct A as [? Hxid ? ? Hact Hexp Hown Hownid Hownact].
    cbn in *. assert (x = c) as -> by auto. split_and!.
    + unfold credential_identity. by rewrite E1, E2, E3, E6, E7.
    + by exists c.
    + intros e ->. apply Hexp. by rewrite E8.
    + by exists t.
  - intros (-> & (x & Hx & Hxid & Hact) & Hexp & t & Htin & Htid & Htact).
    assert (x = c) as -> by auto. eexists _, _, c, t. split_and!; [exact Htok|exact Hparse| |].
    + split; cbn; try done. rewrite E8. destruct expires_at as [e|]; [|done].
      intros e' [= <-]. by apply Hexp.
    + unfold credential_identity. by rewrite E1, E2, E3, E6, E7.
Qed.

(** C7: A revocation is final.  Once the revocation of a credential has committed, and
    whatever the services do next, in any order, no authorization header authenticates
    as the credential again, with whatever tenant, secret and time. *)
Theorem revocation_is_final tenant id actor s r s1 later authorization i :
  sound (s_db s) → revoke tenant id actor s = Ok (r, s1) → rtc step (s_db s1) (s_db later) →
  within later (_authenticate_bearer authorization) = Ok i → oi_credential_id i ≠ Some id.
Proof.
  intros Hs0 Hr Hsteps Hb. destruct (keeps_revoke _ _ _ _ _ _ Hr Hs0) as [_ Hs].
  destruct (revoke_ok _ _ _ _ _ _ Hr) as (c & Hc & <- & Hrev).
  destruct (credential_later _ _ _ Hs Hsteps Hc) as (c' & Hc' & [_ Hfin] & Huniq).
  rewrite Hfin in * by (by rewrite Hrev, eqb_refl). destruct (steps_lawful _ _ Hsteps Hs) as [_ Hs'].
  apply (bearer_spec authorization later (sound_keyed _ Hs')) in Hb as (token & p & x & t & _ & _ & A & ->).
  intros [= E]. assert (x = c) as -> by (apply Huniq; [apply A|done]).
  pose proof (au_active _ _ _ _ _ A) as Hact. congruence.
Qed.
End safety.

(** ** Examples *)

Lemma ex_security_sound : sound ex_security_db.
Proof. every_table; split; repeat constructor. Qed.

Definition ex_issue_session : Session := ex_security_session (days 1) ex_security_db.
Definition ex_issued : IssuedCredential * Session :=
  match issue ex_secret (uuid 1) (uuid 9) " deploy " [PROCESSES_READ] ["operator"] None ex_issue_session with
  | Ok r => r | Raise _ => (issue_credential (uuid 0) (uuid 0) (uuid 0) "", ex_issue_session) end.
Definition ex_issued_identity : OperatorIdentity :=
  mkIdentity (uuid 1) (uuid 9) {["processes:read"]} {["operator"]} (Some (uuid 50)) "tenant_bearer".
Definition ex_revoked : RevokedCredential * Session :=
  match revoke (uuid 1) (uuid 50) (uuid 2) (ex_security_session (days 2) (s_db (snd ex_issued))) with
  | Ok r => r | Raise _ => (mkRevoked (uuid 0) 0, ex_issue_session) end.

Lemma issued_credentials_authenticate_witness :
  ∃ c, c ∈ tenant_credentials (s_db (snd ex_issued)) ∧ tcr_id c = uuid 50 ∧ tcr_status c = CR_ACTIVE.
Proof.
  destruct (proj1 (issued_credentials_authenticate ex_secret (uuid 1) (uuid 9) " deploy " [PROCESSES_READ] ["operator"]
    None ex_issue_session (fst ex_issued) (snd ex_issued) (ex_security_session (days 1) (s_db (snd ex_issued)))
    ex_issued_identity ex_security_sound ltac:(vm_compute; reflexivity) ltac:(vm_compute; reflexivity)
    ltac:(vm_compute; reflexivity) ltac:(vm_compute; reflexivity) (rtc_refl _ _)) ltac:(vm_compute; reflexivity))
    as (_ & H & _). exact H.
Defined.

Lemma ex_revoked_run : sound (s_db (snd ex_issued)).
Proof.
  assert (rtc step ex_security_db (s_db (snd ex_issued))) as Hsteps.
  { apply rtc_once. exact (step_next (IssueCredential ex_secret (uuid 1) (uuid 9) " deploy " [PROCESSES_READ] ["operator"] None)
      ex_issue_session). }
  by destruct (steps_lawful _ _ Hsteps ex_security_sound).
Qed.

Example a_revoked_token_is_refused :
  within (ex_security_session (days 3) (s_db (snd ex_revoked))) (_authenticate_bearer ("Bearer " +:+ ic_token (fst ex_issued)))
  = raise (HTTPException 401) "bearer credential is inactive".
Proof. vm_compute. reflexivity. Qed.

(** The other credential of the tenant is still read. *)
Lemma revocation_is_final_witness :
  let later := ex_security_session (days 3) (s_db (snd ex_revoked)) in
  is_ok (within later (_authenticate_bearer ex_authorization)) = true
  ∧ oi_credential_id (credential_identity ex_credential) ≠ Some (uuid 50).
Proof.
  intros later. split; [vm_compute; reflexivity|].
  refine (revocation_is_final (uuid 1) (uuid 50) (uuid 2) (ex_security_session (days 2) (s_db (snd ex_issued)))
    (fst ex_revoked) (snd ex_revoked) later ex_authorization (credential_identity ex_credential)
    ex_revoked_run _ (rtc_refl _ _) _); vm_compute; reflexivity.
Defined.
