(* ===== verification/Isolation.v ===== *)
(** * Tenants do not touch each other

    Every transaction of the services names one tenant and, whatever it does, leaves the
    rows of all other tenants as they are, in every table.  [stays] is the argument:
    row-level security lets a statement write the current tenant's rows only, no service
    changes the tenant of a row, and none leaves its tenant. *)

From stdpp Require Import base gmap list strings sets relations.
From Stdlib Require Import ZArith Lia.
From S2P Require Import Prelude Python Identifiers PyTime Json Limits Contracts DecisionPolicy Transitions Definitions Communications Schema Session State Budgets CommunicationSafety Reviews Control Ingestion Quarantine Deployment Outbox Gateway Execution Reconciliation ExecutionFacts Tenancy Credentials System.

#[local] Open Scope Z_scope.

(** ** Rows of other tenants *)

Definition foreign {R} `{Table R} (t : UUID) (r : R) : bool := negb (eqb (row_tenant r) t).

(** The rows of other tenants are the same, in the same order. *)
Definition undisturbed (t : UUID) (R : Type) `{Table R} (d d' : Db) : Prop :=
  List.filter (foreign t) (table (R:=R) d') = List.filter (foreign t) (table (R:=R) d).
Definition isolated (t : UUID) (d d' : Db) : Prop := all_tables (λ R _ _ _, undisturbed t R d d').

#[export] Instance isolated_preorder t : PreOrder (isolated t).
Proof.
  split.
  - intros d. unfold isolated. every_table; reflexivity.
  - intros d1 d2 d3 H1 H2. unfold isolated in *. every_table; unfold undisturbed in *; congruence.
Qed.

(** Writing one table leaves the others. *)
Class Alone (R : Type) `{Table R} :=
  alone : ∀ t d rs, undisturbed t R d (set_table rs d) → isolated t d (set_table rs d).
Ltac write_alone := intros t d rs Hu; unfold isolated; every_table; first [exact Hu|reflexivity].
#[export] Instance Tenant_alone : Alone Tenant.
Proof. write_alone. Qed.
#[export] Instance ProcessInstance_alone : Alone ProcessInstance.
Proof. write_alone. Qed.
#[export] Instance EventInbox_alone : Alone EventInbox.
Proof. write_alone. Qed.
#[export] Instance OutboxMessage_alone : Alone OutboxMessage.
Proof. write_alone. Qed.
#[export] Instance ActionRequest_alone : Alone ActionRequest.
Proof. write_alone. Qed.
#[export] Instance ActionRevision_alone : Alone ActionRevision.
Proof. write_alone. Qed.
#[export] Instance ActionPolicyRecord_alone : Alone ActionPolicyRecord.
Proof. write_alone. Qed.
#[export] Instance ApprovalRequest_alone : Alone ApprovalRequest.
Proof. write_alone. Qed.
#[export] Instance ActionAttempt_alone : Alone ActionAttempt.
Proof. write_alone. Qed.
#[export] Instance ActionReconciliationDecision_alone : Alone ActionReconciliationDecision.
Proof. write_alone. Qed.
#[export] Instance ReviewThread_alone : Alone ReviewThread.
Proof. write_alone. Qed.
#[export] Instance ReviewMessage_alone : Alone ReviewMessage.
Proof. write_alone. Qed.
#[export] Instance ApprovalDecision_alone : Alone ApprovalDecision.
Proof. write_alone. Qed.
#[export] Instance ModelUsageLedger_alone : Alone ModelUsageLedger.
Proof. write_alone. Qed.
#[export] Instance CircuitBreaker_alone : Alone CircuitBreaker.
Proof. write_alone. Qed.
#[export] Instance ProcessStateRevision_alone : Alone ProcessStateRevision.
Proof. write_alone. Qed.
#[export] Instance ProcessIntervention_alone : Alone ProcessIntervention.
Proof. write_alone. Qed.
#[export] Instance ProcessControlCommand_alone : Alone ProcessControlCommand.
Proof. write_alone. Qed.
#[export] Instance ExternalCorrelation_alone : Alone ExternalCorrelation.
Proof. write_alone. Qed.
#[export] Instance OutboxRecoveryCommand_alone : Alone OutboxRecoveryCommand.
Proof. write_alone. Qed.
#[export] Instance EventResolutionCommand_alone : Alone EventResolutionCommand.
Proof. write_alone. Qed.
#[export] Instance TenantSafetyEvent_alone : Alone TenantSafetyEvent.
Proof. write_alone. Qed.
#[export] Instance TenantDeploymentEvent_alone : Alone TenantDeploymentEvent.
Proof. write_alone. Qed.
#[export] Instance TenantCredential_alone : Alone TenantCredential.
Proof. write_alone. Qed.

(** ** Transactions of one tenant *)

(** Inside the tenant, and from anywhere. *)
Definition stays {A} (t : UUID) (m : Tx A) : Prop :=
  ∀ s a s', s_tenant s = Some t → m s = Ok (a, s') → s_tenant s' = Some t ∧ isolated t (s_db s) (s_db s').
Definition enters {A} (t : UUID) (m : Tx A) : Prop := ∀ s a s', m s = Ok (a, s') → isolated t (s_db s) (s_db s').

Section rules.
Context (t : UUID).

Lemma stays_reads {A} (m : Tx A) : reads_only t m → stays t m.
Proof. intros Hm s a s' Ht E. apply Hm in E as [-> Hk]. split; [auto|reflexivity]. Qed.
Lemma stays_bind {A B} (m : Tx A) (k : A → Tx B) : stays t m → (∀ a, stays t (k a)) → stays t (m ≫= k).
Proof.
  intros Hm Hk s b s' Ht (a & s1 & E1 & E2)%tx_bind_ok. apply Hm in E1 as [Ht1 I1]; [|done].
  apply Hk in E2 as [Ht2 I2]; [|done]. split; [done|by etrans].
Qed.
Lemma stays_ret_bind {A B} (a : A) (k : A → Tx B) : stays t (k a) → stays t (mret a ≫= k).
Proof. exact id. Qed.
Lemma stays_draw : stays t draw_uuid.
Proof. intros s a s' Ht [_ ->]%draw_uuid_ok. split; [done|cbn; reflexivity]. Qed.
Lemma stays_now : stays t transaction_now.
Proof. intros s a s' Ht [_ ->]%transaction_now_ok. split; [done|reflexivity]. Qed.
Lemma stays_translate {A} tbl (m : Tx A) : stays t m → stays t (translate tbl m).
Proof. intros Hm s a s' Ht E%translate_ok. exact (Hm s a s' Ht E). Qed.

Context {R : Type} `{TableLaws R} `{!Alone R}.

Lemma stays_insert (r : R) : stays t (insert r).
Proof.
  intros s u s' Ht [Hv ->]%insert_ok. split; [done|]. cbn. apply alone. unfold undisturbed. rewrite table_set.
  rewrite List.filter_app. cbn [List.filter]. unfold violates in Hv.
  apply orb_false_iff in Hv as [[[Hr%negb_false_iff _]%orb_false_iff _]%orb_false_iff _].
  unfold visible in Hr. rewrite Ht in Hr. injection (eqb_true _ _ Hr) as E. unfold foreign.
  rewrite <- E, eqb_refl.
  cbn. apply app_nil_r.
Qed.
Lemma stays_insert_or_skip named (r : R) : stays t (insert_or_skip named r).
Proof.
  intros s o s' Ht [(_ & _ & ->)|(_ & _ & E)]%insert_or_skip_ok; [split; [done|reflexivity]|].
  exact (stays_insert r _ _ _ Ht E).
Qed.
Lemma stays_update id (f : R → R) : (∀ r, row_tenant (f r) = row_tenant r) → stays t (update id f).
Proof.
  intros Hf s u s' Ht ->%update_ok. split; [done|]. cbn. apply alone. unfold undisturbed. rewrite table_set.
  induction (table (s_db s)) as [|r rows IH]; [done|]. cbn [fmap list_fmap List.filter].
  assert (foreign t (if visible s r && eqb (row_id r) id then f r else r) = foreign t r) as ->.
  { unfold foreign. destruct (_ && _); [by rewrite Hf|done]. }
  destruct (foreign t r) eqn:Er; [|apply IH]. f_equal; [|apply IH]. unfold visible. rewrite Ht.
  destruct (eqb (Some t) (Some (row_tenant r))) eqn:E; [|done]. injection (eqb_true _ _ E) as E'.
  unfold foreign in Er. by rewrite <- E', eqb_refl in Er.
Qed.
End rules.

Section entering.
Context (t : UUID).

Lemma enters_tenant {A} (k : unit → Tx A) : stays t (k tt) → enters t (set_tenant_context t ≫= k).
Proof.
  intros Hk s a s' ([] & s1 & ->%set_tenant_context_ok & E)%tx_bind_ok. by apply Hk in E as [_ ?].
Qed.
Lemma enters_after {A B} (m : Tx A) (k : A → Tx B) :
  (∀ s a s', m s = Ok (a, s') → s_db s' = s_db s) → (∀ a, enters t (k a)) → enters t (m ≫= k).
Proof. intros Hm Hk s b s' (a & s1 & E1 & E2)%tx_bind_ok. apply Hm in E1 as <-. by eapply Hk. Qed.

(** The transaction reads, in the tenant it comes to. *)
Definition comes {A} (m : Tx A) : Prop := ∀ s a s', m s = Ok (a, s') → s_db s' = s_db s ∧ s_tenant s' = Some t.
Lemma comes_tenant {A} (k : unit → Tx A) : reads_only t (k tt) → comes (set_tenant_context t ≫= k).
Proof. intros Hk s a s' ([] & s1 & ->%set_tenant_context_ok & [E Ht]%Hk)%tx_bind_ok. auto. Qed.
Lemma enters_then {A B} (m : Tx A) (k : A → Tx B) : comes m → (∀ a, stays t (k a)) → enters t (m ≫= k).
Proof.
  intros Hm Hk s b s' (a & s1 & E1 & E2)%tx_bind_ok. apply Hm in E1 as [<- Ht]. by apply Hk in E2 as [_ ?].
Qed.
Lemma comes_translate {A} tbl (m : Tx A) : comes m → comes (translate tbl m).
Proof. intros Hm s a s' E%translate_ok. by eapply Hm. Qed.
Lemma enters_reads {A} (m : Tx A) : reads_only t m → enters t m.
Proof. intros Hm s a s' [-> _]%Hm. reflexivity. Qed.
Lemma enters_discard {A} (m : Tx A) : enters t m → enters t (discard m).
Proof. intros Hm s a s' (b & s1 & E & [_ ->]%mret_ok)%tx_bind_ok. by eapply Hm. Qed.
End entering.

(** The transaction leaves the database. *)
Lemma reads_leave {A} t (m : Tx A) s a s' : reads_only t m → m s = Ok (a, s') → s_db s' = s_db s.
Proof. by intros Hm [? _]%Hm. Qed.
Ltac unread := intros ? ? ?; apply (reads_leave (uuid 0)); solve [reads].

(** Show that a transaction stays in its tenant, by its statements. *)
Ltac stay := repeat (intros; match goal with
  | |- stays _ (match ?x with _ => _ end) => destruct x
  | |- stays _ (if ?x then _ else _) => destruct x
  | |- stays _ _ => solve [eauto 2 with stays]
  | |- stays _ (insert _) => apply stays_insert; apply _
  | |- stays _ (insert_or_skip _ _) => apply stays_insert_or_skip; apply _
  | |- stays _ (update _ _) => apply stays_update; first [apply _|solve [intros ?; repeat case_match; reflexivity]]
  | |- stays _ draw_uuid => apply stays_draw
  | |- stays _ transaction_now => apply stays_now
  | |- stays _ (translate _ _) => apply stays_translate
  | |- stays _ _ => apply stays_reads; solve [eauto 3 with reads]
  | |- stays _ (_ ≫= _) => apply stays_bind
  | |- stays _ (let '_ := _ in _) => cbv zeta
  end).
Create HintDb stays.

(** ** The services *)

Section services.
Context `{Zones}.

Ltac enter := repeat (intros; first [apply enters_tenant | apply enters_after; [unread|]]).

Lemma tenant_usage t p turn n model u c v e : enters t (record t p turn n model u c v e).
Proof. unfold record. enter. stay. Qed.
Lemma tenant_transition t scope target actor reason tripped :
  enters t (_transition t scope target actor reason tripped).
Proof. unfold _transition. cbv zeta. enter. stay. Qed.
Lemma tenant_set_status t actor st reason metadata : enters t (set_status t actor st reason metadata).
Proof. unfold set_status. enter. stay. Qed.
Lemma tenant_assign t dep actor reason : enters t (assign t dep actor reason).
Proof. unfold assign, require_movable. enter. stay. Qed.
Lemma tenant_issue secret t actor name scopes roles expires_at :
  enters t (issue secret t actor name scopes roles expires_at).
Proof. unfold issue, check_expiry. enter. stay. Qed.
Lemma tenant_revoke t id actor : enters t (revoke t id actor).
Proof. unfold revoke. enter. stay. Qed.
Lemma stays_create slug name t : stays t (create_tenant slug name (Some t)).
Proof.
  unfold create_tenant, _find_existing. apply stays_bind; [stay|]. intros [sl nm]. apply (stays_ret_bind t t). stay.
Qed.
Lemma tenant_development t : enters t (ensure_local_development_tenant t).
Proof.
  pose proof (λ slug name, stays_create slug name t).
  unfold ensure_local_development_tenant, _find_existing. enter. stay; auto.
Qed.

Lemma stays_references t p refs : stays t (persist_references t p refs).
Proof.
  assert (∀ rs, stays t (add_correlations t p rs)) as Hadd.
  { induction rs as [|r rs IH]; cbn [add_correlations]; stay. }
  unfold persist_references. stay.
Qed.
Lemma stays_delivery t event p : stays t (schedule_delivery event p).
Proof. unfold schedule_delivery. stay. Qed.
#[local] Hint Resolve stays_references stays_delivery : stays.

Lemma comes_ingress t dep : comes t (require_ingress_tenant t dep).
Proof. unfold require_ingress_tenant. apply comes_tenant. reads. Qed.

Lemma tenant_ingest event bootstrap dep : enters (ce_tenant_id event) (ingest event bootstrap dep).
Proof.
  unfold ingest. enter; intros. apply enters_then; [apply comes_ingress|].
  unfold _existing_result, correlate, _resolve_process, correlated, _create_process, bind_matched, bind_process,
    schedule_matched. stay.
Qed.
Lemma tenant_resolve c dep : enters (qr_tenant_id c) (resolve c dep).
Proof.
  unfold resolve. enter; intros. apply enters_then; [apply comes_ingress|]. unfold resolve_event. stay.
Qed.

Lemma tenant_requeue c : enters (rq_tenant_id c) (requeue c).
Proof. unfold requeue. enter. stay. Qed.
Lemma tenant_claim_one d t : enters t (claim_one d t).
Proof.
  unfold claim_one. destruct (negb _); [apply enters_reads; reads|]. unfold _claim, claim_stored, claimed_definition.
  enter. stay.
Qed.
Lemma tenant_settle d c failure : enters (cm_tenant_id c) (settle d c failure).
Proof.
  unfold settle, _record_failure, complete, update_held. destruct failure; enter; stay.
Qed.
Lemma tenant_decision t p turn d ts reqs : enters t (apply_decision t p turn d ts reqs).
Proof.
  unfold apply_decision. enter. stay; [apply stays_reads, reads_decide_transition|].
  apply stays_update; [apply _..|]. intros r. unfold with_decision, with_memory. by destruct (mu_summary _).
Qed.
Lemma tenant_intervention v : enters (iv_tenant_id v) (record_intervention v).
Proof. unfold record_intervention. enter. stay. Qed.
Lemma tenant_control c : enters (pc_tenant_id c) (apply_control c).
Proof.
  unfold apply_control, steer, resolve_intervention, _enqueue_manual_wake, _enqueue_control. enter. stay.
  apply stays_reads, reads_retried.
Qed.
Lemma tenant_review c : enters (rc_tenant_id c) (apply_review c).
Proof. unfold apply_review, load_target, approval_expired, apply_command, set_statuses, record_command. enter. stay. Qed.
Lemma stays_request_status t id st : stays t (set_request_status id st).
Proof. unfold set_request_status. stay. Qed.
Lemma stays_block u x t au policy now : stays u (communication_block x t au policy now).
Proof. apply stays_reads, reads_communication_block. Qed.
#[local] Hint Resolve stays_request_status stays_block : stays.
Lemma tenant_record_terminal t key o : enters (tg_tenant_id t) (_record_terminal t key o).
Proof. unfold _record_terminal. enter. stay. Qed.
Lemma tenant_resolve_unknown c : enters (oar_tenant_id c) (resolve_unknown c).
Proof. unfold resolve_unknown, attempt_and_request, settle_attempt. enter. stay. Qed.

(** Execution *)
Lemma comes_execution x t : comes t (_require_execution_enabled x t).
Proof. unfold _require_execution_enabled, require_active_tenant. apply comes_translate, comes_tenant. reads. Qed.
Lemma comes_reconciliation x t : comes t (_require_reconciliation_enabled x t).
Proof. unfold _require_reconciliation_enabled, require_tenant_deployment. apply comes_translate, comes_tenant. reads. Qed.

Lemma tenant_execution_claim x t : enters (tg_tenant_id t) (claim x t).
Proof. unfold claim. apply enters_then; [apply comes_execution|]. stay. Qed.
Lemma tenant_fence x t c provider : enters (tg_tenant_id t) (fence x t c provider).
Proof. apply enters_reads, reads_fence. Qed.
Lemma tenant_reconciliation x t : enters (tg_tenant_id t) (claim_reconciliation x t).
Proof. unfold claim_reconciliation. apply enters_then; [apply comes_reconciliation|]. stay. Qed.

(** The gateway *)
Lemma stays_persist_action g k d supersedes a : stays (tk_tenant_id k) (_persist_action g k d supersedes a).
Proof. unfold _persist_action, persist_approval, insert_new, insert_and_read. stay. Qed.
#[local] Hint Resolve stays_persist_action : stays.

Lemma tenant_persist_decision order g k d : enters (tk_tenant_id k) (persist_decision order g k d).
Proof.
  assert (∀ process d targets conflicted used actions,
    stays (tk_tenant_id k) (persist_actions g k process d targets conflicted used actions)) as Hactions.
  { intros process d' targets conflicted used actions. revert used.
    induction actions as [|a actions IH]; intros used; cbn [persist_actions]; [stay|].
    unfold gate_new_action, _enforce_capability_breakers, _enforce_communication_policy, _enforce_outbound_breakers,
      raise_if_open. stay. }
  unfold persist_decision, _revision_targets, _conflicted_payload_hashes. cbv zeta. enter. stay.
Qed.

(** ** The property *)

(** The tenant a transaction acts for; a tenant created without an identifier gets the
    one the session draws. *)
Definition operation_tenant (s : Session) (o : Operation) : UUID :=
  match o with
  | RecordUsage t _ _ _ _ _ _ _ _ | TurnBreaker t _ _ _ _ _ | SetStatus t _ _ _ _ | Assign t _ _ _
  | IssueCredential _ t _ _ _ _ _ | RevokeCredential t _ _ | EnsureDevelopmentTenant t
  | ClaimMessage _ t | ApplyDecision t _ _ _ _ _ => t
  | CreateTenant _ _ t => default (s_uuids s (s_drawn s)) t
  | Ingest event _ _ => ce_tenant_id event
  | Resolve c _ => qr_tenant_id c
  | SettleMessage _ c _ => cm_tenant_id c
  | Requeue c => rq_tenant_id c
  | PersistActions _ _ k _ => tk_tenant_id k
  | RecordIntervention v => iv_tenant_id v
  | ApplyControl c => pc_tenant_id c
  | ApplyReview c => rc_tenant_id c
  | ClaimAttempt _ t | CallProvider _ t _ _ | RecordOutcome t _ _ | ClaimReconciliation _ t => tg_tenant_id t
  | ResolveUnknown c => oar_tenant_id c
  end.

Lemma created_tenant slug name t s a s' :
  create_tenant slug name t s = Ok (a, s') → isolated (default (s_uuids s (s_drawn s)) t) (s_db s) (s_db s').
Proof.
  intros E. unfold create_tenant in E. apply tx_bind_ok in E as ([sl nm] & ? & [_ ->]%lift_result_ok & E).
  apply tx_bind_ok in E as (tid & s1 & Hd & E).
  assert (tid = default (s_uuids s (s_drawn s)) t ∧ s_db s1 = s_db s) as [<- <-].
  { destruct t; [by apply mret_ok in Hd as [-> ->]|by apply draw_uuid_ok in Hd as [-> ->]]. }
  revert E. match goal with |- ?m s1 = _ → _ => enough (enters tid m) as Hm by apply Hm end.
  unfold _find_existing. enter. stay.
Qed.

(** C4: tenants are isolated.  Whatever a transaction of the services does, with whatever
    arguments, and whether or not the identifiers it is given belong to its tenant, every
    row of every other tenant - in each of the 24 tables - is left exactly as it was, in
    its place: no event, process, action, credential or tenant row of another tenant is
    written, added or removed. *)
Theorem tenants_are_isolated o s : isolated (operation_tenant s o) (s_db s) (next o s).
Proof.
  unfold next, committed. destruct (perform o s) as [[u s']|e] eqn:E; [|reflexivity]. revert E.
  assert (∀ t A (m : Tx A), enters t m → discard m s = Ok (u, s') → isolated t (s_db s) (s_db s')) as Hd.
  { intros t A m Hm. by apply enters_discard. }
  destruct o; cbn [perform operation_tenant]; try (apply Hd; by auto using tenant_usage, tenant_transition,
    tenant_set_status, tenant_assign, tenant_issue, tenant_revoke, tenant_development, tenant_ingest, tenant_resolve,
    tenant_claim_one, tenant_settle, tenant_requeue, tenant_persist_decision, tenant_decision, tenant_intervention,
    tenant_control, tenant_review, tenant_execution_claim, tenant_fence, tenant_record_terminal, tenant_reconciliation,
    tenant_resolve_unknown).
  intros ([] & s1 & E & [_ ->]%mret_ok)%tx_bind_ok. by eapply created_tenant.
Qed.
End services.
