(* ===== verification/ApiEvents.v ===== *)
(** * [api/events.py]: the ingestion endpoint

    The body of a request with its validators, the canonical event built from it, and
    the endpoint: one transaction of [EventIngestionService] for the tenant of the
    authenticated identity, with the service's refusals as HTTP statuses. *)

From stdpp Require Import base gmap list strings sets.
From Stdlib Require Import ZArith Lia.
From S2P Require Import Prelude Python PyTime Json Limits Contracts Schema Session Deployment Context Ingestion Credentials Authentication.

#[local] Open Scope Z_scope.
#[local] Open Scope string_scope.

(** What the application keeps next to [AppState]: the trigger rules of its client pack
    and its process definitions. *)
Record Application := mkApplication {
  ap_state : AppState;
  ap_trigger_rules : gmap string ProcessBootstrap;
  ap_process_registry : option ProcessDefinitionRegistry
}.

Definition ap_deployment_id (app : Application) : option string :=
  dr_deployment_id <$> app_deployment_release (ap_state app).

Record IngestEventRequest := mkEventRequest {
  ier_event_id : UUID;
  ier_process_instance_id : option UUID;
  ier_event_type : string;
  ier_source : string;
  ier_source_event_id : string;
  ier_occurred_at : datetime;
  ier_schema_version : Z;
  ier_sensitivity : Sensitivity;
  ier_external_references : list ExternalReference;
  ier_facts : list FactObservation;
  ier_payload : list (string * json)
}.

Section events.
(** How pydantic writes a datetime in JSON mode. *)
Context (dump_datetime : datetime → string).

Definition event_request_json (b : IngestEventRequest) : json :=
  JObj [("event_id", JStr (str_uuid (ier_event_id b)));
        ("process_instance_id", opt_json (λ u, JStr (str_uuid u)) (ier_process_instance_id b));
        ("event_type", JStr (ier_event_type b)); ("source", JStr (ier_source b));
        ("source_event_id", JStr (ier_source_event_id b));
        ("occurred_at", JStr (dump_datetime (ier_occurred_at b)));
        ("schema_version", JInt (ier_schema_version b));
        ("sensitivity", JStr (sensitivity_value (ier_sensitivity b)));
        ("external_references", JArr (reference_json <$> ier_external_references b));
        ("facts", JArr (fact_json <$> ier_facts b)); ("payload", JObj (ier_payload b))].

Definition event_request_fields_ok (b : IngestEventRequest) : bool :=
  is_dotted_identifier (ier_event_type b) && (py_len (ier_event_type b) <=? 150)%nat
  && (1 <=? py_len (ier_source b))%nat && (py_len (ier_source b) <=? 100)%nat
  && (1 <=? py_len (ier_source_event_id b))%nat && (py_len (ier_source_event_id b) <=? 500)%nat
  && (1 <=? ier_schema_version b)%Z.

(** [require_timezone] and [require_bounded_content]. *)
Definition event_request_validate (b : IngestEventRequest) : result unit :=
  let l := DEFAULT_PLATFORM_SAFETY_LIMITS in
  _ ← raise_if (negb (event_request_fields_ok b)) ValueError "event request";
  _ ← raise_if (is_naive (ier_occurred_at b)) ValueError "event timestamp must be timezone-aware";
  _ ← require_event_content (ier_payload b) (length (ier_external_references b)) (length (ier_facts b)) l;
  _ ← require_json_bytes (event_request_json b) "event input" (max_event_input_bytes l);
  Ok tt.

Definition event_of_request (tenant_id : UUID) (received_at : datetime) (b : IngestEventRequest) : CanonicalEvent :=
  mkEvent (ier_event_id b) tenant_id (ier_process_instance_id b) (ier_event_type b) (ier_source b)
    (ier_source_event_id b) (ier_occurred_at b) received_at (ier_schema_version b) (ier_sensitivity b)
    (ier_external_references b) (ier_facts b) (ier_payload b).

Record IngestEventResponse := mkEventResponse {
  es_event_id : UUID;
  es_created : bool;
  es_correlation_status : CorrelationStatus;
  es_correlation_reason : option string;
  es_process_instance_id : option UUID;
  es_delivery_scheduled : bool
}.

Definition event_response (r : IngestionResult) : IngestEventResponse :=
  mkEventResponse (ir_event_id r) (ir_created r) (ir_correlation_status r) (ir_correlation_reason r)
    (ir_process_instance_id r) (bool_decide (is_Some (ir_outbox_message_id r))).

(** The [except] clauses of [ingest_event]. *)
Definition ingestion_refusal (e : exn) : option (exn_class * string) :=
  match exn_cls e with
  | TenantNotFound => Some (HTTPException 404, "tenant not found")
  | TenantSuspended => Some (HTTPException 403, "tenant is suspended")
  | TenantNotAuthorized => Some (HTTPException 403, "tenant is not assigned to this deployment")
  | ReservedKernelEventType | TriggerReferenceRequired => Some (HTTPException 422, exn_msg e)
  | _ => None
  end.

(** [ingest_event]; [received_at] is read where the event is built. *)
Definition ingest_event (app : Application) (i : OperatorIdentity) (received_at : datetime) (b : IngestEventRequest)
  : Tx IngestEventResponse :=
  let event := event_of_request (oi_tenant_id i) received_at b in
  _ ← lift_result (event_validate dump_datetime event);
  result ← translate ingestion_refusal
             (ingest event (ap_trigger_rules app !! ce_event_type event) (ap_deployment_id app));
  mret (event_response result).
End events.
