(* ===== verification/ApiCommands.v ===== *)
(** * [api/]: the operator's commands

    The endpoints that change something: review commands, process controls, circuit
    breakers ([api/processes.py]), requeues ([api/outbox.py]) and quarantine resolutions
    ([api/quarantine.py]).  Each checks the identity's authority, runs one transaction of
    its service for the identity's tenant and actor, and answers the service's refusals
    with HTTP statuses.  A request body is a record with the validators pydantic runs. *)

From stdpp Require Import base gmap list strings sets.
From Stdlib Require Import ZArith Lia.
From S2P Require Import Prelude Python PyTime Json Limits Contracts DecisionPolicy Definitions Schema Session State Budgets Reviews Control Ingestion Quarantine Deployment Outbox Credentials Authentication ApiEvents.

#[local] Open Scope Z_scope.
#[local] Open Scope string_scope.

(** ** Refusals *)

(** [except cls as error: raise HTTPException(status, str(error))] *)
Definition refused_as (c : exn_class) (status : Z) (e : exn) : option (exn_class * string) :=
  if bool_decide (exn_cls e = c) then Some (HTTPException status, exn_msg e) else None.

(** ** Review commands *)

Record ReviewCommandRequest := mkReviewRequest {
  rcr_command_id : UUID;
  rcr_command_type : ReviewCommandType;
  rcr_message : option string;
  rcr_expected_payload_hash : option string
}.

Definition review_request_validate (b : ReviewCommandRequest) : result unit :=
  _ ← match rcr_message b with
      | Some m =>
          _ ← raise_if (10000 <? Z.of_nat (py_len m))%Z ValueError "message";
          _ ← require_utf8_bytes m "review message" (max_review_message_bytes DEFAULT_PLATFORM_SAFETY_LIMITS);
          Ok tt
      | None => Ok tt
      end;
  _ ← match rcr_expected_payload_hash b with
      | Some h => raise_if ((py_len h <? 32)%nat || (128 <? py_len h)%nat) ValueError "expected_payload_hash"
      | None => Ok tt
      end;
  _ ← raise_if (bool_decide (rcr_command_type b = RC_APPROVE) && falsy (rcr_expected_payload_hash b)) ValueError
        "approval requires the exact expected payload hash";
  _ ← raise_if (bool_decide (rcr_command_type b ∈ [RC_REJECT; RC_REQUEST_REVISION; RC_COMMENT])
                && falsy (rcr_message b)) ValueError
        (review_type_value (rcr_command_type b) +:+ " requires a message");
  raise_if (negb (bool_decide (rcr_command_type b ∈ [RC_APPROVE; RC_REJECT; RC_REQUEST_REVISION; RC_COMMENT])))
    ValueError "unsupported operator command".

Definition review_scope (t : ReviewCommandType) : CredentialScope :=
  if bool_decide (t = RC_COMMENT) then REVIEWS_COMMENT else REVIEWS_DECIDE.

(** The thread joined with its approval. *)
Definition thread_rows (thread_id : UUID) : Tx (list (ReviewThread * ApprovalRequest)) :=
  threads ← select (λ t : ReviewThread, eqb (rt_id t) thread_id);
  approvals ← select (λ _ : ApprovalRequest, true);
  mret (t ← threads; a ← List.filter (λ a, eqb (apq_id a) (rt_approval_request_id t)) approvals; [(t, a)]).

(** [ReviewCommand(...)] *)
Definition review_command (i : OperatorIdentity) (t : ReviewThread) (a : ApprovalRequest) (b : ReviewCommandRequest)
  : ReviewCommand :=
  mkReviewCommand (rcr_command_id b) (oi_tenant_id i) (rt_process_instance_id t) (rt_id t)
    (apq_action_request_id a) (apq_revision a) (rcr_command_type b) (oi_actor_id i) (rcr_message b)
    (rcr_expected_payload_hash b).

(** What the identity may do to the approval. *)
Definition review_authority (i : OperatorIdentity) (a : ApprovalRequest) (t : ReviewCommandType) : result unit :=
  _ ← require_scope i (review_scope t);
  match apq_required_role a with
  | Some role => raise_if (bool_decide (t = RC_APPROVE) && negb (has_role i role)) (HTTPException 403)
                   ("approval requires role: " +:+ role)
  | None => Ok tt
  end.

Definition submit_review_command (app : Application) (i : OperatorIdentity) (thread_id : UUID)
    (b : ReviewCommandRequest) : Tx ReviewResult :=
  _ ← set_tenant_context (oi_tenant_id i);
  rows ← thread_rows thread_id;
  target ← one_or_none rows;
  match target with
  | None => tx_raise (HTTPException 404) "review thread not found"
  | Some (thread, approval) =>
      process ← scalar (λ p : ProcessInstance, eqb (pi_id p) (rt_process_instance_id thread));
      match process, ap_process_registry app with
      | None, _ => tx_raise (HTTPException 404) "process not found"
      | Some _, None => tx_raise (HTTPException 409) "process definition registry is unavailable"
      | Some process, Some registry =>
          definition ← lift_result (get_definition registry (pi_process_type process)
                                      (pi_definition_version process));
          _ ← tx_raise_if (negb (bool_decide (rcr_command_type b ∈ pd_review definition))) (HTTPException 422)
                "review command is not enabled by the process definition";
          _ ← lift_result (review_authority i approval (rcr_command_type b));
          let command := review_command i thread approval b in
          _ ← lift_result (review_command_validate command);
          translate (refused_as ReviewConflict 409) (apply_review command)
      end
  end.

(** ** Process controls *)

Record ProcessControlRequest := mkControlRequest {
  pcr_command_id : UUID;
  pcr_command_type : ProcessControlType;
  pcr_reason : string;
  pcr_intervention_id : option UUID
}.

Definition control_request_validate (b : ProcessControlRequest) : result unit :=
  _ ← raise_if (is_empty (pcr_reason b) || (10000 <? Z.of_nat (py_len (pcr_reason b)))%Z) ValueError "reason";
  _ ← require_utf8_bytes (pcr_reason b) "operator guidance"
        (max_operator_guidance_bytes DEFAULT_PLATFORM_SAFETY_LIMITS);
  _ ← raise_if (bool_decide (pcr_command_type b = PC_RETRY) && negb (bool_decide (is_Some (pcr_intervention_id b))))
        ValueError "retry requires intervention_id";
  raise_if (negb (bool_decide (pcr_command_type b = PC_RETRY)) && bool_decide (is_Some (pcr_intervention_id b)))
    ValueError "intervention_id is only valid for retry".

Definition control_input (i : OperatorIdentity) (process_id : UUID) (b : ProcessControlRequest) : ProcessControlInput :=
  mkControlInput (pcr_command_id b) (oi_tenant_id i) process_id (oi_actor_id i) (pcr_command_type b) (pcr_reason b)
    (pcr_intervention_id b).

Definition submit_process_control (i : OperatorIdentity) (process_id : UUID) (b : ProcessControlRequest)
  : Tx (UUID * ProcessControlType) :=
  _ ← lift_result (require_scope i PROCESSES_CONTROL);
  stored ← translate (refused_as ProcessControlConflict 409) (apply_control (control_input i process_id b));
  mret (pcc_id stored, pcc_command_type stored).

(** ** Circuit breakers *)

Record BreakerTransitionRequest := mkBreakerRequest { btr_scope : string; btr_target : string; btr_reason : string }.

Definition breaker_request_validate (b : BreakerTransitionRequest) : result unit :=
  raise_if (is_empty (btr_reason b) || (10000 <? py_len (btr_reason b))%nat) ValueError "reason".

(** [BreakerScope(value)] *)
Definition parse_breaker_scope (value : string) : option BreakerScope :=
  List.find (λ s, eqb (breaker_scope_value s) value) [MODEL_CALLS; OUTBOUND_MESSAGES; CAPABILITY; ALL].

Definition breaker_refusal (e : exn) : option (exn_class * string) :=
  if bool_decide (exn_cls e = BreakerConflict) then Some (HTTPException 409, exn_msg e)
  else if is_value_error (exn_cls e) then Some (HTTPException 422, exn_msg e) else None.

Definition _apply_breaker_transition (b : BreakerTransitionRequest) (i : OperatorIdentity) (tripped : bool)
  : Tx BreakerState :=
  _ ← lift_result (require_scope i PROCESSES_CONTROL);
  match parse_breaker_scope (btr_scope b) with
  | None => tx_raise (HTTPException 422) ("unknown breaker scope: " +:+ btr_scope b)
  | Some scope =>
      translate breaker_refusal
        (if tripped then trip (oi_tenant_id i) scope (btr_target b) (oi_actor_id i) (btr_reason b)
         else reset (oi_tenant_id i) scope (btr_target b) (oi_actor_id i) (btr_reason b))
  end.

Definition trip_breaker (i : OperatorIdentity) (b : BreakerTransitionRequest) : Tx BreakerState :=
  _apply_breaker_transition b i true.
Definition reset_breaker (i : OperatorIdentity) (b : BreakerTransitionRequest) : Tx BreakerState :=
  _apply_breaker_transition b i false.

(** ** The outbox *)

Record RequeueRequest := mkRequeueRequest { rqr_command_id : UUID; rqr_reason : string }.

Definition requeue_request_validate (b : RequeueRequest) : result unit :=
  raise_if (is_empty (rqr_reason b) || (10000 <? py_len (rqr_reason b))%nat) ValueError "reason".

Definition requeue_input (i : OperatorIdentity) (message_id : UUID) (b : RequeueRequest) : RequeueOutboxInput :=
  mkRequeueInput (rqr_command_id b) (oi_tenant_id i) message_id (oi_actor_id i) (rqr_reason b).

Definition requeue_dead_letter (i : OperatorIdentity) (message_id : UUID) (b : RequeueRequest)
  : Tx (UUID * UUID * string) :=
  _ ← lift_result (require_scope i OUTBOX_REQUEUE);
  stored ← translate (refused_as OutboxRecoveryConflict 409) (requeue (requeue_input i message_id b));
  mret (orc_id stored, orc_outbox_message_id stored, "pending").

(** ** The quarantine *)

Record ResolveRequest := mkResolveRequest {
  rsr_command_id : UUID;
  rsr_process_instance_id : UUID;
  rsr_reason : string;
  rsr_bind_references : list ExternalReference
}.

Definition resolve_request_validate (b : ResolveRequest) : result unit :=
  _ ← raise_if (is_empty (rsr_reason b) || (10000 <? py_len (rsr_reason b))%nat) ValueError "reason";
  raise_if (100 <? length (rsr_bind_references b))%nat ValueError "bind_references".

Definition resolve_input (i : OperatorIdentity) (event_id : UUID) (b : ResolveRequest) : ResolveQuarantineInput :=
  mkResolveInput (rsr_command_id b) (oi_tenant_id i) event_id (rsr_process_instance_id b) (oi_actor_id i)
    (rsr_reason b) (rsr_bind_references b).

(** The [except] clauses of [resolve_quarantine]. *)
Definition resolution_refusal (e : exn) : option (exn_class * string) :=
  match exn_cls e with
  | QuarantineNotFound | TenantNotFound => Some (HTTPException 404, exn_msg e)
  | TenantSuspended | TenantNotAuthorized => Some (HTTPException 403, "tenant cannot resolve events here")
  | QuarantineConflict => Some (HTTPException 409, exn_msg e)
  | IntegrityError => Some (HTTPException 409, "resolution identity conflicts")
  | _ => None
  end.

Definition resolve_quarantine (app : Application) (i : OperatorIdentity) (event_id : UUID) (b : ResolveRequest)
  : Tx EventResolutionCommand :=
  _ ← lift_result (require_scope i QUARANTINE_RESOLVE);
  translate resolution_refusal (resolve (resolve_input i event_id b) (ap_deployment_id app)).

(** ** Requests *)

(** The commands of the API, with their bodies. *)
Inductive ApiCommand :=
  | IngestEvent (received_at : datetime) (b : IngestEventRequest)
  | SubmitReview (thread : UUID) (b : ReviewCommandRequest)
  | SubmitControl (process : UUID) (b : ProcessControlRequest)
  | TransitionBreaker (tripped : bool) (b : BreakerTransitionRequest)
  | RequeueDeadLetter (message : UUID) (b : RequeueRequest)
  | ResolveQuarantine (event : UUID) (b : ResolveRequest).

(** The headers of a request that say who sends it. *)
Record Headers := mkHeaders {
  hd_authorization : option string; hd_tenant : option string; hd_actor : option string
}.

Section requests.
Context (dump_datetime : datetime → string) (app : Application).

(** The body was accepted. *)
Definition valid_body (c : ApiCommand) : result unit :=
  match c with
  | IngestEvent _ b => event_request_validate dump_datetime b
  | SubmitReview _ b => review_request_validate b
  | SubmitControl _ b => control_request_validate b
  | TransitionBreaker _ b => breaker_request_validate b
  | RequeueDeadLetter _ b => requeue_request_validate b
  | ResolveQuarantine _ b => resolve_request_validate b
  end.

Definition handle (i : OperatorIdentity) (c : ApiCommand) : Tx unit :=
  match c with
  | IngestEvent at_ b => _ ← ingest_event dump_datetime app i at_ b; mret tt
  | SubmitReview t b => _ ← submit_review_command app i t b; mret tt
  | SubmitControl p b => _ ← submit_process_control i p b; mret tt
  | TransitionBreaker true b => _ ← trip_breaker i b; mret tt
  | TransitionBreaker false b => _ ← reset_breaker i b; mret tt
  | RequeueDeadLetter m b => _ ← requeue_dead_letter i m b; mret tt
  | ResolveQuarantine e b => _ ← resolve_quarantine app i e b; mret tt
  end.

(** A request: the identity is established in two sessions, the
    command runs in a third. *)
Definition identify (s1 s2 : Session) (h : Headers) (c : ApiCommand) : result OperatorIdentity :=
  match c with
  | IngestEvent _ _ => require_event_ingress_identity (ap_state app) s1 s2 (hd_authorization h) (hd_tenant h)
  | _ => require_operator_identity (ap_state app) s1 s2 (hd_authorization h) (hd_tenant h) (hd_actor h)
  end.
Definition respond (s1 s2 : Session) (h : Headers) (c : ApiCommand) : Tx unit :=
  i ← lift_result (identify s1 s2 h c);
  handle i c.
End requests.
