(* ===== verification/ApiFacts.v ===== *)
(** * What the operator's endpoints guarantee

    A request changes the database only for its tenant, under the scope and the role the
    change needs, and every record of a command names the actor of the identity; the
    refusals of the services reach the caller as HTTP errors. *)

From stdpp Require Import base gmap list strings sets relations.
From Stdlib Require Import ZArith Lia Ascii String.
From S2P Require Import Prelude Python Identifiers PyTime Json Limits Contracts DecisionPolicy Definitions Communications Schema Session State Budgets Reviews Control Ingestion Quarantine Deployment Context Outbox Credentials Authentication AuthenticationFacts ApiEvents ApiCommands System Isolation.

#[local] Open Scope Z_scope.
#[local] Open Scope string_scope.

(** ** The size of a JSON text *)

Lemma join_with_length xs :
  String.length (join_with "," xs) = (list_sum (String.length <$> xs) + Nat.pred (List.length xs))%nat.
Proof.
  induction xs as [|x [|y xs] IH]; [done|cbn; lia|].
  change (join_with "," (x :: y :: xs)) with (x +:+ "," +:+ join_with "," (y :: xs)).
  rewrite !length_app_string, IH. unfold list_sum. cbn [fmap list_fmap foldr List.length Nat.pred String.length]. lia.
Qed.

Lemma list_sum_Permutation xs ys : xs ≡ₚ ys → list_sum xs = list_sum ys.
Proof. unfold list_sum. induction 1; cbn [foldr]; lia. Qed.

(** The length of one item of an object. *)
Definition item_length (kv : string * json) : nat :=
  (String.length (dump_str false (fst kv)) + 1 + String.length (dumps false (snd kv)))%nat.

Lemma object_length items :
  String.length (dumps false (JObj items)) = (list_sum (item_length <$> items) + Nat.pred (List.length items) + 2)%nat.
Proof.
  cbn [dumps]. rewrite !length_app_string, join_with_length. change (String.length "{") with 1%nat.
  change (String.length "}") with 1%nat.
  pose proof (sort_by_Permutation fst (map (λ kv, (fst kv, dumps false (snd kv))) items)) as HP.
  rewrite length_map, (Permutation_length HP), length_map.
  assert (list_sum (String.length <$> map (dump_item false)
    (sort_by fst (map (λ kv, (fst kv, dumps false (snd kv))) items))) = list_sum (item_length <$> items)) as ->; [|lia].
  transitivity (list_sum (String.length <$> map (dump_item false) (map (λ kv, (fst kv, dumps false (snd kv))) items))).
  - apply list_sum_Permutation. change (@fmap list list_fmap) with @map. by do 2 apply Permutation_map.
  - clear HP. induction items as [|kv items IH]; [done|]. cbn [map fmap list_fmap list_sum foldr].
    unfold list_sum in IH |- *. cbn [foldr]. rewrite IH. unfold item_length, dump_item. cbn [fst snd].
    rewrite !length_app_string. change (String.length ":") with 1%nat. lia.
Qed.

Lemma hex4_length n : String.length (hex4 n) = 6%nat.
Proof. unfold hex4. rewrite length_app_string, hex_digits_length. done. Qed.
Lemma escape_length s : (String.length (escape false s) <= 6 * String.length s)%nat.
Proof.
  induction s as [|a s IH]; [done|]. cbn [escape]. cbv zeta. cbn [andb String.length].
  destruct (_ <? 32)%N.
  - rewrite length_app_string. enough (String.length (escape_control a) <= 6)%nat by lia.
    unfold escape_control. repeat case_match; rewrite ?hex4_length; cbn; lia.
  - destruct (_ || _); cbn [String.length]; lia.
Qed.
Lemma dump_str_length s : (String.length (dump_str false s) <= 6 * String.length s + 2)%nat.
Proof. unfold dump_str. rewrite !length_app_string. pose proof (escape_length s). cbn in *. lia. Qed.

(** ** Accepted events *)

(** A request the API accepts is a canonical event under every tenant: the limit of
    the event leaves room for what the API adds. *)
Lemma accepted_events_are_canonical dump tenant at_ b :
  is_naive at_ = false → (String.length (dump at_) <= 1000)%nat →
  event_request_validate dump b = Ok tt → event_validate dump (event_of_request tenant at_ b) = Ok tt.
Proof.
  intros Hn Hat H. unfold event_request_validate in H. cbv zeta in H.
  apply bind_ok in H as ([] & Hf & H). apply bind_ok in H as ([] & Ht & H).
  apply bind_ok in H as ([] & Hc & H). apply bind_ok in H as (n & Hj & _).
  apply raise_if_ok in Hf, Ht. apply require_json_bytes_ok in Hj as (Hnan & -> & Hle).
  unfold event_validate. cbv zeta. set (e := event_of_request tenant at_ b).
  change (event_fields_ok e) with (event_request_fields_ok b). rewrite Hf. cbn [raise_if mbind result_bind].
  change (ce_occurred_at e) with (ier_occurred_at b). change (ce_received_at e) with at_. rewrite Ht, Hn.
  cbn [orb raise_if mbind result_bind]. change (ce_payload e) with (ier_payload b).
  change (ce_external_references e) with (ier_external_references b). change (ce_facts e) with (ier_facts b).
  rewrite Hc. cbn [mbind result_bind].
  assert (∃ k, require_json_bytes (event_json dump e) "canonical event"
    (max_canonical_event_bytes DEFAULT_PLATFORM_SAFETY_LIMITS) = Ok k) as [k ->]; [|done].
  eexists. apply require_json_bytes_ok. split_and!; [|reflexivity|].
  - unfold event_json, event_request_json in *. cbn in *.
    destruct (ier_process_instance_id b); cbn in *; exact Hnan.
  - unfold utf8_len in *. unfold event_json, event_request_json in *. rewrite object_length in Hle |- *.
    pose proof (dump_str_length (str_uuid tenant)). rewrite str_uuid_length in *.
    pose proof (dump_str_length (dump at_)).
    cbn [foldr fmap list_fmap List.length Nat.pred] in *. unfold list_sum in *. cbn [foldr] in *. subst e.
    unfold item_length, opt_json in *.
    cbn [fst snd event_of_request ce_event_id ce_tenant_id ce_process_instance_id ce_event_type ce_source
      ce_source_event_id ce_occurred_at ce_received_at ce_schema_version ce_sensitivity ce_external_references
      ce_facts ce_payload] in *.
    change (dumps false (JStr (str_uuid tenant))) with (dump_str false (str_uuid tenant)).
    change (dumps false (JStr (dump at_))) with (dump_str false (dump at_)).
    change (String.length (dump_str false "tenant_id")) with 11%nat.
    change (String.length (dump_str false "received_at")) with 13%nat.
    change (max_event_input_bytes DEFAULT_PLATFORM_SAFETY_LIMITS) with 98304 in Hle.
    change (max_canonical_event_bytes DEFAULT_PLATFORM_SAFETY_LIMITS) with 131072. lia.
Qed.

(** ** What a transaction raises *)

Definition tx_raises {A} (P : exn_class → Prop) (m : Tx A) : Prop := ∀ s, raises_only P (m s).

(** Errors of the program or of the database, which no endpoint translates. *)
Definition internal (c : exn_class) : Prop := c = RuntimeError ∨ c = IntegrityError ∨ c = MultipleResultsFound.

Section raising.
Context (P : exn_class → Prop).

Lemma tx_raises_lift {A} (m : result A) : raises_only P m → tx_raises P (lift_result m).
Proof. intros Hm s. unfold lift_result. apply raises_only_bind; [exact Hm|]. intros a. apply raises_only_ok. Qed.
Lemma tx_raises_ret {A} (a : A) : tx_raises P (mret a : Tx A).
Proof. intros s. apply raises_only_ok. Qed.
Lemma tx_raises_raise {A} c msg : P c → tx_raises P (tx_raise (A:=A) c msg).
Proof. intros Hc. by apply tx_raises_lift, raises_only_raise. Qed.
Lemma tx_raises_raise_if b c msg : P c → tx_raises P (tx_raise_if b c msg).
Proof. intros Hc. by apply tx_raises_lift, raises_only_raise_if. Qed.
Lemma tx_raises_bind {A B} (m : Tx A) (k : A → Tx B) :
  tx_raises P m → (∀ a, tx_raises P (k a)) → tx_raises P (m ≫= k).
Proof.
  intros Hm Hk s. unfold mbind, Tx_bind. specialize (Hm s). destruct (m s) as [[a s']|e0]; [apply Hk|].
  intros e [= <-]. by apply Hm.
Qed.
Lemma tx_raises_utcnow : tx_raises P utcnow.
Proof. intros s. apply raises_only_ok. Qed.
Lemma tx_raises_now : tx_raises P transaction_now.
Proof. intros s. apply raises_only_ok. Qed.
Lemma tx_raises_draw : tx_raises P draw_uuid.
Proof. intros s. apply raises_only_ok. Qed.
Lemma tx_raises_tenant t : tx_raises P (set_tenant_context t).
Proof. intros s. apply raises_only_ok. Qed.
Lemma tx_raises_select {R} `{Table R} (p : R → bool) : tx_raises P (select p).
Proof. intros s. apply raises_only_ok. Qed.
Lemma tx_raises_scalar {R} `{Table R} (p : R → bool) : tx_raises P (scalar p).
Proof. apply tx_raises_bind; [apply tx_raises_select|]. intros rs. apply tx_raises_ret. Qed.
Lemma tx_raises_update {R} `{Table R} id (f : R → R) : tx_raises P (update id f).
Proof. intros s. apply raises_only_ok. Qed.
Lemma tx_raises_one_or_none {A} (rows : list A) : P MultipleResultsFound → tx_raises P (one_or_none rows).
Proof. intros HP. destruct rows as [|? [|? ?]]; [apply tx_raises_ret..|by apply tx_raises_raise]. Qed.
Lemma tx_raises_insert {R} `{Table R} (r : R) : P IntegrityError → tx_raises P (insert r).
Proof. intros HP s. unfold insert. destruct (violates s r); [by intros e [= <-]|apply raises_only_ok]. Qed.
Lemma tx_raises_insert_or_skip {R} `{Table R} named (r : R) : P IntegrityError → tx_raises P (insert_or_skip named r).
Proof.
  intros HP s. unfold insert_or_skip. destruct (existsb _ _); [apply raises_only_ok|].
  apply (tx_raises_bind (insert r)); [by apply tx_raises_insert|]. intros a. apply tx_raises_ret.
Qed.
End raising.

(** At one session, with what the first part left. *)
Lemma raises_after {A B} P (m : Tx A) (k : A → Tx B) s :
  raises_only P (m s) → (∀ a s', m s = Ok (a, s') → raises_only P (k a s')) → raises_only P ((m ≫= k) s).
Proof.
  intros Hm Hk. unfold mbind, Tx_bind. destruct (m s) as [[a s']|e0]; [by apply Hk|]. intros e [= <-]. by apply Hm.
Qed.

(** [translate] answers what [Q] allows and the table does not leave as it is. *)
Lemma tx_raises_translate {A} (P Q : exn_class → Prop) tbl (m : Tx A) :
  tx_raises Q m → (∀ e, Q (exn_cls e) → match tbl e with Some (c, _) => P c | None => P (exn_cls e) end) →
  tx_raises P (translate tbl m).
Proof.
  intros Hm Ht s e. unfold translate. specialize (Hm s). destruct (m s) as [r|e0]; [done|].
  specialize (Ht e0 (Hm e0 eq_refl)). destruct (tbl e0) as [[c msg]|]; by intros [= <-].
Qed.

(** The errors of a transaction, by its statements; [c] decides the classes. *)
Ltac tx_raising c := repeat (intros; match goal with
  | |- tx_raises _ (match ?x with _ => _ end) => destruct x
  | |- tx_raises _ (if ?x then _ else _) => destruct x
  | |- tx_raises _ (let '_ := _ in _) => cbv zeta
  | |- tx_raises _ _ => solve [eauto 2 with raising]
  | |- tx_raises _ (mret _) => apply tx_raises_ret
  | |- tx_raises _ (tx_raise _ _) => apply tx_raises_raise; solve [c]
  | |- tx_raises _ (tx_raise_if _ _ _) => apply tx_raises_raise_if; solve [c]
  | |- tx_raises _ utcnow => apply tx_raises_utcnow
  | |- tx_raises _ transaction_now => apply tx_raises_now
  | |- tx_raises _ draw_uuid => apply tx_raises_draw
  | |- tx_raises _ (set_tenant_context _) => apply tx_raises_tenant
  | |- tx_raises _ (select _) => apply tx_raises_select
  | |- tx_raises _ (scalar _) => apply tx_raises_scalar
  | |- tx_raises _ (update _ _) => apply tx_raises_update
  | |- tx_raises _ (one_or_none _) => apply tx_raises_one_or_none; solve [c]
  | |- tx_raises _ (insert _) => apply tx_raises_insert; solve [c]
  | |- tx_raises _ (insert_or_skip _ _) => apply tx_raises_insert_or_skip; solve [c]
  | |- tx_raises _ (lift_result _) => apply tx_raises_lift
  | |- tx_raises _ (_ ≫= _) => apply tx_raises_bind
  | |- raises_only _ (match ?x with _ => _ end) => destruct x
  | |- raises_only _ (Ok _) => apply raises_only_ok
  | |- raises_only _ (raise _ _) => apply raises_only_raise; solve [c]
  | |- raises_only _ (raise_if _ _ _) => apply raises_only_raise_if; solve [c]
  | |- raises_only _ (rewrap_value_error _ _) => apply raises_only_rewrap; [solve [c]|]
  | |- raises_only _ (_ ≫= _) => apply raises_only_bind
  end).
Create HintDb raising.
Ltac classes := unfold internal; tauto.

Section services.
Context `{Zones}.

Lemma review_raises c : tx_raises (λ e, e = ReviewConflict ∨ internal e) (apply_review c).
Proof.
  unfold apply_review, load_target, approval_expired, apply_command, set_statuses, record_command.
  tx_raising classes.
Qed.

Lemma control_raises c : tx_raises (λ e, e = ProcessControlConflict ∨ internal e) (apply_control c).
Proof.
  unfold apply_control, control_reason, steer, retried_intervention, resolve_intervention, _enqueue_manual_wake,
    _enqueue_control. cbv zeta. tx_raising classes. apply utf8_bytes_value_error.
Qed.

Lemma breaker_raises t scope target actor reason tripped :
  tx_raises (λ e, e = BreakerConflict ∨ e = ValueError ∨ internal e) (_transition t scope target actor reason tripped).
Proof. unfold _transition, latest, normalize_breaker_target. cbv zeta. tx_raising classes. Qed.

Lemma requeue_raises c : tx_raises (λ e, e = OutboxRecoveryConflict ∨ internal e) (requeue c).
Proof. unfold requeue, requeue_reason. cbv zeta. tx_raising classes. Qed.

Definition ingress_error (c : exn_class) : Prop :=
  c = TenantNotFound ∨ c = TenantSuspended ∨ c = TenantNotAuthorized.

Lemma references_raise t p refs : tx_raises internal (persist_references t p refs).
Proof.
  assert (∀ rs, tx_raises internal (add_correlations t p rs)) as Hadd.
  { induction rs as [|r rs IH]; cbn [add_correlations]; tx_raising classes. }
  assert (∀ existing rs, raises_only internal (unowned existing p rs)) as Hun.
  { intros existing rs. induction rs as [|r rs IH]; cbn [unowned]; [apply raises_only_ok|].
    destruct (_ <$> _); tx_raising classes; intros; exact IH. }
  unfold persist_references. tx_raising classes; auto.
Qed.
Lemma delivery_raises event p : tx_raises internal (schedule_delivery event p).
Proof. unfold schedule_delivery. tx_raising classes. Qed.

Lemma ingestion_raises event bootstrap dep :
  tx_raises (λ e, ingress_error e ∨ e = ReservedKernelEventType ∨ e = TriggerReferenceRequired ∨ internal e)
    (ingest event bootstrap dep).
Proof.
  assert (∀ A (m : Tx A), tx_raises internal m → tx_raises (λ e, ingress_error e ∨ e = ReservedKernelEventType
    ∨ e = TriggerReferenceRequired ∨ internal e) m) as Hw by (intros A m Hm s e He; specialize (Hm s e He); tauto).
  pose proof (λ p refs, Hw _ _ (references_raise (ce_tenant_id event) p refs)).
  pose proof (λ p, Hw _ _ (delivery_raises event p)).
  unfold ingest, require_ingress_tenant, _existing_result, correlate, _resolve_process, correlated, _create_process,
    bind_matched, bind_process, schedule_matched. unfold ingress_error in *. tx_raising classes; auto.
Qed.

Lemma resolution_raises c dep :
  tx_raises (λ e, ingress_error e ∨ e = QuarantineConflict ∨ e = QuarantineNotFound ∨ internal e) (resolve c dep).
Proof.
  assert (∀ A (m : Tx A), tx_raises internal m → tx_raises (λ e, ingress_error e ∨ e = QuarantineConflict
    ∨ e = QuarantineNotFound ∨ internal e) m) as Hw by (intros A m Hm s e He; specialize (Hm s e He); tauto).
  pose proof (λ t p refs, Hw _ _ (references_raise t p refs)).
  pose proof (λ event p, Hw _ _ (delivery_raises event p)).
  unfold resolve, require_ingress_tenant, resolve_event, quarantine_reason, require_unmatched, require_replayable.
  unfold ingress_error in *. cbv zeta. tx_raising classes; auto.
  eapply tx_raises_translate; [apply references_raise|]. intros e' He. unfold reference_conflict, internal in *.
  destruct He as [-> | [-> | ->]]; tauto.
Qed.

Section requests.
Context (dump_datetime : datetime → string) (app : Application).

(** ** Errors *)

Definition client_error (c : exn_class) : Prop := ∃ code, c = HTTPException code ∧ 400 <= code < 500.
Definition answered (c : exn_class) : Prop := client_error c ∨ internal c.

Lemma scope_answers i scope : raises_only answered (require_scope i scope).
Proof. apply raises_only_raise_if. left. exists 403. split; [done|lia]. Qed.

Lemma translated_answers {A} (Q : exn_class → Prop) tbl (m : Tx A) :
  tx_raises Q m →
  (∀ e, Q (exn_cls e) → internal (exn_cls e)
        ∨ ∃ code msg, tbl e = Some (HTTPException code, msg) ∧ 400 <= code < 500) →
  (∀ e, internal (exn_cls e) → tbl e = None ∨ ∃ code msg, tbl e = Some (HTTPException code, msg) ∧ 400 <= code < 500) →
  tx_raises answered (translate tbl m).
Proof.
  intros Hm Ht Hi. eapply tx_raises_translate; [exact Hm|]. intros e He.
  destruct (Ht e He) as [Hint|(code & msg & -> & Hc)]; [|left; by exists code].
  destruct (Hi e Hint) as [->|(code & msg & -> & Hc)]; [by right|left; by exists code].
Qed.

Lemma answers_as {A} cls status (m : Tx A) :
  400 <= status < 500 → ¬ internal cls → tx_raises (λ e, e = cls ∨ internal e) m →
  tx_raises answered (translate (refused_as cls status) m).
Proof.
  intros Hs Hc Hm. eapply translated_answers; [exact Hm| |]; intros e He; unfold refused_as.
  - destruct He as [He|He]; [|by left]. rewrite bool_decide_true by done. right. by exists status, (exn_msg e).
  - left. rewrite bool_decide_false; [done|]. by intros <-.
Qed.

Lemma parsed_scope_answers i b tripped : tx_raises answered (_apply_breaker_transition b i tripped).
Proof.
  unfold _apply_breaker_transition. apply tx_raises_bind; [apply tx_raises_lift, scope_answers|]. intros _.
  destruct (parse_breaker_scope _) as [scope|].
  2: { apply tx_raises_raise. left. exists 422. split; [done|lia]. }
  eapply translated_answers; [destruct tripped; apply breaker_raises| |]; intros e He; unfold breaker_refusal.
  - destruct He as [E|[E|E]]; [| |by left]; right; rewrite E; eexists _, _; (split; [reflexivity|lia]).
  - left. destruct He as [E|[E|E]]; rewrite E; reflexivity.
Qed.

(** A validated body is a command the kernel accepts. *)
Lemma review_bodies_are_commands i t a b :
  review_request_validate b = Ok tt → 1 <= apq_revision a → review_command_validate (review_command i t a b) = Ok tt.
Proof.
  unfold review_request_validate, review_command_validate, review_command.
  cbn [Contracts.rc_proposal_revision Contracts.rc_message Contracts.rc_expected_payload_hash Contracts.rc_command_type].
  intros Hb Hr.
  rewrite (proj2 (Z.ltb_ge (apq_revision a) 1)) by lia. cbn [raise_if mbind result_bind].
  apply bind_ok in Hb as ([] & -> & Hb). cbn [mbind result_bind].
  apply bind_ok in Hb as ([] & -> & Hb). cbn [mbind result_bind].
  apply bind_ok in Hb as ([] & -> & Hb). cbn [mbind result_bind].
  apply bind_ok in Hb as ([] & Hm & Hb).
  apply raise_if_ok in Hm. apply raise_if_ok in Hb. apply negb_false_iff, bool_decide_eq_true in Hb.
  rewrite raise_if_ok. destruct (rcr_command_type b); first [done|by set_solver].
Qed.

Lemma authority_answers i a t : raises_only answered (review_authority i a t).
Proof.
  unfold review_authority. apply raises_only_bind; [apply scope_answers|]. intros _.
  destruct (apq_required_role a); [|apply raises_only_ok]. apply raises_only_raise_if. left. exists 403. split; [done|lia].
Qed.

(** A review may also meet a process whose definition is not registered. *)
Definition review_error (c : exn_class) : Prop := answered c ∨ c = LookupError.

Lemma thread_rows_found thread s rows s1 t a s2 :
  thread_rows thread s = Ok (rows, s1) → one_or_none rows s1 = Ok (Some (t, a), s2) → a ∈ approval_requests (s_db s).
Proof.
  intros Hr Ho. unfold thread_rows in Hr. apply tx_bind_ok in Hr as (ts & ? & [-> ->]%select_ok & Hr).
  apply tx_bind_ok in Hr as (as_ & ? & [-> ->]%select_ok & [-> ->]%mret_ok).
  match type of Ho with one_or_none ?l _ = _ => assert ((t, a) ∈ l) as Hin end.
  { destruct (_ ≫= _) as [|x [|? ?]]; [by apply mret_ok in Ho as [? _]| |done]. apply mret_ok in Ho as [[= ->] _]. left. }
  apply list_elem_of_bind in Hin as (t' & Hin & _). apply list_elem_of_bind in Hin as (a' & [= <- <-]%list_elem_of_singleton & Hin).
  apply elem_of_filter_bool in Hin as [_ Hin]. by apply elem_of_filter_bool in Hin as [_ Hin].
Qed.

Lemma review_answers i thread b s :
  review_request_validate b = Ok tt → Forall (λ a, 1 <= apq_revision a) (approval_requests (s_db s)) →
  raises_only review_error (submit_review_command app i thread b s).
Proof.
  intros Hb Hrev. assert (∀ code, 400 <= code < 500 → review_error (HTTPException code)) as Hcode.
  { intros code Hc. left. left. by exists code. }
  assert (∀ A (m : Tx A), tx_raises answered m → tx_raises review_error m) as Hw.
  { intros A m Hm s' e He. left. by apply (Hm s' e). }
  unfold submit_review_command. apply raises_after; [by apply tx_raises_tenant|].
  intros [] ? ->%set_tenant_context_ok. apply raises_after; [apply Hw; unfold thread_rows; tx_raising classes|].
  intros rows ? Hrows. apply raises_after; [apply tx_raises_one_or_none; left; right; right; by right|].
  intros target s2 Ht. destruct target as [[t a]|]; [|apply tx_raises_raise, Hcode; lia].
  assert (1 <= apq_revision a) as Ha.
  { rewrite Forall_forall in Hrev. apply Hrev. exact (thread_rows_found _ _ _ _ _ _ _ Hrows Ht). }
  cbn iota. apply (tx_raises_bind review_error); [apply tx_raises_scalar|]. intros process.
  destruct process as [process|]; [destruct (ap_process_registry app) as [registry|]|];
    [|apply tx_raises_raise, Hcode; lia..].
  apply tx_raises_bind; [apply tx_raises_lift; unfold get_definition; destruct (registered _ _);
    [apply raises_only_ok|apply raises_only_raise; by right]|]. intros definition.
  apply tx_raises_bind; [apply tx_raises_raise_if, Hcode; lia|]. intros _.
  apply tx_raises_bind; [apply tx_raises_lift; intros e He; left; exact (authority_answers i a (rcr_command_type b) e He)|]. intros _.
  cbv zeta. rewrite review_bodies_are_commands by done.
  apply tx_raises_bind; [apply tx_raises_lift, raises_only_ok|]. intros _. apply Hw, answers_as; [lia| |apply review_raises].
  unfold internal. by intros [?|[?|?]].
Qed.

(** ** Properties *)

(** C9: the API answers refusals, not errors.  For a command whose body was accepted and
    an event time that is written in at most 1000 characters, every refusal of the kernel
    - a conflict, a missing row, a suspended or foreign tenant, a missing scope or role,
    a reserved event type, an unknown scope, a stale or expired approval, content the
    kernel limits - reaches the caller as an HTTP status from 400 to 499: what else can
    leave the endpoint is an internal inconsistency or a broken database constraint, and,
    for a review of a process whose definition is not registered, a [LookupError]. *)
Theorem api_answers_with_http_errors i c s :
  valid_body dump_datetime c = Ok tt →
  match c with IngestEvent at_ _ => is_naive at_ = false ∧ (String.length (dump_datetime at_) <= 1000)%nat | _ => True end →
  Forall (λ a, 1 <= apq_revision a) (approval_requests (s_db s)) →
  raises_only (λ e, client_error e ∨ internal e ∨ e = LookupError ∧ ∃ t b, c = SubmitReview t b)
    (handle dump_datetime app i c s).
Proof.
  intros Hb Hat Hrev.
  assert (∀ A (m : Tx A), tx_raises answered m → raises_only (λ e, client_error e ∨ internal e
    ∨ e = LookupError ∧ ∃ t b, c = SubmitReview t b) ((_ ← m; mret tt) s)) as Hw.
  { intros A m Hm e He. destruct (tx_raises_bind answered m (λ _, mret tt) Hm (λ _, tx_raises_ret _ _) s e He); tauto. }
  destruct c as [at_ b|t b|p b|[] b|m b|e b]; cbn [handle valid_body] in *.
  - apply Hw. unfold ingest_event. cbv zeta. destruct Hat as [Hn Hl].
    rewrite (accepted_events_are_canonical dump_datetime _ at_ b Hn Hl Hb).
    apply tx_raises_bind; [apply tx_raises_lift, raises_only_ok|]. intros _.
    apply tx_raises_bind; [|intros ?; apply tx_raises_ret].
    eapply translated_answers; [apply ingestion_raises| |]; intros e He; unfold ingestion_refusal, ingress_error in *.
    + destruct He as [[E|[E|E]]|[E|[E|E]]]; [..|by left]; right; rewrite E; eexists _, _; (split; [reflexivity|lia]).
    + left. by destruct He as [E|[E|E]]; rewrite E.
  - apply raises_after; [|intros; apply raises_only_ok].
    intros e He. destruct (review_answers i t b s Hb Hrev e He) as [[?|?]|E]; [by left|by right; left|].
    right. right. split; [exact E|by exists t, b].
  - apply Hw. unfold submit_process_control. apply tx_raises_bind; [apply tx_raises_lift, scope_answers|]. intros _.
    apply tx_raises_bind; [|intros ?; apply tx_raises_ret]. apply answers_as; [lia| |apply control_raises].
    unfold internal. by intros [?|[?|?]].
  - apply Hw, parsed_scope_answers.
  - apply Hw, parsed_scope_answers.
  - apply Hw. unfold requeue_dead_letter. apply tx_raises_bind; [apply tx_raises_lift, scope_answers|]. intros _.
    apply tx_raises_bind; [|intros ?; apply tx_raises_ret]. apply answers_as; [lia| |apply requeue_raises].
    unfold internal. by intros [?|[?|?]].
  - apply Hw. unfold resolve_quarantine. apply tx_raises_bind; [apply tx_raises_lift, scope_answers|]. intros _.
    eapply translated_answers; [apply resolution_raises| |]; intros e' He; unfold resolution_refusal, ingress_error in *.
    + destruct He as [[E|[E|E]]|[E|[E|E]]]; [..|by left]; right; rewrite E; eexists _, _; (split; [reflexivity|lia]).
    + destruct He as [E|[E|E]]; rewrite E; [by left| |by left]. right. eexists _, _. split; [reflexivity|lia].
Qed.
End requests.
End services.

(** ** Examples *)

Definition ex_app_without_registry : Application := mkApplication (mkAppState PRODUCTION false None []) ∅ None.
Definition ex_outbox_operator : OperatorIdentity := mkIdentity (uuid 10) (uuid 9) {["outbox:requeue"]} ∅ None "tenant_bearer".
Definition ex_requeue : ApiCommand := RequeueDeadLetter (uuid 1) (mkRequeueRequest (uuid 2) "again").
Definition ex_handled : result (unit * Session) :=
  handle isoformat ex_app_without_registry ex_outbox_operator ex_requeue (ex_security_session (days 10) ex_security_db).

(** Requeuing a message that is not there. *)
Lemma api_answers_with_http_errors_witness :
  ∃ e, ex_handled = Raise e ∧ (client_error (exn_cls e) ∨ internal (exn_cls e)).
Proof.
  eexists. split; [vm_compute; reflexivity|].
  destruct (api_answers_with_http_errors isoformat ex_app_without_registry ex_outbox_operator ex_requeue
    (ex_security_session (days 10) ex_security_db) eq_refl I (List.Forall_nil _)
    {| exn_cls := HTTPException 409; exn_msg := "dead-lettered outbox message not found" |}) as [Hc|[Hi|[E _]]].
  - vm_compute. reflexivity.
  - by left.
  - by right.
  - discriminate E.
Defined.
