(* ===== verification/ApiAudit.v ===== *)
(** * What an operator's request may change

    A request that changes the database comes from an identity the deployment serves, with
    the scope of the command, and the role an approval asks for; it changes rows of the
    identity's tenant only, and every record the kernel keeps of who did what - messages
    and decisions of reviews, controls, breaker transitions, recoveries and resolutions -
    is appended under the actor of the identity. *)

From stdpp Require Import base gmap list strings sets relations.
From Stdlib Require Import ZArith Lia.
From S2P Require Import Prelude Python Digests Identifiers PyTime Json Limits Contracts DecisionPolicy Definitions Communications Schema Session State Budgets Reviews Control Ingestion Quarantine Deployment Context Outbox Credentials Authentication AuthenticationFacts System Isolation ApiEvents ApiCommands ApiFacts.

#[local] Open Scope Z_scope.
#[local] Open Scope string_scope.

(** ** Who is named *)

(** The tables that name an actor. *)
Class Authored (R : Type) `{Table R} := author : R → UUID.
#[export] Instance ReviewMessage_authored : Authored ReviewMessage := rm_actor_id.
#[export] Instance ApprovalDecision_authored : Authored ApprovalDecision := apd_row_actor_id.
#[export] Instance CircuitBreaker_authored : Authored CircuitBreaker := br_actor_id.
#[export] Instance ProcessControlCommand_authored : Authored ProcessControlCommand := pcc_actor_id.
#[export] Instance OutboxRecoveryCommand_authored : Authored OutboxRecoveryCommand := orc_actor_id.
#[export] Instance EventResolutionCommand_authored : Authored EventResolutionCommand := erc_actor_id.
#[export] Instance ActionReconciliationDecision_authored : Authored ActionReconciliationDecision := rd_actor_id.
#[export] Instance TenantSafetyEvent_authored : Authored TenantSafetyEvent := tse_actor_id.
#[export] Instance TenantDeploymentEvent_authored : Authored TenantDeploymentEvent := tde_actor_id.

(** The table only grew, by rows under the actor. *)
Definition signed (a : UUID) (R : Type) `{Authored R} (d d' : Db) : Prop :=
  ∃ new, table (R:=R) d' = (table d ++ new)%list ∧ Forall (λ r, author r = a) new.
Definition attributed (a : UUID) (d d' : Db) : Prop :=
  signed a ReviewMessage d d' ∧ signed a ApprovalDecision d d' ∧ signed a CircuitBreaker d d'
  ∧ signed a ProcessControlCommand d d' ∧ signed a OutboxRecoveryCommand d d' ∧ signed a EventResolutionCommand d d'
  ∧ signed a ActionReconciliationDecision d d' ∧ signed a TenantSafetyEvent d d' ∧ signed a TenantDeploymentEvent d d'.

Ltac each_record :=
  unfold attributed in *;
  repeat match goal with H : _ ∧ _ |- _ => destruct H end;
  repeat match goal with |- _ ∧ _ => split end.

Lemma signed_same a R `{Authored R} d d' : table (R:=R) d' = table d → signed a R d d'.
Proof. intros E. exists []. rewrite app_nil_r. done. Qed.
Lemma signed_trans a R `{Authored R} d1 d2 d3 : signed a R d1 d2 → signed a R d2 d3 → signed a R d1 d3.
Proof.
  intros (n1 & E1 & F1) (n2 & E2 & F2). exists (n1 ++ n2)%list. rewrite E2, E1, app_assoc. split; [done|].
  by apply Forall_app.
Qed.
#[export] Instance attributed_preorder a : PreOrder (attributed a).
Proof.
  split.
  - intros d. each_record; by apply signed_same.
  - intros d1 d2 d3 H1 H2. each_record; by eapply signed_trans.
Qed.

(** Tables that name nobody. *)
Class Unsigned (R : Type) `{Table R} := unsigned : ∀ a d rs, attributed a d (set_table (R:=R) rs d).
Ltac no_record := intros a d rs; each_record; by apply signed_same.
#[export] Instance Tenant_unsigned : Unsigned Tenant.
Proof. no_record. Qed.
#[export] Instance ProcessInstance_unsigned : Unsigned ProcessInstance.
Proof. no_record. Qed.
#[export] Instance EventInbox_unsigned : Unsigned EventInbox.
Proof. no_record. Qed.
#[export] Instance OutboxMessage_unsigned : Unsigned OutboxMessage.
Proof. no_record. Qed.
#[export] Instance ActionRequest_unsigned : Unsigned ActionRequest.
Proof. no_record. Qed.
#[export] Instance ApprovalRequest_unsigned : Unsigned ApprovalRequest.
Proof. no_record. Qed.
#[export] Instance ReviewThread_unsigned : Unsigned ReviewThread.
Proof. no_record. Qed.
#[export] Instance ProcessIntervention_unsigned : Unsigned ProcessIntervention.
Proof. no_record. Qed.
#[export] Instance ExternalCorrelation_unsigned : Unsigned ExternalCorrelation.
Proof. no_record. Qed.
#[export] Instance ProcessStateRevision_unsigned : Unsigned ProcessStateRevision.
Proof. no_record. Qed.

(** A record may be appended under the actor. *)
Class Recorded (R : Type) `{Authored R} :=
  recorded : ∀ a d r, author r = a → attributed a d (set_table (table d ++ [r])%list d).
Ltac one_record := intros a d r E; each_record;
  first [by apply signed_same|exists [r]; split; [reflexivity|by constructor]].
#[export] Instance ReviewMessage_recorded : Recorded ReviewMessage.
Proof. one_record. Qed.
#[export] Instance ApprovalDecision_recorded : Recorded ApprovalDecision.
Proof. one_record. Qed.
#[export] Instance CircuitBreaker_recorded : Recorded CircuitBreaker.
Proof. one_record. Qed.
#[export] Instance ProcessControlCommand_recorded : Recorded ProcessControlCommand.
Proof. one_record. Qed.
#[export] Instance OutboxRecoveryCommand_recorded : Recorded OutboxRecoveryCommand.
Proof. one_record. Qed.
#[export] Instance EventResolutionCommand_recorded : Recorded EventResolutionCommand.
Proof. one_record. Qed.

(** ** Transactions that sign as the actor *)

Definition signs {A} (a : UUID) (m : Tx A) : Prop := ∀ s x s', m s = Ok (x, s') → attributed a (s_db s) (s_db s').

Section rules.
Context (a : UUID).

Lemma signs_leaves {A} t (m : Tx A) : reads_only t m → signs a m.
Proof. intros Hm s x s' [-> _]%Hm. reflexivity. Qed.
Lemma signs_bind {A B} (m : Tx A) (k : A → Tx B) : signs a m → (∀ x, signs a (k x)) → signs a (m ≫= k).
Proof. intros Hm Hk s y s' (x & s1 & E1 & E2)%tx_bind_ok. apply Hm in E1. apply Hk in E2. by etrans. Qed.
Lemma signs_tenant t : signs a (set_tenant_context t).
Proof. intros s x s' ->%set_tenant_context_ok. cbn. reflexivity. Qed.
Lemma signs_draw : signs a draw_uuid.
Proof. intros s x s' [_ ->]%draw_uuid_ok. cbn. reflexivity. Qed.
Lemma signs_now : signs a transaction_now.
Proof. intros s x s' [_ ->]%transaction_now_ok. reflexivity. Qed.
Lemma signs_translate {A} tbl (m : Tx A) : signs a m → signs a (translate tbl m).
Proof. intros Hm s x s' E%translate_ok. by eapply Hm. Qed.

Lemma signs_insert {R} `{Unsigned R} (r : R) : signs a (insert r).
Proof. intros s x s' [_ ->]%insert_ok. apply unsigned. Qed.
Lemma signs_insert_or_skip {R} `{Unsigned R} named (r : R) : signs a (insert_or_skip named r).
Proof.
  intros s x s' [(_ & _ & ->)|(_ & _ & E)]%insert_or_skip_ok; [reflexivity|]. by eapply signs_insert.
Qed.
Lemma signs_update {R} `{Unsigned R} id (f : R → R) : signs a (update id f).
Proof. intros s x s' ->%update_ok. apply unsigned. Qed.
Lemma signs_record {R} `{Recorded R} (r : R) : author r = a → signs a (insert r).
Proof. intros E s x s' [_ ->]%insert_ok. by apply recorded. Qed.
End rules.

(** Show that a transaction signs as the actor, by its statements. *)
Ltac signing := repeat (intros; match goal with
  | |- signs _ (match ?x with _ => _ end) => destruct x
  | |- signs _ (if ?x then _ else _) => destruct x
  | |- signs _ (let '_ := _ in _) => cbv zeta
  | |- signs _ _ => solve [eauto 2 with signing]
  | |- signs _ (insert _) => first [apply signs_insert; apply _|refine (signs_record _ _ _); reflexivity]
  | |- signs _ (insert_or_skip _ _) => apply signs_insert_or_skip; apply _
  | |- signs _ (update _ _) => apply signs_update; apply _
  | |- signs _ draw_uuid => apply signs_draw
  | |- signs _ transaction_now => apply signs_now
  | |- signs _ (set_tenant_context _) => apply signs_tenant
  | |- signs _ (translate _ _) => apply signs_translate
  | |- signs _ _ => first [apply (signs_leaves _ (uuid 0)); solve [eauto 3 with reads]|eapply signs_leaves; solve [eauto 3 with reads]]
  | |- signs _ (_ ≫= _) => apply signs_bind
  end).
Create HintDb signing.

Section services.
Context `{Zones}.

Lemma signs_review c : signs (Contracts.rc_actor_id c) (apply_review c).
Proof.
  unfold apply_review, load_target, approval_expired, apply_command, set_statuses, record_command. signing.
Qed.
Lemma signs_control c : signs (pc_actor_id c) (apply_control c).
Proof.
  unfold apply_control, steer, resolve_intervention, retried_intervention, _enqueue_manual_wake, _enqueue_control.
  signing.
Qed.
Lemma signs_transition t scope target actor reason tripped :
  signs actor (_transition t scope target actor reason tripped).
Proof. unfold _transition. cbv zeta. signing. Qed.
Lemma signs_requeue c : signs (rq_actor_id c) (requeue c).
Proof. unfold requeue. signing. Qed.
Lemma signs_references a t p refs : signs a (persist_references t p refs).
Proof.
  assert (∀ rs, signs a (add_correlations t p rs)) as Hadd.
  { induction rs as [|r rs IH]; cbn [add_correlations]; signing. }
  unfold persist_references. signing.
Qed.
Lemma signs_delivery a event p : signs a (schedule_delivery event p).
Proof. unfold schedule_delivery. signing. Qed.
#[local] Hint Resolve signs_references signs_delivery : signing.
Lemma signs_ingest a event bootstrap dep : signs a (ingest event bootstrap dep).
Proof.
  unfold ingest, require_ingress_tenant, _existing_result, correlate, _resolve_process, correlated, _create_process,
    bind_matched, bind_process, schedule_matched. signing.
Qed.
Lemma signs_resolve c dep : signs (qr_actor_id c) (resolve c dep).
Proof. unfold resolve, require_ingress_tenant, resolve_event. signing. Qed.
End services.

(** ** Authority *)

Definition has_scope (i : OperatorIdentity) (scope : CredentialScope) : Prop :=
  "*" ∈ oi_scopes i ∨ scope_value scope ∈ oi_scopes i.
Lemma require_scope_ok i scope : require_scope i scope = Ok tt ↔ has_scope i scope.
Proof.
  unfold require_scope, has_scope. rewrite raise_if_ok, andb_false_iff, !negb_false_iff, !bool_decide_eq_true. done.
Qed.

(** The scope each command asks for. *)
Definition command_scope (c : ApiCommand) : CredentialScope :=
  match c with
  | IngestEvent _ _ => EVENTS_INGEST
  | SubmitReview _ b => review_scope (rcr_command_type b)
  | SubmitControl _ _ | TransitionBreaker _ _ => PROCESSES_CONTROL
  | RequeueDeadLetter _ _ => OUTBOX_REQUEUE
  | ResolveQuarantine _ _ => QUARANTINE_RESOLVE
  end.

(** The approval a review of the thread is about is one the identity may decide so. *)
Definition may_review (i : OperatorIdentity) (thread : UUID) (t : ReviewCommandType) (d : Db) : Prop :=
  ∃ th a, th ∈ review_threads d ∧ rt_id th = thread ∧ rt_tenant_id th = oi_tenant_id i
    ∧ a ∈ approval_requests d ∧ apq_id a = rt_approval_request_id th
    ∧ (t = RC_APPROVE → ∀ role, apq_required_role a = Some role → has_role i role = true).

Section audit.
Context `{Zones} (dump_datetime : datetime → string) (app : Application).

Definition authorised (i : OperatorIdentity) (c : ApiCommand) (d : Db) : Prop :=
  has_scope i (command_scope c)
  ∧ match c with SubmitReview thread b => may_review i thread (rcr_command_type b) d | _ => True end.

Lemma identified_scope s1 s2 h at_ b i :
  identify app s1 s2 h (IngestEvent at_ b) = Ok i → has_scope i EVENTS_INGEST.
Proof.
  unfold identify, require_event_ingress_identity, _require_deployment_assignment.
  intros (i0 & _ & ([] & Hs & E)%bind_ok)%bind_ok. apply require_scope_ok in Hs.
  enough (i = i0) as -> by done. apply within_ok in E as (s' & E). revert E.
  destruct (app_deployment_release _); [|by intros [? _]%mret_ok]. intros E. by tx_inv.
Qed.

(** What a handler did: under which authority, for which tenant, in whose name. *)
Definition answered_for (i : OperatorIdentity) (c : ApiCommand) (d d' : Db) : Prop :=
  authorised i c d ∧ isolated (oi_tenant_id i) d d' ∧ attributed (oi_actor_id i) d d'.

Lemma thread_rows_target thread s rows s1 th a s2 :
  s_tenant s ≠ None → thread_rows thread s = Ok (rows, s1) → one_or_none rows s1 = Ok (Some (th, a), s2) →
  th ∈ review_threads (s_db s) ∧ rt_id th = thread ∧ s_tenant s = Some (rt_tenant_id th)
  ∧ a ∈ approval_requests (s_db s) ∧ apq_id a = rt_approval_request_id th ∧ s2 = s.
Proof.
  intros Ht Hr Ho. unfold thread_rows in Hr. apply tx_bind_ok in Hr as (ts & ? & [-> ->]%select_ok & Hr).
  apply tx_bind_ok in Hr as (as_ & ? & [-> ->]%select_ok & [-> ->]%mret_ok).
  match type of Ho with one_or_none ?l _ = _ => assert ((th, a) ∈ l ∧ s2 = s) as [Hin ->] end.
  { destruct (_ ≫= _) as [|x [|? ?]];
      [by apply mret_ok in Ho as [? _]|apply mret_ok in Ho as [[= ->] ->]; split; [left|done]|done]. }
  apply list_elem_of_bind in Hin as (th' & Hin & Hth). apply list_elem_of_bind in Hin as (a' & [= <- <-]%list_elem_of_singleton & Hin).
  apply elem_of_filter_bool in Hin as [Hid Hin]. apply elem_of_filter_bool in Hin as [_ Ha].
  apply elem_of_filter_bool in Hth as [[Hv Hid']%andb_true_iff Hth].
  apply eqb_true in Hid. apply eqb_true in Hid'. unfold visible in Hv. apply eqb_true in Hv. done.
Qed.

Lemma scope_first {A} scope i (m : Tx A) s x s' :
  (_ ← lift_result (require_scope i scope); m) s = Ok (x, s') → has_scope i scope ∧ m s = Ok (x, s').
Proof. intros ([] & ? & [Hs ->]%lift_result_ok & E)%tx_bind_ok. by apply require_scope_ok in Hs. Qed.

Lemma review_handled i thread b s r s' :
  submit_review_command app i thread b s = Ok (r, s') → answered_for i (SubmitReview thread b) (s_db s) (s_db s').
Proof.
  unfold submit_review_command. intros ([] & ? & ->%set_tenant_context_ok & E)%tx_bind_ok.
  apply tx_bind_ok in E as (rows & s1 & Hr & E). apply tx_bind_ok in E as (target & s2 & Ho & E).
  destruct target as [[th a]|]; [|by apply lift_result_ok in E as [? _]].
  unshelve epose proof (thread_rows_target _ _ _ _ _ _ _ _ Hr Ho) as (Hth & Hid & Ht & Ha & Haid & ->); [done|].
  apply tx_bind_ok in E as (process & ? & [-> _]%scalar_ok & E).
  destruct process as [process|]; [|by apply lift_result_ok in E as [? _]].
  destruct (ap_process_registry app) as [registry|]; [|by apply lift_result_ok in E as [? _]].
  apply tx_bind_ok in E as (definition & ? & [_ ->]%lift_result_ok & E).
  apply tx_bind_ok in E as ([] & ? & [_ ->]%lift_result_ok & E).
  apply tx_bind_ok in E as ([] & ? & [Hau ->]%lift_result_ok & E).
  cbv zeta in E. apply tx_bind_ok in E as ([] & ? & [_ ->]%lift_result_ok & E%translate_ok).
  unfold review_authority in Hau. apply bind_ok in Hau as ([] & Hs%require_scope_ok & Hrole).
  split_and!; [|exact (tenant_review _ _ _ _ E)|exact (signs_review _ _ _ _ E)].
  split; [exact Hs|]. exists th, a. split_and!; try done; [by injection Ht|].
  intros Hap role Hreq. rewrite Hreq in Hrole. apply raise_if_ok in Hrole. rewrite Hap, bool_decide_true in Hrole by done.
  by apply negb_false_iff in Hrole.
Qed.

(** What each handler of the API did, when it answers. *)
Lemma handled i c s u s' :
  (∀ at_ b, c = IngestEvent at_ b → has_scope i EVENTS_INGEST) →
  handle dump_datetime app i c s = Ok (u, s') → answered_for i c (s_db s) (s_db s').
Proof.
  intros Hing E.
  assert (∀ A (m : Tx A), (∀ x s1, m s = Ok (x, s1) → answered_for i c (s_db s) (s_db s1)) →
    (_ ← m; mret tt) s = Ok (u, s') → answered_for i c (s_db s) (s_db s')) as Hw.
  { intros A m Hm (x & s1 & E1 & [_ ->]%mret_ok)%tx_bind_ok. by eapply Hm. }
  destruct c as [at_ b|t b|p b|[] b|m b|e b]; cbn [handle] in E; revert E; apply Hw; clear Hw; intros x s1 E.
  - apply tx_bind_ok in E as ([] & ? & [_ ->]%lift_result_ok & E).
    apply tx_bind_ok in E as (r & ? & E%translate_ok & [_ ->]%mret_ok).
    split_and!; [split; [exact (Hing at_ b eq_refl)|done]|exact (tenant_ingest _ _ _ _ _ _ E)|].
    exact (signs_ingest (oi_actor_id i) _ _ _ _ _ _ E).
  - by apply review_handled in E.
  - apply scope_first in E as [Hs E]. apply tx_bind_ok in E as (r & ? & E%translate_ok & [_ ->]%mret_ok).
    split_and!; [by split|exact (tenant_control _ _ _ _ E)|exact (signs_control _ _ _ _ E)].
  - apply scope_first in E as [Hs E]. destruct (parse_breaker_scope _); [|by apply lift_result_ok in E as [? _]].
    apply translate_ok in E.
    split_and!; [by split|exact (tenant_transition _ _ _ _ _ _ _ _ _ E)|exact (signs_transition _ _ _ _ _ _ _ _ _ E)].
  - apply scope_first in E as [Hs E]. destruct (parse_breaker_scope _); [|by apply lift_result_ok in E as [? _]].
    apply translate_ok in E.
    split_and!; [by split|exact (tenant_transition _ _ _ _ _ _ _ _ _ E)|exact (signs_transition _ _ _ _ _ _ _ _ _ E)].
  - apply scope_first in E as [Hs E]. apply tx_bind_ok in E as (r & ? & E%translate_ok & [_ ->]%mret_ok).
    split_and!; [by split|exact (tenant_requeue _ _ _ _ E)|exact (signs_requeue _ _ _ _ E)].
  - apply scope_first in E as [Hs E%translate_ok].
    split_and!; [by split|exact (tenant_resolve _ _ _ _ _ E)|exact (signs_resolve _ _ _ _ _ E)].
Qed.

(** C8: a request changes what its sender may change, in the sender's name.  Whenever the
    API answers a command, it has established an identity with the scope of the command -
    and, for a review, over a thread of its tenant whose approval asks for no role the
    identity lacks if the command approves it; no row of another tenant has changed; and
    in each of the nine tables that record who did what no record has changed or
    gone, and every new one names the actor of the identity. *)
Theorem requests_are_authorised_and_attributed s1 s2 h c s s' :
  respond dump_datetime app s1 s2 h c s = Ok (tt, s') →
  ∃ i, identify app s1 s2 h c = Ok i ∧ authorised i c (s_db s)
    ∧ isolated (oi_tenant_id i) (s_db s) (s_db s') ∧ attributed (oi_actor_id i) (s_db s) (s_db s').
Proof.
  intros (i & ? & [Hi ->]%lift_result_ok & E)%tx_bind_ok. exists i. split; [exact Hi|].
  apply handled in E; [exact E|]. intros at_ b ->. by apply identified_scope in Hi.
Qed.
End audit.

(** ** Examples *)

(** An operator of the tenant with the credential for process controls. *)
Definition ex_operator : TenantCredential := mkTenantCredential (uuid 3) (uuid 10) (uuid 9) "ops" (sha256_hex ex_secret)
  ["processes:control"] [] CR_ACTIVE (Some (days 90)) None None.
Definition ex_api_db : Db := ex_intervened <| tenant_credentials := [ex_operator] |>.
Definition ex_api_app : Application := mkApplication
  (mkAppState PRODUCTION false (Some (mkRelease "acme" "b" "c" "gpt-4o" "r" "tiramisu.acme.r")) [uuid 10]) ∅ None.
Definition ex_headers : Headers := mkHeaders (Some ("bearer " +:+ token_text (uuid 10) (uuid 3) ex_secret)) None None.
Definition ex_takeover : ApiCommand := SubmitControl (uuid 20) (mkControlRequest (uuid 51) PC_TAKEOVER "please" None).
Definition ex_api_session : Session := ex_control_session 510 ex_api_db.
Definition ex_answer (h : Headers) (c : ApiCommand) : result (unit * Session) :=
  respond isoformat ex_api_app ex_api_session ex_api_session h c ex_api_session.

Example anonymous_controls_are_refused :
  ex_answer (mkHeaders None None None) ex_takeover = raise (HTTPException 401) "bearer credential is required".
Proof. vm_compute. reflexivity. Qed.
Example requeues_need_their_scope :
  ex_answer ex_headers (RequeueDeadLetter (uuid 1) (mkRequeueRequest (uuid 2) "again"))
  = raise (HTTPException 403) "credential lacks required scope: outbox:requeue".
Proof. vm_compute. reflexivity. Qed.

Definition ex_controlled_by_api : Db := match ex_answer ex_headers ex_takeover with Ok (_, s) => s_db s | Raise _ => empty_db end.

Lemma requests_are_authorised_and_attributed_witness :
  ∃ i, identify ex_api_app ex_api_session ex_api_session ex_headers ex_takeover = Ok i
    ∧ authorised i ex_takeover ex_api_db
    ∧ oi_actor_id i = uuid 9 ∧ (pcc_actor_id <$> process_control_commands ex_controlled_by_api) = [uuid 9].
Proof.
  destruct (requests_are_authorised_and_attributed isoformat ex_api_app ex_api_session ex_api_session ex_headers
    ex_takeover ex_api_session (match ex_answer ex_headers ex_takeover with Ok (_, s) => s | Raise _ => ex_api_session end))
    as (i & Hi & Ha & _); [vm_compute; reflexivity|].
  exists i. split; [exact Hi|]. split; [exact Ha|]. split; [|vm_compute; reflexivity].
  vm_compute in Hi. injection Hi as <-. reflexivity.
Defined.
