(* ===== verification/Adapters.v ===== *)
(** * [adapters/stubs/] and [testkit/adapter_contracts.py]: simulated providers

    [_StatefulActionAdapter] remembers the result or the conflict of every idempotency
    key; the four business adapters share one [StubBusinessState], whose helpers stand for
    what happens on the provider's side.  [StubActionAdapter] plays a queue of outcomes.
    [testkit/adapter_contracts.py] checks an adapter through its port.

    Dictionaries are finite maps; the source reads them by key or asks whether some value
    has a property.  Times beyond the range of [datetime] raise [OverflowError]; the text
    of that error is not modelled, and of pydantic's errors only what [fact_validate] and
    [conflict_validate] say. *)

From stdpp Require Import base gmap list strings.
From Stdlib Require Import ZArith Lia.
From S2P Require Import Prelude Python PyTime Json Limits Contracts Execution.

#[local] Open Scope Z_scope.
#[local] Open Scope string_scope.

(** ** The port of [core/ports/actions.py] *)

(** An adapter with its state [S]. *)
Record AdapterPort (S : Type) := mkPort {
  port_id : string;
  port_guarantees_idempotency : bool;
  port_execute : ProviderActionRequest → S → ProviderResponse * S;
  port_lookup : string → S → LookupResponse
}.
Arguments mkPort {S}.
Arguments port_id {S}.
Arguments port_guarantees_idempotency {S}.
Arguments port_execute {S}.
Arguments port_lookup {S}.

(** The checks before a call: each stops with a response or goes on with a value. *)
Inductive Checked (A : Type) := Stop (r : ProviderResponse) | Go (a : A).
Arguments Stop {A}.
Arguments Go {A}.
#[export] Instance Checked_ret : MRet Checked := λ A a, Go a.
#[export] Instance Checked_bind : MBind Checked := λ A B f m, match m with Stop r => Stop r | Go a => f a end.
Definition fail_if (b : bool) (message : string) : Checked unit := if b then Stop (FailureRaised message) else Go tt.

(** ** [adapters/stubs/business.py]: the provider's state *)

Record StubOutboundMessage := mkStubMessage {
  som_reference : string; som_recipient : string; som_body : string; som_sent_at : datetime
}.
Record StubBooking := mkStubBooking {
  sbk_reference : string; sbk_customer_id : string; sbk_slot : string; sbk_status : string
}.
Record StubPaymentRequest := mkStubPayment {
  spy_reference : string; spy_booking_reference : string; spy_amount_minor : Z; spy_currency : string;
  spy_status : string
}.
Record StubCalendarEvent := mkStubCalendarEvent {
  scv_reference : string; scv_booking_reference : string; scv_starts_at : string; scv_title : string
}.

Record StubBusinessState := mkBusiness {
  sbs_now : datetime;
  sbs_available_slots : list string;
  sbs_outbound_messages : gmap string StubOutboundMessage;
  sbs_bookings : gmap string StubBooking;
  sbs_payment_requests : gmap string StubPaymentRequest;
  sbs_calendar_events : gmap string StubCalendarEvent
}.
#[export] Instance StubBusinessState_rebuild : Rebuild StubBusinessState := λ s, mkBusiness (sbs_now s)
  (sbs_available_slots s) (sbs_outbound_messages s) (sbs_bookings s) (sbs_payment_requests s) (sbs_calendar_events s).

(** [replace(hour=10, minute=0, second=0)] *)
Definition at_ten (d : datetime) : datetime :=
  DateTime (dt_wall d - dt_wall d mod days 1 + hours 10 + dt_wall d mod sec)%Z (dt_offset d).

(** [__post_init__] of a new state. *)
Definition make_business (now : datetime) (available_slots : list string) : result StubBusinessState :=
  _ ← raise_if (is_naive now) ValueError "stub business clock must be timezone-aware";
  let default_slots := (λ n, at_ten (DateTime (dt_wall now + days n)%Z (dt_offset now))) <$> [2; 3; 4]%Z in
  _ ← raise_if (negb (nonempty available_slots) && negb (forallb valid_datetime default_slots)) OverflowError
        "date value out of range";
  Ok (mkBusiness now (if nonempty available_slots then available_slots else isoformat <$> default_slots) ∅ ∅ ∅ ∅).

Definition advance_clock (duration : Z) (s : StubBusinessState) : result StubBusinessState :=
  _ ← raise_if (duration <? 0)%Z ValueError "stub business clock cannot move backwards";
  let now := DateTime (dt_wall (sbs_now s) + duration)%Z (dt_offset (sbs_now s)) in
  _ ← raise_if (negb (valid_datetime now)) OverflowError "date value out of range";
  Ok (s <| sbs_now := now |>).

(** [{observation.key: observation.value for observation in facts}.get(key)] *)
Definition fact_of (facts : list FactObservation) (key : string) : option json :=
  assoc key (rev ((λ f, (fact_key f, fact_value f)) <$> facts)).

(** [bool(value)] of JSON data. *)
Definition truthy (v : option json) : bool :=
  match v with
  | None | Some JNull | Some (JBool false) | Some (JStr EmptyString) | Some (JArr []) | Some (JObj []) => false
  | Some (JInt n) => negb (n =? 0)%Z
  | Some (JFloat f) => match fl_value f with Some (n, _) => negb (n =? 0)%Z | None => true end
  | Some _ => true
  end.
Definition str_of (v : option json) : option string := match v with Some (JStr s) => Some s | _ => None end.
Definition int_of (v : option json) : option Z := match v with Some (JInt n) => Some n | _ => None end.

Definition completed (p : StubPaymentRequest) : StubPaymentRequest :=
  mkStubPayment (spy_reference p) (spy_booking_reference p) (spy_amount_minor p) (spy_currency p) "completed".
Definition confirmed (b : StubBooking) : StubBooking :=
  mkStubBooking (sbk_reference b) (sbk_customer_id b) (sbk_slot b) "confirmed".

Section business.
(** [str.upper]: beyond ASCII it follows tables of Unicode. *)
Context (str_upper : string → string).
(** [datetime.fromisoformat] of a text an author wrote. *)
Context (read_datetime : string → option datetime).

(** The payment a completion event reports when the state does not know it. *)
Definition reported_payment (e : CanonicalEvent) (payment_reference : string) : option StubPaymentRequest :=
  booking ← str_of (assoc "booking_reference" (ce_payload e));
  amount ← int_of (fact_of (ce_facts e) "payment.amount_minor");
  currency ← str_of (fact_of (ce_facts e) "payment.currency");
  Some (mkStubPayment payment_reference booking amount (str_upper currency) "completed").

(** The booking of that payment, when the known facts give its slot. *)
Definition known_booking (reference : string) (facts : gmap string json) : option StubBooking :=
  slot ← str_of (facts !! "booking.slot");
  Some (mkStubBooking reference
    (match facts !! "customer.email" with Some v => default reference (str_of (Some v)) | None => reference end)
    slot "confirmed").

(** [apply_event] *)
Definition apply_event (e : CanonicalEvent) (facts : gmap string json) (s : StubBusinessState) : StubBusinessState :=
  if negb (bool_decide (ce_event_type e = "payment.completed")) then s
  else
    let reported := fact_of (ce_facts e) "payment.reference" in
    match str_of (if truthy reported then reported else assoc "payment_reference" (ce_payload e)) with
    | None => s
    | Some reference =>
        match sbs_payment_requests s !! reference with
        | Some p => s <| sbs_payment_requests ::= <[reference := completed p]> |>
        | None =>
            match reported_payment e reference with
            | None => s
            | Some p =>
                let booking := spy_booking_reference p in
                let s := match sbs_bookings s !! booking, known_booking booking facts with
                         | None, Some b => s <| sbs_bookings ::= <[booking := b]> |>
                         | _, _ => s
                         end in
                s <| sbs_payment_requests ::= <[reference := p]> |>
            end
        end
    end.

(** ** What the provider reports *)

Section reports.
Context (dump_datetime : datetime → string).
(** The tenant and process an event is for; its identifier and arrival time, drawn where
    it is built. *)
Context (tenant_id process_instance_id event_id : UUID) (received_at : datetime).

Definition built (e : CanonicalEvent) : result CanonicalEvent := _ ← event_validate dump_datetime e; Ok e.
Definition checked_facts (facts : list FactObservation) : result unit := for_each fact_validate facts.

Definition reply_event (s : StubBusinessState) (reference content : string) : CanonicalEvent :=
  mkEvent event_id tenant_id (Some process_instance_id) "customer.email_received" "stub.messaging.v1"
    ("reply:" +:+ reference) (sbs_now s) received_at 1 CONFIDENTIAL
    [mkReference "stub.messaging.v1" "message" reference]
    [mkFact "customer.last_message" CUSTOMER_CLAIM (JStr content)]
    [("content", JStr content); ("in_reply_to", JStr reference)].

Definition customer_reply (reference content : string) (s : StubBusinessState) : result CanonicalEvent :=
  _ ← raise_if (negb (bool_decide (is_Some (sbs_outbound_messages s !! reference)))) LookupError
        "outbound message not found";
  _ ← raise_if (is_blank content) ValueError "customer reply cannot be blank";
  let e := reply_event s reference content in
  _ ← checked_facts (ce_facts e);
  built e.

Definition confirmation_event (s : StubBusinessState) (reference : string) (b : StubBooking) : CanonicalEvent :=
  mkEvent event_id tenant_id (Some process_instance_id) "booking.confirmed" "stub.booking.v1"
    ("confirmed:" +:+ reference) (sbs_now s) received_at 1 CONFIDENTIAL
    [mkReference "stub.booking.v1" "booking" reference]
    [mkFact "booking.reference" Contracts.AUTHORITATIVE (JStr reference);
     mkFact "booking.status" Contracts.AUTHORITATIVE (JStr "confirmed");
     mkFact "booking.slot" Contracts.AUTHORITATIVE (JStr (sbk_slot b))]
    [("booking_reference", JStr reference); ("slot", JStr (sbk_slot b))].

(** The booking is confirmed before the event is built. *)
Definition confirm_booking (reference : string) (s : StubBusinessState) : result CanonicalEvent * StubBusinessState :=
  match sbs_bookings s !! reference with
  | None => (raise LookupError "booking not found", s)
  | Some b =>
      let e := confirmation_event s reference b in
      ((_ ← checked_facts (ce_facts e); built e), s <| sbs_bookings ::= <[reference := confirmed b]> |>)
  end.

Definition completion_event (s : StubBusinessState) (reference : string) (p : StubPaymentRequest) : CanonicalEvent :=
  mkEvent event_id tenant_id (Some process_instance_id) "payment.completed" "stub.payment.v1"
    ("completed:" +:+ reference) (sbs_now s) received_at 1 CONFIDENTIAL
    [mkReference "stub.payment.v1" "payment" reference;
     mkReference "stub.booking.v1" "booking" (spy_booking_reference p)]
    [mkFact "payment.reference" Contracts.AUTHORITATIVE (JStr reference);
     mkFact "payment.status" Contracts.AUTHORITATIVE (JStr "completed");
     mkFact "payment.amount_minor" Contracts.AUTHORITATIVE (JInt (spy_amount_minor p));
     mkFact "payment.currency" Contracts.AUTHORITATIVE (JStr (spy_currency p))]
    [("payment_reference", JStr reference); ("booking_reference", JStr (spy_booking_reference p));
     ("amount_minor", JInt (spy_amount_minor p)); ("currency", JStr (spy_currency p))].

Definition complete_payment (reference : string) (s : StubBusinessState) : result CanonicalEvent * StubBusinessState :=
  match sbs_payment_requests s !! reference with
  | None => (raise LookupError "payment request not found", s)
  | Some p =>
      let e := completion_event s reference p in
      ((_ ← checked_facts (ce_facts e); built e), s <| sbs_payment_requests ::= <[reference := completed p]> |>)
  end.
End reports.

(** ** The business adapters *)

Definition _require_string (parameters : list (string * json)) (name : string) : Checked string :=
  match assoc name parameters with
  | Some (JStr v) => if is_blank v then Stop (FailureRaised (name +:+ " must be a nonblank string")) else Go v
  | _ => Stop (FailureRaised (name +:+ " must be a nonblank string"))
  end.
Definition _require_positive_int (parameters : list (string * json)) (name : string) : Checked Z :=
  match assoc name parameters with
  | Some (JInt n) => if (n <? 1)%Z then Stop (FailureRaised (name +:+ " must be a positive integer")) else Go n
  | _ => Stop (FailureRaised (name +:+ " must be a positive integer"))
  end.

(** The result with its observations, whose constructors check them. *)
Definition answered (reference : string) (result : list (string * json)) (facts : list FactObservation)
  : ProviderResponse :=
  match checked_facts facts with
  | Ok _ => Performed (mkProviderResult reference result facts)
  | Raise e => OtherRaised "ValidationError" (exn_msg e)
  end.
Definition trusted (key : string) (value : json) : FactObservation := mkFact key Contracts.AUTHORITATIVE value.
(** [f"{prefix}{request.idempotency_key[:16]}"] *)
Definition short_reference (prefix : string) (r : ProviderActionRequest) : string :=
  prefix +:+ py_prefix 16 (pr_idempotency_key r).

Definition perform_message (r : ProviderActionRequest) (s : StubBusinessState) : ProviderResponse * StubBusinessState :=
  let checks :=
    _ ← fail_if (negb (bool_decide (pr_action_type r = "send_message"))) "messaging adapter only supports send_message";
    recipient ← _require_string (pr_parameters r) "recipient";
    body ← _require_string (pr_parameters r) "body";
    Go (recipient, body) in
  match checks with
  | Stop response => (response, s)
  | Go (recipient, body) =>
      let reference := short_reference "msg_" r in
      (answered reference [("message_reference", JStr reference); ("sent", JBool true)]
         [trusted "messaging.last_outbound_reference" (JStr reference)],
       s <| sbs_outbound_messages ::= <[reference := mkStubMessage reference recipient body (sbs_now s)]> |>)
  end.

(** [any(booking.slot == slot for booking in self.state.bookings.values())] *)
Definition slot_taken (s : StubBusinessState) (slot : string) : bool :=
  existsb (λ kb, bool_decide (sbk_slot (snd kb) = slot)) (map_to_list (sbs_bookings s)).

(** [datetime.fromisoformat(slot) <= horizon] *)
Definition within_horizon (horizon : datetime) (slot : string) : Checked bool :=
  match read_datetime slot with
  | None => Stop (OtherRaised "ValueError" "Invalid isoformat string")
  | Some d => if is_naive d then Stop (OtherRaised "TypeError" "can't compare offset-naive and offset-aware datetimes")
              else Go (instant d <=? instant horizon)%Z
  end.
Fixpoint open_slots (s : StubBusinessState) (horizon : datetime) (slots : list string) : Checked (list string) :=
  match slots with
  | [] => Go []
  | slot :: slots =>
      soon ← within_horizon horizon slot;
      rest ← open_slots s horizon slots;
      Go (if soon && negb (slot_taken s slot) then slot :: rest else rest)
  end.

Definition find_slots (r : ProviderActionRequest) (s : StubBusinessState) : ProviderResponse :=
  let checks :=
    n ← _require_positive_int (pr_parameters r) "days";
    let horizon := DateTime (dt_wall (sbs_now s) + days n)%Z (dt_offset (sbs_now s)) in
    _ ← (if valid_datetime horizon then Go tt else Stop (OtherRaised "OverflowError" "date value out of range"));
    open_slots s horizon (sbs_available_slots s) in
  match checks with
  | Stop response => response
  | Go slots => answered (short_reference "availability_" r) [("slots", JArr (JStr <$> slots))]
                  [trusted "booking.available_slots" (JArr (JStr <$> slots))]
  end.

(** The slots a proposal may choose from. *)
Definition offered_slots (r : ProviderActionRequest) (s : StubBusinessState) : list string :=
  match pr_authoritative_facts r !! "booking.available_slots" with
  | Some (JArr values) => omap (λ v, str_of (Some v)) values
  | _ => sbs_available_slots s
  end.
Definition remaining_slots (s : StubBusinessState) (slot : string) : list string :=
  List.filter (λ candidate, negb (bool_decide (candidate = slot)) && negb (slot_taken s candidate))
    (sbs_available_slots s).

Definition slot_conflict (s : StubBusinessState) (slot : string) : ActionConflict :=
  mkConflict "resource_unavailable" "the requested booking slot is no longer available"
    [("resource_type", JStr "appointment_slot"); ("selected_slot", JStr slot)]
    [trusted "booking.available_slots" (JArr (JStr <$> remaining_slots s slot))].
Definition declined (c : ActionConflict) : ProviderResponse :=
  match checked_facts (conflict_facts c) ≫= λ _, conflict_validate c with
  | Ok _ => ConflictRaised c
  | Raise e => OtherRaised "ValidationError" (exn_msg e)
  end.

Definition propose (r : ProviderActionRequest) (s : StubBusinessState) : ProviderResponse * StubBusinessState :=
  let checks :=
    customer_id ← _require_string (pr_parameters r) "customer_id";
    slot ← _require_string (pr_parameters r) "slot";
    _ ← fail_if (negb (bool_decide (slot ∈ offered_slots r s))) "booking slot is not available";
    Go (customer_id, slot) in
  match checks with
  | Stop response => (response, s)
  | Go (customer_id, slot) =>
      if slot_taken s slot then (declined (slot_conflict s slot), s)
      else
        let reference := short_reference "booking_" r in
        (answered reference
           [("booking_reference", JStr reference); ("status", JStr "confirmed"); ("slot", JStr slot)]
           [trusted "booking.reference" (JStr reference); trusted "booking.status" (JStr "confirmed");
            trusted "booking.slot" (JStr slot)],
         s <| sbs_bookings ::= <[reference := mkStubBooking reference customer_id slot "confirmed"]> |>)
  end.

Definition perform_booking (r : ProviderActionRequest) (s : StubBusinessState) : ProviderResponse * StubBusinessState :=
  if bool_decide (pr_action_type r = "find_available_slots") then (find_slots r s, s)
  else if negb (bool_decide (pr_action_type r = "propose_booking")) then
    (FailureRaised "booking adapter supports find_available_slots and propose_booking", s)
  else propose r s.

(** [facts.get(key) == text] *)
Definition known_as (facts : gmap string json) (key text : string) : bool :=
  match facts !! key with Some (JStr s) => bool_decide (s = text) | _ => false end.

(** The booking is confirmed, in the provider's state or in the process's facts. *)
Definition booking_confirmed (r : ProviderActionRequest) (s : StubBusinessState) (reference : string) : bool :=
  let durable := known_as (pr_authoritative_facts r) "booking.reference" reference
    && known_as (pr_authoritative_facts r) "booking.status" "confirmed" in
  match sbs_bookings s !! reference with
  | Some b => bool_decide (sbk_status b = "confirmed") || durable
  | None => durable
  end.

Definition perform_payment (r : ProviderActionRequest) (s : StubBusinessState) : ProviderResponse * StubBusinessState :=
  let checks :=
    _ ← fail_if (negb (bool_decide (pr_action_type r = "request_payment"))) "payment adapter only supports request_payment";
    booking ← _require_string (pr_parameters r) "booking_reference";
    _ ← fail_if (negb (booking_confirmed r s booking)) "payment requires a confirmed booking";
    amount ← _require_positive_int (pr_parameters r) "amount_minor";
    currency ← _require_string (pr_parameters r) "currency";
    Go (booking, amount, str_upper currency) in
  match checks with
  | Stop response => (response, s)
  | Go (booking, amount, currency) =>
      let reference := short_reference "payment_" r in
      (answered reference
         [("payment_reference", JStr reference); ("status", JStr "pending"); ("amount_minor", JInt amount);
          ("currency", JStr currency)]
         [trusted "payment.reference" (JStr reference); trusted "payment.status" (JStr "pending");
          trusted "payment.amount_minor" (JInt amount); trusted "payment.currency" (JStr currency)],
       s <| sbs_payment_requests ::= <[reference := mkStubPayment reference booking amount currency "pending"]> |>)
  end.

Definition booking_paid (r : ProviderActionRequest) (s : StubBusinessState) (reference : string) : bool :=
  existsb (λ kp, bool_decide (spy_booking_reference (snd kp) = reference) && bool_decide (spy_status (snd kp) = "completed"))
    (map_to_list (sbs_payment_requests s))
  || known_as (pr_authoritative_facts r) "payment.status" "completed".
(** [starts_at == booking_slot] *)
Definition at_booked_slot (r : ProviderActionRequest) (s : StubBusinessState) (reference starts_at : string) : bool :=
  match sbs_bookings s !! reference with
  | Some b => bool_decide (starts_at = sbk_slot b)
  | None => known_as (pr_authoritative_facts r) "booking.slot" starts_at
  end.

Definition perform_calendar (r : ProviderActionRequest) (s : StubBusinessState) : ProviderResponse * StubBusinessState :=
  let checks :=
    _ ← fail_if (negb (bool_decide (pr_action_type r = "create_calendar_event")))
          "calendar adapter only supports create_calendar_event";
    booking ← _require_string (pr_parameters r) "booking_reference";
    _ ← fail_if (negb (booking_confirmed r s booking)) "calendar event requires a confirmed booking";
    _ ← fail_if (negb (booking_paid r s booking)) "calendar event requires completed payment";
    starts_at ← _require_string (pr_parameters r) "starts_at";
    _ ← fail_if (negb (at_booked_slot r s booking starts_at))
          "calendar event must use the confirmed booking slot";
    title ← _require_string (pr_parameters r) "title";
    Go (booking, starts_at, title) in
  match checks with
  | Stop response => (response, s)
  | Go (booking, starts_at, title) =>
      let reference := short_reference "calendar_" r in
      (answered reference [("calendar_reference", JStr reference); ("created", JBool true)]
         [trusted "calendar.reference" (JStr reference); trusted "calendar.status" (JStr "created")],
       s <| sbs_calendar_events ::= <[reference := mkStubCalendarEvent reference booking starts_at title]> |>)
  end.

(** ** [_StatefulActionAdapter] *)

Record AdapterMemory := mkMemoryOf {
  am_requests : list ProviderActionRequest;
  am_results : gmap string ProviderActionResult;
  am_conflicts : gmap string ActionConflict
}.
#[export] Instance AdapterMemory_rebuild : Rebuild AdapterMemory := λ m,
  mkMemoryOf (am_requests m) (am_results m) (am_conflicts m).
Definition new_memory : AdapterMemory := mkMemoryOf [] ∅ ∅.

Definition stateful_execute (perform : ProviderActionRequest → StubBusinessState → ProviderResponse * StubBusinessState)
    (r : ProviderActionRequest) (m : AdapterMemory) (s : StubBusinessState)
  : ProviderResponse * (AdapterMemory * StubBusinessState) :=
  let key := pr_idempotency_key r in
  let m := m <| am_requests ::= (λ rs, rs ++ [r])%list |> in
  match am_results m !! key, am_conflicts m !! key with
  | Some result, _ => (Performed result, (m, s))
  | None, Some c => (ConflictRaised c, (m, s))
  | None, None =>
      let '(response, s) := perform r s in
      (response, (match response with
                  | Performed result => m <| am_results ::= <[key := result]> |>
                  | ConflictRaised c => m <| am_conflicts ::= <[key := c]> |>
                  | _ => m
                  end, s))
  end.

Definition stateful_lookup (key : string) (m : AdapterMemory) : LookupResponse :=
  match am_results m !! key, am_conflicts m !! key with
  | Some result, _ => FoundResult result
  | None, Some c => FoundConflict c
  | None, None => NotFound
  end.

(** [stub_business_bindings]: four adapters over one business state. *)
Inductive StubProvider := MESSAGING | BOOKING | PAYMENT | CALENDAR.
#[export] Instance StubProvider_eq_dec : EqDecision StubProvider.
Proof. solve_decision. Defined.

Record StubProviders := mkProviders {
  sps_business : StubBusinessState;
  sps_memory : StubProvider → AdapterMemory
}.
Definition new_providers (s : StubBusinessState) : StubProviders := mkProviders s (λ _, new_memory).

Definition perform_of (p : StubProvider) :=
  match p with
  | MESSAGING => perform_message | BOOKING => perform_booking
  | PAYMENT => perform_payment | CALENDAR => perform_calendar
  end.
Definition provider_id (p : StubProvider) : string :=
  match p with
  | MESSAGING => "stub.messaging.v1" | BOOKING => "stub.booking.v1"
  | PAYMENT => "stub.payment.v1" | CALENDAR => "stub.calendar.v1"
  end.

Definition provider_execute (p : StubProvider) (r : ProviderActionRequest) (w : StubProviders)
  : ProviderResponse * StubProviders :=
  let '(response, (m, s)) := stateful_execute (perform_of p) r (sps_memory w p) (sps_business w) in
  (response, mkProviders s (λ q, if decide (q = p) then m else sps_memory w q)).

Definition stub_port (p : StubProvider) : AdapterPort StubProviders :=
  mkPort (provider_id p) true (provider_execute p) (λ key w, stateful_lookup key (sps_memory w p)).

Definition stub_business_bindings : list (string * AdapterPort StubProviders) :=
  [("send_message", stub_port MESSAGING); ("find_available_slots", stub_port BOOKING);
   ("propose_booking", stub_port BOOKING); ("request_payment", stub_port PAYMENT);
   ("create_calendar_event", stub_port CALENDAR)].
End business.

(** ** [adapters/stubs/actions.py] *)

(** An outcome in the queue: a result, [StubAmbiguousSuccess], or an exception. *)
Inductive StubOutcome :=
  | Succeeds (r : ProviderActionResult)
  | AmbiguousSuccess (r : ProviderActionResult)
  | RaisesConflict (c : ActionConflict)
  | RaisesFailure (message : string)
  | RaisesAmbiguous (message : string)
  | RaisesOther (type_name message : string).

Record StubActions := mkStubActions { sac_outcomes : list StubOutcome; sac_memory : AdapterMemory }.

(** The outcome a call takes from the queue; an empty queue accepts. *)
Definition next_outcome (r : ProviderActionRequest) (outcomes : list StubOutcome) : StubOutcome * list StubOutcome :=
  match outcomes with
  | o :: outcomes => (o, outcomes)
  | [] => (Succeeds (mkProviderResult ("stub:" +:+ py_prefix 16 (pr_idempotency_key r))
                       [("accepted", JBool true); ("action_type", JStr (pr_action_type r))] []), [])
  end.

Definition stub_actions_execute (r : ProviderActionRequest) (a : StubActions) : ProviderResponse * StubActions :=
  let key := pr_idempotency_key r in
  let m := sac_memory a <| am_requests ::= (λ rs, rs ++ [r])%list |> in
  match am_results m !! key, am_conflicts m !! key with
  | Some result, _ => (Performed result, mkStubActions (sac_outcomes a) m)
  | None, Some c => (ConflictRaised c, mkStubActions (sac_outcomes a) m)
  | None, None =>
      let '(outcome, outcomes) := next_outcome r (sac_outcomes a) in
      match outcome with
      | RaisesConflict c => (ConflictRaised c, mkStubActions outcomes (m <| am_conflicts ::= <[key := c]> |>))
      | RaisesFailure message => (FailureRaised message, mkStubActions outcomes m)
      | RaisesAmbiguous message => (AmbiguousRaised message, mkStubActions outcomes m)
      | RaisesOther type_name message => (OtherRaised type_name message, mkStubActions outcomes m)
      | AmbiguousSuccess result =>
          (AmbiguousRaised "stub accepted the action before the connection failed",
           mkStubActions outcomes (m <| am_results ::= <[key := result]> |>))
      | Succeeds result => (Performed result, mkStubActions outcomes (m <| am_results ::= <[key := result]> |>))
      end
  end.

Definition stub_action_port : AdapterPort StubActions :=
  mkPort "stub.actions.v1" true stub_actions_execute (λ key a, stateful_lookup key (sac_memory a)).
