(* ===== verification/AdapterContracts.v ===== *)
(** * [testkit/adapter_contracts.py]: what the kernel asks of an action adapter

    [AdapterContract] is the interface the executor relies on: an outcome can be looked
    up, and a call with the key of a known outcome repeats it without another effect.
    The simulated providers keep it; a client that checks an adapter through its port, and
    one that retries an action, are proved against the interface. *)

From stdpp Require Import base gmap list strings.
From Stdlib Require Import ZArith Lia.
From S2P Require Import Prelude Python PyTime Json Limits Contracts Execution Compiler CompilerFacts Adapters.

#[local] Open Scope Z_scope.
#[local] Open Scope string_scope.

(** ** The interface *)

(** The response that a looked-up outcome stands for. *)
Definition repeats (l : LookupResponse) (response : ProviderResponse) : Prop :=
  match l with
  | FoundResult r => response = Performed r
  | FoundConflict c => response = ConflictRaised c
  | _ => False
  end.

(** [effects] is what the provider's calls are for; the rest of the state is bookkeeping. *)
Class AdapterContract {S E : Type} (a : AdapterPort S) (effects : S → E) := {
  outcome_is_found : ∀ r s response s', port_execute a r s = (response, s') →
    match response with
    | Performed result => port_lookup a (pr_idempotency_key r) s' = FoundResult result
    | ConflictRaised c => port_lookup a (pr_idempotency_key r) s' = FoundConflict c
    | FailureRaised _ => port_lookup a (pr_idempotency_key r) s' = NotFound
    | _ => True
    end;
  outcome_is_repeated : ∀ r s response, repeats (port_lookup a (pr_idempotency_key r) s) response →
    ∃ s', port_execute a r s = (response, s') ∧ effects s' = effects s
          ∧ ∀ key, port_lookup a key s' = port_lookup a key s;
  other_keys_stay : ∀ r s key, key ≠ pr_idempotency_key r →
    port_lookup a key (snd (port_execute a r s)) = port_lookup a key s
}.

(** ** The checks *)

(** [!=] of results and of conflicts, by the values of their fields. *)
Definition facts_eqb (xs ys : list FactObservation) : bool :=
  json_eqb (JArr (fact_json <$> xs)) (JArr (fact_json <$> ys)).
Definition result_eqb (x y : ProviderActionResult) : bool :=
  bool_decide (pres_provider_reference x = pres_provider_reference y)
  && json_eqb (JObj (pres_result x)) (JObj (pres_result y)) && facts_eqb (pres_facts x) (pres_facts y).
Definition conflict_eqb (x y : ActionConflict) : bool := json_eqb (conflict_json x) (conflict_json y).

Definition found_result (l : LookupResponse) (r : ProviderActionResult) : bool :=
  match l with FoundResult r' => result_eqb r' r | _ => false end.
Definition found_conflict (l : LookupResponse) (c : ActionConflict) : bool :=
  match l with FoundConflict c' => conflict_eqb c' c | _ => false end.

(** An exception that leaves the check; its class is not modelled further. *)
Definition escaped {A} (response : ProviderResponse) : result A :=
  raise RuntimeError (match response with
                      | ConflictRaised c => conflict_message c
                      | FailureRaised m | AmbiguousRaised m | OtherRaised _ m => m
                      | Performed _ => ""
                      end).

Record MutatingActionAdapterContract := mkContract {
  mc_successful_request : ProviderActionRequest;
  mc_conflict_request : ProviderActionRequest;
  mc_expected_conflict : ActionConflict;
  mc_expired_hold_request : option ProviderActionRequest;
  mc_expected_expired_hold_conflict : option ActionConflict
}.

Section checks.
Context {S : Type} (a : AdapterPort S).

Definition executes (r : ProviderActionRequest) (s : S) : result (ProviderActionResult * S) :=
  match port_execute a r s with
  | (Performed result, s') => Ok (result, s')
  | (response, _) => escaped response
  end.

(** One round of [_assert_conflict]. *)
Definition conflicts_once (r : ProviderActionRequest) (expected : ActionConflict) (s : S) : result S :=
  match port_execute a r s with
  | (ConflictRaised c, s') =>
      _ ← raise_if (negb (conflict_eqb c expected)) AssertionError
            "adapter returned a different conflict than its contract fixture";
      Ok s'
  | (Performed _, _) => raise AssertionError "adapter did not return a definitive conflict"
  | (response, _) => escaped response
  end.
Definition _assert_conflict (r : ProviderActionRequest) (expected : ActionConflict) (s : S) : result S :=
  s ← conflicts_once r expected s;
  s ← conflicts_once r expected s;
  _ ← raise_if (negb (found_conflict (port_lookup a (pr_idempotency_key r) s) expected)) AssertionError
        "adapter lookup did not recover the definitive conflict";
  Ok s.

(** The successful request, twice, and its lookup. *)
Definition assert_idempotent (r : ProviderActionRequest) (s : S) : result S :=
  '(initial, s) ← executes r s;
  '(repeated, s) ← executes r s;
  _ ← raise_if (negb (result_eqb repeated initial)) AssertionError
        "adapter did not return the same result for an idempotency retry";
  _ ← raise_if (negb (found_result (port_lookup a (pr_idempotency_key r) s) initial)) AssertionError
        "adapter lookup did not recover the successful idempotent result";
  Ok s.

Definition assert_mutating_action_adapter_contract (f : MutatingActionAdapterContract) (s : S) : result S :=
  s ← assert_idempotent (mc_successful_request f) s;
  s ← _assert_conflict (mc_conflict_request f) (mc_expected_conflict f) s;
  match mc_expired_hold_request f, mc_expected_expired_hold_conflict f with
  | Some r, Some expected => _assert_conflict r expected s
  | Some _, None => raise AssertionError "an expired hold fixture requires its expected conflict"
  | None, Some _ => raise AssertionError "an expiry conflict requires an expired hold request"
  | None, None => Ok s
  end.

Definition assert_timeout_after_success_adapter_contract (r : ProviderActionRequest) (expected : ProviderActionResult)
    (s : S) : result S :=
  match port_execute a r s with
  | (AmbiguousRaised _, s) =>
      _ ← raise_if (negb (found_result (port_lookup a (pr_idempotency_key r) s) expected)) AssertionError
            "adapter lookup did not recover the ambiguous successful outcome";
      '(again, s) ← executes r s;
      _ ← raise_if (negb (result_eqb again expected)) AssertionError
            "adapter retry did not return the prior successful outcome";
      Ok s
  | (Performed _, _) => raise AssertionError "adapter did not model an ambiguous timeout after success"
  | (response, _) => escaped response
  end.

Definition assert_definitive_failure_adapter_contract (r : ProviderActionRequest) (message : string) (s : S) : result S :=
  match port_execute a r s with
  | (ConflictRaised _, _) => raise AssertionError "ordinary definitive failure was reported as a conflict"
  | (FailureRaised m, s) =>
      _ ← raise_if (negb (bool_decide (m = message))) AssertionError
            "adapter returned a different definitive failure";
      match port_lookup a (pr_idempotency_key r) s with
      | NotFound => Ok s
      | LookupRaised _ m => raise RuntimeError m
      | _ => raise AssertionError "definitive failure unexpectedly created a lookup outcome"
      end
  | (Performed _, _) => raise AssertionError "adapter did not return a definitive failure"
  | (response, _) => escaped response
  end.
End checks.

(** ** Clients of the interface *)

Section clients.
Context {S E : Type} (a : AdapterPort S) (effects : S → E) `{!AdapterContract a effects}.

Definition executed (rs : list ProviderActionRequest) (s : S) : S :=
  foldl (λ s r, snd (port_execute a r s)) s rs.

(** A known outcome stays what it is. *)
Lemma lookup_stays r s key response :
  repeats (port_lookup a key s) response →
  port_lookup a key (snd (port_execute a r s)) = port_lookup a key s.
Proof.
  intros Hk. destruct (decide (key = pr_idempotency_key r)) as [->|Hn]; [|by apply (other_keys_stay r s key)].
  by destruct (outcome_is_repeated r s response Hk) as (s' & -> & _ & Hl).
Qed.
Lemma lookup_stays_executed rs s key response :
  repeats (port_lookup a key s) response → port_lookup a key (executed rs s) = port_lookup a key s.
Proof.
  revert s. induction rs as [|r rs IH]; intros s Hk; [done|].
  change (executed (r :: rs) s) with (executed rs (snd (port_execute a r s))).
  rewrite IH; rewrite (lookup_stays r s key response Hk); done.
Qed.

Definition decided (response : ProviderResponse) : Prop :=
  match response with Performed _ | ConflictRaised _ => True | _ => False end.

Lemma outcome_known r s response s' :
  port_execute a r s = (response, s') →
  decided response →
  repeats (port_lookup a (pr_idempotency_key r) s') response.
Proof. intros E0 Hr. apply outcome_is_found in E0. destruct response; try done; by rewrite E0. Qed.

Lemma assert_conflict_spec r expected s :
  (∃ s2, _assert_conflict a r expected s = Ok s2)
  ↔ ∃ c, fst (port_execute a r s) = ConflictRaised c ∧ conflict_eqb c expected = true.
Proof.
  unfold _assert_conflict, conflicts_once. destruct (port_execute a r s) as [response s1] eqn:E1. cbn [fst].
  destruct response as [|c| | |]; try (split; [by intros [? ?]|by intros (? & ? & ?)]).
  destruct (conflict_eqb c expected) eqn:Ec; cbn [negb raise_if raise mbind result_bind].
  2: { split; [by intros [? ?]|]. intros (c' & [= <-] & Ee). congruence. }
  split; [by eauto|intros _]. pose proof (outcome_known _ _ _ _ E1 I) as Hf.
  destruct (outcome_is_repeated r s1 _ Hf) as (s2 & E2 & _ & Hl). rewrite E2. cbn iota.
  rewrite Ec. cbn [negb raise_if mbind result_bind].
  unfold repeats in Hf. destruct (port_lookup a (pr_idempotency_key r) s1) eqn:El; try done. injection Hf as <-.
  rewrite Hl, El. cbn [found_conflict]. rewrite Ec. by eauto.
Qed.
(** *** Retries *)

(** A request with the key of a decided one is given its answer, without another effect. *)
Lemma retry_repeats r s response s' rs r' :
  port_execute a r s = (response, s') → decided response →
  pr_idempotency_key r' = pr_idempotency_key r →
  repeats (port_lookup a (pr_idempotency_key r) (executed rs s')) response
  ∧ ∃ s2, port_execute a r' (executed rs s') = (response, s2)
          ∧ effects s2 = effects (executed rs s')
          ∧ ∀ key, port_lookup a key s2 = port_lookup a key (executed rs s').
Proof.
  intros E1 Hr Hk. pose proof (outcome_known _ _ _ _ E1 Hr) as Hf.
  assert (repeats (port_lookup a (pr_idempotency_key r) (executed rs s')) response) as Hl.
  { by rewrite (lookup_stays_executed rs s' _ response Hf). }
  split; [done|]. apply outcome_is_repeated. by rewrite Hk.
Qed.
End clients.

(** ** The simulated providers keep the contract *)

Section stateful.
Context (perform : ProviderActionRequest → StubBusinessState → ProviderResponse * StubBusinessState).

Lemma stateful_found r m s response m' s' :
  stateful_execute perform r m s = (response, (m', s')) →
  match response with
  | Performed result => stateful_lookup (pr_idempotency_key r) m' = FoundResult result
  | ConflictRaised c => stateful_lookup (pr_idempotency_key r) m' = FoundConflict c
  | FailureRaised _ => stateful_lookup (pr_idempotency_key r) m' = NotFound
  | _ => True
  end.
Proof.
  unfold stateful_execute, stateful_lookup. cbn.
  destruct (am_results m !! _) as [result|] eqn:Er; [by intros [= <- <- <-]; cbn; rewrite Er|].
  destruct (am_conflicts m !! _) as [c|] eqn:Ec; [by intros [= <- <- <-]; cbn; rewrite Er, Ec|].
  destruct (perform r s) as [response' s0]. intros [= <- <- <-].
  destruct response'; cbn; rewrite ?lookup_insert_eq, ?Er, ?Ec, ?lookup_insert_eq; done.
Qed.

Lemma stateful_repeated r m s response :
  repeats (stateful_lookup (pr_idempotency_key r) m) response →
  ∃ m', stateful_execute perform r m s = (response, (m', s)) ∧ ∀ key, stateful_lookup key m' = stateful_lookup key m.
Proof.
  unfold stateful_execute, stateful_lookup. cbn.
  destruct (am_results m !! _) as [result|]; [intros ->; by eexists|].
  destruct (am_conflicts m !! _) as [c|]; [intros ->; by eexists|done].
Qed.

Lemma stateful_other r m s key :
  key ≠ pr_idempotency_key r → stateful_lookup key (fst (snd (stateful_execute perform r m s))) = stateful_lookup key m.
Proof.
  intros Hn. unfold stateful_execute, stateful_lookup. cbn.
  destruct (am_results m !! pr_idempotency_key r); [done|]. destruct (am_conflicts m !! pr_idempotency_key r); [done|].
  destruct (perform r s) as [[] s0]; cbn; rewrite ?lookup_insert_ne by done; done.
Qed.
End stateful.

Section business.
Context (str_upper : string → string) (read_datetime : string → option datetime).

#[export] Instance stub_port_contract p : AdapterContract (stub_port str_upper read_datetime p) sps_business.
Proof.
  split; cbn; unfold provider_execute.
  - intros r w response w'.
    destruct (stateful_execute _ r _ _) as [response' [m s]] eqn:E0. intros [= <- <-].
    apply stateful_found in E0. cbn. by rewrite decide_True by done.
  - intros r w response Hr.
    destruct (stateful_repeated (perform_of str_upper read_datetime p) r _ (sps_business w) _ Hr) as (m' & -> & Hl).
    eexists. split_and!; [done|done|]. intros key. cbn. by rewrite decide_True by done.
  - intros r w key Hn. pose proof (stateful_other (perform_of str_upper read_datetime p) r (sps_memory w p) (sps_business w) key Hn) as H.
    destruct (stateful_execute _ r _ _) as [response' [m s]]. cbn in *. by rewrite decide_True by done.
Qed.
End business.

#[export] Instance stub_action_contract : AdapterContract stub_action_port sac_outcomes.
Proof.
  split; cbn; unfold stub_actions_execute, stateful_lookup; cbn.
  - intros r [outcomes m] response s'. cbn.
    destruct (am_results m !! _) as [result|] eqn:Er; [by intros [= <- <-]; cbn; rewrite Er|].
    destruct (am_conflicts m !! _) as [c|] eqn:Ec; [by intros [= <- <-]; cbn; rewrite Er, Ec|].
    destruct (next_outcome r outcomes) as [[] rest]; intros [= <- <-]; cbn; rewrite ?lookup_insert_eq, ?Er, ?Ec, ?lookup_insert_eq; done.
  - intros r [outcomes m] response. cbn. destruct (am_results m !! _) as [result|] eqn:Er; [intros ->; by eexists|].
    destruct (am_conflicts m !! _) as [c|] eqn:Ec; [intros ->; by eexists|done].
  - intros r [outcomes m] key Hn. cbn.
    destruct (am_results m !! pr_idempotency_key r); [done|]. destruct (am_conflicts m !! pr_idempotency_key r); [done|].
    destruct (next_outcome r outcomes) as [[] rest]; cbn; rewrite ?lookup_insert_ne by done; done.
Qed.

(** ** Examples *)

Definition ex_business : StubBusinessState :=
  mkBusiness (utc (days 80)) ["monday"; "tuesday"] ∅ ∅ ∅ ∅.
Definition ex_book (key slot : string) : ProviderActionRequest :=
  mkProviderRequest "propose_booking" [("customer_id", JStr "ada"); ("slot", JStr slot)] key (uuid 1) (uuid 2) ∅.
Definition ex_booked : StubProviders :=
  snd (provider_execute id fromisoformat BOOKING (ex_book "0123456789abcdef-1" "monday") (new_providers ex_business)).
