(* ===== verification/AdapterSafety.v ===== *)
(** * The simulated providers: retries have no effect, no slot is booked twice

    Over any run of the simulated providers - requests of every kind to every adapter, the
    clock, and what the provider's side reports - the outcome of a key stays what it is,
    and two bookings never share a slot.  For the slots one step is left out, the
    completion of a payment of a booking the state does not know, which copies the slot of
    the process's facts ([apply_event]). *)

From stdpp Require Import base gmap list strings relations.
From Stdlib Require Import ZArith Lia.
From S2P Require Import Prelude Python PyTime Json Limits Contracts Execution Adapters AdapterContracts.

#[local] Open Scope Z_scope.
#[local] Open Scope string_scope.

Definition slots_exclusive (s : StubBusinessState) : Prop :=
  ∀ k1 k2 b1 b2, sbs_bookings s !! k1 = Some b1 → sbs_bookings s !! k2 = Some b2 →
    sbk_slot b1 = sbk_slot b2 → k1 = k2.

Lemma slot_free s slot k b : slot_taken s slot = false → sbs_bookings s !! k = Some b → sbk_slot b ≠ slot.
Proof.
  intros Hf Hk E. unfold slot_taken in Hf. rewrite <- not_true_iff_false, existsb_exists in Hf. apply Hf.
  exists (k, b). rewrite <- list_elem_of_In, elem_of_map_to_list. split; [done|]. cbn. by rewrite bool_decide_true.
Qed.

(** The bookings after a step: as they were, one booked in a free slot, or one confirmed. *)
Inductive Rebooked (s : StubBusinessState) : gmap string StubBooking → Prop :=
  | rebooked_same : Rebooked s (sbs_bookings s)
  | rebooked_free k b : slot_taken s (sbk_slot b) = false → Rebooked s (<[k := b]> (sbs_bookings s))
  | rebooked_confirmed k b : sbs_bookings s !! k = Some b → Rebooked s (<[k := confirmed b]> (sbs_bookings s)).

Lemma rebooked_unchanged s m : m = sbs_bookings s → Rebooked s m.
Proof. intros ->. apply rebooked_same. Qed.

Lemma rebooked_exclusive s s' : slots_exclusive s → Rebooked s (sbs_bookings s') → slots_exclusive s'.
Proof.
  intros He Hr. unfold slots_exclusive. remember (sbs_bookings s') as bookings. clear Heqbookings.
  destruct Hr as [|k b Hb|k b Hb]; [exact He| |].
  - intros k1 k2 b1 b2 [[-> <-]|[Hn1 H1]]%lookup_insert_Some [[-> <-]|[Hn2 H2]]%lookup_insert_Some E.
    + done.
    + by destruct (slot_free s _ _ _ Hb H2).
    + by destruct (slot_free s _ _ _ Hb H1).
    + by eapply He.
  - intros k1 k2 b1 b2 [[-> <-]|[Hn1 H1]]%lookup_insert_Some [[-> <-]|[Hn2 H2]]%lookup_insert_Some E.
    + done.
    + by apply (He k1 k2 b b2).
    + by apply (He k1 k2 b1 b).
    + by eapply He.
Qed.

Section providers.
Context (str_upper : string → string) (read_datetime : string → option datetime) (dump_datetime : datetime → string).

Lemma performed_rebooks p r s : Rebooked s (sbs_bookings (snd (perform_of str_upper read_datetime p r s))).
Proof.
  destruct p; cbn.
  - unfold perform_message. destruct (_ ≫= _) as [|[??]]; by apply rebooked_unchanged.
  - unfold perform_booking. destruct (bool_decide _); [by apply rebooked_unchanged|]. destruct (negb _); [by apply rebooked_unchanged|].
    unfold propose. destruct (_ ≫= _) as [|[customer slot]]; [by apply rebooked_unchanged|].
    destruct (slot_taken s slot) eqn:Ht; [by apply rebooked_unchanged|]. cbn. by apply rebooked_free.
  - unfold perform_payment. destruct (_ ≫= _) as [|[[??]?]]; by apply rebooked_unchanged.
  - unfold perform_calendar. destruct (_ ≫= _) as [|[[??]?]]; by apply rebooked_unchanged.
Qed.

Lemma executed_rebooks p r w :
  Rebooked (sps_business w) (sbs_bookings (sps_business (snd (provider_execute str_upper read_datetime p r w)))).
Proof.
  unfold provider_execute, stateful_execute. cbn.
  destruct (am_results (sps_memory w p) !! _); [by apply rebooked_unchanged|].
  destruct (am_conflicts (sps_memory w p) !! _); [by apply rebooked_unchanged|].
  pose proof (performed_rebooks p r (sps_business w)) as H.
  destruct (perform_of str_upper read_datetime p r (sps_business w)) as [response s]. exact H.
Qed.

(** A request, or any change of the business state from the provider's side. *)
Inductive any_step : StubProviders → StubProviders → Prop :=
  | any_request p r w : any_step w (snd (provider_execute str_upper read_datetime p r w))
  | any_report w s : any_step w (mkProviders s (sps_memory w)).

(** The event reports no payment of a booking that the state does not know. *)
Definition booking_known (e : CanonicalEvent) (facts : gmap string json) (s : StubBusinessState) : Prop :=
  sbs_bookings (apply_event str_upper e facts s) = sbs_bookings s.

(** What happens to the providers. *)
Inductive provider_step : StubProviders → StubProviders → Prop :=
  | step_request p r w : provider_step w (snd (provider_execute str_upper read_datetime p r w))
  | step_clock d s w : advance_clock d (sps_business w) = Ok s → provider_step w (mkProviders s (sps_memory w))
  | step_confirm tenant process event at_ reference w :
      provider_step w (mkProviders (snd (confirm_booking dump_datetime tenant process event at_ reference (sps_business w)))
                         (sps_memory w))
  | step_payment tenant process event at_ reference w :
      provider_step w (mkProviders (snd (complete_payment dump_datetime tenant process event at_ reference (sps_business w)))
                         (sps_memory w))
  | step_event e facts w : booking_known e facts (sps_business w) →
      provider_step w (mkProviders (apply_event str_upper e facts (sps_business w)) (sps_memory w)).

Lemma step_rebooks w w' : provider_step w w' → Rebooked (sps_business w) (sbs_bookings (sps_business w')).
Proof.
  destruct 1 as [p r w|d s w E|tenant process event at_ reference w|tenant process event at_ reference w|e facts w Hk].
  - apply executed_rebooks.
  - unfold advance_clock in E. apply bind_ok in E as ([] & _ & E). cbv zeta in E.
    apply bind_ok in E as ([] & _ & [= <-]). by apply rebooked_unchanged.
  - unfold confirm_booking. destruct (sbs_bookings (sps_business w) !! reference) as [b|] eqn:Eb; [|by apply rebooked_unchanged].
    by apply rebooked_confirmed.
  - unfold complete_payment. destruct (sbs_payment_requests (sps_business w) !! reference); by apply rebooked_unchanged.
  - unfold booking_known in Hk. cbn. rewrite Hk. by apply rebooked_unchanged.
Qed.

(** *** Retries *)

(** The memory of adapter [p] after another's request is what it was. *)
Lemma other_adapter_remembers p q r w :
  q ≠ p → sps_memory (snd (provider_execute str_upper read_datetime q r w)) p = sps_memory w p.
Proof.
  intros Hn. unfold provider_execute. destruct (stateful_execute _ r _ _) as [response [m s]]. cbn.
  by rewrite decide_False by done.
Qed.

Lemma step_remembers p w w' key response :
  any_step w w' → repeats (stateful_lookup key (sps_memory w p)) response →
  repeats (stateful_lookup key (sps_memory w' p)) response.
Proof.
  destruct 1 as [q r w|w s]; [|done]. intros Hk. destruct (decide (q = p)) as [->|Hn].
  - pose proof (lookup_stays (stub_port str_upper read_datetime p) sps_business r w key response Hk) as Hl.
    cbn in Hl. by rewrite Hl.
  - by rewrite (other_adapter_remembers p q r w Hn).
Qed.

(** A retry has no effect.  Once one of the simulated adapters has answered a request
    with a result or a conflict, then whatever happens after - requests to any of the
    four adapters, the clock, reports of the provider's side - the outcome can be looked
    up under its key, and a request with that key, whatever its parameters, is given the
    same answer and changes nothing of the business state the four share. *)
Theorem retries_have_no_effect p r w response w1 w2 r' :
  provider_execute str_upper read_datetime p r w = (response, w1) → decided response →
  rtc any_step w1 w2 → pr_idempotency_key r' = pr_idempotency_key r →
  repeats (port_lookup (stub_port str_upper read_datetime p) (pr_idempotency_key r) w2) response
  ∧ ∃ w3, provider_execute str_upper read_datetime p r' w2 = (response, w3) ∧ sps_business w3 = sps_business w2.
Proof.
  intros E1 Hr Hs Hk. pose proof (outcome_known (stub_port str_upper read_datetime p) sps_business _ _ _ _ E1 Hr) as Hf.
  assert (repeats (port_lookup (stub_port str_upper read_datetime p) (pr_idempotency_key r) w2) response) as Hl.
  { clear E1. induction Hs as [|w1 wm w2 H1 _ IH]; [done|]. apply IH. by eapply step_remembers. }
  split; [done|]. rewrite <- Hk in Hl.
  destruct (outcome_is_repeated (AdapterContract := stub_port_contract str_upper read_datetime p) r' w2 response Hl)
    as (w3 & He & Hb & _). by exists w3.
Qed.
End providers.

(** ** Examples *)

Example taken_slots_conflict :
  fst (provider_execute id fromisoformat BOOKING (ex_book "another-key" "monday") ex_booked)
  = ConflictRaised (slot_conflict (sps_business ex_booked) "monday").
Proof. vm_compute. reflexivity. Qed.
(** References keep 16 characters of the key, so that keys that share them share a booking. *)
Example prefixes_collide :
  (sbk_slot <$> sbs_bookings (sps_business
     (snd (provider_execute id fromisoformat BOOKING (ex_book "0123456789abcdef-2" "tuesday") ex_booked))))
    !! "booking_0123456789abcdef" = Some "tuesday".
Proof. vm_compute. reflexivity. Qed.


Lemma retries_have_no_effect_witness :
  ∃ w, provider_execute id fromisoformat BOOKING (ex_book "0123456789abcdef-1" "tuesday") ex_booked
       = (fst (provider_execute id fromisoformat BOOKING (ex_book "0123456789abcdef-1" "monday") (new_providers ex_business)), w)
       ∧ sps_business w = sps_business ex_booked.
Proof.
  refine (proj2 (retries_have_no_effect id fromisoformat BOOKING (ex_book "0123456789abcdef-1" "monday")
    (new_providers ex_business) _ ex_booked ex_booked (ex_book "0123456789abcdef-1" "tuesday") _ _ (rtc_refl _ _) _));
    [vm_compute; reflexivity|exact I|reflexivity].
Defined.
