(* ===== verification/ScenarioScript.v ===== *)
(** * [testkit/scenario_script.py]: the interpretation of a compiled scenario

    [CompiledScenarioScript] reads the JSON data of a step, resolves its references to
    facts, and builds the event or the decision the step stands for.  The author's models
    are read through [model_dump], what a validated model of parameters dumps to; [repr]
    of Python data is an argument, for it only enters texts. *)

From stdpp Require Import base gmap list strings pretty.
From Stdlib Require Import ZArith Lia.
From S2P Require Import Prelude Python Identifiers PyTime Json Limits Contracts DecisionPolicy Transitions Definitions Schema Session Deployment State Context AgentTurn Digests Projects Packs Outputs.

#[local] Open Scope Z_scope.
#[local] Open Scope string_scope.

(** ** The data of a step *)

(** [ScenarioEvent] and [ScenarioAction] with plain JSON content. *)
Record EventData := mkEventData {
  ev_source : string;
  ev_external_references : list ExternalReference;
  ev_facts : list FactObservation;
  ev_payload : list (string * json)
}.
Record ActionData := mkActionData {
  av_logical_action_key : string;
  av_parameters : list (string * json);
  av_rationale : string;
  av_approve : bool
}.

(** The fields of a document that has no others than [names]. *)
Definition fields_of (names : list string) (v : json) : option (list (string * json)) :=
  match v with
  | JObj items => if forallb (λ kv, bool_decide (fst kv ∈ names)) items then Some items else None
  | _ => None
  end.
Definition read_str (v : json) : option string := match v with JStr s => Some s | _ => None end.
Definition read_items (v : json) : option (list (string * json)) := match v with JObj items => Some items | _ => None end.
Definition read_list {A} (read : json → option A) (v : json) : option (list A) :=
  match v with JArr vs => mapM read vs | _ => None end.
Definition read_bounded (lo hi : nat) (v : json) : option string :=
  s ← read_str v; if length_within lo hi s then Some s else None.
Definition read_dotted (v : json) : option string :=
  s ← read_str v; if is_dotted_identifier s then Some s else None.
(** A field with a default. *)
Definition field_or {A} (name : string) (items : list (string * json)) (d : A) (read : json → option A) : option A :=
  match assoc name items with Some v => read v | None => Some d end.
Definition field {A} (name : string) (items : list (string * json)) (read : json → option A) : option A :=
  v ← assoc name items; read v.
Definition validated {A} (o : option A) (model : string) : result A :=
  match o with Some a => Ok a | None => raise ValueError model end.

Definition read_kind (v : json) : option FactKind :=
  s ← read_str v;
  if bool_decide (s = "authoritative") then Some Contracts.AUTHORITATIVE
  else if bool_decide (s = "customer_claim") then Some CUSTOMER_CLAIM else None.
Definition read_scenario_fact (v : json) : option FactObservation :=
  items ← fields_of ["key"; "kind"; "value"] v;
  key ← field "key" items read_dotted; kind ← field "kind" items read_kind; value ← assoc "value" items;
  Some (mkFact key kind value).
Definition read_reference (v : json) : option ExternalReference :=
  items ← fields_of ["provider"; "resource_type"; "external_id"] v;
  provider ← field "provider" items (read_bounded 1 100); type ← field "resource_type" items (read_bounded 1 100);
  id ← field "external_id" items (read_bounded 1 500);
  Some (mkReference provider type id).

(** [ScenarioEvent.model_validate] *)
Definition read_event (v : json) : result EventData :=
  validated (
    items ← fields_of ["source"; "external_references"; "facts"; "payload"] v;
    source ← field_or "source" items "scenario" (read_bounded 1 100);
    references ← field_or "external_references" items [] (read_list read_reference);
    facts ← field_or "facts" items [] (read_list read_scenario_fact);
    payload ← field_or "payload" items [] read_items;
    Some (mkEventData source references facts payload)) "ScenarioEvent".

(** [ScenarioAction.model_validate] *)
Definition read_action (v : json) : result ActionData :=
  validated (
    items ← fields_of ["logical_action_key"; "parameters"; "rationale"; "approve"] v;
    key ← field "logical_action_key" items (read_bounded 1 200);
    parameters ← field_or "parameters" items [] read_items;
    rationale ← field "rationale" items (read_bounded 1 1000);
    approve ← field_or "approve" items false (λ v, match v with JBool b => Some b | _ => None end);
    Some (mkActionData key parameters rationale approve)) "ScenarioAction".

(** [parse_wait] *)
Definition read_event_wait (items : list (string * json)) : option ScenarioWait :=
  items ← fields_of ["type"; "event_type"] (JObj items);
  type ← field "event_type" items read_dotted; Some (ScenarioEventWait type).
Definition read_timer_wait (items : list (string * json)) : option ScenarioWait :=
  items ← fields_of ["type"; "timer_id"; "delay_seconds"] (JObj items);
  type ← field_or "type" items "timer" read_str;
  id ← field "timer_id" items (read_bounded 1 200);
  delay ← field "delay_seconds" items (λ v, match v with JInt n => if (n <? 1)%Z then None else Some n | _ => None end);
  if bool_decide (type = "timer") then Some (ScenarioTimerWait id delay) else None.
Definition is_text (o : option json) (text : string) : bool :=
  match o with Some (JStr s) => bool_decide (s = text) | _ => false end.
Definition parse_wait (st : ScenarioStepDescription) : result ScenarioWait :=
  match sd_value st with
  | JObj items =>
      if is_text (assoc "type" items) "event" then validated (read_event_wait items) "ScenarioEventWait"
      else validated (read_timer_wait items) "ScenarioTimerWait"
  | _ => raise TypeError "object has no attribute 'get'"
  end.

(** ** Indexing Python data *)

(** The characters of a string; [fuel] bounds their number. *)
Fixpoint characters (fuel : nat) (s : string) : list string :=
  match fuel, s with
  | S fuel, String _ _ =>
      let c := py_prefix 1 s in
      c :: characters fuel (String.substring (String.length c) (String.length s) s)
  | _, _ => []
  end.
Definition chars (s : string) : list string := characters (String.length s) s.

(** [xs[n]] with negative positions from the end. *)
Definition py_nth {A} (xs : list A) (n : Z) : option A :=
  let len := Z.of_nat (length xs) in
  if ((0 <=? n) && (n <? len))%Z then xs !! Z.to_nat n
  else if ((- len <=? n) && (n <? 0))%Z then xs !! Z.to_nat (len + n)
  else None.

(** [value[part]]; [None] is a [KeyError], an [IndexError] or a [TypeError].  A boolean is
    an integer. *)
Definition subscript (value part : json) : option json :=
  let position := match part with JInt n => Some n | JBool b => Some (if b then 1 else 0) | _ => None end in
  match value, part with
  | JObj items, JStr k => assoc k items
  | JArr xs, _ => n ← position; py_nth xs n
  | JStr s, _ => n ← position; JStr <$> py_nth (chars s) n
  | _, _ => None
  end.
Definition subscripts (value : json) (path : list json) : option json :=
  fold_left (λ value part, v ← value; subscript v part) path (Some value).

(** What a loop over [document.get("path", [])] goes through. *)
Definition path_parts (path : option json) : result (list json) :=
  match path with
  | None => Ok []
  | Some (JArr parts) => Ok parts
  | Some (JStr s) => Ok (JStr <$> chars s)
  | Some (JObj items) => Ok (JStr ∘ fst <$> items)
  | Some _ => raise TypeError "object is not iterable"
  end.

(** ** [CompiledScenarioScript] *)

Definition SCENARIO_NAMESPACE : UUID := uuid 0x9ed12c20aac25cd29918c484baa38938.

Record Script := mkScriptOf {
  sp_pack : ClientPack;
  sp_journey : JourneyDescription;
  sp_scenario : ScenarioDescription;
  sp_identity : string
}.

(** The scenarios of a project with their journeys. *)
Definition scenarios_of (p : ProjectDescription) : list (JourneyDescription * ScenarioDescription) :=
  concat (map (λ j, map (pair j) (jd_scenarios j)) (pj_journeys p)).

(** [_find_scenario] *)
Definition _find_scenario (repr_str : string → string) (p : ProjectDescription) (scenario_id : string)
  : result (JourneyDescription * ScenarioDescription) :=
  match List.filter (λ js, bool_decide (sn_id (snd js) = scenario_id)) (scenarios_of p) with
  | [] =>
      let choices := join_with ", " (sorted (map (sn_id ∘ snd) (scenarios_of p))) in
      raise ScenarioRunError ("unknown scenario " +:+ repr_str scenario_id +:+ "; available scenarios: "
                              +:+ (if is_empty choices then "none" else choices))
  | [found] => Ok found
  | _ => raise ScenarioRunError ("scenario ID " +:+ repr_str scenario_id +:+ " is ambiguous across project journeys")
  end.

Definition definition_of (s : Script) : result ProcessDefinition :=
  get_definition (cp_registry (sp_pack s)) (jd_id (sp_journey s)) (jd_version (sp_journey s)).

Definition deterministic_uuid (s : Script) (value : string) : UUID :=
  uuid5 SCENARIO_NAMESPACE (sp_identity s +:+ ":" +:+ value).

(** [prospective_snapshot]: the facts with those of the events and results of the turn. *)
Definition add_observation (facts : gmap string json * gmap string json) (f : FactObservation) :=
  match fact_kind f with
  | Contracts.AUTHORITATIVE => (<[fact_key f := fact_value f]> (fst facts), snd facts)
  | CUSTOMER_CLAIM => (fst facts, <[fact_key f := fact_value f]> (snd facts))
  end.
Definition with_facts (p : ProcessSnapshot) (authoritative claims : gmap string json) : ProcessSnapshot :=
  mkProcessSnapshot (ps_tenant_id p) (ps_process_instance_id p) (ps_process_type p)
    (ps_process_definition_version p) (ps_status p) authoritative claims (ps_fact_provenance p)
    (ps_memory_summary p) (ps_memory_summary_source_event_ids p) (ps_memory_summary_source_review_command_ids p)
    (ps_memory_summary_source_action_attempt_ids p) (ps_memory_summary_source_timer_ids p)
    (ps_open_commitments p) (ps_current_wake_conditions p) (ps_state_version p).
Definition prospective_snapshot (i : AgentTurnInput) : ProcessSnapshot :=
  let p := ti_process i in
  let '(authoritative, claims) :=
    fold_left add_observation (concat (map ce_facts (ti_events i)) ++ concat (map xc_facts (ti_action_results i)))
      (ps_authoritative_facts p, ps_customer_claims p) in
  with_facts p authoritative claims.

(** The value of a fact of the snapshot, authoritative before claimed. *)
Definition fact_in (p : ProcessSnapshot) (key : string) : option json :=
  match ps_authoritative_facts p !! key with
  | Some v => Some v
  | None => ps_customer_claims p !! key
  end.

(** A reference to a fact, by its shape. *)
Definition is_fact_document (items : list (string * json)) : bool :=
  is_text (assoc "type" items) "fact"
  && forallb (λ kv, bool_decide (fst kv ∈ ["type"; "fact_key"; "path"])) items.

Section script.
Context (repr : json → string).
Context (dump_datetime : datetime → string).
Context (model_dump : ParametersModel → list (string * json) → list (string * json)).
(** The generated output class of the pack; [None] is another class. *)
Context (output_type : option GeneratedOutputType).
Context (s : Script).

(** [str(value)] *)
Definition py_str (v : json) : string := match v with JStr t => t | _ => repr v end.

Definition step_error (st : ScenarioStepDescription) (message : string) : exn :=
  Exn ScenarioRunError ("scenario " +:+ sn_id (sp_scenario s) +:+ " step " +:+ repr (JStr (sd_description st))
                        +:+ ": " +:+ message).
Definition fail_step {A} (st : ScenarioStepDescription) (message : string) : result A := Raise (step_error st message).
Definition fail_step_if (b : bool) (st : ScenarioStepDescription) (message : string) : result unit :=
  if b then fail_step st message else Ok tt.

Section resolve.
Context (p : ProcessSnapshot) (st : ScenarioStepDescription).

Definition resolve_fact (items : list (string * json)) : result json :=
  let key := default JNull (assoc "fact_key" items) in
  match key with
  | JArr _ | JObj _ => raise TypeError "unhashable type"
  | _ =>
      match (match key with JStr k => fact_in p k | _ => None end) with
      | None => fail_step st ("fact is not available yet: " +:+ py_str key)
      | Some value =>
          path ← path_parts (assoc "path" items);
          match subscripts value path with
          | Some v => Ok v
          | None => fail_step st ("fact path is unavailable: " +:+ py_str key +:+ " "
                                  +:+ py_str (default (JArr []) (assoc "path" items)))
          end
      end
  end.

Fixpoint resolve (v : json) : result json :=
  match v with
  | JObj items =>
      if is_fact_document items then resolve_fact items
      else
        items ← (fix go items := match items with
                 | [] => Ok []
                 | (k, x) :: items => y ← resolve x; ys ← go items; Ok ((k, y) :: ys)
                 end) items;
        Ok (JObj items)
  | JArr xs =>
      xs ← (fix go xs := match xs with
            | [] => Ok []
            | x :: xs => y ← resolve x; ys ← go xs; Ok (y :: ys)
            end) xs;
      Ok (JArr xs)
  | _ => Ok v
  end.
End resolve.

(** ** Events *)

(** [FactObservation(...)] of each fact of the event, its value resolved. *)
Fixpoint resolved_facts (p : ProcessSnapshot) (st : ScenarioStepDescription) (facts : list FactObservation)
  : result (list FactObservation) :=
  match facts with
  | [] => Ok []
  | f :: facts =>
      value ← resolve p st (fact_value f);
      let f := mkFact (fact_key f) (fact_kind f) value in
      _ ← fact_validate f;
      rest ← resolved_facts p st facts;
      Ok (f :: rest)
  end.

Definition build_event (st : ScenarioStepDescription) (step_index : nat) (tenant_id : UUID)
    (process_id : option UUID) (occurred_at : datetime) (p : ProcessSnapshot) : result CanonicalEvent :=
  let reference := default "None" (sd_reference st) in
  data ← read_event (sd_value st);
  facts ← resolved_facts p st (ev_facts data);
  payload ← resolve p st (JObj (ev_payload data));
  match sd_reference st, payload with
  | Some event_type, JObj payload =>
      let e := mkEvent (deterministic_uuid s ("event:" +:+ pretty step_index +:+ ":" +:+ reference)) tenant_id process_id
                 event_type (ev_source data)
                 (sn_id (sp_scenario s) +:+ ":" +:+ pretty step_index +:+ ":" +:+ reference)
                 occurred_at occurred_at 1 CONFIDENTIAL (ev_external_references data) facts payload in
      _ ← event_validate dump_datetime e;
      Ok e
  | _, _ => raise ValueError "CanonicalEvent"
  end.

(** ** Decisions *)

(** [now + timedelta(seconds=delay)] *)
Definition after_seconds (now : datetime) (delay : Z) : result datetime :=
  let d := DateTime (dt_wall now + delay * sec)%Z (dt_offset now) in
  _ ← raise_if (negb (valid_datetime d)) OverflowError "date value out of range";
  Ok d.

(** The proposal of the generated type for the parameters of an action. *)
Definition proposal_output (t : GeneratedOutputType) (action_type : option string) (a : ActionData) (parameters : json)
  : result ActionProposalOutput :=
  match List.find (λ pt, bool_decide (Some (pt_action_type pt) = action_type)) (gt_proposals t), parameters with
  | Some pt, JObj items =>
      match pt_parameters pt with
      | Some m =>
          _ ← pm_model_validate m ((λ kv, (fst kv, json_data (snd kv))) <$> items);
          Ok (mkProposalOutput (av_logical_action_key a) (av_rationale a) (pt_action_type pt) (model_dump m items))
      | None => raise ValueError "parameters"
      end
  | _, _ => raise ValueError "action"
  end.

(** What the document of a scripted decision holds besides its status. *)
Inductive ScriptedDecision :=
  | Proposes (action_type : option string) (a : ActionData) (parameters : json)
  | Waits (w : WakeCondition)
  | Completes.

(** The text [isoformat()] of a timer is read back as the same time. *)
Definition scripted_decision (st : ScenarioStepDescription) (i : AgentTurnInput) (now : datetime)
  : result ScriptedDecision :=
  match sd_kind st with
  | SK_ACTION =>
      action ← read_action (sd_value st);
      parameters ← resolve (prospective_snapshot i) st (JObj (av_parameters action));
      Ok (Proposes (sd_reference st) action parameters)
  | SK_WAIT =>
      wait ← parse_wait st;
      match wait with
      | ScenarioEventWait event_type => Ok (Waits (EventWakeCondition event_type))
      | ScenarioTimerWait _ delay => at_ ← after_seconds now delay; Ok (Waits (TimerWakeCondition at_))
      end
  | _ => Ok Completes
  end.

(** [agent_decision_output_type.model_validate(payload)] *)
Definition scripted_output (t : GeneratedOutputType) (d : ScriptedDecision) : result AgentDecisionOutput :=
  o ← match d with
      | Proposes action_type a parameters =>
          proposal ← proposal_output t action_type a parameters;
          Ok (mkDecisionOutput DS_ACTIVE [proposal] [] empty_memory)
      | Waits w => Ok (mkDecisionOutput DS_WAITING [] [w] empty_memory)
      | Completes => Ok (mkDecisionOutput DS_COMPLETED [] [] empty_memory)
      end;
  _ ← output_validate t o;
  Ok o.

Definition with_request_id (step_index position : nat) (a : ActionProposal) : ActionProposal :=
  mkProposal (deterministic_uuid s ("action:" +:+ pretty step_index +:+ ":" +:+ pretty position +:+ ":"
                                    +:+ ap_logical_action_key a))
    (ap_logical_action_key a) (ap_action_type a) (ap_parameters a) (ap_rationale a).

(** [build_decision]; the identifiers drawn for the decision and its actions are replaced. *)
Definition build_decision (st : ScenarioStepDescription) (step_index : nat) (i : AgentTurnInput) (now : datetime)
    (decision_id : UUID) (action_ids : nat → UUID) : result AgentDecision :=
  scripted ← scripted_decision st i now;
  match output_type with
  | None => raise ScenarioRunError "client pack output type is not a generated project output"
  | Some t =>
      o ← match scripted_output t scripted with
          | Raise e => if is_value_error (exn_cls e)
                       then fail_step st ("scripted decision is invalid: " +:+ exn_msg e) else Raise e
          | Ok o => Ok o
          end;
      d ← to_agent_decision t o i decision_id action_ids;
      Ok (mkDecision (deterministic_uuid s ("decision:" +:+ pretty step_index)) (ad_based_on_event_ids d)
            (ad_based_on_review_command_ids d) (ad_based_on_action_attempt_ids d) (ad_based_on_timer_ids d)
            (ad_status d) (imap (with_request_id step_index) (ad_actions d)) (ad_wake_conditions d)
            (ad_memory_update d))
  end.

(** ** Expectations *)

Definition require_expected_action (st : ScenarioStepDescription) (d : AgentDecision) (expected : ActionData)
    (expected_parameters : json) : result unit :=
  match ad_actions d with
  | [a] =>
      fail_step_if (negb (bool_decide (ad_status d = DS_ACTIVE)) || nonempty (ad_wake_conditions d)
                    || negb (bool_decide (Some (ap_action_type a) = sd_reference st))
                    || negb (bool_decide (ap_logical_action_key a = av_logical_action_key expected))
                    || negb (json_eqb (JObj (ap_parameters a)) expected_parameters)
                    || negb (bool_decide (ap_rationale a = av_rationale expected)))
        st "generated action changed the scripted action identity"
  | actions => fail_step st ("scripted decision produced " +:+ pretty (length actions)
                             +:+ " actions; expected exactly one")
  end.

Definition expected_wake (w : ScenarioWait) (now : datetime) : result WakeCondition :=
  match w with
  | ScenarioEventWait event_type => let w := EventWakeCondition event_type in _ ← wake_validate w; Ok w
  | ScenarioTimerWait _ delay => at_ ← after_seconds now delay; let w := TimerWakeCondition at_ in _ ← wake_validate w; Ok w
  end.
Definition require_expected_wait (st : ScenarioStepDescription) (d : AgentDecision) (now : datetime) : result unit :=
  wait ← parse_wait st;
  expected ← expected_wake wait now;
  fail_step_if (negb (bool_decide (ad_status d = DS_WAITING))
                || negb (json_eqb (JArr (wake_dump dump_datetime <$> ad_wake_conditions d))
                           (JArr [wake_dump dump_datetime expected])))
    st "generated wake plan changed the scripted wait".

Definition assert_fact_value (st : ScenarioStepDescription) (p : ProcessSnapshot) : result json :=
  let key := default "None" (sd_reference st) in
  match (reference ← sd_reference st; fact_in p reference) with
  | None => fail_step st ("expected fact is absent: " +:+ key)
  | Some actual =>
      _ ← fail_step_if (negb (json_eqb actual (sd_value st))) st
            ("fact " +:+ key +:+ " is " +:+ repr actual +:+ "; expected " +:+ repr (sd_value st));
      Ok actual
  end.
End script.

(** [CompiledScenarioScript.__init__] *)
Definition make_script (repr_str : string → string) (pack : ClientPack) (scenario_id : string)
    (run_identity : option string) : result Script :=
  match cp_project pack with
  | None => raise ScenarioRunError "client pack has no conventional project scenarios"
  | Some project =>
      '(journey, scenario) ← _find_scenario repr_str project scenario_id;
      let base_identity := cp_fingerprint pack +:+ ":" +:+ jd_id journey +:+ ":" +:+ sn_id scenario in
      Ok (mkScriptOf pack journey scenario (or_else run_identity base_identity))
  end.

(** ** What was written is read *)

#[local] Arguments length_within : simpl never.
#[local] Arguments is_dotted_identifier : simpl never.
#[local] Arguments Z.ltb : simpl never.
#[local] Arguments read_list : simpl never.
#[local] Arguments fmap : simpl never.
#[local] Arguments fields_of : simpl never.
(** The fields of a dump are those of its model. *)
Ltac known_texts :=
  cbn; repeat match goal with
  | |- context [bool_decide (?x = ?y)] => first [change (bool_decide (x = y)) with true|change (bool_decide (x = y)) with false]; cbn
  end.
Ltac known_fields :=
  cbv beta iota delta [fields_of step_value_json wait_json];
  match goal with |- context [forallb ?f ?items] => change (forallb f items) with true end; known_texts.

Lemma read_list_dump {A B} (dump : A → json) (read : json → option B) (f : A → B) (P : A → Prop) xs :
  (∀ x, P x → read (dump x) = Some (f x)) → Forall P xs → read_list read (JArr (dump <$> xs)) = Some (f <$> xs).
Proof.
  intros Hr Hxs. unfold read_list. apply mapM_Some. apply Forall2_fmap. induction Hxs; constructor; auto.
Qed.

Definition reference_fields_ok (r : ExternalReference) : Prop :=
  length_within 1 100 (er_provider r) = true ∧ length_within 1 100 (er_resource_type r) = true
  ∧ length_within 1 500 (er_external_id r) = true.
Definition fact_key_ok (f : ScenarioFact) : Prop := is_dotted_identifier (sf_key f) = true.

Lemma read_reference_dump r : reference_fields_ok r → read_reference (reference_json r) = Some r.
Proof.
  destruct r as [p t i]. unfold reference_fields_ok, read_reference, reference_json, field, read_bounded. known_fields. intros (-> & -> & ->). done.
Qed.

Definition fact_data (f : ScenarioFact) : FactObservation := mkFact (sf_key f) (sf_kind f) (data_json (sf_value f)).
Lemma read_fact_dump f : fact_key_ok f → read_scenario_fact (scenario_fact_json f) = Some (fact_data f).
Proof.
  destruct f as [k kind v]. unfold fact_key_ok, read_scenario_fact, scenario_fact_json, field, read_dotted. known_fields. intros ->. cbn. by destruct kind.
Qed.

(** The content of a step as the interpreter reads it. *)
Definition event_data (e : ScenarioEvent) : EventData :=
  mkEventData (se_source e) (se_external_references e) (fact_data <$> se_facts e) (items_json (se_payload e)).
Definition action_data (a : ScenarioAction) : ActionData :=
  mkActionData (sa_logical_action_key a) (items_json (sa_parameters a)) (sa_rationale a) (sa_approve a).

(** The data of a compiled step reads back.  The compiler dumps the author's events, actions
    and waits as JSON; reading the dump of a valid one gives its content again, with its
    references to facts as the documents the interpreter resolves. *)
Theorem scenario_data_reads_back :
  (∀ e, scenario_event_validate e = Ok tt → Forall reference_fields_ok (se_external_references e) →
     Forall fact_key_ok (se_facts e) → read_event (step_value_json (EventValue e)) = Ok (event_data e))
  ∧ (∀ a, scenario_action_validate a = Ok tt → read_action (step_value_json (ActionValue a)) = Ok (action_data a))
  ∧ (∀ w kind description reference, wait_validate w = Ok tt →
       parse_wait (mkStepDescription kind description reference (step_value_json (WaitValue w))) = Ok w).
Proof.
  split_and!.
  - intros [source refs facts payload] Hv Hr Hf. apply raise_if_ok, negb_false_iff in Hv. cbn in Hv, Hr, Hf.
    unfold read_event, event_data, field_or, read_bounded. cbn [step_value_json se_source se_external_references se_facts se_payload].
    known_fields.
    rewrite (read_list_dump reference_json read_reference id reference_fields_ok refs read_reference_dump Hr).
    rewrite (read_list_dump scenario_fact_json read_scenario_fact fact_data fact_key_ok facts read_fact_dump Hf).
    cbn. rewrite Hv. cbn. by rewrite list_fmap_id.
  - intros [key parameters rationale approve] Hv. apply raise_if_ok, negb_false_iff, andb_true_iff in Hv as [Hk Hr].
    cbn in Hk, Hr. unfold read_action, action_data, field_or, field, read_bounded. cbn [step_value_json]. known_fields. by rewrite Hk, Hr.
  - intros [e|i d] kind description reference Hv; apply raise_if_ok in Hv.
    + apply negb_false_iff in Hv. unfold parse_wait, read_event_wait, field, read_dotted. known_texts. known_fields. by rewrite Hv.
    + apply orb_false_iff in Hv as [Hi%negb_false_iff Hd]. unfold parse_wait, read_timer_wait, field_or, field, read_bounded.
      known_texts. known_fields. by rewrite Hi, Hd.
Qed.

Lemma scenario_data_reads_back_witness :
  let a := mkScenarioAction "book" [("slot", PFact (mkScenarioValue "booking.slots" [inl "first"; inr (-1)%Z]))] "book it" true in
  let e := mkScenarioEvent "scenario" [mkReference "crm" "customer" "7"]
             [mkScenarioFact "customer.name" CUSTOMER_CLAIM (PStr "Ada")] [] in
  read_action (step_value_json (ActionValue a)) = Ok (action_data a)
  ∧ read_event (step_value_json (EventValue e)) = Ok (event_data e)
  ∧ parse_wait (mkStepDescription SK_WAIT "it waits" (Some "daily") (step_value_json (WaitValue (ScenarioTimerWait "daily" 60))))
    = Ok (ScenarioTimerWait "daily" 60).
Proof.
  destruct scenario_data_reads_back as (He & Ha & Hw). split_and!; [apply Ha; reflexivity| |apply Hw; reflexivity].
  apply He; [reflexivity|repeat constructor|repeat constructor].
Defined.
(** A reference whose path counts from the end. *)
Example resolves_from_the_end :
  subscripts (JObj [("slots", JArr [JStr "monday"; JStr "tuesday"])]) [JStr "slots"; JInt (-1)] = Some (JStr "tuesday").
Proof. reflexivity. Qed.
