(* ===== verification/ScenarioDriver.v ===== *)
(** * [testkit/scenarios.py]: a scenario run through the production policies

    [KernelScenarioDriver.run] plays the steps of a compiled scenario: it builds the events,
    scripts the decision of every turn, and puts it through the policies and transitions
    of the kernel, with the simulation adapters of the pack.  The loop takes one turn per
    round; [fuel] bounds the rounds, and every round passes a step.

    The state of the adapters is that of [W], reached through [port_of]; a run that raises
    does not return it.  [drawn_decision] and [drawn_action] are the identifiers the models
    draw, by turn. *)

From stdpp Require Import base gmap list strings pretty.
From Stdlib Require Import ZArith Lia.
From S2P Require Import Prelude Python PyTime Json Limits Contracts DecisionPolicy Transitions Definitions Communications Schema Session Deployment State Execution Context AgentTurn Projects Packs Outputs Adapters Digests ScenarioScript.

#[local] Open Scope Z_scope.
#[local] Open Scope string_scope.

(** ** The trace and the result *)

Inductive ScenarioTraceKind :=
  | TK_EVENT | TK_DECISION | TK_ACTION | TK_APPROVAL | TK_RESULT | TK_WAKE | TK_FACT | TK_COMPLETE.
Definition trace_kind_value (k : ScenarioTraceKind) : string :=
  match k with
  | TK_EVENT => "event" | TK_DECISION => "decision" | TK_ACTION => "action" | TK_APPROVAL => "approval"
  | TK_RESULT => "result" | TK_WAKE => "wake" | TK_FACT => "fact" | TK_COMPLETE => "complete"
  end.

Record ScenarioTraceEntry := mkEntry {
  te_sequence : nat;
  te_occurred_at : datetime;
  te_kind : ScenarioTraceKind;
  te_description : string;
  te_details : list (string * json)
}.
Definition entry_dict (e : ScenarioTraceEntry) : json :=
  JObj [("sequence", JInt (Z.of_nat (te_sequence e))); ("occurred_at", JStr (isoformat (te_occurred_at e)));
        ("kind", JStr (trace_kind_value (te_kind e))); ("description", JStr (te_description e));
        ("details", JObj (te_details e))].

(** [_append_trace] *)
Definition _append_trace (trace : list ScenarioTraceEntry) (occurred_at : datetime) (kind : ScenarioTraceKind)
    (description : string) (details : list (string * json)) : list ScenarioTraceEntry :=
  (trace ++ [mkEntry (S (length trace)) occurred_at kind description details])%list.

Record ScenarioResult := mkScenarioResult {
  sr_project_id : string;
  sr_journey_id : string;
  sr_scenario_id : string;
  sr_title : string;
  sr_final_status : ProcessStatus;
  sr_authoritative_facts : gmap string json;
  sr_customer_claims : gmap string json;
  sr_action_types : list string;
  sr_approval_count : nat;
  sr_trace : list ScenarioTraceEntry
}.
Definition passed (r : ScenarioResult) : bool := bool_decide (sr_final_status r = PS_COMPLETED).

Definition result_dict (r : ScenarioResult) : json :=
  JObj [("project_id", JStr (sr_project_id r)); ("journey_id", JStr (sr_journey_id r));
        ("scenario_id", JStr (sr_scenario_id r)); ("title", JStr (sr_title r)); ("passed", JBool (passed r));
        ("final_status", JStr (process_status_value (sr_final_status r)));
        ("authoritative_facts", JObj (fact_items (sr_authoritative_facts r)));
        ("customer_claims", JObj (fact_items (sr_customer_claims r)));
        ("action_types", strings_json (sr_action_types r)); ("approval_count", JInt (Z.of_nat (sr_approval_count r)));
        ("trace", JArr (entry_dict <$> sr_trace r))].

Definition render (r : ScenarioResult) : string :=
  join_with newline
    ((["PASS: " +:+ sr_title r +:+ " [" +:+ sr_scenario_id r +:+ "]"; "Journey: " +:+ sr_journey_id r]
      ++ ((λ e, "  " +:+ pretty (te_sequence e) +:+ ". " +:+ trace_kind_value (te_kind e) +:+ ": " +:+ te_description e)
            <$> sr_trace r)
      ++ ["Final status: " +:+ process_status_value (sr_final_status r);
          "Actions: " +:+ pretty (length (sr_action_types r)) +:+ "; approvals: " +:+ pretty (sr_approval_count r)])%list).

(** ** The state of a run *)

Record DriverState (W : Type) := mkDriver {
  dr_now : datetime;
  dr_snapshot : ProcessSnapshot;
  dr_trace : list ScenarioTraceEntry;
  dr_action_types : list string;
  dr_approval_count : nat;
  dr_pending_events : list CanonicalEvent;
  dr_pending_results : list ActionResultContext;
  dr_pending_timers : list string;
  dr_index : nat;
  dr_turn_number : nat;
  dr_outbound_message_times : list datetime;
  dr_last_human_reply_at : option datetime;
  dr_latest_automated_response_at : option datetime;
  dr_opted_out_at : option datetime;
  dr_world : W
}.
Arguments mkDriver {W}.
Arguments dr_now {W}.
Arguments dr_snapshot {W}.
Arguments dr_trace {W}.
Arguments dr_action_types {W}.
Arguments dr_approval_count {W}.
Arguments dr_pending_events {W}.
Arguments dr_pending_results {W}.
Arguments dr_pending_timers {W}.
Arguments dr_index {W}.
Arguments dr_turn_number {W}.
Arguments dr_outbound_message_times {W}.
Arguments dr_last_human_reply_at {W}.
Arguments dr_latest_automated_response_at {W}.
Arguments dr_opted_out_at {W}.
Arguments dr_world {W}.
#[export] Instance DriverState_rebuild W : Rebuild (DriverState W) := λ r, mkDriver (dr_now r) (dr_snapshot r)
  (dr_trace r) (dr_action_types r) (dr_approval_count r) (dr_pending_events r) (dr_pending_results r)
  (dr_pending_timers r) (dr_index r) (dr_turn_number r) (dr_outbound_message_times r)
  (dr_last_human_reply_at r) (dr_latest_automated_response_at r) (dr_opted_out_at r) (dr_world r).

(** The steps of the facts asserted next. *)
Fixpoint leading_facts (steps : list ScenarioStepDescription) : list ScenarioStepDescription :=
  match steps with
  | st :: steps => if bool_decide (sd_kind st = SK_FACT) then st :: leading_facts steps else []
  | [] => []
  end.

(** [except cls as error: raise script.error(step, str(error))] *)
Definition caught {A} (catches : exn_class → bool) (m : result A) (handler : string → result A) : result A :=
  match m with
  | Raise e => if catches (exn_cls e) then handler (exn_msg e) else Raise e
  | Ok a => Ok a
  end.
Definition is_class (c c' : exn_class) : bool := bool_decide (c' = c).

(** [f"{type(error).__name__}: {error}"] of what a provider raises. *)
Definition provider_error (response : ProviderResponse) : string :=
  match response with
  | Performed _ => ""
  | ConflictRaised c => "DefinitiveActionConflict: " +:+ conflict_message c
  | FailureRaised m => "DefinitiveActionFailure: " +:+ m
  | AmbiguousRaised m => "AmbiguousActionOutcome: " +:+ m
  | OtherRaised type_name m => type_name +:+ ": " +:+ m
  end.

(** ** [KernelScenarioDriver] *)

Section driver.
Context {W : Type} (port_of : AdapterObject → AdapterPort W).
Context (repr : json → string) (dump_datetime : datetime → string) (dump_time : time → string).
Context (model_dump : ParametersModel → list (string * json) → list (string * json)).
Context (output_type : option GeneratedOutputType) `{Zones}.
Context (drawn_decision : nat → UUID) (drawn_action : nat → nat → UUID).
Context (s : Script) (definition : ProcessDefinition).

#[local] Abbreviation steps := (sn_steps (sp_scenario s)).
#[local] Abbreviation policy := (communication_policy definition).
#[local] Abbreviation fail_step := (fail_step repr s).
#[local] Abbreviation fail_step_if := (fail_step_if repr s).

Definition traced (kind : ScenarioTraceKind) (description : string) (details : list (string * json))
    (r : DriverState W) : DriverState W :=
  r <| dr_trace := _append_trace (dr_trace r) (dr_now r) kind description details |>.

(** *** The wake source *)

(** The times of contact an event gives. *)
Definition contacted (e : CanonicalEvent) (r : DriverState W) : DriverState W :=
  let t := ce_event_type e in
  if bool_decide (t ∈ cp_reply_event_types policy) then
    r <| dr_last_human_reply_at := Some (ce_received_at e) |> <| dr_latest_automated_response_at := None |>
  else if bool_decide (t ∈ cp_automated_response_event_types policy) then
    r <| dr_latest_automated_response_at := Some (ce_received_at e) |>
  else if bool_decide (t ∈ cp_opt_out_event_types policy) then r <| dr_opted_out_at := Some (ce_received_at e) |>
  else r.

(** [getattr(wake, "event_type", None) == event_type] *)
Definition awaits (event_type : string) (w : WakeCondition) : bool :=
  match w with EventWakeCondition t => bool_decide (t = event_type) | _ => false end.

Definition is_pending (r : DriverState W) : bool :=
  nonempty (dr_pending_events r) || nonempty (dr_pending_results r) || nonempty (dr_pending_timers r).

(** Without a pending source the next step is the event that wakes the process. *)
Definition wake_up (st : ScenarioStepDescription) (r : DriverState W) : result (DriverState W) :=
  if is_pending r then Ok r
  else
    _ ← fail_step_if (negb (bool_decide (sd_kind st = SK_EVENT))) st "expected a business event wake source";
    e ← build_event repr dump_datetime s st (dr_index r) (deterministic_uuid s "tenant")
          (Some (deterministic_uuid s "process")) (dr_now r) (dr_snapshot r);
    _ ← fail_step_if ((0 <? dr_index r)%nat
                      && negb (existsb (awaits (ce_event_type e)) (ps_current_wake_conditions (dr_snapshot r))))
          st ("process is not waiting for " +:+ ce_event_type e);
    let r := contacted e (r <| dr_pending_events := [e] |>) in
    Ok (traced TK_EVENT (sd_description st) [("event_type", JStr (ce_event_type e))] r
          <| dr_index ::= S |>).

(** *** The decision *)

Definition turn_input (r : DriverState W) : AgentTurnInput :=
  mkTurnInput (deterministic_uuid s ("turn:" +:+ pretty (dr_turn_number r))) (Some (dr_now r)) (dr_snapshot r)
    (dr_pending_events r) [] (dr_pending_results r) (dr_pending_timers r) (compile_instructions definition).

(** The arguments [validate_decision] is called with: no reviews and no conflicted payloads
    are expected. *)
Definition expected_turn (r : DriverState W) : TurnExpectation :=
  mkExpectation (dr_now r) (Some (ce_event_id <$> dr_pending_events r)) None
    (Some (xc_attempt_id <$> dr_pending_results r)) (Some (dr_pending_timers r)) []
    (Some (fact_items (prospective_facts (turn_input r)))) true.

(** The checks of the decision against the step that scripts it. *)
Definition require_scripted (st : ScenarioStepDescription) (i : AgentTurnInput) (d : AgentDecision) (now : datetime)
  : result (option ActionData) :=
  match sd_kind st with
  | SK_ACTION =>
      action ← read_action (sd_value st);
      parameters ← resolve repr s (prospective_snapshot i) st (JObj (av_parameters action));
      _ ← require_expected_action repr s st d action parameters;
      Ok (Some action)
  | SK_WAIT => _ ← require_expected_wait repr dump_datetime s st d now; Ok None
  | _ => Ok None
  end.

Definition decision_details (d : AgentDecision) : list (string * json) :=
  [("status", JStr (decision_status_value (ad_status d))); ("actions", strings_json (ap_action_type <$> ad_actions d));
   ("wake_conditions", JArr (wake_dump dump_datetime <$> ad_wake_conditions d))].

Definition decide_turn (st : ScenarioStepDescription) (r : DriverState W)
  : result (AgentDecision * option ActionData * DriverState W) :=
  _ ← fail_step_if (negb (bool_decide (sd_kind st ∈ [SK_ACTION; SK_WAIT; SK_COMPLETE]))) st
        "expected an action, wait, or completion decision";
  lifetime_block ← evaluate_process_lifetime (sn_started_at (sp_scenario s)) policy (dr_now r);
  _ ← match lifetime_block with Some b => fail_step st (cb_message b) | None => Ok tt end;
  let r := r <| dr_turn_number ::= S |> in
  let i := turn_input r in
  _ ← turn_input_validate i;
  d ← build_decision repr model_dump output_type s st (dr_index r) i (dr_now r)
        (drawn_decision (dr_turn_number r)) (drawn_action (dr_turn_number r));
  _ ← caught (is_class DecisionRejected) (validate_decision d (decision_policy definition) (expected_turn r))
        (fail_step st);
  action ← require_scripted st i d (dr_now r);
  Ok (d, action, traced TK_DECISION (sd_description st) (decision_details d) r).

(** *** The projection *)

(** The facts with the observations of the turn, events before results. *)
Definition projected (r : DriverState W) : FactProjection :=
  let p := dr_snapshot r in
  let facts := mkProjection (ps_authoritative_facts p) (ps_customer_claims p) (ps_fact_provenance p) in
  let facts := fold_left (λ facts e, apply_fact_observations (ce_facts e) "event" (ce_event_id e) facts)
                 (dr_pending_events r) facts in
  fold_left (λ facts x, apply_fact_observations (xc_facts x) "action_attempt" (xc_attempt_id x) facts)
    (dr_pending_results r) facts.

Definition within_limits (st : ScenarioStepDescription) (facts : FactProjection) : result unit :=
  caught is_value_error
    (require_process_fact_projection (fact_items (fp_authoritative facts)) (fact_items (fp_claims facts))
       (fact_items (fp_provenance facts)) DEFAULT_PLATFORM_SAFETY_LIMITS)
    (fail_step st).

(** *** The actions *)

Definition is_outbound (a : ActionProposal) : bool := bool_decide (ap_action_type a ∈ cp_outbound_action_types policy).
Definition contact_facts (r : DriverState W) : CommunicationSafetyFacts :=
  Communications.mkFacts (sn_started_at (sp_scenario s)) (dr_outbound_message_times r) None (dr_last_human_reply_at r)
    (dr_latest_automated_response_at r) (dr_opted_out_at r) true.

(** The communication policy allows an outbound action. *)
Definition contact_allowed (st : ScenarioStepDescription) (a : ActionProposal) (r : DriverState W) : result unit :=
  if is_outbound a then
    communication ← evaluate_communication_safety policy (contact_facts r) (dr_now r);
    caught (is_class CommunicationSafetyBlocked) (require_allowed communication)
      (λ m, fail_step st ("communication safety blocked " +:+ ap_action_type a +:+ ": " +:+ m))
  else Ok tt.

Definition permission_for (a : ActionProposal) : PermissionOutcome :=
  apd_outcome (evaluate (action_policy dump_time definition) a).

(** The loop over the proposed actions: their permissions and what they leave open. *)
Fixpoint classify (st : ScenarioStepDescription) (actions : list ActionProposal) (open_actions : OpenActions)
    (r : DriverState W) : result (list (ActionProposal * PermissionOutcome) * OpenActions * DriverState W) :=
  match actions with
  | [] => Ok ([], open_actions, r)
  | a :: actions =>
      let permission := permission_for a in
      let status := initial_action_request_status permission in
      _ ← contact_allowed st a r;
      let is_open := negb (bool_decide (status = DENIED)) in
      let r := if is_open && is_outbound a then r <| dr_outbound_message_times ::= (λ ts, ts ++ [dr_now r])%list |>
               else r in
      let r := traced TK_ACTION ("Proposed " +:+ ap_action_type a)
                 [("permission", JStr (permission_value permission));
                  ("logical_action_key", JStr (ap_logical_action_key a))] r in
      '(classified, open_actions, r) ← classify st actions
         (if is_open then open_actions ++ [(ap_action_request_id a, status)] else open_actions)%list r;
      Ok ((a, permission) :: classified, open_actions, r)
  end.

(** [snapshot.model_copy(update=...)] *)
Definition next_snapshot (p : ProcessSnapshot) (transition : ProjectedProcessTransition) (facts : FactProjection)
    (m : MemoryUpdate) : ProcessSnapshot :=
  mkProcessSnapshot (ps_tenant_id p) (ps_process_instance_id p) (ps_process_type p)
    (ps_process_definition_version p) (ppt_status transition) (fp_authoritative facts) (fp_claims facts)
    (fp_provenance facts) (mu_summary m) (mu_summary_source_event_ids m) (mu_summary_source_review_command_ids m)
    (mu_summary_source_action_attempt_ids m) (mu_summary_source_timer_ids m) (mu_open_commitments m)
    (ppt_wake_conditions transition) (ps_state_version p + 1).

(** The facts, the actions and the transition of a decision. *)
Definition apply_turn (st : ScenarioStepDescription) (d : AgentDecision) (r : DriverState W)
  : result (list (ActionProposal * PermissionOutcome) * DriverState W) :=
  let facts := projected r in
  _ ← within_limits st facts;
  '(classified, open_actions, r) ← classify st (ad_actions d) [] r;
  transition ← caught (is_class ProcessTransitionRejected)
                 (project_process_transition d open_actions (Some (pd_terminal_states definition))
                    (fact_items (fp_authoritative facts)) (pd_completion_requirements definition)) (fail_step st);
  Ok (classified, r <| dr_snapshot := next_snapshot (dr_snapshot r) transition facts (ad_memory_update d) |>).

(** [_assert_fact] for each assertion. *)
Fixpoint assert_facts (assertions : list ScenarioStepDescription) (r : DriverState W) : result (DriverState W) :=
  match assertions with
  | [] => Ok r
  | st :: assertions =>
      actual ← assert_fact_value repr s st (dr_snapshot r);
      assert_facts assertions (traced TK_FACT (sd_description st)
        [("fact_key", opt_json JStr (sd_reference st)); ("value", actual)] r)
  end.

(** *** What follows the decision *)

(** [_execute_action] *)
Definition _execute_action (a : ActionProposal) (r : DriverState W) : result (ActionResultContext * W) :=
  match assoc (ap_action_type a) (cp_simulation_bindings (sp_pack s)) with
  | None => raise ScenarioRunError ("scenario action has no explicitly safe simulation adapter: " +:+ ap_action_type a)
  | Some adapter =>
      let tenant_id := deterministic_uuid s "tenant" in
      let process_id := deterministic_uuid s "process" in
      let key := execution_idempotency_key tenant_id process_id (ap_action_request_id a) 1
                   (action_payload_identity (ap_action_type a) (ap_parameters a)) in
      match port_execute (port_of adapter)
              (mkProviderRequest (ap_action_type a) (ap_parameters a) key tenant_id process_id
                 (ps_authoritative_facts (dr_snapshot r))) (dr_world r) with
      | (Performed result, world) =>
          let x := mkActionResult
            (deterministic_uuid s ("attempt:" +:+ pretty (dr_turn_number r) +:+ ":" +:+ ap_logical_action_key a))
            (ap_action_request_id a) 1 (ap_action_type a) (ap_parameters a) AT_SUCCEEDED (adapter_id adapter) key
            (Some (pres_provider_reference result)) (Some (pres_result result)) (pres_facts result)
            None None None None None in
          _ ← action_result_validate x;
          Ok (x, world)
      | (response, _) =>
          raise ScenarioRunError ("scenario provider rejected " +:+ ap_action_type a +:+ ": " +:+ provider_error response)
      end
  end.

(** The loop over the classified actions. *)
Fixpoint execute_actions (st : ScenarioStepDescription) (spec : ActionData)
    (classified : list (ActionProposal * PermissionOutcome)) (r : DriverState W)
  : result (list ActionResultContext * DriverState W) :=
  match classified with
  | [] => Ok ([], r)
  | (a, permission) :: classified =>
      let asked := bool_decide (permission = REQUIRE_APPROVAL) in
      _ ← fail_step_if (asked && negb (av_approve spec)) st
            (ap_action_type a +:+ " requires an explicit scenario approval");
      _ ← fail_step_if (negb asked && av_approve spec) st (ap_action_type a +:+ " does not require approval");
      let r := if asked then
                 traced TK_APPROVAL ("Approved " +:+ ap_action_type a)
                   [("logical_action_key", JStr (ap_logical_action_key a))] (r <| dr_approval_count ::= S |>)
               else r in
      _ ← fail_step_if (bool_decide (permission = DENY)) st ("policy denied " +:+ ap_action_type a);
      '(x, world) ← _execute_action a r;
      let r := r <| dr_world := world |> <| dr_action_types ::= (λ ts, ts ++ [ap_action_type a])%list |> in
      let r := traced TK_RESULT (ap_action_type a +:+ " succeeded")
                 [("provider_reference", opt_json JStr (xc_provider_reference x))] r in
      '(xs, r) ← execute_actions st spec classified r;
      Ok (x :: xs, r)
  end.

(** [now += timedelta(seconds=delay)] *)
Definition follow_up (st : ScenarioStepDescription) (spec : option ActionData)
    (classified : list (ActionProposal * PermissionOutcome)) (r : DriverState W) : result (DriverState W) :=
  match sd_kind st, spec with
  | SK_ACTION, Some spec =>
      '(xs, r) ← execute_actions st spec classified r;
      Ok (r <| dr_pending_results := xs |>)
  | SK_ACTION, None => raise AssertionError ""
  | SK_WAIT, _ =>
      wait ← parse_wait st;
      let r := traced TK_WAKE (sd_description st)
                 (match wait_json wait with JObj items => items | _ => [] end) r in
      match wait with
      | ScenarioTimerWait timer_id delay =>
          now ← after_seconds (dr_now r) delay;
          Ok (r <| dr_now := now |> <| dr_pending_timers := [timer_id] |>)
      | ScenarioEventWait _ => Ok r
      end
  | _, _ =>
      Ok (traced TK_COMPLETE (sd_description st)
            [("status", JStr (process_status_value (ps_status (dr_snapshot r))))] r)
  end.

(** *** The loop *)

Definition scenario_error {A} (message : string) : result A :=
  raise ScenarioRunError ("scenario " +:+ sn_id (sp_scenario s) +:+ " " +:+ message).

(** The assertions and the decision after the wake source. *)
Definition take_turn (r : DriverState W) : result (DriverState W) :=
  let assertions := leading_facts (drop (dr_index r) steps) in
  let r := r <| dr_index ::= Nat.add (length assertions) |> in
  match steps !! dr_index r with
  | None => scenario_error "ends without an agent decision"
  | Some st =>
      '(d, spec, r) ← decide_turn st r;
      '(classified, r) ← apply_turn st d r;
      r ← assert_facts assertions r;
      follow_up st spec classified
        (r <| dr_pending_events := [] |> <| dr_pending_results := [] |> <| dr_pending_timers := [] |>
           <| dr_index ::= S |>)
  end.

(** One round, from the step [st] at the index of [r]. *)
Definition play_turn (st : ScenarioStepDescription) (r : DriverState W) : result (DriverState W) :=
  r ← wake_up st r;
  take_turn r.

(** [while index < len(scenario.steps)]; [None] is out of fuel. *)
Fixpoint play (fuel : nat) (r : DriverState W) : option (result (DriverState W)) :=
  match steps !! dr_index r with
  | None => Some (Ok r)
  | Some st =>
      match fuel with
      | O => None
      | S fuel => match play_turn st r with Ok r => play fuel r | Raise e => Some (Raise e) end
      end
  end.

Definition initial_snapshot : ProcessSnapshot :=
  mkProcessSnapshot (deterministic_uuid s "tenant") (deterministic_uuid s "process") (jd_id (sp_journey s))
    (jd_version (sp_journey s)) PS_ACTIVE ∅ ∅ ∅ None [] [] [] [] [] [] 0.
Definition initial_state (world : W) : DriverState W :=
  mkDriver (sn_started_at (sp_scenario s)) initial_snapshot [] [] 0 [] [] [] 0 0 [] None None None world.

Definition scenario_result (project : ProjectDescription) (r : DriverState W) : result ScenarioResult :=
  let p := dr_snapshot r in
  _ ← (if bool_decide (ps_status p = PS_COMPLETED) then Ok tt
       else scenario_error ("ended in " +:+ process_status_value (ps_status p) +:+ ", not completed"));
  Ok (mkScenarioResult (pj_id project) (jd_id (sp_journey s)) (sn_id (sp_scenario s)) (sn_title (sp_scenario s))
        (ps_status p) (ps_authoritative_facts p) (ps_customer_claims p) (dr_action_types r) (dr_approval_count r)
        (dr_trace r)).

(** The rounds of a run pass the steps of its scenario. *)
Definition run_script (project : ProjectDescription) (world : W) : option (result (ScenarioResult * W)) :=
  (λ played, r ← played; result ← scenario_result project r; Ok (result, dr_world r))
    <$> play (length steps) (initial_state world).
End driver.

(** [KernelScenarioDriver.run] *)
Definition run_scenario {W} (port_of : AdapterObject → AdapterPort W) (repr : json → string)
    (dump_datetime : datetime → string) (dump_time : time → string)
    (model_dump : ParametersModel → list (string * json) → list (string * json))
    (output_type : option GeneratedOutputType) `{Zones} (drawn_decision : nat → UUID)
    (drawn_action : nat → nat → UUID) (pack : ClientPack) (scenario_id : string) (world : W)
  : option (result (ScenarioResult * W)) :=
  let prepared :=
    s ← make_script (λ t, repr (JStr t)) pack scenario_id None;
    definition ← definition_of s;
    _ ← snapshot_validate (initial_snapshot s);
    Ok (s, definition) in
  match prepared, cp_project pack with
  | Ok (s, definition), Some project =>
      run_script port_of repr dump_datetime dump_time model_dump output_type drawn_decision drawn_action s definition
        project world
  | Raise e, _ => Some (Raise e)
  | Ok _, None => Some (raise ScenarioRunError "client pack has no conventional project scenarios")
  end.
