(* ===== verification/ScenarioRuns.v ===== *)
(** * What a run of a scenario means

    A run ends; one that passes has played a script: after the first event, turns that act,
    wait or assert facts, and a completion at the end. *)

From stdpp Require Import base gmap list strings pretty.
From Stdlib Require Import ZArith Lia.
From S2P Require Import Prelude Python PyTime Json Limits Contracts DecisionPolicy Transitions Definitions Communications Schema Session Deployment State Execution Context AgentTurn Projects Packs Outputs Compiler Adapters Digests ScenarioScript ScenarioDriver.

#[local] Open Scope Z_scope.
#[local] Open Scope string_scope.

Section runs.
Context {W : Type} (port_of : AdapterObject → AdapterPort W).
Context (repr : json → string) (dump_datetime : datetime → string) (dump_time : time → string).
Context (model_dump : ParametersModel → list (string * json) → list (string * json)).
Context (output_type : option GeneratedOutputType) `{Zones}.
Context (drawn_decision : nat → UUID) (drawn_action : nat → nat → UUID).
Context (s : Script) (definition : ProcessDefinition).

#[local] Abbreviation steps := (sn_steps (sp_scenario s)).
#[local] Abbreviation wake_up := (wake_up repr dump_datetime s definition).
#[local] Abbreviation decide_turn := (decide_turn repr dump_datetime model_dump output_type drawn_decision drawn_action s definition).
#[local] Abbreviation classify := (classify repr dump_time s definition).
#[local] Abbreviation apply_turn := (apply_turn repr dump_time s definition).
#[local] Abbreviation assert_facts := (assert_facts repr s).
#[local] Abbreviation execute_actions := (execute_actions port_of repr s).
#[local] Abbreviation follow_up := (follow_up port_of repr s).
#[local] Abbreviation play_turn := (play_turn port_of repr dump_datetime dump_time model_dump output_type drawn_decision drawn_action s definition).
#[local] Abbreviation play := (play port_of repr dump_datetime dump_time model_dump output_type drawn_decision drawn_action s definition).

(** Compute the fields of updated states. *)
Ltac driver_in H := cbn [field_update dr_now dr_snapshot dr_trace dr_action_types dr_approval_count dr_pending_events
  dr_pending_results dr_pending_timers dr_index dr_turn_number dr_outbound_message_times dr_last_human_reply_at
  dr_latest_automated_response_at dr_opted_out_at dr_world] in H.

(** ** What each part of a turn changes *)

Lemma fail_step_if_ok b st m u : fail_step_if repr s b st m = Ok u ↔ b = false.
Proof. destruct b, u; cbn; split; done. Qed.
Lemma caught_fail_ok {A} catches (m : result A) (f : string → result A) a :
  (∀ t, f t = Ok a → False) → caught catches m f = Ok a ↔ m = Ok a.
Proof. intros Hf. destruct m as [|e]; cbn; [done|]. destruct (catches _); split; try done. intros E0. by destruct (Hf _ E0). Qed.

Lemma classify_frame st actions opens (r r' : DriverState W) cl opens' :
  classify st actions opens r = Ok (cl, opens', r') →
  cl = (λ a, (a, permission_for dump_time definition a)) <$> actions
  ∧ (∃ times trace, r' = r <| dr_outbound_message_times := times |> <| dr_trace := trace |>)
  ∧ opens' = (opens ++ List.filter (λ o, negb (bool_decide (snd o = DENIED)))
       (map (λ a, (ap_action_request_id a, initial_action_request_status (permission_for dump_time definition a))) actions))%list.
Proof.
  revert opens r cl. induction actions as [|a actions IH]; intros opens r cl Hc.
  { injection Hc as <- <- <-. split_and!; [done| |by rewrite app_nil_r]. exists (dr_outbound_message_times r), (dr_trace r).
    by destruct r. }
  cbn [ScenarioDriver.classify] in Hc. apply bind_ok in Hc as ([] & _ & Hc).
  apply bind_ok in Hc as ([[cl1 opens1] r1] & Hc & [= <- <- <-]).
  apply IH in Hc as (-> & (times & trace & ->) & ->). split_and!; [done| |].
  - destruct (_ && _); by eexists _, _.
  - cbn [map List.filter snd]. destruct (negb _); [|done]. by rewrite <- (assoc_L (++)%list).
Qed.

Lemma assert_facts_frame assertions (r r' : DriverState W) :
  assert_facts assertions r = Ok r' →
  (∃ trace, r' = r <| dr_trace := trace |>) ∧ Forall (λ st, is_Some (sd_reference st)) assertions.
Proof.
  revert r. induction assertions as [|st assertions IH]; intros r Ha.
  { injection Ha as <-. split; [|done]. exists (dr_trace r). by destruct r. }
  cbn [ScenarioDriver.assert_facts] in Ha. apply bind_ok in Ha as (v & Hv & Ha). apply IH in Ha as [(trace & ->) Hf].
  split; [by eexists|]. constructor; [|done]. unfold assert_fact_value in Hv.
  destruct (sd_reference st); [by eexists|done].
Qed.

Lemma apply_turn_frame st d (r r' : DriverState W) cl :
  apply_turn st d r = Ok (cl, r') →
  cl = (λ a, (a, permission_for dump_time definition a)) <$> ad_actions d
  ∧ ∃ times trace transition facts,
      r' = r <| dr_outbound_message_times := times |> <| dr_trace := trace |>
             <| dr_snapshot := next_snapshot (dr_snapshot r) transition facts (ad_memory_update d) |>
      ∧ project_process_transition d
          (List.filter (λ o, negb (bool_decide (snd o = DENIED)))
             (map (λ a, (ap_action_request_id a, initial_action_request_status (permission_for dump_time definition a)))
                (ad_actions d)))
          (Some (pd_terminal_states definition)) (fact_items (fp_authoritative facts))
          (pd_completion_requirements definition) = Ok transition.
Proof.
  intros Ha. unfold ScenarioDriver.apply_turn in Ha. cbv zeta in Ha. apply bind_ok in Ha as ([] & _ & Ha).
  apply bind_ok in Ha as ([[cl1 opens] r1] & Hc & Ha). apply classify_frame in Hc as (-> & (times & trace & ->) & ->).
  apply bind_ok in Ha as (transition & Ht & [= <- <-]). apply caught_fail_ok in Ht; [|done].
  split; [done|]. eexists times, trace, transition, (projected r). split; [done|exact Ht].
Qed.

(** The checks of an action's permission. *)
Definition permitted (spec : ActionData) (action_type : string) (permission : PermissionOutcome) : Prop :=
  permission ≠ DENY ∧ (av_approve spec = true ↔ permission = REQUIRE_APPROVAL)
  ∧ is_Some (assoc action_type (cp_simulation_bindings (sp_pack s))).

Definition approvals (cl : list (ActionProposal * PermissionOutcome)) : nat :=
  length (List.filter (λ ap, bool_decide (snd ap = REQUIRE_APPROVAL)) cl).

Lemma execution_permissions spec permission :
  bool_decide (permission = REQUIRE_APPROVAL) && negb (av_approve spec) = false →
  negb (bool_decide (permission = REQUIRE_APPROVAL)) && av_approve spec = false →
  bool_decide (permission = DENY) = false →
  permission ≠ DENY ∧ (av_approve spec = true ↔ permission = REQUIRE_APPROVAL).
Proof. destruct (av_approve spec), permission; vm_compute; intuition congruence. Qed.

Lemma execute_action_ok a (r : DriverState W) x w :
  _execute_action port_of s a r = Ok (x, w) → is_Some (assoc (ap_action_type a) (cp_simulation_bindings (sp_pack s))).
Proof. unfold _execute_action. by destruct (assoc _ _) as [adapter|]; [eexists|]. Qed.

Lemma execute_actions_frame st spec cl (r r' : DriverState W) xs :
  execute_actions st spec cl r = Ok (xs, r') →
  length xs = length cl
  ∧ Forall (λ ap, permitted spec (ap_action_type (fst ap)) (snd ap)) cl
  ∧ ∃ trace world,
      r' = r <| dr_trace := trace |> <| dr_world := world |>
             <| dr_approval_count := (dr_approval_count r + approvals cl)%nat |>
             <| dr_action_types := (dr_action_types r ++ map (λ ap, ap_action_type (fst ap)) cl)%list |>.
Proof.
  revert r xs. induction cl as [|[a permission] cl IH]; intros r xs He.
  { injection He as <- <-. split_and!; [done..|]. exists (dr_trace r), (dr_world r).
    unfold approvals. cbn. rewrite Nat.add_0_r, app_nil_r. by destruct r. }
  cbn [ScenarioDriver.execute_actions] in He. cbv zeta in He.
  apply bind_ok in He as ([] & H1%fail_step_if_ok & He). apply bind_ok in He as ([] & H2%fail_step_if_ok & He).
  apply bind_ok in He as ([] & H3%fail_step_if_ok & He). apply bind_ok in He as ([x world] & Hx & He).
  apply bind_ok in He as ([xs1 r1] & He & [= <- <-]). apply execute_action_ok in Hx.
  apply IH in He as (Hl & Hf & trace & world' & ->). cbn [length fst snd map]. split_and!; [by rewrite Hl| |].
  - constructor; [|done]. destruct (execution_permissions spec permission H1 H2 H3). by split_and!.
  - eexists trace, world'. unfold approvals. cbn [List.filter snd]. destruct (bool_decide (permission = REQUIRE_APPROVAL));
      cbn; rewrite <- ?(assoc_L (++)%list), ?Nat.add_succ_r; done.
Qed.

Lemma follow_up_action st spec cl (r r' : DriverState W) :
  sd_kind st = SK_ACTION → follow_up st (Some spec) cl r = Ok r' →
  Forall (λ ap, permitted spec (ap_action_type (fst ap)) (snd ap)) cl
  ∧ ∃ trace world xs, length xs = length cl
    ∧ r' = r <| dr_trace := trace |> <| dr_world := world |>
             <| dr_approval_count := (dr_approval_count r + approvals cl)%nat |>
             <| dr_action_types := (dr_action_types r ++ map (λ ap, ap_action_type (fst ap)) cl)%list |>
             <| dr_pending_results := xs |>.
Proof.
  intros Hk Hf. unfold ScenarioDriver.follow_up in Hf. rewrite Hk in Hf. apply bind_ok in Hf as ([xs r1] & He & [= <-]).
  apply execute_actions_frame in He as (Hl & Hp & trace & world & ->). split; [done|]. by exists trace, world, xs.
Qed.

Lemma follow_up_wait st spec cl (r r' : DriverState W) :
  sd_kind st = SK_WAIT → follow_up st spec cl r = Ok r' →
  (∃ e trace, parse_wait st = Ok (ScenarioEventWait e) ∧ r' = r <| dr_trace := trace |>)
  ∨ (∃ i d trace now, parse_wait st = Ok (ScenarioTimerWait i d)
       ∧ r' = r <| dr_trace := trace |> <| dr_now := now |> <| dr_pending_timers := [i] |>).
Proof.
  intros Hk Hf. unfold ScenarioDriver.follow_up in Hf. rewrite Hk in Hf. apply bind_ok in Hf as ([e|i d] & Hw & Hf).
  - left. injection Hf as <-. by eexists e, _.
  - right. apply bind_ok in Hf as (now & _ & [= <-]). by eexists i, d, _, now.
Qed.

Lemma follow_up_complete st spec cl (r r' : DriverState W) :
  sd_kind st = SK_COMPLETE → follow_up st spec cl r = Ok r' → ∃ trace, r' = r <| dr_trace := trace |>.
Proof. intros Hk Hf. unfold ScenarioDriver.follow_up in Hf. rewrite Hk in Hf. injection Hf as <-. by eexists. Qed.

Lemma contacted_frame e (r : DriverState W) :
  ∃ reply automated opted_out, contacted definition e r =
    r <| dr_last_human_reply_at := reply |> <| dr_latest_automated_response_at := automated |>
      <| dr_opted_out_at := opted_out |>.
Proof.
  destruct r as [now p trace types approved events results timers index turn times reply automated opted_out world].
  unfold contacted. cbv zeta. destruct (bool_decide _); [by exists (Some (ce_received_at e)), None, opted_out|].
  destruct (bool_decide _); [by exists reply, (Some (ce_received_at e)), opted_out|].
  destruct (bool_decide _); [by exists reply, automated, (Some (ce_received_at e))|by exists reply, automated, opted_out].
Qed.

Lemma wake_up_frame st (r r' : DriverState W) :
  wake_up st r = Ok r' →
  (is_pending r = true ∧ r' = r)
  ∨ (is_pending r = false ∧ sd_kind st = SK_EVENT
     ∧ ∃ e reply automated opted_out trace, sd_reference st = Some (ce_event_type e)
       ∧ (dr_index r = 0%nat ∨ EventWakeCondition (ce_event_type e) ∈ ps_current_wake_conditions (dr_snapshot r))
       ∧ r' = r <| dr_pending_events := [e] |> <| dr_last_human_reply_at := reply |>
              <| dr_latest_automated_response_at := automated |> <| dr_opted_out_at := opted_out |>
              <| dr_trace := trace |> <| dr_index ::= S |>).
Proof.
  unfold ScenarioDriver.wake_up. destruct (is_pending r) eqn:Hp; [intros [= <-]; by left|].
  intros Hw. right. apply bind_ok in Hw as ([] & Hk%fail_step_if_ok%negb_false_iff%bool_decide_eq_true & Hw).
  apply bind_ok in Hw as (e & He & Hw). apply bind_ok in Hw as ([] & Ha%fail_step_if_ok & Hw). cbv zeta in Hw.
  destruct (contacted_frame e (r <| dr_pending_events := [e] |>)) as (reply & automated & opted_out & Ec).
  rewrite Ec in Hw. injection Hw as <-. split_and!; [done..|]. eexists e, reply, automated, opted_out, _. split_and!; [| |done].
  - unfold build_event in He. cbv zeta in He. apply bind_ok in He as (data & _ & He). apply bind_ok in He as (facts & _ & He).
    apply bind_ok in He as (payload & _ & He). destruct (sd_reference st) as [t|]; [|done]. destruct payload; try done.
    apply bind_ok in He as ([] & _ & [= <-]). done.
  - apply andb_false_iff in Ha as [Ha|Ha]; [left; apply Nat.ltb_ge in Ha; lia|right].
    apply negb_false_iff, existsb_exists in Ha as (w & Hin%list_elem_of_In & Hw).
    destruct w as [t| |]; try done. apply bool_decide_eq_true in Hw as <-. done.
Qed.

(** ** The decision of a step *)

#[local] Abbreviation build_decision := (build_decision repr model_dump output_type s).

Definition untransformed (journey_id : string) : Prop :=
  ∀ t, output_type = Some t → assoc journey_id (gt_transformers t) = None.

(** A decision no transformer changes is the scripted one. *)
Lemma untransformed_decision st n i now id ids d :
  build_decision st n i now id ids = Ok d → untransformed (ps_process_type (ti_process i)) →
  match sd_kind st with
  | SK_ACTION => True
  | SK_WAIT => ad_status d = DS_WAITING ∧ ad_actions d = []
      ∧ ∃ wait, parse_wait st = Ok wait ∧ match wait with
          | ScenarioEventWait e => ad_wake_conditions d = [EventWakeCondition e]
          | ScenarioTimerWait _ _ => ∃ at_, ad_wake_conditions d = [TimerWakeCondition at_]
          end
  | _ => ad_status d = DS_COMPLETED ∧ ad_actions d = []
  end.
Proof.
  intros Hb Hu. unfold ScenarioScript.build_decision in Hb. apply bind_ok in Hb as (scripted & Hs & Hb).
  destruct output_type as [t|] eqn:Et; [|done]. apply bind_ok in Hb as (o & Ho & Hb). apply bind_ok in Hb as (d0 & Hd & Hb).
  assert (scripted_output model_dump t scripted = Ok o) as Ho'.
  { destruct (scripted_output model_dump t scripted) as [o'|e]; [exact Ho|]. by destruct (is_value_error _). }
  unfold scripted_output in Ho'. apply bind_ok in Ho' as (o1 & Ho1 & Ho'). apply bind_ok in Ho' as ([] & _ & [= ->]).
  unfold to_agent_decision in Hd. apply bind_ok in Hd as (actions & Ha & Hd). apply bind_ok in Hd as (memory & _ & Hd).
  cbv zeta in Hd. apply bind_ok in Hd as ([] & _ & Hd). rewrite (Hu t Et) in Hd. injection Hd as <-. injection Hb as <-.
  unfold scripted_decision in Hs. destruct (sd_kind st); cbn [ad_status ad_actions ad_wake_conditions]; [| exact I | | |].
  1, 3, 4: injection Hs as <-; injection Ho1 as <-; injection Ha as <-; done.
  apply bind_ok in Hs as ([e|i0 delay] & Hw & Hs).
  - injection Hs as <-. injection Ho1 as <-. injection Ha as <-. split_and!; [done..|]. by exists (ScenarioEventWait e).
  - apply bind_ok in Hs as (at_ & _ & [= <-]). injection Ho1 as <-. injection Ha as <-. split_and!; [done..|].
    exists (ScenarioTimerWait i0 delay). split; [done|]. by exists at_.
Qed.

Lemma decide_turn_frame st (r r' : DriverState W) d spec :
  decide_turn st r = Ok (d, spec, r') → untransformed (ps_process_type (dr_snapshot r)) →
  (∃ trace, r' = r <| dr_turn_number ::= S |> <| dr_trace := trace |>)
  ∧ match sd_kind st with
    | SK_ACTION => ∃ a data, read_action (sd_value st) = Ok data ∧ spec = Some data ∧ ad_actions d = [a]
        ∧ ad_status d = DS_ACTIVE ∧ sd_reference st = Some (ap_action_type a)
    | SK_WAIT => ad_status d = DS_WAITING ∧ ad_actions d = []
        ∧ ∃ wait, parse_wait st = Ok wait ∧ match wait with
            | ScenarioEventWait e => ad_wake_conditions d = [EventWakeCondition e]
            | ScenarioTimerWait _ _ => ∃ at_, ad_wake_conditions d = [TimerWakeCondition at_]
            end
    | SK_COMPLETE => ad_status d = DS_COMPLETED ∧ ad_actions d = []
    | _ => False
    end.
Proof.
  intros Hd Hu. unfold ScenarioDriver.decide_turn in Hd. cbv zeta in Hd.
  apply bind_ok in Hd as ([] & Hk%fail_step_if_ok & Hd). apply bind_ok in Hd as (block & _ & Hd).
  apply bind_ok in Hd as ([] & _ & Hd). apply bind_ok in Hd as ([] & _ & Hd).
  apply bind_ok in Hd as (d1 & Hb & Hd). apply bind_ok in Hd as (d2 & _ & Hd).
  apply bind_ok in Hd as (spec1 & Hs & [= <- <- <-]). split; [by eexists|].
  apply untransformed_decision in Hb; [|exact Hu]. unfold require_scripted in Hs.
  destruct (sd_kind st); [done| |exact Hb|done|exact Hb].
  apply bind_ok in Hs as (data & Hdata & Hs). apply bind_ok in Hs as (parameters & _ & Hs).
  apply bind_ok in Hs as ([] & He & [= <-]). unfold require_expected_action in He.
  destruct (ad_actions d1) as [|a [|? ?]] eqn:Ea; try done. exists a, data.
  apply fail_step_if_ok in He. rewrite !orb_false_iff, !negb_false_iff, !bool_decide_eq_true in He.
  destruct He as [[[[[Hst _] Ht] _] _] _]. by split_and!.
Qed.

(** ** The transition of a step *)

Lemma completed_transition d terminal facts requirements transition :
  ad_status d = DS_COMPLETED → project_process_transition d [] terminal facts requirements = Ok transition →
  transition = mkTransition PS_COMPLETED [].
Proof.
  intros Hd Ht. unfold project_process_transition, _next_status, _effective_wake_conditions in Ht. rewrite Hd in Ht.
  cbn in Ht. apply bind_ok in Ht as (status & Hs & Ht). apply bind_ok in Hs as ([] & _ & Hs).
  apply bind_ok in Hs as ([] & _ & [= <-]). by injection Ht as <-.
Qed.

Lemma waiting_transition d w terminal facts requirements transition :
  ad_status d = DS_WAITING → ad_wake_conditions d = [w] → is_human_wake w = false →
  project_process_transition d [] terminal facts requirements = Ok transition →
  transition = mkTransition PS_WAITING [w].
Proof.
  intros Hd Hw Hh Ht. unfold project_process_transition, _next_status, _effective_wake_conditions in Ht.
  rewrite Hd, Hw in Ht. cbn in Ht. rewrite Hh in Ht. by injection Ht as <-.
Qed.

Lemma open_transition d action status terminal facts requirements transition :
  project_process_transition d [(action, status)] terminal facts requirements = Ok transition →
  ppt_status transition ≠ PS_COMPLETED.
Proof.
  unfold project_process_transition, _next_status. intros Ht. apply bind_ok in Ht as (next & Hs & [= <-]).
  cbn in *. destruct (bool_decide _ && _); [done|]. by destruct (needs_review status); injection Hs as <-.
Qed.

(** ** Scripts *)

Definition policy_permission (action_type : string) : PermissionOutcome :=
  default DENY (assoc action_type (pd_action_permissions definition)).

(** The step proposes an action that policy permits, approved exactly when policy asks for
    it, and that a simulation adapter carries out. *)
Definition acts (st : ScenarioStepDescription) : Prop :=
  sd_kind st = SK_ACTION ∧ ∃ t a, sd_reference st = Some t ∧ read_action (sd_value st) = Ok a
    ∧ permitted a t (policy_permission t).
Definition awaits_event (st : ScenarioStepDescription) (e : string) : Prop :=
  sd_kind st = SK_WAIT ∧ parse_wait st = Ok (ScenarioEventWait e).
Definition awaits_timer (st : ScenarioStepDescription) : Prop :=
  sd_kind st = SK_WAIT ∧ ∃ i d, parse_wait st = Ok (ScenarioTimerWait i d).
Definition supplies (st : ScenarioStepDescription) (e : string) : Prop :=
  sd_kind st = SK_EVENT ∧ sd_reference st = Some e.
Definition asserts (st : ScenarioStepDescription) : Prop := sd_kind st = SK_FACT ∧ is_Some (sd_reference st).

(** What may follow once a turn has been woken. *)
Inductive Played : list ScenarioStepDescription → Prop :=
  | played_complete st : sd_kind st = SK_COMPLETE → Played [st]
  | played_action st rest : acts st → Played rest → Played (st :: rest)
  | played_timer st rest : awaits_timer st → Played rest → Played (st :: rest)
  | played_fact st rest : asserts st → Played rest → Played (st :: rest)
  | played_event st st' e rest : awaits_event st e → supplies st' e → Played rest → Played (st :: st' :: rest).

Lemma played_facts facts rest : Forall asserts facts → Played rest → Played (facts ++ rest).
Proof. induction 1; cbn; [done|]. intros Hr. apply played_fact; auto. Qed.

(** The actions of the steps, and how many of them the script approves. *)
Definition proposed (xs : list ScenarioStepDescription) : list string :=
  omap (λ st, if bool_decide (sd_kind st = SK_ACTION) then sd_reference st else None) xs.
Definition approves (st : ScenarioStepDescription) : bool :=
  bool_decide (sd_kind st = SK_ACTION) && match read_action (sd_value st) with Ok a => av_approve a | Raise _ => false end.
Definition approved (xs : list ScenarioStepDescription) : nat := length (List.filter approves xs).

Lemma proposed_app xs ys : proposed (xs ++ ys) = (proposed xs ++ proposed ys)%list.
Proof. apply omap_app. Qed.
Lemma approved_app xs ys : approved (xs ++ ys) = (approved xs + approved ys)%nat.
Proof. unfold approved. by rewrite List.filter_app, length_app. Qed.
Lemma other_steps xs :
  Forall (λ st, sd_kind st ≠ SK_ACTION) xs → proposed xs = [] ∧ approved xs = 0%nat.
Proof.
  induction 1 as [|st xs Hst _ [IH1 IH2]]; [done|]. unfold proposed, approved, approves in *. cbn.
  rewrite bool_decide_false by done. by split.
Qed.

(** ** The stages of a run *)

(** Where a run stands between two rounds. *)
Inductive stage := Starting | Woken | Awaiting (event_type : string) | Done.

Definition in_stage (r : DriverState W) (g : stage) : Prop :=
  match g with
  | Starting => is_pending r = false ∧ dr_index r = 0%nat ∧ ps_status (dr_snapshot r) ≠ PS_COMPLETED
  | Woken => is_pending r = true ∧ ps_status (dr_snapshot r) ≠ PS_COMPLETED
  | Awaiting e => is_pending r = false ∧ dr_index r ≠ 0%nat ∧ ps_status (dr_snapshot r) ≠ PS_COMPLETED
      ∧ ps_current_wake_conditions (dr_snapshot r) = [EventWakeCondition e]
  | Done => is_pending r = false ∧ dr_index r ≠ 0%nat ∧ ps_current_wake_conditions (dr_snapshot r) = []
  end.

(** What the remaining steps are. *)
Definition follows (g : stage) (rest : list ScenarioStepDescription) : Prop :=
  match g with
  | Starting => ∃ st e rest', rest = st :: rest' ∧ supplies st e ∧ Played rest'
  | Woken => Played rest
  | Awaiting e => ∃ st rest', rest = st :: rest' ∧ supplies st e ∧ Played rest'
  | Done => rest = []
  end.

Lemma leading_facts_split xs :
  Forall (λ st, sd_kind st = SK_FACT) (leading_facts xs)
  ∧ xs = (leading_facts xs ++ drop (length (leading_facts xs)) xs)%list.
Proof.
  induction xs as [|st xs [IH1 IH2]]; [done|]. cbn. destruct (bool_decide (sd_kind st = SK_FACT)) eqn:E; [|done].
  apply bool_decide_eq_true in E. split; [by constructor|]. cbn. by rewrite <- IH2.
Qed.

(** What a step adds to the counts of a run, and the stage it leaves. *)
Definition concludes (st : ScenarioStepDescription) (r r' : DriverState W) : Prop :=
  dr_action_types r' = (dr_action_types r ++ proposed [st])%list
  ∧ dr_approval_count r' = (dr_approval_count r + approved [st])%nat
  ∧ ∃ g, in_stage r' g ∧ ∀ rest, follows g rest → Played (st :: rest).

Lemma other_step st : sd_kind st ≠ SK_ACTION → proposed [st] = [] ∧ approved [st] = 0%nat.
Proof. intros Hk. apply other_steps. by constructor. Qed.

Lemma conclude_other st g (r r' : DriverState W) :
  sd_kind st ≠ SK_ACTION → dr_action_types r' = dr_action_types r → dr_approval_count r' = dr_approval_count r →
  in_stage r' g → (∀ rest, follows g rest → Played (st :: rest)) → concludes st r r'.
Proof.
  intros Hk Ht Ha Hg Hf. destruct (other_step st Hk) as [E1 E2]. unfold concludes. rewrite E1, E2, app_nil_r, Nat.add_0_r.
  split_and!; [done..|]. by exists g.
Qed.

#[local] Abbreviation cleared r := (r <| dr_pending_events := [] |> <| dr_pending_results := [] |> <| dr_pending_timers := [] |>
  <| dr_index ::= S |>).

(** The actions a decision leaves open. *)
Definition opened (actions : list ActionProposal) : OpenActions :=
  List.filter (λ o, negb (bool_decide (snd o = DENIED)))
    (map (λ a, (ap_action_request_id a, initial_action_request_status (permission_for dump_time definition a))) actions).

Lemma action_concludes st a data d transition facts times trace (r r' : DriverState W) :
  sd_kind st = SK_ACTION → read_action (sd_value st) = Ok data → sd_reference st = Some (ap_action_type a) →
  (∃ terminal authoritative requirements, project_process_transition d (opened [a]) terminal authoritative requirements = Ok transition) →
  follow_up st (Some data) [(a, permission_for dump_time definition a)]
    (cleared (r <| dr_outbound_message_times := times |> <| dr_trace := trace |>
                <| dr_snapshot := next_snapshot (dr_snapshot r) transition facts (ad_memory_update d) |>)) = Ok r' →
  concludes st r r'.
Proof.
  intros Hk Hd Href (terminal & authoritative & requirements & Ht) Hf.
  apply (follow_up_action _ _ _ _ _ Hk) in Hf as (Hp & trace' & world & xs & Hl & ->).
  apply Forall_cons in Hp as [Hp _]. cbn [fst snd] in Hp.
  assert (ppt_status transition ≠ PS_COMPLETED) as Hstatus.
  { destruct Hp as (Hdeny & _). unfold opened in Ht. cbn [map List.filter snd] in Ht.
    destruct (permission_for dump_time definition a); cbn in Ht; [|done|];
      rewrite bool_decide_false in Ht by done; exact (open_transition _ _ _ _ _ _ _ Ht). }
  unfold concludes. cbn. split_and!.
  - unfold proposed. cbn. by rewrite bool_decide_true, Href.
  - assert (approves st = av_approve data) as E1 by (unfold approves; by rewrite bool_decide_true, Hd).
    f_equal. unfold approved. cbn [List.filter]. rewrite E1. destruct Hp as (_ & Ha & _). cbn in Ha.
    destruct (av_approve data), (default DENY _); cbn; intuition congruence.
  - exists Woken. cbn. split.
    + split; [destruct xs as [|x xs]; [done|unfold is_pending; cbn; by rewrite ?orb_true_r]|done].
    + intros rest Hr. apply played_action; [|done]. split; [done|]. by exists (ap_action_type a), data.
Qed.

Lemma wait_concludes st wait d transition facts times trace spec cl (r r' : DriverState W) :
  sd_kind st = SK_WAIT → parse_wait st = Ok wait → ad_status d = DS_WAITING →
  match wait with
  | ScenarioEventWait e => ad_wake_conditions d = [EventWakeCondition e]
  | ScenarioTimerWait _ _ => ∃ at_, ad_wake_conditions d = [TimerWakeCondition at_]
  end →
  (∃ terminal authoritative requirements, project_process_transition d [] terminal authoritative requirements = Ok transition) →
  follow_up st spec cl
    (cleared (r <| dr_outbound_message_times := times |> <| dr_trace := trace |>
                <| dr_snapshot := next_snapshot (dr_snapshot r) transition facts (ad_memory_update d) |>)) = Ok r' →
  concludes st r r'.
Proof.
  intros Hk Hw Hd Hwakes (terminal & authoritative & requirements & Ht) Hf.
  apply (follow_up_wait _ _ _ _ _ Hk) in Hf as [(e & trace' & Hw' & ->)|(i & n & trace' & now & Hw' & ->)];
    rewrite Hw in Hw'; injection Hw' as ->.
  - eapply (waiting_transition _ _ _ _ _ _ Hd Hwakes eq_refl) in Ht as ->.
    apply (conclude_other st (Awaiting e)); [by rewrite Hk|done|done|done|].
    intros rest (st' & rest' & -> & Hs & Hr). by eapply played_event.
  - destruct Hwakes as (at_ & Hwakes). eapply (waiting_transition _ _ _ _ _ _ Hd Hwakes eq_refl) in Ht as ->.
    apply (conclude_other st Woken); [by rewrite Hk|done|done|done|].
    intros rest Hr. apply played_timer; [|done]. split; [done|]. by exists i, n.
Qed.

Lemma complete_concludes st d transition facts times trace spec cl (r r' : DriverState W) :
  sd_kind st = SK_COMPLETE → ad_status d = DS_COMPLETED →
  (∃ terminal authoritative requirements, project_process_transition d [] terminal authoritative requirements = Ok transition) →
  follow_up st spec cl
    (cleared (r <| dr_outbound_message_times := times |> <| dr_trace := trace |>
                <| dr_snapshot := next_snapshot (dr_snapshot r) transition facts (ad_memory_update d) |>)) = Ok r' →
  concludes st r r'.
Proof.
  intros Hk Hd (terminal & authoritative & requirements & Ht) Hf.
  apply (completed_transition _ _ _ _ _ Hd) in Ht as ->.
  apply (follow_up_complete _ _ _ _ _ Hk) in Hf as (trace' & ->).
  apply (conclude_other st Done); [by rewrite Hk|done|done|done|]. intros rest ->. by apply played_complete.
Qed.

Lemma follow_up_same st spec cl (r r' : DriverState W) :
  follow_up st spec cl r = Ok r' → dr_index r' = dr_index r ∧ dr_snapshot r' = dr_snapshot r.
Proof.
  intros Hf. destruct (sd_kind st) eqn:Hk.
  - unfold ScenarioDriver.follow_up in Hf. rewrite Hk in Hf. by injection Hf as <-.
  - destruct spec as [spec|]; [|unfold ScenarioDriver.follow_up in Hf; by rewrite Hk in Hf].
    by apply (follow_up_action _ _ _ _ _ Hk) in Hf as (_ & trace & world & xs & _ & ->).
  - by apply (follow_up_wait _ _ _ _ _ Hk) in Hf as [(e & trace & _ & ->)|(i & n & trace & now & _ & ->)].
  - unfold ScenarioDriver.follow_up in Hf. rewrite Hk in Hf. by injection Hf as <-.
  - by apply (follow_up_complete _ _ _ _ _ Hk) in Hf as (trace & ->).
Qed.

(** One turn: assertions, then a decision. *)
Lemma take_turn_ok (r r' : DriverState W) :
  take_turn port_of repr dump_datetime dump_time model_dump output_type drawn_decision drawn_action s definition r = Ok r' →
  untransformed (ps_process_type (dr_snapshot r)) →
  ∃ facts st, drop (dr_index r) steps = (facts ++ st :: drop (dr_index r') steps)%list
    ∧ Forall asserts facts ∧ (dr_index r < dr_index r')%nat
    ∧ ps_process_type (dr_snapshot r') = ps_process_type (dr_snapshot r) ∧ concludes st r r'.
Proof.
  intros Ht Hu. unfold take_turn in Ht. destruct (leading_facts_split (drop (dr_index r) steps)) as [Hfacts Esplit].
  set (facts := leading_facts (drop (dr_index r) steps)) in *. cbv zeta in Ht. cbn [dr_index field_update] in Ht.
  destruct (steps !! (length facts + dr_index r)%nat) as [st|] eqn:Est; [|done].
  apply bind_ok in Ht as ([[d spec] r1] & Hd & Ht). apply decide_turn_frame in Hd as [(trace1 & ->) Hk]; [|exact Hu].
  driver_in Ht. apply bind_ok in Ht as ([cl r2] & Ha & Ht).
  apply apply_turn_frame in Ha as (-> & times & trace2 & transition & fs & -> & Htr).
  driver_in Ht. apply bind_ok in Ht as (r3 & Has & Ht). apply assert_facts_frame in Has as [(trace3 & ->) Hrefs].
  driver_in Ht.
  assert (drop (dr_index r) steps = (facts ++ st :: drop (S (length facts + dr_index r)) steps)%list) as Edrop.
  { rewrite Esplit at 1. f_equal. rewrite drop_drop, Nat.add_comm. by apply drop_S. }
  assert (Forall asserts facts) as Hassert.
  { apply Forall_forall. intros x Hx. rewrite Forall_forall in Hfacts. rewrite Forall_forall in Hrefs. split; auto. }
  set (base := r <| dr_turn_number ::= S |> <| dr_index := (length facts + dr_index r)%nat |>).
  assert (∃ times trace, follow_up st spec ((λ a, (a, permission_for dump_time definition a)) <$> ad_actions d)
    (cleared (base <| dr_outbound_message_times := times |> <| dr_trace := trace |>
                <| dr_snapshot := next_snapshot (dr_snapshot base) transition fs (ad_memory_update d) |>)) = Ok r') as Hf.
  { by exists times, trace3. }
  clear Ht. destruct Hf as (times' & trace' & Hf).
  destruct (follow_up_same _ _ _ _ _ Hf) as [Ei Ep]. exists facts, st. rewrite Ei, Ep. split_and!; [exact Edrop|done|cbn; lia|done|].
  change (concludes st base r').
  assert (∃ terminal authoritative requirements, project_process_transition d (opened (ad_actions d)) terminal authoritative
            requirements = Ok transition) as Ho by (eexists _, _, _; exact Htr).
  clear Htr Edrop Esplit. destruct (sd_kind st) eqn:Ek; try done.
  - destruct Hk as (a & data & Hread & -> & Hactions & _ & Href). rewrite Hactions in Hf, Ho.
    by eapply action_concludes.
  - destruct Hk as (Hd & Hactions & wait & Hw & Hwakes). rewrite Hactions in Ho. by eapply wait_concludes.
  - destruct Hk as [Hd Hactions]. rewrite Hactions in Ho. by eapply complete_concludes.
Qed.

(** ** Runs *)

Lemma drop_nil (n : nat) : steps !! n = None → drop n steps = [].
Proof. intros Hn. apply drop_ge. by apply lookup_ge_None. Qed.

Lemma play_ok fuel (r r' : DriverState W) g :
  play fuel r = Some (Ok r') → untransformed (ps_process_type (dr_snapshot r)) → in_stage r g →
  ps_status (dr_snapshot r') = PS_COMPLETED →
  follows g (drop (dr_index r) steps)
  ∧ dr_action_types r' = (dr_action_types r ++ proposed (drop (dr_index r) steps))%list
  ∧ dr_approval_count r' = (dr_approval_count r + approved (drop (dr_index r) steps))%nat.
Proof.
  revert r g. induction fuel as [|fuel IH]; intros r g Hp Hu Hg Hc; cbn in Hp;
    destruct (steps !! dr_index r) as [st|] eqn:Est; try done.
  1, 3: injection Hp as <-; rewrite (drop_nil _ Est); split_and!;
    [destruct g; cbn in *; intuition congruence|by rewrite app_nil_r|by rewrite Nat.add_0_r].
  destruct (play_turn st r) as [r2|] eqn:Et; [|done]. unfold ScenarioDriver.play_turn in Et.
  apply bind_ok in Et as (r1 & Hw & Et).
  assert (untransformed (ps_process_type (dr_snapshot r1))) as Hu1.
  { apply wake_up_frame in Hw as [[_ ->]|(_ & _ & e & reply & automated & opted_out & trace & _ & _ & ->)]; done. }
  destruct (take_turn_ok r1 r2 Et Hu1) as (facts & dec & Edrop & Hfacts & _ & Etype & Ht & Ha & g2 & Hg2 & Hf2).
  destruct (IH r2 g2 Hp) as (Hfollow & Htypes & Hcount); [by rewrite Etype|done|done|].
  apply Hf2 in Hfollow. apply (played_facts facts _ Hfacts) in Hfollow. rewrite <- Edrop in Hfollow.
  destruct (other_steps facts) as [E1 E2]; [eapply Forall_impl; [exact Hfacts|]; by intros x [-> _]|].
  assert (dr_action_types r' = (dr_action_types r1 ++ proposed (drop (dr_index r1) steps))%list
    ∧ dr_approval_count r' = (dr_approval_count r1 + approved (drop (dr_index r1) steps))%nat) as [Htypes1 Hcount1].
  { rewrite Edrop, proposed_app, approved_app, E1, E2, Htypes, Hcount, Ht, Ha. cbn [app].
    change (dec :: drop (dr_index r2) steps) with ([dec] ++ drop (dr_index r2) steps)%list.
    rewrite proposed_app, approved_app, <- (assoc_L (++)%list). split; [done|lia]. }
  clear Htypes Hcount Hf2 Edrop E1 E2 IH Hp.
  apply wake_up_frame in Hw as [[Hpend ->]|(Hpend & Hk & e & reply & automated & opted_out & trace & Href & Hwake & ->)].
  - split_and!; [|done|done]. destruct g; cbn in Hg |- *; destruct Hg; congruence.
  - cbn in Hfollow, Htypes1, Hcount1. rewrite (drop_S _ _ _ Est).
    destruct (other_step st) as [E1 E2]; [by rewrite Hk|].
    change (st :: drop (S (dr_index r)) steps) with ([st] ++ drop (S (dr_index r)) steps)%list.
    rewrite proposed_app, approved_app, E1, E2. split_and!; [|done|done].
    destruct g; cbn in Hg |- *.
    + by exists st, (ce_event_type e), (drop (S (dr_index r)) steps).
    + destruct Hg; congruence.
    + destruct Hg as (_ & Hi & _ & Hws). rewrite Hws in Hwake. destruct Hwake as [Hz|Hin%list_elem_of_singleton]; [done|].
      injection Hin as Hin. exists st, (drop (S (dr_index r)) steps). split_and!; [done| |done]. split; [done|congruence].
    + destruct Hg as (_ & Hi & Hws). rewrite Hws in Hwake. destruct Hwake as [Hz|Hin]; [done|by apply not_elem_of_nil in Hin].
Qed.

Lemma decide_turn_index st (r r' : DriverState W) d spec :
  decide_turn st r = Ok (d, spec, r') → dr_index r' = dr_index r.
Proof.
  intros Hd. unfold ScenarioDriver.decide_turn in Hd. cbv zeta in Hd. do 6 apply bind_ok in Hd as (? & _ & Hd).
  apply bind_ok in Hd as (spec1 & _ & [= <- <- <-]). done.
Qed.

(** Every round passes a step. *)
Lemma play_turn_advances st (r r' : DriverState W) : play_turn st r = Ok r' → (dr_index r < dr_index r')%nat.
Proof.
  intros Ht. unfold ScenarioDriver.play_turn in Ht. apply bind_ok in Ht as (r1 & Hw & Ht).
  assert (dr_index r ≤ dr_index r1)%nat as Hle.
  { apply wake_up_frame in Hw as [[_ ->]|(_ & _ & e & reply & automated & opted_out & trace & _ & _ & ->)]; cbn; lia. }
  unfold take_turn in Ht. cbv zeta in Ht. destruct (steps !! _); [|done].
  apply bind_ok in Ht as ([[d spec] r2] & Hd & Ht). apply decide_turn_index in Hd. cbn in Hd.
  apply bind_ok in Ht as ([cl r3] & Ha & Ht). apply apply_turn_frame in Ha as (_ & times & trace & tr & fs & -> & _).
  apply bind_ok in Ht as (r4 & Has & Ht). apply assert_facts_frame in Has as [(trace4 & ->) _].
  apply follow_up_same in Ht as [-> _]. cbn. lia.
Qed.

Lemma play_total fuel (r : DriverState W) :
  (length steps - dr_index r ≤ fuel)%nat → ∃ outcome, ∀ fuel', (fuel ≤ fuel')%nat → play fuel' r = Some outcome.
Proof.
  revert r. induction fuel as [|fuel IH]; intros r Hl.
  - exists (Ok r). intros fuel' _. assert (steps !! dr_index r = None) as Hn by (apply lookup_ge_None; lia).
    by destruct fuel'; cbn; rewrite Hn.
  - destruct (steps !! dr_index r) as [st|] eqn:Est.
    + destruct (play_turn st r) as [r1|e] eqn:Et.
      * apply play_turn_advances in Et as Hlt. apply lookup_lt_Some in Est as Hs.
        destruct (IH r1) as [outcome Ho]; [lia|]. exists outcome. intros [|fuel'] Hf; [lia|]. cbn. rewrite Est, Et. apply Ho. lia.
      * exists (Raise e). intros [|fuel'] Hf; [lia|]. cbn. by rewrite Est, Et.
    + exists (Ok r). intros fuel' _. by destruct fuel'; cbn; rewrite Est.
Qed.

(** ** Properties *)

#[local] Abbreviation run_scenario := (run_scenario port_of repr dump_datetime dump_time model_dump output_type drawn_decision drawn_action).

Lemma run_scenario_played pack scenario_id world result world' :
  make_script (λ t, repr (JStr t)) pack scenario_id None = Ok s → definition_of s = Ok definition →
  run_scenario pack scenario_id world = Some (Ok (result, world')) →
  ∃ (r : DriverState W) project, play (length steps) (initial_state s world) = Some (Ok r)
    ∧ scenario_result s project r = Ok result.
Proof.
  intros Hs Hd Hr. unfold ScenarioDriver.run_scenario in Hr. rewrite Hs in Hr. cbn [mbind result_bind] in Hr. rewrite Hd in Hr.
  cbn [mbind result_bind] in Hr. destruct (snapshot_validate _); [|done]. cbn [mbind result_bind] in Hr.
  destruct (cp_project pack) as [project|]; [|done]. unfold run_script in Hr.
  destruct (play (length steps) (initial_state s world)) as [[r|e]|]; [|done..]. exists r, project. split; [done|].
  cbn in Hr. by destruct (scenario_result s project r); [injection Hr as ->|].
Qed.

(** C35: a scenario that passes has played its script.  When the journey's decisions are not
    transformed, a run that returns a result - which is a pass: the process is completed -
    has begun with an event and then taken turns until a completion that is the last step
    and no other: every awaited event is the one supplied next; every action step names
    an action that policy permits and a simulation adapter carries out, and is approved
    by the script exactly when policy asks for approval.  The actions of the result are
    those of the steps in their order, and its approvals are the script's. *)
Theorem passed_scenarios_are_scripts pack scenario_id world result world' :
  make_script (λ t, repr (JStr t)) pack scenario_id None = Ok s → definition_of s = Ok definition →
  untransformed (jd_id (sp_journey s)) →
  run_scenario pack scenario_id world = Some (Ok (result, world')) →
  passed result = true
  ∧ (∃ first e rest, steps = first :: rest ∧ supplies first e ∧ Played rest)
  ∧ sr_action_types result = proposed steps ∧ sr_approval_count result = approved steps.
Proof.
  intros Hs Hd Hu Hr. destruct (run_scenario_played _ _ _ _ _ Hs Hd Hr) as (r & project & Hp & Hres).
  unfold scenario_result in Hres. destruct (bool_decide _) eqn:Ec; [|done]. injection Hres as <-.
  apply bool_decide_eq_true in Ec.
  destruct (play_ok _ _ _ Starting Hp Hu) as (Hf & Ht & Ha); [done|done|]. cbn in Hf, Ht, Ha. rewrite drop_0 in Hf, Ht, Ha.
  destruct Hf as (first & e & rest & Hf). unfold passed. cbn. rewrite bool_decide_true by done. split_and!; [done| |done|done].
  by exists first, e, rest.
Qed.

End runs.

(** A run ends.  Whatever the pack, the scenario and the answers of the adapters, a run
    returns a result or raises: every round of its loop passes a step, so that as many
    rounds as the scenario has steps are enough, and more of them change nothing. *)
Theorem scenario_runs_end {W} (port_of : AdapterObject → AdapterPort W) repr dump_datetime dump_time model_dump output_type
    `{Zones} drawn_decision drawn_action pack scenario_id world :
  (∃ outcome, run_scenario port_of repr dump_datetime dump_time model_dump output_type drawn_decision drawn_action
     pack scenario_id world = Some outcome)
  ∧ ∀ s definition fuel, (length (sn_steps (sp_scenario s)) ≤ fuel)%nat →
      play port_of repr dump_datetime dump_time model_dump output_type drawn_decision drawn_action s definition fuel
        (initial_state s world)
      = play port_of repr dump_datetime dump_time model_dump output_type drawn_decision drawn_action s definition
          (length (sn_steps (sp_scenario s))) (initial_state s world).
Proof.
  assert (∀ s definition, ∃ outcome, ∀ fuel, (length (sn_steps (sp_scenario s)) ≤ fuel)%nat →
    play port_of repr dump_datetime dump_time model_dump output_type drawn_decision drawn_action s definition fuel
      (initial_state s world) = Some outcome) as Htotal.
  { intros s definition. apply play_total. cbn. lia. }
  split.
  - unfold run_scenario. destruct (make_script _ _ _ _) as [s|e]; cbn [mbind result_bind]; [|by eexists].
    destruct (definition_of s) as [definition|e]; cbn [mbind result_bind]; [|by eexists].
    destruct (snapshot_validate _); cbn [mbind result_bind]; [|by eexists]. destruct (cp_project pack); [|by eexists].
    unfold run_script. destruct (Htotal s definition) as [outcome Ho]. rewrite Ho by done. by eexists.
  - intros s definition fuel Hf. destruct (Htotal s definition) as [outcome Ho]. by rewrite !Ho.
Qed.


(** ** Example: the compiled project of [Compiler] *)

Definition ex_run_world : StubActions :=
  mkStubActions [Succeeds (mkProviderResult "sms-1" [] [mkFact "sms.sent" Contracts.AUTHORITATIVE (JBool true)])] new_memory.
Definition ex_output_type : GeneratedOutputType :=
  generate_agent_decision_output_type "clinic" "1" [ex_send_sms] ["sms.received"] [].
Definition ex_play (pack : ClientPack) : option (result (ScenarioResult * StubActions)) :=
  run_scenario (λ _, stub_action_port) (λ _, "object") isoformat ex_dump_time (λ _ items, items)
    (Some ex_output_type) (λ n, uuid (N.of_nat n)) (λ n k, uuid (N.of_nat (n + k))) pack "happy_path" ex_run_world.
Definition ex_play_compiled (compiled : result ClientPack) : option (result (ScenarioResult * StubActions)) :=
  match compiled with Ok pack => ex_play pack | Raise e => Some (Raise e) end.
Example ex_run_passes :
  (λ r, r' ← r; Ok (sr_final_status (fst r'), sr_action_types (fst r'), te_kind <$> sr_trace (fst r'))) <$> ex_play_compiled ex_compiled
  = Some (Ok (PS_COMPLETED, ["send_sms"],
              [TK_EVENT; TK_DECISION; TK_ACTION; TK_RESULT; TK_DECISION; TK_WAKE; TK_EVENT; TK_DECISION; TK_COMPLETE])).
Proof. vm_compute. reflexivity. Qed.

Definition ex_script (pack : ClientPack) : result (Script * ProcessDefinition) :=
  script ← make_script (λ _, "object") pack "happy_path" None;
  definition ← definition_of script;
  Ok (script, definition).
(** The run of the example passes. *)
Definition ex_passes (compiled : result ClientPack) : bool :=
  match compiled with
  | Ok pack => is_ok (ex_script pack) && match ex_play pack with Some (Ok _) => true | _ => false end
  | Raise _ => false
  end.

Lemma passed_scenarios_are_scripts_witness :
  ∃ pack script result world, ex_compiled = Ok pack ∧ ex_play pack = Some (Ok (result, world))
    ∧ sr_action_types result = proposed (sn_steps (sp_scenario script)).
Proof.
  assert (ex_passes ex_compiled = true) as Hp by (vm_compute; reflexivity). revert Hp. generalize ex_compiled.
  intros [pack|e] Hp; [|done]. apply andb_true_iff in Hp as [Hs Hp]. unfold ex_script in Hs.
  destruct (make_script _ pack _ _) as [script|e] eqn:Es; [|done]. cbn [mbind result_bind] in Hs.
  destruct (definition_of script) as [definition|e] eqn:Ed; [|done].
  destruct (ex_play pack) as [[[result world]|e]|] eqn:Er; [|done..]. exists pack, script, result, world. split_and!; [done..|].
  refine (proj1 (proj2 (proj2 (passed_scenarios_are_scripts (λ _, stub_action_port) (λ _, "object") isoformat ex_dump_time
    (λ _ items, items) (Some ex_output_type) _ _ script definition pack "happy_path" ex_run_world result world Es Ed _ Er)))).
  by intros t [= <-].
Defined.
