(* ===== verification/ApiReads.v ===== *)
(** * [api/]: what the operator reads

    The listings and detail views of [api/processes.py], [api/outbox.py] and
    [api/quarantine.py].  Each checks a read scope, opens one transaction for the
    identity's tenant and summarises the rows that transaction sees.

    [ORDER BY] is a stable sort of the rows in insertion order; rows a statement leaves
    tied keep that order.  The [updated_at] column, which only [list_processes] reads, is
    a function of the process.  A summary keeps a status or a code as the enumeration it
    is the text of, where the response gives that text unchanged. *)

From stdpp Require Import base gmap list strings sets sorting pretty.
From Stdlib Require Import ZArith Lia Ascii.
From S2P Require Import Prelude Python Identifiers PyTime Json Limits Contracts Definitions Communications Schema Session Budgets CommunicationSafety Control Quarantine Deployment Context Credentials Authentication ApiEvents ApiCommands.

#[local] Open Scope string_scope.
#[local] Open Scope list_scope.
#[local] Open Scope Z_scope.

(** ** Orders *)

(** By a key, and among equal keys by another order. *)
Definition lex {A K} (key : A → K) (le : relation K) (rest : relation A) (x y : A) : Prop :=
  (key x ≠ key y ∧ le (key x) (key y)) ∨ (key x = key y ∧ rest x y).
#[export] Instance lex_dec {A K} `{EqDecision K} (key : A → K) le rest
  `{∀ k k', Decision (le k k')} `{∀ x y, Decision (rest x y)} x y : Decision (lex key le rest x y) := _.

Definition id_le (u v : UUID) : Prop := (uuid_int u <= uuid_int v)%N.
#[export] Instance id_le_dec u v : Decision (id_le u v) := N.le_dec _ _.
Definition later (t t' : Z) : Prop := t' <= t.
#[export] Instance later_dec t t' : Decision (later t t') := Z.le_dec t' t.
Definition on {A K} (key : A → K) (le : relation K) (x y : A) : Prop := le (key x) (key y).
#[export] Instance on_dec {A K} (key : A → K) le `{∀ k k', Decision (le k k')} x y : Decision (on key le x y) :=
  _ : Decision (le (key x) (key y)).
#[global] Typeclasses Opaque lex on.

(** [ORDER BY time DESC], and [ORDER BY time DESC, id]. *)
Definition newest_first {R} (time : R → Z) : relation R := on time later.
Definition newest_then_id {R} (time : R → Z) (id : R → UUID) : relation R := lex time later (on id id_le).
#[export] Instance newest_first_dec {R} (time : R → Z) x y : Decision (newest_first time x y) := on_dec time later x y.
#[export] Instance newest_then_id_dec {R} (time : R → Z) id x y : Decision (newest_then_id time id x y) :=
  lex_dec time later (on id id_le) x y.
#[global] Typeclasses Opaque newest_first newest_then_id.

(** [ORDER BY ... LIMIT limit] *)
Definition first_rows {R} (order : relation R) `{∀ x y, Decision (order x y)} (limit : Z) (rows : list R) : list R :=
  take (Z.to_nat limit) (merge_sort order rows).

(** ** The processes *)

Record ProcessSummary := mkProcessSummary {
  ps_id : UUID; ps_process_type : string; ps_definition_version : string; ps_status : ProcessStatus;
  ps_state_version : Z; ps_memory_summary : option string; ps_open_commitments : list string;
  ps_current_wake_conditions : list WakeCondition; ps_pending_reviews : Z; ps_updated_at : Z
}.

Definition process_summary (updated_at : UUID → Z) (p : ProcessInstance) (pending : Z) : ProcessSummary :=
  mkProcessSummary (pi_id p) (pi_process_type p) (pi_definition_version p) (pi_status p) (pi_state_version p)
    (pi_memory_summary p) (pi_open_commitments p) (pi_current_wake_conditions p) pending (updated_at (pi_id p)).

(** The correlated subquery: the open threads of the process. *)
Definition pending_count (threads : list ReviewThread) (p : ProcessInstance) : Z :=
  Z.of_nat (length (List.filter (λ t, eqb (rt_process_instance_id t) (pi_id p) && eqb (rt_status t) TH_OPEN) threads)).

Definition has_status (status : option string) (p : ProcessInstance) : bool :=
  match status with Some v => bool_decide (process_status_value (pi_status p) = v) | None => true end.

Definition list_processes (updated_at : UUID → Z) (i : OperatorIdentity) (process_status : option string) (limit : Z)
  : Tx (list ProcessSummary) :=
  _ ← set_tenant_context (oi_tenant_id i);
  processes ← select (has_status process_status);
  threads ← select (λ _ : ReviewThread, true);
  mret ((λ p, process_summary updated_at p (pending_count threads p))
    <$> first_rows (newest_then_id (updated_at ∘ pi_id) pi_id) limit processes).

(** ** The safety summaries of a process *)

Record CommunicationSafetySummary := mkSafetySummary {
  cs_evaluated_at : Z; cs_outbound_action_types : list string; cs_outbound_allowed_now : bool;
  cs_blocks : list CommunicationBlock; cs_outbound_messages_total : Z; cs_max_outbound_messages_per_process : Z;
  cs_outbound_messages_in_window : Z; cs_max_outbound_messages_per_window : Z;
  cs_outbound_message_window_hours : Z; cs_follow_ups_since_reply : Z; cs_max_follow_ups_without_reply : Z;
  cs_minimum_follow_up_interval_hours : Z; cs_last_human_reply_at : option Z;
  cs_latest_automated_response_at : option Z; cs_opted_out_at : option Z; cs_process_expires_at : Z;
  cs_quiet_hours_timezone : option string; cs_quiet_hours_start_local : option string;
  cs_quiet_hours_end_local : option string
}.

Definition safety_summary (policy : CommunicationPolicy) (quiet_hours : option DailyQuietHours)
    (s : CommunicationSafetySnapshot) : CommunicationSafetySummary :=
  mkSafetySummary (css_evaluated_at s) (sorted (remove_dups (cp_outbound_action_types policy)))
    (css_outbound_allowed_now s) (css_blocks s) (css_outbound_messages_total s)
    (cp_max_outbound_messages_per_process policy) (css_outbound_messages_in_window s)
    (cp_max_outbound_messages_per_window policy) (cp_outbound_message_window policy / hours 1)
    (css_follow_ups_since_reply s) (cp_max_follow_ups_without_reply policy)
    (cp_minimum_follow_up_interval policy / hours 1) (css_last_human_reply_at s)
    (css_latest_automated_response_at s) (css_opted_out_at s) (css_process_expires_at s)
    (qh_timezone <$> quiet_hours) (isoformat_minutes ∘ qh_start_local <$> quiet_hours)
    (isoformat_minutes ∘ qh_end_local <$> quiet_hours).

Record ModelBudgetSummary := mkBudgetSummary {
  ms_evaluated_at : Z; ms_model_allowed_now : bool; ms_blocks : list ModelBudgetBlock;
  ms_spent_input_tokens : Z; ms_max_input_tokens_per_process : Z;
  ms_spent_output_tokens : Z; ms_max_output_tokens_per_process : Z;
  ms_spent_total_tokens : Z; ms_max_total_tokens_per_process : Z;
  ms_spent_cost_micros : Z; ms_max_cost_micros_per_process : Z
}.

Definition budget_summary (evaluated_at : Z) (b : ModelBudget) (s : ModelBudgetSnapshot) : ModelBudgetSummary :=
  mkBudgetSummary evaluated_at (mbs_model_allowed_now s) (mbs_blocks s)
    (input_tokens (mbs_evaluated_spent s)) (max_input_tokens_per_process b)
    (output_tokens (mbs_evaluated_spent s)) (max_output_tokens_per_process b)
    (total_tokens (mbs_evaluated_spent s)) (max_total_tokens_per_process b)
    (mbs_evaluated_cost_micros s) (max_cost_micros_per_process b).

(** [registry.get(...)] under [except LookupError: return None]; without a registry, none. *)
Definition served_definition (app : Application) (p : ProcessInstance) : option ProcessDefinition :=
  registry ← ap_process_registry app;
  match get_definition registry (pi_process_type p) (pi_definition_version p) with
  | Ok d => Some d
  | Raise _ => None
  end.

Section safety.
Context `{Zones}.

Definition _communication_safety_summary (app : Application) (tenant_id : UUID) (p : ProcessInstance)
  : Tx (option CommunicationSafetySummary) :=
  match served_definition app p with
  | None => mret None
  | Some d =>
      let policy := communication_policy d in
      if negb (nonempty (cp_outbound_action_types policy)) then mret None
      else
        now ← utcnow;
        snapshot ← inspect tenant_id p policy (utc now) None;
        mret (Some (safety_summary policy (cc_quiet_hours (pd_communications d)) snapshot))
  end.
End safety.

Definition _model_budget_summary (app : Application) (tenant_id : UUID) (p : ProcessInstance)
  : Tx (option ModelBudgetSummary) :=
  match served_definition app p with
  | None => mret None
  | Some d =>
      let budget := model_budget d in
      snapshot ← inspect_budget tenant_id (pi_id p) budget;
      now ← utcnow;
      mret (Some (budget_summary now budget snapshot))
  end.

(** ** Breakers *)

Record BreakerStateSummary := mkBreakerSummary {
  bz_scope : BreakerScope; bz_target : string; bz_tripped : bool; bz_reason : string; bz_actor_id : UUID;
  bz_transitioned_at : Z
}.

Definition _summarize_breaker (b : BreakerState) : BreakerStateSummary :=
  mkBreakerSummary (bs_scope b) (bs_target b) (bs_tripped b) (bs_reason b) (bs_actor_id b) (bs_transitioned_at b).

Definition breaker_row_summary (r : CircuitBreaker) : BreakerStateSummary :=
  mkBreakerSummary (br_scope r) (br_target r) (br_tripped r) (br_reason r) (br_actor_id r) (br_created_at r).

Definition id_ge (u v : UUID) : Prop := (uuid_int v <= uuid_int u)%N.
#[export] Instance id_ge_dec u v : Decision (id_ge u v) := N.le_dec _ _.
(** [ORDER BY created_at DESC, id DESC] *)
Definition breaker_order : relation CircuitBreaker := lex br_created_at later (on br_id id_ge).
#[export] Instance breaker_order_dec x y : Decision (breaker_order x y) :=
  lex_dec br_created_at later (on br_id id_ge) x y.

Definition breaker_key (b : BreakerStateSummary) : BreakerScope * string := (bz_scope b, bz_target b).

(** The loop that keeps the first row of each key; [latest] holds one summary of a key,
    in the order the keys were met. *)
Fixpoint first_of_each (latest : list BreakerStateSummary) (rows : list CircuitBreaker) : list BreakerStateSummary :=
  match rows with
  | [] => latest
  | r :: rows =>
      if existsb (λ b, eqb (breaker_key b) (br_scope r, br_target r)) latest then first_of_each latest rows
      else first_of_each (latest ++ [breaker_row_summary r]) rows
  end.

(** [sorted(latest)]: by the texts of scope and target. *)
Definition breaker_key_order : relation BreakerStateSummary :=
  lex (breaker_scope_value ∘ bz_scope) String.le (on bz_target String.le).
#[export] Instance breaker_key_order_dec x y : Decision (breaker_key_order x y) :=
  lex_dec (breaker_scope_value ∘ bz_scope) String.le (on bz_target String.le) x y.

Definition _latest_breaker_summaries (tenant_id : UUID) : Tx (list BreakerStateSummary) :=
  _ ← set_tenant_context tenant_id;
  rows ← select (λ r : CircuitBreaker, eqb (br_tenant_id r) tenant_id);
  mret (merge_sort breaker_key_order (first_of_each [] (merge_sort breaker_order rows))).

Definition list_breakers (i : OperatorIdentity) : Tx (list BreakerStateSummary) :=
  _latest_breaker_summaries (oi_tenant_id i).

(** ** The timeline of a process *)

(** What the [detail] of an item holds. *)
Inductive DetailValue :=
  | DText (o : option string)
  | DInt (n : Z)
  | DTime (t : Z)
  | DTexts (xs : list string)
  | DObject (o : option (list (string * json)))
  | DFacts (fs : list FactObservation)
  | DConflict (o : option ActionConflict)
  | DWakes (ws : list WakeCondition).

Record TimelineItem := mkItem {
  ti_id : string; ti_kind : string; ti_occurred_at : Z; ti_title : string; ti_status : option string;
  ti_agent_turn_id : option UUID; ti_action_request_id : option UUID; ti_detail : list (string * DetailValue)
}.

Definition correlation_value (s : CorrelationStatus) : string :=
  match s with CS_PENDING => "pending" | CS_MATCHED => "matched" | CS_REJECTED => "rejected" end.
Definition intervention_kind_value (k : InterventionKind) : string :=
  match k with IK_TURN_FAILURE => "turn_failure" | IK_ACTION_CHAIN_LIMIT => "action_chain_limit" end.
Definition intervention_status_value (s : InterventionStatus) : string :=
  match s with IS_OPEN => "open" | IS_RESOLVED => "resolved" end.

(** [text.replace("_", " ").title()] of an ASCII text; [inside] a word. *)
Definition is_upper (c : ascii) : bool := ((65 <=? byte_val c) && (byte_val c <=? 90))%N.
Fixpoint title_words (inside : bool) (s : string) : string :=
  match s with
  | EmptyString => EmptyString
  | String c s =>
      if (byte_val c =? 95)%N then String " "%char (title_words false s)
      else if is_lower c then
        String (if inside then c else ascii_of_N (byte_val c - 32)) (title_words true s)
      else if is_upper c then
        String (if inside then ascii_of_N (byte_val c + 32) else c) (title_words true s)
      else String c (title_words false s)
  end.

Definition event_item (e : EventInbox) : TimelineItem :=
  mkItem (str_uuid (ei_id e)) "event" (ei_received_at e) (ei_event_type e)
    (Some (correlation_value (ei_correlation_status e))) None None
    [("source", DText (Some (ei_source e))); ("facts", DFacts (ce_facts (ei_event_data e)))].

Definition decision_item (r : ProcessStateRevision) : TimelineItem :=
  mkItem (str_uuid (psr_id r)) "decision" (psr_created_at r) ("Agent decision · version " +:+ pretty (psr_version r))
    (Some (process_status_value (psr_process_status r))) (Some (psr_agent_turn_id r)) None
    [("decision_status", DText (Some (decision_status_value (psr_decision_status r))));
     ("memory_summary", DText (psr_memory_summary r)); ("wake_conditions", DWakes (psr_wake_conditions r));
     ("open_commitments", DTexts (psr_open_commitments r))].

Definition action_item (row : ActionRequest * ActionRevision * option ProcessStateRevision) : TimelineItem :=
  let '(a, v, turn) := row in
  mkItem (str_uuid (ar_id a)) "action"
    (match turn with Some r => psr_created_at r | None => ar_created_at a end) (ar_action_type a)
    (Some (request_status_value (ar_status a))) (Some (ar_agent_turn_id a)) (Some (ar_id a))
    [("revision", DInt (arv_revision v)); ("proposed_at", DTime (ar_created_at a));
     ("parameters", DObject (Some (arv_parameters v))); ("rationale", DText (Some (arv_rationale v)));
     ("supersedes_action_request_id", DText (str_uuid <$> ar_supersedes_action_request_id a))].

Definition attempt_item (row : ActionAttempt * ActionRequest) : TimelineItem :=
  let '(t, a) := row in
  mkItem (str_uuid (aa_id t)) "attempt" (aa_started_at t) ("Provider attempt · " +:+ aa_adapter_id t)
    (Some (attempt_status_value (aa_status t))) (Some (ar_agent_turn_id a)) (Some (aa_action_request_id t))
    [("provider_reference", DText (aa_provider_reference t)); ("result", DObject (aa_result t));
     ("conflict", DConflict (aa_conflict t)); ("facts", DFacts (aa_facts t)); ("error", DText (aa_error t))].

Definition review_item (m : ReviewMessage) : TimelineItem :=
  mkItem (str_uuid (rm_id m)) "review" (rm_created_at m) (title_words false (review_type_value (rm_message_type m)))
    None None None
    [("actor_id", DText (Some (str_uuid (rm_actor_id m)))); ("message", DText (rm_content m));
     ("proposal_revision", DInt (rm_proposal_revision m))].

Definition intervention_item (v : ProcessIntervention) : TimelineItem :=
  mkItem (str_uuid (pv_id v)) "intervention" (pv_created_at v) (pv_error_type v)
    (Some (intervention_status_value (pv_status v))) None None
    [("kind", DText (Some (intervention_kind_value (pv_kind v)))); ("error", DText (Some (pv_error v)));
     ("agent_turn_id", DText (Some (str_uuid (pv_agent_turn_id v))));
     ("resolved_by_command_id", DText (str_uuid <$> pv_resolved_by_command_id v))].

Definition control_item (c : ProcessControlCommand) : TimelineItem :=
  mkItem (str_uuid (pcc_id c)) "control" (pcc_created_at c) (title_words false (control_type_value (pcc_command_type c)))
    None None None
    [("actor_id", DText (Some (str_uuid (pcc_actor_id c)))); ("reason", DText (Some (pcc_reason c)));
     ("intervention_id", DText (str_uuid <$> pcc_intervention_id c))].

(** The actions of a process with their current revision and, where there is one, the
    state revision of the turn that proposed them; the attempts with their actions. *)
Definition action_rows (actions : list ActionRequest) (revisions : list ActionRevision)
    (states : list ProcessStateRevision) : list (ActionRequest * ActionRevision * option ProcessStateRevision) :=
  a ← actions;
  v ← List.filter (λ v, eqb (arv_action_request_id v) (ar_id a) && (arv_revision v =? ar_current_revision a)) revisions;
  r ← or_none (List.filter (λ r, eqb (psr_process_instance_id r) (ar_process_instance_id a)
                                 && eqb (psr_agent_turn_id r) (ar_agent_turn_id a)) states);
  [(a, v, r)].
Definition attempt_rows (attempts : list ActionAttempt) (actions : list ActionRequest)
  : list (ActionAttempt * ActionRequest) :=
  t ← attempts;
  a ← List.filter (λ a, eqb (ar_id a) (aa_action_request_id t)) actions;
  [(t, a)].

Definition proposed_at (row : ActionRequest * ActionRevision * option ProcessStateRevision) : Z :=
  ar_created_at row.1.1.
Definition started_at (row : ActionAttempt * ActionRequest) : Z := aa_started_at row.1.

(** The order of the timeline: by time, other items before actions, then kind and id. *)
Definition action_last (i : TimelineItem) : Z := if bool_decide (ti_kind i = "action") then 1 else 0.
Definition item_order : relation TimelineItem :=
  lex ti_occurred_at Z.le (lex action_last Z.le (lex ti_kind String.le (on ti_id String.le))).
#[export] Instance item_order_dec x y : Decision (item_order x y) :=
  lex_dec ti_occurred_at Z.le (lex action_last Z.le (lex ti_kind String.le (on ti_id String.le))) x y.

(** [items[-limit:]] *)
Definition last_items {A} (limit : Z) (items : list A) : list A :=
  if limit =? 0 then items else drop (length items - Z.to_nat limit) items.

Definition _load_timeline (p : UUID) (limit : Z) : Tx (list TimelineItem) :=
  events ← select (λ e : EventInbox, eqb (ei_process_instance_id e) (Some p));
  revisions ← select (λ r : ProcessStateRevision, eqb (psr_process_instance_id r) p);
  actions ← select (λ a : ActionRequest, eqb (ar_process_instance_id a) p);
  action_revisions ← select (λ _ : ActionRevision, true);
  states ← select (λ _ : ProcessStateRevision, true);
  attempts ← select (λ t : ActionAttempt, eqb (aa_process_instance_id t) p);
  all_actions ← select (λ _ : ActionRequest, true);
  messages ← select (λ m : ReviewMessage, eqb (rm_process_instance_id m) p);
  interventions ← select (λ v : ProcessIntervention, eqb (pv_process_instance_id v) p);
  controls ← select (λ c : ProcessControlCommand, eqb (pcc_process_instance_id c) p);
  let items :=
    (event_item <$> first_rows (newest_first ei_received_at) limit events)
    ++ (decision_item <$> first_rows (newest_first psr_created_at) limit revisions)
    ++ (action_item <$> first_rows (newest_first proposed_at) limit (action_rows actions action_revisions states))
    ++ (attempt_item <$> first_rows (newest_first started_at) limit (attempt_rows attempts all_actions))
    ++ (review_item <$> first_rows (newest_first rm_created_at) limit messages)
    ++ (intervention_item <$> first_rows (newest_first pv_created_at) limit interventions)
    ++ (control_item <$> first_rows (newest_first pcc_created_at) limit controls) in
  mret (last_items limit (merge_sort item_order items)).

(** ** A process *)

Record ProcessInterventionSummary := mkInterventionSummary {
  pis_id : UUID; pis_agent_turn_id : UUID; pis_kind : InterventionKind; pis_status : InterventionStatus;
  pis_error_type : string; pis_error : string; pis_source_event_ids : list UUID;
  pis_source_review_command_ids : list UUID; pis_source_action_attempt_ids : list UUID;
  pis_source_timer_ids : list string; pis_resolved_by_command_id : option UUID; pis_resolved_at : option Z;
  pis_created_at : Z
}.

Definition intervention_summary (v : ProcessIntervention) : result ProcessInterventionSummary :=
  events ← parse_uuids (pv_source_event_ids v);
  commands ← parse_uuids (pv_source_review_command_ids v);
  attempts ← parse_uuids (pv_source_action_attempt_ids v);
  Ok (mkInterventionSummary (pv_id v) (pv_agent_turn_id v) (pv_kind v) (pv_status v) (pv_error_type v) (pv_error v)
        events commands attempts (pv_source_timer_ids v) (pv_resolved_by_command_id v) (pv_resolved_at v)
        (pv_created_at v)).

(** [tuple(f(item) for item in items)] *)
Fixpoint map_each {A B} (f : A → result B) (items : list A) : result (list B) :=
  match items with
  | [] => Ok []
  | i :: items => b ← f i; bs ← map_each f items; Ok (b :: bs)
  end.

(** The columns of the process that the view shows as they are stay together in
    [det_process]. *)
Record ProcessDetail := mkProcessDetail {
  det_process : ProcessInstance;
  det_memory_summary_source_event_ids : list UUID;
  det_updated_at : Z;
  det_communication_safety : option CommunicationSafetySummary;
  det_model_budget : option ModelBudgetSummary;
  det_breakers : list BreakerStateSummary;
  det_interventions : list ProcessInterventionSummary;
  det_timeline : list TimelineItem
}.

Definition get_process `{Zones} (updated_at : UUID → Z) (app : Application) (i : OperatorIdentity)
    (process_instance_id : UUID) (timeline_limit : Z) : Tx ProcessDetail :=
  _ ← set_tenant_context (oi_tenant_id i);
  process ← scalar (λ p : ProcessInstance, eqb (pi_id p) process_instance_id);
  match process with
  | None => tx_raise (HTTPException 404) "process not found"
  | Some p =>
      interventions ← select (λ v : ProcessIntervention, eqb (pv_process_instance_id v) process_instance_id);
      timeline ← _load_timeline process_instance_id timeline_limit;
      communication_safety ← _communication_safety_summary app (oi_tenant_id i) p;
      model_budget ← _model_budget_summary app (oi_tenant_id i) p;
      breakers ← _latest_breaker_summaries (oi_tenant_id i);
      memory_ids ← lift_result (parse_uuids (pi_memory_summary_source_event_ids p));
      summaries ← lift_result (map_each intervention_summary (merge_sort (newest_first pv_created_at) interventions));
      mret (mkProcessDetail p memory_ids (updated_at (pi_id p)) communication_safety model_budget breakers summaries
              timeline)
  end.

(** ** Pending reviews *)

Record PendingReview := mkPendingReview {
  pr_thread_id : UUID; pr_process_instance_id : UUID; pr_process_type : string; pr_action_request_id : UUID;
  pr_action_type : string; pr_revision : Z; pr_parameters : list (string * json); pr_rationale : string;
  pr_payload_hash : string; pr_required_role : option string; pr_expires_at : option Z; pr_created_at : Z
}.

Record PendingRow := mkPendingRow {
  pw_thread : ReviewThread; pw_approval : ApprovalRequest; pw_action : ActionRequest; pw_revision : ActionRevision;
  pw_process : ProcessInstance
}.

Definition pending_review (w : PendingRow) : PendingReview :=
  mkPendingReview (rt_id (pw_thread w)) (pi_id (pw_process w)) (pi_process_type (pw_process w)) (ar_id (pw_action w))
    (ar_action_type (pw_action w)) (arv_revision (pw_revision w)) (arv_parameters (pw_revision w))
    (arv_rationale (pw_revision w)) (apq_payload_hash (pw_approval w)) (apq_required_role (pw_approval w))
    (apq_expires_at (pw_approval w)) (rt_created_at (pw_thread w)).

Definition pending_rows (threads : list ReviewThread) (approvals : list ApprovalRequest) (actions : list ActionRequest)
    (revisions : list ActionRevision) (processes : list ProcessInstance) : list PendingRow :=
  t ← threads;
  a ← List.filter (λ a, eqb (apq_id a) (rt_approval_request_id t)) approvals;
  r ← List.filter (λ r, eqb (ar_id r) (apq_action_request_id a)) actions;
  v ← List.filter (λ v, eqb (arv_action_request_id v) (apq_action_request_id a)
                        && (arv_revision v =? apq_revision a)) revisions;
  p ← List.filter (λ p, eqb (pi_id p) (rt_process_instance_id t)) processes;
  [mkPendingRow t a r v p].

(** [ORDER BY ReviewThread.created_at, ReviewThread.id] *)
Definition pending_order : relation PendingRow :=
  lex (rt_created_at ∘ pw_thread) Z.le (on (rt_id ∘ pw_thread) id_le).
#[export] Instance pending_order_dec x y : Decision (pending_order x y) :=
  lex_dec (rt_created_at ∘ pw_thread) Z.le (on (rt_id ∘ pw_thread) id_le) x y.

Definition list_pending_reviews (i : OperatorIdentity) (limit : Z) : Tx (list PendingReview) :=
  _ ← set_tenant_context (oi_tenant_id i);
  threads ← select (λ t : ReviewThread, eqb (rt_status t) TH_OPEN);
  approvals ← select (λ a : ApprovalRequest, eqb (apq_status a) AP_PENDING);
  actions ← select (λ _ : ActionRequest, true);
  revisions ← select (λ _ : ActionRevision, true);
  processes ← select (λ _ : ProcessInstance, true);
  mret (pending_review <$> first_rows pending_order limit (pending_rows threads approvals actions revisions processes)).

(** ** The outbox *)

Record DeadLetterSummary := mkDeadLetter {
  dl_id : UUID; dl_process_instance_id : option UUID; dl_message_type : string; dl_destination : string;
  dl_attempt_count : Z; dl_last_error : option string; dl_dead_lettered_at : Z; dl_created_at : Z
}.

Definition _dead_lettered_at (m : OutboxMessage) : result Z :=
  match om_dead_lettered_at m with
  | Some t => Ok t
  | None => raise RuntimeError "dead-lettered outbox message is missing its timestamp"
  end.

Definition dead_letter_summary (m : OutboxMessage) : result DeadLetterSummary :=
  t ← _dead_lettered_at m;
  Ok (mkDeadLetter (om_id m) (om_process_instance_id m) (om_message_type m) (om_destination m) (om_attempt_count m)
        (om_last_error m) t (om_created_at m)).

(** A descending order puts a missing time first. *)
Definition later_or_missing (t t' : option Z) : Prop :=
  match t, t' with
  | None, _ => True
  | Some _, None => False
  | Some t, Some t' => t' <= t
  end.
#[export] Instance later_or_missing_dec t t' : Decision (later_or_missing t t').
Proof. destruct t, t'; cbn; apply _. Defined.
Definition dead_letter_order : relation OutboxMessage := lex om_dead_lettered_at later_or_missing (on om_id id_le).
#[export] Instance dead_letter_order_dec x y : Decision (dead_letter_order x y) :=
  lex_dec om_dead_lettered_at later_or_missing (on om_id id_le) x y.

(** A filter the query leaves out. *)
Definition asked {A} `{EqDecision A} (wanted : option A) (value : option A) : bool :=
  match wanted with Some _ => eqb value wanted | None => true end.

Definition list_dead_letters (i : OperatorIdentity) (process_instance_id : option UUID) (limit : Z)
  : Tx (list DeadLetterSummary) :=
  _ ← lift_result (require_scope i OUTBOX_READ);
  _ ← set_tenant_context (oi_tenant_id i);
  messages ← select (λ m : OutboxMessage, eqb (om_status m) OB_DEAD_LETTER
                       && asked process_instance_id (om_process_instance_id m));
  lift_result (map_each dead_letter_summary (first_rows dead_letter_order limit messages)).

Record RecoveryCommandSummary := mkRecovery {
  rcs_id : UUID; rcs_outbox_message_id : UUID; rcs_actor_id : UUID; rcs_command_type : string; rcs_reason : string;
  rcs_previous_attempt_count : Z; rcs_previous_error : option string; rcs_previous_dead_lettered_at : Z;
  rcs_created_at : Z
}.

(** The check of [command_type] allows one value. *)
Definition recovery_summary (c : OutboxRecoveryCommand) : RecoveryCommandSummary :=
  mkRecovery (orc_id c) (orc_outbox_message_id c) (orc_actor_id c) "requeue" (orc_reason c)
    (orc_previous_attempt_count c) (orc_previous_error c) (orc_previous_dead_lettered_at c) (orc_created_at c).

Definition list_recovery_commands (i : OperatorIdentity) (outbox_message_id : option UUID) (limit : Z)
  : Tx (list RecoveryCommandSummary) :=
  _ ← lift_result (require_scope i OUTBOX_READ);
  _ ← set_tenant_context (oi_tenant_id i);
  commands ← select (λ c : OutboxRecoveryCommand, asked outbox_message_id (Some (orc_outbox_message_id c)));
  mret (recovery_summary <$> first_rows (newest_then_id orc_created_at orc_id) limit commands).

(** ** The quarantine *)

(** The scope text is compared with the identity's scopes, as [require_scope] does. *)
Definition _can_resolve (i : OperatorIdentity) : bool :=
  bool_decide ("*" ∈ oi_scopes i) || bool_decide (scope_value QUARANTINE_RESOLVE ∈ oi_scopes i).

Record QuarantineSummary := mkQuarantineSummary {
  qs_id : UUID; qs_event_type : string; qs_source : string; qs_source_event_id : string;
  qs_correlation_status : CorrelationStatus; qs_correlation_reason : option string;
  qs_process_instance_id : option UUID; qs_received_at : Z; qs_resolution : option EventResolutionCommand
}.

(** [ResolutionSummary.model_validate(resolution)] shows every column but the tenant; the
    row stands for it. *)
Definition _summary (row : EventInbox * option EventResolutionCommand) : QuarantineSummary :=
  let '(e, r) := row in
  mkQuarantineSummary (ei_id e) (ei_event_type e) (ei_source e) (ei_source_event_id e) (ei_correlation_status e)
    (ei_correlation_reason e) (ei_process_instance_id e) (ei_received_at e) r.

(** The events, each outer-joined with its resolutions. *)
Definition resolution_rows (events : list EventInbox) (resolutions : list EventResolutionCommand)
  : list (EventInbox * option EventResolutionCommand) :=
  e ← events;
  r ← or_none (List.filter (λ r, eqb (erc_tenant_id r) (ei_tenant_id e) && eqb (erc_event_id r) (ei_id e)) resolutions);
  [(e, r)].

Inductive QuarantineState := Q_UNRESOLVED | Q_RESOLVED.

Definition in_state (state : QuarantineState) (row : EventInbox * option EventResolutionCommand) : bool :=
  match state with
  | Q_UNRESOLVED => bool_decide (ei_correlation_status row.1 ∈ [CS_PENDING; CS_REJECTED])
  | Q_RESOLVED => bool_decide (is_Some row.2)
  end.

(** [ordering] of the state, then the event's id.  A resolved row has its resolution. *)
Definition quarantine_time (state : QuarantineState) (row : EventInbox * option EventResolutionCommand) : Z :=
  match state, row.2 with
  | Q_RESOLVED, Some r => erc_created_at r
  | _, _ => ei_received_at row.1
  end.
Definition quarantine_order (state : QuarantineState) : relation (EventInbox * option EventResolutionCommand) :=
  newest_then_id (quarantine_time state) (λ row, ei_id row.1).
#[export] Instance quarantine_order_dec state x y : Decision (quarantine_order state x y) :=
  newest_then_id_dec (quarantine_time state) (λ row, ei_id row.1) x y.

Record QuarantinePage := mkPage {
  qp_items : list QuarantineSummary; qp_total : Z; qp_limit : Z; qp_offset : Z; qp_can_resolve : bool
}.

Definition list_quarantine (i : OperatorIdentity) (state : QuarantineState) (limit offset : Z) : Tx QuarantinePage :=
  _ ← lift_result (require_scope i QUARANTINE_READ);
  _ ← set_tenant_context (oi_tenant_id i);
  events ← select (λ e : EventInbox, eqb (ei_tenant_id e) (oi_tenant_id i));
  resolutions ← select (λ _ : EventResolutionCommand, true);
  let rows := List.filter (in_state state) (resolution_rows events resolutions) in
  mret (mkPage (_summary <$> take (Z.to_nat limit) (drop (Z.to_nat offset) (merge_sort (quarantine_order state) rows)))
          (Z.of_nat (length rows)) limit offset (_can_resolve i)).

(** [reference_key] of a reference and of a correlation. *)
Definition reference_key (r : ExternalReference) : string * string * string :=
  (er_provider r, er_resource_type r, er_external_id r).
Definition correlation_key (c : ExternalCorrelation) : string * string * string :=
  (ec_provider c, ec_resource_type c, ec_external_id c).

(** The dict of owners: a later correlation of the same key replaces an earlier one. *)
Definition reference_owners (correlations : list ExternalCorrelation) : gmap (string * string * string) UUID :=
  foldl (λ owners c, <[correlation_key c := ec_process_instance_id c]> owners) ∅ correlations.

(** [dict.fromkeys(references)]: each reference once, where it is first met. *)
Fixpoint from_keys (seen references : list ExternalReference) : list ExternalReference :=
  match references with
  | [] => []
  | r :: references => if bool_decide (r ∈ seen) then from_keys seen references
                       else r :: from_keys (r :: seen) references
  end.

Record QuarantineDetail := mkQuarantineDetail {
  qd_summary : QuarantineSummary;
  qd_event : CanonicalEvent;
  qd_references : list (ExternalReference * option UUID);
  qd_candidates : list (UUID * string * ProcessStatus * string);
  qd_can_resolve : bool
}.

(** [CandidateSummary.model_validate(candidate)] *)
Definition candidate_summary (p : ProcessInstance) : UUID * string * ProcessStatus * string :=
  (pi_id p, pi_process_type p, pi_status p, pi_deployment_id p).

(** The processes the event may belong to: the owners of its references, the process it
    names, and the process it was matched to. *)
Definition candidate_ids (owners : gmap (string * string * string) UUID) (event : CanonicalEvent) (inbox : EventInbox)
  : list UUID :=
  (map_to_list owners).*2 ++ option_list (ce_process_instance_id event) ++ option_list (ei_process_instance_id inbox).

(** Nothing quarantined here: no row, or an event that was matched on arrival. *)
Definition not_quarantined (row : option (EventInbox * option EventResolutionCommand)) : bool :=
  match row with
  | None => true
  | Some (e, r) => eqb (ei_correlation_status e) CS_MATCHED && bool_decide (r = None)
  end.

Section quarantine.
Context (dump_datetime : datetime → string).

Definition stored_event (e : CanonicalEvent) : result CanonicalEvent :=
  _ ← for_each fact_validate (ce_facts e);
  _ ← event_validate dump_datetime e;
  Ok e.

Definition get_quarantine (i : OperatorIdentity) (event_id : UUID) : Tx QuarantineDetail :=
  _ ← lift_result (require_scope i QUARANTINE_READ);
  _ ← set_tenant_context (oi_tenant_id i);
  events ← select (λ e : EventInbox, eqb (ei_tenant_id e) (oi_tenant_id i) && eqb (ei_id e) event_id);
  resolutions ← select (λ _ : EventResolutionCommand, true);
  row ← one_or_none (resolution_rows events resolutions);
  _ ← tx_raise_if (not_quarantined row) (HTTPException 404) "quarantined event not found";
  match row with
  | None => tx_raise (HTTPException 404) "quarantined event not found"
  | Some (inbox, resolution) =>
      event ← lift_result (stored_event (ei_event_data inbox));
      correlations ← select (λ c : ExternalCorrelation, eqb (ec_tenant_id c) (oi_tenant_id i)
        && bool_decide (correlation_key c ∈ reference_key <$> ce_external_references event));
      let owners := reference_owners correlations in
      candidates ← select (λ p : ProcessInstance, eqb (pi_tenant_id p) (oi_tenant_id i)
        && bool_decide (pi_id p ∈ candidate_ids owners event inbox));
      mret (mkQuarantineDetail (_summary (inbox, resolution)) event
              ((λ r, (r, owners !! reference_key r)) <$> from_keys [] (ce_external_references event))
              (candidate_summary <$> merge_sort (on pi_id id_le) candidates) (_can_resolve i))
  end.
End quarantine.

(** ** Requests *)

Inductive ApiRead :=
  | ListProcesses (status : option string) (limit : Z)
  | GetProcess (process : UUID) (timeline_limit : Z)
  | ListPendingReviews (limit : Z)
  | ListBreakers
  | ListDeadLetters (process : option UUID) (limit : Z)
  | ListRecoveryCommands (message : option UUID) (limit : Z)
  | ListQuarantine (state : QuarantineState) (limit offset : Z)
  | GetQuarantine (event : UUID).

Inductive ApiAnswer :=
  | AProcesses (r : list ProcessSummary)
  | AProcess (r : ProcessDetail)
  | AReviews (r : list PendingReview)
  | ABreakers (r : list BreakerStateSummary)
  | ADeadLetters (r : list DeadLetterSummary)
  | ARecoveries (r : list RecoveryCommandSummary)
  | AQuarantine (r : QuarantinePage)
  | AQuarantined (r : QuarantineDetail).

(** The ranges of the query parameters. *)
Definition valid_query (q : ApiRead) : bool :=
  match q with
  | ListProcesses _ limit | ListPendingReviews limit | ListDeadLetters _ limit | ListRecoveryCommands _ limit =>
      (1 <=? limit) && (limit <=? 200)
  | GetProcess _ limit => (1 <=? limit) && (limit <=? 500)
  | ListQuarantine _ limit offset => (1 <=? limit) && (limit <=? 100) && (0 <=? offset)
  | ListBreakers | GetQuarantine _ => true
  end.

Section reads.
Context `{Zones} (dump_datetime : datetime → string) (updated_at : UUID → Z) (app : Application).

Definition answer (i : OperatorIdentity) (q : ApiRead) : Tx ApiAnswer :=
  match q with
  | ListProcesses status limit => r ← list_processes updated_at i status limit; mret (AProcesses r)
  | GetProcess p limit => r ← get_process updated_at app i p limit; mret (AProcess r)
  | ListPendingReviews limit => r ← list_pending_reviews i limit; mret (AReviews r)
  | ListBreakers => r ← list_breakers i; mret (ABreakers r)
  | ListDeadLetters p limit => r ← list_dead_letters i p limit; mret (ADeadLetters r)
  | ListRecoveryCommands m limit => r ← list_recovery_commands i m limit; mret (ARecoveries r)
  | ListQuarantine state limit offset => r ← list_quarantine i state limit offset; mret (AQuarantine r)
  | GetQuarantine e => r ← get_quarantine dump_datetime i e; mret (AQuarantined r)
  end.

(** The dependency that identifies the reader. *)
Definition identify_reader (s1 s2 : Session) (h : Headers) (q : ApiRead) : result OperatorIdentity :=
  let identity f := f (ap_state app) s1 s2 (hd_authorization h) (hd_tenant h) (hd_actor h) in
  match q with
  | ListProcesses _ _ | GetProcess _ _ | ListBreakers => identity require_process_reader
  | ListPendingReviews _ => identity require_review_reader
  | _ => identity require_operator_identity
  end.

Definition read_request (s1 s2 : Session) (h : Headers) (q : ApiRead) : Tx ApiAnswer :=
  i ← lift_result (identify_reader s1 s2 h q);
  _ ← tx_raise_if (negb (valid_query q)) (HTTPException 422) "query";
  answer i q.
End reads.
