(* ===== verification/ApiReadFacts.v ===== *)
(** * What the operator's views show

    A view depends on the rows of the reader's tenant only and changes nothing; the
    timeline of a process hides nothing newer than what it shows; and the listing of the
    breakers shows for each of them the state that the gates read. *)

From stdpp Require Import base gmap list strings sets sorting pretty.
From Stdlib Require Import ZArith Lia.
From S2P Require Import Prelude Python Identifiers PyTime Json Limits Contracts Definitions Communications Schema Session Budgets CommunicationSafety Control Quarantine Deployment Context Credentials Authentication ApiEvents ApiCommands System Isolation ApiReads.

#[local] Open Scope string_scope.
#[local] Open Scope list_scope.
#[local] Open Scope Z_scope.

(** ** Two databases with the same rows of one tenant *)

Definition own {R} `{Table R} (t : UUID) (r : R) : bool := eqb (Some t) (Some (row_tenant r)).
Definition same_own (t : UUID) (R : Type) `{Table R} (d d' : Db) : Prop :=
  List.filter (own t) (table (R:=R) d) = List.filter (own t) (table (R:=R) d').
Definition same_rows (t : UUID) (d d' : Db) : Prop := all_tables (λ R _ _ _, same_own t R d d').

(** The tables the views read. *)
Class Shown (R : Type) `{Table R} := shown : ∀ t d d', same_rows t d d' → same_own t R d d'.
Ltac show_table := intros t d d' Hs; unfold same_rows in Hs; every_table; assumption.
#[export] Instance ProcessInstance_shown : Shown ProcessInstance.
Proof. show_table. Qed.
#[export] Instance EventInbox_shown : Shown EventInbox.
Proof. show_table. Qed.
#[export] Instance OutboxMessage_shown : Shown OutboxMessage.
Proof. show_table. Qed.
#[export] Instance ActionRequest_shown : Shown ActionRequest.
Proof. show_table. Qed.
#[export] Instance ActionRevision_shown : Shown ActionRevision.
Proof. show_table. Qed.
#[export] Instance ApprovalRequest_shown : Shown ApprovalRequest.
Proof. show_table. Qed.
#[export] Instance ActionAttempt_shown : Shown ActionAttempt.
Proof. show_table. Qed.
#[export] Instance ReviewThread_shown : Shown ReviewThread.
Proof. show_table. Qed.
#[export] Instance ReviewMessage_shown : Shown ReviewMessage.
Proof. show_table. Qed.
#[export] Instance ModelUsageLedger_shown : Shown ModelUsageLedger.
Proof. show_table. Qed.
#[export] Instance CircuitBreaker_shown : Shown CircuitBreaker.
Proof. show_table. Qed.
#[export] Instance ProcessStateRevision_shown : Shown ProcessStateRevision.
Proof. show_table. Qed.
#[export] Instance ProcessIntervention_shown : Shown ProcessIntervention.
Proof. show_table. Qed.
#[export] Instance ProcessControlCommand_shown : Shown ProcessControlCommand.
Proof. show_table. Qed.
#[export] Instance ExternalCorrelation_shown : Shown ExternalCorrelation.
Proof. show_table. Qed.
#[export] Instance OutboxRecoveryCommand_shown : Shown OutboxRecoveryCommand.
Proof. show_table. Qed.
#[export] Instance EventResolutionCommand_shown : Shown EventResolutionCommand.
Proof. show_table. Qed.

(** [confined t m]: under the tenant [t] the transaction reads what [t] has, and
    writes nothing. *)
Definition confined {A} (t : UUID) (m : Tx A) : Prop := ∀ s d',
  s_tenant s = Some t → same_rows t (s_db s) d' →
  match m s with
  | Ok (a, s1) => s_db s1 = s_db s ∧ s_tenant s1 = Some t ∧ m (s <| s_db := d' |>) = Ok (a, s1 <| s_db := d' |>)
  | Raise e => m (s <| s_db := d' |>) = Raise e
  end.

Section confined.
Context (t : UUID).

Lemma confined_bind {A B} (m : Tx A) (k : A → Tx B) :
  confined t m → (∀ a, confined t (k a)) → confined t (m ≫= k).
Proof.
  intros Hm Hk s d' Ht Hd. specialize (Hm s d' Ht Hd). unfold mbind, Tx_bind.
  destruct (m s) as [[a s1]|e]; [|by rewrite Hm]. destruct Hm as (Hdb & Ht1 & ->).
  rewrite <- Hdb in Hd. specialize (Hk a s1 d' Ht1 Hd). destruct (k a s1) as [[b s2]|e]; [|done].
  destruct Hk as (Hdb2 & Ht2 & ->). by rewrite Hdb2.
Qed.
Lemma confined_ret {A} (a : A) : confined t (mret a : Tx A).
Proof. intros s d' Ht _. by repeat split. Qed.
Lemma confined_lift {A} (m : result A) : confined t (lift_result m).
Proof. intros s d' Ht _. unfold lift_result. destruct m; cbn; by repeat split. Qed.
Lemma confined_raise {A} c msg : confined t (tx_raise (A:=A) c msg).
Proof. apply confined_lift. Qed.
Lemma confined_raise_if b c msg : confined t (tx_raise_if b c msg).
Proof. apply confined_lift. Qed.
Lemma confined_utcnow : confined t utcnow.
Proof. intros s d' Ht _. cbn. by repeat split. Qed.
Lemma confined_tenant : confined t (set_tenant_context t).
Proof. intros s d' Ht _. cbn. by repeat split. Qed.

Context {R : Type} `{TableLaws R} `{!Shown R}.

Lemma filter_and {X} (p q : X → bool) xs :
  List.filter (λ x, p x && q x) xs = List.filter q (List.filter p xs).
Proof. induction xs as [|x xs IH]; cbn; [done|]. destruct (p x); cbn; [|done]. by rewrite IH. Qed.

Lemma confined_select p : confined t (select (R:=R) p).
Proof.
  intros s d' Ht Hd. cbn. split; [done|]. split; [done|]. unfold select, visible. cbn. rewrite !Ht.
  rewrite !(filter_and (λ r, eqb (Some t) (Some (row_tenant r)))). do 3 f_equal.
  symmetry. exact (shown (R:=R) _ _ _ Hd).
Qed.
Lemma confined_scalar p : confined t (scalar (R:=R) p).
Proof. apply confined_bind; [apply confined_select|intros; apply confined_ret]. Qed.
Lemma confined_one_or_none {A} (rows : list A) : confined t (one_or_none rows).
Proof. destruct rows as [|? [|? ?]]; [apply confined_ret..|apply confined_raise]. Qed.
End confined.

Create HintDb confined.
#[export] Hint Resolve confined_ret confined_lift confined_raise confined_raise_if confined_utcnow confined_tenant
  confined_one_or_none : confined.
#[export] Hint Extern 1 (confined _ (select _)) => apply confined_select; apply _ : confined.
#[export] Hint Extern 1 (confined _ (scalar _)) => apply confined_scalar; apply _ : confined.

(** Show that a transaction is confined, by its statements. *)
Ltac confines := repeat (intros; match goal with
  | |- confined _ (match ?x with _ => _ end) => destruct x
  | |- _ => solve [eauto 3 with confined]
  | |- confined _ (_ ≫= _) => apply confined_bind
  end).

Section views.
Context `{Zones} (t : UUID).

Lemma confined_event_time p types : confined t (_latest_event_time t p types).
Proof. unfold _latest_event_time. confines. Qed.
Lemma confined_automated_time p r a : confined t (_active_automated_response_time t p r a).
Proof. unfold _active_automated_response_time. confines. Qed.
#[local] Hint Resolve confined_event_time confined_automated_time : confined.
Lemma confined_inspect p policy now current : confined t (inspect t p policy now current).
Proof. unfold inspect. confines. Qed.
#[local] Hint Resolve confined_inspect : confined.
Lemma confined_safety app p : confined t (_communication_safety_summary app t p).
Proof. unfold _communication_safety_summary. confines. Qed.
Lemma confined_budget app p : confined t (_model_budget_summary app t p).
Proof. unfold _model_budget_summary, inspect_budget, spent. confines. Qed.
Lemma confined_breakers : confined t (_latest_breaker_summaries t).
Proof. unfold _latest_breaker_summaries. confines. Qed.
Lemma confined_timeline p limit : confined t (_load_timeline p limit).
Proof. unfold _load_timeline. confines. Qed.
#[local] Hint Resolve confined_safety confined_budget confined_breakers confined_timeline : confined.

(** The same from any tenant, for a transaction that first goes to its own. *)
Definition seen_by {A} (m : Tx A) : Prop := ∀ s d', same_rows t (s_db s) d' →
  within (s <| s_db := d' |>) m = within s m ∧ ∀ a s', m s = Ok (a, s') → s_db s' = s_db s.

Lemma seen_tenant {A} (k : unit → Tx A) : confined t (k tt) → seen_by (set_tenant_context t ≫= k).
Proof.
  intros Hk s d' Hd. specialize (Hk (s <| s_tenant := Some t |>) d' eq_refl Hd).
  unfold within. change ((set_tenant_context t ≫= k) s) with (k tt (s <| s_tenant := Some t |>)).
  change ((set_tenant_context t ≫= k) (s <| s_db := d' |>)) with (k tt (s <| s_tenant := Some t |> <| s_db := d' |>)).
  destruct (k tt (s <| s_tenant := Some t |>)) as [[a s1]|e]; [|by rewrite Hk]. destruct Hk as (Hdb & _ & ->). split; [done|].
  intros b s2 [= <- <-]. done.
Qed.
Lemma seen_lift {A B} (m : result A) (k : A → Tx B) : (∀ a, seen_by (k a)) → seen_by (lift_result m ≫= k).
Proof.
  intros Hk s d' Hd. destruct m as [a|e]; [|by split]. destruct (Hk a s d' Hd) as [Hw Hs]. by split.
Qed.
Lemma seen_answer {A B} (m : Tx A) (f : A → B) : seen_by m → seen_by (r ← m; mret (f r)).
Proof.
  intros Hm s d' Hd. destruct (Hm s d' Hd) as [Hw Hs]. unfold within in *. unfold mbind, Tx_bind in *.
  destruct (m s) as [[a s1]|e] eqn:E1, (m (s <| s_db := d' |>)) as [[a' s1']|e'] eqn:E2; cbn in *; try done.
  - injection Hw as ->. split; [done|]. intros b s2 [= <- <-]. by eapply Hs.
  - by injection Hw as ->.
Qed.

End views.

Ltac seen := match goal with
  | |- seen_by _ (match ?x with _ => _ end) => destruct x; seen
  | |- seen_by _ (r ← _; mret _) => apply seen_answer; seen
  | |- seen_by _ (lift_result _ ≫= _) => apply seen_lift; intros; seen
  | |- seen_by _ (set_tenant_context _ ≫= _) => apply seen_tenant; confines
  | |- _ => idtac
  end.
#[export] Hint Resolve confined_safety confined_budget confined_breakers confined_timeline : confined.

(** C36: Confidentiality of the views.  Whatever an operator reads - the processes, one
    process with its timeline, its send and model budgets, the breakers, the pending reviews,
    the dead letters and their recoveries, the quarantine - is the same answer, or the same
    error, in two databases that have the same rows of the reader's tenant, however the rows
    of other tenants differ; and reading changes nothing. *)
Theorem views_show_own_rows `{Zones} dump updated_at app i q s d' :
  same_rows (oi_tenant_id i) (s_db s) d' →
  within (s <| s_db := d' |>) (answer dump updated_at app i q) = within s (answer dump updated_at app i q)
  ∧ ∀ a s', answer dump updated_at app i q s = Ok (a, s') → s_db s' = s_db s.
Proof.
  revert s d'. change (seen_by (oi_tenant_id i) (answer dump updated_at app i q)). unfold answer.
  destruct q; apply seen_answer; unfold list_processes, get_process, list_pending_reviews, list_breakers,
    _latest_breaker_summaries, list_dead_letters, list_recovery_commands, list_quarantine, get_quarantine; seen.
Qed.

(** ** Sorted lists and their last items *)

Section orders.
Context {A K : Type} (key : A → K) (le : relation K) (rest : relation A).

#[export] Instance on_total `{!Total le} : Total (on key le).
Proof. intros x y. unfold on. apply (total le). Qed.
#[export] Instance on_trans `{!Transitive le} : Transitive (on key le).
Proof. intros x y z. unfold on. by etrans. Qed.
#[export] Instance lex_total `{EqDecision K} `{!Total le} `{!Total rest} : Total (lex key le rest).
Proof.
  intros x y. unfold lex. destruct (decide (key x = key y)) as [E|E].
  - destruct (total rest x y); [left|right]; right; auto.
  - destruct (total le (key x) (key y)); [left|right]; left; auto.
Qed.
#[export] Instance lex_trans `{!Transitive le} `{!AntiSymm (=) le} `{!Transitive rest} : Transitive (lex key le rest).
Proof.
  intros x y z [[N1 L1]|[E1 R1]] [[N2 L2]|[E2 R2]]; unfold lex.
  - left. split; [|by etrans]. intros E. apply N1. apply (anti_symm le); [done|by rewrite E].
  - left. by rewrite <- E2.
  - left. by rewrite E1.
  - right. split; [congruence|by etrans].
Qed.
Lemma lex_first x y : Reflexive le → lex key le rest x y → le (key x) (key y).
Proof. intros Hr [[_ L]|[-> _]]; [done|reflexivity]. Qed.
End orders.

#[export] Instance later_total : Total later.
Proof. intros x y. unfold later. lia. Qed.
#[export] Instance later_trans : Transitive later.
Proof. intros x y z. unfold later. lia. Qed.
#[export] Instance later_anti : AntiSymm (=) later.
Proof. intros x y. unfold later. lia. Qed.
#[export] Instance later_refl : Reflexive later.
Proof. intros x. unfold later. lia. Qed.
#[export] Instance id_ge_total : Total id_ge.
Proof. intros x y. unfold id_ge. lia. Qed.
#[export] Instance id_ge_trans : Transitive id_ge.
Proof. intros x y z. unfold id_ge. lia. Qed.

(** ** Breakers: the listing and the gates *)

(** What the listing finds of a key. *)
Definition find_key (k : BreakerScope * string) (bs : list BreakerStateSummary) : option BreakerStateSummary :=
  List.find (λ b, eqb (breaker_key b) k) bs.

Lemma find_key_in k bs b : find_key k bs = Some b → b ∈ bs ∧ breaker_key b = k.
Proof. intros [Hin E]%List.find_some. by rewrite list_elem_of_In; split; [|apply eqb_true]. Qed.

Lemma find_key_none k bs : find_key k bs = None ↔ k ∉ breaker_key <$> bs.
Proof.
  rewrite list_elem_of_fmap. split.
  - intros Hf (b & -> & Hin). apply list_elem_of_In in Hin. apply (List.find_none _ _ Hf) in Hin.
    by rewrite eqb_refl in Hin.
  - intros Hn. destruct (find_key k bs) as [b|] eqn:E; [|done]. apply find_key_in in E as [Hin <-].
    destruct Hn. by exists b.
Qed.

Lemma find_key_unique k bs b : NoDup (breaker_key <$> bs) → b ∈ bs → breaker_key b = k → find_key k bs = Some b.
Proof.
  intros Hu Hin <-. unfold find_key. induction bs as [|b' bs IH]; [by apply elem_of_nil in Hin|]. cbn in *.
  apply NoDup_cons in Hu as [Hn Hu]. apply elem_of_cons in Hin as [->|Hin]; [by rewrite eqb_refl|].
  destruct (eqb (breaker_key b') (breaker_key b)) eqn:E; [apply eqb_true in E|by apply IH]. destruct Hn. rewrite E. by apply list_elem_of_fmap_2.
Qed.

Lemma find_key_perm k bs bs' : NoDup (breaker_key <$> bs) → bs ≡ₚ bs' → find_key k bs' = find_key k bs.
Proof.
  intros Hu Hp. destruct (find_key k bs) as [b|] eqn:E.
  - apply find_key_in in E as [Hin Hk]. apply find_key_unique; [by rewrite <- Hp|by rewrite <- Hp|done].
  - rewrite find_key_none in E |- *. by rewrite <- Hp.
Qed.

Lemma find_key_app k bs bs' :
  find_key k (bs ++ bs') = match find_key k bs with Some b => Some b | None => find_key k bs' end.
Proof. unfold find_key. induction bs as [|b bs IH]; cbn; [done|]. by destruct (eqb _ _). Qed.

Lemma known_key k bs : existsb (λ b, eqb (breaker_key b) k) bs = negb (bool_decide (find_key k bs = None)).
Proof. unfold find_key. induction bs as [|b bs IH]; cbn; [done|]. by destruct (eqb _ _). Qed.

(** The loop keeps the first row of each key. *)
Lemma first_of_each_finds k latest rows :
  find_key k (first_of_each latest rows) = find_key k (latest ++ (breaker_row_summary <$> rows)).
Proof.
  revert latest. induction rows as [|r rows IH]; intros latest; cbn [first_of_each]; [by rewrite app_nil_r|].
  rewrite known_key. destruct (find_key (br_scope r, br_target r) latest) as [b|] eqn:E;
    [rewrite bool_decide_false by done|rewrite bool_decide_true by done]; cbn [negb]; rewrite IH.
  - rewrite !find_key_app. change (breaker_row_summary <$> r :: rows)
      with ([breaker_row_summary r] ++ (breaker_row_summary <$> rows)). rewrite find_key_app.
    destruct (find_key k latest) eqn:El; [done|]. unfold find_key at 2. cbn.
    destruct (eqb _ _) eqn:Ek; [|done]. apply eqb_true in Ek. unfold breaker_key in Ek. cbn in Ek. congruence.
  - by rewrite <- app_assoc.
Qed.
Lemma first_of_each_unique latest rows :
  NoDup (breaker_key <$> latest) → NoDup (breaker_key <$> first_of_each latest rows).
Proof.
  revert latest. induction rows as [|r rows IH]; intros latest Hu; cbn [first_of_each]; [done|].
  rewrite known_key. destruct (find_key (br_scope r, br_target r) latest) as [b|] eqn:E;
    [rewrite bool_decide_false by done|rewrite bool_decide_true by done]; cbn [negb]; apply IH; [done|].
  rewrite fmap_app, NoDup_app. split; [done|]. split; [|apply NoDup_singleton].
  intros k Hk Hin. cbn in Hin. apply list_elem_of_singleton in Hin. subst k. by apply find_key_none in E.
Qed.

Lemma newer_spec x y :
  (newer br_created_at br_id x y = true → breaker_order x y) ∧ (newer br_created_at br_id x y = false → breaker_order y x).
Proof.
  unfold newer, breaker_order, lex, on, later, id_ge.
  destruct (Z.ltb_spec (br_created_at y) (br_created_at x)); cbn [orb]; [split; intros; (done || lia)|].
  destruct (Z.eqb_spec (br_created_at x) (br_created_at y)); cbn [andb]; [|split; intros; (done || lia)].
  destruct (N.ltb_spec (uuid_int (br_id y)) (uuid_int (br_id x))); split; intros; (done || lia).
Qed.

(** The first row of a key in the order of the query is the newest of the key. *)
Lemma newest_by_order rows m : newest_by br_created_at br_id rows = Some m → Forall (breaker_order m) rows.
Proof.
  assert (∀ x, breaker_order x x) as Hr by (intros x; right; split; [done|unfold on, id_ge; lia]).
  revert m. induction rows as [|r rows IH]; intros m; cbn; [done|].
  destruct (newest_by br_created_at br_id rows) as [r'|] eqn:E.
  - intros [= <-]. specialize (IH r' eq_refl). destruct (newer br_created_at br_id r r') eqn:En.
    + constructor; [apply Hr|]. eapply Forall_impl; [exact IH|]. intros x. apply (transitivity (R:=breaker_order)).
      exact (proj1 (newer_spec _ _) En).
    + constructor; [exact (proj2 (newer_spec _ _) En)|done].
  - intros [= <-]. apply newest_by_None in E as ->. constructor; [apply Hr|constructor].
Qed.

Lemma sorted_first (p : CircuitBreaker → bool) rows r :
  StronglySorted breaker_order rows → List.find p rows = Some r → Forall (breaker_order r) (List.filter p rows).
Proof.
  induction 1 as [|x rows _ IH Hx]; cbn; [done|]. destruct (p x) eqn:E; [|done]. intros [= ->].
  constructor; [right; split; [done|unfold on, id_ge; lia]|]. rewrite Forall_forall in Hx |- *.
  intros y [Hy _]%list_elem_of_In%filter_In. apply Hx. by apply list_elem_of_In.
Qed.

Lemma unique_filter {A} (id : A → UUID) (p : A → bool) rows :
  NoDup (id <$> rows) → NoDup (id <$> List.filter p rows).
Proof.
  induction rows as [|r rows IH]; cbn; [done|]. intros [Hn Hu]%NoDup_cons. destruct (p r); [|by apply IH].
  cbn. constructor; [|by apply IH]. intros (x & E & Hx)%list_elem_of_fmap. apply Hn. rewrite E.
  apply list_elem_of_fmap_2. apply list_elem_of_In, filter_In in Hx as [Hx _]. by apply list_elem_of_In.
Qed.

(** Rows with different identifiers are in one order only. *)
Lemma breaker_order_anti rows x y :
  NoDup (br_id <$> rows) → x ∈ rows → y ∈ rows → breaker_order x y → breaker_order y x → x = y.
Proof.
  intros Hu Hx Hy Hxy Hyx. assert (br_id x = br_id y) as E.
  { assert (uuid_int (br_id x) = uuid_int (br_id y)) as E by
      (unfold breaker_order, lex, on, later, id_ge in Hxy, Hyx; lia).
    destruct (br_id x), (br_id y). cbn in E. by rewrite E. }
  clear Hxy Hyx. induction rows as [|r rows IH]; [by apply elem_of_nil in Hx|]. cbn in Hu.
  apply NoDup_cons in Hu as [Hn Hu]. apply elem_of_cons in Hx as [->|Hx], Hy as [->|Hy]; [done|..|by apply IH].
  - destruct Hn. rewrite E. by apply list_elem_of_fmap_2.
  - destruct Hn. rewrite <- E. by apply list_elem_of_fmap_2.
Qed.

Lemma sorted_newest (p : CircuitBreaker → bool) rows :
  NoDup (br_id <$> rows) →
  List.find p (merge_sort breaker_order rows) = newest (List.filter p rows).
Proof.
  intros Hu. set (sorted := merge_sort breaker_order rows).
  assert (sorted ≡ₚ rows) as Hp by apply merge_sort_Permutation.
  assert (StronglySorted breaker_order sorted) as Hs by apply (StronglySorted_merge_sort breaker_order).
  destruct (List.find p sorted) as [r|] eqn:E.
  - assert (r ∈ List.filter p rows) as Hin.
    { apply List.find_some in E as [Hin Hr]. apply list_elem_of_In, filter_In. split; [|done].
      apply list_elem_of_In. rewrite <- Hp. by apply list_elem_of_In. }
    destruct (newest (List.filter p rows)) as [m|] eqn:Em.
    2:{ apply newest_by_None in Em. rewrite Em in Hin. by apply elem_of_nil in Hin. }
    f_equal. pose proof (newest_by_in _ _ _ _ Em) as Hm. pose proof (newest_by_order _ _ Em) as Hmin.
    pose proof (sorted_first _ _ _ Hs E) as Hfirst. rewrite Forall_forall in Hmin, Hfirst.
    assert (∀ x, x ∈ List.filter p rows ↔ x ∈ rows ∧ p x = true) as Hf
      by (intros x; rewrite !list_elem_of_In; apply filter_In).
    apply (breaker_order_anti rows); [done|by apply Hf|by apply Hf| |by apply Hmin].
    apply Hfirst. apply list_elem_of_In, filter_In. split; [|by apply Hf]. apply list_elem_of_In. rewrite Hp.
    by apply Hf.
  - destruct (newest (List.filter p rows)) as [m|] eqn:Em; [|done]. apply newest_by_in in Em.
    apply list_elem_of_In, filter_In in Em as [Hin Hm]. apply list_elem_of_In in Hin. rewrite <- Hp in Hin.
    apply list_elem_of_In in Hin. by rewrite (List.find_none _ _ E _ Hin) in Hm.
Qed.

Lemma find_key_rows scope target rows :
  find_key (scope, target) (breaker_row_summary <$> rows)
  = _summarize_breaker ∘ breaker_state scope
      <$> List.find (λ r, eqb (br_scope r) scope && eqb (br_target r) target) rows.
Proof.
  unfold find_key. induction rows as [|r rows IH]; cbn; [done|]. unfold breaker_key. cbn.
  assert (eqb (br_scope r, br_target r) (scope, target) = eqb (br_scope r) scope && eqb (br_target r) target) as ->.
  { unfold eqb. rewrite <- bool_decide_and. apply bool_decide_ext. split; [by intros [= -> ->]|by intros [-> ->]]. }
  destruct (eqb (br_scope r) scope) eqn:E; cbn; [|done]. apply eqb_true in E. destruct (eqb _ _); [|done].
  cbn. unfold breaker_row_summary, _summarize_breaker. cbn. by rewrite E.
Qed.

(** C37: The breakers an operator sees are the breakers that gate.  The listing of a tenant
    has each breaker once, in order, and shows for every scope and target exactly the state
    that [CircuitBreakerService.latest], which the model and message gates ask, finds for
    it: none where it finds none. *)
Theorem listed_breakers_are_the_gates t s bs s' scope target st s1 :
  NoDup (br_id <$> circuit_breakers (s_db s)) →
  _latest_breaker_summaries t s = Ok (bs, s') →
  latest t scope target s = Ok (st, s1) →
  NoDup (breaker_key <$> bs) ∧ StronglySorted breaker_key_order bs ∧
  ∃ target', normalize_breaker_target scope target = Ok target' ∧
    find_key (scope, target') bs = _summarize_breaker <$> st.
Proof.
  intros Hu ([] & s2 & ->%set_tenant_context_ok & (rows & s3 & [-> ->]%select_ok & [-> _]%mret_ok)%tx_bind_ok)%tx_bind_ok.
  intros ([] & s4 & ->%set_tenant_context_ok & (target' & s5 & [Hn ->]%lift_result_ok
    & (found & s6 & [-> ->]%select_ok & [-> _]%mret_ok)%tx_bind_ok)%tx_bind_ok)%tx_bind_ok.
  set (rows := List.filter _ (table (R:=CircuitBreaker) _)). set (kept := first_of_each [] (merge_sort breaker_order rows)).
  assert (NoDup (breaker_key <$> kept)) as Hk by (apply first_of_each_unique; constructor).
  assert (merge_sort breaker_key_order kept ≡ₚ kept) as Hp by apply merge_sort_Permutation.
  split; [by rewrite Hp|]. split; [apply (StronglySorted_merge_sort breaker_key_order)|]. exists target'. split; [done|].
  rewrite (find_key_perm _ kept) by done. unfold kept. rewrite first_of_each_finds. cbn [app].
  rewrite find_key_rows, sorted_newest.
  2:{ by apply unique_filter. }
  rewrite option_fmap_compose. do 2 f_equal. unfold rows. rewrite <- filter_and.
  f_equal. apply filter_bool_ext. intros r _. by rewrite !andb_assoc.
Qed.

(** ** The timeline *)

(** What happened to a process, with the times the queries of the timeline order by. *)
Definition recorded (s : Session) (p : UUID) : list (Z * TimelineItem) :=
  let rows {R} `{Table R} (q : R → bool) := List.filter (λ r, visible s r && q r) (table (s_db s)) in
  ((λ e, (ei_received_at e, event_item e)) <$> rows (λ e, eqb (ei_process_instance_id e) (Some p)))
  ++ ((λ r, (psr_created_at r, decision_item r)) <$> rows (λ r, eqb (psr_process_instance_id r) p))
  ++ ((λ row, (proposed_at row, action_item row))
       <$> action_rows (rows (λ a, eqb (ar_process_instance_id a) p)) (rows (λ _, true)) (rows (λ _, true)))
  ++ ((λ row, (started_at row, attempt_item row))
       <$> attempt_rows (rows (λ t, eqb (aa_process_instance_id t) p)) (rows (λ _, true)))
  ++ ((λ m, (rm_created_at m, review_item m)) <$> rows (λ m, eqb (rm_process_instance_id m) p))
  ++ ((λ v, (pv_created_at v, intervention_item v)) <$> rows (λ v, eqb (pv_process_instance_id v) p))
  ++ ((λ c, (pcc_created_at c, control_item c)) <$> rows (λ c, eqb (pcc_process_instance_id c) p)).

#[export] Instance newest_first_total {R} (time : R → Z) : Total (newest_first time).
Proof. exact (on_total time later). Qed.
#[export] Instance newest_first_trans {R} (time : R → Z) : Transitive (newest_first time).
Proof. exact (on_trans time later). Qed.

(** The rows a limited query leaves out are no newer than the [limit] it keeps. *)
Lemma left_out {R} (time : R → Z) limit (rows : list R) r :
  r ∈ rows → r ∈ first_rows (newest_first time) limit rows
  ∨ length (first_rows (newest_first time) limit rows) = Z.to_nat limit
    ∧ Forall (λ r', time r <= time r') (first_rows (newest_first time) limit rows).
Proof.
  intros Hr. unfold first_rows. set (sorted := merge_sort (newest_first time) rows).
  assert (sorted ≡ₚ rows) as Hp by apply merge_sort_Permutation.
  assert (StronglySorted (newest_first time) sorted) as Hs.
  { apply (StronglySorted_merge_sort (newest_first time)). }
  rewrite <- Hp, <- (take_drop (Z.to_nat limit) sorted), elem_of_app in Hr. destruct Hr as [Hr|Hr]; [by left|right].
  split.
  - rewrite length_take. apply Nat.min_l. destruct (decide (length sorted <= Z.to_nat limit)%nat) as [E|E]; [|lia].
    rewrite drop_ge in Hr by done. by apply elem_of_nil in Hr.
  - rewrite <- (take_drop (Z.to_nat limit) sorted) in Hs. apply Forall_forall. intros r' Hr'.
    exact (StronglySorted_app_1_elem_of _ _ _ _ _ Hs Hr' Hr).
Qed.


Lemma first_rows_bound {R} (order : relation R) `{∀ x y, Decision (order x y)} limit (rows : list R) :
  first_rows order limit rows ⊆+ rows.
Proof. unfold first_rows. rewrite <- (merge_sort_Permutation order rows) at 2. apply submseteq_take. Qed.

Lemma count_perm {A} (p : A → bool) xs ys : xs ≡ₚ ys → length (List.filter p xs) = length (List.filter p ys).
Proof. induction 1; cbn; repeat case_match; cbn; congruence. Qed.
Lemma count_all {A} (p : A → bool) xs :
  Forall (λ x, p x = true) xs
  ∨ (∃ x, x ∈ xs ∧ p x = false) ∧ (length (List.filter p xs) < length xs)%nat.
Proof.
  induction xs as [|x xs [IH|[(y & Hy & Ey) IH]]]; cbn; [by left|..]; destruct (p x) eqn:E; cbn.
  - left. by constructor.
  - right. split; [exists x; split; [apply list_elem_of_here|done]|].
    pose proof (List.filter_length_le p xs). lia.
  - right. split; [exists y; split; [by apply list_elem_of_further|done]|lia].
  - right. split; [exists y; split; [by apply list_elem_of_further|done]|lia].
Qed.
Lemma count_none {A} (p : A → bool) xs : Forall (λ x, p x = false) xs → length (List.filter p xs) = 0%nat.
Proof. induction 1 as [|x xs Hx _ IH]; cbn; [done|]. by rewrite Hx. Qed.

(** The last items of a sorted list: what is cut off is no later; and what at least
    [limit] items satisfy, upwards, the last [limit] satisfy. *)
Section last.
Context (limit : Z) (Hlimit : 1 <= limit) (items : list TimelineItem).
Let sorted := merge_sort item_order items.

Lemma sorted_items : StronglySorted item_order sorted ∧ sorted ≡ₚ items.
Proof. split; [apply (StronglySorted_merge_sort item_order)|apply merge_sort_Permutation]. Qed.

Lemma last_items_split :
  sorted = take (length sorted - Z.to_nat limit) sorted ++ last_items limit sorted
  ∧ (length (last_items limit sorted) <= Z.to_nat limit)%nat
  ∧ (take (length sorted - Z.to_nat limit) sorted = [] ∨ length (last_items limit sorted) = Z.to_nat limit).
Proof.
  unfold last_items. rewrite (proj2 (Z.eqb_neq limit 0)) by lia. rewrite take_drop, length_drop. split; [done|].
  destruct (decide (length sorted <= Z.to_nat limit)%nat) as [E|E]; split; try lia.
  left. by replace (length sorted - Z.to_nat limit)%nat with 0%nat by lia.
Qed.

Lemma last_items_hide i :
  i ∈ items → i ∉ last_items limit sorted →
  length (last_items limit sorted) = Z.to_nat limit
  ∧ Forall (λ shown, ti_occurred_at i <= ti_occurred_at shown) (last_items limit sorted).
Proof.
  intros Hi Hn. destruct sorted_items as [Hs Hp]. destruct last_items_split as (E & _ & Hl).
  rewrite <- Hp, E, elem_of_app in Hi. destruct Hi as [Hi|Hi]; [|done]. split.
  - destruct Hl as [Hl|Hl]; [|done]. rewrite Hl in Hi. by apply elem_of_nil in Hi.
  - apply Forall_forall. intros shown Hshown. rewrite E in Hs.
    pose proof (StronglySorted_app_1_elem_of _ _ _ _ _ Hs Hi Hshown) as Ho.
    exact (lex_first ti_occurred_at Z.le _ _ _ Z.le_refl Ho).
Qed.

Lemma last_items_late t :
  (Z.to_nat limit <= length (List.filter (λ i, (t <=? ti_occurred_at i)%Z) items))%nat →
  length (last_items limit sorted) = Z.to_nat limit
  ∧ Forall (λ shown, t <= ti_occurred_at shown) (last_items limit sorted).
Proof.
  intros Hc. destruct sorted_items as [Hs Hp]. destruct last_items_split as (E & Hlen & Hl).
  rewrite (count_perm _ _ _ (symmetry Hp)), E, List.filter_app, length_app in Hc. rewrite E in Hs.
  destruct (count_all (λ i, t <=? ti_occurred_at i) (last_items limit sorted)) as [Hall|[(x & Hx & Ht) Hless]].
  - split; [|eapply Forall_impl; [exact Hall|]; intros x Hx; by apply Z.leb_le].
    destruct Hl as [Hl|Hl]; [|done]. rewrite Hl in Hc. cbn in Hc.
    pose proof (List.filter_length_le (λ i, t <=? ti_occurred_at i) (last_items limit sorted)). lia.
  - rewrite (count_none _ (take _ sorted)) in Hc; [lia|]. apply Forall_forall. intros y Hy.
    pose proof (StronglySorted_app_1_elem_of _ _ _ _ _ Hs Hy Hx) as Ho.
    apply (lex_first ti_occurred_at Z.le _ _ _ Z.le_refl) in Ho. apply Z.leb_gt in Ht. apply Z.leb_gt. lia.
Qed.
End last.

Lemma count_mono {A} (p : A → bool) xs ys : xs ⊆+ ys → (length (List.filter p xs) <= length (List.filter p ys))%nat.
Proof.
  intros [zs Hp]%submseteq_Permutation. rewrite (count_perm p _ _ Hp), List.filter_app, length_app. lia.
Qed.
Lemma count_every {A} (p : A → bool) xs : Forall (λ x, p x = true) xs → length (List.filter p xs) = length xs.
Proof. induction 1 as [|x xs Hx _ IH]; cbn; [done|]. rewrite Hx. cbn. by rewrite IH. Qed.

(** The items of one query among the items of a timeline. *)
Section source.
Context (limit : Z) (Hlimit : 1 <= limit) (items : list TimelineItem).
Context {R : Type} (time : R → Z) (item : R → TimelineItem) (rows : list R).
Context (Hrows : item <$> first_rows (newest_first time) limit rows ⊆+ items).
Let shown := last_items limit (merge_sort item_order items).

Lemma source_hidden r :
  r ∈ rows → item r ∉ shown →
  (length shown = Z.to_nat limit ∧ Forall (λ i, ti_occurred_at (item r) <= ti_occurred_at i) shown)
  ∨ length (first_rows (newest_first time) limit rows) = Z.to_nat limit
    ∧ Forall (λ r', time r <= time r') (first_rows (newest_first time) limit rows).
Proof.
  intros Hr Hn. destruct (left_out time limit rows r Hr) as [Hin|Hout]; [left|by right].
  apply last_items_hide; [done| |done]. eapply elem_of_submseteq; [|exact Hrows]. by apply list_elem_of_fmap_2.
Qed.

(** A source whose items occur when their rows are recorded. *)
Lemma timed_source_hidden r :
  (∀ r, ti_occurred_at (item r) = time r) → r ∈ rows → item r ∉ shown →
  length shown = Z.to_nat limit ∧ Forall (λ i, ti_occurred_at (item r) <= ti_occurred_at i) shown.
Proof.
  intros Ht Hr Hn. destruct (source_hidden r Hr Hn) as [Hs|[Hl Hs]]; [done|].
  apply last_items_late; [done|]. rewrite <- Hl.
  etrans; [|exact (count_mono _ _ _ Hrows)]. rewrite count_every, length_fmap; [done|].
  apply Forall_fmap. eapply Forall_impl; [exact Hs|]. intros x Hx. unfold compose. rewrite !Ht. by apply Z.leb_le.
Qed.
End source.

Ltac in_items := first [reflexivity | apply submseteq_inserts_r; reflexivity | apply submseteq_inserts_l; in_items].

(** The loaded items of a timeline. *)
Definition loaded (s : Session) (p : UUID) (limit : Z) : list TimelineItem :=
  let rows {R} `{Table R} (q : R → bool) := List.filter (λ r, visible s r && q r) (table (s_db s)) in
  (event_item <$> first_rows (newest_first ei_received_at) limit (rows (λ e, eqb (ei_process_instance_id e) (Some p))))
  ++ (decision_item <$> first_rows (newest_first psr_created_at) limit (rows (λ r, eqb (psr_process_instance_id r) p)))
  ++ (action_item <$> first_rows (newest_first proposed_at) limit
       (action_rows (rows (λ a, eqb (ar_process_instance_id a) p)) (rows (λ _, true)) (rows (λ _, true))))
  ++ (attempt_item <$> first_rows (newest_first started_at) limit
       (attempt_rows (rows (λ t, eqb (aa_process_instance_id t) p)) (rows (λ _, true))))
  ++ (review_item <$> first_rows (newest_first rm_created_at) limit (rows (λ m, eqb (rm_process_instance_id m) p)))
  ++ (intervention_item <$> first_rows (newest_first pv_created_at) limit (rows (λ v, eqb (pv_process_instance_id v) p)))
  ++ (control_item <$> first_rows (newest_first pcc_created_at) limit (rows (λ c, eqb (pcc_process_instance_id c) p))).

Lemma load_timeline_ok p limit s items s' :
  _load_timeline p limit s = Ok (items, s') →
  s' = s ∧ items = last_items limit (merge_sort item_order (loaded s p limit)).
Proof.
  unfold _load_timeline. intros E.
  repeat (apply tx_bind_ok in E as (? & ? & [-> ->]%select_ok & E)). apply mret_ok in E as [-> ->]. done.
Qed.

Lemma loaded_recorded s p limit : loaded s p limit ⊆+ (recorded s p).*2.
Proof.
  unfold loaded, recorded. cbv zeta. rewrite !fmap_app, <- !list_fmap_compose. unfold compose. cbn [snd].
  repeat apply submseteq_app; apply (fmap_submseteq _), first_rows_bound.
Qed.

(** The actions a query keeps are among the recorded ones. *)
Lemma actions_counted s p limit t :
  let rows {R} `{Table R} (q : R → bool) := List.filter (λ r, visible s r && q r) (table (s_db s)) in
  let kept := first_rows (newest_first proposed_at) limit
    (action_rows (rows (λ a, eqb (ar_process_instance_id a) p)) (rows (λ _, true)) (rows (λ _, true))) in
  Forall (λ row, t <= proposed_at row) kept →
  (length kept
   <= length (List.filter (λ x, bool_decide (ti_kind x.2 = "action") && (t <=? x.1)%Z) (recorded s p)))%nat.
Proof.
  intros rows kept Hlate. transitivity (length (List.filter
    (λ x : Z * TimelineItem, bool_decide (ti_kind x.2 = "action") && (t <=? x.1)%Z)
    ((λ row, (proposed_at row, action_item row)) <$> kept))).
  - rewrite count_every, length_fmap; [done|]. apply Forall_fmap. eapply Forall_impl; [exact Hlate|].
    intros [[a v] r] Hx. unfold compose. cbn [fst snd]. apply andb_true_iff. split; [done|by apply Z.leb_le].
  - apply count_mono. unfold recorded. cbv zeta. etrans; [apply (fmap_submseteq _), first_rows_bound|]. in_items.
Qed.

(** The timeline hides nothing newer than what it shows.  It shows at most [limit]
    items, sorted, each something that happened to the process.  When something is left out
    the timeline is full and everything shown is at least as late; the exception is an
    action, which the query orders by its proposal and the timeline by its turn: it may be
    left out instead because at least [limit] actions were proposed no earlier. *)
Theorem timeline_hides_nothing_newer p limit s items s' :
  1 <= limit →
  _load_timeline p limit s = Ok (items, s') →
  (length items <= Z.to_nat limit)%nat ∧ StronglySorted item_order items
  ∧ (∀ i, i ∈ items → i ∈ (recorded s p).*2)
  ∧ ∀ t i, (t, i) ∈ recorded s p → i ∉ items →
      (length items = Z.to_nat limit ∧ Forall (λ shown, ti_occurred_at i <= ti_occurred_at shown) items)
      ∨ ti_kind i = "action"
        ∧ (Z.to_nat limit
           <= length (List.filter (λ x, bool_decide (ti_kind x.2 = "action") && (t <=? x.1)%Z) (recorded s p)))%nat.
Proof.
  intros Hlimit [-> ->]%load_timeline_ok. destruct (last_items_split limit Hlimit (loaded s p limit)) as (E & Hlen & _).
  destruct (sorted_items (loaded s p limit)) as [Hs Hp]. split; [exact Hlen|]. rewrite E in Hs.
  split; [by apply StronglySorted_app_1_r in Hs|]. split.
  - intros i Hi. apply (elem_of_submseteq (loaded s p limit)); [|apply loaded_recorded].
    rewrite <- Hp, E. apply elem_of_app. by right.
  - intros t i Hi Hn. unfold recorded in Hi. cbv zeta in Hi. repeat rewrite elem_of_app in Hi.
    destruct Hi as [Hi|[Hi|[Hi|[Hi|[Hi|[Hi|Hi]]]]]]; apply list_elem_of_fmap in Hi as (r & [= -> ->] & Hr);
      try (left; eapply timed_source_hidden;
           [done| |intros ?; reflexivity|exact Hr|exact Hn]; unfold loaded; in_items).
    + eapply source_hidden in Hn as [Hn|[Hl Hlate]]; [by left| |done|by unfold loaded; in_items|exact Hr]. right.
      split; [by destruct r as [[]]|]. rewrite <- Hl. apply actions_counted; exact Hlate.
    + left. eapply (timed_source_hidden _ Hlimit _ started_at); [|by intros [? ?]|exact Hr|exact Hn].
      unfold loaded; in_items.
Qed.

(** ** A tenant with a quarantined event, three controls of one process and two breakers *)

Definition ex_breaker (id : N) (t : N) (scope : BreakerScope) (tripped : bool) (at_ : Z) : CircuitBreaker :=
  mkCircuitBreaker (uuid id) (uuid t) scope "" tripped "why" (uuid 9) at_.
Definition ex_control_row (id : N) (at_ : Z) : ProcessControlCommand :=
  mkProcessControlCommand (uuid id) (uuid 10) (uuid 20) (uuid 9) None PC_WAKE "now" [] at_.
Definition ex_view_db : Db := ex_quarantine_db
  <| circuit_breakers := [ex_breaker 1 10 MODEL_CALLS true 5; ex_breaker 2 10 ALL true 6; ex_breaker 3 10 MODEL_CALLS false 7] |>
  <| process_control_commands := [ex_control_row 60 5; ex_control_row 61 9; ex_control_row 62 7] |>.
Definition ex_view_session : Session := mkSession ex_view_db (Some (uuid 10)) (days 82) (λ _, days 82) 0 (uuid ∘ N.of_nat) 0.
(** The same for the tenant, with a breaker of another one in between. *)
Definition ex_other_db : Db := ex_view_db
  <| circuit_breakers := [ex_breaker 1 10 MODEL_CALLS true 5; ex_breaker 8 11 ALL true 9; ex_breaker 2 10 ALL true 6;
                          ex_breaker 3 10 MODEL_CALLS false 7] |>.
Definition ex_viewer : OperatorIdentity := mkIdentity (uuid 10) (uuid 9) ∅ ∅ None "tenant_bearer".
Definition ex_view_app : Application := mkApplication (mkAppState PRODUCTION false None []) ∅ None.
Definition ex_view (d : Db) : result ApiAnswer :=
  within (ex_view_session <| s_db := d |>) (answer isoformat (λ _, 0) ex_view_app ex_viewer ListBreakers).

Lemma views_show_own_rows_witness :
  ex_view ex_other_db = ex_view ex_view_db
  ∧ ex_view ex_view_db = Ok (ABreakers [mkBreakerSummary ALL "" true "why" (uuid 9) 6;
                                        mkBreakerSummary MODEL_CALLS "" false "why" (uuid 9) 7]).
Proof.
  split; [|vm_compute; reflexivity].
  apply (views_show_own_rows isoformat (λ _, 0) ex_view_app ex_viewer ListBreakers ex_view_session ex_other_db).
  unfold same_rows, all_tables, same_own. repeat split; vm_compute; reflexivity.
Defined.

Definition ex_listed : list BreakerStateSummary :=
  match _latest_breaker_summaries (uuid 10) ex_view_session with Ok (bs, _) => bs | Raise _ => [] end.
Lemma listed_breakers_are_the_gates_witness :
  find_key (MODEL_CALLS, "") ex_listed = Some (mkBreakerSummary MODEL_CALLS "" false "why" (uuid 9) 7).
Proof.
  destruct (listed_breakers_are_the_gates (uuid 10) ex_view_session ex_listed ex_view_session MODEL_CALLS ""
    (Some (mkBreakerState MODEL_CALLS "" false "why" (uuid 9) 7)) ex_view_session) as (_ & _ & target & [= <-] & E).
  - apply (bool_decide_unpack _). vm_compute. exact I.
  - vm_compute. reflexivity.
  - vm_compute. reflexivity.
  - exact E.
Defined.

Definition ex_timeline : list TimelineItem :=
  match _load_timeline (uuid 20) 2 ex_view_session with Ok (items, _) => items | Raise _ => [] end.
Lemma timeline_hides_nothing_newer_witness :
  ti_id <$> ex_timeline = [str_uuid (uuid 62); str_uuid (uuid 61)]
  ∧ Forall (λ shown, 5 <= ti_occurred_at shown) ex_timeline.
Proof.
  split; [vm_compute; reflexivity|].
  destruct (timeline_hides_nothing_newer (uuid 20) 2 ex_view_session ex_timeline ex_view_session) as (_ & _ & _ & Hh);
    [lia|vm_compute; reflexivity|].
  destruct (Hh 5 (control_item (ex_control_row 60 5))) as [[_ Hall]|[E _]]; [| |exact Hall|].
  - apply (list_elem_of_lookup_2 _ 0%nat). vm_compute. reflexivity.
  - intros Hin%(list_elem_of_fmap_2 ti_id). revert Hin. apply (bool_decide_unpack _). vm_compute. exact I.
  - vm_compute in E. discriminate E.
Defined.
