(* ===== verification/Startup.v ===== *)
(** * [api/settings.py], [api/deployment.py], [extensions/loader.py], [api/main.py],
      [temporal/worker.py]: how an API and a worker are started

    Settings are read from the environment and checked; a client pack is loaded from the
    module the settings name; the API composes its release, its trigger rules and its
    registry, and the worker composes the same release, checks that its tenants are
    assigned to it, and keeps what its activities run with.

    Reading the environment, connecting to the database and to Temporal, and serving are
    left out.  Importing a module is an argument: what the attributes of a module are.
    [str.upper] is that of ASCII letters. *)

From stdpp Require Import base gmap list strings sets.
From Stdlib Require Import ZArith Lia Ascii.
From S2P Require Import Prelude Python PyTime Json Limits Contracts Definitions Communications Schema Session Budgets Ingestion Deployment Projects Packs Authentication ApiEvents.

#[local] Open Scope string_scope.
#[local] Open Scope list_scope.
#[local] Open Scope Z_scope.

(** ** Settings *)

Record Settings := mkSettings {
  st_environment : Environment;
  st_log_level : string;
  st_database_url : string;
  st_migration_database_url : string;
  st_temporal_target : string;
  st_temporal_namespace : string;
  st_deployment_id : option string;
  st_deployment_build_id : option string;
  st_deployment_tenant_ids : list UUID;
  st_openai_model : option string;
  st_openai_api_key : option string;
  st_model_price_overrides : list (string * PriceEntry);
  st_max_model_tokens_per_tenant : Z;
  st_max_model_cost_micros_per_tenant : Z;
  st_platform_model_calls_paused : bool;
  st_platform_outbound_messages_paused : bool;
  st_api_host : string;
  st_api_port : Z;
  st_allow_unsafe_development_tenant_header : bool;
  st_load_fictional_example_processes : bool;
  st_client_pack_factory : option string
}.

(** [value.strip() or None] *)
Definition stripped_or_none (value : option string) : option string :=
  v ← value; if is_empty (strip v) then None else Some (strip v).

Definition upper_char (c : ascii) : ascii := if is_lower c then ascii_of_N (byte_val c - 32) else c.
Fixpoint upper (s : string) : string :=
  match s with EmptyString => EmptyString | String c s => String (upper_char c) (upper s) end.

Definition _LOG_LEVELS : list string := ["DEBUG"; "INFO"; "WARNING"; "ERROR"; "CRITICAL"].
Definition validate_log_level (value : string) : result string :=
  let normalized := upper (strip value) in
  _ ← raise_if (negb (bool_decide (normalized ∈ _LOG_LEVELS))) ValueError
        "log level must be one of ['CRITICAL', 'DEBUG', 'ERROR', 'INFO', 'WARNING']";
  Ok normalized.

Definition validate_database_url (value : string) : result string :=
  _ ← raise_if (negb (String.prefix "postgresql+asyncpg://" value)) ValueError
        "database URLs must use the postgresql+asyncpg driver";
  Ok value.

Definition require_nonblank_runtime_value (value : string) : result string :=
  _ ← raise_if (is_empty (strip value)) ValueError "runtime configuration values cannot be blank";
  Ok (strip value).

Definition require_unique_deployment_tenants (value : list UUID) : result unit :=
  raise_if (negb (bool_decide (NoDup value))) ValueError "deployment tenant assignments must be unique".

Definition prevent_development_features_in_deployments (s : Settings) : result unit :=
  _ ← raise_if (negb (bool_decide (st_environment s = DEVELOPMENT)) && st_allow_unsafe_development_tenant_header s)
        ValueError "unsafe development identity headers require development environment";
  _ ← raise_if (negb (bool_decide (st_environment s ∈ [DEVELOPMENT; TEST])) && st_load_fictional_example_processes s)
        ValueError "the fictional client pack is restricted to development and tests";
  raise_if (negb (falsy (st_client_pack_factory s)) && st_load_fictional_example_processes s) ValueError
    "configure either TIRAMISU_CLIENT_PACK_FACTORY or the fictional example".

(** [Settings(...)]: the fields are normalised and checked, then the whole. *)
Definition make_settings (raw : Settings) : result Settings :=
  log_level ← validate_log_level (st_log_level raw);
  database_url ← validate_database_url (st_database_url raw);
  migration_database_url ← validate_database_url (st_migration_database_url raw);
  temporal_target ← require_nonblank_runtime_value (st_temporal_target raw);
  temporal_namespace ← require_nonblank_runtime_value (st_temporal_namespace raw);
  _ ← require_unique_deployment_tenants (st_deployment_tenant_ids raw);
  _ ← for_each (λ kv, override_validate (snd kv)) (st_model_price_overrides raw);
  _ ← raise_if (st_max_model_tokens_per_tenant raw <? 0) ValueError "max_model_tokens_per_tenant";
  _ ← raise_if (st_max_model_cost_micros_per_tenant raw <? 0) ValueError "max_model_cost_micros_per_tenant";
  api_host ← require_nonblank_runtime_value (st_api_host raw);
  _ ← raise_if ((st_api_port raw <? 1) || (65535 <? st_api_port raw)) ValueError "api_port";
  let s := mkSettings (st_environment raw) log_level database_url migration_database_url temporal_target
    temporal_namespace (stripped_or_none (st_deployment_id raw)) (stripped_or_none (st_deployment_build_id raw))
    (st_deployment_tenant_ids raw) (stripped_or_none (st_openai_model raw))
    (key ← st_openai_api_key raw; if is_empty (strip key) then None else Some key)
    (st_model_price_overrides raw) (st_max_model_tokens_per_tenant raw) (st_max_model_cost_micros_per_tenant raw)
    (st_platform_model_calls_paused raw) (st_platform_outbound_messages_paused raw) api_host (st_api_port raw)
    (st_allow_unsafe_development_tenant_header raw) (st_load_fictional_example_processes raw)
    (stripped_or_none (st_client_pack_factory raw)) in
  _ ← prevent_development_features_in_deployments s;
  Ok s.

(** ** Loading a client pack *)

Definition FICTIONAL_CLIENT_PACK_FACTORY : string := "tiramisu_agents.builtin:load_fictional_deployment".

Definition configured_client_pack_factory (factory_path : option string) (load_fictional_example : bool)
  : result (option string) :=
  _ ← raise_if (negb (falsy factory_path) && load_fictional_example) ClientPackError
        "configure either a client-pack factory or the fictional example, not both";
  Ok (if load_fictional_example then Some FICTIONAL_CLIENT_PACK_FACTORY else factory_path).

(** [s.partition(":")] *)
Fixpoint partition_colon (s : string) : string * bool * string :=
  match s with
  | EmptyString => (EmptyString, false, EmptyString)
  | String c s => if (byte_val c =? 58)%N then (EmptyString, true, s)
                  else let '(before, found, after) := partition_colon s in (String c before, found, after)
  end.

(** An attribute of a module: not callable, or a factory with what its call gives, which
    is a pack or something else. *)
Inductive Attribute := NotCallable | Factory (returned : result (option ClientPack)).

Section loading.
(** [import_module]: [None] is [ImportError]; a module is its attributes. *)
Context (import_module : string → option (string → option Attribute)).

Definition load_client_pack (factory_path : string) : result ClientPack :=
  let '(module_name, separator, attribute_name) := partition_colon factory_path in
  _ ← raise_if (negb separator || is_blank module_name || is_blank attribute_name) ClientPackError
        "client-pack factory must use the form 'module:attribute'";
  _ ← raise_if (partition_colon attribute_name).1.2 ClientPackError
        "client-pack factory must contain exactly one ':' separator";
  match import_module module_name with
  | None => raise ClientPackError ("could not import client-pack module " +:+ repr_name module_name)
  | Some attributes =>
      match attributes attribute_name with
      | None => raise ClientPackError
                  ("client-pack module " +:+ repr_name module_name +:+ " has no attribute " +:+ repr_name attribute_name)
      | Some NotCallable => raise ClientPackError "configured client-pack factory is not callable"
      | Some (Factory returned) =>
          deployment ← returned;
          match deployment with
          | Some p => Ok p
          | None => raise ClientPackError "configured factory did not return a ClientPack"
          end
      end
  end.

Definition load_configured_client_pack (factory_path : option string) (load_fictional_example : bool)
  : result (option ClientPack) :=
  resolved ← configured_client_pack_factory factory_path load_fictional_example;
  match resolved with
  | Some path => p ← load_client_pack path; Ok (Some p)
  | None => Ok None
  end.
End loading.

(** [value is None] as an error *)
Definition required {A} (value : option A) (message : string) : result A :=
  match value with Some v => Ok v | None => raise ValueError message end.

Definition compose_deployment_release (tiramisu_version : string) (s : Settings) (p : ClientPack)
    (tenant_ids : option (list UUID)) : result DeploymentRelease :=
  deployment_id ← required (st_deployment_id s) "TIRAMISU_DEPLOYMENT_ID is required for a client-pack deployment";
  build_id ← required (st_deployment_build_id s) "TIRAMISU_DEPLOYMENT_BUILD_ID is required for a client-pack deployment";
  _ ← raise_if (negb (nonempty (default (st_deployment_tenant_ids s) tenant_ids))) ValueError
        "TIRAMISU_DEPLOYMENT_TENANT_IDS must assign at least one tenant to the deployment";
  model ← required (st_openai_model s) "TIRAMISU_OPENAI_MODEL is required for a client-pack deployment";
  make_release tiramisu_version deployment_id build_id (cp_fingerprint p) model.

Section startup.
Context (import_module : string → option (string → option Attribute)).
Context (dump_time : time → string) (tiramisu_version : string).

Definition configured_pack (s : Settings) : result (option ClientPack) :=
  load_configured_client_pack import_module (st_client_pack_factory s) (st_load_fictional_example_processes s).

(** ** The API *)

(** What [create_app] may be given instead of the settings' own. *)
Record AppArguments := mkAppArguments {
  arg_trigger_rules : option (gmap string ProcessBootstrap);
  arg_process_registry : option ProcessDefinitionRegistry;
  arg_client_pack : option ClientPack;
  arg_deployment_release : option DeploymentRelease
}.
Definition no_arguments : AppArguments := mkAppArguments None None None None.

(** The application's state: [Application] and the pack. *)
Record ApiApp := mkApiApp { api_application : Application; api_client_pack : option ClientPack }.

(** The pins of a bootstrap are those of a row it starts. *)
Definition bootstrap_pins (b : ProcessBootstrap) : ProcessInstance := new_process (uuid 0) (uuid 0) b 0.

(** The checks of one given trigger rule. *)
Definition check_rule (p : ClientPack) (r : DeploymentRelease) (rule : string * ProcessBootstrap) : result unit :=
  let '(event_type, b) := rule in
  definition ← resolve_trigger (cp_registry p) event_type false;
  match definition with
  | None => raise ValueError "trigger rule is not published by the client pack"
  | Some d =>
      _ ← raise_if (negb (eqb (bt_process_type b) (pd_id d)) || negb (eqb (bt_definition_version b) (pd_version d)))
            ValueError "trigger rules and client-pack definitions disagree";
      _ ← require_process_pins (cp_compatibility p) (bootstrap_pins b);
      require_release_pins r (bootstrap_pins b)
  end.

Definition app_pack (s : Settings) (a : AppArguments) : result (option ClientPack) :=
  match arg_client_pack a, arg_trigger_rules a, arg_process_registry a with
  | Some p, _, _ => Ok (Some p)
  | None, Some _, Some _ => Ok None
  | None, _, _ => configured_pack s
  end.

Definition app_release (s : Settings) (a : AppArguments) (p : ClientPack) : result DeploymentRelease :=
  match arg_deployment_release a with
  | None => compose_deployment_release tiramisu_version s p None
  | Some r => _ ← require_client_pack r (cp_fingerprint p); Ok r
  end.

Definition app_rules (a : AppArguments) (p : ClientPack) (r : DeploymentRelease)
  : result (gmap string ProcessBootstrap) :=
  match arg_trigger_rules a with
  | None => trigger_rules dump_time p r
  | Some rules => _ ← for_each (check_rule p r) (map_to_list rules); Ok rules
  end.

Definition create_app (s : Settings) (a : AppArguments) : result ApiApp :=
  pack ← app_pack s a;
  '(release, rules, registry) ←
    match pack with
    | Some p =>
        release ← app_release s a p;
        rules ← app_rules a p release;
        Ok (Some release, Some rules, Some (default (cp_registry p) (arg_process_registry a)))
    | None =>
        _ ← raise_if (bool_decide (is_Some (arg_deployment_release a))) ValueError
              "a deployment release requires a client pack";
        Ok (None, arg_trigger_rules a, arg_process_registry a)
    end;
  Ok (mkApiApp
        (mkApplication
           (mkAppState (st_environment s) (st_allow_unsafe_development_tenant_header s) release
              (st_deployment_tenant_ids s))
           (default ∅ rules) registry)
        pack).

(** [HealthResponse], from the state of the application. *)
Record HealthResponse := mkHealth {
  he_environment : Environment; he_deployment_id : option string; he_deployment_build_id : option string;
  he_deployment_release_fingerprint : option string; he_client_pack_fingerprint : option string;
  he_model_id : option string; he_temporal_task_queue : option string
}.
Definition health (app : ApiApp) : HealthResponse :=
  let release := app_deployment_release (ap_state (api_application app)) in
  mkHealth (app_environment (ap_state (api_application app))) (dr_deployment_id <$> release) (dr_build_id <$> release)
    (dr_release_fingerprint <$> release) (dr_client_pack_fingerprint <$> release) (dr_model_id <$> release)
    (dr_temporal_task_queue <$> release).

(** ** The worker *)

Definition resolve_worker_tenants (s : Settings) (cli_tenant_ids : list UUID) : result (list UUID) :=
  let tenant_ids := if nonempty cli_tenant_ids then cli_tenant_ids else st_deployment_tenant_ids s in
  _ ← raise_if (negb (nonempty tenant_ids)) ValueError "at least one deployment-authorized worker tenant ID is required";
  _ ← raise_if (negb (bool_decide (NoDup tenant_ids))) ValueError "deployment tenant assignments must be unique";
  Ok tenant_ids.

(** [except UnknownModelPrice as error: raise ValueError(str(error))] *)
Definition unpriced_as_value_error {A} (m : result A) : result A :=
  match m with
  | Raise e => if bool_decide (exn_cls e = UnknownModelPrice) then raise ValueError (exn_msg e) else Raise e
  | Ok a => Ok a
  end.

Definition _require_agent_model_configuration (s : Settings) : result unit :=
  model ← required (st_openai_model s)
            "TIRAMISU_OPENAI_MODEL is required when client-pack orchestration is enabled";
  _ ← required (st_openai_api_key s) "OPENAI_API_KEY is required when client-pack orchestration is enabled";
  unpriced_as_value_error (prices ← resolve_model_prices (st_model_price_overrides s); require_priced_model model prices).

Definition compose_worker_client_pack (s : Settings) (tenant_ids : option (list UUID)) : result (option ClientPack) :=
  deployment ← configured_pack s;
  match deployment with
  | Some p =>
      _ ← _require_agent_model_configuration s;
      _ ← compose_deployment_release tiramisu_version s p tenant_ids;
      Ok (Some p)
  | None => Ok None
  end.

(** One transaction per tenant; [session n] is the session the [n]-th of them opens. *)
Fixpoint _validate_tenant_assignments (session : nat → Session) (n : nat) (r : DeploymentRelease)
    (tenant_ids : list UUID) : result unit :=
  match tenant_ids with
  | [] => Ok tt
  | t :: tenant_ids =>
      _ ← within (session n) (require_tenant_deployment t (dr_deployment_id r));
      _validate_tenant_assignments session (S n) r tenant_ids
  end.

(** What the activities and the dispatcher of a worker are built with. *)
Record WorkerSetup := mkWorker {
  wk_authorized_tenant_ids : list UUID;
  wk_client_pack : ClientPack;
  wk_release : DeploymentRelease;
  wk_model : string;
  wk_model_prices : list (string * PriceEntry);
  wk_tenant_spend_caps : TenantSpendCaps;
  wk_platform_model_calls_paused : bool;
  wk_platform_outbound_messages_paused : bool
}.

(** [serve], up to the point where the worker runs; [client_pack] is [None] when the
    argument is left out. *)
Definition serve (session : nat → Session) (s : Settings) (tenant_ids : list UUID)
    (client_pack : option (option ClientPack)) : result WorkerSetup :=
  tenant_ids ← resolve_worker_tenants s tenant_ids;
  deployment ← match client_pack with
               | None => compose_worker_client_pack s (Some tenant_ids)
               | Some p => Ok p
               end;
  p ← required deployment "a configured client pack is required to run the Temporal worker";
  _ ← _require_agent_model_configuration s;
  release ← compose_deployment_release tiramisu_version s p (Some tenant_ids);
  _ ← _validate_tenant_assignments session 0 release tenant_ids;
  match st_openai_model s, st_openai_api_key s with
  | Some model, Some _ =>
      prices ← resolve_model_prices (st_model_price_overrides s);
      Ok (mkWorker tenant_ids p release model prices
            (mkCaps (st_max_model_tokens_per_tenant s) (st_max_model_cost_micros_per_tenant s))
            (st_platform_model_calls_paused s) (st_platform_outbound_messages_paused s))
  | _, _ => raise AssertionError ""
  end.

(** [run]: the command line's tenants; a refused configuration ends the program. *)
Definition run_worker (session : nat → Session) (s : Settings) (cli_tenant_ids : list UUID) : result WorkerSetup :=
  tenant_ids ← resolve_worker_tenants s cli_tenant_ids;
  client_pack ← compose_worker_client_pack s (Some tenant_ids);
  p ← required client_pack "a configured client pack is required to run the Temporal worker";
  serve session s tenant_ids (Some (Some p)).
End startup.
