(* ===== verification/StartupFacts.v ===== *)
(** * The API and the worker of a deployment agree

    Started from the same settings they run the same release of the same pack: every
    process the API starts carries pins the worker accepts, the worker's tenants are
    assigned to the release, and every model call of the worker has a price. *)

From stdpp Require Import base gmap list strings sets.
From Stdlib Require Import ZArith Lia.
From S2P Require Import Prelude Python PyTime Json Limits Contracts Definitions Communications Schema Session Budgets Ingestion Deployment Projects Packs PackFacts Authentication ApiEvents Startup.

#[local] Open Scope string_scope.
#[local] Open Scope list_scope.
#[local] Open Scope Z_scope.

(** ** The release *)

Lemma required_ok {A} (value : option A) message a : required value message = Ok a ↔ value = Some a.
Proof. destruct value; cbn; unfold raise; split; congruence. Qed.

Section release.
Context (version : string).

(** The tenants decide whether a release is composed, not which. *)
Lemma compose_release_ok s p tenant_ids r :
  compose_deployment_release version s p tenant_ids = Ok r →
  default (st_deployment_tenant_ids s) tenant_ids ≠ [] ∧
  ∃ id build model, st_deployment_id s = Some id ∧ st_deployment_build_id s = Some build
    ∧ st_openai_model s = Some model ∧ make_release version id build (cp_fingerprint p) model = Ok r.
Proof.
  unfold compose_deployment_release. intros (id & Hid%required_ok & H)%bind_ok.
  apply bind_ok in H as (build & Hb%required_ok & H). apply bind_ok in H as ([] & Ht%raise_if_ok & H).
  apply bind_ok in H as (model & Hm%required_ok & H). split; [|by exists id, build, model].
  intros E. by rewrite E in Ht.
Qed.
Lemma compose_same s p ts ts' r r' :
  compose_deployment_release version s p ts = Ok r → compose_deployment_release version s p ts' = Ok r' → r = r'.
Proof.
  intros (_ & i & b & m & E1 & E2 & E3 & E)%compose_release_ok.
  intros (_ & i' & b' & m' & F1 & F2 & F3 & F)%compose_release_ok. congruence.
Qed.

Lemma make_release_fingerprint id build fingerprint model r :
  make_release version id build fingerprint model = Ok r → dr_client_pack_fingerprint r = fingerprint.
Proof.
  unfold make_release. intros H. apply bind_ok in H as (i & _ & H).
  do 4 (apply bind_ok in H as ([] & _ & H)). by injection H as <-.
Qed.
Lemma compose_fingerprint s p ts r :
  compose_deployment_release version s p ts = Ok r → dr_client_pack_fingerprint r = cp_fingerprint p.
Proof. intros (_ & i & b & m & _ & _ & _ & H)%compose_release_ok. by apply make_release_fingerprint in H. Qed.
End release.

(** ** Prices *)

Lemma priced_estimates model usage prices :
  require_priced_model model prices = Ok tt → ∃ cost, estimate_cost_micros model usage prices = Ok cost.
Proof.
  unfold require_priced_model, estimate_cost_micros. destruct (is_blank model); [done|]. cbn.
  destruct (assoc model prices); [eauto|done].
Qed.

Lemma model_configuration_ok s :
  _require_agent_model_configuration s = Ok tt →
  ∃ model key prices, st_openai_model s = Some model ∧ st_openai_api_key s = Some key
    ∧ resolve_model_prices (st_model_price_overrides s) = Ok prices ∧ require_priced_model model prices = Ok tt.
Proof.
  unfold _require_agent_model_configuration. intros (model & Hm%required_ok & H)%bind_ok.
  apply bind_ok in H as (key & Hk%required_ok & H). unfold unpriced_as_value_error in H.
  destruct (prices ← _; _) as [[]|e] eqn:E; [|by destruct (bool_decide _)].
  apply bind_ok in E as (prices & Hp & E). by exists model, key, prices.
Qed.

(** ** Tenants *)

Lemma assigned_tenant t dep s a :
  within s (require_tenant_deployment t dep) = Ok a →
  ∃ row, row ∈ tenants (s_db s) ∧ tn_id row = t ∧ tn_deployment_id row = dep.
Proof.
  unfold within. intros ((u & s') & H & _)%bind_ok. unfold require_tenant_deployment in H.
  apply tx_bind_ok in H as ([] & s1 & ->%set_tenant_context_ok & H).
  apply tx_bind_ok in H as (row & s2 & [-> E]%scalar_ok & H). destruct row as [row|]; [|by apply lift_result_ok in H as [? _]].
  apply tx_raise_if_ok in H as [Hd%negb_false_iff%eqb_true _]. symmetry in E.
  apply hd_filter_Some in E as [Hin [_ Hid%eqb_true]%andb_true_iff]. by exists row.
Qed.

Lemma validated_tenants session n r ts :
  _validate_tenant_assignments session n r ts = Ok tt →
  Forall (λ t, ∃ k row, row ∈ tenants (s_db (session k)) ∧ tn_id row = t ∧ tn_deployment_id row = dr_deployment_id r) ts.
Proof.
  revert n. induction ts as [|t ts IH]; intros n; cbn; [by constructor|].
  intros (u & Ht%assigned_tenant & H)%bind_ok. constructor; [by exists n|by apply (IH (S n))].
Qed.

(** ** A worker that started *)

Section startup.
Context (import_module : string → option (string → option Attribute)) (dump_time : time → string) (version : string).

Record Started (s : Settings) (session : nat → Session) (w : WorkerSetup) : Prop := {
  sw_tenants : NoDup (wk_authorized_tenant_ids w) ∧ wk_authorized_tenant_ids w ≠ [];
  sw_release : compose_deployment_release version s (wk_client_pack w) (Some (wk_authorized_tenant_ids w)) = Ok (wk_release w);
  sw_assigned : Forall (λ t, ∃ k row, row ∈ tenants (s_db (session k)) ∧ tn_id row = t
    ∧ tn_deployment_id row = dr_deployment_id (wk_release w)) (wk_authorized_tenant_ids w);
  sw_priced : require_priced_model (wk_model w) (wk_model_prices w) = Ok tt
}.

Lemma serve_ok s session cli pack w :
  serve import_module version session s cli pack = Ok w →
  Started s session w
  ∧ match pack with
    | Some p => p = Some (wk_client_pack w)
    | None => configured_pack import_module s = Ok (Some (wk_client_pack w))
    end.
Proof.
  unfold serve. intros (ts & Hts & H)%bind_ok. apply bind_ok in H as (d & Hd & H).
  apply bind_ok in H as (p & Hp%required_ok & H). subst d. apply bind_ok in H as ([] & Hc%model_configuration_ok & H).
  apply bind_ok in H as (r & Hr & H). apply bind_ok in H as ([] & Hv%validated_tenants & H).
  destruct Hc as (model & key & prices & Em & Ek & Ep & Hprice). rewrite Em, Ek in H.
  apply bind_ok in H as (prices' & Ep' & [= <-]). rewrite Ep in Ep'. injection Ep' as <-.
  unfold resolve_worker_tenants in Hts. apply bind_ok in Hts as ([] & Hne%raise_if_ok & Hts).
  apply bind_ok in Hts as ([] & Hu%raise_if_ok & [= <-]). split.
  - constructor; cbn; [split|done|done|done].
    + by apply negb_false_iff, bool_decide_eq_true in Hu.
    + intros E. by rewrite E in Hne.
  - destruct pack as [pack|]; cbn; [congruence|]. unfold compose_worker_client_pack in Hd.
    apply bind_ok in Hd as (d & -> & Hd). destruct d as [d|]; [|done].
    apply bind_ok in Hd as ([] & _ & Hd). apply bind_ok in Hd as (r' & _ & [= ->]). done.
Qed.

(** [run] starts what [serve] starts from the settings alone. *)
Lemma run_worker_serves s session cli w :
  run_worker import_module version session s cli = Ok w → serve import_module version session s cli None = Ok w.
Proof.
  unfold run_worker. intros (ts & Hts & H)%bind_ok. apply bind_ok in H as (d & Hd & H).
  apply bind_ok in H as (p & Hp%required_ok & H). subst d. unfold serve in *. rewrite Hts. cbn [mbind result_bind].
  rewrite Hd. cbn [mbind result_bind]. assert (resolve_worker_tenants s ts = Ok ts) as E.
  { unfold resolve_worker_tenants in *. apply bind_ok in Hts as ([] & Hne%raise_if_ok & Hts).
    apply bind_ok in Hts as ([] & Hu%raise_if_ok & [= <-]).
    set (ts := if nonempty cli then cli else st_deployment_tenant_ids s) in *.
    assert (nonempty ts = true) as -> by (by apply negb_false_iff in Hne).
    rewrite Hne, Hu. reflexivity. }
  rewrite E in H. exact H.
Qed.

Lemma create_app_ok s app :
  create_app import_module dump_time version s no_arguments = Ok app →
  ∃ pack, configured_pack import_module s = Ok pack ∧ api_client_pack app = pack
    ∧ app_deployment_tenant_ids (ap_state (api_application app)) = st_deployment_tenant_ids s
    ∧ match pack with
      | Some p => ∃ r rules, compose_deployment_release version s p None = Ok r ∧ trigger_rules dump_time p r = Ok rules
          ∧ app_deployment_release (ap_state (api_application app)) = Some r
          ∧ ap_trigger_rules (api_application app) = rules
          ∧ ap_process_registry (api_application app) = Some (cp_registry p)
      | None => True
      end.
Proof.
  unfold create_app. intros (pack & Hp & H)%bind_ok. exists pack. split; [exact Hp|].
  apply bind_ok in H as ([[release rules] registry] & H & [= <-]). cbn. split; [done|]. split; [done|].
  destruct pack as [p|]; [|done]. apply bind_ok in H as (r & Hr & H). apply bind_ok in H as (rs & Hrs & [= <- <- <-]).
  by exists r, rs.
Qed.
End startup.

(** C38: The API and the worker agree.  Let both be started from the same settings, the
    worker for any tenants, with the pack the settings name.  Then the worker runs that
    pack under the very release the API shows; the API has a rule for exactly the trigger
    events of the published definitions, and every process it starts has a definition in
    the worker's registry and passes the checks every activity makes of its pins; every
    tenant of the worker was found assigned to the release; and whatever a model call
    uses, the worker can charge it. *)
Theorem worker_runs_what_the_api_starts import_module dump_datetime dump_time version specifier known_zone
    m definitions bindings output policy_ids project simulations p s app session cli w :
  make_client_pack dump_datetime dump_time version specifier m definitions bindings output policy_ids project simulations
    = Ok p →
  Forall (λ d, definition_validate known_zone d = Ok tt) definitions →
  configured_pack import_module s = Ok (Some p) →
  create_app import_module dump_time version s no_arguments = Ok app →
  serve import_module version session s cli None = Ok w →
  let rules := ap_trigger_rules (api_application app) in
  wk_client_pack w = p
  ∧ app_deployment_release (ap_state (api_application app)) = Some (wk_release w)
  ∧ ap_process_registry (api_application app) = Some (cp_registry (wk_client_pack w))
  ∧ (∀ e, is_Some (rules !! e) ↔ e ∈ published_events definitions)
  ∧ (∀ e b, rules !! e = Some b → ∃ d,
       get_definition (cp_registry (wk_client_pack w)) (bt_process_type b) (bt_definition_version b) = Ok d
       ∧ ∀ id tenant now, let row := new_process id tenant b now in
           require_process_pins (cp_compatibility (wk_client_pack w)) row = Ok tt
           ∧ require_release_pins (wk_release w) row = Ok tt)
  ∧ (∀ t, t ∈ wk_authorized_tenant_ids w → ∃ k row, row ∈ tenants (s_db (session k)) ∧ tn_id row = t
       ∧ tn_deployment_id row = dr_deployment_id (wk_release w))
  ∧ ∀ usage, ∃ cost, estimate_cost_micros (wk_model w) usage (wk_model_prices w) = Ok cost.
Proof.
  intros Hpack Hv Hconf (pack & Hp & _ & _ & Happ)%create_app_ok [Hw Hwp]%serve_ok rules.
  rewrite Hconf in Hp, Hwp. injection Hp as <-. injection Hwp as Ewp. rewrite <- Ewp.
  destruct Happ as (r & rs & Hr & Hrs & Erel & Erules & Ereg).
  destruct Hw as [_ Hrel Hassigned Hpriced]. rewrite <- Ewp in Hrel.
  assert (r = wk_release w) as -> by exact (compose_same _ _ _ _ _ _ _ Hr Hrel).
  destruct (pack_runs_what_it_starts dump_datetime dump_time version specifier known_zone m definitions bindings
    output policy_ids project simulations p (wk_release w) Hpack Hv (compose_fingerprint _ _ _ _ _ Hrel))
    as (rs' & Hrs' & Hevents & Hstarts).
  rewrite Hrs in Hrs'. injection Hrs' as <-. unfold rules. rewrite Erules. split_and!; try done.
  - intros e b He. destruct (Hstarts e b He) as (d & _ & Hd & Hpins). by exists d.
  - intros t Ht. rewrite Forall_forall in Hassigned. by apply Hassigned.
  - intros usage. by apply priced_estimates.
Qed.

(** ** A started deployment *)

Definition ex_raw_settings : Settings := mkSettings PRODUCTION " info" "postgresql+asyncpg://db/t" "postgresql+asyncpg://db/t"
  "temporal:7233" "default" (Some " Acme ") (Some "b1") [uuid 10] (Some "gpt-4o ") (Some "sk") [] 100 100 false false
  "0.0.0.0" 8000 false false (Some "acme.pack:load ").
Definition ex_settings_of (raw : Settings) : Settings := match make_settings raw with Ok s => s | Raise _ => raw end.
Definition ex_settings : Settings := Eval vm_compute in ex_settings_of ex_raw_settings.
Example ex_settings_made : make_settings ex_raw_settings = Ok ex_settings.
Proof. vm_compute. reflexivity. Qed.
Example ex_unsafe_settings : is_ok (make_settings (mkSettings STAGING "INFO" "postgresql+asyncpg://db/t"
  "postgresql+asyncpg://db/t" "temporal:7233" "default" None None [] None None [] 0 0 false false "0.0.0.0" 8000 true false
  None)) = false.
Proof. vm_compute. reflexivity. Qed.

Definition ex_import (returned : result ClientPack) (module_name : string) : option (string → option Attribute) :=
  if bool_decide (module_name = "acme.pack") then
    Some (λ attribute, if bool_decide (attribute = "load") then Some (Factory (p ← returned; Ok (Some p))) else None)
  else None.
Definition ex_tenant_session (n : nat) : Session :=
  mkSession (empty_db <| tenants := [mkTenant (uuid 10) "acme" "Acme" TS_ACTIVE "acme"] |>) None 0 (λ _, 0) 0
    (uuid ∘ N.of_nat) 0.
Definition ex_api (returned : result ClientPack) : result ApiApp :=
  create_app (ex_import returned) ex_dump_time "0.1.0" ex_settings no_arguments.
Definition ex_worker (returned : result ClientPack) : result WorkerSetup :=
  serve (ex_import returned) "0.1.0" ex_tenant_session ex_settings [] None.

Lemma worker_runs_what_the_api_starts_witness :
  match ex_built_pack, ex_api ex_built_pack, ex_worker ex_built_pack with
  | Ok p, Ok app, Ok w =>
      app_deployment_release (ap_state (api_application app)) = Some (wk_release w)
      ∧ is_Some (ap_trigger_rules (api_application app) !! "booking.created")
  | _, _, _ => False
  end.
Proof.
  destruct ex_built_pack as [p|e] eqn:E.
  2:{ assert (is_ok ex_built_pack = true) as H by (vm_compute; reflexivity). rewrite E in H. discriminate H. }
  destruct (ex_api (Ok p)) as [app|e] eqn:Ea.
  2:{ assert (is_ok (ex_api ex_built_pack) = true) as H by (vm_compute; reflexivity). rewrite E, Ea in H. discriminate H. }
  destruct (ex_worker (Ok p)) as [w|e] eqn:Ew.
  2:{ assert (is_ok (ex_worker ex_built_pack) = true) as H by (vm_compute; reflexivity). rewrite E, Ew in H. discriminate H. }
  destruct (worker_runs_what_the_api_starts (ex_import (Ok p)) isoformat ex_dump_time "0.1.0" ex_supports ex_known_zone
    ex_pack_manifest [ex_process_definition]
    [("send_message", ex_smtp_binding); ("refund", ex_smtp_binding)]
    (mkOutputType "booking.Decision" (JObj []) true) [] None [] p ex_settings app ex_tenant_session [] w)
    as (_ & Hr & _ & Hall & _).
  - exact E.
  - apply Forall_singleton. vm_compute. reflexivity.
  - reflexivity.
  - exact Ea.
  - exact Ew.
  - split; [exact Hr|]. apply Hall. vm_compute. by left.
Defined.
