(* ===== verification/RunnerFacts.v ===== *)
(** * What the runner promises a turn

    [QuotesTurn] is the interface between an output type and the turn it answers: a
    decision lists the turn's lineage, in the turn's order.  The default output type and
    the generated ones keep it.  Through any output type that does, the three readings of
    a decision - the turn's, the gateway's and the state service's - agree. *)

From stdpp Require Import base gmap list strings.
From Stdlib Require Import ZArith Lia.
From S2P Require Import Prelude Python Identifiers PyTime Json Limits Contracts DecisionPolicy Transitions Definitions Schema Session State Budgets CommunicationSafety Control Deployment Gateway Context AgentTurn AgentTurnFacts Execution ExecutionFacts ExecutionSafety Activities ActivityFacts.
From S2P Require Projects Outputs.
From S2P Require Import OpenAIRunner.

#[local] Open Scope string_scope.
#[local] Open Scope list_scope.
#[local] Open Scope Z_scope.

(** ** Output types that quote the turn *)

Definition quotes (i : AgentTurnInput) (d : AgentDecision) : Prop :=
  ad_based_on_event_ids d = ce_event_id <$> ti_events i
  ∧ ad_based_on_review_command_ids d = rc_command_id <$> ti_reviews i
  ∧ ad_based_on_action_attempt_ids d = xc_attempt_id <$> ti_action_results i
  ∧ ad_based_on_timer_ids d = ti_timer_ids i.

Class QuotesTurn {Output : Type} (to_decision : Output → AgentTurnInput → result AgentDecision) : Prop :=
  quotes_turn : ∀ o i d, to_decision o i = Ok d → quotes i d.

#[export] Instance default_output_quotes loads decision_id action_ids :
  QuotesTurn (to_agent_decision loads decision_id action_ids).
Proof.
  intros o i d H. unfold to_agent_decision in H. apply bind_ok in H as (actions & _ & H).
  apply bind_ok in H as ([] & _ & [= <-]). by repeat split.
Qed.

(** A generated type, for a process without a transformer of its decisions. *)
#[export] Instance generated_output_quotes t decision_id action_ids :
  Outputs.gt_transformers t = [] →
  QuotesTurn (λ o i, Outputs.to_agent_decision t o i decision_id action_ids).
Proof.
  intros Ht o i d H. unfold Outputs.to_agent_decision in H. apply bind_ok in H as (actions & _ & H).
  apply bind_ok in H as (memory & _ & H). apply bind_ok in H as ([] & _ & H). rewrite Ht in H. cbn in H.
  injection H as <-. by repeat split.
Qed.

(** ** One call *)

Lemma make_runner_ok model turns tracing bytes r :
  make_runner model turns tracing bytes = Ok r →
  rn_max_turns r = 1 ∧ is_blank (rn_model r) = false
  ∧ rn_max_prompt_bytes r <= max_rendered_prompt_bytes DEFAULT_PLATFORM_SAFETY_LIMITS.
Proof.
  unfold make_runner. intros ([] & Hm%raise_if_ok & H)%bind_ok. apply bind_ok in H as ([] & Ht%raise_if_ok & H).
  apply bind_ok in H as ([] & _ & H). apply bind_ok in H as ([] & Hb%raise_if_ok & [= <-]). cbn.
  apply negb_false_iff, Z.eqb_eq in Ht. apply Z.ltb_ge in Hb. done.
Qed.

Section run.
Context (dump_datetime : datetime → string) {Raw Output : Type}.
Context (model_validate : Raw → result Output) (to_decision : Output → AgentTurnInput → result AgentDecision).
Context `{!QuotesTurn to_decision}.

(** The bytes the model is sent. *)
Definition rendered (r : OpenAIAgentsTurnRunner) (i : AgentTurnInput) (k : option ProposalCorrection) : string :=
  let q := sdk_request dump_datetime r i k in sq_instructions q +:+ newline +:+ sq_prompt q.

Lemma bounded_request_cases r i k :
  (Z.of_nat (utf8_len (rendered r i k)) <= rn_max_prompt_bytes r
   ∧ bounded_request dump_datetime r i k = Ok (sdk_request dump_datetime r i k))
  ∨ (rn_max_prompt_bytes r < Z.of_nat (utf8_len (rendered r i k))
     ∧ ∃ message, bounded_request dump_datetime r i k = raise AgentContextLimitExceeded message).
Proof.
  unfold bounded_request. fold (rendered r i k). unfold require_utf8_bytes. cbv zeta.
  fold (rendered r i k). destruct (Z.ltb_spec (rn_max_prompt_bytes r) (Z.of_nat (utf8_len (rendered r i k)))) as [H|H].
  - right. split; [done|]. unfold safety_limit_exceeded. eexists. cbn. reflexivity.
  - by left.
Qed.
End run.

Section answers.
Context (dump_datetime : datetime → string) {Raw Output : Type}.
Context (model_validate : Raw → result Output) (to_decision : Output → AgentTurnInput → result AgentDecision).
Context `{!QuotesTurn to_decision}.

Lemma run_turn_ok executor r i k o :
  run_turn dump_datetime executor model_validate to_decision r i k = Ok o →
  ∃ raw output, executor (sdk_request dump_datetime r i k) = Ok (raw, mto_usage o)
    ∧ model_validate raw = Ok output ∧ to_decision output i = Ok (mto_decision o)
    ∧ mto_model o = rn_model r ∧ usage_post_init (mto_usage o) = Ok tt
    ∧ Z.of_nat (utf8_len (rendered dump_datetime r i k)) <= rn_max_prompt_bytes r.
Proof.
  unfold run_turn. intros (q & Hq & H)%bind_ok. apply bind_ok in H as ([raw usage] & He & H).
  apply bind_ok in H as (output & Hv & H). apply bind_ok in H as ([] & Hu & H).
  apply bind_ok in H as (d & Hd & H). apply bind_ok in H as ([] & _ & [= <-]). cbn.
  destruct (bounded_request_cases dump_datetime r i k) as [[Hb E]|[_ [message E]]]; rewrite E in Hq; [|done].
  injection Hq as <-. by exists raw, output.
Qed.

(** Every answer a runner gives quotes its turn, is charged as the SDK reported it for the
    runner's model, and was asked for without tools or handoffs within the platform's bound;
    a turn that renders larger is refused before the SDK is asked. *)
Theorem answers_are_bounded_and_quoted executor model turns tracing bytes r i k :
  make_runner model turns tracing bytes = Ok r →
  (∀ o, run_turn dump_datetime executor model_validate to_decision r i k = Ok o →
     let q := sdk_request dump_datetime r i k in
     quotes i (mto_decision o) ∧ mto_model o = rn_model r
     ∧ (∃ raw, executor q = Ok (raw, mto_usage o))
     ∧ sq_tools q = [] ∧ sq_handoffs q = [] ∧ sq_max_turns q = 1
     ∧ Z.of_nat (utf8_len (rendered dump_datetime r i k)) <= max_rendered_prompt_bytes DEFAULT_PLATFORM_SAFETY_LIMITS)
  ∧ (rn_max_prompt_bytes r < Z.of_nat (utf8_len (rendered dump_datetime r i k)) → ∃ message, ∀ executor',
       run_turn dump_datetime executor' model_validate to_decision r i k = raise AgentContextLimitExceeded message).
Proof.
  intros (Ht & _ & Hmax)%make_runner_ok. split.
  - intros o (raw & output & He & _ & Hd & Hm & _ & Hb)%run_turn_ok q. split_and!; try done.
    + by apply (quotes_turn output).
    + by exists raw.
    + lia.
  - intros Hlarge. destruct (bounded_request_cases dump_datetime r i k) as [[Hb _]|[_ [message E]]]; [lia|].
    exists message. intros executor'. unfold run_turn. by rewrite E.
Qed.

End answers.

(** ** An answered turn *)

Definition ex_runner : OpenAIAgentsTurnRunner := mkRunner "gpt-4o" 1 true 524288.
Example ex_runner_made : make_runner "gpt-4o" 1 true 524288 = Ok ex_runner.
Proof. reflexivity. Qed.
Definition ex_output : AgentDecisionOutput := mkDecisionOutput DS_COMPLETED [] [] empty_memory.
Definition ex_executor (q : SdkRequest) : result (AgentDecisionOutput * ModelUsage) := Ok (ex_output, mkUsage 900 40).
Definition ex_output_validate (o : AgentDecisionOutput) : result AgentDecisionOutput :=
  _ ← decision_output_validate o; Ok o.
Definition ex_loads (_ : string) : result json := Ok (JObj []).
Definition ex_run_turn : result ModelTurnOutcome :=
  run_turn isoformat ex_executor ex_output_validate (to_agent_decision ex_loads (uuid 5) (λ n, uuid (900 + N.of_nat n)))
    ex_runner (tn_input ex_turn_state) None.
Definition ex_answer : ModelTurnOutcome := mkTurnOutcome ex_state_decision (mkUsage 900 40) "gpt-4o".
Lemma ex_run_turn_eq : ex_run_turn = Ok ex_answer.
Proof. vm_compute. reflexivity. Qed.

(** A bound below the rendered turn: the SDK is not asked. *)
Example ex_small_bound :
  match run_turn isoformat (λ _, Ok (ex_output, mkUsage 1 1)) ex_output_validate
          (to_agent_decision ex_loads (uuid 5) (λ n, uuid (900 + N.of_nat n)))
          (mkRunner "gpt-4o" 1 true 100) (tn_input ex_turn_state) None with
  | Raise e => exn_cls e = AgentContextLimitExceeded
  | Ok _ => False
  end.
Proof. vm_compute. reflexivity. Qed.

Definition ex_state_session_of (d : Db) : Session :=
  mkSession d (Some (uuid 10)) (days 83) (λ _, days 83) 0 (λ n, uuid (700 + N.of_nat n)) 0.
