(* ===== verification/Fictional.v ===== *)
(** * [builtin/fictional.py], [builtin/fictional_agent_output.py]: the bundled project

    The fictional booking business, written with the constructors of [Projects]: its facts,
    capabilities over the simulated providers, its journey with a scenario, and the
    deterministic transition from a confirmed booking to a payment request.

    pydantic is an interface, [Pydantic]: the JSON schemas it generates, and how it reads a
    value as a string, an integer, a list or one of the values of a [Literal].  The texts of
    its errors are not modelled. *)

From stdpp Require Import base gmap list strings.
From Stdlib Require Import ZArith Lia.
From S2P Require Import Prelude Python Identifiers PyTime Json Limits Contracts DecisionPolicy Definitions Schema Session Context Projects Packs Outputs Compiler Adapters.

#[local] Open Scope Z_scope.
#[local] Open Scope string_scope.

(** ** pydantic *)

(** The types of facts the project declares. *)
Inductive FactType := T_STR | T_INT | T_STR_LIST | T_LITERAL (choices : list string).

(** The fields of parameter models: [str] and [int] with bounds, and [Literal]. *)
Inductive FieldType :=
  | F_STR (min_length max_length : nat)
  | F_INT (ge le : Z)
  | F_LITERAL (value : json).

(** A parameter model class: [extra="forbid"], required fields, and whether the validator
    [require_nonblank_strings] is inherited. *)
Record ParametersClass := mkParametersClass {
  pc_name : string;
  pc_fields : list (string * FieldType);
  pc_nonblank : bool
}.

Class Pydantic := {
  type_schema : FactType → list (string * json);
  class_schema : ParametersClass → list (string * json);
  as_str : pydata → option string;
  as_int : pydata → option Z;
  as_items : pydata → option (list pydata);
  is_literal : json → pydata → bool
}.

(** Values of the types themselves are read as they are, a literal's value matches it, and
    a class that forbids extra fields says so in its schema. *)
Class PydanticLaws `{Pydantic} := {
  as_str_id s : as_str (PStr s) = Some s;
  as_int_id n : as_int (PInt n) = Some n;
  is_literal_str s t : is_literal (JStr s) (PStr t) = bool_decide (s = t);
  is_literal_int n k : is_literal (JInt n) (PInt k) = (n =? k)%Z;
  class_schema_forbids c : assoc "additionalProperties" (class_schema c) = Some (JBool false)
}.

Section pydantic.
Context `{Pydantic}.

Definition validate_type (t : FactType) (v : pydata) : option json :=
  match t with
  | T_STR => JStr <$> as_str v
  | T_INT => JInt <$> as_int v
  | T_STR_LIST => xs ← as_items v; ys ← mapM as_str xs; Some (JArr (JStr <$> ys))
  | T_LITERAL choices => JStr <$> List.find (λ c, is_literal (JStr c) v) choices
  end.

(** [TypeAdapter(value_type)] *)
Definition type_adapter (t : FactType) : ValueType :=
  mkValueType (type_schema t)
    (λ v, match validate_type t v with Some e => Ok e | None => raise ValueError "value_type" end).

Definition validate_field (t : FieldType) (v : pydata) : option json :=
  match t with
  | F_STR lo hi => s ← as_str v; if length_within lo hi s then Some (JStr s) else None
  | F_INT ge le => n ← as_int v; if ((ge <=? n) && (n <=? le))%Z then Some (JInt n) else None
  | F_LITERAL value => if is_literal value v then Some value else None
  end.

(** [require_nonblank_strings] *)
Definition blank_string (v : json) : bool := match v with JStr s => is_blank s | _ => false end.

(** [model_validate(items)] and what the model dumps to. *)
Definition model_values (c : ParametersClass) (items : list (string * pydata)) : result (list (string * json)) :=
  _ ← raise_if (existsb (λ kv, negb (bool_decide (fst kv ∈ fst <$> pc_fields c))) items) ValueError "extra_forbidden";
  mapM (λ '(name, t),
    match assoc name items with
    | None => raise ValueError (name +:+ ": missing")
    | Some v =>
        match validate_field t v with
        | None => raise ValueError name
        | Some value =>
            _ ← raise_if (pc_nonblank c && blank_string value) ValueError "string parameters must be nonblank";
            Ok (name, value)
        end
    end) (pc_fields c).

Definition parameters_model (c : ParametersClass) : ParametersModel :=
  mkParametersModel (class_schema c) (λ items, _ ← model_values c items; Ok tt).
End pydantic.

(** ** [builtin/fictional_agent_output.py] *)

Definition FICTIONAL_DEFAULT_PAYMENT_AMOUNT_MINOR : Z := 12500.
Definition FICTIONAL_DEFAULT_PAYMENT_CURRENCY : string := "NZD".

Definition SendMessageParameters : ParametersClass :=
  mkParametersClass "SendMessageParameters" [("recipient", F_STR 1 320); ("body", F_STR 1 10000)] true.
Definition FindAvailableSlotsParameters : ParametersClass :=
  mkParametersClass "FindAvailableSlotsParameters" [("days", F_INT 1 365)] false.
Definition ProposeBookingParameters : ParametersClass :=
  mkParametersClass "ProposeBookingParameters" [("customer_id", F_STR 1 255); ("slot", F_STR 1 255)] true.
Definition RequestPaymentParameters : ParametersClass :=
  mkParametersClass "RequestPaymentParameters"
    [("booking_reference", F_STR 1 255); ("amount_minor", F_LITERAL (JInt 12500)); ("currency", F_LITERAL (JStr "NZD"))]
    true.
Definition CreateCalendarEventParameters : ParametersClass :=
  mkParametersClass "CreateCalendarEventParameters"
    [("booking_reference", F_STR 1 255); ("starts_at", F_STR 1 255); ("title", F_STR 1 500)] true.

(** [isinstance(value, str) and value.strip()] *)
Definition nonblank_str (v : option json) : option string :=
  s ← str_of v; if is_blank s then None else Some s.

(** The reference one action result gives, if it confirms a booking. *)
Definition confirmed_reference (x : ActionResultContext) : option string :=
  if bool_decide (xc_action_type x = "propose_booking") && bool_decide (xc_status x = AT_SUCCEEDED)
     && bool_decide (str_of (fact_of (xc_facts x) "booking.status") = Some "confirmed") then
    match nonblank_str (fact_of (xc_facts x) "booking.reference") with
    | Some reference => Some reference
    | None => items ← xc_result x; nonblank_str (assoc "booking_reference" items)
    end
  else None.

(** [_confirmed_booking_reference]: the last result that gives one. *)
Definition _confirmed_booking_reference (i : AgentTurnInput) : option string :=
  head (omap confirmed_reference (rev (ti_action_results i))).

Definition is_payment (a : ActionProposal) : bool := bool_decide (ap_action_type a = "request_payment").

(** The payment request, its identifier drawn where it is built. *)
Definition payment_proposal (action_request_id : UUID) (reference : string) : ActionProposal :=
  mkProposal action_request_id "request-payment-after-booking" "request_payment"
    [("booking_reference", JStr reference); ("amount_minor", JInt FICTIONAL_DEFAULT_PAYMENT_AMOUNT_MINOR);
     ("currency", JStr FICTIONAL_DEFAULT_PAYMENT_CURRENCY)]
    "The fictional booking is confirmed; request the configured demo payment next.".

(** [decision.model_copy(update=...)] *)
Definition with_payment (d : AgentDecision) (payment : ActionProposal) : AgentDecision :=
  mkDecision (ad_decision_id d) (ad_based_on_event_ids d) (ad_based_on_review_command_ids d)
    (ad_based_on_action_attempt_ids d) (ad_based_on_timer_ids d)
    (if bool_decide (ad_status d = DS_COMPLETED) then DS_ACTIVE else ad_status d)
    (ad_actions d ++ [payment])%list (ad_wake_conditions d) (ad_memory_update d).

Definition apply_fictional_transitions (action_request_id : UUID) (d : AgentDecision) (i : AgentTurnInput)
  : AgentDecision :=
  match _confirmed_booking_reference i with
  | None => d
  | Some reference =>
      if existsb is_payment (ad_actions d) then d
      else with_payment d (payment_proposal action_request_id reference)
  end.

(** ** [builtin/fictional.py] *)

Definition FICTIONAL_SCENARIO_STARTED_AT : datetime := utc (1767225600 * sec + hours 9)%Z.

(** The adapters of [stub_business_bindings] as the project sees them. *)
Definition stub_adapter (p : StubProvider) : AdapterObject :=
  mkAdapterObject (Some (provider_id p)) (Some true) true true true.

(** The state behind the simulation adapters. *)
Definition simulation_state (state : option StubBusinessState) : result StubBusinessState :=
  match state with
  | Some s => Ok s
  | None => make_business FICTIONAL_SCENARIO_STARTED_AT []
  end.

Section project.
Context `{Pydantic}.

Definition make_fact (key title description : string) (t : FactType) (kinds : list FactKind) (editable : bool) : Fact :=
  mkProjectFact key title description (type_adapter t) kinds editable.
Definition trusted_fact (key title description : string) (t : FactType) : Fact :=
  make_fact key title description t [Contracts.AUTHORITATIVE] false.
Definition editable_fact (key title description : string) (choices : list string) : Fact :=
  make_fact key title description (T_LITERAL choices) [Contracts.AUTHORITATIVE] true.

Definition CUSTOMER_EMAIL : Fact := trusted_fact "customer.email" "Customer email"
  "The verified email address attached to the enquiry." T_STR.
Definition CUSTOMER_LAST_MESSAGE : Fact := make_fact "customer.last_message" "Latest customer message"
  "The customer's most recent inbound message, retained as a claim." T_STR [CUSTOMER_CLAIM] false.
Definition OUTBOUND_MESSAGE_REFERENCE : Fact := trusted_fact "messaging.last_outbound_reference"
  "Latest outbound message" "The provider reference for the most recently sent message." T_STR.
Definition AVAILABLE_SLOTS : Fact := trusted_fact "booking.available_slots" "Available booking slots"
  "Appointment slots reported available by the booking provider." T_STR_LIST.
Definition BOOKING_REFERENCE : Fact := trusted_fact "booking.reference" "Booking reference"
  "The booking provider's durable reference." T_STR.
Definition BOOKING_STATUS : Fact := editable_fact "booking.status" "Booking status"
  "The booking status reported by the booking provider." ["confirmed"; "cancelled"].
Definition BOOKING_SLOT : Fact := trusted_fact "booking.slot" "Confirmed booking slot"
  "The exact start time confirmed by the booking provider." T_STR.
Definition PAYMENT_REFERENCE : Fact := trusted_fact "payment.reference" "Payment reference"
  "The payment provider's durable reference." T_STR.
Definition PAYMENT_STATUS : Fact := editable_fact "payment.status" "Payment status"
  "The payment state reported by the authoritative payment integration." ["pending"; "completed"; "failed"].
Definition PAYMENT_AMOUNT_MINOR : Fact := trusted_fact "payment.amount_minor" "Payment amount"
  "The requested amount in the currency's minor unit." T_INT.
Definition PAYMENT_CURRENCY : Fact := trusted_fact "payment.currency" "Payment currency"
  "The ISO currency code for the payment." (T_LITERAL ["NZD"]).
Definition CALENDAR_REFERENCE : Fact := trusted_fact "calendar.reference" "Calendar event reference"
  "The calendar provider's durable event reference." T_STR.
Definition CALENDAR_STATUS : Fact := editable_fact "calendar.status" "Calendar status"
  "Whether the confirmed booking has been added to the calendar." ["created"].

Definition fictional_facts : list Fact :=
  [CUSTOMER_EMAIL; CUSTOMER_LAST_MESSAGE; OUTBOUND_MESSAGE_REFERENCE; AVAILABLE_SLOTS; BOOKING_REFERENCE;
   BOOKING_STATUS; BOOKING_SLOT; PAYMENT_REFERENCE; PAYMENT_STATUS; PAYMENT_AMOUNT_MINOR; PAYMENT_CURRENCY;
   CALENDAR_REFERENCE; CALENDAR_STATUS].

(** ** Capabilities *)

Definition fictional_capability (action_type title description : string) (c : ParametersClass) (p : StubProvider)
    (guidance : string) (permission : PermissionOutcome) (produces : list Fact) : Capability :=
  mkCapability action_type title description (Some (parameters_model c)) (stub_adapter p) guidance permission produces
    (Some (stub_adapter p)).

Definition fictional_capabilities : list Capability := [
  fictional_capability "send_message" "Send a customer message"
    "Send a plain-text message through the configured messaging provider." SendMessageParameters MESSAGING
    ("Use the exact keys recipient and body. Both values must be nonblank, and body "
     +:+ "must be customer-ready plain text.")
    REQUIRE_APPROVAL [OUTBOUND_MESSAGE_REFERENCE];
  fictional_capability "find_available_slots" "Find available slots"
    "Ask the booking provider for open appointment times." FindAvailableSlotsParameters BOOKING
    "Use a positive integer days parameter describing the search horizon." ALLOW [AVAILABLE_SLOTS];
  fictional_capability "propose_booking" "Confirm a booking"
    "Book an authoritative available slot for the customer." ProposeBookingParameters BOOKING
    ("Use nonblank customer_id and slot values. slot must be present in the current "
     +:+ "authoritative booking.available_slots fact. This fictional provider confirms an "
     +:+ "approved proposal immediately.")
    REQUIRE_APPROVAL [BOOKING_REFERENCE; BOOKING_STATUS; BOOKING_SLOT];
  fictional_capability "request_payment" "Request payment"
    "Create a payment request for a confirmed booking." RequestPaymentParameters PAYMENT
    ("Use the confirmed booking_reference and the configured demo amount of 12500 " +:+ "minor units in NZD.")
    REQUIRE_APPROVAL [PAYMENT_REFERENCE; PAYMENT_STATUS; PAYMENT_AMOUNT_MINOR; PAYMENT_CURRENCY];
  fictional_capability "create_calendar_event" "Create a calendar event"
    "Add a paid, confirmed booking to the configured calendar." CreateCalendarEventParameters CALENDAR
    ("Use the confirmed booking_reference and booking.slot plus a nonblank "
     +:+ "customer-facing title. Propose this only after payment.status is completed.")
    ALLOW [CALENDAR_REFERENCE; CALENDAR_STATUS]].

(** ** The journey and its routes *)

(** The identifier drawn for the payment the transformer adds to a decision. *)
Context (drawn_payment : AgentDecision → AgentTurnInput → UUID).

Definition fictional_goals : list string :=
  ["Establish what the customer needs"; "Offer a valid booking within configured business rules";
   "Obtain exact approval where policy requires it";
   "Confirm payment and calendar state through authoritative providers"].

Definition fictional_guidance : list string :=
  ["When a customer claim states a date and time that exactly matches an authoritative "
   +:+ "booking.available_slots value, treat it as the customer's slot selection.";
   "customer.email is the customer_id for propose_booking. A stated 60-minute "
   +:+ "appointment is sufficient service detail for this fictional provider.";
   "Once an exact selected slot is available, propose_booking for that exact slot.";
   "An operator request_revision instruction is binding for the next proposal.";
   "Human approval comes from a capability's permission; never emit a standalone human " +:+ "wake condition.";
   "Every waiting decision must include an allowed event or timer wake condition.";
   "After offering availability, wait for customer.email_received; after requesting "
   +:+ "payment, wait for payment.completed or payment.failed.";
   "Once propose_booking returns booking.status confirmed, request payment immediately.";
   "A conflict action result is definitive. Do not repeat the rejected action unchanged.";
   "Whenever you propose one or more actions, return status active, never completed. "
   +:+ "Return completed only on a later turn after every configured authoritative "
   +:+ "completion fact is satisfied."].

Definition fictional_journey : result Journey :=
  booked ← fact_equals BOOKING_STATUS (PStr "confirmed");
  paid ← fact_equals PAYMENT_STATUS (PStr "completed");
  scheduled ← fact_equals CALENDAR_STATUS (PStr "created");
  let communications := mkProjectCommunications ["send_message"] ["customer.email_received"]
    ["customer.email_opted_out"] ["customer.email_auto_replied"] None in
  _ ← communications_post_init communications;
  let j := mkJourney "enquiry_to_booking" "2" "Enquiry to completed booking"
    "Follow one customer enquiry through clarification, booking, payment, and calendar."
    fictional_goals (ca_action_type <$> fictional_capabilities) [booked; paid; scheduled] PUBLISHED [] []
    fictional_guidance [PS_COMPLETED; PS_CANCELLED] default_process_limits
    [RC_APPROVE; RC_REJECT; RC_REQUEST_REVISION; RC_COMMENT] communications
    (Some (λ d i, Ok (apply_fictional_transitions (drawn_payment d i) d i))) in
  _ ← journey_post_init j;
  Ok j.

Definition fictional_routes (journey : string) : list Route := [
  mkRoute START "enquiry.created" journey "Website enquiry received"
    "Start one journey for a newly received customer enquiry." [CUSTOMER_EMAIL];
  mkRoute WAKE "customer.email_received" journey "Customer replied"
    "Wake when the customer replies to an outbound message." [CUSTOMER_LAST_MESSAGE];
  mkRoute WAKE "customer.email_opted_out" journey "Customer opted out"
    "Permanently suppress outbound contact for this journey." [];
  mkRoute WAKE "customer.email_auto_replied" journey "Automated response received"
    "Suppress outbound contact until a later human reply breaks the loop." [];
  mkRoute WAKE "payment.completed" journey "Payment completed"
    "Wake on authoritative confirmation from the payment provider."
    [PAYMENT_REFERENCE; PAYMENT_STATUS; PAYMENT_AMOUNT_MINOR; PAYMENT_CURRENCY];
  mkRoute WAKE "payment.failed" journey "Payment failed"
    "Wake when the payment provider reports a definitive failure." [PAYMENT_REFERENCE; PAYMENT_STATUS]].

(** ** The scenario *)

(** [ScenarioValue.fact(fact, *path)] *)
Definition scenario_value (f : Fact) (path : list (string + Z)) : pydata := PFact (mkScenarioValue (pf_key f) path).
(** [ScenarioStep.event] with the source that is the default. *)
Definition happens (event_type description : string) (facts : list (result ScenarioFact))
    (payload : list (string * pydata)) : result ScenarioStep :=
  facts ← mapM id facts;
  step_event event_type description facts payload "scenario" [].
Definition acts (action_type description : string) (parameters : list (string * pydata)) (approve : bool)
  : result ScenarioStep :=
  step_action action_type description parameters None None approve.
Definition observed (f : Fact) (v : pydata) : result ScenarioFact := fact_observed f v Contracts.AUTHORITATIVE.

Definition fictional_steps : list (result ScenarioStep) := [
  happens "enquiry.created" "A customer submits a website enquiry."
    [observed CUSTOMER_EMAIL (PStr "customer@example.test")]
    [("email", PStr "customer@example.test"); ("message", PStr "I would like a 60-minute appointment next week.")];
  acts "find_available_slots" "The agent checks authoritative availability." [("days", PInt 7)] false;
  acts "send_message" "The agent asks the customer to select an available time."
    [("recipient", scenario_value CUSTOMER_EMAIL []);
     ("body", PStr "We have appointments available. Which time suits you?")] true;
  step_wait_for_event "customer.email_received" "The agent sleeps until the customer replies.";
  happens "customer.email_received" "The customer selects the first available slot."
    [fact_observed CUSTOMER_LAST_MESSAGE (PStr "The first time works for me.") CUSTOMER_CLAIM]
    [("content", PStr "The first time works for me.")];
  acts "propose_booking" "The booking is approved and confirmed."
    [("customer_id", scenario_value CUSTOMER_EMAIL []); ("slot", scenario_value AVAILABLE_SLOTS [inr 0%Z])] true;
  acts "request_payment" "The customer receives an approved payment request."
    [("booking_reference", scenario_value BOOKING_REFERENCE []); ("amount_minor", PInt 12500);
     ("currency", PStr "NZD")] true;
  step_wait_for_event "payment.completed" "The agent sleeps until the payment provider responds.";
  happens "payment.completed" "The provider confirms payment."
    [observed PAYMENT_REFERENCE (scenario_value PAYMENT_REFERENCE []);
     observed PAYMENT_STATUS (PStr "completed"); observed PAYMENT_AMOUNT_MINOR (PInt 12500);
     observed PAYMENT_CURRENCY (PStr "NZD")]
    [("payment_reference", scenario_value PAYMENT_REFERENCE []);
     ("booking_reference", scenario_value BOOKING_REFERENCE [])];
  acts "create_calendar_event" "The paid appointment is added to the calendar."
    [("booking_reference", scenario_value BOOKING_REFERENCE []); ("starts_at", scenario_value BOOKING_SLOT []);
     ("title", PStr "Customer appointment")] false;
  step_fact BOOKING_STATUS (PStr "confirmed") "The booking is authoritative.";
  step_fact PAYMENT_STATUS (PStr "completed") "Payment is authoritative.";
  step_fact CALENDAR_STATUS (PStr "created") "The calendar event is authoritative.";
  step_complete "The journey completes with no open work."].

Definition fictional_scenario (journey : string) : result Scenario :=
  steps ← mapM id fictional_steps;
  let s := mkScenario "happy_path" journey "A customer books and pays"
    "The normal journey from website enquiry to a paid calendar booking." steps FICTIONAL_SCENARIO_STARTED_AT in
  _ ← scenario_post_init s;
  Ok s.

(** ** The project *)

(** [create_fictional_project]; its facts are built where the module is imported.  Its argument
    [state] is what the adapters share, [simulation_state]. *)
Definition create_fictional_project : result Project :=
  _ ← for_each fact_post_init fictional_facts;
  _ ← for_each capability_post_init fictional_capabilities;
  journey ← fictional_journey;
  let routes := fictional_routes (jo_id journey) in
  _ ← for_each route_post_init routes;
  scenario ← fictional_scenario (jo_id journey);
  let p := mkProject "fictional_booking" "0.1.0" "Fictional booking business"
    "A complete demonstration of a durable enquiry-to-booking relationship." [journey] routes fictional_capabilities
    fictional_facts [scenario] ">=0.1,<0.2" in
  _ ← project_post_init p;
  Ok p.

Context (dump_datetime : datetime → string) (dump_time : time → string) (known_zone : string → bool)
  (str_of : pydata → string) (tiramisu_version : string) (specifier_contains : string → string → option bool)
  (output_json_schema : GeneratedOutputType → json).

Definition load_fictional_deployment : result ClientPack :=
  match create_fictional_project ≫= compile_project dump_datetime dump_time known_zone str_of tiramisu_version
          specifier_contains output_json_schema with
  | Raise e =>
      if is_value_error (exn_cls e)
      then raise FictionalDeploymentError ("invalid fictional client pack: " +:+ exn_msg e)
      else Raise e
  | Ok pack => Ok pack
  end.
End project.
