(* ===== verification/FictionalFacts.v ===== *)
(** * The bundled project: confirmed bookings are paid for

    The transition of [builtin/fictional_agent_output.py] against the kernel's validator,
    the simulated providers and the model of its parameters, and the construction of the
    bundled project. *)

From stdpp Require Import base gmap list strings relations.
From Stdlib Require Import ZArith Lia.
From S2P Require Import Prelude Python Identifiers PyTime Json Limits Contracts DecisionPolicy Transitions Definitions Communications Schema Session Deployment State Execution Context AgentTurn Projects Packs Outputs Compiler Adapters AdapterContracts AdapterSafety Digests ScenarioScript ScenarioDriver Fictional.

#[local] Open Scope Z_scope.
#[local] Open Scope string_scope.

(** ** The transition *)

Lemma no_payment d : existsb is_payment (ad_actions d) = false ↔ Forall (λ a, ap_action_type a ≠ "request_payment") (ad_actions d).
Proof.
  rewrite <- not_true_iff_false, existsb_Exists, <- Forall_Exists_neg. unfold is_payment.
  apply Forall_iff. intros a. by rewrite bool_decide_eq_true.
Qed.

(** The last confirmed booking is one of the results. *)
Lemma confirmed_booking_result i reference :
  _confirmed_booking_reference i = Some reference →
  ∃ x, x ∈ ti_action_results i ∧ confirmed_reference x = Some reference.
Proof.
  unfold _confirmed_booking_reference. intros H%head_Some_elem_of.
  apply list_elem_of_omap in H as (x & Hx & E). exists x. split; [|done]. by rewrite list_elem_of_In, in_rev, <- list_elem_of_In.
Qed.

(** What the payment needs of the policy and of the turn. *)
Record PaymentAdmissible (payment : ActionProposal) (d : AgentDecision) (p : DecisionPolicy) (t : TurnExpectation) : Prop := {
  pay_allowed : ap_action_type payment ∈ dp_allowed_action_types p;
  pay_room : Z.of_nat (length (ad_actions d)) + 1 <= dp_max_actions_per_turn p;
  pay_key : ap_logical_action_key payment ∉ ap_logical_action_key <$> ad_actions d;
  pay_parameters : Z.of_nat (length (ap_parameters payment)) <= dp_max_action_parameter_fields p
    ∧ json_at_most (dp_max_action_parameters_bytes p) (JObj (ap_parameters payment));
  pay_no_conflict : action_payload_identity (ap_action_type payment) (ap_parameters payment)
    ∉ te_conflicted_action_payload_hashes t
}.

(** A decision that was admissible stays so with a payment exactly when the payment is. *)
Lemma with_payment_admissible payment d p t :
  Admissible d p t → Admissible (with_payment d payment) p t ↔ PaymentAdmissible payment d p t.
Proof.
  intros Hd. split.
  - intros Hp. pose proof (adm_action_count _ _ _ Hp) as Hn. pose proof (adm_parameters _ _ _ Hp) as Hs.
    pose proof (adm_allowed _ _ _ Hp) as Ha. pose proof (adm_keys _ _ _ Hp) as Hk. pose proof (adm_no_conflict _ _ _ Hp) as Hc.
    cbn in Hn, Hs, Ha, Hk, Hc. rewrite length_app in Hn. rewrite fmap_app, NoDup_app in Hk.
    rewrite Forall_app, Forall_singleton in Hs, Ha, Hc. cbn in Hn. constructor; [apply Ha|lia| |apply Hs|apply Hc].
    intros Hin. destruct Hk as (_ & Hk & _). by destruct (Hk _ Hin); left.
  - intros []. destruct Hd. constructor; cbn; rewrite ?length_app, ?fmap_app, ?Forall_app, ?NoDup_app, ?Forall_singleton; auto.
    + cbn. lia.
    + by case_bool_decide.
    + intros _ H. by case_bool_decide.
    + intros _. left. by destruct (ad_actions d).
    + split_and!; [done| |apply NoDup_singleton]. intros k Hk ->%list_elem_of_singleton. done.
    + intros Hw. apply Exists_app. left. auto.
Qed.

(** The kernel accepts the transformed decision exactly when it is the decision of the model
    or the payment is admissible. *)
Theorem transitions_are_admissible id d i p t :
  Admissible d p t →
  validate_decision (apply_fictional_transitions id d i) p t = Ok (apply_fictional_transitions id d i)
  ↔ (apply_fictional_transitions id d i = d
     ∨ ∃ reference, _confirmed_booking_reference i = Some reference
         ∧ PaymentAdmissible (payment_proposal id reference) d p t).
Proof.
  intros Hd. rewrite validate_decision_ok. unfold apply_fictional_transitions.
  destruct (_confirmed_booking_reference i) as [reference|]; [|naive_solver].
  destruct (existsb _ _); [naive_solver|]. rewrite with_payment_admissible by done. split.
  - intros [_ H]. right. by exists reference.
  - intros [E|(r & [= <-] & H)]; [|done]. exfalso. apply (f_equal (length ∘ ad_actions)) in E. cbn in E.
    rewrite length_app in E. cbn in E. lia.
Qed.

(** ** The providers *)

Section providers.
Context (str_upper : string → string) (read_datetime : string → option datetime) (dump_datetime : datetime → string).
#[local] Abbreviation provider_step := (provider_step str_upper read_datetime dump_datetime).
#[local] Abbreviation execute := (provider_execute str_upper read_datetime).

Definition is_confirmed (s : StubBusinessState) (reference : string) : Prop :=
  ∃ b, sbs_bookings s !! reference = Some b ∧ sbk_status b = "confirmed".

(** The bookings after a step: as they were, or with a confirmed one. *)
Definition confirms (s s' : StubBusinessState) : Prop :=
  sbs_bookings s' = sbs_bookings s
  ∨ ∃ k b, sbk_status b = "confirmed" ∧ sbs_bookings s' = <[k := b]> (sbs_bookings s).

Lemma confirmed_stays s s' reference : confirms s s' → is_confirmed s reference → is_confirmed s' reference.
Proof.
  intros [E|(k & b & Hb & E)] (b' & Hb' & Hs); unfold is_confirmed; rewrite E; [by exists b'|].
  destruct (decide (k = reference)) as [->|Hn]; [exists b; by rewrite lookup_insert_eq|].
  exists b'. by rewrite lookup_insert_ne.
Qed.

Lemma performed_confirms p r s : confirms s (snd (perform_of str_upper read_datetime p r s)).
Proof.
  destruct p; cbn.
  - unfold perform_message. destruct (_ ≫= _) as [|[??]]; by left.
  - unfold perform_booking. destruct (bool_decide _); [by left|]. destruct (negb _); [by left|].
    unfold propose. destruct (_ ≫= _) as [|[customer slot]]; [by left|].
    destruct (slot_taken s slot); [by left|]. right. eexists _, _. split; [|reflexivity]. done.
  - unfold perform_payment. destruct (_ ≫= _) as [|[[??]?]]; by left.
  - unfold perform_calendar. destruct (_ ≫= _) as [|[[??]?]]; by left.
Qed.

(** No check stops with a result. *)
Definition refuses {A} (m : Checked A) : Prop := ∀ result, m ≠ Stop (Performed result).
Lemma refuses_bind {A B} (m : Checked A) (k : A → Checked B) : refuses m → (∀ a, refuses (k a)) → refuses (m ≫= k).
Proof. intros Hm Hk result. destruct m as [r|a]; [intros [= ->]; by apply (Hm result)|exact (Hk a result)]. Qed.
Lemma refuses_fail_if b message : refuses (fail_if b message).
Proof. by destruct b. Qed.
Lemma refuses_string parameters name : refuses (_require_string parameters name).
Proof. intros result. unfold _require_string. destruct (assoc name parameters) as [[]|]; try done. destruct (is_blank _); congruence. Qed.
Lemma refuses_int parameters name : refuses (_require_positive_int parameters name).
Proof. intros result. unfold _require_positive_int. destruct (assoc name parameters) as [[]|]; try done. destruct (_ <? 1)%Z; congruence. Qed.
Lemma refuses_horizon horizon slot : refuses (within_horizon read_datetime horizon slot).
Proof. intros result. unfold within_horizon. destruct (read_datetime slot) as [d|]; [|done]. by destruct (is_naive d). Qed.
Lemma refuses_open s horizon slots : refuses (open_slots read_datetime s horizon slots).
Proof.
  induction slots as [|slot slots IH]; [done|]. cbn. apply refuses_bind; [apply refuses_horizon|]. intros soon.
  by apply refuses_bind.
Qed.

(** A result that confirms a booking names a confirmed booking. *)
Definition names_booking (s : StubBusinessState) (x : ProviderActionResult) : Prop :=
  str_of (fact_of (pres_facts x) "booking.status") = Some "confirmed" →
  ∃ reference, fact_of (pres_facts x) "booking.reference" = Some (JStr reference)
    ∧ assoc "booking_reference" (pres_result x) = Some (JStr reference) ∧ is_confirmed s reference.

Lemma answered_as reference items facts x :
  answered reference items facts = Performed x → x = mkProviderResult reference items facts.
Proof. unfold answered. destruct (checked_facts facts); [by intros [= <-]|done]. Qed.

Lemma performed_names_booking r s x s' :
  perform_booking read_datetime r s = (Performed x, s') → names_booking s' x.
Proof.
  unfold perform_booking. destruct (bool_decide _).
  - unfold find_slots. destruct (_ ≫= _) as [response|slots] eqn:E.
    + intros [= -> <-]. exfalso. revert E. revert x. apply refuses_bind; [apply refuses_int|]. intros n. apply refuses_bind; [by destruct (valid_datetime _)|].
      intros _. apply refuses_open.
    + intros [= Ex%answered_as <-]. subst x. by intros [=].
  - destruct (negb _); [done|]. unfold propose. destruct (_ ≫= _) as [response|[customer slot]] eqn:E.
    + intros [= -> <-]. exfalso. revert E. revert x. apply refuses_bind; [apply refuses_string|]. intros customer.
      apply refuses_bind; [apply refuses_string|]. intros slot. apply refuses_bind; [apply refuses_fail_if|]. done.
    + destruct (slot_taken s slot).
      * intros [= Ex <-]. revert Ex. unfold declined. case_match; done.
      * intros [= Ex%answered_as <-]. subst x. intros _. exists (short_reference "booking_" r). split_and!; [done|done|].
        eexists. split; [apply lookup_insert_eq|done].
Qed.

(** What the booking adapter remembers names confirmed bookings. *)
Definition bookings_answered (w : StubProviders) : Prop :=
  ∀ key x, am_results (sps_memory w BOOKING) !! key = Some x → names_booking (sps_business w) x.

Lemma names_booking_stays s s' x : confirms s s' → names_booking s x → names_booking s' x.
Proof.
  intros Hc Hx Hs. destruct (Hx Hs) as (reference & Hf & Hr & Hb). exists reference. split_and!; [done..|].
  by eapply confirmed_stays.
Qed.

Lemma executed_confirms p r w : confirms (sps_business w) (sps_business (snd (execute p r w))).
Proof.
  unfold provider_execute, stateful_execute. cbn.
  destruct (am_results (sps_memory w p) !! _); [by left|]. destruct (am_conflicts (sps_memory w p) !! _); [by left|].
  pose proof (performed_confirms p r (sps_business w)) as H.
  destruct (perform_of str_upper read_datetime p r (sps_business w)) as [response s]. exact H.
Qed.

Lemma executed_answers p r w : bookings_answered w → bookings_answered (snd (execute p r w)).
Proof.
  intros Ha key x Hx. destruct (decide (p = BOOKING)) as [->|Hp].
  2: { eapply names_booking_stays; [apply executed_confirms|]. apply (Ha key). rewrite other_adapter_remembers in Hx; done. }
  revert Hx. pose proof (executed_confirms BOOKING r w) as Hc. revert Hc. unfold provider_execute, stateful_execute. cbn.
  destruct (am_results (sps_memory w BOOKING) !! pr_idempotency_key r) eqn:E; [intros _ Hx; exact (Ha key x Hx)|].
  destruct (am_conflicts (sps_memory w BOOKING) !! _); [intros _ Hx; exact (Ha key x Hx)|].
  destruct (perform_booking read_datetime r (sps_business w)) as [response s] eqn:Ep. cbn. rewrite decide_True by done. intros Hc.
  destruct response as [y|c|m|m|t m]; cbn; try (intros Hx; eapply names_booking_stays; [exact Hc|exact (Ha key x Hx)]).
  intros [[_ <-]|[_ Hx]]%lookup_insert_Some; [by eapply performed_names_booking|].
  eapply names_booking_stays; [exact Hc|exact (Ha key x Hx)].
Qed.

Lemma step_confirms w w' : provider_step w w' → confirms (sps_business w) (sps_business w').
Proof.
  destruct 1 as [p r w|d s w E|tenant process event at_ reference w|tenant process event at_ reference w|e facts w Hk]; cbn.
  - apply executed_confirms.
  - left. unfold advance_clock in E. apply bind_ok in E as ([] & _ & E). cbv zeta in E.
    by apply bind_ok in E as ([] & _ & [= <-]).
  - unfold confirm_booking. destruct (sbs_bookings (sps_business w) !! reference) as [b|]; [|by left].
    right. eexists _, _. split; [|reflexivity]. done.
  - left. unfold complete_payment. by destruct (sbs_payment_requests (sps_business w) !! reference).
  - by left.
Qed.

Lemma step_answers w w' : provider_step w w' → bookings_answered w → bookings_answered w'.
Proof.
  intros Hs Ha. pose proof (step_confirms _ _ Hs) as Hc.
  destruct Hs; try (intros key x Hx; eapply names_booking_stays; [exact Hc|exact (Ha key x Hx)]).
  by apply executed_answers.
Qed.

Lemma history_answers w w' : rtc provider_step w w' → bookings_answered w → bookings_answered w'.
Proof. induction 1 as [|w w1 w2 H1 _ IH]; [done|]. intros Ha. by apply IH, (step_answers w). Qed.
Lemma history_confirms w w' reference :
  rtc provider_step w w' → is_confirmed (sps_business w) reference → is_confirmed (sps_business w') reference.
Proof.
  induction 1 as [|w w1 w2 H1 _ IH]; [done|]. intros Hc. apply IH. eapply confirmed_stays; [|exact Hc]. by apply step_confirms.
Qed.

(** The context of a result holds what the booking adapter answered under its key. *)
Definition answered_by (w : StubProviders) (x : ActionResultContext) : Prop :=
  ∃ result, port_lookup (stub_port str_upper read_datetime BOOKING) (xc_idempotency_key x) w = FoundResult result
    ∧ xc_facts x = pres_facts result ∧ xc_result x = Some (pres_result result).

Lemma answered_reference w x reference :
  bookings_answered w → answered_by w x → confirmed_reference x = Some reference →
  is_confirmed (sps_business w) reference ∧ is_blank reference = false.
Proof.
  intros Hw (result & Hl & Hf & Hr). cbn in Hl. unfold stateful_lookup in Hl.
  destruct (am_results _ !! _) as [y|] eqn:E; [injection Hl as ->|by destruct (am_conflicts _ !! _)].
  unfold confirmed_reference. rewrite Hf, Hr. destruct (_ && _) eqn:Hg; [|done].
  apply andb_true_iff in Hg as [_ Hs%bool_decide_eq_true].
  destruct (Hw _ _ E Hs) as (known & -> & Hk & Hb). unfold nonblank_str. cbn. rewrite Hk. cbn.
  destruct (is_blank known) eqn:Ek; [done|]. by intros [= <-].
Qed.

(** The payment of a confirmed booking is taken. *)
Lemma payment_taken w r reference :
  is_confirmed (sps_business w) reference → is_blank reference = false →
  pr_action_type r = "request_payment" →
  pr_parameters r = ap_parameters (payment_proposal (uuid 0) reference) →
  port_lookup (stub_port str_upper read_datetime PAYMENT) (pr_idempotency_key r) w = NotFound →
  let p := mkStubPayment (short_reference "payment_" r) reference 12500 (str_upper "NZD") "pending" in
  sbs_payment_requests (sps_business (snd (execute PAYMENT r w)))
    = <[spy_reference p := p]> (sbs_payment_requests (sps_business w))
  ∧ fst (execute PAYMENT r w) = answered (spy_reference p)
      [("payment_reference", JStr (spy_reference p)); ("status", JStr "pending"); ("amount_minor", JInt 12500);
       ("currency", JStr (str_upper "NZD"))]
      [trusted "payment.reference" (JStr (spy_reference p)); trusted "payment.status" (JStr "pending");
       trusted "payment.amount_minor" (JInt 12500); trusted "payment.currency" (JStr (str_upper "NZD"))].
Proof.
  intros (b & Hb & Hs) Hr Ht Hp Hl. cbn in Hl. unfold stateful_lookup in Hl.
  unfold provider_execute, stateful_execute. destruct (am_results _ !! _); [done|]. destruct (am_conflicts _ !! _); [done|].
  assert (_require_string (pr_parameters r) "booking_reference" = Go reference) as Hbk.
  { rewrite Hp. unfold _require_string. change (assoc _ _) with (Some (JStr reference)). cbv iota. by rewrite Hr. }
  assert (booking_confirmed r (sps_business w) reference = true) as Hc.
  { unfold booking_confirmed. rewrite Hb, Hs. by rewrite bool_decide_true. }
  unfold perform_of, perform_payment. rewrite Ht, bool_decide_true by done. cbn -[_require_string _require_positive_int].
  rewrite Hbk. cbn -[_require_string _require_positive_int]. rewrite Hc. cbn -[_require_string _require_positive_int]. rewrite Hp.
  change (_require_positive_int _ "amount_minor") with (Go 12500). cbn -[_require_string].
  change (_require_string _ "currency") with (Go "NZD"). by cbn.
Qed.

End providers.

(** ** The models of the parameters *)

(** The payment the transition adds, which no model has validated, is one the capability's
    model accepts, and dumps to itself, when the provider's reference fits its field. *)
Theorem payment_parameters_are_valid `{PydanticLaws} id reference :
  length_within 1 255 reference = true → is_blank reference = false →
  model_values RequestPaymentParameters
    ((λ kv, (fst kv, json_data (snd kv))) <$> ap_parameters (payment_proposal id reference))
  = Ok (ap_parameters (payment_proposal id reference)).
Proof.
  intros Hl Hb. unfold model_values. change (existsb _ _) with false. cbn [raise_if mbind result_bind].
  cbn [RequestPaymentParameters pc_fields mapM].
  change (assoc "booking_reference" _) with (Some (PStr reference)).
  change (assoc "amount_minor" _) with (Some (PInt 12500)). change (assoc "currency" _) with (Some (PStr "NZD")).
  cbv iota. unfold validate_field. rewrite as_str_id, is_literal_int, is_literal_str. cbn [mbind option_bind].
  rewrite Hl. cbn. by rewrite Hb.
Qed.

(** ** Examples *)

(** The schemas pydantic generates for these types, and values read as what they are. *)
Definition field_schema (t : FieldType) : list (string * json) :=
  match t with
  | F_STR lo hi => [("maxLength", JInt (Z.of_nat hi)); ("minLength", JInt (Z.of_nat lo)); ("type", JStr "string")]
  | F_INT ge le => [("maximum", JInt le); ("minimum", JInt ge); ("type", JStr "integer")]
  | F_LITERAL v => [("const", v)]
  end.
#[local] Instance ex_pydantic : Pydantic := {
  type_schema t := match t with
    | T_STR => [("type", JStr "string")]
    | T_INT => [("type", JStr "integer")]
    | T_STR_LIST => [("items", JObj [("type", JStr "string")]); ("type", JStr "array")]
    | T_LITERAL cs => [("enum", JArr (JStr <$> cs)); ("type", JStr "string")]
    end;
  class_schema c := [("additionalProperties", JBool false);
    ("properties", JObj ((λ '(name, t), (name, JObj (field_schema t))) <$> pc_fields c));
    ("required", JArr (JStr ∘ fst <$> pc_fields c)); ("title", JStr (pc_name c)); ("type", JStr "object")];
  as_str v := match v with PStr s => Some s | _ => None end;
  as_int v := match v with PInt n => Some n | _ => None end;
  as_items v := match v with PList xs | PTuple xs => Some xs | _ => None end;
  is_literal j v := match j, v with
    | JStr s, PStr t => bool_decide (s = t)
    | JInt n, PInt k => (n =? k)%Z
    | _, _ => false
    end
}.
#[local] Instance ex_pydantic_laws : PydanticLaws.
Proof. by constructor. Qed.

(** Every constructor the bundled project calls accepts its arguments. *)
Definition ex_fictional_project : result Project := create_fictional_project (λ _ _, uuid 7).
Example fictional_project_is_created :
  (p ← ex_fictional_project; _ ← project_constructed p;
   Ok (length (concat (sc_steps <$> pr_scenarios p)), ca_action_type <$> pr_capabilities p))
  = Ok (14%nat, ["send_message"; "find_available_slots"; "propose_booking"; "request_payment"; "create_calendar_event"]).
Proof. vm_compute. reflexivity. Qed.

(** A search of more than a year, a blank recipient and a foreign field are refused. *)
Example parameters_are_checked :
  is_ok (model_values FindAvailableSlotsParameters [("days", PInt 366)]) = false
  ∧ is_ok (model_values SendMessageParameters [("recipient", PStr " "); ("body", PStr "hello")]) = false
  ∧ is_ok (model_values SendMessageParameters [("recipient", PStr "a"); ("body", PStr "b"); ("cc", PStr "c")]) = false.
Proof. vm_compute. done. Qed.

Definition ex_booking_key : string := "0123456789abcdef-1".
Definition ex_booking_result : ActionResultContext :=
  mkActionResult (uuid 4) (uuid 5) 1 "propose_booking" [("customer_id", JStr "ada"); ("slot", JStr "monday")]
    AT_SUCCEEDED "stub.booking.v1" ex_booking_key (Some "booking_0123456789abcdef")
    (Some [("booking_reference", JStr "booking_0123456789abcdef"); ("status", JStr "confirmed"); ("slot", JStr "monday")])
    [trusted "booking.reference" (JStr "booking_0123456789abcdef"); trusted "booking.status" (JStr "confirmed");
     trusted "booking.slot" (JStr "monday")] None None None None None.
Definition ex_booked_turn : AgentTurnInput := mkTurnInput (uuid 1) None
  (mkProcessSnapshot (uuid 1) (uuid 2) "enquiry_to_booking" "2" PS_ACTIVE ∅ ∅ ∅ None [] [] [] [] [] [] 3)
  [] [] [ex_booking_result] [] "".
Definition ex_finished : AgentDecision :=
  mkDecision (uuid 3) [] [] [uuid 4] [] DS_COMPLETED [] [] empty_memory.
Definition ex_pay : ProviderActionRequest :=
  mkProviderRequest "request_payment" (ap_parameters (payment_proposal (uuid 9) "booking_0123456789abcdef"))
    "fedcba9876543210-1" (uuid 1) (uuid 2) ∅.

